(* ===== verification/_CoqProject ===== *)
-Q . S2P
Prelude.v
Ranges.v
RangeAlloc.v
RangePages.v
Cursor.v
Packet.v
Net.v
NetBuild.v
NetParse.v
NetFormat.v
NetDevice.v
Dhcp.v
Tcp.v
TcpConn.v
PageTable.v
PageMem.v
PageAlloc.v
PageMap.v
PageSpace.v
PageRam.v
KernelMm.v
KernelHeap.v
KernelAlloc.v
Sync.v
Elf.v
BootMm.v
Boot.v
BootLoad.v
Pci.v
Intel.v
IoApic.v
IntelRing.v
IntelNic.v
IntelHeap.v
IntelSample.v
Acpi.v
AcpiTables.v
Cores.v
CoresUp.v
CoresDown.v
Interrupts.v
InterruptTables.v
InterruptStubs.v
LocalApic.v
ApicReset.v
CoreReqs.v
Serial.v
Time.v
BootInit.v
CoreInit.v
