(* ===== verification/Prelude.v ===== *)
(** * elise: a UEFI bootloader and a poll-based kernel

    elise boots an x86-64 machine through UEFI and runs one kernel image on all of
    its cores.  This library models the parts of the Rust sources that hold its
    logic and proves what they promise.  Paths below are relative to src/.

    ** The program

    - The bootloader (bootloader/) gets the memory map of the firmware, keeps the
      free physical memory in a range set (shared/rangeset), parses the kernel's ELF
      image (shared/elf_parser), builds the kernel's 4-level page table
      (shared/page_table), maps a stack for each core and jumps to the kernel.  A
      soft reboot comes back to it with the free memory of a snapshot.
    - The kernel (kernel/) shares that state (shared/shared_data), allocates from
      per-core free lists backed by the range set (kernel/src/mm.rs,
      core_locals.rs), and polls its network devices (kernel/src/net): packets are
      leased from a driver, parsed and built by the protocols (Ethernet, ARP, IPv4,
      IPv6, UDP, DHCP), and given back to the driver.
    - The first core reads the ACPI tables (kernel/src/acpi), brings the other cores up
      through their local APICs (kernel/src/apic), and enumerates the PCI bus
      (kernel/src/pci), whose drivers claim their devices (an Intel e1000,
      kernel/src/net/drivers).  Interrupts (kernel/src/interrupts) serve panics and a
      timer that watches the serial ports (shared/serial) for a request to reboot;
      then the cores are stopped, the devices and the APIC given back as they were,
      and the bootloader runs again.
    - Spin locks, once-cells and reference counts (shared/spinlock, oncelock,
      autorefcount) protect what cores share.

    ** How the code is modelled

    Outcomes are values of [res]: [Ok], [Err] (the error arm of a [Result], or the
    [None] of an [Option] that is propagated), [Panic], and [Diverge] (a loop that
    exhausted its fuel).  The default build checks overflow, so the plain [+], [-]
    and [*] are [add], [sub], [mul] and panic; [checked_], [saturating_] and
    [wrapping_] operations are what they say.  Integers are [Z] with their width in
    the operation or in a hypothesis ([u8], [u16], [u32], [u64]); bytes are [Z]
    below 256; indexing out of range panics ([index], [slice], [store]).
    A method on [&mut self] is a function in [M S E A], which passes the state
    [S] on and keeps it in an error.  Handlers run under a lock are one step; Sync.v
    is about the locks themselves and has the interleavings.  Code outside the
    sources is an argument or a class with laws: the network driver
    ([NetDriver], [NetDriverLaws]; with the packets that arrived and were sent and the time its
    calls take: [NetHistory], which any scripted driver satisfies once wrapped by [Logged]), physical memory ([PhysMem], [PhysMemLaws]), the
    services of the firmware, the embedded images, PCI configuration ports
    ([PciPorts]), the e1000 chip ([Hardware], [E1000]) and the memory the kernel gives
    its driver ([KernelMem], [KernelPages]), interrupts between processors ([Ipis],
    [IpiLaws]), the APIC and the PICs ([ApicHw], [ApicLaws]), serial chips ([Ports],
    [UartLaws]), the interval timer ([PitHw], [PitLaws]), the chips behind I/O APIC
    registers ([IoBus], [IoApicLaws]), and the calling convention of compiled code ([SysV]).  The classes of
    one component are discharged by another where the sources have both: the
    bootloader's memory for the page tables (BootMm), the kernel's heap for the driver
    (IntelHeap), the driver for the network stack (IntelNic).

    Fuel.  The loops of [RangeSet::insert] and [remove] get one unit per used entry
    and one more; [ElfSegments::next] one per program header left and one more;
    [FreeList::pop] one, for the one nested call a large block makes.  Receive loops
    run on the ticks left until their deadline.  The e1000 driver waits at most
    [patience] polls of the chip ([send]: two more), and its reset 20000 microseconds
    of ticks; an ACPI table has at most as many entries as bytes; the loops of the
    APIC's [reset] need one unit per vector and two more (258); a serial write
    [patience] status reads; calibration as many polls as the countdown has ticks, and one
    more.  Bringing up n cores takes 14 n + 12 fair rounds, a panic
    with highest id m stops the others within 8 m + 7.  In each case a theorem shows that
    the fuel is enough: the result is never [Diverge].

    ** The files

    - Prelude: [res], [M], machine integers, byte sequences, array lemmas.
    - Ranges, RangeAlloc, RangePages: shared/rangeset/src/lib.rs.  The 256-slot array
      is refined to an ordered list of disjoint entries and from there to a set of
      addresses; allocation; how many pages a set can give.
    - Cursor: shared/cursor.  Packet: kernel/src/net/packet.rs.
    - Net: the parsers and builders of kernel/src/net/protocols; NetBuild: what the
      builders write; NetParse: round trips.  NetFormat: the formats of the standards, by
      their offsets, and that the parsers accept exactly those.
    - NetDevice: kernel/src/net/net.rs with the UDP binds of protocols/udp.rs and the
      resolution of protocols/arp.rs, on any driver with the laws.
    - Dhcp: protocols/dhcp.rs and the device registry of net.rs.
    - Tcp: the segments of protocols/tcp.rs; TcpConn: its connections, as far as the
      file, which is outside of the module tree, can be read as a program (the readings
      are listed there).
    - PageTable: shared/page_table/src/lib.rs.  PageMem: the laws of physical memory.
      PageAlloc: how much memory an operation takes.  PageMap: the tree of tables.
      PageSpace: address spaces.  PageRam: new tables and a memory with the laws.
    - KernelMm: kernel/src/mm.rs, kernel/src/core_locals.rs and the layout of
      shared/shared_data/src/constants.rs.  KernelHeap: the heap's invariant.
      KernelAlloc: contiguous allocations, virtual regions, stacks, a boot state.
    - Sync: shared/spinlock, shared/oncelock, shared/autorefcount and the interrupt
      masking of kernel/src/core_locals.rs, as interleaved steps: of threads for the locks, of
      the instructions of nested handlers for the masking.
    - Elf: shared/elf_parser/src/lib.rs.
    - BootMm: bootloader/src/efi/memory.rs, efi/status.rs and bootloader/src/mm.rs;
      the bootloader's memory satisfies the laws of PageMem.
    - Boot: bootloader/src/main.rs and trampoline.rs.  BootLoad: the address space
      they build.  BootInit: the first boot, [init_setup] and all of [efi_main], over
      shared/shared_data/src/lib.rs.
    - Pci: kernel/src/pci.  Intel: kernel/src/net/drivers/intel.rs; IntelRing: the
      descriptor rings; IntelNic: the driver as a [NetDriver]; IntelHeap: its memory;
      IntelSample: a chip with the laws.
    - IoApic: kernel/src/apic/ioapic.rs (outside of the module tree), on the kernel's
      page tables.
    - Time: [calibrate] of kernel/src/time.rs, in IEEE double precision.
    - Acpi: bootloader/src/efi/acpi and kernel/src/acpi; AcpiTables: what the tables
      say and what is made of it.
    - Cores: kernel/src/apic/system.rs, panic.rs, main.rs and the NMI handler, every
      access to shared state a step; CoresUp: bring-up; CoresDown: panics.
    - Interrupts: kernel/src/interrupts/interrupts.rs and gdt.rs; InterruptTables: the
      tables as the processor and the kernel read them.  InterruptStubs: the assembly of
      interrupts/definitions.rs.
    - LocalApic: kernel/src/apic/local.rs and shared/cpu/src/features.rs; ApicReset: what
      [reset] leaves.
    - CoreInit: [init] of kernel/src/core_locals.rs on all cores, interleaved.
    - CoreReqs: shared/core_reqs.  Serial: shared/serial, print.rs and the reboot timer.

    ** What is proved

    - Range sets: [insert], [remove] and [allocate_prefer] do to the set of free
      addresses exactly what they should, never loop, and fail for named reasons.
    - Page tables: [map_raw] and [map_init] change the translation of exactly the
      addresses they are asked to map, keep the tree of tables well formed and the
      memory of others untouched; they fail only where an address is taken or
      memory is short of the pages they need ([short]).
    - Boot: [boot_cores_correct] puts range sets, page tables, the ELF parser and the
      loader together: with enough pages every core reaches the kernel with its own
      stack, in an address space that holds exactly what it should, and the memory of
      the snapshot is spared.  [first_boot_correct] starts before that, at the
      firmware's call, with the serial greeting, the memory map, the ACPI tables and the
      trampoline, whose first page ends up at one address with the same bytes in both
      address spaces (the pages behind it only in the bootloader's).
    - ELF: acceptance, soundness on hostile headers, equality with a declarative
      reading of the table.
    - Heap: blocks handed out never overlap each other, free blocks or free memory;
      freed blocks come back.
    - Network: no received packet makes a parser panic, and the parsers accept exactly
      the formats of the standards; datagrams survive the round trip; receive loops end
      and leak no buffer; a resolved address, a DHCP lease and a TCP connection rest on
      packets that arrived and were sent, in their order.  A TCP connection delivers a
      prefix of the peer's stream whatever the network does, answers each segment as it
      should, and connecting ends.
    - Devices: PCI enumeration probes exactly the functions that exist, once each; the
      e1000 driver delivers what is received and sends what it is given, keeps every
      buffer with exactly one owner, and meets the laws the network stack relies on.
    - Firmware: from the bootloader's search to the kernel's parsers, the processors
      and the memory affinity are exactly what the tables describe.
    - Cores: in every interleaving the bring-up is safe and, scheduled fairly, ends with
      all cores online; every core finds its own structure behind its gs register; a
      panic stops every core below the highest APIC id.
    - Interrupts: the descriptor tables decode to what they were built from; the stubs
      hand over and restore the whole register state (those of vectors 21, 29 and 30
      miss their error code); dispatch, EOIs and draining
      follow the history of registrations; [reset] leaves the APIC as it was found.
    - Serial output, the reboot key, and the memory functions under overlap.
    - Time: calibration ends and finds the rate of the counter, to the nearest 100 MHz,
      through all roundings of the floating-point arithmetic.
    - I/O APICs: redirection entries read back as written except for their mask bit;
      exactly which systems [init] serves and which make it panic.
    - Synchronisation: the ticket lock is fair and exclusive in all interleavings,
      interrupts are masked while a masking lock is held or an interrupt is handled,
      whatever comes in between.

    ** Not modelled

    - Connection::send and recv of kernel/src/net/protocols/tcp.rs: the first uses a
      device, a flag, a field and variables that are declared nowhere, the second is a
      stub.
    - What println! writes after the bootloader's greeting, and the write protection
      trampoline.rs lifts while it maps.
    - Single instructions (shared/cpu/src/lib.rs), the start-up code of a core
      (apic/apic_entry.asm), the declarations of the firmware's tables (efi.rs), the
      text that panics print, embedded images, build and run scripts.
    - Bytes that arrive at a serial port during a call of its driver (so the loop of [init]
      that drains the port finds nothing there), and what the kernel does between the boots
      of two cores.
    - The interrupts that [LocalApic::reset] lets in directly are in ApicReset, not in the
      masking of Sync.

    Witnesses at the ends of the files apply the theorems to concrete states. *)
From Stdlib Require Import ZArith Lia.
From stdpp Require Import prelude list numbers gmap.
#[global] Open Scope Z_scope.

(** * Outcomes of Rust code

    [res E A] is what a call can do: return a value ([Ok]), return the error
    arm of a [Result] or the [None] of an [Option] used with [?] ([Err]),
    panic, or exhaust the fuel of a loop ([Diverge]).  Integer overflow of the
    plain operators panics, as in the default (debug) build. *)
Inductive res (E A : Type) : Type :=
| Ok (a : A)
| Err (e : E)
| Panic
| Diverge.
Arguments Ok {E A} _.
Arguments Err {E A} _.
Arguments Panic {E A}.
Arguments Diverge {E A}.

#[global] Instance res_ret {E} : MRet (res E) := λ A a, Ok a.
#[global] Instance res_bind {E} : MBind (res E) := λ A B f r,
  match r with
  | Ok a => f a
  | Err e => Err e
  | Panic => Panic
  | Diverge => Diverge
  end.

(** Stateful calls ([&mut self]): the state survives a returned error. *)
Definition M (S E A : Type) : Type := S → res (E * S) (A * S).

#[global] Instance M_ret {S E} : MRet (M S E) := λ A a s, Ok (a, s).
#[global] Instance M_bind {S E} : MBind (M S E) := λ A B f m s,
  match m s with
  | Ok (a, s') => f a s'
  | Err e => Err e
  | Panic => Panic
  | Diverge => Diverge
  end.

Definition get {S E} : M S E S := λ s, Ok (s, s).
Definition put {S E} (s : S) : M S E unit := λ _, Ok (tt, s).
Definition throw {S E A} (e : E) : M S E A := λ s, Err (e, s).
Definition panic {S E A} : M S E A := λ _, Panic.
Definition diverge {S E A} : M S E A := λ _, Diverge.
Definition lift {S E A} (r : res E A) : M S E A := λ s,
  match r with
  | Ok a => Ok (a, s)
  | Err e => Err (e, s)
  | Panic => Panic
  | Diverge => Diverge
  end.

Definition ok_or {E A} (o : option A) (e : E) : res E A :=
  match o with Some a => Ok a | None => Err e end.
Definition unwrap {E A} (o : option A) : res E A :=
  match o with Some a => Ok a | None => Panic end.
(** [.unwrap()] and [.expect()] on a [Result]: the error becomes a panic. *)
Definition unwrap_res {E E' A} (r : res E A) : res E' A :=
  match r with Ok a => Ok a | Err _ | Panic => Panic | Diverge => Diverge end.
Definition unwrap_M {S E E' A} (m : M S E A) : M S E' A := λ s, unwrap_res (m s).
Definition assert {E} (b : bool) : res E unit := if b then Ok tt else Panic.

(** [returns r]: the call comes back with a value or an error, so it neither
    panics nor loops. *)
Definition returns {E A} (r : res E A) : Prop := r ≠ Panic ∧ r ≠ Diverge.

(** * Machine integers *)
Definition fits (w : Z) (x : Z) : Prop := 0 ≤ x < 2 ^ w.
Abbreviation u8 := (fits 8).
Abbreviation u16 := (fits 16).
Abbreviation u32 := (fits 32).
Abbreviation u64 := (fits 64).
Definition umax (w : Z) : Z := 2 ^ w - 1.
Abbreviation U64_MAX := (umax 64).

Definition checked_add (w a b : Z) : option Z :=
  if a + b <? 2 ^ w then Some (a + b) else None.
Definition checked_sub (a b : Z) : option Z :=
  if b <=? a then Some (a - b) else None.
Definition checked_mul (w a b : Z) : option Z :=
  if a * b <? 2 ^ w then Some (a * b) else None.
Definition saturating_add (w a b : Z) : Z := Z.min (a + b) (umax w).
Definition saturating_sub (a b : Z) : Z := Z.max (a - b) 0.
Definition wrapping_add (w a b : Z) : Z := (a + b) mod 2 ^ w.
Definition wrapping_sub (w a b : Z) : Z := (a - b) mod 2 ^ w.
(** Plain [+], [-], [*] and [as] on unsigned integers of width [w]. *)
Definition add {E} (w a b : Z) : res E Z := unwrap (checked_add w a b).
Definition sub {E} (a b : Z) : res E Z := unwrap (checked_sub a b).
Definition mul {E} (w a b : Z) : res E Z := unwrap (checked_mul w a b).
Definition cast (w a : Z) : Z := a mod 2 ^ w.
(** [!a] *)
Definition unot (w a : Z) : Z := umax w - a.

Fixpoint pos_ones (p : positive) : nat :=
  match p with
  | xH => 1
  | xO p => pos_ones p
  | xI p => S (pos_ones p)
  end.
Definition count_ones (x : Z) : nat :=
  match x with Zpos p => pos_ones p | _ => 0 end.

(** * Byte sequences *)
Fixpoint le_val (l : list Z) : Z :=
  match l with [] => 0 | b :: l => b + 256 * le_val l end.
Fixpoint le_bytes (n : nat) (x : Z) : list Z :=
  match n with O => [] | S n => x mod 256 :: le_bytes n (x / 256) end.
Definition be_val (l : list Z) : Z := le_val (reverse l).
Definition be_bytes (n : nat) (x : Z) : list Z := reverse (le_bytes n x).
Abbreviation bytes_ok := (Forall (fits 8)).

Definition zlen {A} (l : list A) : Z := Z.of_nat (length l).
(** [l.get(a..b)] *)
Definition get_range {A} (l : list A) (a b : Z) : option (list A) :=
  if (0 <=? a) && (a <=? b) && (b <=? zlen l)
  then Some (take (Z.to_nat (b - a)) (drop (Z.to_nat a) l)) else None.
(** [l.get(a..)] *)
Definition get_from {A} (l : list A) (a : Z) : option (list A) :=
  get_range l a (zlen l).
(** [l[i]] and [l[a..b]] *)
Definition index {E A} (l : list A) (i : nat) : res E A := unwrap (l !! i).
Definition slice {E A} (l : list A) (a b : Z) : res E (list A) :=
  unwrap (get_range l a b).
(** [l[i] = x] *)
Definition store {E A} (l : list A) (i : nat) (x : A) : res E (list A) :=
  if (i <? length l)%nat then Ok (<[i := x]> l) else Panic.
(** [l[a..b].copy_from_slice(src)] *)
Definition splice {A} (l : list A) (a : nat) (src : list A) : list A :=
  take a l ++ src ++ drop (a + length src) l.
Definition copy_from_slice {E A} (l : list A) (a b : nat) (src : list A)
    : res E (list A) :=
  if (a <=? b)%nat && (b <=? length l)%nat && (length src =? b - a)%nat
  then Ok (splice l a src) else Panic.
(** [l.copy_within(a..b, dst)] *)
Definition copy_within {E A} (l : list A) (a b dst : nat) : res E (list A) :=
  if (a <=? b)%nat && (b <=? length l)%nat && (dst + (b - a) <=? length l)%nat
  then Ok (splice l dst (take (b - a) (drop a l))) else Panic.
(** [l.swap(i, j)] *)
Definition swap {E A} (l : list A) (i j : nat) : res E (list A) :=
  x ← index l i; y ← index l j; Ok (<[j := x]> (<[i := y]> l)).

(** * Shared lemmas *)

(** Inversion of the binds of [res] and [M]. *)
Lemma res_bind_Ok {E A B} (m : res E A) (f : A → res E B) b :
  m ≫= f = Ok b → ∃ a, m = Ok a ∧ f a = Ok b.
Proof. destruct m; naive_solver. Qed.

Lemma M_bind_Ok {S E A B} (m : M S E A) (f : A → M S E B) s a s' :
  m s = Ok (a, s') → (m ≫= f) s = f a s'.
Proof. intros H. unfold mbind, M_bind. by rewrite H. Qed.

Lemma M_bind_Err {S E A B} (m : M S E A) (f : A → M S E B) s e :
  m s = Err e → (m ≫= f) s = Err e.
Proof. intros H. unfold mbind, M_bind. by rewrite H. Qed.

(** ** Lists as arrays *)
Section arrays.
Context {E A : Type}.
Implicit Types (a b c l : list A) (x y : A).

Lemma index_middle a x b : index (E:=E) (a ++ x :: b) (length a) = Ok x.
Proof. unfold index. by rewrite list_lookup_middle. Qed.

Lemma index_lookup l i x : l !! i = Some x → index (E:=E) l i = Ok x.
Proof. intros H. unfold index. by rewrite H. Qed.

Lemma insert_middle a x y b : <[length a := y]> (a ++ x :: b) = a ++ y :: b.
Proof. by rewrite insert_app_r_alt, Nat.sub_diag. Qed.

Lemma store_middle a x y b :
  store (E:=E) (a ++ x :: b) (length a) y = Ok (a ++ y :: b).
Proof.
  unfold store. rewrite (proj2 (Nat.ltb_lt _ _)).
  - by rewrite insert_middle.
  - rewrite length_app. simpl. lia.
Qed.

Lemma splice_middle a b b' c :
  length b = length b' → splice (a ++ b ++ c) (length a) b' = a ++ b' ++ c.
Proof.
  intros H. unfold splice. rewrite take_app_length. f_equal. f_equal.
  rewrite <-H, <-drop_drop, drop_app_length. apply drop_app_length.
Qed.

Lemma copy_from_slice_middle a b b' c :
  length b = length b' →
  copy_from_slice (E:=E) (a ++ b ++ c) (length a) (length a + length b) b'
  = Ok (a ++ b' ++ c).
Proof.
  intros H. unfold copy_from_slice.
  replace (_ && _ && _)%bool with true.
  - by rewrite splice_middle.
  - symmetry. rewrite !length_app, !andb_true_iff, !Nat.leb_le, Nat.eqb_eq. lia.
Qed.

(** Open a hole at [length a] in front of [b] and write [y] into it. *)
Lemma copy_within_store a b z c y :
  b ≠ [] →
  (l ← copy_within (E:=E) (a ++ b ++ z :: c) (length a) (length a + length b)
         (S (length a));
   store l (length a) y) = Ok (a ++ y :: b ++ c).
Proof.
  intros Hb. unfold copy_within.
  replace (_ && _ && _)%bool with true.
  2:{ symmetry. rewrite !length_app, !andb_true_iff, !Nat.leb_le. simpl. lia. }
  replace (length a + length b - length a)%nat with (length b) by lia.
  rewrite drop_app_length, take_app_length. cbn [mbind res_bind].
  destruct b as [|b0 b]; [done|].
  replace (splice _ _ _) with (a ++ b0 :: (b0 :: b) ++ c).
  - apply (store_middle a b0 y).
  - unfold splice. rewrite take_S_r with (x := b0)
      by (change ((b0 :: b) ++ z :: c) with (b0 :: b ++ z :: c);
          by rewrite list_lookup_middle).
    rewrite take_app_length, <-app_assoc. simpl. f_equal. f_equal. f_equal. f_equal.
    replace (S (length a + S (length b))) with (length a + S (S (length b)))%nat by lia.
    rewrite <-drop_drop, drop_app_length. simpl.
    replace (S (length b)) with (length b + 1)%nat by lia.
    by rewrite <-drop_drop, drop_app_length.
Qed.

Lemma swap_middle a x y b :
  swap (E:=E) (a ++ x :: y :: b) (length a) (S (length a)) = Ok (a ++ y :: x :: b).
Proof.
  unfold swap. rewrite index_middle. cbn [mbind res_bind].
  replace (a ++ x :: y :: b) with ((a ++ [x]) ++ y :: b) by (by rewrite <-app_assoc).
  replace (S (length a)) with (length (a ++ [x])) by (rewrite length_app; simpl; lia).
  rewrite index_middle. cbn [mbind res_bind].
  rewrite <-app_assoc. simpl. rewrite insert_middle.
  replace (a ++ y :: y :: b) with ((a ++ [y]) ++ y :: b) by (by rewrite <-app_assoc).
  replace (length (a ++ [x])) with (length (a ++ [y])) by (rewrite !length_app; done).
  by rewrite insert_middle, <-app_assoc.
Qed.
End arrays.

(** ** Powers of two, masks and alignment *)
Lemma pos_ones_pos p : (1 ≤ pos_ones p)%nat.
Proof. induction p; simpl; lia. Qed.

Lemma pos_ones_one p : pos_ones p = 1%nat → ∃ k, 0 ≤ k ∧ Zpos p = 2 ^ k.
Proof.
  induction p as [p _|p IH|]; simpl; intros H.
  - pose proof (pos_ones_pos p). lia.
  - destruct (IH H) as (k & Hk & Hp). exists (k + 1). split; [lia|].
    rewrite Z.pow_add_r by lia. lia.
  - by exists 0.
Qed.

Lemma count_ones_one x : count_ones x = 1%nat → ∃ k, 0 ≤ k ∧ x = 2 ^ k.
Proof. destruct x; [done| |done]. apply pos_ones_one. Qed.

Lemma count_ones_pow2 k : 0 ≤ k → count_ones (2 ^ k) = 1%nat.
Proof.
  revert k. apply natlike_ind; [done|]. intros k Hk IH.
  rewrite Z.pow_succ_r by lia. destruct (2 ^ k) eqn:E; simpl in *; try done.
Qed.

Lemma land_mask a k : 0 ≤ k → Z.land a (2 ^ k - 1) = a mod 2 ^ k.
Proof.
  intros Hk. rewrite <-Z.land_ones by done. f_equal. rewrite Z.ones_equiv. lia.
Qed.

(** [a & !(2^k - 1)] rounds a [w]-bit integer down to a multiple of [2^k]. *)
Lemma land_unot_mask w a k :
  fits w a → 0 ≤ k ≤ w → Z.land a (unot w (2 ^ k - 1)) = a - a mod 2 ^ k.
Proof.
  intros [Ha1 Ha2] Hk.
  assert (unot w (2 ^ k - 1) = Z.shiftl (Z.ones (w - k)) k) as ->.
  { unfold unot, umax. rewrite Z.shiftl_mul_pow2, Z.ones_equiv by lia.
    replace w with ((w - k) + k) at 1 by lia. rewrite Z.pow_add_r by lia. lia. }
  assert (Z.land a (Z.shiftl (Z.ones (w - k)) k)
          = Z.shiftl (Z.land (Z.shiftr a k) (Z.ones (w - k))) k) as ->.
  { apply Z.bits_inj'. intros i Hi. rewrite Z.land_spec.
    destruct (Z.lt_ge_cases i k).
    - by rewrite !Z.shiftl_spec_low, andb_false_r by lia.
    - rewrite !Z.shiftl_spec_high, Z.land_spec, Z.shiftr_spec by lia.
      do 2 f_equal. lia. }
  rewrite Z.land_ones, Z.shiftl_mul_pow2, Z.shiftr_div_pow2 by lia.
  rewrite (Z.mod_small (a / 2 ^ k)).
  - rewrite (Z.div_mod a (2 ^ k)) at 2 by lia. lia.
  - split; [apply Z.div_pos; lia|]. apply Z.div_lt_upper_bound; [lia|].
    rewrite <-Z.pow_add_r by lia. by replace (k + (w - k)) with w by lia.
Qed.

(** The padding in front of an allocation. *)
Lemma padding_spec s k :
  0 ≤ k →
  let p := Z.land (2 ^ k - Z.land s (2 ^ k - 1)) (2 ^ k - 1) in
  0 ≤ p < 2 ^ k ∧ (2 ^ k | s + p).
Proof.
  intros Hk p. subst p. rewrite !land_mask by done.
  assert (0 < 2 ^ k) by lia. split; [by apply Z.mod_pos_bound|].
  apply Z.mod_divide; [lia|]. rewrite Z.add_mod_idemp_r by lia.
  replace (s + (2 ^ k - s mod 2 ^ k)) with (s - s mod 2 ^ k + 1 * 2 ^ k) by lia.
  rewrite Z.mod_add, Zminus_mod_idemp_r, Z.sub_diag by lia. apply Z.mod_0_l. lia.
Qed.

Lemma lor_low a k c : 0 ≤ k → 0 ≤ c < 2 ^ k → Z.lor (a * 2 ^ k) c = a * 2 ^ k + c.
Proof.
  intros Hk Hc. rewrite <-Z.shiftl_mul_pow2 by done. rewrite <-Z.add_lor_land.
  assert (Z.land (Z.shiftl a k) c = 0) as ->; [|lia].
  apply Z.bits_inj'. intros i Hi. rewrite Z.land_spec, Z.bits_0.
  destruct (Z.lt_ge_cases i k); [by rewrite Z.shiftl_spec_low|].
  rewrite <-(Z.mod_small c (2 ^ k)), Z.mod_pow2_bits_high by lia. apply andb_false_r.
Qed.

(** ** Plain arithmetic that does not overflow *)
Lemma add_Ok {E} w a b : a + b < 2 ^ w → add (E:=E) w a b = Ok (a + b).
Proof. intros H. unfold add, checked_add. by rewrite (proj2 (Z.ltb_lt _ _) H). Qed.
Lemma sub_Ok {E} a b : b ≤ a → sub (E:=E) a b = Ok (a - b).
Proof. intros H. unfold sub, checked_sub. by rewrite (proj2 (Z.leb_le _ _) H). Qed.
Lemma mul_Ok {E} w a b : a * b < 2 ^ w → mul (E:=E) w a b = Ok (a * b).
Proof. intros H. unfold mul, checked_mul. by rewrite (proj2 (Z.ltb_lt _ _) H). Qed.

(** ** Safety: a call returns, and a returned value satisfies [Q] *)
Definition safe {E A} (Q : A → Prop) (r : res E A) : Prop :=
  match r with Ok a => Q a | Err _ => True | _ => False end.

Section safety.
Context {E A B : Type}.
Implicit Types (Q : A → Prop) (l : list A).

Lemma safe_returns Q (r : res E A) : safe Q r → returns r.
Proof. by destruct r. Qed.

Lemma safe_bind Q (R : B → Prop) (r : res E A) (f : A → res E B) :
  safe Q r → (∀ a, Q a → safe R (f a)) → safe R (r ≫= f).
Proof. destruct r; simpl; auto. Qed.

Lemma safe_weaken Q Q' (r : res E A) : safe Q r → (∀ a, Q a → Q' a) → safe Q' r.
Proof. destruct r; simpl; auto. Qed.

Lemma safe_if Q (b : bool) (r1 r2 : res E A) :
  (b = true → safe Q r1) → (b = false → safe Q r2) → safe Q (if b then r1 else r2).
Proof. destruct b; auto. Qed.

Lemma safe_ok_or Q (o : option A) (e : E) : (∀ a, o = Some a → Q a) → safe Q (ok_or o e).
Proof. destruct o; simpl; auto. Qed.
End safety.

(** The same for stateful calls, with a value: [runs m s Q] says that [m] returns
    from [s] with a value and a state that satisfy [Q]. *)
Definition runs {S E A} (m : M S E A) (s : S) (Q : A → S → Prop) : Prop :=
  ∃ a s', m s = Ok (a, s') ∧ Q a s'.

Section running.
Context {S E A B : Type}.
Implicit Types (s : S).

Lemma runs_bind (m : M S E A) (f : A → M S E B) s Q (R : B → S → Prop) :
  runs m s Q → (∀ a s', Q a s' → runs (f a) s' R) → runs (m ≫= f) s R.
Proof.
  intros (a & s' & Hm & HQ) Hf. destruct (Hf a s' HQ) as (b & s'' & Hb & HR).
  exists b, s''. split; [|done]. by rewrite (M_bind_Ok _ _ _ _ _ Hm).
Qed.
Lemma runs_weaken (m : M S E A) s Q (R : A → S → Prop) :
  runs m s Q → (∀ a s', Q a s' → R a s') → runs m s R.
Proof. intros (a & s' & Hm & HQ) H. exists a, s'. auto. Qed.
Lemma runs_ret (a : A) s (Q : A → S → Prop) : Q a s → runs (E:=E) (mret a) s Q.
Proof. intros H. by exists a, s. Qed.
Lemma runs_get s (Q : S → S → Prop) : Q s s → runs (E:=E) get s Q.
Proof. intros H. by exists s, s. Qed.
Lemma runs_put s s' (Q : unit → S → Prop) : Q tt s' → runs (E:=E) (put s') s Q.
Proof. intros H. by exists tt, s'. Qed.
Lemma runs_lift (r : res E A) a s (Q : A → S → Prop) : r = Ok a → Q a s → runs (lift r) s Q.
Proof. intros -> H. by exists a, s. Qed.
End running.

Lemma get_range_Some {A} (l r : list A) a b :
  get_range l a b = Some r →
  ∃ x y, l = x ++ r ++ y ∧ zlen x = a ∧ zlen r = b - a.
Proof.
  unfold get_range, zlen. destruct (_ && _ && _) eqn:H; [|done]. intros [= <-].
  apply andb_true_iff in H as [[H1 H2]%andb_true_iff H3].
  apply Z.leb_le in H1, H2, H3. unfold zlen in *.
  exists (take (Z.to_nat a) l), (drop (Z.to_nat b) l). split; [|split].
  - rewrite <-(take_drop (Z.to_nat a) l) at 1. f_equal.
    rewrite <-(take_drop (Z.to_nat (b - a)) (drop (Z.to_nat a) l)) at 1. f_equal.
    rewrite drop_drop. f_equal. lia.
  - rewrite length_take. lia.
  - rewrite length_take, length_drop. lia.
Qed.

Lemma get_range_app {A} (x r y : list A) a b :
  zlen x = a → zlen r = b - a → get_range (x ++ r ++ y) a b = Some r.
Proof.
  unfold get_range, zlen. intros Ha Hb. rewrite !length_app.
  rewrite !(proj2 (Z.leb_le _ _)) by lia. simpl. f_equal.
  rewrite <-Ha, Nat2Z.id, drop_app_length.
  replace (Z.to_nat (b - Z.of_nat (length x))) with (length r) by lia. apply take_app_length.
Qed.

Lemma get_range_in {A} (l : list A) a b :
  0 ≤ a → a ≤ b → b ≤ zlen l → ∃ r, get_range l a b = Some r.
Proof. intros. unfold get_range. rewrite !(proj2 (Z.leb_le _ _)) by lia. eauto. Qed.

Lemma safe_slice {E A} (l : list A) a b :
  0 ≤ a → a ≤ b → b ≤ zlen l →
  safe (E:=E) (λ r, zlen r = b - a ∧ ∃ x y, l = x ++ r ++ y ∧ zlen x = a) (slice l a b).
Proof.
  intros H1 H2 H3. destruct (get_range_in l a b) as [r Hr]; [done..|].
  unfold slice. rewrite Hr. simpl. destruct (get_range_Some _ _ _ _ Hr) as (x & y & ? & ? & ?).
  split; [done|]. by exists x, y.
Qed.

Lemma safe_index {E A} (l : list A) i :
  (i < length l)%nat → safe (E:=E) (λ x, l !! i = Some x) (index l i).
Proof. intros H. unfold index. destruct (lookup_lt_is_Some_2 l i H) as [x Hx]. by rewrite Hx. Qed.

Create Rewrite HintDb rust.
#[export] Hint Rewrite @add_Ok @sub_Ok @mul_Ok using lia : rust.

(** Run the binds whose left side is already a value. *)
Ltac run_ok := repeat (autorewrite with rust; cbn [mbind res_bind]).
