(* ===== verification/Ranges.v ===== *)
(** The range set of shared/rangeset/src/lib.rs: the physical memory map that
    the bootloader builds and both the bootloader and the kernel allocate from.

    [Range] and [RangeSet] translate the structs and their methods on the
    256-slot array as the code writes them.  The second half refines the array
    code to functions on the list of used entries, gives the set of addresses
    a range set denotes, and proves what each operation does to it. *)
From Stdlib Require Import ZArith Lia.
From stdpp Require Import prelude list numbers.
From S2P Require Import Prelude.

(** * Data *)
Record Range := mkRange { start : Z; end_ : Z }.

#[global] Instance Range_eq_dec : EqDecision Range.
Proof. solve_decision. Defined.

Inductive Error :=
| InvalidRange (r : Range)
| IndexOutOfBounds (i : nat)
| RangeSetOverflow
| ZeroSizedAllocation
| WrongAlignment (a : Z).

Module Range.

Definition new_unchecked (s e : Z) : Range := mkRange s e.

Definition new (s e : Z) : res Error Range :=
  if s <=? e then Ok (new_unchecked s e)
  else Err (InvalidRange (new_unchecked s e)).

Definition contains (self other : Range) : bool :=
  (start self <=? start other) && (end_ other <=? end_ self).

Definition overlaps (self other : Range) : option Range :=
  if (start self <=? end_ other) && (start other <=? end_ self)
  then Some (new_unchecked (Z.max (start self) (start other))
                           (Z.min (end_ self) (end_ other)))
  else None.

End Range.

(** [in_use] is a [u32] that never exceeds the 256 slots, and indexes are
    [usize]: both are natural numbers here. *)
Record RangeSet := mkRangeSet { ranges : list Range; in_use : nat }.

Definition N_RANGES : nat := 256.

Module RangeSet.

Definition new : RangeSet := mkRangeSet (replicate N_RANGES (mkRange 0 0)) 0.

Definition entries (self : RangeSet) : list Range :=
  take (in_use self) (ranges self).

Definition len (self : RangeSet) : res unit Z :=
  foldl (λ acc x,
    a ← acc; d ← sub (end_ x) (start x);
    n ← ok_or (checked_add 64 d 1) tt; add 64 a n)
    (Ok 0) (entries self).

Definition is_empty (self : RangeSet) : bool := (in_use self =? 0)%nat.

(** [for i in idx..idx + n { ranges.swap(i, i + 1) }] *)
Fixpoint swap_down (l : list Range) (i n : nat) : res Error (list Range) :=
  match n with
  | O => Ok l
  | S n => l' ← swap l i (S i); swap_down l' (S i) n
  end.

Definition delete (idx : nat) : M RangeSet Error unit :=
  self ← get;
  if (in_use self <=? idx)%nat then throw (IndexOutOfBounds idx)
  else l ← lift (swap_down (ranges self) idx (in_use self - 1 - idx));
       put (mkRangeSet l (in_use self - 1)).

(** The [while] loop of [insert]: the position and the merged range. *)
Fixpoint insert_loop (fuel idx : nat) (range : Range)
    : M RangeSet Error (nat * Range) :=
  match fuel with
  | O => λ _, Diverge
  | S fuel =>
      self ← get;
      if (in_use self <=? idx)%nat then mret (idx, range)
      else
        entry ← lift (index (ranges self) idx);
        eend ← lift (ok_or (checked_add 64 (end_ entry) 1) RangeSetOverflow);
        if eend <? start range then insert_loop fuel (S idx) range
        else if end_ range <? start entry then mret (idx, range)
        else
          let range := mkRange (Z.min (start entry) (start range))
                               (Z.max (end_ entry) (end_ range)) in
          _ ← delete idx;
          insert_loop fuel idx range
  end.

Definition insert (range : Range) : M RangeSet Error unit :=
  self ← get;
  '(idx, range) ← insert_loop (S (in_use self)) 0 range;
  self ← get;
  if (length (ranges self) <=? in_use self)%nat then throw RangeSetOverflow
  else
    l ← (if (idx <? in_use self)%nat
         then lift (copy_within (ranges self) idx (in_use self) (S idx))
         else mret (ranges self));
    l ← lift (store l idx range);
    put (mkRangeSet l (S (in_use self))).

Definition split_entry (idx : nat) (range : Range) : M RangeSet Error bool :=
  self ← get;
  if (in_use self <=? idx)%nat then throw (IndexOutOfBounds idx)
  else if (length (ranges self) <=? in_use self)%nat then throw RangeSetOverflow
  else
    entry ← lift (index (ranges self) idx);
    if negb (Range.contains entry range) then mret false
    else
      l ← lift (store (ranges self) idx
        (mkRange (start entry)
           (if start entry <? start range then saturating_sub (start range) 1
            else start entry)));
      l ← (if (idx + 1 <? in_use self)%nat
           then lift (copy_within l (idx + 1) (in_use self) (idx + 2))
           else mret l);
      _ ← put (mkRangeSet l (in_use self));
      new ← lift (Range.new (saturating_add 64 (end_ range) 1) (end_ entry));
      l ← lift (store l (idx + 1) new);
      _ ← put (mkRangeSet l (S (in_use self)));
      mret true.

(** The [while] loop of [remove]. *)
Fixpoint remove_loop (fuel idx : nat) (any_removed : bool) (range : Range)
    : M RangeSet Error bool :=
  match fuel with
  | O => λ _, Diverge
  | S fuel =>
      self ← get;
      if (in_use self <=? idx)%nat then mret any_removed
      else
        entry ← lift (index (ranges self) idx);
        match Range.overlaps entry range with
        | None => remove_loop fuel (S idx) any_removed range
        | Some _ =>
            if Range.contains range entry then
              _ ← delete idx; remove_loop fuel idx true range
            else if start range <=? start entry then
              l ← lift (store (ranges self) idx
                (mkRange (saturating_add 64 (end_ range) 1) (end_ entry)));
              _ ← put (mkRangeSet l (in_use self));
              remove_loop fuel (S idx) true range
            else if end_ entry <=? end_ range then
              l ← lift (store (ranges self) idx
                (mkRange (start entry) (saturating_sub (start range) 1)));
              _ ← put (mkRangeSet l (in_use self));
              remove_loop fuel (S idx) true range
            else
              split ← split_entry idx range;
              remove_loop fuel (S (idx + if split : bool then 1 else 0)) true range
        end
  end.

Definition remove (range : Range) : M RangeSet Error bool :=
  self ← get;
  remove_loop (S (in_use self)) 0 false range.

(** The search of [allocate_prefer]. A candidate is [(start, end, ptr)]. *)
Definition candidate : Type := Z * Z * Z.

(** What the loop over the preferred regions does to the search: fall through
    to the best-fit test, [continue 'search], or [break 'search]. *)
Inductive region_step := Fall | Continue | Break (c : candidate).

Fixpoint try_regions (entry : Range) (size align_mask : Z) (regions : list Range)
    : res Error region_step :=
  match regions with
  | [] => Ok Fall
  | region :: regions =>
      match Range.overlaps entry region with
      | None => try_regions entry size align_mask regions
      | Some o =>
          let aligned := Z.land (wrapping_add 64 (start o) align_mask)
                                (unot 64 align_mask) in
          fits ← (if (start o <=? aligned) && (aligned <=? end_ o) then
                    room ← sub (end_ o) aligned;
                    need ← sub size 1;
                    Ok (need <=? room)
                  else Ok false);
          if fits : bool then
            need ← sub size 1;
            alc_end ← add 64 aligned need;
            if (U64_MAX <? aligned) || (U64_MAX <? alc_end) then Ok Continue
            else Ok (Break (aligned, alc_end, aligned))
          else try_regions entry size align_mask regions
      end
  end.

(** [inl c]: the loop ended with the candidate [c]; [inr tt]: early
    [return Ok(None)]. *)
Fixpoint search (size align : Z) (regions : option RangeSet)
    (allocation : option candidate) (l : list Range)
    : res Error (option candidate + unit) :=
  match l with
  | [] => Ok (inl allocation)
  | entry :: l =>
      align_mask ← sub align 1;
      gap ← sub align (Z.land (start entry) align_mask);
      let padding := Z.land gap align_mask in
      need ← sub size 1;
      match checked_add 64 (start entry) need ≫= (λ e, checked_add 64 e padding) with
      | None => Ok (inr tt)
      | Some en =>
          if end_ entry <? en then search size align regions allocation l
          else
            step ← match regions with
                   | Some rs => try_regions entry size align_mask (entries rs)
                   | None => Ok Fall
                   end;
            match step with
            | Continue => search size align regions allocation l
            | Break c => Ok (inl (Some c))
            | Fall =>
                here ← sub en (start entry);
                ptr ← add 64 (start entry) padding;
                better ← match allocation with
                         | None => Ok true
                         | Some (s, e, _) => prev ← sub e s; Ok (here <? prev)
                         end;
                search size align regions
                  (if better : bool then Some (start entry, en, ptr) else allocation) l
            end
      end
  end.

Definition allocate_prefer (size align : Z) (regions : option RangeSet)
    : M RangeSet Error (option Z) :=
  if size =? 0 then throw ZeroSizedAllocation
  else if negb (count_ones align =? 1)%nat then throw (WrongAlignment align)
  else
    self ← get;
    found ← lift (search size align regions None (entries self));
    match found with
    | inr _ | inl None => mret None
    | inl (Some (s, e, ptr)) =>
        _ ← unwrap_M (remove (mkRange s e));
        mret (Some ptr)
    end.

Definition allocate (size align : Z) : M RangeSet Error (option Z) :=
  allocate_prefer size align None.

End RangeSet.

(** * Refinement to lists

    [shape rs es]: the used entries of the array are exactly [es]. *)
Definition shape (rs : RangeSet) (es : list Range) : Prop :=
  length (ranges rs) = N_RANGES ∧
  ∃ junk, ranges rs = es ++ junk ∧ in_use rs = length es.

Definition merge (e r : Range) : Range :=
  mkRange (Z.min (start e) (start r)) (Z.max (end_ e) (end_ r)).

(** The scan of [insert] over the entries: those skipped, the merged range,
    those left, and whether every end passed on the way had a successor. *)
Fixpoint scan (r : Range) (es : list Range) : list Range * Range * list Range * bool :=
  match es with
  | [] => ([], r, [], true)
  | e :: es' =>
      if 2 ^ 64 <=? end_ e + 1 then ([], r, es, false)
      else if end_ e + 1 <? start r then
        let '(s, r', a, ok) := scan r es' in (e :: s, r', a, ok)
      else if end_ r <? start e then ([], r, es, true)
      else scan (merge e r) es'
  end.

Inductive insert_outcome := Inserted (es : list Range) | Refused (es : list Range).

Definition list_insert (r : Range) (es : list Range) : insert_outcome :=
  let '(s, r', a, ok) := scan r es in
  if ok && (length (s ++ a) <? N_RANGES)%nat then Inserted (s ++ r' :: a)
  else Refused (s ++ a).

(** What [remove] leaves of one entry. *)
Definition cut (range e : Range) : list Range :=
  match Range.overlaps e range with
  | None => [e]
  | Some _ =>
      if Range.contains range e then []
      else if start range <=? start e then
        [mkRange (saturating_add 64 (end_ range) 1) (end_ e)]
      else if end_ e <=? end_ range then
        [mkRange (start e) (saturating_sub (start range) 1)]
      else [mkRange (start e) (saturating_sub (start range) 1);
            mkRange (saturating_add 64 (end_ range) 1) (end_ e)]
  end.

Definition hits (range e : Range) : bool := bool_decide (is_Some (Range.overlaps e range)).

Section refinement.
Implicit Types (rs : RangeSet) (es a b : list Range) (e r x : Range).

Lemma shape_new : shape RangeSet.new [].
Proof. split; [done|]. by exists (replicate N_RANGES (mkRange 0 0)). Qed.

Lemma shape_entries rs es : shape rs es → RangeSet.entries rs = es.
Proof.
  intros (_ & j & Hr & Hu). unfold RangeSet.entries.
  by rewrite Hr, Hu, take_app_length.
Qed.

Lemma shape_in_use rs es : shape rs es → in_use rs = length es.
Proof. by intros (_ & j & _ & H). Qed.

Lemma shape_length rs es : shape rs es → (length es ≤ N_RANGES)%nat.
Proof. intros (Hl & j & Hr & _). rewrite Hr, length_app in Hl. lia. Qed.

Lemma shape_room rs es :
  shape rs es → (length es < N_RANGES)%nat → ∃ z j, ranges rs = es ++ z :: j.
Proof.
  intros (Hl & j & Hr & _) Hlt. rewrite Hr, length_app in Hl.
  destruct j as [|z j]; [simpl in Hl; lia|eauto].
Qed.

Lemma shape_mk es j n :
  length (es ++ j) = N_RANGES → n = length es → shape (mkRangeSet (es ++ j) n) es.
Proof. intros Hl ->. split; [done|]. by exists j. Qed.

Lemma swap_down_middle a x m b :
  RangeSet.swap_down (a ++ x :: m ++ b) (length a) (length m) = Ok (a ++ m ++ x :: b).
Proof.
  revert a. induction m as [|y m IH]; intros a; [done|].
  simpl. rewrite swap_middle. cbn [mbind res_bind].
  replace (S (length a)) with (length (a ++ [y])) by (rewrite length_app; simpl; lia).
  replace (a ++ y :: x :: m ++ b) with ((a ++ [y]) ++ x :: m ++ b) by (by rewrite <-app_assoc).
  rewrite IH. by rewrite <-app_assoc.
Qed.

Lemma delete_shape rs a x b :
  shape rs (a ++ x :: b) →
  ∃ rs', RangeSet.delete (length a) rs = Ok (tt, rs') ∧ shape rs' (a ++ b).
Proof.
  intros (Hl & j & Hr & Hu). rewrite length_app in Hu. simpl in Hu.
  rewrite <-app_assoc in Hr. simpl in Hr.
  unfold RangeSet.delete, mbind, M_bind, get, put, lift. simpl.
  rewrite (proj2 (Nat.leb_gt _ _)) by lia.
  replace (in_use rs - 1 - length a)%nat with (length b) by lia.
  rewrite Hr, swap_down_middle.
  eexists. split; [done|].
  rewrite (app_assoc a b (x :: j)). apply shape_mk; rewrite ?length_app; simpl; [|lia].
  rewrite Hr in Hl. rewrite !length_app in Hl. simpl in Hl. rewrite length_app in Hl. lia.
Qed.

(** The position test of every loop: [idx] against [in_use]. *)
Lemma at_end rs a :
  shape rs a → (in_use rs <=? length a)%nat = true.
Proof. intros H. rewrite (shape_in_use _ _ H). apply Nat.leb_refl. Qed.

Lemma not_at_end rs a x b :
  shape rs (a ++ x :: b) →
  (in_use rs <=? length a)%nat = false ∧ index (E:=Error) (ranges rs) (length a) = Ok x.
Proof.
  intros Hs. split.
  - rewrite (shape_in_use _ _ Hs), length_app. apply Nat.leb_gt. simpl. lia.
  - destruct Hs as (_ & j & Hr & _). rewrite Hr, <-app_assoc. apply index_middle.
Qed.

Lemma snoc_assoc a x b : (a ++ [x]) ++ b = a ++ x :: b.
Proof. by rewrite <-app_assoc. Qed.

Lemma length_snoc a x : length (a ++ [x]) = S (length a).
Proof. rewrite length_app. simpl. lia. Qed.

Lemma insert_loop_shape fuel : ∀ a es rs r,
  shape rs (a ++ es) → (length es < fuel)%nat →
  let '(s, r', b, ok) := scan r es in
  ∃ rs', shape rs' (a ++ s ++ b) ∧
    RangeSet.insert_loop fuel (length a) r rs =
      if ok then Ok ((length (a ++ s), r'), rs') else Err (RangeSetOverflow, rs').
Proof.
  induction fuel as [|fuel IH]; intros a es rs r Hs Hf; [lia|].
  destruct es as [|e es].
  { rewrite app_nil_r in Hs. simpl. rewrite !app_nil_r. exists rs. split; [done|].
    unfold mbind, M_bind, get. simpl. by rewrite (at_end _ _ Hs). }
  destruct (not_at_end _ _ _ _ Hs) as [Hend Hidx]. simpl in Hf.
  cbn [scan RangeSet.insert_loop]. unfold mbind, M_bind, get, lift. rewrite Hend, Hidx.
  unfold checked_add, ok_or.
  destruct (Z.leb_spec (2 ^ 64) (end_ e + 1)) as [Hov|Hov].
  { rewrite (proj2 (Z.ltb_ge (end_ e + 1) (2 ^ 64))) by lia. exists rs. by split. }
  rewrite (proj2 (Z.ltb_lt (end_ e + 1) (2 ^ 64))) by lia.
  destruct (end_ e + 1 <? start r).
  { specialize (IH (a ++ [e]) es rs r).
    rewrite snoc_assoc, length_snoc in IH. specialize (IH Hs ltac:(lia)).
    destruct (scan r es) as [[[s r'] b] ok]. destruct IH as (rs' & Hs' & Heq).
    exists rs'. rewrite snoc_assoc in Hs'. split; [done|].
    rewrite Heq. by rewrite snoc_assoc. }
  destruct (end_ r <? start e).
  { exists rs. split; [done|]. by rewrite app_nil_r. }
  destruct (delete_shape _ _ _ _ Hs) as (rs1 & Hd & Hs1). rewrite Hd.
  apply (IH a es rs1 (merge e r)); [done|lia].
Qed.
(** Both [insert] and [split_entry] shift the tail by one and fill the hole. *)
Lemma open_hole {St} (s : St) rs a b y :
  shape rs (a ++ b) → (length (a ++ b) < N_RANGES)%nat →
  ∃ l j,
    (if (length a <? in_use rs)%nat
     then lift (E:=Error) (copy_within (ranges rs) (length a) (in_use rs) (S (length a)))
     else mret (ranges rs)) s = Ok (l, s) ∧
    store (E:=Error) l (length a) y = Ok (a ++ y :: b ++ j) ∧
    length (a ++ y :: b ++ j) = N_RANGES.
Proof.
  intros Hs Hlt. destruct (shape_room _ _ Hs Hlt) as (z & j & Hr).
  pose proof Hs as (Hl & _ & _ & Hu). rewrite length_app in Hu.
  assert (length (a ++ y :: b ++ j) = N_RANGES) as HN.
  { rewrite Hr in Hl. rewrite !length_app in *. simpl in *. rewrite length_app. lia. }
  rewrite Hr, <-app_assoc, Hu. destruct b as [|x b].
  - exists (a ++ z :: j), j. rewrite (proj2 (Nat.ltb_ge _ _)) by (simpl; lia).
    split; [done|]. split; [apply store_middle|done].
  - rewrite (proj2 (Nat.ltb_lt _ _)) by (simpl; lia).
    destruct (res_bind_Ok _ _ _ (copy_within_store (E:=Error) a (x :: b) z j y ltac:(done)))
      as (l & Hcw & Hst).
    exists l, j. split; [unfold lift; by rewrite Hcw|]. by split.
Qed.

Lemma insert_shape rs es r :
  shape rs es →
  match list_insert r es with
  | Inserted es' => ∃ rs', RangeSet.insert r rs = Ok (tt, rs') ∧ shape rs' es'
  | Refused es' => ∃ rs', RangeSet.insert r rs = Err (RangeSetOverflow, rs') ∧ shape rs' es'
  end.
Proof.
  intros Hs. pose proof (insert_loop_shape (S (in_use rs)) [] es rs r Hs) as Hloop.
  rewrite (shape_in_use _ _ Hs) in Hloop. specialize (Hloop ltac:(lia)).
  unfold list_insert. destruct (scan r es) as [[[s r'] b] ok].
  destruct Hloop as (rs' & Hs' & Heq). simpl in Hs', Heq.
  unfold RangeSet.insert. rewrite (M_bind_Ok _ _ _ _ _ eq_refl), (shape_in_use _ _ Hs).
  destruct ok; [|rewrite (M_bind_Err _ _ _ _ Heq); simpl; eauto].
  rewrite (M_bind_Ok _ _ _ _ _ Heq), (M_bind_Ok _ _ _ _ _ eq_refl).
  rewrite (proj1 Hs'), (shape_in_use _ _ Hs'). simpl andb.
  destruct (Nat.ltb_spec (length (s ++ b)) N_RANGES) as [Hlt|Hge].
  - rewrite (proj2 (Nat.leb_gt _ _)) by lia.
    destruct (open_hole rs' rs' s b r' Hs' Hlt) as (l & j & H1 & H2 & H3).
    rewrite (shape_in_use _ _ Hs') in H1.
    rewrite (M_bind_Ok _ _ _ _ _ H1). unfold mbind, M_bind, lift, put. rewrite H2.
    eexists. split; [done|]. split; [done|]. exists j.
    rewrite <-app_assoc. split; [done|]. rewrite !length_app. simpl. lia.
  - rewrite (proj2 (Nat.leb_le _ _)) by lia. by exists rs'.
Qed.

Lemma split_entry_shape rs a e b r :
  shape rs (a ++ e :: b) → start e < start r → end_ r < end_ e →
  let e1 := mkRange (start e) (saturating_sub (start r) 1) in
  let e2 := mkRange (saturating_add 64 (end_ r) 1) (end_ e) in
  if (length (a ++ e :: b) <? N_RANGES)%nat
  then ∃ rs', RangeSet.split_entry (length a) r rs = Ok (true, rs') ∧
              shape rs' (a ++ e1 :: e2 :: b)
  else RangeSet.split_entry (length a) r rs = Err (RangeSetOverflow, rs).
Proof.
  intros Hs Hlo Hhi e1 e2. destruct (not_at_end _ _ _ _ Hs) as [Hend Hidx].
  unfold RangeSet.split_entry.
  rewrite (M_bind_Ok _ _ _ _ _ eq_refl), Hend, (proj1 Hs), (shape_in_use _ _ Hs).
  destruct (Nat.ltb_spec (length (a ++ e :: b)) N_RANGES) as [Hlt|Hge].
  2:{ by rewrite (proj2 (Nat.leb_le _ _)) by lia. }
  rewrite (proj2 (Nat.leb_gt _ _)) by lia.
  assert (lift (S:=RangeSet) (index (E:=Error) (ranges rs) (length a)) rs = Ok (e, rs)) as H1
    by (unfold lift; by rewrite Hidx).
  rewrite (M_bind_Ok _ _ _ _ _ H1).
  unfold Range.contains. rewrite (proj2 (Z.leb_le (start e) _)), (proj2 (Z.leb_le (end_ r) _)) by lia.
  rewrite (proj2 (Z.ltb_lt (start e) _)) by lia. cbn [negb andb]. fold e1.
  pose proof Hs as (Hl & j & Hr & Hu). rewrite <-app_assoc in Hr. simpl in Hr.
  set (rs1 := mkRangeSet (a ++ e1 :: b ++ j) (in_use rs)).
  assert (shape rs1 ((a ++ [e1]) ++ b)) as Hs1.
  { subst rs1. replace (a ++ e1 :: b ++ j) with (((a ++ [e1]) ++ b) ++ j)
      by (by rewrite <-!app_assoc). apply shape_mk.
    - rewrite Hr in Hl. rewrite !length_app in *. simpl in *. rewrite length_app in *. lia.
    - rewrite Hu, !length_app. simpl. lia. }
  destruct (open_hole rs rs1 (a ++ [e1]) b e2 Hs1) as (l & j' & H2 & H3 & H4).
  { rewrite snoc_assoc. rewrite length_app in *. simpl in *. lia. }
  rewrite length_snoc in H2, H3. cbn [in_use ranges rs1] in H2.
  unfold mbind at 1, M_bind at 1. unfold lift at 1. rewrite Hr, store_middle.
  rewrite Nat.add_1_r. replace (length a + 2)%nat with (S (S (length a))) by lia.
  rewrite <-(shape_in_use _ _ Hs), (M_bind_Ok _ _ _ _ _ H2).
  unfold mbind, M_bind, put, lift, Range.new, Range.new_unchecked.
  rewrite (proj2 (Z.leb_le _ _)) by (unfold saturating_add; lia). fold e2. rewrite H3.
  eexists. split; [done|].
  replace ((a ++ [e1]) ++ e2 :: b ++ j') with ((a ++ e1 :: e2 :: b) ++ j') in *
    by (by rewrite <-!app_assoc).
  apply shape_mk; [done|]. rewrite Hu, !length_app. simpl. lia.
Qed.

(** [remove] over the entries [es] when [n] entries precede them: an entry is
    split only while a slot is free. *)
Fixpoint cut_all (n : nat) (r : Range) (es : list Range) : list Range * bool :=
  match es with
  | [] => ([], true)
  | e :: es' =>
      if (length (cut r e) =? 2)%nat && (N_RANGES <=? n + length es)%nat then (es, false)
      else let '(l, ok) := cut_all (n + length (cut r e)) r es' in (cut r e ++ l, ok)
  end.

Lemma remove_store rs a e e' b :
  shape rs (a ++ e :: b) →
  ∃ l, store (E:=Error) (ranges rs) (length a) e' = Ok l ∧
       shape (mkRangeSet l (in_use rs)) ((a ++ [e']) ++ b).
Proof.
  intros (Hl & j & Hr & Hu). rewrite Hr, <-app_assoc. simpl. rewrite store_middle.
  eexists. split; [done|].
  replace (a ++ e' :: b ++ j) with (((a ++ [e']) ++ b) ++ j) by (by rewrite <-!app_assoc).
  rewrite Hr, !length_app in Hl. simpl in Hl.
  apply shape_mk; rewrite ?Hu, !length_app; simpl; lia.
Qed.

Lemma remove_loop_shape fuel : ∀ a es rs r any,
  shape rs (a ++ es) → (length es < fuel)%nat →
  let '(l, ok) := cut_all (length a) r es in
  ∃ rs', shape rs' (a ++ l) ∧
    RangeSet.remove_loop fuel (length a) any r rs =
      if ok then Ok (any || existsb (hits r) es, rs') else Err (RangeSetOverflow, rs').
Proof.
  induction fuel as [|fuel IH]; intros a es rs r any Hs Hf; [lia|].
  destruct es as [|e es].
  { simpl. rewrite orb_false_r. exists rs. split; [done|]. rewrite app_nil_r in Hs.
    unfold mbind, M_bind, get. by rewrite (at_end _ _ Hs). }
  destruct (not_at_end _ _ _ _ Hs) as [Hend Hidx]. simpl in Hf.
  cbn [cut_all existsb RangeSet.remove_loop].
  unfold mbind, M_bind, get, lift, put. rewrite Hend, Hidx.
  unfold hits at 1. unfold cut.
  (* one entry kept in place of [e] *)
  assert (∀ e' any' rs1, shape rs1 ((a ++ [e']) ++ es) →
    let '(l, ok) := let '(l, ok) := cut_all (length a + 1) r es in ([e'] ++ l, ok) in
    ∃ rs', shape rs' (a ++ l) ∧
      RangeSet.remove_loop fuel (S (length a)) any' r rs1 =
        if ok then Ok (any' || existsb (hits r) es, rs') else Err (RangeSetOverflow, rs'))
    as Hkeep.
  { intros e' any' rs1 Hs1. specialize (IH (a ++ [e']) es rs1 r any' Hs1 ltac:(lia)).
    rewrite length_snoc, <-Nat.add_1_r in IH. destruct (cut_all _ r es) as [l ok].
    destruct IH as (rs' & Hs' & Heq). exists rs'. rewrite snoc_assoc in Hs'.
    split; [done|]. by rewrite <-Nat.add_1_r. }
  destruct (Range.overlaps e r) as [o|] eqn:Ho.
  2:{ rewrite bool_decide_false by (by intros []). apply Hkeep. by rewrite snoc_assoc. }
  rewrite bool_decide_true by eauto. rewrite (orb_comm any), orb_true_l.
  unfold Range.overlaps in Ho. destruct (_ && _)%bool eqn:Hov in Ho; [|done].
  apply andb_true_iff in Hov as [Hov1%Z.leb_le Hov2%Z.leb_le].
  destruct (Range.contains r e) eqn:Hc.
  { destruct (delete_shape _ _ _ _ Hs) as (rs1 & Hd & Hs1). rewrite Hd. simpl.
    rewrite Nat.add_0_r. specialize (IH a es rs1 r true Hs1 ltac:(lia)).
    destruct (cut_all _ r es) as [l ok]. exact IH. }
  destruct (Z.leb_spec (start r) (start e)) as [H1|H1].
  { edestruct remove_store as (l & Hst & Hs1); [exact Hs|]. rewrite Hst.
    apply (Hkeep _ true _ Hs1). }
  destruct (Z.leb_spec (end_ e) (end_ r)) as [H2|H2].
  { edestruct remove_store as (l & Hst & Hs1); [exact Hs|]. rewrite Hst.
    apply (Hkeep _ true _ Hs1). }
  pose proof (split_entry_shape rs a e es r Hs H1 H2) as Hsp. cbv zeta in Hsp.
  rewrite length_app in Hsp.
  destruct (Nat.ltb_spec (length a + length (e :: es)) N_RANGES) as [Hlt|Hge].
  2:{ rewrite Hsp, (proj2 (Nat.leb_le N_RANGES _)) by done. exists rs. by split. }
  destruct Hsp as (rs1 & Hsp & Hs1).
  rewrite Hsp, (proj2 (Nat.leb_gt N_RANGES _)) by done.
  rewrite andb_false_r. cbn [length app].
  set (e1 := mkRange (start e) _) in *. set (e2 := mkRange _ (end_ e)) in *.
  specialize (IH ((a ++ [e1]) ++ [e2]) es rs1 r true).
  rewrite !length_snoc, !snoc_assoc in IH. specialize (IH Hs1 ltac:(lia)).
  replace (length a + 2)%nat with (S (S (length a))) by lia.
  rewrite Nat.add_1_r. destruct (cut_all _ r es) as [l ok].
  destruct IH as (rs' & Hs' & Heq). rewrite <-app_assoc in Hs'. by exists rs'.
Qed.

Lemma remove_shape rs es r :
  shape rs es →
  let '(l, ok) := cut_all 0 r es in
  ∃ rs', shape rs' l ∧
    RangeSet.remove r rs =
      if ok then Ok (existsb (hits r) es, rs') else Err (RangeSetOverflow, rs').
Proof.
  intros Hs. unfold RangeSet.remove. rewrite (M_bind_Ok _ _ _ _ _ eq_refl).
  apply (remove_loop_shape _ [] es rs r false Hs).
  rewrite (shape_in_use _ _ Hs). lia.
Qed.
End refinement.

(** * What a range set denotes *)
Definition addr_in (r : Range) (x : Z) : Prop := start r ≤ x ≤ end_ r.
Definition covers (es : list Range) (x : Z) : Prop := Exists (λ r, addr_in r x) es.
Definition valid (r : Range) : Prop := 0 ≤ start r ≤ end_ r ∧ end_ r < 2 ^ 64.

(** Entries in increasing order, disjoint, none below [lo]. *)
Fixpoint ordered_from (lo : Z) (es : list Range) : Prop :=
  match es with
  | [] => True
  | e :: es => lo ≤ start e ≤ end_ e ∧ end_ e < 2 ^ 64 ∧ ordered_from (end_ e + 1) es
  end.

Definition wf (rs : RangeSet) : Prop :=
  length (ranges rs) = N_RANGES ∧ (in_use rs ≤ N_RANGES)%nat ∧
  ordered_from 0 (RangeSet.entries rs).

(** The addresses of a range set. *)
Definition has (rs : RangeSet) (x : Z) : Prop := covers (RangeSet.entries rs) x.

Section denotation.
Implicit Types (rs : RangeSet) (es a b : list Range) (e r : Range) (x lo : Z).

Lemma covers_nil x : covers [] x ↔ False.
Proof. apply Exists_nil. Qed.
Lemma covers_cons e es x : covers (e :: es) x ↔ addr_in e x ∨ covers es x.
Proof. apply Exists_cons. Qed.
Lemma covers_app a b x : covers (a ++ b) x ↔ covers a x ∨ covers b x.
Proof. apply Exists_app. Qed.

Lemma ordered_from_weaken lo lo' es : lo' ≤ lo → ordered_from lo es → ordered_from lo' es.
Proof. destruct es; simpl; [done|]. intros ? (? & ? & ?). repeat split; auto; lia. Qed.

Lemma covers_ordered lo es x : ordered_from lo es → covers es x → lo ≤ x < 2 ^ 64.
Proof.
  revert lo. induction es as [|e es IH]; intros lo; [by rewrite covers_nil|].
  rewrite covers_cons. unfold addr_in. intros (? & ? & Ho) [|Hc]; [lia|].
  specialize (IH _ Ho Hc). lia.
Qed.

Lemma wf_shape rs : wf rs → shape rs (RangeSet.entries rs).
Proof.
  intros (Hl & Hu & _). split; [done|]. exists (drop (in_use rs) (ranges rs)).
  unfold RangeSet.entries. rewrite take_drop, length_take. split; [done|]. lia.
Qed.

Lemma shape_wf rs es : shape rs es → ordered_from 0 es → wf rs.
Proof.
  intros Hs Ho. split; [apply Hs|]. split.
  - rewrite (shape_in_use _ _ Hs). by eapply shape_length.
  - by rewrite (shape_entries _ _ Hs).
Qed.

Lemma scan_ordered lo r es :
  ordered_from lo es → lo ≤ start r ≤ end_ r → end_ r < 2 ^ 64 →
  let '(s, r', a, ok) := scan r es in
  (if ok then ordered_from lo (s ++ r' :: a) else ordered_from lo (s ++ a)) ∧
  (∀ x, if ok then covers (s ++ r' :: a) x ↔ covers es x ∨ addr_in r x
        else covers (s ++ a) x → covers es x).
Proof.
  revert lo r. induction es as [|e es IH]; intros lo r Ho Hr Hmax; simpl.
  { split; [repeat split; lia|]. intros x. rewrite covers_cons, covers_nil. tauto. }
  destruct Ho as (Hlo & Hem & Ho).
  destruct (2 ^ 64 <=? end_ e + 1); [repeat split; auto; lia|].
  destruct (Z.ltb_spec (end_ e + 1) (start r)).
  { specialize (IH (end_ e + 1) r Ho ltac:(lia) Hmax).
    destruct (scan r es) as [[[s r'] a] ok]. destruct IH as [IHo IHc]. split.
    - destruct ok; simpl; auto.
    - intros x. specialize (IHc x). destruct ok; simpl; rewrite !covers_cons; tauto. }
  destruct (Z.ltb_spec (end_ r) (start e)).
  { split; [simpl; repeat split; auto; lia|]. intros x. simpl. rewrite !covers_cons. tauto. }
  specialize (IH lo (merge e r)). unfold merge in *. simpl in IH.
  specialize (IH (ordered_from_weaken (end_ e + 1) lo es ltac:(lia) Ho) ltac:(lia) ltac:(lia)).
  destruct (scan _ es) as [[[s r'] a] ok]. destruct IH as [IHo IHc]. split; [done|].
  intros x. specialize (IHc x). unfold addr_in in *. simpl in IHc.
  destruct ok; rewrite covers_cons; [|tauto]. rewrite IHc. unfold addr_in.
  destruct (Z.le_gt_cases (start e) x), (Z.le_gt_cases x (end_ e)); intuition lia.
Qed.

(** When [insert] is refused, either the slots are all used and nothing was
    merged, or an entry reaches the top of the address space. *)
Lemma scan_refused lo r es :
  ordered_from lo es →
  let '(s, r', a, ok) := scan r es in
  ∀ l, l = s ++ a →
  (ordered_from lo l ∧ ∀ x, covers l x → covers es x) ∧
  if ok then (length l ≤ length es)%nat else ∃ e, e ∈ es ∧ end_ e = U64_MAX.
Proof.
  revert lo r. induction es as [|e es IH]; intros lo r Ho; simpl.
  { by intros l ->. }
  destruct Ho as (Hlo & Hem & Ho).
  destruct (Z.leb_spec (2 ^ 64) (end_ e + 1)) as [Hov|_].
  { intros l ->. split; [by split|]. exists e. split; [left|]. unfold umax. lia. }
  destruct (end_ e + 1 <? start r).
  { specialize (IH _ r Ho). destruct (scan r es) as [[[s r'] a] ok].
    intros l ->. destruct (IH _ eq_refl) as ((IHo & IHc) & Hok). split.
    - split; [simpl; auto|]. intros x. simpl. rewrite !covers_cons. intros [|]; auto.
    - destruct ok; simpl; [lia|]. destruct Hok as (e' & ? & ?). exists e'. by split; [right|]. }
  destruct (end_ r <? start e).
  { intros l ->. split; [split; simpl; auto|]. done. }
  specialize (IH _ (merge e r) Ho). destruct (scan (merge e r) es) as [[[s r'] a] ok].
  intros l ->. destruct (IH _ eq_refl) as ((IHo & IHc) & Hok). split.
  - split; [by eapply ordered_from_weaken; [|apply IHo]; lia|].
    intros x Hx. rewrite covers_cons. auto.
  - destruct ok; [lia|]. destruct Hok as (e' & ? & ?). exists e'. by split; [right|].
Qed.

Lemma overlaps_Some e r o :
  Range.overlaps e r = Some o → start e ≤ end_ r ∧ start r ≤ end_ e.
Proof.
  unfold Range.overlaps. destruct (_ && _)%bool eqn:H; [|done].
  apply andb_true_iff in H as [H1%Z.leb_le H2%Z.leb_le]. auto.
Qed.

Lemma overlaps_None e r :
  Range.overlaps e r = None → end_ r < start e ∨ end_ e < start r.
Proof.
  unfold Range.overlaps. destruct (_ && _)%bool eqn:H; [done|].
  apply andb_false_iff in H as [H%Z.leb_gt|H%Z.leb_gt]; auto.
Qed.

(** One tactic for the case analysis of [remove] on an entry. *)
Ltac cut_cases e r :=
  unfold cut;
  let o := fresh "o" in let Ho := fresh "Ho" in
  destruct (Range.overlaps e r) as [o|] eqn:Ho;
  [apply overlaps_Some in Ho|apply overlaps_None in Ho];
  [let Hc := fresh "Hc" in destruct (Range.contains r e) eqn:Hc;
   [apply andb_true_iff in Hc as [Hc%Z.leb_le ?%Z.leb_le]
   |apply andb_false_iff in Hc;
    assert (start e < start r ∨ end_ r < end_ e)
      by (destruct Hc as [Hc%Z.leb_gt|Hc%Z.leb_gt]; lia);
    clear Hc;
    destruct (Z.leb_spec (start r) (start e));
    [|destruct (Z.leb_spec (end_ e) (end_ r))]]|].

Lemma cut_ordered lo r e es :
  valid r → ordered_from lo (e :: es) → ordered_from lo (cut r e ++ es).
Proof.
  intros [Hr1 Hr2] (Hlo & Hem & Ho).
  cut_cases e r; simpl; unfold saturating_add, saturating_sub, umax;
    repeat split; try lia; (eapply ordered_from_weaken; [|eassumption]; lia).
Qed.

Lemma cut_covers lo r e x :
  valid r → 0 ≤ lo → lo ≤ start e ≤ end_ e → end_ e < 2 ^ 64 →
  covers (cut r e) x ↔ addr_in e x ∧ ¬ addr_in r x.
Proof.
  intros [Hr1 Hr2] Hl Hlo Hem.
  cut_cases e r; rewrite ?covers_cons, covers_nil;
    unfold saturating_add, saturating_sub, umax, addr_in; simpl; lia.
Qed.

Lemma ordered_from_In lo e es :
  ordered_from lo es → e ∈ es → lo ≤ start e ≤ end_ e ∧ end_ e < 2 ^ 64.
Proof.
  revert lo. induction es as [|e' es IH]; intros lo Ho Hin; [by apply elem_of_nil in Hin|].
  destruct Ho as (? & ? & Ho). apply elem_of_cons in Hin as [->|Hin]; [done|].
  specialize (IH _ Ho Hin). lia.
Qed.

(** Entries of an ordered list do not overlap: none starts inside another. *)
Lemma ordered_no_overlap lo es e e' :
  ordered_from lo es → e ∈ es → e' ∈ es → ¬ start e' < start e ≤ end_ e'.
Proof.
  revert lo. induction es as [|f es IH]; intros lo Ho He He' H; [by apply elem_of_nil in He|].
  destruct Ho as (? & ? & Ho).
  apply elem_of_cons in He as [->|He]; apply elem_of_cons in He' as [->|He'].
  - lia.
  - pose proof (ordered_from_In _ _ _ Ho He'). lia.
  - pose proof (ordered_from_In _ _ _ Ho He). lia.
  - by eapply IH.
Qed.

Lemma hits_spec lo r e :
  valid r → lo ≤ start e ≤ end_ e → hits r e = true ↔ ∃ x, addr_in e x ∧ addr_in r x.
Proof.
  intros [Hr _] He. unfold hits, addr_in. rewrite bool_decide_eq_true. split.
  - intros [o Ho%overlaps_Some]. exists (Z.max (start e) (start r)). lia.
  - intros (x & H1 & H2). destruct (Range.overlaps e r) eqn:Ho; [eauto|].
    apply overlaps_None in Ho. lia.
Qed.

Lemma cut_all_ordered n r lo es :
  valid r → 0 ≤ lo → ordered_from lo es →
  let '(l, ok) := cut_all n r es in
  ordered_from lo l ∧
  if ok then ∀ x, covers l x ↔ covers es x ∧ ¬ addr_in r x
  else l = es ∧ (N_RANGES ≤ n + length es)%nat ∧
       ∃ e, e ∈ es ∧ start e < start r ∧ end_ r < end_ e.
Proof.
  intros Hr. revert n lo. induction es as [|e es IH]; intros n lo Hlo Ho.
  { split; [done|]. intros x. rewrite covers_nil. tauto. }
  cbn [cut_all]. destruct (_ && _)%bool eqn:Hsplit.
  { apply andb_true_iff in Hsplit as [H2%Nat.eqb_eq Hn%Nat.leb_le].
    split; [done|]. split; [done|]. split; [done|]. exists e. split; [left|].
    revert H2. cut_cases e r; intros ?; simplify_eq/=; lia. }
  destruct Ho as (He & Hem & Ho).
  specialize (IH (n + length (cut r e))%nat (end_ e + 1) ltac:(lia) Ho).
  destruct (cut_all _ r es) as [l ok]. destruct IH as [IHo IHc]. split.
  { apply cut_ordered; simpl; auto. }
  destruct ok.
  - intros x. rewrite covers_app, covers_cons, IHc, (cut_covers lo) by done. tauto.
  - destruct IHc as (-> & Hn & e' & Hin & H1 & H2).
    pose proof (ordered_from_In _ _ _ Ho Hin).
    assert (cut r e = [e]) as Hcut by (cut_cases e r; lia || done).
    rewrite Hcut in *. simpl in *. split; [done|]. split; [lia|].
    exists e'. split; [by right|done].
Qed.

Lemma existsb_hits lo r es :
  valid r → ordered_from lo es →
  existsb (hits r) es = true ↔ ∃ x, covers es x ∧ addr_in r x.
Proof.
  intros Hr. revert lo. induction es as [|e es IH]; intros lo Ho.
  { split; [done|]. intros (x & Hx & _). by apply covers_nil in Hx. }
  destruct Ho as (He & _ & Ho). simpl.
  rewrite orb_true_iff, (hits_spec lo), (IH _ Ho) by done.
  setoid_rewrite covers_cons. split.
  - intros [(x & ? & ?)|(x & ? & ?)]; eauto.
  - intros (x & [?|?] & ?); eauto.
Qed.
End denotation.

(** * Properties *)
Section properties.
Implicit Types (rs : RangeSet) (r : Range).

Lemma insert_Ok rs r u rs' :
  wf rs → valid r → RangeSet.insert r rs = Ok (u, rs') →
  wf rs' ∧ ∀ x, has rs' x ↔ has rs x ∨ addr_in r x.
Proof.
  intros Hwf [Hr1 Hr2] Heq. pose proof (wf_shape _ Hwf) as Hs.
  destruct Hwf as (_ & _ & Ho). pose proof (insert_shape _ _ r Hs) as Hins.
  pose proof (scan_ordered 0 r _ Ho Hr1 Hr2) as Hscan. unfold list_insert in Hins.
  destruct (scan r (RangeSet.entries rs)) as [[[s r'] a] ok]. destruct Hscan as [Ho' Hc].
  destruct (ok && _)%bool eqn:Hok; destruct Hins as (rs1 & Heq1 & Hs'); rewrite Heq in Heq1; simplify_eq.
  apply andb_true_iff in Hok as [-> _]. split; [by eapply shape_wf|].
  intros x. unfold has. rewrite (shape_entries _ _ Hs'). apply Hc.
Qed.

Lemma remove_Ok rs r any rs' :
  wf rs → valid r → RangeSet.remove r rs = Ok (any, rs') →
  wf rs' ∧ (∀ x, has rs' x ↔ has rs x ∧ ¬ addr_in r x) ∧
  (any = true ↔ ∃ x, has rs x ∧ addr_in r x).
Proof.
  intros Hwf Hr Heq. pose proof (wf_shape _ Hwf) as Hs. destruct Hwf as (_ & _ & Ho).
  pose proof (remove_shape _ _ r Hs) as Hrem.
  pose proof (cut_all_ordered 0 r 0 _ Hr ltac:(lia) Ho) as Hcut.
  destruct (cut_all 0 r (RangeSet.entries rs)) as [l ok].
  destruct Hrem as (rs1 & Hs' & Heq1), Hcut as [Ho' Hc].
  rewrite Heq in Heq1. destruct ok; simplify_eq.
  split; [by eapply shape_wf|]. split.
  - intros x. unfold has. rewrite (shape_entries _ _ Hs'). apply Hc.
  - by apply (existsb_hits 0).
Qed.

(** A removal can only fail by having to split an entry of a full set. *)
Lemma remove_returns rs r :
  wf rs → valid r →
  (∃ any rs', RangeSet.remove r rs = Ok (any, rs'))
  ∨ (∃ rs', RangeSet.remove r rs = Err (RangeSetOverflow, rs') ∧
     RangeSet.entries rs' = RangeSet.entries rs ∧ in_use rs = N_RANGES ∧
     ∃ e, e ∈ RangeSet.entries rs ∧ start e < start r ∧ end_ r < end_ e).
Proof.
  intros Hwf Hr. pose proof (wf_shape _ Hwf) as Hs. destruct Hwf as (_ & _ & Ho).
  pose proof (remove_shape _ _ r Hs) as Hrem.
  pose proof (cut_all_ordered 0 r 0 _ Hr ltac:(lia) Ho) as Hcut.
  destruct (cut_all 0 r (RangeSet.entries rs)) as [l ok].
  destruct Hrem as (rs' & Hs' & Heq), Hcut as [Ho' Hc]. destruct ok; [eauto|].
  right. destruct Hc as (-> & Hn & Hsplit). exists rs'. split; [done|].
  split; [by apply shape_entries|]. split; [|done].
  rewrite (shape_in_use _ _ Hs). pose proof (shape_length _ _ Hs). lia.
Qed.

(** How an insertion ends, and how many entries it can add. *)
Lemma insert_returns rs r :
  wf rs → valid r →
  (∃ rs', RangeSet.insert r rs = Ok (tt, rs') ∧ (in_use rs' ≤ S (in_use rs))%nat) ∨
  (∃ rs', RangeSet.insert r rs = Err (RangeSetOverflow, rs') ∧
     (in_use rs = N_RANGES ∨ ∃ e, e ∈ RangeSet.entries rs ∧ end_ e = U64_MAX)).
Proof.
  intros Hwf Hr. pose proof (wf_shape _ Hwf) as Hs. pose proof (insert_shape _ _ r Hs) as Hins.
  pose proof (scan_refused 0 r _ (proj2 (proj2 Hwf))) as Href. unfold list_insert in Hins.
  pose proof (shape_length _ _ Hs). pose proof (shape_in_use _ _ Hs) as Hu.
  destruct (scan r (RangeSet.entries rs)) as [[[s r'] a] ok].
  destruct (Href (s ++ a) eq_refl) as [_ Hwhy].
  destruct (ok && _)%bool eqn:Hok; destruct Hins as (rs' & Heq & Hs'); [left|right]; exists rs'.
  - apply andb_true_iff in Hok as [-> _]. split; [done|]. rewrite (shape_in_use _ _ Hs'), Hu.
    rewrite length_app in *. simpl. lia.
  - split; [done|]. destruct ok; [left|by right]. apply Nat.ltb_ge in Hok. lia.
Qed.

Lemma cut_all_length n r es :
  (∀ e, e ∈ es → (length (cut r e) ≤ 1)%nat) →
  (length (cut_all n r es).1 ≤ length es)%nat ∧ (cut_all n r es).2 = true.
Proof.
  revert n. induction es as [|e es IH]; intros n Hc; [done|]. cbn [cut_all].
  pose proof (Hc e ltac:(left)) as He. rewrite (proj2 (Nat.eqb_neq _ _)) by lia. cbn [andb].
  destruct (IH (n + length (cut r e))%nat) as [IH1 IH2]; [intros e' ?; apply Hc; by right|].
  destruct (cut_all _ r es) as [l ok]. simpl in *. rewrite length_app. split; [lia|done].
Qed.

(** Taking out the bottom of the address space splits nothing. *)
Lemma remove_bottom rs r :
  wf rs → valid r → start r = 0 →
  ∃ any rs', RangeSet.remove r rs = Ok (any, rs') ∧ (in_use rs' ≤ in_use rs)%nat.
Proof.
  intros Hwf Hr H0. pose proof (wf_shape _ Hwf) as Hs. pose proof (remove_shape _ _ r Hs) as Hrem.
  destruct (cut_all_length 0 r (RangeSet.entries rs)) as [Hl Hok].
  - intros e He. destruct (ordered_from_In 0 e _ (proj2 (proj2 Hwf)) He).
    unfold cut. destruct (Range.overlaps e r); [|done]. destruct (Range.contains r e); [simpl; lia|].
    by rewrite (proj2 (Z.leb_le _ _)) by lia.
  - destruct (cut_all 0 r _) as [l ok]. simpl in Hl, Hok. subst ok.
    destruct Hrem as (rs' & Hs' & Heq). eexists _, rs'. split; [exact Heq|].
    by rewrite (shape_in_use _ _ Hs'), (shape_in_use _ _ Hs).
Qed.

(** C5. [insert] on a well-formed set never panics or loops.  It either adds
    exactly the addresses of the range and keeps the entries sorted and
    disjoint, or it reports [RangeSetOverflow] with a well-formed set that
    gained nothing; with a free slot and no entry ending at the top of the
    address space it always succeeds. *)
Theorem insert_correct rs r :
  wf rs → valid r →
  ∃ rs', wf rs' ∧
    (RangeSet.insert r rs = Ok (tt, rs') ∧ (∀ x, has rs' x ↔ has rs x ∨ addr_in r x)
     ∨ RangeSet.insert r rs = Err (RangeSetOverflow, rs') ∧
       (∀ x, has rs' x → has rs x) ∧
       (in_use rs = N_RANGES ∨ ∃ e, e ∈ RangeSet.entries rs ∧ end_ e = U64_MAX)).
Proof.
  intros Hwf Hr. pose proof (wf_shape _ Hwf) as Hs.
  pose proof (insert_shape _ _ r Hs) as Hins.
  pose proof (scan_refused 0 r _ (proj2 (proj2 Hwf))) as Href. unfold list_insert in Hins.
  destruct (scan r (RangeSet.entries rs)) as [[[s r'] a] ok].
  destruct (ok && _)%bool eqn:Hok; destruct Hins as (rs' & Heq & Hs'); exists rs'.
  - destruct (insert_Ok rs r tt rs') as [? ?]; auto.
  - destruct (Href (s ++ a) eq_refl) as [[Ho Hsub] Hwhy].
    split; [by eapply shape_wf|]. right. split; [done|]. split.
    + intros x. unfold has. rewrite (shape_entries _ _ Hs'). apply Hsub.
    + rewrite (shape_in_use _ _ Hs). destruct ok; [left|by right].
      apply Nat.ltb_ge in Hok. pose proof (shape_length _ _ Hs). lia.
Qed.

(** C6. [remove] on a well-formed set never panics or loops.  It takes exactly
    the addresses of the range out, keeps the entries sorted and disjoint, and
    reports whether anything was taken; the only error is a split with all 256
    slots in use, and then the set is as it was. *)
Theorem remove_correct rs r :
  wf rs → valid r →
  (∃ any rs', RangeSet.remove r rs = Ok (any, rs') ∧ wf rs' ∧
     (∀ x, has rs' x ↔ has rs x ∧ ¬ addr_in r x) ∧
     (any = true ↔ ∃ x, has rs x ∧ addr_in r x))
  ∨ (∃ rs', RangeSet.remove r rs = Err (RangeSetOverflow, rs') ∧
     RangeSet.entries rs' = RangeSet.entries rs ∧ in_use rs = N_RANGES ∧
     ∃ e, e ∈ RangeSet.entries rs ∧ start e < start r ∧ end_ r < end_ e).
Proof.
  intros Hwf Hr. destruct (remove_returns rs r Hwf Hr) as [(any & rs' & Heq)|?]; [left|by right].
  exists any, rs'. split; [done|]. by apply remove_Ok.
Qed.

(** Handing back a block that the set does not hold and taking it out
    again restores the set of free addresses. *)
Theorem insert_remove_roundtrip rs r rs1 any rs2 :
  wf rs → valid r → (∀ x, has rs x → ¬ addr_in r x) →
  RangeSet.insert r rs = Ok (tt, rs1) → RangeSet.remove r rs1 = Ok (any, rs2) →
  any = true ∧ ∀ x, has rs2 x ↔ has rs x.
Proof.
  intros Hwf Hr Hdis Hins Hrem.
  destruct (insert_Ok _ _ _ _ Hwf Hr Hins) as [Hwf1 Hc1].
  destruct (remove_Ok _ _ _ _ Hwf1 Hr Hrem) as (_ & Hc2 & Hany). split.
  - apply Hany. exists (start r). rewrite Hc1. unfold addr_in. destruct Hr. split; [right|]; lia.
  - intros x. rewrite Hc2, Hc1. specialize (Hdis x). tauto.
Qed.
End properties.

(** * Witnesses *)

(** Two free regions, as a firmware memory map might give them. *)
Definition sample : RangeSet :=
  mkRangeSet (mkRange 0x1000 0x1FFF :: mkRange 0x8000 0xFFFF
              :: replicate 254 (mkRange 0 0)) 2.

Lemma sample_wf : wf sample.
Proof. unfold wf. vm_compute. repeat split; try done; lia. Qed.

Lemma insert_correct_witness :
  ∃ rs', wf rs' ∧
    (RangeSet.insert (mkRange 0x1800 0x2FFF) sample = Ok (tt, rs') ∧
     (∀ x, has rs' x ↔ has sample x ∨ addr_in (mkRange 0x1800 0x2FFF) x)
     ∨ RangeSet.insert (mkRange 0x1800 0x2FFF) sample = Err (RangeSetOverflow, rs') ∧
       (∀ x, has rs' x → has sample x) ∧
       (in_use sample = N_RANGES ∨
        ∃ e, e ∈ RangeSet.entries sample ∧ end_ e = U64_MAX)).
Proof. apply (insert_correct sample); [apply sample_wf|unfold valid; simpl; lia]. Defined.

Lemma remove_correct_witness :
  (∃ any rs', RangeSet.remove (mkRange 0x9000 0x9FFF) sample = Ok (any, rs') ∧ wf rs' ∧
     (∀ x, has rs' x ↔ has sample x ∧ ¬ addr_in (mkRange 0x9000 0x9FFF) x) ∧
     (any = true ↔ ∃ x, has sample x ∧ addr_in (mkRange 0x9000 0x9FFF) x))
  ∨ (∃ rs', RangeSet.remove (mkRange 0x9000 0x9FFF) sample = Err (RangeSetOverflow, rs') ∧
     RangeSet.entries rs' = RangeSet.entries sample ∧ in_use sample = N_RANGES ∧
     ∃ e, e ∈ RangeSet.entries sample ∧ start e < 0x9000 ∧ 0x9FFF < end_ e).
Proof. apply (remove_correct sample (mkRange 0x9000 0x9FFF)); [apply sample_wf|unfold valid; simpl; lia]. Defined.

Lemma insert_remove_roundtrip_witness :
  ∃ rs1 any rs2,
    RangeSet.insert (mkRange 0x3000 0x3FFF) sample = Ok (tt, rs1) ∧
    RangeSet.remove (mkRange 0x3000 0x3FFF) rs1 = Ok (any, rs2) ∧
    any = true ∧ ∀ x, has rs2 x ↔ has sample x.
Proof.
  eexists _, _, _. split; [vm_compute; reflexivity|]. split; [vm_compute; reflexivity|].
  eapply (insert_remove_roundtrip sample (mkRange 0x3000 0x3FFF)).
  - apply sample_wf.
  - unfold valid. simpl. lia.
  - intros x Hx. unfold has in Hx. change (RangeSet.entries sample)
      with [mkRange 0x1000 0x1FFF; mkRange 0x8000 0xFFFF] in Hx.
    rewrite !covers_cons, covers_nil in Hx. unfold addr_in in *. simpl in *. lia.
  - vm_compute. reflexivity.
  - vm_compute. reflexivity.
Defined.

(** * Behaviour at the edges *)

(** When an entry ends at the top of the address space, [insert] gives up in
    the middle of merging: the entry merged before is gone from the set. *)
Example insert_overflow_loses_entry :
  let full := mkRangeSet (mkRange 0 10 :: mkRange 20 U64_MAX
                          :: replicate 254 (mkRange 0 0)) 2 in
  match RangeSet.insert (mkRange 5 15) full with
  | Err (RangeSetOverflow, rs) => RangeSet.entries rs = [mkRange 20 U64_MAX]
  | _ => False
  end.
Proof. vm_compute. reflexivity. Qed.

(** A range that touches the next entry from below is kept separate, one that
    touches an entry from above is merged. *)
Example insert_touching_is_one_sided :
  let one := mkRangeSet (mkRange 10 19 :: replicate 255 (mkRange 0 0)) 1 in
  match RangeSet.insert (mkRange 0 9) one, RangeSet.insert (mkRange 20 29) one with
  | Ok (_, below), Ok (_, above) =>
      RangeSet.entries below = [mkRange 0 9; mkRange 10 19] ∧
      RangeSet.entries above = [mkRange 10 29]
  | _, _ => False
  end.
Proof. vm_compute. done. Qed.
