(* ===== verification/RangeAlloc.v ===== *)
(** [RangeSet::allocate_prefer] and [RangeSet::allocate] of
    shared/rangeset/src/lib.rs: every block handed out is aligned, was free
    before and is not free after. *)
From Stdlib Require Import ZArith Lia.
From stdpp Require Import prelude list numbers.
From S2P Require Import Prelude Ranges.

Section allocation.
Implicit Types (rs : RangeSet) (es : list Range) (e r : Range) (c : RangeSet.candidate).

(** A candidate [(s, e, p)] lies in one entry, is aligned, and wastes less
    than one alignment unit in front of the pointer. *)
Definition good (size align : Z) (es : list Range) (c : RangeSet.candidate) : Prop :=
  let '(s, e, p) := c in
  (align | p) ∧ e = p + size - 1 ∧ s ≤ p < s + align ∧
  ∃ entry, entry ∈ es ∧ start entry ≤ s ∧ e ≤ end_ entry.

(** Without preferred regions the candidate starts where its entry starts. *)
Definition flush (regions : option RangeSet) es c : Prop :=
  match regions with
  | Some _ => True
  | None => ∃ entry, entry ∈ es ∧ start entry = c.1.1
  end.

Lemma good_mono size align es es' c :
  es ⊆ es' → good size align es c → good size align es' c.
Proof.
  destruct c as [[s e] p]. intros Hsub (? & ? & ? & en & Hen & ?).
  repeat split; try tauto; try lia. exists en. split; [by apply Hsub|done].
Qed.

Context (size align k : Z).
Hypothesis (Hsize : 0 < size < 2 ^ 64).
Hypothesis (Hk : 0 ≤ k < 64) (Halign : align = 2 ^ k).

Lemma try_regions_spec e rgs :
  0 ≤ start e ≤ end_ e → end_ e < 2 ^ 64 → Forall valid rgs →
  ∃ st, RangeSet.try_regions e size (align - 1) rgs = Ok st ∧
        match st with
        | RangeSet.Break c => good size align [e] c
        | RangeSet.Fall => True
        | RangeSet.Continue => False
        end.
Proof.
  intros He Hem. induction 1 as [|r rgs [Hr1 Hr2] _ IH]; [by eexists|]. simpl.
  destruct (Range.overlaps e r) as [o|] eqn:Ho; [|done].
  pose proof (overlaps_Some _ _ _ Ho) as Hov. unfold Range.overlaps in Ho.
  destruct (_ && _)%bool in Ho; [|done]. simplify_eq/=.
  set (os := Z.max (start e) (start r)) in *. set (oe := Z.min (end_ e) (end_ r)) in *.
  assert (0 < 2 ^ k) by lia.
  set (al := Z.land _ _).
  assert (2 ^ k | al) as Hal.
  { subst al. rewrite land_unot_mask; [|apply Z.mod_pos_bound; lia|lia].
    apply Z.mod_divide; [lia|]. by rewrite Zminus_mod_idemp_r, Z.sub_diag, Z.mod_0_l by lia. }
  destruct (Z.leb_spec os al), (Z.leb_spec al oe); simpl; try done.
  run_ok. destruct (Z.leb_spec (size - 1) (oe - al)); [|done].
  run_ok. unfold umax.
  rewrite (proj2 (Z.ltb_ge _ _)), (proj2 (Z.ltb_ge _ _)) by lia. simpl.
  eexists. split; [done|]. simpl. split; [done|]. split; [lia|]. split; [lia|].
  exists e. split; [left|]. lia.
Qed.

(** An aligned block of [size] bytes inside the entry. *)
Definition has_fit (e : Range) : Prop :=
  ∃ p, (align | p) ∧ start e ≤ p ∧ p + size - 1 ≤ end_ e.

Lemma first_fit e :
  0 ≤ start e →
  let pad := Z.land (align - Z.land (start e) (align - 1)) (align - 1) in
  has_fit e → start e + (size - 1) + pad ≤ end_ e.
Proof.
  intros He pad (p & [q ->] & Hlo & Hhi). subst pad. rewrite Halign in *.
  destruct (padding_spec (start e) k) as [Hpad [q' Hq]]; [lia|].
  set (pad := Z.land _ _) in *. assert (0 < 2 ^ k) by lia.
  assert (q' ≤ q) by nia. nia.
Qed.

(** The result [o] of the search over [l], started with the candidate [alloc]. *)
Definition search_post (rgs : option RangeSet) es (alloc : option RangeSet.candidate) (l : list Range)
    (o : option RangeSet.candidate + unit) : Prop :=
  match o with
  | inl (Some c) => good size align es c ∧ flush rgs es c
  | inl None => alloc = None ∧ ∀ e, e ∈ l → ¬ has_fit e
  | inr _ => ∃ e, e ∈ l ∧ 2 ^ 64 ≤ start e + size + align
  end.

Lemma post_skip rgs es alloc e l o :
  search_post rgs es alloc l o → (alloc = None → ¬ has_fit e) →
  search_post rgs es alloc (e :: l) o.
Proof.
  destruct o as [[c|]|u]; [done| |]; simpl.
  - intros [-> Hn] Hne. split; [done|]. intros e' [->|H']%elem_of_cons; auto.
  - intros (e' & ? & ?) _. exists e'. split; [by right|done].
Qed.

Lemma post_take rgs es alloc c e l o :
  search_post rgs es (Some c) l o → search_post rgs es alloc (e :: l) o.
Proof.
  destruct o as [[c'|]|u]; [done|by intros [? _]|]; simpl.
  intros (e' & ? & ?). exists e'. split; [by right|done].
Qed.

Lemma regions_step rgs e :
  0 ≤ start e ≤ end_ e → end_ e < 2 ^ 64 →
  (∀ rs, rgs = Some rs → Forall valid (RangeSet.entries rs)) →
  ∃ st, match rgs with
        | Some rs => RangeSet.try_regions e size (align - 1) (RangeSet.entries rs)
        | None => Ok RangeSet.Fall
        end = Ok st ∧
        match st with
        | RangeSet.Break c => good size align [e] c ∧ is_Some rgs
        | RangeSet.Fall => True
        | RangeSet.Continue => False
        end.
Proof.
  intros He Hem Hrgs. destruct rgs as [rs|]; [|by eexists].
  destruct (try_regions_spec e (RangeSet.entries rs)) as (st & ? & ?); auto.
  exists st. split; [done|]. destruct st; eauto.
Qed.

Lemma better_step alloc es n :
  (∀ c, alloc = Some c → good size align es c) →
  ∃ b : bool, match alloc with
       | None => Ok true
       | Some (s, e, _) => prev ← sub (E:=Error) e s; Ok (n <? prev)
       end = Ok b ∧ (alloc = None → b = true).
Proof.
  intros Hal. destruct alloc as [[[s e] p]|]; [|by exists true].
  destruct (Hal _ eq_refl) as (_ & -> & ? & _). run_ok. by eexists.
Qed.

Lemma search_spec rgs es : ∀ l alloc,
  l ⊆ es → ordered_from 0 l →
  (∀ rs, rgs = Some rs → Forall valid (RangeSet.entries rs)) →
  (∀ c, alloc = Some c → good size align es c ∧ flush rgs es c) →
  ∃ o, RangeSet.search size align rgs alloc l = Ok o ∧ search_post rgs es alloc l o.
Proof.
  induction l as [|e l IH]; intros alloc Hsub Ho Hrgs Hal; simpl.
  { eexists. split; [done|]. destruct alloc as [c|]; [by apply Hal|].
    split; [done|]. intros e He. by apply elem_of_nil in He. }
  destruct Ho as (He & Hem & Ho).
  assert (l ⊆ es) as Hsub' by (intros y ?; apply Hsub; by right).
  assert (e ∈ es) as Hin by (apply Hsub; left).
  assert (0 < align) by (rewrite Halign; lia).
  assert (0 ≤ Z.land (start e) (align - 1) < align) as Hmask
    by (rewrite Halign, land_mask by lia; apply Z.mod_pos_bound; lia).
  assert (ordered_from 0 l) as Ho' by (eapply ordered_from_weaken; [|done]; lia).
  pose proof (first_fit e ltac:(lia)) as Hfit. cbv zeta in Hfit.
  destruct (padding_spec (start e) k ltac:(lia)) as [Hpad Hdiv].
  rewrite <-Halign in Hpad, Hdiv.
  run_ok. set (pad := Z.land (align - _) _) in *. unfold checked_add.
  destruct (Z.ltb_spec (start e + (size - 1)) (2 ^ 64)); cbn [mbind option_bind];
    [|eexists; split; [done|]; exists e; split; [left|lia]].
  destruct (Z.ltb_spec (start e + (size - 1) + pad) (2 ^ 64));
    [|eexists; split; [done|]; exists e; split; [left|lia]].
  destruct (Z.ltb_spec (end_ e) (start e + (size - 1) + pad)).
  { destruct (IH alloc Hsub' Ho' Hrgs Hal) as (o & Heq & Hres). exists o. split; [done|].
    apply post_skip; [done|]. intros _ Hf. specialize (Hfit Hf). lia. }
  destruct (regions_step rgs e) as (st & -> & Hgood); [lia..|done|].
  cbn [mbind res_bind]. destruct st as [| |c]; [|done|].
  2:{ eexists. split; [done|]. destruct Hgood as [Hg [rs ->]]. split; [|done].
      eapply good_mono; [|done]. intros y Hy. by apply list_elem_of_singleton in Hy as ->. }
  run_ok. set (c := (start e, start e + (size - 1) + pad, start e + pad)).
  destruct (better_step alloc es (start e + (size - 1) + pad - start e)) as (b & -> & Hb).
  { intros c' ?. by apply Hal. }
  cbn [mbind res_bind].
  destruct (IH (if b then Some c else alloc) Hsub' Ho' Hrgs) as (o & Heq & Hres).
  { intros c'. destruct b; [|apply Hal]. intros ?; simplify_eq.
    split; [|destruct rgs; [done|by exists e]]. simpl. split; [done|].
    split; [lia|]. split; [lia|]. exists e. split; [done|]. lia. }
  exists o. split; [done|]. destruct b; [by eapply post_take|].
  apply post_skip; [done|]. intros Hn. by specialize (Hb Hn).
Qed.
End allocation.

Section properties.
Implicit Types (rs : RangeSet).

Lemma ordered_valid lo es : 0 ≤ lo → ordered_from lo es → Forall valid es.
Proof.
  intros Hlo Ho. apply Forall_forall. intros e He%list_elem_of_In.
  destruct (ordered_from_In _ _ _ Ho He). unfold valid. lia.
Qed.

(** Taking the candidate out of the set. *)
Lemma take_candidate rs size align rgs s e p :
  wf rs → 0 < size → (in_use rs < N_RANGES)%nat ∨ rgs = None →
  good size align (RangeSet.entries rs) (s, e, p) →
  flush rgs (RangeSet.entries rs) (s, e, p) →
  ∃ any rs', RangeSet.remove (mkRange s e) rs = Ok (any, rs') ∧ wf rs' ∧
    ∀ x, has rs' x ↔ has rs x ∧ ¬ s ≤ x ≤ e.
Proof.
  intros Hwf Hsz Hroom (Hal & He & Hs & en & Hen & Hlo & Hhi) Hfl.
  pose proof Hwf as (_ & _ & Ho). pose proof (ordered_from_In _ _ _ Ho Hen).
  assert (valid (mkRange s e)) as Hv by (unfold valid; simpl; lia).
  destruct (remove_returns rs _ Hwf Hv) as [(any & rs' & Heq)|(rs' & _ & _ & Hfull & e' & He' & H1 & H2)].
  - exists any, rs'. split; [done|]. destruct (remove_Ok _ _ _ _ Hwf Hv Heq) as (? & Hc & _).
    split; [done|]. exact Hc.
  - exfalso. simpl in *. destruct Hroom as [?| ->]; [lia|]. destruct Hfl as (en' & Hen' & Heq).
    simpl in Heq. subst s.
    pose proof (ordered_from_In _ _ _ Ho Hen').
    apply (ordered_no_overlap _ _ en' e' Ho); auto; lia.
Qed.

Lemma allocate_prefer_unfold rs size align rgs k :
  0 < size < 2 ^ 64 → 0 ≤ k < 64 → align = 2 ^ k →
  RangeSet.allocate_prefer size align rgs rs =
  (found ← lift (RangeSet.search size align rgs None (RangeSet.entries rs));
   match found with
   | inr _ | inl None => mret None
   | inl (Some (s, e, ptr)) =>
       _ ← unwrap_M (RangeSet.remove (mkRange s e)); mret (Some ptr)
   end) rs.
Proof.
  intros Hs Hk ->. unfold RangeSet.allocate_prefer.
  rewrite (proj2 (Z.eqb_neq _ _)) by lia. by rewrite count_ones_pow2 by lia.
Qed.

(** The block at [p] has been taken out of the set. *)
Definition block_taken rs rs' size align p : Prop :=
  wf rs' ∧ (align | p) ∧ (∀ x, p ≤ x < p + size → has rs x ∧ ¬ has rs' x) ∧
  (∀ x, has rs' x → has rs x) ∧ (∀ x, has rs x → ¬ has rs' x → p - align < x < p + size).

Lemma allocate_cases rs size align k regions :
  wf rs → 0 < size < 2 ^ 64 → 0 ≤ k < 64 → align = 2 ^ k →
  (∀ g, regions = Some g → wf g) →
  RangeSet.allocate_prefer size align regions rs = Ok (None, rs) ∨
  (∃ p rs', RangeSet.allocate_prefer size align regions rs = Ok (Some p, rs') ∧
     block_taken rs rs' size align p) ∨
  (RangeSet.allocate_prefer size align regions rs = Panic ∧ in_use rs = N_RANGES ∧ is_Some regions).
Proof.
  intros Hwf Hsz Hk Hal Hrg.
  rewrite (allocate_prefer_unfold _ _ _ _ _ Hsz Hk Hal).
  destruct (search_spec size align k Hsz Hk Hal regions (RangeSet.entries rs)
    (RangeSet.entries rs) None) as (o & Heq & Hpost); [done|apply Hwf| |done|].
  { intros g ->. eapply (ordered_valid 0); [done|]. by apply Hrg. }
  assert (lift (S:=RangeSet) (RangeSet.search size align regions None (RangeSet.entries rs)) rs
          = Ok (o, rs)) as Hl by (unfold lift; by rewrite Heq).
  rewrite (M_bind_Ok _ _ _ _ _ Hl). destruct o as [[[[s e] p]|]|]; [|by left..]. right.
  destruct Hpost as [Hg Hfl]. pose proof Hg as (Hdiv & He & Hs & en & Hen & Hlo & Hhi).
  pose proof Hwf as (Hlen & Hle & Ho). pose proof (ordered_from_In _ _ _ Ho Hen) as Hin.
  assert (valid (mkRange s e)) as Hv by (unfold valid; simpl; lia).
  destruct (remove_returns rs _ Hwf Hv) as [(any & rs' & Hrem)|(rs' & Hrem & _ & Hfull & _)].
  - left. exists p, rs'. destruct (remove_Ok _ _ _ _ Hwf Hv Hrem) as (Hwf' & Hc & _).
    unfold addr_in in Hc. simpl in Hc. split.
    { rewrite (M_bind_Ok _ _ _ any rs'); [done|]. unfold unwrap_M. by rewrite Hrem. }
    split; [done|]. split; [done|]. split; [|split].
    + intros x Hx. rewrite Hc. split; [|lia]. unfold has, covers. apply Exists_exists.
      exists en. split; [by apply list_elem_of_In|]. unfold addr_in. lia.
    + intros x Hx. by apply Hc.
    + intros x Hx Hn. destruct (decide (s ≤ x ≤ e)) as [|Hd]; [lia|].
      exfalso. apply Hn, Hc. tauto.
  - destruct regions as [g|].
    + right. split; [|by eauto]. unfold mbind, M_bind, unwrap_M. by rewrite Hrem.
    + exfalso. destruct (take_candidate rs size align None s e p) as (any & rs1 & Hrem1 & _);
        auto; [lia|]. congruence.
Qed.

(** C4. An allocation of [size > 0] bytes with a power-of-two alignment, from a
    set with a free slot or with no preferred region, always returns.  A block
    handed out is aligned, every byte of it was free and none is free after;
    nothing becomes free, and the only other bytes taken are the padding, less
    than one alignment unit, in front of the block. With no block the set is
    unchanged. *)
Theorem allocate_correct rs size align k regions :
  wf rs → 0 < size < 2 ^ 64 → 0 ≤ k < 64 → align = 2 ^ k →
  (∀ g, regions = Some g → wf g) →
  (in_use rs < N_RANGES)%nat ∨ regions = None →
  ∃ o rs', RangeSet.allocate_prefer size align regions rs = Ok (o, rs') ∧
    match o with
    | None => rs' = rs
    | Some p =>
        wf rs' ∧ (align | p) ∧
        (∀ x, p ≤ x < p + size → has rs x ∧ ¬ has rs' x) ∧
        (∀ x, has rs' x → has rs x) ∧
        (∀ x, has rs x → ¬ has rs' x → p - align < x < p + size)
    end.
Proof.
  intros Hwf Hsz Hk Hal Hrg Hroom.
  destruct (allocate_cases rs size align k regions Hwf Hsz Hk Hal Hrg)
    as [H|[(p & rs' & H & Hp)|(_ & Hfull & [g ->])]].
  - by exists None, rs.
  - by exists (Some p), rs'.
  - destruct Hroom; [lia|done].
Qed.

Lemma allocate_prefer_none rs size align k regions rs' :
  wf rs → 0 < size < 2 ^ 64 → 0 ≤ k < 64 → align = 2 ^ k →
  (∀ g, regions = Some g → wf g) →
  (∀ e, e ∈ RangeSet.entries rs → start e + size + align < 2 ^ 64) →
  RangeSet.allocate_prefer size align regions rs = Ok (None, rs') →
  ∀ e p, e ∈ RangeSet.entries rs → (align | p) → start e ≤ p → ¬ p + size - 1 ≤ end_ e.
Proof.
  intros Hwf Hsz Hk Hal Hrg Htop.
  rewrite (allocate_prefer_unfold _ _ _ _ _ Hsz Hk Hal).
  destruct (search_spec size align k Hsz Hk Hal regions (RangeSet.entries rs)
    (RangeSet.entries rs) None) as (o & Heq & Hpost); [done|apply Hwf| |done|].
  { intros g ->. eapply (ordered_valid 0); [done|]. by apply Hrg. }
  unfold mbind, M_bind, lift at 1. rewrite Heq. destruct o as [[[[s e] p]|]|].
  - unfold unwrap_M, unwrap_res. destruct (RangeSet.remove _ rs) as [[]| | |]; done.
  - intros _ e p He Hp Hlo Hhi. destruct Hpost as [_ Hn]. apply (Hn e He). by exists p.
  - intros _. destruct Hpost as (e & He & Hov). specialize (Htop e He). lia.
Qed.
Lemma allocate_none rs size align k rs' :
  wf rs → 0 < size < 2 ^ 64 → 0 ≤ k < 64 → align = 2 ^ k →
  (∀ e, e ∈ RangeSet.entries rs → start e + size + align < 2 ^ 64) →
  RangeSet.allocate size align rs = Ok (None, rs') →
  ∀ e p, e ∈ RangeSet.entries rs → (align | p) → start e ≤ p → ¬ p + size - 1 ≤ end_ e.
Proof. intros Hwf Hsz Hk Hal Htop. by apply (allocate_prefer_none rs size align k None). Qed.

(** If no entry lies within one block of the top of the address space, an
    allocation that finds nothing is right: no free entry holds an aligned
    block of that size. *)
Theorem allocate_complete rs size align k rs' :
  wf rs → 0 < size < 2 ^ 64 → 0 ≤ k < 64 → align = 2 ^ k →
  (∀ e, e ∈ RangeSet.entries rs → start e + size + align < 2 ^ 64) →
  RangeSet.allocate size align rs = Ok (None, rs') →
  ∀ e p, e ∈ RangeSet.entries rs → (align | p) → start e ≤ p → ¬ p + size - 1 ≤ end_ e.
Proof. apply allocate_none. Qed.

(** The two argument errors leave the set alone: a zero size is
    [ZeroSizedAllocation], otherwise an alignment that is not a power of two is
    [WrongAlignment]. *)
Theorem allocate_argument_errors rs size align regions :
  RangeSet.allocate_prefer 0 align regions rs = Err (ZeroSizedAllocation, rs) ∧
  (0 < size → 0 ≤ align → (∀ k, 0 ≤ k → align ≠ 2 ^ k) →
   RangeSet.allocate_prefer size align regions rs = Err (WrongAlignment align, rs)).
Proof.
  split; [done|]. intros Hs Ha Hn. unfold RangeSet.allocate_prefer.
  rewrite (proj2 (Z.eqb_neq _ _)) by lia.
  destruct (Nat.eqb_spec (count_ones align) 1) as [H1|]; [|done].
  destruct (count_ones_one _ H1) as (k & Hk & ->). by destruct (Hn k).
Qed.
End properties.

(** * Witnesses *)
Lemma allocate_correct_witness :
  ∃ o rs', RangeSet.allocate_prefer 0x1000 0x1000 (Some sample) sample = Ok (o, rs') ∧
    match o with
    | None => rs' = sample
    | Some p =>
        wf rs' ∧ (0x1000 | p) ∧
        (∀ x, p ≤ x < p + 0x1000 → has sample x ∧ ¬ has rs' x) ∧
        (∀ x, has rs' x → has sample x) ∧
        (∀ x, has sample x → ¬ has rs' x → p - 0x1000 < x < p + 0x1000)
    end.
Proof.
  apply (allocate_correct sample 0x1000 0x1000 12 (Some sample));
    [apply sample_wf|lia|lia|reflexivity| |left; vm_compute; lia].
  intros g Hg. injection Hg as <-. apply sample_wf.
Defined.

Lemma allocate_complete_witness :
  ∃ rs', RangeSet.allocate 0x9000 0x1000 sample = Ok (None, rs') ∧
  ∀ e p, e ∈ RangeSet.entries sample → (0x1000 | p) → start e ≤ p → ¬ p + 0x9000 - 1 ≤ end_ e.
Proof.
  exists sample. split; [vm_compute; reflexivity|].
  apply (allocate_complete sample 0x9000 0x1000 12 sample);
    [apply sample_wf|lia|lia|reflexivity| |vm_compute; reflexivity].
  intros e He. vm_compute in He.
  repeat (apply elem_of_cons in He as [->|He]; [simpl; lia|]). by apply elem_of_nil in He.
Defined.

Lemma allocate_argument_errors_witness :
  RangeSet.allocate_prefer 0 3 None sample = Err (ZeroSizedAllocation, sample) ∧
  RangeSet.allocate_prefer 8 3 None sample = Err (WrongAlignment 3, sample).
Proof.
  destruct (allocate_argument_errors sample 8 3 None) as [H1 H2]. split; [exact H1|].
  apply H2; [lia|lia|]. intros k Hk Hp.
  assert (k = 0 ∨ k = 1 ∨ 2 ≤ k) as [-> | [-> | Hk2]] by lia; [done|done|].
  pose proof (Z.pow_le_mono_r 2 2 k). lia.
Defined.

(** * Behaviour at the edges *)

(** An entry close to the top of the address space stops the search, and the
    block already found in a lower entry is not handed out. *)
Example allocate_gives_up_early :
  let rs := mkRangeSet (mkRange 0x1000 0x1FFF :: mkRange (U64_MAX - 16) (U64_MAX - 1)
                        :: replicate 254 (mkRange 0 0)) 2 in
  RangeSet.allocate 0x1000 0x1000 rs = Ok (None, rs) ∧
  has_fit 0x1000 0x1000 (mkRange 0x1000 0x1FFF).
Proof.
  split; [vm_compute; reflexivity|]. exists 0x1000. simpl. repeat split; try lia.
  by exists 1.
Qed.

(** With all 256 slots used, an allocation from the middle of an entry panics:
    the error of the split is unwrapped. *)
Example allocate_panics_when_full :
  let full := mkRangeSet ((λ i, mkRange (Z.of_nat i * 0x10000) (Z.of_nat i * 0x10000 + 0x7FFF))
                          <$> seq 0 256) 256 in
  let near := mkRangeSet (mkRange 0x2000 0x2FFF :: replicate 255 (mkRange 0 0)) 1 in
  RangeSet.allocate_prefer 0x1000 0x1000 (Some near) full = Panic.
Proof. vm_compute. reflexivity. Qed.
