(* ===== verification/RangePages.v ===== *)
(** How many pages a range set can give: [RangeSet::allocate] of shared/rangeset/src/lib.rs
    for page-sized, page-aligned blocks, the way both page-table memories use it. *)
From Stdlib Require Import ZArith Lia.
From stdpp Require Import prelude list numbers.
From S2P Require Import Prelude Ranges RangeAlloc.

(** The whole aligned pages of an entry, and of a set. *)
Definition pages (e : Range) : Z := Z.max 0 ((end_ e + 1) / 4096 - (start e + 4095) / 4096).
Fixpoint capacity (es : list Range) : Z :=
  match es with [] => 0 | e :: es => pages e + capacity es end.

Lemma capacity_nonneg es : 0 ≤ capacity es.
Proof. induction es as [|e es IH]; simpl; [lia|]. unfold pages. lia. Qed.
Lemma capacity_app a b : capacity (a ++ b) = capacity a + capacity b.
Proof. induction a as [|e a IH]; simpl; lia. Qed.

Lemma no_fit_pages e : ¬ has_fit 4096 4096 e → pages e = 0.
Proof.
  intros Hn. unfold pages. destruct (Z.le_gt_cases ((end_ e + 1) / 4096 - (start e + 4095) / 4096) 0); [lia|].
  exfalso. apply Hn. exists ((start e + 4095) / 4096 * 4096). split; [by eexists|].
  Z.div_mod_to_equations. lia.
Qed.

(** The entry a page is taken from, at its start, loses one page. *)
Lemma cut_first s e1 p en :
  (4096 | p) → e1 = p + 4096 - 1 → s ≤ p < s + 4096 → start en = s → e1 ≤ end_ en → end_ en < 2 ^ 64 →
  0 ≤ s → pages en - 1 ≤ capacity (cut (mkRange s e1) en).
Proof.
  intros [q ->] -> Hp Hs He Hmax H0.
  unfold cut. destruct (Range.overlaps en _) as [o|] eqn:Ho; [|apply overlaps_None in Ho; simpl in Ho; lia].
  unfold Range.contains. cbn [start end_]. rewrite (proj2 (Z.leb_le s (start en))) by lia. cbn [andb].
  destruct (Z.leb_spec (end_ en) (q * 4096 + 4096 - 1)); cbn [capacity]; unfold pages, saturating_add, umax;
    cbn [start end_]; [|rewrite Z.min_l by lia]; Z.div_mod_to_equations; lia.
Qed.

Lemma cut_apart r e : end_ e < start r ∨ end_ r < start e → cut r e = [e].
Proof.
  intros H. unfold cut. destruct (Range.overlaps e r) as [o|] eqn:Ho; [|done].
  apply overlaps_Some in Ho. lia.
Qed.

Lemma cut_all_capacity n r es l :
  cut_all n r es = (l, true) → capacity l = foldr (λ e c, capacity (cut r e) + c) 0 es.
Proof.
  revert n l. induction es as [|e es IH]; intros n l; cbn [cut_all].
  { by intros [= <-]. }
  destruct (_ && _); [done|]. destruct (cut_all _ r es) as [l' ok] eqn:E. intros [= <- ->].
  cbn [foldr]. rewrite capacity_app. by rewrite (IH _ _ E).
Qed.

Lemma cut_ordered_capacity lo s e1 p en es :
  0 ≤ lo → ordered_from lo es → en ∈ es → (4096 | p) → e1 = p + 4096 - 1 → s ≤ p < s + 4096 →
  start en = s → e1 ≤ end_ en →
  capacity es - 1 ≤ foldr (λ e c, capacity (cut (mkRange s e1) e) + c) 0 es.
Proof.
  intros Hlo Ho Hin Hd He1 Hp Hs He. revert lo Hlo Ho. induction es as [|e es IH]; intros lo Hlo Ho.
  { by apply elem_of_nil in Hin. }
  destruct Ho as (H1 & H2 & Ho). cbn [foldr capacity].
  assert (∀ l, (∀ f, f ∈ l → s + 1 ≤ start f ∧ e1 < start f ∨ end_ f < s) →
    foldr (λ e c, capacity (cut (mkRange s e1) e) + c) 0 l = capacity l) as Hsame.
  { induction l as [|f l IHl]; intros Hl; [done|]. cbn [foldr capacity].
    rewrite IHl by (intros g Hg; apply Hl; by right).
    rewrite cut_apart; [simpl; lia|]. simpl. destruct (Hl f); [left|lia|lia]. }
  apply elem_of_cons in Hin as [<-|Hin].
  - rewrite Hsame.
    + pose proof (cut_first s e1 p en Hd He1 Hp Hs He H2 ltac:(lia)). lia.
    + intros f Hf. left. pose proof (ordered_from_In _ _ _ Ho Hf). lia.
  - pose proof (ordered_from_In _ _ _ Ho Hin). rewrite cut_apart by (simpl; lia).
    specialize (IH Hin (end_ e + 1) ltac:(lia) Ho). simpl. lia.
Qed.

Lemma ordered_start_inj lo es e e' :
  ordered_from lo es → e ∈ es → e' ∈ es → start e = start e' → e = e'.
Proof.
  revert lo. induction es as [|f es IH]; intros lo Ho He He' Hs; [by apply elem_of_nil in He|].
  destruct Ho as (? & ? & Ho).
  apply elem_of_cons in He as [->|He]; apply elem_of_cons in He' as [->|He']; [done|..|by eapply IH].
  - pose proof (ordered_from_In _ _ _ Ho He'). lia.
  - pose proof (ordered_from_In _ _ _ Ho He). lia.
Qed.

(** A page taken costs one page of capacity, and a set with capacity gives one. *)
Lemma allocate_page rs p rs' :
  wf rs → RangeSet.allocate 4096 4096 rs = Ok (Some p, rs') →
  capacity (RangeSet.entries rs) - 1 ≤ capacity (RangeSet.entries rs').
Proof.
  intros Hwf. unfold RangeSet.allocate. rewrite (allocate_prefer_unfold _ 4096 4096 None 12) by (done || lia).
  destruct (search_spec 4096 4096 12 ltac:(lia) ltac:(lia) eq_refl None (RangeSet.entries rs)
    (RangeSet.entries rs) None) as (o & Heq & Hpost); [done|apply Hwf|done..|].
  unfold mbind, M_bind, lift at 1. rewrite Heq. destruct o as [[[[s e] q]|]|]; [|done..].
  destruct Hpost as [(Hd & He & Hq & en & Hen & Hlo & Hhi) (en' & Hen' & Hs)]. simpl in Hs.
  unfold unwrap_M. pose proof (remove_shape _ _ (mkRange s e) (wf_shape _ Hwf)) as Hrem.
  destruct (cut_all 0 (mkRange s e) (RangeSet.entries rs)) as [l ok] eqn:Ecut.
  destruct Hrem as (rs1 & Hsh & ->). destruct ok; [|done]. intros [= <- <-].
  rewrite (shape_entries _ _ Hsh), (cut_all_capacity _ _ _ _ Ecut).
  pose proof Hwf as (_ & _ & Ho). pose proof (ordered_from_In _ _ _ Ho Hen).
  pose proof (ordered_from_In _ _ _ Ho Hen').
  assert (en = en') as <-.
  { destruct (Z.eq_dec (start en) (start en')) as [E|E]; [by eapply ordered_start_inj|].
    exfalso. apply (ordered_no_overlap _ _ en' en Ho Hen' Hen). lia. }
  apply (cut_ordered_capacity 0 s e q en); (done || lia).
Qed.

Lemma allocate_page_none rs rs' :
  wf rs → (∀ a, has rs a → a < 2 ^ 52) → RangeSet.allocate 4096 4096 rs = Ok (None, rs') →
  capacity (RangeSet.entries rs) = 0.
Proof.
  intros Hwf Htop. unfold RangeSet.allocate. rewrite (allocate_prefer_unfold _ 4096 4096 None 12) by (done || lia).
  destruct (search_spec 4096 4096 12 ltac:(lia) ltac:(lia) eq_refl None (RangeSet.entries rs)
    (RangeSet.entries rs) None) as (o & Heq & Hpost); [done|apply Hwf|done..|].
  unfold mbind, M_bind, lift at 1. rewrite Heq. destruct o as [[[[s e] q]|]|].
  - unfold unwrap_M, unwrap_res. destruct (RangeSet.remove _ rs) as [[]| | |]; done.
  - intros _. destruct Hpost as [_ Hn]. clear -Hn. induction (RangeSet.entries rs) as [|e es IH]; [done|]. simpl.
    rewrite (no_fit_pages e) by (apply Hn; left). rewrite IH; [done|]. intros f Hf. apply Hn. by right.
  - intros _. destruct Hpost as (e & He & Hov).
    pose proof (ordered_from_In _ _ _ (proj2 (proj2 Hwf)) He).
    assert (has rs (start e)) as Hh by (apply Exists_exists; exists e; split; [by apply list_elem_of_In|unfold addr_in; lia]).
    specialize (Htop _ Hh). lia.
Qed.
