(* ===== verification/Cursor.v ===== *)
(** The write cursor of shared/cursor/src/lib.rs.

    A [&mut [T]] is a [Slice], a window of the store it borrows from, so a
    cursor that is split hands out two windows of the same store, as in the
    source.  Positions and limits are [usize]. *)
From Stdlib Require Import ZArith Lia.
From stdpp Require Import prelude list numbers.
From S2P Require Import Prelude.

(** A window [off .. off + slen] of the underlying store. *)
Record Slice := mkSlice { off : nat; slen : nat }.

Record Cursor := mkCursor { inner : Slice; limit : Z; pos : Z; total_pos : Z }.

Module Cursor.
Section ops.
Context {A : Type}.

Definition new_with_limit (inner : Slice) (limit : Z) : Cursor :=
  mkCursor inner limit 0 0.

Definition new (inner : Slice) : Cursor := new_with_limit inner (umax 64).

Definition into_inner (self : Cursor) : Slice := inner self.

(** The elements of a window of the store. *)
Definition view (s : Slice) (store : list A) : list A :=
  take (slen s) (drop (off s) store).

(** [&self.inner[..self.pos]] *)
Definition get (self : Cursor) (store : list A) : res unit (list A) :=
  slice (view (inner self) store) 0 (pos self).

Definition current_position (self : Cursor) : Z := pos self.
Definition overall_position (self : Cursor) : Z := total_pos self.

Definition try_set_position (p : Z) : M Cursor unit Z :=
  self ← Prelude.get;
  if p =? pos self then mret (total_pos self)
  else if pos self <? p then
    step ← lift (sub p (pos self));
    total ← lift (add 64 (total_pos self) step);
    if limit self <? total then throw tt
    else _ ← put (mkCursor (inner self) (limit self) p total); mret total
  else
    delta ← lift (sub (pos self) p);
    total ← lift (sub (total_pos self) delta);
    _ ← put (mkCursor (inner self) (limit self) p total); mret total.

Definition set_position (p : Z) : M Cursor unit unit :=
  _ ← unwrap_M (try_set_position p); mret tt.

Definition set_limit (l : Z) : M Cursor unit unit :=
  self ← Prelude.get; put (mkCursor (inner self) l (pos self) (total_pos self)).

Definition try_set_limit (l : Z) : M Cursor unit unit :=
  self ← Prelude.get;
  if l <? pos self then throw tt else mret tt.

Definition write (buf : list A) : M (list A * Cursor) unit (Z * Z) := λ '(store, self),
  let cur_pos := pos self in
  match checked_add 64 cur_pos (zlen buf) with
  | None => Err (tt, (store, self))
  | Some new_pos =>
      match try_set_position new_pos self with
      | Ok (_, self') =>
          (* self.inner[cur_pos..new_pos].copy_from_slice(buf) *)
          if (cur_pos <=? new_pos) && (new_pos <=? Z.of_nat (slen (inner self))) then
            match copy_from_slice store (off (inner self) + Z.to_nat cur_pos)
                    (off (inner self) + Z.to_nat new_pos) buf : res unit (list A) with
            | Ok store' => Ok ((cur_pos, new_pos), (store', self'))
            | Err _ | Panic => Panic
            | Diverge => Diverge
            end
          else Panic
      | Err (e, self') => Err (e, (store, self'))
      | Panic => Panic
      | Diverge => Diverge
      end
  end.

Definition split_at_checked (raw_idx : Z) (self : Cursor) : option (Slice * Cursor) :=
  if Z.of_nat (slen (inner self)) <? raw_idx then None
  else
    '(new_total, new_cur) ←
      (if pos self <? raw_idx
       then t ← checked_add 64 (total_pos self) (raw_idx - pos self); Some (t, 0)
       else Some (total_pos self, pos self - raw_idx));
    if limit self <? new_total then None
    else
      let i := Z.to_nat raw_idx in
      let left := mkSlice (off (inner self)) i in
      let right := mkSlice (off (inner self) + i) (slen (inner self) - i) in
      Some (left, mkCursor right (limit self) new_cur new_total).

Definition split_at (raw_idx : Z) (self : Cursor) : res unit (Slice * Cursor) :=
  unwrap (split_at_checked raw_idx self).

Definition split_at_current (self : Cursor) : res unit (Slice * Cursor) :=
  split_at (pos self) self.

End ops.
End Cursor.

(** * Invariant *)
Section invariant.
Context {A : Type}.
Implicit Types (store : list A) (c : Cursor) (buf : list A).

Record wf_cursor (store : list A) (c : Cursor) : Prop := {
  wf_window : (off (inner c) + slen (inner c) ≤ length store)%nat;
  wf_size : zlen store < 2 ^ 63;
  wf_pos : 0 ≤ pos c ≤ Z.of_nat (slen (inner c));
  wf_total : pos c ≤ total_pos c ≤ limit c;
  wf_limit : 0 ≤ limit c < 2 ^ 64;
}.

(** The first position of the store the cursor has not passed. *)
Definition abs_pos (c : Cursor) : nat := (off (inner c) + Z.to_nat (pos c))%nat.

Definition advance (c : Cursor) (n : Z) : Cursor :=
  mkCursor (inner c) (limit c) (pos c + n) (total_pos c + n).

Lemma try_set_position_advance c n :
  0 ≤ n → 0 ≤ total_pos c → total_pos c + n < 2 ^ 64 →
  Cursor.try_set_position (pos c + n) c =
    if limit c <? total_pos c + n then (if n =? 0 then Ok (total_pos c, c) else Err (tt, c))
    else Ok (total_pos c + n, advance c n).
Proof.
  intros Hn Ht Hov. unfold Cursor.try_set_position.
  unfold mbind, M_bind, get, lift, put, mret, M_ret, throw. cbn [fst snd].
  destruct (Z.eqb_spec n 0) as [->|Hne].
  - rewrite !Z.add_0_r, Z.eqb_refl. unfold advance. rewrite !Z.add_0_r. by destruct c, (_ <? _).
  - rewrite (proj2 (Z.eqb_neq _ _)), (proj2 (Z.ltb_lt _ _)) by lia.
    rewrite sub_Ok by lia. replace (pos c + n - pos c) with n by lia.
    rewrite add_Ok by lia. by destruct (limit c <? total_pos c + n).
Qed.

(** Within the window and the limit, [write] puts the data at the cursor,
    leaves the rest of the store alone and advances. *)
Lemma write_Ok store c buf :
  wf_cursor store c →
  pos c + zlen buf ≤ Z.of_nat (slen (inner c)) → total_pos c + zlen buf ≤ limit c →
  Cursor.write buf (store, c) =
    Ok ((pos c, pos c + zlen buf), (splice store (abs_pos c) buf, advance c (zlen buf))).
Proof.
  intros [Hw Hsz Hp Ht Hl] Hfit Hlim. unfold Cursor.write.
  assert (0 ≤ zlen buf) by (unfold zlen; lia). unfold zlen in Hsz.
  unfold checked_add. rewrite (proj2 (Z.ltb_lt _ _)) by lia.
  rewrite try_set_position_advance by lia.
  rewrite (proj2 (Z.ltb_ge _ _)), !(proj2 (Z.leb_le _ _)) by lia. simpl andb.
  unfold copy_from_slice, abs_pos, zlen in *.
  replace (_ && _ && _)%bool with true; [done|].
  symmetry. rewrite !andb_true_iff, !Nat.leb_le, Nat.eqb_eq. lia.
Qed.

(** Past the limit nothing changes. *)
Lemma write_over_limit store c buf :
  wf_cursor store c → zlen buf < 2 ^ 63 → total_pos c < 2 ^ 63 →
  limit c < total_pos c + zlen buf →
  Cursor.write buf (store, c) = Err (tt, (store, c)).
Proof.
  intros [Hw Hsz Hp Ht Hl] Hb Htot Hlim. unfold Cursor.write.
  assert (0 < zlen buf) by (unfold zlen in *; lia).
  unfold checked_add. rewrite (proj2 (Z.ltb_lt _ _)) by lia.
  rewrite try_set_position_advance by lia.
  by rewrite (proj2 (Z.ltb_lt _ _)), (proj2 (Z.eqb_neq _ _)) by lia.
Qed.

Lemma length_splice store i buf :
  (i + length buf ≤ length store)%nat → length (splice store i buf) = length store.
Proof.
  intros H. unfold splice. rewrite !length_app, length_take, length_drop. lia.
Qed.

Lemma advance_wf store c buf :
  wf_cursor store c →
  pos c + zlen buf ≤ Z.of_nat (slen (inner c)) → total_pos c + zlen buf ≤ limit c →
  wf_cursor (splice store (abs_pos c) buf) (advance c (zlen buf)).
Proof.
  intros [Hw Hsz Hp Ht Hl] Hfit Hlim. unfold abs_pos, zlen in *.
  split; simpl; rewrite ?length_splice by lia; unfold zlen; rewrite ?length_splice; lia.
Qed.
End invariant.

(** * Properties *)
Section properties.
Context {A : Type}.
Implicit Types (store : list A) (c : Cursor) (buf : list A).

Lemma get_take store c :
  wf_cursor store c →
  Cursor.get c store = Ok (take (Z.to_nat (pos c)) (drop (off (inner c)) store)).
Proof.
  intros [Hw Hsz Hp Ht Hl]. unfold Cursor.get, slice, get_range, Cursor.view, zlen.
  rewrite length_take, length_drop.
  rewrite !(proj2 (Z.leb_le _ _)) by lia. simpl.
  rewrite Z.sub_0_r, drop_0, take_take. do 2 f_equal. lia.
Qed.

Lemma splice_take store i buf : (i ≤ length store)%nat → take i (splice store i buf) = take i store.
Proof. intros H. unfold splice. rewrite take_app_le; [|rewrite length_take; lia]. by rewrite take_take, Nat.min_id. Qed.

Lemma splice_lookup store i buf j :
  (i ≤ length store)%nat → (j < i ∨ i + length buf ≤ j)%nat →
  splice store i buf !! j = store !! j.
Proof.
  intros H [Hj|Hj]; unfold splice.
  - by rewrite lookup_app_l, lookup_take_lt by (rewrite ?length_take; lia).
  - rewrite lookup_app_r, lookup_app_r, lookup_drop by (rewrite length_take; lia).
    rewrite length_take. f_equal. lia.
Qed.

Lemma splice_read store i buf n :
  (i + length buf ≤ length store)%nat → (n ≤ i)%nat →
  take (i - n + length buf) (drop n (splice store i buf)) = take (i - n) (drop n store) ++ buf.
Proof.
  intros H Hn. unfold splice. rewrite drop_app_le by (rewrite length_take; lia).
  rewrite skipn_firstn_comm.
  rewrite app_assoc, take_app_le by (rewrite length_app, length_take, length_drop; lia).
  apply take_ge. rewrite length_app, length_take, length_drop. lia.
Qed.

(** Inside its window and limit a cursor's [write] appends: reading the
    cursor back gives the old contents followed by the new bytes, the returned
    positions are the ones before and after, no other element of the store
    changes and the invariant is kept.  A write that would pass the limit
    returns [None] and changes nothing. *)
Theorem cursor_write_correct store c buf before :
  wf_cursor store c → zlen buf < 2 ^ 63 → total_pos c < 2 ^ 63 →
  Cursor.get c store = Ok before →
  (pos c + zlen buf ≤ Z.of_nat (slen (inner c)) → total_pos c + zlen buf ≤ limit c →
   ∃ store' c',
     Cursor.write buf (store, c) = Ok ((pos c, pos c + zlen buf), (store', c')) ∧
     wf_cursor store' c' ∧ Cursor.get c' store' = Ok (before ++ buf) ∧
     total_pos c' = total_pos c + zlen buf ∧
     ∀ i, (i < abs_pos c ∨ abs_pos c + length buf ≤ i)%nat → store' !! i = store !! i) ∧
  (limit c < total_pos c + zlen buf → Cursor.write buf (store, c) = Err (tt, (store, c))).
Proof.
  intros Hwf Hb Htot Hget. split; [|by apply write_over_limit].
  intros Hfit Hlim. eexists _, _. split; [by apply write_Ok|].
  pose proof (advance_wf _ _ _ Hwf Hfit Hlim) as Hwf'. split; [done|].
  rewrite (get_take _ _ Hwf) in Hget. injection Hget as <-.
  destruct Hwf as [Hw Hsz Hp Ht Hl]. unfold zlen in *. split; [|split; [done|]].
  - rewrite (get_take _ _ Hwf'). simpl. f_equal. unfold abs_pos.
    replace (Z.to_nat (pos c + Z.of_nat (length buf)))
      with (off (inner c) + Z.to_nat (pos c) - off (inner c) + length buf)%nat by lia.
    rewrite splice_read by lia. do 2 f_equal. lia.
  - intros i Hi. apply splice_lookup; [unfold abs_pos; lia|done].
Qed.

(** Splitting hands out two adjacent windows that make up the old one; the
    right half is a cursor that satisfies the invariant, whose overall position
    covers the left half; splitting past the buffer or past the limit is
    refused. *)
Theorem cursor_split_correct store c i :
  wf_cursor store c → 0 ≤ i → total_pos c < 2 ^ 63 →
  match Cursor.split_at_checked i c with
  | Some (l, r) =>
      Cursor.view l store ++ Cursor.view (inner r) store = Cursor.view (inner c) store ∧
      Z.of_nat (slen l) = i ∧ wf_cursor store r ∧ i ≤ total_pos r ∧
      limit r = limit c ∧ total_pos r = Z.max (total_pos c) (total_pos c + (i - pos c)) ∧
      pos r = Z.max 0 (pos c - i)
  | None => Z.of_nat (slen (inner c)) < i ∨ limit c < total_pos c + (i - pos c)
  end.
Proof.
  intros [Hw Hsz Hp Ht Hl] Hi Htot. unfold Cursor.split_at_checked, zlen in *.
  destruct (Z.ltb_spec (Z.of_nat (slen (inner c))) i) as [|Hin]; [by left|].
  assert (∃ t n, (if pos c <? i
       then t ← checked_add 64 (total_pos c) (i - pos c); Some (t, 0)
       else Some (total_pos c, pos c - i)) = Some (t, n) ∧
     t = Z.max (total_pos c) (total_pos c + (i - pos c)) ∧ n = Z.max 0 (pos c - i))
    as (t & n & -> & Ht' & Hn').
  { destruct (Z.ltb_spec (pos c) i).
    - unfold checked_add. rewrite (proj2 (Z.ltb_lt _ _)) by lia. eexists _, _. split; [done|]. lia.
    - eexists _, _. split; [done|]. lia. }
  cbn [mbind option_bind]. destruct (Z.ltb_spec (limit c) t); [right; lia|].
  simpl. split.
  - unfold Cursor.view. simpl. rewrite <-drop_drop.
    rewrite <-(take_drop (Z.to_nat i) (take (slen (inner c)) (drop (off (inner c)) store))).
    rewrite take_take, skipn_firstn_comm.
    by replace (Z.to_nat i `min` slen (inner c))%nat with (Z.to_nat i) by lia.
  - split; [lia|]. split; [split; simpl; unfold zlen; lia|]. lia.
Qed.
End properties.

(** * Witnesses *)
Definition sample_store : list Z := replicate 16 0.
Definition sample_cursor : Cursor := mkCursor (mkSlice 4 12) 10 2 6.

Lemma sample_cursor_wf : wf_cursor sample_store sample_cursor.
Proof. split; vm_compute; try split; try done; lia. Qed.

Lemma cursor_write_correct_witness :
  ∃ store' c',
     Cursor.write [7; 8] (sample_store, sample_cursor) = Ok ((2, 4), (store', c')) ∧
     wf_cursor store' c' ∧ Cursor.get c' store' = Ok ([0; 0] ++ [7; 8]) ∧
     total_pos c' = 8 ∧
     ∀ i, (i < 6 ∨ 8 ≤ i)%nat → store' !! i = sample_store !! i.
Proof.
  apply (cursor_write_correct sample_store sample_cursor [7; 8] [0; 0]);
    [apply sample_cursor_wf|vm_compute; done..].
Defined.

Lemma cursor_split_correct_witness :
  match Cursor.split_at_checked 5 sample_cursor with
  | Some (l, r) =>
      Cursor.view l sample_store ++ Cursor.view (inner r) sample_store
        = Cursor.view (inner sample_cursor) sample_store ∧
      Z.of_nat (slen l) = 5 ∧ wf_cursor sample_store r ∧ 5 ≤ total_pos r ∧
      limit r = 10 ∧ total_pos r = Z.max 6 (6 + (5 - 2)) ∧ pos r = Z.max 0 (2 - 5)
  | None => Z.of_nat (slen (inner sample_cursor)) < 5 ∨ 10 < 6 + (5 - 2)
  end.
Proof.
  apply (cursor_split_correct sample_store sample_cursor 5);
    [apply sample_cursor_wf|vm_compute; done..].
Defined.

(** * Behaviour at the edges *)

(** [try_set_limit] accepts a limit without storing it. *)
Example try_set_limit_does_nothing :
  Cursor.try_set_limit 9 (mkCursor (mkSlice 0 16) 12 4 4)
  = Ok (tt, mkCursor (mkSlice 0 16) 12 4 4).
Proof. reflexivity. Qed.

(** A position past the buffer is accepted while it is within the limit, and a
    write there panics instead of returning [None]. *)
Example position_past_buffer :
  Cursor.try_set_position 9 (mkCursor (mkSlice 0 8) 20 0 0)
    = Ok (9, mkCursor (mkSlice 0 8) 20 9 9) ∧
  Cursor.write (replicate 9 0) (replicate 8 0, mkCursor (mkSlice 0 8) 20 0 0) = Panic.
Proof. split; reflexivity. Qed.
