(* ===== verification/Packet.v ===== *)
(** Packet buffers: kernel/src/net/packet.rs.

    A packet is its 4096-byte DMA buffer with the number of bytes in use; a
    [PacketCursor] is a cursor over that buffer together with the borrow of the
    packet's length, so its operations run on the pair of the two. *)
From Stdlib Require Import ZArith Lia.
From stdpp Require Import prelude list numbers.
From S2P Require Import Prelude Cursor.

Inductive ParseError :=
| TruncatedPacket | InvalidMacAddress | InvalidWord | InvalidDword
| UnsupportedVersion | InvalidIpHeader | IpOptionsUnsupported | InvalidIpProtocol
| FragmentationUnsupported | InvalidLength.

(** [raw] is the page-aligned buffer at physical address [paddr]. *)
Record Packet := mkPacket { buffer : list Z; len : Z; paddr : Z }.

(** A MAC address: six bytes. *)
Abbreviation Mac := (list Z).

Module Packet.

Definition BUF_LEN : nat := 4096.
Definition MAX_PACKET_LEN : Z := 1514.

(** A packet whose buffer was allocated at [addr]. *)
Definition new (addr : Z) : Packet := mkPacket (replicate BUF_LEN 0) 0 addr.

Definition parse_mac (bytes : option (list Z)) : res ParseError Mac :=
  l ← ok_or bytes TruncatedPacket;
  if (length l =? 6)%nat then Ok l else Err InvalidMacAddress.

Definition parse_u16 (bytes : option (list Z)) : res ParseError Z :=
  l ← ok_or bytes TruncatedPacket;
  if (length l =? 2)%nat then Ok (be_val l) else Err InvalidWord.

Definition parse_u32 (bytes : option (list Z)) : res ParseError Z :=
  l ← ok_or bytes TruncatedPacket;
  if (length l =? 4)%nat then Ok (be_val l) else Err InvalidDword.

(** The 2-byte chunks, then the odd last byte as a high byte. *)
Fixpoint add_words (acc : Z) (bytes : list Z) : Z :=
  match bytes with
  | a :: b :: bytes => add_words (wrapping_add 32 acc (be_val [a; b])) bytes
  | [last_byte] => wrapping_add 32 acc (Z.shiftl last_byte 8)
  | [] => acc
  end.

Definition fold_carries (c : Z) : Z :=
  wrapping_add 32 (Z.land c 0xFFFF) (Z.shiftr c 16).

Definition checksum (bytes : list Z) : Z :=
  cast 16 (fold_carries (fold_carries (add_words 0 bytes))).

Definition phys_addr (self : Packet) : Z := paddr self.

(** [&self.raw[..self.length]] *)
Definition raw {E} (self : Packet) : res E (list Z) := slice (buffer self) 0 (len self).

Definition set_len (l : Z) (self : Packet) : Packet := mkPacket (buffer self) l (paddr self).
Definition clear (self : Packet) : Packet := set_len 0 self.

End Packet.

Module PacketCursor.

Definition St : Type := Packet * Cursor.

Definition new (packet : Packet) : res unit Cursor :=
  '(_, c) ← unwrap_res (Cursor.set_position (len packet)
     (Cursor.new_with_limit (mkSlice 0 (length (buffer packet))) Packet.MAX_PACKET_LEN));
  Ok c.

Definition update_len : M St unit unit :=
  '(p, c) ← get; put (Packet.set_len (Cursor.overall_position c) p, c).

Definition write (buf : list Z) : M St unit (Z * Z) := λ '(p, c),
  match Cursor.write buf (buffer p, c) with
  | Ok (r, (store, c')) =>
      (_ ← update_len; mret r) (mkPacket store (len p) (paddr p), c')
  | Err (e, (store, c')) => Err (e, (mkPacket store (len p) (paddr p), c'))
  | Panic => Panic
  | Diverge => Diverge
  end.

Definition write_u8 (v : Z) : M St unit (Z * Z) := write (be_bytes 1 v).
Definition write_u16 (v : Z) : M St unit (Z * Z) := write (be_bytes 2 v).
Definition write_u32 (v : Z) : M St unit (Z * Z) := write (be_bytes 4 v).
Definition write_u64 (v : Z) : M St unit (Z * Z) := write (be_bytes 8 v).

(** The left half is handed out, the right half stays as the cursor. *)
Definition split_at_current : M St unit Slice :=
  '(p, c) ← get;
  '(l, r) ← lift (Cursor.split_at_current c);
  _ ← put (p, r); mret l.

Definition split_at_checked (idx : Z) : M St unit Slice :=
  '(p, c) ← get;
  '(l, r) ← lift (ok_or (Cursor.split_at_checked idx c) tt);
  _ ← put (p, r);
  _ ← update_len; mret l.

Definition split_at (idx : Z) : M St unit Slice := unwrap_M (split_at_checked idx).

(** [self.inner.get()] *)
Definition get (p : Packet) (c : Cursor) : res unit (list Z) := Cursor.get c (buffer p).

End PacketCursor.

(** * Byte order *)
Section bytes.
Implicit Types (l : list Z).

Lemma length_le_bytes n x : length (le_bytes n x) = n.
Proof. revert x. induction n; simpl; auto. Qed.
Lemma length_be_bytes n x : length (be_bytes n x) = n.
Proof. unfold be_bytes. by rewrite length_reverse, length_le_bytes. Qed.

Lemma le_bytes_ok n x : bytes_ok (le_bytes n x).
Proof.
  revert x. induction n; intros x; constructor; auto. unfold fits.
  pose proof (Z.mod_pos_bound x 256). lia.
Qed.
Lemma be_bytes_ok n x : bytes_ok (be_bytes n x).
Proof. apply Forall_reverse, le_bytes_ok. Qed.

Lemma pow256 n : 2 ^ (8 * Z.of_nat (S n)) = 256 * 2 ^ (8 * Z.of_nat n).
Proof. rewrite Nat2Z.inj_succ, Z.mul_succ_r, Z.add_comm, Z.pow_add_r by lia. done. Qed.

Lemma le_val_bytes n x : le_val (le_bytes n x) = x mod 2 ^ (8 * Z.of_nat n).
Proof.
  revert x. induction n as [|n IH]; intros x; [by rewrite Z.mod_1_r|].
  cbn [le_bytes le_val]. rewrite IH, pow256.
  assert (0 < 2 ^ (8 * Z.of_nat n)) by lia.
  rewrite Z.rem_mul_r by lia. lia.
Qed.
Lemma le_bytes_val l : bytes_ok l → le_bytes (length l) (le_val l) = l.
Proof.
  induction 1 as [|b l [Hb1 Hb2] _ IH]; [done|]. cbn [length le_val le_bytes].
  replace ((b + 256 * le_val l) mod 256) with b.
  2:{ rewrite Z.mul_comm, Z.mod_add, Z.mod_small by lia. done. }
  replace ((b + 256 * le_val l) / 256) with (le_val l); [by rewrite IH|].
  rewrite Z.mul_comm, Z.div_add, Z.div_small by lia. lia.
Qed.
Lemma be_val_bytes n x : fits (8 * Z.of_nat n) x → be_val (be_bytes n x) = x.
Proof.
  intros H. unfold be_val, be_bytes. rewrite reverse_involutive, le_val_bytes.
  by apply Z.mod_small.
Qed.

Lemma le_val_bound l : bytes_ok l → fits (8 * zlen l) (le_val l).
Proof.
  unfold fits, zlen. induction 1 as [|b l [Hb1 Hb2] _ IH]; [done|].
  cbn [le_val length]. rewrite pow256. lia.
Qed.
Lemma be_val_bound l : bytes_ok l → fits (8 * zlen l) (be_val l).
Proof.
  intros H. apply Forall_reverse, le_val_bound in H. revert H. unfold zlen.
  by rewrite length_reverse.
Qed.
End bytes.

(** * The internet checksum *)
Section checksum.
Implicit Types (l : list Z) (x : Z).

(** The exact sum of the 16-bit words. *)
Fixpoint word_sum (l : list Z) : Z :=
  match l with
  | a :: b :: l => 256 * a + b + word_sum l
  | [a] => 256 * a
  | [] => 0
  end.

(** Ones-complement normal form: the representative of [x] modulo 65535 in
    1..65535, with 0 only for 0. *)
Definition ones_norm (x : Z) : Z := if x =? 0 then 0 else (x - 1) mod 65535 + 1.

Lemma list_pair_ind (P : list Z → Prop) :
  P [] → (∀ a, P [a]) → (∀ a b l, P l → P (a :: b :: l)) → ∀ l, P l.
Proof.
  intros H0 H1 H2 l. assert (P l ∧ ∀ a, P (a :: l)) as [? _]; [|done].
  induction l as [|b l [IH1 IH2]]; [auto|]. split; auto.
Qed.

Lemma word_sum_bound l : bytes_ok l → 0 ≤ word_sum l ≤ 65535 * zlen l.
Proof.
  induction l as [|a|a b l IH] using list_pair_ind; unfold zlen in *; cbn [word_sum length].
  - lia.
  - intros [Ha _]%Forall_cons_iff. unfold fits in Ha. lia.
  - intros [Ha [Hb Hl]%Forall_cons_iff]%Forall_cons_iff. specialize (IH Hl). unfold fits in *. lia.
Qed.

Lemma add_words_sum l acc :
  bytes_ok l → 0 ≤ acc → acc + word_sum l < 2 ^ 32 →
  Packet.add_words acc l = acc + word_sum l.
Proof.
  revert acc. induction l as [|a|a b l IH] using list_pair_ind;
    intros acc Hok Hacc Hs; cbn [Packet.add_words word_sum] in *.
  - lia.
  - apply Forall_cons_iff in Hok as [Ha _]. unfold fits in Ha.
    unfold wrapping_add. rewrite Z.shiftl_mul_pow2, Z.mod_small; lia.
  - apply Forall_cons_iff in Hok as [Ha [Hb Hl]%Forall_cons_iff]. unfold fits in *.
    pose proof (word_sum_bound l Hl). unfold wrapping_add, be_val. change (reverse [a; b]) with [b; a].
    cbn [le_val]. rewrite Z.mod_small by lia. rewrite IH; [lia|done|lia|lia].
Qed.

Lemma fold_carries_spec x :
  0 ≤ x < 2 ^ 32 →
  let y := Packet.fold_carries x in
  y = x mod 65536 + x / 65536 ∧ 0 ≤ y ≤ 131070 ∧ (y = 0 ↔ x = 0) ∧
  (x ≤ 131070 → y < 65536).
Proof.
  intros Hx y. subst y. unfold Packet.fold_carries, wrapping_add.
  change 0xFFFF with (2 ^ 16 - 1). rewrite land_mask, Z.shiftr_div_pow2 by lia.
  change (2 ^ 16) with 65536.
  pose proof (Z.mod_pos_bound x 65536 ltac:(lia)) as Hm.
  pose proof (Z.div_mod x 65536 ltac:(lia)) as Hd.
  set (q := x / 65536) in *. set (r := x mod 65536) in *. clearbody q r.
  rewrite Z.mod_small by lia. repeat split; lia.
Qed.

Lemma ones_norm_fold x :
  0 ≤ x < 2 ^ 32 → Packet.fold_carries (Packet.fold_carries x) = ones_norm x.
Proof.
  intros Hx. destruct (fold_carries_spec x Hx) as (H1 & H2 & H3 & _).
  set (y := Packet.fold_carries x) in *.
  destruct (fold_carries_spec y) as (H4 & H5 & H6 & H7); [lia|]. specialize (H7 ltac:(lia)).
  unfold ones_norm. destruct (Z.eqb_spec x 0); [lia|].
  set (z := Packet.fold_carries y) in *.
  assert (∃ q, x = z + 65535 * q) as [q Hq].
  { exists (x / 65536 + y / 65536). Z.div_mod_to_equations. lia. }
  replace (x - 1) with (z - 1 + q * 65535) by lia.
  rewrite Z.mod_add, Z.mod_small by lia. lia.
Qed.

(** The bytes of a packet are few enough for the 32-bit accumulator. *)
Lemma checksum_spec l :
  bytes_ok l → zlen l ≤ 65536 → Packet.checksum l = ones_norm (word_sum l).
Proof.
  intros Hok Hlen. pose proof (word_sum_bound l Hok).
  unfold Packet.checksum. rewrite add_words_sum by (done || lia).
  rewrite Z.add_0_l, ones_norm_fold by lia. unfold cast. apply Z.mod_small.
  unfold ones_norm. destruct (_ =? 0); [lia|]. pose proof (Z.mod_pos_bound (word_sum l - 1) 65535). lia.
Qed.

Lemma word_sum_app l1 l2 :
  Nat.Even (length l1) → word_sum (l1 ++ l2) = word_sum l1 + word_sum l2.
Proof.
  induction l1 as [|a|a b l IH] using list_pair_ind; simpl; [lia| |].
  - intros [n Hn]. lia.
  - intros [n Hn]. rewrite IH; [lia|]. exists (n - 1)%nat. lia.
Qed.

Lemma ones_norm_range x : 0 ≤ x → 0 ≤ ones_norm x ≤ 65535.
Proof.
  intros H. unfold ones_norm. destruct (_ =? 0); [lia|].
  pose proof (Z.mod_pos_bound (x - 1) 65535). lia.
Qed.

Lemma ones_norm_cong x : 0 ≤ x → ∃ q, x = ones_norm x + 65535 * q.
Proof.
  intros H. unfold ones_norm. destruct (Z.eqb_spec x 0) as [->|]; [by exists 0|].
  exists ((x - 1) / 65535). Z.div_mod_to_equations. lia.
Qed.

Lemma ones_norm_unique x y q :
  0 < x → 0 < y ≤ 65535 → x = y + 65535 * q → ones_norm x = y.
Proof.
  intros Hx Hy ->. unfold ones_norm. rewrite (proj2 (Z.eqb_neq _ _)) by lia.
  replace (y + 65535 * q - 1) with (y - 1 + q * 65535) by lia.
  rewrite Z.mod_add, Z.mod_small by lia. lia.
Qed.
End checksum.
