(* ===== verification/Net.v ===== *)
(** The protocol layers of kernel/src/net/protocols: Ethernet (eth.rs), ARP
    packets (arp.rs), IPv4/IPv6 (ip/ip.rs, ip/v4.rs, ip/v6.rs) and UDP (udp.rs):
    the parsers of received packets and the builders of outgoing ones.

    A builder holds windows of the packet's buffer (its header, its cursor), so
    the functions below run on the packet. Indexing and slicing panic out of
    bounds, so that no parser panics is a theorem. *)
From Stdlib Require Import ZArith Lia.
From stdpp Require Import prelude list numbers.
From S2P Require Import Prelude Cursor Packet.

(** * Addresses: net/net.rs *)
Definition BROADCAST : Mac := replicate 6 0xFF.
Definition ZERO : Mac := replicate 6 0.

(** [core::net::IpAddr]: a 32-bit IPv4 address or the 16 octets of an IPv6 one. *)
Inductive IpAddr := IpV4 (bits : Z) | IpV6 (octets : list Z).

Record NetAddress := mkNetAddress {
  src_mac : Mac; src_ip : IpAddr; src_port : Z;
  dst_mac : Mac; dst_ip : IpAddr; dst_port : Z;
}.

(** * Plumbing *)

(** Run an operation on a cursor borrowed from the packet. *)
Definition with_cursor {A} (c : Cursor) (m : M PacketCursor.St unit A)
    : M Packet unit (A * Cursor) := λ p,
  match m (p, c) with
  | Ok (a, (p', c')) => Ok ((a, c'), p')
  | Err (e, (p', _)) => Err (e, p')
  | Panic => Panic
  | Diverge => Diverge
  end.

(** A call whose [Option] is dropped. *)
Definition ignore {S A} (m : M S unit A) : M S unit unit := λ s,
  match m s with
  | Ok (_, s') | Err (_, s') => Ok (tt, s')
  | Panic => Panic
  | Diverge => Diverge
  end.

(** [hdr[idx..idx + src.len()].copy_from_slice(src)] for a window of the buffer. *)
Definition write_hdr (hdr : Slice) (idx : Z) (src : list Z) : M Packet unit unit := λ p,
  if (0 <=? idx) && (idx + zlen src <=? Z.of_nat (slen hdr)) then
    match copy_from_slice (E:=unit) (buffer p) (off hdr + Z.to_nat idx)
            (off hdr + Z.to_nat idx + length src) src with
    | Ok b => Ok (tt, mkPacket b (len p) (paddr p))
    | Diverge => Diverge
    | _ => Panic
    end
  else Panic.

Definition read_hdr (hdr : Slice) : M Packet unit (list Z) := λ p,
  Ok (Cursor.view hdr (buffer p), p).

Definition or_else {E A} (r : res E A) (f : E → res E A) : res E A :=
  match r with Err e => f e | _ => r end.
Definition rmap {E A B} (f : A → B) (r : res E A) : res E B := a ← r; Ok (f a).

(** * Ethernet *)
Module eth.

Record Parsed := mkParsed {
  dst_mac : Mac; src_mac : Mac; eth_type : Z; payload : list Z }.

Definition parse_eth (self : Packet) : res ParseError Parsed :=
  raw ← Packet.raw self;
  dst_mac ← Packet.parse_mac (get_range raw 0x0 0x6);
  src_mac ← Packet.parse_mac (get_range raw 0x6 0xC);
  eth_type ← Packet.parse_u16 (get_range raw 0xC 0xE);
  payload ← ok_or (get_from raw 0xE) TruncatedPacket;
  Ok (mkParsed dst_mac src_mac eth_type payload).

(** [Builder::new]: the builder is the cursor after the two addresses. *)
Definition Builder_new (cursor : Cursor) (src dst : Mac) : M Packet unit Cursor :=
  '(_, cursor) ← with_cursor cursor (
     _ ← PacketCursor.write dst;
     _ ← PacketCursor.write src; mret tt);
  mret cursor.

End eth.

(** * IP *)
Module ip.

Definition ETH_TYPE_IPV4 : Z := 0x0800.
Definition ETH_TYPE_IPV6 : Z := 0x86DD.

Inductive TransportProtocol := Icmp | Tcp | Udp.
Definition protocol_code (p : TransportProtocol) : Z :=
  match p with Icmp => 0x01 | Tcp => 0x06 | Udp => 0x11 end.

Record ParsedV4 := mkParsedV4 {
  v4_eth : eth.Parsed; v4_src_ip : Z; v4_dst_ip : Z; v4_protocol : Z;
  v4_payload : list Z }.

Definition parse_ipv4 (self : Packet) : res ParseError ParsedV4 :=
  eth ← eth.parse_eth self;
  if negb (eth.eth_type eth =? ETH_TYPE_IPV4) then Err UnsupportedVersion else
  header ← ok_or (get_range (eth.payload eth) 0 20) InvalidIpHeader;
  b0 ← index header 0;
  if negb (Z.shiftr b0 4 =? 4) then Err UnsupportedVersion else
  if negb (Z.land b0 0xF =? 5) then Err IpOptionsUnsupported else
  w ← slice header 2 4;
  total_length ← Packet.parse_u16 (Some w);
  b6 ← index header 6;
  let flags := Z.land (Z.shiftr b6 5) 0x7 in
  if negb (Z.land flags 5 =? 0) then Err FragmentationUnsupported else
  w ← slice header 6 8;
  frag_offset ← Packet.parse_u16 (Some w);
  if negb (Z.land frag_offset 0x1FFF =? 0) then Err FragmentationUnsupported else
  protocol ← index header 9;
  w ← slice header 12 16; src_ip ← Packet.parse_u32 (Some w);
  w ← slice header 16 20; dst_ip ← Packet.parse_u32 (Some w);
  if (total_length <? zlen header) || (zlen (eth.payload eth) <? total_length)
  then Err InvalidLength else
  payload ← slice (eth.payload eth) 20 total_length;
  Ok (mkParsedV4 eth src_ip dst_ip protocol payload).

Record ParsedV6 := mkParsedV6 {
  v6_eth : eth.Parsed; v6_src_ip : list Z; v6_dst_ip : list Z; v6_next_header : Z;
  v6_payload : list Z }.

Definition parse_ipv6 (self : Packet) : res ParseError ParsedV6 :=
  eth ← eth.parse_eth self;
  if negb (eth.eth_type eth =? ETH_TYPE_IPV6) then Err UnsupportedVersion else
  header ← ok_or (get_range (eth.payload eth) 0 40) InvalidIpHeader;
  b0 ← index header 0;
  if negb (Z.shiftr b0 4 =? 6) then Err UnsupportedVersion else
  w ← slice header 4 6;
  payload_len ← Packet.parse_u16 (Some w);
  next_header ← index header 6;
  src_ip ← slice header 8 24; _ ← assert (length src_ip =? 16)%nat;
  dst_ip ← slice header 24 40; _ ← assert (length dst_ip =? 16)%nat;
  total ← add 64 payload_len (zlen header);
  if zlen (eth.payload eth) <? total then Err InvalidLength else
  payload ← slice (eth.payload eth) 40 (40 + payload_len);
  Ok (mkParsedV6 eth src_ip dst_ip next_header payload).

Inductive Parsed := V4 (p : ParsedV4) | V6 (p : ParsedV6).

Definition parsed_eth (self : Parsed) : eth.Parsed :=
  match self with V4 p => v4_eth p | V6 p => v6_eth p end.
Definition src_ip (self : Parsed) : IpAddr :=
  match self with V4 p => IpV4 (v4_src_ip p) | V6 p => IpV6 (v6_src_ip p) end.
Definition dst_ip (self : Parsed) : IpAddr :=
  match self with V4 p => IpV4 (v4_dst_ip p) | V6 p => IpV6 (v6_dst_ip p) end.
Definition protocol (self : Parsed) : Z :=
  match self with V4 p => v4_protocol p | V6 p => v6_next_header p end.
Definition payload (self : Parsed) : list Z :=
  match self with V4 p => v4_payload p | V6 p => v6_payload p end.

(** ** Builders *)
Record BuilderV4 := mkBuilderV4 {
  v4_hdr : Slice; v4_src : Z; v4_dst : Z;
  v4_fill_len : Z; v4_fill_prot : Z; v4_fill_crc : Z;
  v4_cursor : option Cursor }.

Definition BuilderV4_new (cursor : Cursor) (src dst : Z) : M Packet unit BuilderV4 :=
  '((hdr, (len, prot, crc)), cursor) ← with_cursor cursor (
    _ ← PacketCursor.write_u8 (Z.lor (Z.shiftl 4 4) 5);
    _ ← PacketCursor.write_u8 0;
    '(len, _) ← PacketCursor.write_u16 0;
    _ ← PacketCursor.write_u32 0;
    _ ← PacketCursor.write_u8 64;
    '(prot, _) ← PacketCursor.write_u8 0;
    '(crc, _) ← PacketCursor.write_u16 0;
    _ ← PacketCursor.write_u32 src;
    _ ← PacketCursor.write_u32 dst;
    hdr ← PacketCursor.split_at_current;
    mret (hdr, (len, prot, crc)));
  mret (mkBuilderV4 hdr src dst len prot crc (Some cursor)).

Definition write_len_v4 (self : BuilderV4) (len : Z) : M Packet unit unit :=
  size ← lift (unwrap (checked_add 16 (cast 16 (Z.of_nat (slen (v4_hdr self)))) len));
  write_hdr (v4_hdr self) (v4_fill_len self) (be_bytes 2 size).

(** [to_ne_bytes] on the little-endian target *)
Definition write_crc_v4 (self : BuilderV4) : M Packet unit unit :=
  bytes ← read_hdr (v4_hdr self);
  let checksum := unot 16 (Packet.checksum bytes) in
  write_hdr (v4_hdr self) (v4_fill_crc self) (le_bytes 2 checksum).

Definition set_protocol_v4 (self : BuilderV4) (prot : TransportProtocol) : M Packet unit unit :=
  write_hdr (v4_hdr self) (v4_fill_prot self) [protocol_code prot].

Definition finalize_v4 (self : BuilderV4) (payload_len : Z) : M Packet unit unit :=
  _ ← write_len_v4 self payload_len; write_crc_v4 self.

Record BuilderV6 := mkBuilderV6 {
  v6_hdr : Slice; v6_src : list Z; v6_dst : list Z;
  v6_fill_len : Z; v6_fill_prot : Z;
  v6_cursor : option Cursor }.

Definition BuilderV6_new (cursor : Cursor) (src dst : list Z) : M Packet unit BuilderV6 :=
  '((hdr, (len, prot)), cursor) ← with_cursor cursor (
    _ ← PacketCursor.write_u8 (Z.shiftl 6 4);
    _ ← PacketCursor.write_u8 0;
    _ ← PacketCursor.write_u16 0;
    '(len, _) ← PacketCursor.write_u16 0;
    '(prot, _) ← PacketCursor.write_u8 0;
    _ ← PacketCursor.write_u8 64;
    _ ← PacketCursor.write src;
    _ ← PacketCursor.write dst;
    hdr ← PacketCursor.split_at_current;
    mret (hdr, (len, prot)));
  mret (mkBuilderV6 hdr src dst len prot (Some cursor)).

Definition write_len_v6 (self : BuilderV6) (len : Z) : M Packet unit unit :=
  write_hdr (v6_hdr self) (v6_fill_len self) (be_bytes 2 len).

Definition set_protocol_v6 (self : BuilderV6) (prot : TransportProtocol) : M Packet unit unit :=
  write_hdr (v6_hdr self) (v6_fill_prot self) [protocol_code prot].

Definition finalize_v6 (self : BuilderV6) (payload_len : Z) : M Packet unit unit :=
  write_len_v6 self payload_len.

Inductive Builder := BV4 (b : BuilderV4) | BV6 (b : BuilderV6).

Definition set_protocol (self : Builder) (prot : TransportProtocol) : M Packet unit unit :=
  match self with BV4 b => set_protocol_v4 b prot | BV6 b => set_protocol_v6 b prot end.

(** [take_cursor]: the builder without its cursor, and the cursor. *)
Definition take_cursor (self : Builder) : Builder * option Cursor :=
  match self with
  | BV4 b => (BV4 (mkBuilderV4 (v4_hdr b) (v4_src b) (v4_dst b) (v4_fill_len b)
                     (v4_fill_prot b) (v4_fill_crc b) None), v4_cursor b)
  | BV6 b => (BV6 (mkBuilderV6 (v6_hdr b) (v6_src b) (v6_dst b) (v6_fill_len b)
                     (v6_fill_prot b) None), v6_cursor b)
  end.

Definition finalize (self : Builder) (payload_len : Z) : M Packet unit unit :=
  match self with BV4 b => finalize_v4 b payload_len | BV6 b => finalize_v6 b payload_len end.

(** [eth::Builder::ipv4] and [eth::Builder::ipv6]: the type field, then the
    Ethernet header is split off. *)
Definition ipv4 (cursor : Cursor) (src dst : Z) : M Packet unit BuilderV4 :=
  '(_, cursor) ← with_cursor cursor (
    _ ← ignore (PacketCursor.write_u16 ETH_TYPE_IPV4);
    PacketCursor.split_at_current);
  BuilderV4_new cursor src dst.

Definition ipv6 (cursor : Cursor) (src dst : list Z) : M Packet unit BuilderV6 :=
  '(_, cursor) ← with_cursor cursor (
    _ ← ignore (PacketCursor.write_u16 ETH_TYPE_IPV6);
    PacketCursor.split_at_current);
  BuilderV6_new cursor src dst.

(** [eth::Builder::ip] *)
Definition ip (cursor : Cursor) (src dst : IpAddr) : M Packet unit Builder :=
  match src, dst with
  | IpV4 src, IpV4 dst => b ← ipv4 cursor src dst; mret (BV4 b)
  | IpV6 src, IpV6 dst => b ← ipv6 cursor src dst; mret (BV6 b)
  | _, _ => throw tt
  end.

End ip.

(** * UDP *)
Module udp.

Definition IP_PROT_UDP : Z := 0x11.

Record Parsed := mkParsed {
  ip : ip.Parsed; src_port : Z; dst_port : Z; payload : list Z }.

Definition parse_udp (self : Packet) : res ParseError Parsed :=
  ip ← or_else (rmap ip.V4 (ip.parse_ipv4 self)) (λ _, rmap ip.V6 (ip.parse_ipv6 self));
  if negb (ip.protocol ip =? IP_PROT_UDP) then Err InvalidIpProtocol else
  header ← ok_or (get_range (ip.payload ip) 0 8) TruncatedPacket;
  src_port ← Packet.parse_u16 (get_range header 0 2);
  dst_port ← Packet.parse_u16 (get_range header 2 4);
  length ← Packet.parse_u16 (get_range header 4 6);
  if (length <? zlen header) || (zlen (ip.payload ip) <? length)
  then Err InvalidLength else
  payload ← slice (ip.payload ip) 8 length;
  Ok (mkParsed ip src_port dst_port payload).

Record Builder := mkBuilder {
  b_ip : ip.Builder; b_hdr : Slice; b_payload : Cursor; fill_len : Z; fill_crc : Z }.

Definition Builder_new (ip : ip.Builder) (cursor : Cursor) (src dst : Z)
    : M Packet unit Builder :=
  _ ← ip.set_protocol ip ip.Udp;
  '((hdr, (len, crc)), payload) ← with_cursor cursor (
    _ ← PacketCursor.write_u16 src;
    _ ← PacketCursor.write_u16 dst;
    '(len, _) ← PacketCursor.write_u16 0;
    '(crc, _) ← PacketCursor.write_u16 0;
    hdr ← PacketCursor.split_at_current;
    mret (hdr, (len, crc)));
  mret (mkBuilder ip hdr payload len crc).

(** [ip::Builder::udp] *)
Definition udp (self : ip.Builder) (src dst : Z) : M Packet unit Builder :=
  _ ← ip.set_protocol self ip.Udp;
  let '(self, cursor) := ip.take_cursor self in
  cursor ← lift (unwrap cursor);
  Builder_new self cursor src dst.

Definition from_packet (cursor : Cursor) (addr : NetAddress) : M Packet unit Builder :=
  cursor ← eth.Builder_new cursor (src_mac addr) (dst_mac addr);
  ip ← ip.ip cursor (src_ip addr) (dst_ip addr);
  udp ip (Net.src_port addr) (Net.dst_port addr).

(** [Packet::create_udp] *)
Definition create_udp (addr : NetAddress) : M Packet unit Builder :=
  self ← get;
  cursor ← lift (PacketCursor.new self);
  unwrap_M (from_packet cursor addr).

Definition write (self : Builder) (buf : list Z) : M Packet unit (Builder * (Z * Z)) :=
  '(r, payload) ← with_cursor (b_payload self) (PacketCursor.write buf);
  mret (mkBuilder (b_ip self) (b_hdr self) payload (fill_len self) (fill_crc self), r).

(** [self.payload.get()] *)
Definition payload_bytes (self : Builder) : M Packet unit (list Z) :=
  p ← get; lift (PacketCursor.get p (b_payload self)).

Definition write_len (self : Builder) : M Packet unit Z :=
  bytes ← payload_bytes self;
  let size := cast 16 (Z.of_nat (slen (b_hdr self)) + zlen bytes) in
  _ ← write_hdr (b_hdr self) (fill_len self) (be_bytes 2 size);
  mret size.

(** The 40-byte IPv6 pseudo header. *)
Definition pseudo_header (src dst : list Z) (udp_len : Z) : list Z :=
  src ++ dst ++ be_bytes 4 udp_len ++ [0; 0; 0; IP_PROT_UDP].

(** Fold the carries, complement, and avoid the reserved value zero. *)
Definition finish_crc (acc : Z) : res unit Z :=
  final_sum ← add 32 (Z.land acc 0xFFFF) (Z.shiftr acc 16);
  final_sum ← add 32 (Z.land final_sum 0xFFFF) (Z.shiftr final_sum 16);
  let checksum := unot 16 (cast 16 final_sum) in
  Ok (if checksum =? 0 then 0xFFFF else checksum).

Definition crc_sum (src dst : list Z) (udp_len : Z) (hdr payload : list Z) : Z :=
  let acc := wrapping_add 32 0 (Packet.checksum (pseudo_header src dst udp_len)) in
  let acc := wrapping_add 32 acc (Packet.checksum hdr) in
  wrapping_add 32 acc (Packet.checksum payload).

Definition write_crc (self : Builder) : M Packet unit unit :=
  match b_ip self with
  | ip.BV4 _ => mret tt
  | ip.BV6 ipv6 =>
      payload ← payload_bytes self;
      let udp_len := cast 32 (Z.of_nat (slen (b_hdr self)) + zlen payload) in
      hdr ← read_hdr (b_hdr self);
      checksum ← lift (finish_crc (crc_sum (ip.v6_src ipv6) (ip.v6_dst ipv6) udp_len hdr payload));
      write_hdr (b_hdr self) (fill_crc self) (be_bytes 2 checksum)
  end.

Definition finalize (self : Builder) : M Packet unit unit :=
  udp_len ← write_len self;
  _ ← ip.finalize (b_ip self) udp_len;
  write_crc self.

(** A datagram as callers build one: create the builder, write the payload,
    drop the builder (which finalizes it). *)
Definition datagram (addr : NetAddress) (data : list Z) : M Packet unit unit :=
  b ← create_udp addr;
  '(b, _) ← write b data;
  finalize b.

End udp.

(** * ARP packets *)
Module arp.

Definition ETH_TYPE_ARP : Z := 0x0806.
Definition ETH_TYPE_IPV4 : Z := 0x0800.
Definition HW_TYPE_ETH : Z := 1.

Inductive Opcode := Request | Reply.
Definition opcode_code (o : Opcode) : Z := match o with Request => 1 | Reply => 2 end.

Record Parsed := mkParsed {
  p_eth : eth.Parsed; hw_type : Z; proto_type : Z; hw_size : Z; proto_size : Z;
  opcode : Z; sender_mac : Mac; sender_ip : Z; target_mac : Mac; target_ip : Z }.

Definition is_valid_reply (self : Parsed) (s_ip t_ip : Z) (t_mac : Mac) : bool :=
  (hw_type self =? HW_TYPE_ETH) && (proto_type self =? ETH_TYPE_IPV4)
  && (hw_size self =? 6) && (proto_size self =? 4)
  && (opcode self =? opcode_code Reply) && (sender_ip self =? s_ip)
  && (target_ip self =? t_ip) && bool_decide (target_mac self = t_mac).

(** [pl[a..b].try_into()]: the bytes, or the parse error. *)
Definition field (pl : list Z) (a b : Z) (e : ParseError) : res ParseError (list Z) :=
  w ← slice pl a b;
  if (zlen w =? b - a) then Ok w else Err e.

Definition parse_arp (self : Packet) : res ParseError Parsed :=
  eth ← eth.parse_eth self;
  if negb (eth.eth_type eth =? ETH_TYPE_ARP) then Err InvalidLength else
  let pl := eth.payload eth in
  if zlen pl <? 28 then Err TruncatedPacket else
  hw_type ← field pl 0 2 InvalidWord;
  proto_type ← field pl 2 4 InvalidWord;
  hw_size ← index pl 4;
  proto_size ← index pl 5;
  opcode ← field pl 6 8 InvalidWord;
  sender_mac ← field pl 8 14 InvalidMacAddress;
  sender_ip ← field pl 14 18 InvalidDword;
  target_mac ← field pl 18 24 InvalidMacAddress;
  target_ip ← field pl 24 28 InvalidDword;
  Ok (mkParsed eth (be_val hw_type) (be_val proto_type) hw_size proto_size
        (be_val opcode) sender_mac (be_val sender_ip) target_mac (be_val target_ip)).

Definition build_arp_packet (op : Opcode) (s_mac : Mac) (s_ip : Z) (t_mac : Mac) (t_ip : Z)
    : M Packet unit unit :=
  packet ← get;
  cursor ← lift (PacketCursor.new packet);
  cursor ← eth.Builder_new cursor s_mac BROADCAST;
  _ ← with_cursor cursor (
    _ ← PacketCursor.write_u16 HW_TYPE_ETH;
    _ ← PacketCursor.write_u16 ETH_TYPE_ARP;
    _ ← PacketCursor.write_u8 6;
    _ ← PacketCursor.write_u8 4;
    _ ← PacketCursor.write_u16 (opcode_code op);
    _ ← PacketCursor.write s_mac;
    _ ← PacketCursor.write (be_bytes 4 s_ip);
    _ ← PacketCursor.write t_mac;
    _ ← PacketCursor.write (be_bytes 4 t_ip);
    mret tt);
  mret tt.

End arp.


Example datagram_v4_parses :
  let addr := mkNetAddress [2;0;0;0;0;1] (IpV4 0x0A000001) 5000 BROADCAST (IpV4 0x0A0000FF) 67 in
  match udp.datagram addr [1;2;3] (Packet.new 0) with
  | Ok (_, p) => match udp.parse_udp p with
                 | Ok u => udp.payload u = [1;2;3] ∧ udp.src_port u = 5000
                 | _ => False
                 end
  | _ => False
  end.
Proof. vm_compute. done. Qed.
