(* ===== verification/NetBuild.v ===== *)
(** What the packet builders write: the exact bytes of the Ethernet, IPv4, IPv6
    and UDP headers, by symbolic execution of the builder code. *)
From Stdlib Require Import ZArith Lia.
From stdpp Require Import prelude list numbers.
From S2P Require Import Prelude Cursor Packet Net.

(** [written o p c w]: the packet holds the bytes [w], and the cursor stands
    right behind them in the window that starts at [o]. *)
Record written (o : nat) (p : Packet) (c : Cursor) (w : list Z) : Prop := {
  w_buf : length (buffer p) = Packet.BUF_LEN;
  w_bytes : take (length w) (buffer p) = w;
  w_len : len p = zlen w;
  w_max : zlen w ≤ Packet.MAX_PACKET_LEN;
  w_off : (o ≤ length w)%nat;
  w_cur : c = mkCursor (mkSlice o (Packet.BUF_LEN - o)) Packet.MAX_PACKET_LEN
                (zlen w - Z.of_nat o) (zlen w);
}.

(** The same without a cursor: the bytes of a packet. *)
Record holds (p : Packet) (w : list Z) : Prop := {
  h_buf : length (buffer p) = Packet.BUF_LEN;
  h_bytes : take (length w) (buffer p) = w;
  h_len : len p = zlen w;
  h_max : zlen w ≤ Packet.MAX_PACKET_LEN;
}.

Section building.
Implicit Types (p : Packet) (c : Cursor) (w buf a b d : list Z) (o : nat).

Lemma written_holds o p c w : written o p c w → holds p w.
Proof. by intros []. Qed.

Lemma holds_written o p c w : written o p c w → ∀ p' w',
  holds p' w' → length w' = length w → written o p' c w'.
Proof.
  intros [? ? ? ? ? ->] p' w' [? ? ? ?] Hl.
  split; auto; [by rewrite Hl|]. unfold zlen. by rewrite Hl.
Qed.

Lemma holds_raw {E} p w : holds p w → Packet.raw (E:=E) p = Ok w.
Proof.
  intros [Hb Ht Hl Hm]. unfold Packet.raw, slice, get_range.
  assert (zlen (buffer p) = 4096) as -> by (unfold zlen; by rewrite Hb).
  rewrite Hl. unfold Packet.MAX_PACKET_LEN, zlen in *.
  rewrite !(proj2 (Z.leb_le _ _)) by lia. simpl.
  by rewrite Z.sub_0_r, drop_0, Nat2Z.id, Ht.
Qed.

Lemma written_wf o p c w : written o p c w → wf_cursor (buffer p) c ∧ abs_pos c = length w.
Proof.
  intros [Hb Ht Hl Hm Ho ->]. unfold Packet.BUF_LEN, Packet.MAX_PACKET_LEN, abs_pos, zlen in *.
  split; [|simpl; lia].
  assert (length w ≤ 4096)%nat by lia.
  split; cbn [inner off slen pos total_pos limit]; unfold zlen; lia.
Qed.

Lemma take_splice (l : list Z) w buf :
  take (length w) l = w → (length w + length buf ≤ length l)%nat →
  take (length (w ++ buf)) (splice l (length w) buf) = w ++ buf.
Proof.
  intros H Hle. unfold splice. rewrite H, app_assoc.
  apply take_app_length.
Qed.

Lemma pc_write o p c w buf :
  written o p c w → zlen w + zlen buf ≤ Packet.MAX_PACKET_LEN →
  ∃ p' c', PacketCursor.write buf (p, c) =
             Ok ((zlen w - Z.of_nat o, zlen w - Z.of_nat o + zlen buf), (p', c')) ∧
           written o p' c' (w ++ buf).
Proof.
  intros Hw Hfit. destruct (written_wf _ _ _ _ Hw) as [Hwf Habs].
  destruct Hw as [Hb Ht Hl Hm Ho ->]. set (c := mkCursor _ _ _ _) in *.
  assert (zlen w + zlen buf - Z.of_nat o ≤ Z.of_nat (4096 - o)) as Hroom
    by (unfold Packet.MAX_PACKET_LEN, zlen in *; lia).
  unfold Packet.BUF_LEN in Hb.
    unfold PacketCursor.write. rewrite (write_Ok _ _ buf Hwf); [|cbn [inner slen pos total_pos limit c]; unfold Packet.BUF_LEN, Packet.MAX_PACKET_LEN in *; lia..].
  unfold Packet.MAX_PACKET_LEN, zlen in *. rewrite Habs. unfold PacketCursor.update_len, mbind, M_bind, get, put, mret, M_ret.
  eexists _, _. split; [done|]. split; cbn [buffer len Packet.set_len].
  - rewrite length_splice; unfold Packet.BUF_LEN; lia.
  - apply take_splice; [done|lia].
  - unfold Cursor.overall_position, zlen. simpl. rewrite length_app. lia.
  - unfold zlen. rewrite length_app. unfold Packet.MAX_PACKET_LEN. lia.
  - rewrite length_app. lia.
  - unfold advance, zlen. simpl. rewrite length_app. f_equal; lia.
Qed.

Lemma pc_split o p c w :
  written o p c w →
  ∃ c', PacketCursor.split_at_current (p, c) = Ok (mkSlice o (length w - o), (p, c')) ∧
        written (length w) p c' w.
Proof.
  intros [Hb Ht Hl Hm Ho ->]. unfold Packet.BUF_LEN, Packet.MAX_PACKET_LEN, zlen in *.
  unfold PacketCursor.split_at_current, Cursor.split_at_current, Cursor.split_at,
    Cursor.split_at_checked, mbind, M_bind, get, put, mret, M_ret, lift. simpl.
  rewrite (proj2 (Z.ltb_ge _ _)), Z.ltb_irrefl by lia. cbn [option_bind].
  rewrite (proj2 (Z.ltb_ge _ _)) by lia. simpl.
  replace (Z.to_nat (Z.of_nat (length w) - Z.of_nat o)) with (length w - o)%nat by lia.
  eexists. split; [done|]. split; auto.
  unfold Packet.BUF_LEN, Packet.MAX_PACKET_LEN, zlen. f_equal; [f_equal|]; lia.
Qed.

Lemma pc_new p :
  length (buffer p) = Packet.BUF_LEN → len p = 0 →
  ∃ c, PacketCursor.new p = Ok c ∧ written 0 p c [].
Proof.
  intros Hb Hl. unfold PacketCursor.new. rewrite Hl, Hb.
  eexists. split; [reflexivity|]. by split.
Qed.

(** Overwrite a header field. *)
Lemma hdr_write p w a b d src h idx :
  holds p w → w = a ++ b ++ d → length b = length src →
  length a = (off h + Z.to_nat idx)%nat → 0 ≤ idx →
  idx + zlen src ≤ Z.of_nat (slen h) →
  ∃ p', write_hdr h idx src p = Ok (tt, p') ∧ holds p' (a ++ src ++ d).
Proof.
  destruct p as [l n pa]. intros [Hb Ht Hl Hm] -> Hlen Ha Hidx Hin.
  cbn [buffer len paddr] in *. unfold write_hdr. cbn [buffer len paddr].
  rewrite !(proj2 (Z.leb_le _ _)) by lia. simpl andb.
  assert (l = a ++ b ++ (d ++ drop (length (a ++ b ++ d)) l)) as Hsplit.
  { rewrite <-(take_drop (length (a ++ b ++ d)) l) at 1. rewrite Ht. by rewrite <-!app_assoc. }
  rewrite <-Ha, <-Hlen. replace (copy_from_slice l _ _ _) with (@Ok unit _ (a ++ src ++ d ++ drop (length (a ++ b ++ d)) l))
    by (rewrite Hsplit at 2; by rewrite copy_from_slice_middle).
  eexists. split; [done|]. split; cbn [buffer len].
  - rewrite Hsplit in Hb. rewrite !length_app in *. lia.
  - rewrite !app_assoc, <-(app_assoc a src d).
    replace (length (a ++ src ++ d)) with (length ((a ++ src) ++ d))
      by (by rewrite <-app_assoc). rewrite app_assoc. apply take_app_length.
  - rewrite Hl. unfold zlen. rewrite !length_app. lia.
  - revert Hm. unfold zlen. rewrite !length_app, Hlen. done.
Qed.

Lemma hdr_view p w a b d :
  holds p w → w = a ++ b ++ d →
  read_hdr (mkSlice (length a) (length b)) p = Ok (b, p).
Proof.
  intros [Hb Ht _ _] ->. unfold read_hdr, Cursor.view. simpl. do 2 f_equal.
  rewrite <-(take_drop (length (a ++ b ++ d)) (buffer p)), Ht, <-!app_assoc.
  rewrite drop_app_length. apply take_app_length.
Qed.

Lemma with_cursor_Ok {X} c (m : M PacketCursor.St unit X) p (x : X) p' c' :
  m (p, c) = Ok (x, (p', c')) → with_cursor c m p = Ok ((x, c'), p').
Proof. intros H. unfold with_cursor. by rewrite H. Qed.

Lemma ignore_Ok {S X} (m : M S unit X) s (x : X) s' : m s = Ok (x, s') → ignore m s = Ok (tt, s').
Proof. intros H. unfold ignore. by rewrite H. Qed.
End building.

Ltac len_solve :=
  unfold zlen, Packet.MAX_PACKET_LEN in *;
  rewrite ?length_app, ?length_be_bytes in *; cbn [length] in *; lia.

(** One step of a builder: a write of the given bytes, or the split. *)
Ltac wstep_write H :=
  lazymatch type of H with
  | written ?o ?p ?c ?w =>
    lazymatch goal with
    | |- context [(PacketCursor.write ?buf ≫= _) (p, c)] =>
      let p' := fresh "p" in let c' := fresh "c" in let E := fresh "E" in
      let H' := fresh "Hw" in
      destruct (pc_write o p c w buf H) as (p' & c' & E & H'); [len_solve|];
      rewrite (M_bind_Ok _ _ _ _ _ E); clear E H; rename H' into H; cbv beta iota
    | |- context [(PacketCursor.split_at_current ≫= _) (p, c)] =>
      let c' := fresh "c" in let E := fresh "E" in let H' := fresh "Hw" in
      destruct (pc_split o p c w H) as (c' & E & H');
      rewrite (M_bind_Ok _ _ _ _ _ E); clear E H; rename H' into H; cbv beta iota
    end
  end.

(** * The headers *)
Definition ipv4_header (len prot : Z) (crc : list Z) (src dst : Z) : list Z :=
  [0x45; 0] ++ be_bytes 2 len ++ be_bytes 4 0 ++ [64; prot] ++ crc
  ++ be_bytes 4 src ++ be_bytes 4 dst.
Definition ipv6_header (len prot : Z) (src dst : list Z) : list Z :=
  [0x60; 0; 0; 0] ++ be_bytes 2 len ++ [prot; 64] ++ src ++ dst.
Definition udp_header (sport dport len crc : Z) : list Z :=
  be_bytes 2 sport ++ be_bytes 2 dport ++ be_bytes 2 len ++ be_bytes 2 crc.

Section headers.
Implicit Types (p : Packet) (c : Cursor) (w : list Z) (o : nat).

Lemma written_eq o o' p c w w' : written o p c w → w = w' → o = o' → written o' p c w'.
Proof. by intros ? -> ->. Qed.

Lemma eth_new p c src dst :
  written 0 p c [] → length src = 6%nat → length dst = 6%nat →
  ∃ p' c', eth.Builder_new c src dst p = Ok (c', p') ∧ written 0 p' c' (dst ++ src).
Proof.
  intros H Hs Hd. unfold eth.Builder_new, with_cursor, mbind at 1, M_bind at 1.
  do 2 wstep_write H. eauto.
Qed.

Lemma v4_new o p c w src dst :
  written o p c w → o = length w → zlen w + 20 ≤ Packet.MAX_PACKET_LEN →
  ∃ p' c', ip.BuilderV4_new c src dst p =
             Ok (ip.mkBuilderV4 (mkSlice o 20) src dst 2 9 10 (Some c'), p') ∧
           written (length w + 20) p' c' (w ++ ipv4_header 0 0 [0; 0] src dst).
Proof.
  intros H -> Hmax. unfold ip.BuilderV4_new, with_cursor, mbind at 1, M_bind at 1.
  unfold PacketCursor.write_u8, PacketCursor.write_u16, PacketCursor.write_u32.
  do 10 wstep_write H. eexists _, _. split.
  - unfold mret, M_ret. cbv beta iota. do 2 f_equal. f_equal; [f_equal|..]; len_solve.
  - apply (written_eq _ _ _ _ _ _ H); [by rewrite <-!app_assoc|len_solve].
Qed.

Lemma v6_new o p c w src dst :
  written o p c w → o = length w → zlen w + 40 ≤ Packet.MAX_PACKET_LEN →
  length src = 16%nat → length dst = 16%nat →
  ∃ p' c', ip.BuilderV6_new c src dst p =
             Ok (ip.mkBuilderV6 (mkSlice o 40) src dst 4 6 (Some c'), p') ∧
           written (length w + 40) p' c' (w ++ ipv6_header 0 0 src dst).
Proof.
  intros H -> Hmax Hs Hd. unfold ip.BuilderV6_new, with_cursor, mbind at 1, M_bind at 1.
  unfold PacketCursor.write_u8, PacketCursor.write_u16, PacketCursor.write_u32.
  do 9 wstep_write H. eexists _, _. split.
  - unfold mret, M_ret. cbv beta iota. do 2 f_equal. f_equal; [f_equal|..]; len_solve.
  - apply (written_eq _ _ _ _ _ _ H); [by rewrite <-!app_assoc|len_solve].
Qed.

(** The Ethernet type, then the split. *)
Lemma eth_type_split p c w t :
  written 0 p c w → zlen w + 2 ≤ Packet.MAX_PACKET_LEN →
  ∃ p' c', with_cursor c (_ ← ignore (PacketCursor.write_u16 t);
                          PacketCursor.split_at_current) p =
             Ok ((mkSlice 0 (length w + 2), c'), p') ∧
           written (length w + 2) p' c' (w ++ be_bytes 2 t).
Proof.
  intros H Hmax. unfold with_cursor, PacketCursor.write_u16.
  destruct (pc_write _ _ _ _ (be_bytes 2 t) H) as (p1 & c1 & E & H1); [len_solve|].
  rewrite (M_bind_Ok _ _ _ _ _ (ignore_Ok _ _ _ _ E)).
  destruct (pc_split _ _ _ _ H1) as (c2 & -> & H2).
  eexists _, _. split; [|apply (written_eq _ _ _ _ _ _ H2); [done|len_solve]].
  do 2 f_equal. f_equal. f_equal. len_solve.
Qed.

(** The UDP header of a datagram whose addresses are already set. *)
Lemma udp_header_new o p c w sport dport :
  written o p c w → o = length w → zlen w + 8 ≤ Packet.MAX_PACKET_LEN →
  ∃ p' c', with_cursor c (
    _ ← PacketCursor.write_u16 sport;
    _ ← PacketCursor.write_u16 dport;
    '(len, _) ← PacketCursor.write_u16 0;
    '(crc, _) ← PacketCursor.write_u16 0;
    hdr ← PacketCursor.split_at_current;
    mret (hdr, (len, crc))) p =
      Ok (((mkSlice o 8, (4, 6)), c'), p') ∧
    written (length w + 8) p' c' (w ++ udp_header sport dport 0 0).
Proof.
  intros H -> Hmax. unfold with_cursor, PacketCursor.write_u16.
  do 5 wstep_write H. eexists _, _. split.
  - unfold mret, M_ret. cbv beta iota. do 2 f_equal. f_equal. f_equal; f_equal; len_solve.
  - apply (written_eq _ _ _ _ _ _ H); [by rewrite <-!app_assoc|len_solve].
Qed.
End headers.

(** * Whole frames *)
Definition eth_header (dst src : Mac) (t : Z) : list Z := (dst ++ src) ++ be_bytes 2 t.

Definition frame_v4 (src dst : Mac) (s d sport dport : Z) (data : list Z) : list Z :=
  let n := 8 + zlen data in
  let crc := le_bytes 2 (unot 16 (Packet.checksum (ipv4_header (20 + n) 0x11 [0; 0] s d))) in
  eth_header dst src ip.ETH_TYPE_IPV4 ++ ipv4_header (20 + n) 0x11 crc s d
  ++ udp_header sport dport n 0 ++ data.

Section frames.
Implicit Types (p : Packet) (c : Cursor) (w a b d : list Z) (o : nat).

Lemma hdr_written o p c w a b d src h idx :
  written o p c w → w = a ++ b ++ d → length b = length src →
  length a = (off h + Z.to_nat idx)%nat → 0 ≤ idx →
  idx + zlen src ≤ Z.of_nat (slen h) →
  ∃ p', write_hdr h idx src p = Ok (tt, p') ∧ written o p' c (a ++ src ++ d).
Proof.
  intros H Hw Hl Ha Hi Hin.
  destruct (hdr_write _ _ _ _ _ src h idx (written_holds _ _ _ _ H) Hw Hl Ha Hi Hin)
    as (p' & E & H').
  exists p'. split; [done|]. apply (holds_written _ _ _ _ H); [done|].
  subst w. rewrite !length_app. lia.
Qed.

Lemma payload_view o p c w d :
  written o p c (w ++ d) → o = length w → Cursor.get c (buffer p) = Ok d.
Proof.
  intros H ->. destruct (written_wf _ _ _ _ H) as [Hwf _].
  rewrite (get_take _ _ Hwf). destruct H as [_ Ht _ _ _ ->]. cbn [pos inner off].
  f_equal. rewrite <-(take_drop (length (w ++ d)) (buffer p)), Ht, <-app_assoc.
  rewrite drop_app_length. unfold zlen. rewrite length_app.
  replace (Z.to_nat _) with (length d) by lia. apply take_app_length.
Qed.

(** [ip::Builder::udp] over a header whose protocol field can be set. *)
Lemma udp_stage B B' o p p1 c w sport dport :
  ip.take_cursor B = (B', Some c) →
  ip.set_protocol B ip.Udp p = Ok (tt, p1) → written o p1 c w →
  (∃ p2, ip.set_protocol B' ip.Udp p1 = Ok (tt, p2) ∧ written o p2 c w) →
  o = length w → zlen w + 8 ≤ Packet.MAX_PACKET_LEN →
  ∃ p' c', udp.udp B sport dport p = Ok (udp.mkBuilder B' (mkSlice o 8) c' 4 6, p') ∧
           written (o + 8) p' c' (w ++ udp_header sport dport 0 0).
Proof.
  intros Hc Hset H (p2 & Hset2 & H2) Ho Hmax. unfold udp.udp, udp.Builder_new.
  rewrite (M_bind_Ok _ _ _ _ _ Hset), Hc. unfold mbind at 1, M_bind at 1, lift, unwrap.
  rewrite (M_bind_Ok _ _ _ _ _ Hset2).
  destruct (udp_header_new _ _ _ _ sport dport H2 Ho Hmax) as (p3 & c3 & E3 & H3).
  rewrite (M_bind_Ok _ _ _ _ _ E3). eexists _, _. split; [reflexivity|]. by subst o.
Qed.

Lemma set_protocol_v4_written o p c w B l prot crc s (e : Z) rest pr :
  written o p c (w ++ ipv4_header l prot crc s e ++ rest) →
  off (ip.v4_hdr B) = length w → slen (ip.v4_hdr B) = 20%nat →
  ip.v4_fill_prot B = 9 →
  ∃ p', ip.set_protocol (ip.BV4 B) pr p = Ok (tt, p') ∧
        written o p' c (w ++ ipv4_header l (ip.protocol_code pr) crc s e ++ rest).
Proof.
  intros H Ho Hs Hf. unfold ip.set_protocol, ip.set_protocol_v4. rewrite Hf.
  unfold ipv4_header in *.
  destruct (hdr_written _ _ _ _ (w ++ [0x45; 0] ++ be_bytes 2 l ++ be_bytes 4 0 ++ [64])
    [prot] (crc ++ be_bytes 4 s ++ be_bytes 4 e ++ rest) [ip.protocol_code pr] (ip.v4_hdr B) 9 H)
    as (p' & E & H'); [by rewrite <-!app_assoc|done|len_solve..|].
  exists p'. split; [done|]. apply (written_eq _ _ _ _ _ _ H'); [by rewrite <-!app_assoc|done].
Qed.

Lemma set_protocol_v6_written o p c w B l prot s e rest pr :
  written o p c (w ++ ipv6_header l prot s e ++ rest) →
  off (ip.v6_hdr B) = length w → slen (ip.v6_hdr B) = 40%nat →
  ip.v6_fill_prot B = 6 →
  ∃ p', ip.set_protocol (ip.BV6 B) pr p = Ok (tt, p') ∧
        written o p' c (w ++ ipv6_header l (ip.protocol_code pr) s e ++ rest).
Proof.
  intros H Ho Hs Hf. unfold ip.set_protocol, ip.set_protocol_v6. rewrite Hf.
  unfold ipv6_header in *.
  destruct (hdr_written _ _ _ _ (w ++ [0x60; 0; 0; 0] ++ be_bytes 2 l)
    [prot] ([64] ++ s ++ e ++ rest) [ip.protocol_code pr] (ip.v6_hdr B) 6 H)
    as (p' & E & H'); [by rewrite <-!app_assoc|done|len_solve..|].
  exists p'. split; [done|]. apply (written_eq _ _ _ _ _ _ H'); [by rewrite <-!app_assoc|done].
Qed.

(** The Ethernet and IP headers of a new packet, with the length, the protocol and the
    checksum still zero. *)
Lemma ip_builder_v4 p c src dst (s d : Z) :
  written 0 p c [] → length src = 6%nat → length dst = 6%nat →
  ∃ p1 c1 p' c', eth.Builder_new c src dst p = Ok (c1, p1) ∧
    ip.ip c1 (IpV4 s) (IpV4 d) p1 =
      Ok (ip.BV4 (ip.mkBuilderV4 (mkSlice 14 20) s d 2 9 10 (Some c')), p') ∧
    written 34 p' c' (eth_header dst src ip.ETH_TYPE_IPV4 ++ ipv4_header 0 0 [0; 0] s d).
Proof.
  intros H Hs Hd. destruct (eth_new _ _ _ _ H Hs Hd) as (p1 & c1 & E1 & H1).
  destruct (eth_type_split _ _ _ ip.ETH_TYPE_IPV4 H1) as (p2 & c2 & E2 & H2); [len_solve|].
  destruct (v4_new _ _ _ _ s d H2) as (p3 & c3 & E3 & H3); [len_solve..|].
  exists p1, c1, p3, c3. split; [done|]. split.
  - cbn [ip.ip]. unfold ip.ipv4, mbind at 1 2, M_bind at 1 2. rewrite E2. cbv beta iota. rewrite E3.
    assert (length (dst ++ src) + 2 = 14)%nat as -> by len_solve. done.
  - apply (written_eq _ _ _ _ _ _ H3); [done|len_solve].
Qed.
Lemma ip_builder_v6 p c src dst s d :
  written 0 p c [] → length src = 6%nat → length dst = 6%nat → length s = 16%nat → length d = 16%nat →
  ∃ p1 c1 p' c', eth.Builder_new c src dst p = Ok (c1, p1) ∧
    ip.ip c1 (IpV6 s) (IpV6 d) p1 =
      Ok (ip.BV6 (ip.mkBuilderV6 (mkSlice 14 40) s d 4 6 (Some c')), p') ∧
    written 54 p' c' (eth_header dst src ip.ETH_TYPE_IPV6 ++ ipv6_header 0 0 s d).
Proof.
  intros H Hs Hd Ls Ld. destruct (eth_new _ _ _ _ H Hs Hd) as (p1 & c1 & E1 & H1).
  destruct (eth_type_split _ _ _ ip.ETH_TYPE_IPV6 H1) as (p2 & c2 & E2 & H2); [len_solve|].
  destruct (v6_new _ _ _ _ s d H2) as (p3 & c3 & E3 & H3); [len_solve..|].
  exists p1, c1, p3, c3. split; [done|]. split.
  - cbn [ip.ip]. unfold ip.ipv6, mbind at 1 2, M_bind at 1 2. rewrite E2. cbv beta iota. rewrite E3.
    assert (length (dst ++ src) + 2 = 14)%nat as -> by len_solve. done.
  - apply (written_eq _ _ _ _ _ _ H3); [done|len_solve].
Qed.

(** [Packet::create_udp] on a cleared packet: the headers with the lengths and
    checksums still zero. *)
Lemma create_udp_v4 p src dst (s d sport dport : Z) :
  length (buffer p) = Packet.BUF_LEN → len p = 0 →
  length src = 6%nat → length dst = 6%nat →
  ∃ p' c', udp.create_udp (mkNetAddress src (IpV4 s) sport dst (IpV4 d) dport) p =
    Ok (udp.mkBuilder (ip.BV4 (ip.mkBuilderV4 (mkSlice 14 20) s d 2 9 10 None))
          (mkSlice 34 8) c' 4 6, p') ∧
    written 42 p' c' ((eth_header dst src ip.ETH_TYPE_IPV4 ++ ipv4_header 0 0x11 [0; 0] s d)
                       ++ udp_header sport dport 0 0).
Proof.
  intros Hb Hl Hs Hd. unfold udp.create_udp.
  destruct (pc_new p Hb Hl) as (c & E & H). unfold mbind at 1, M_bind at 1, get.
  rewrite E. unfold mbind at 1, M_bind at 1, lift. unfold unwrap_M, udp.from_packet.
  cbn [src_mac dst_mac src_ip dst_ip src_port dst_port].
  destruct (ip_builder_v4 _ _ src dst s d H) as (p1 & c1 & p3 & c3 & E1 & E3 & H3); [done..|].
  rewrite (M_bind_Ok _ _ _ _ _ E1), (M_bind_Ok _ _ _ _ _ E3).
  assert (length (eth_header dst src ip.ETH_TYPE_IPV4) = 14%nat) as He
    by (unfold eth_header; len_solve).
  set (B := ip.mkBuilderV4 (mkSlice 14 20) s d 2 9 10 _). rewrite <-(app_nil_r (_ ++ ipv4_header _ _ _ _ _)), <-app_assoc in H3.
  destruct (set_protocol_v4_written _ _ _ _ B _ _ _ _ _ _ ip.Udp H3) as (p4 & E4 & H4); [done..|].
  destruct (set_protocol_v4_written _ _ _ _ (ip.mkBuilderV4 (mkSlice 14 20) s d 2 9 10 None)
     _ _ _ _ _ _ ip.Udp H4) as (p5 & E5 & H5); [done..|].
  rewrite app_nil_r in H4, H5.
  destruct (udp_stage (ip.BV4 B) _ _ p3 p4 c3 _ sport dport eq_refl E4 H4) as (p6 & c6 & E6 & H6);
    [by exists p5|unfold ipv4_header; len_solve..|].
  rewrite E6. eexists _, _. split; [done|]. apply (written_eq _ _ _ _ _ _ H6); [done|lia].
Qed.

Lemma create_udp_v6 p src dst s d (sport dport : Z) :
  length (buffer p) = Packet.BUF_LEN → len p = 0 →
  length src = 6%nat → length dst = 6%nat → length s = 16%nat → length d = 16%nat →
  ∃ p' c', udp.create_udp (mkNetAddress src (IpV6 s) sport dst (IpV6 d) dport) p =
    Ok (udp.mkBuilder (ip.BV6 (ip.mkBuilderV6 (mkSlice 14 40) s d 4 6 None))
          (mkSlice 54 8) c' 4 6, p') ∧
    written 62 p' c' ((eth_header dst src ip.ETH_TYPE_IPV6 ++ ipv6_header 0 0x11 s d)
                       ++ udp_header sport dport 0 0).
Proof.
  intros Hb Hl Hs Hd Hs6 Hd6. unfold udp.create_udp.
  destruct (pc_new p Hb Hl) as (c & E & H). unfold mbind at 1, M_bind at 1, get.
  rewrite E. unfold mbind at 1, M_bind at 1, lift. unfold unwrap_M, udp.from_packet.
  cbn [src_mac dst_mac src_ip dst_ip src_port dst_port].
  destruct (ip_builder_v6 _ _ src dst s d H) as (p1 & c1 & p3 & c3 & E1 & E3 & H3); [done..|].
  rewrite (M_bind_Ok _ _ _ _ _ E1), (M_bind_Ok _ _ _ _ _ E3).
  assert (length (eth_header dst src ip.ETH_TYPE_IPV6) = 14%nat) as He
    by (unfold eth_header; len_solve).
  set (B := ip.mkBuilderV6 (mkSlice 14 40) s d 4 6 _). rewrite <-(app_nil_r (_ ++ ipv6_header _ _ _ _)), <-app_assoc in H3.
  destruct (set_protocol_v6_written _ _ _ _ B _ _ _ _ _ ip.Udp H3) as (p4 & E4 & H4); [done..|].
  destruct (set_protocol_v6_written _ _ _ _ (ip.mkBuilderV6 (mkSlice 14 40) s d 4 6 None)
     _ _ _ _ _ ip.Udp H4) as (p5 & E5 & H5); [done..|].
  rewrite app_nil_r in H4, H5.
  destruct (udp_stage (ip.BV6 B) _ _ p3 p4 c3 _ sport dport eq_refl E4 H4) as (p6 & c6 & E6 & H6);
    [by exists p5|unfold ipv6_header; len_solve..|].
  rewrite E6. eexists _, _. split; [done|]. apply (written_eq _ _ _ _ _ _ H6); [done|lia].
Qed.

Lemma payload_bytes_ok U o p c w data :
  written o p c (w ++ data) → o = length w → udp.b_payload U = c →
  udp.payload_bytes U p = Ok (data, p).
Proof.
  intros H Ho Hc. unfold udp.payload_bytes, PacketCursor.get, mbind, M_bind, get, lift.
  by rewrite Hc, (payload_view _ _ _ _ _ H Ho).
Qed.

(** [write_len]: the UDP length field. *)
Lemma write_len_ok U o p c w sport dport l data :
  written o p c ((w ++ udp_header sport dport l 0) ++ data) → o = length (w ++ udp_header sport dport l 0) →
  udp.b_hdr U = mkSlice (length w) 8 → udp.b_payload U = c → udp.fill_len U = 4 →
  ∃ p', udp.write_len U p = Ok (8 + zlen data, p') ∧
        written o p' c ((w ++ udp_header sport dport (8 + zlen data) 0) ++ data).
Proof.
  intros H Ho Hh Hc Hf. unfold udp.write_len.
  rewrite (M_bind_Ok _ _ _ _ _ (payload_bytes_ok _ _ _ _ _ _ H Ho Hc)), Hh, Hf. cbn [slen].
  assert (8 + zlen data < 2 ^ 16) as Hsz by (pose proof (w_max _ _ _ _ H); len_solve).
  unfold cast. rewrite Z.mod_small by (unfold zlen in *; lia).
  replace (Z.of_nat 8) with 8 by done. unfold udp_header in *.
  destruct (hdr_written _ _ _ _ (w ++ be_bytes 2 sport ++ be_bytes 2 dport)
    (be_bytes 2 l) (be_bytes 2 0 ++ data) (be_bytes 2 (8 + zlen data)) (mkSlice (length w) 8) 4 H)
    as (p' & E & H'); [by rewrite <-!app_assoc|by rewrite !length_be_bytes|
      cbn [off slen]; unfold zlen; rewrite ?length_app, ?length_be_bytes; lia..|].
  rewrite (M_bind_Ok _ _ _ _ _ E). exists p'. split; [done|].
  apply (written_eq _ _ _ _ _ _ H'); [by rewrite <-!app_assoc|done].
Qed.

Lemma finalize_v4_ok B o p c w prot (s e : Z) rest n :
  written o p c (w ++ ipv4_header 0 prot [0; 0] s e ++ rest) → 0 ≤ n → 20 + n < 2 ^ 16 →
  ip.v4_hdr B = mkSlice (length w) 20 → ip.v4_fill_len B = 2 → ip.v4_fill_crc B = 10 →
  ∃ p', ip.finalize_v4 B n p = Ok (tt, p') ∧
    written o p' c (w ++ ipv4_header (20 + n) prot
      (le_bytes 2 (unot 16 (Packet.checksum (ipv4_header (20 + n) prot [0; 0] s e)))) s e ++ rest).
Proof.
  intros H Hn Hsz Hh Hl Hcrc. unfold ip.finalize_v4, ip.write_crc_v4.
  assert (ip.write_len_v4 B n = write_hdr (mkSlice (length w) 20) 2 (be_bytes 2 (20 + n))) as ->.
  { unfold ip.write_len_v4. rewrite Hh, Hl. cbn [slen].
    replace (cast 16 (Z.of_nat 20)) with 20 by done.
    unfold checked_add. by rewrite (proj2 (Z.ltb_lt _ _) Hsz). }
  rewrite Hh, Hcrc.
  destruct (hdr_written _ _ _ _ (w ++ [0x45; 0]) (be_bytes 2 0)
    (be_bytes 4 0 ++ [64; prot] ++ [0; 0] ++ be_bytes 4 s ++ be_bytes 4 e ++ rest)
    (be_bytes 2 (20 + n)) (mkSlice (length w) 20) 2 H)
    as (p1 & E1 & H1); [by rewrite <-!app_assoc|by rewrite !length_be_bytes|
      cbn [off slen]; unfold zlen; rewrite ?length_app, ?length_be_bytes; cbn [length]; lia..|].
  rewrite (M_bind_Ok _ _ _ _ _ E1).
  apply (written_eq _ o _ _ _ (w ++ ipv4_header (20 + n) prot [0; 0] s e ++ rest)) in H1;
    [|by rewrite <-!app_assoc|done].
  assert (read_hdr (mkSlice (length w) 20) p1 = Ok (ipv4_header (20 + n) prot [0; 0] s e, p1))
    as Ev by exact (hdr_view _ _ _ _ _ (written_holds _ _ _ _ H1) eq_refl).
  rewrite (M_bind_Ok _ _ _ _ _ Ev).
  set (crc := le_bytes 2 _).
  destruct (hdr_written _ _ _ _ (w ++ [0x45; 0] ++ be_bytes 2 (20 + n) ++ be_bytes 4 0 ++ [64; prot])
    [0; 0] (be_bytes 4 s ++ be_bytes 4 e ++ rest) crc (mkSlice (length w) 20) 10 H1)
    as (p2 & E2 & H2); [by rewrite <-!app_assoc|done|
      cbn [off slen]; unfold zlen; rewrite ?length_app, ?length_be_bytes; cbn [length]; try lia..|].
  { unfold crc. rewrite length_le_bytes. lia. }
  exists p2. split; [done|]. apply (written_eq _ _ _ _ _ _ H2); [by rewrite <-!app_assoc|done].
Qed.

Lemma finalize_v6_ok B o p c w prot s e rest n :
  written o p c (w ++ ipv6_header 0 prot s e ++ rest) →
  ip.v6_hdr B = mkSlice (length w) 40 → ip.v6_fill_len B = 4 →
  ∃ p', ip.finalize_v6 B n p = Ok (tt, p') ∧
        written o p' c (w ++ ipv6_header n prot s e ++ rest).
Proof.
  intros H Hh Hl. unfold ip.finalize_v6, ip.write_len_v6, ipv6_header in *. rewrite Hh, Hl.
  destruct (hdr_written _ _ _ _ (w ++ [0x60; 0; 0; 0]) (be_bytes 2 0)
    ([prot; 64] ++ s ++ e ++ rest) (be_bytes 2 n) (mkSlice (length w) 40) 4 H)
    as (p1 & E1 & H1); [by rewrite <-!app_assoc|by rewrite !length_be_bytes|
      cbn [off slen]; unfold zlen; rewrite ?length_app, ?length_be_bytes; cbn [length]; lia..|].
  exists p1. split; [done|]. apply (written_eq _ _ _ _ _ _ H1); [by rewrite <-!app_assoc|done].
Qed.

(** ** IPv4 datagrams *)
Lemma udp_write_ok U o p c w data :
  written o p c w → zlen w + zlen data ≤ Packet.MAX_PACKET_LEN → udp.b_payload U = c →
  ∃ p' c' r, udp.write U data p =
    Ok ((udp.mkBuilder (udp.b_ip U) (udp.b_hdr U) c' (udp.fill_len U) (udp.fill_crc U), r), p') ∧
    written o p' c' (w ++ data).
Proof.
  intros H Hfit Hc. unfold udp.write. rewrite Hc.
  destruct (pc_write _ _ _ _ data H Hfit) as (p1 & c1 & E1 & H1).
  rewrite (M_bind_Ok _ _ _ _ _ (with_cursor_Ok _ _ _ _ _ _ E1)).
  eexists _, _, _. split; [reflexivity|done].
Qed.

(** The builder [create_udp] makes over IPv4, with its cursor at [c]. *)
Definition v4_builder (s d : Z) (c : Cursor) : udp.Builder :=
  udp.mkBuilder (ip.BV4 (ip.mkBuilderV4 (mkSlice 14 20) s d 2 9 10 None)) (mkSlice 34 8) c 4 6.

Lemma finalize_datagram_v4 p c src dst (s d sport dport : Z) data :
  length src = 6%nat → length dst = 6%nat →
  written 42 p c (((eth_header dst src ip.ETH_TYPE_IPV4 ++ ipv4_header 0 0x11 [0; 0] s d)
                    ++ udp_header sport dport 0 0) ++ data) →
  ∃ p', udp.finalize (v4_builder s d c) p = Ok (tt, p') ∧
        holds p' (frame_v4 src dst s d sport dport data).
Proof.
  intros Hs Hd H2.
  assert (length (eth_header dst src ip.ETH_TYPE_IPV4) = 14%nat) as He
    by (unfold eth_header; len_solve).
  assert (zlen data ≤ 1472) as Hn
    by (pose proof (w_max _ _ _ _ H2); unfold ipv4_header, udp_header in *; len_solve).
  set (U := v4_builder s d c). unfold udp.finalize.
  destruct (write_len_ok U _ _ _ _ _ _ _ _ H2) as (p3 & E3 & H3);
    [unfold ipv4_header, udp_header; len_solve|by rewrite length_app, He|done..|].
  rewrite (M_bind_Ok _ _ _ _ _ E3). cbn [udp.b_ip U v4_builder ip.finalize].
  rewrite <-!app_assoc in H3.
  destruct (finalize_v4_ok (ip.mkBuilderV4 (mkSlice 14 20) s d 2 9 10 None) _ _ _ _ _ _ _ _
    (8 + zlen data) H3) as (p4 & E4 & H4); [len_solve|len_solve|by rewrite He|done..|].
  rewrite (M_bind_Ok _ _ _ _ _ E4). exists p4. split; [done|]. apply (written_holds _ _ _ _ H4).
Qed.

Lemma datagram_v4 p src dst (s d sport dport : Z) data :
  length (buffer p) = Packet.BUF_LEN → len p = 0 →
  length src = 6%nat → length dst = 6%nat → zlen data ≤ 1472 →
  ∃ p', udp.datagram (mkNetAddress src (IpV4 s) sport dst (IpV4 d) dport) data p = Ok (tt, p') ∧
        holds p' (frame_v4 src dst s d sport dport data).
Proof.
  intros Hb Hl Hs Hd Hn. unfold udp.datagram.
  destruct (create_udp_v4 p src dst s d sport dport Hb Hl Hs Hd) as (p1 & c1 & E1 & H1).
  rewrite (M_bind_Ok _ _ _ _ _ E1).
  destruct (udp_write_ok (v4_builder s d c1) _ _ _ _ data H1) as (p2 & c2 & r & E2 & H2);
    [unfold eth_header, ipv4_header, udp_header; len_solve|done|].
  rewrite (M_bind_Ok _ _ _ _ _ E2). by apply finalize_datagram_v4.
Qed.

(** ** IPv6 datagrams *)

(** The receiver's check over pseudo header, UDP header and payload. *)
Definition udp_v6_valid (s e : list Z) (sport dport crc : Z) (data : list Z) : Prop :=
  Packet.checksum (udp.pseudo_header s e (8 + zlen data)
    ++ udp_header sport dport (8 + zlen data) crc ++ data) = 0xFFFF.

Lemma word_sum_u16 (x : Z) rest : u16 x → word_sum (be_bytes 2 x ++ rest) = x + word_sum rest.
Proof.
  intros [H1 H2]. rewrite word_sum_app by (rewrite length_be_bytes; by exists 1%nat).
  f_equal. change (be_bytes 2 x) with [x / 256 mod 256; x mod 256]. cbn [word_sum].
  Z.div_mod_to_equations. lia.
Qed.

Lemma word_sum_header_crc sport dport l crc rest :
  u16 crc → word_sum (udp_header sport dport l crc ++ rest) =
            word_sum (udp_header sport dport l 0) + crc + word_sum rest.
Proof.
  intros Hc. unfold udp_header.
  rewrite word_sum_app by (rewrite !length_app, !length_be_bytes; by exists 4%nat).
  rewrite !(word_sum_app (be_bytes 2 _)) by (rewrite length_be_bytes; by exists 1%nat).
  rewrite <-(app_nil_r (be_bytes 2 crc)), word_sum_u16 by done. cbn [word_sum].
  change (word_sum (be_bytes 2 0)) with 0. lia.
Qed.

(** The arithmetic of [write_crc]: the three partial checksums, folded twice and
    complemented, make the whole verify. *)
Lemma crc_verifies (sp sh sd : Z) :
  0 < sp < 2 ^ 30 → 0 ≤ sh < 2 ^ 30 → 0 ≤ sd < 2 ^ 30 →
  let acc := ones_norm sp + ones_norm sh + ones_norm sd in
  let f := ones_norm acc in
  let crc := if (65535 - f) =? 0 then 0xFFFF else 65535 - f in
  0 ≤ f < 2 ^ 16 ∧ 0 < crc < 2 ^ 16 ∧ ones_norm (sp + (sh + crc + sd)) = 0xFFFF.
Proof.
  intros Hp Hh Hd acc f crc.
  destruct (ones_norm_cong sp) as [qp Ep]; [lia|]. destruct (ones_norm_cong sh) as [qh Eh]; [lia|].
  destruct (ones_norm_cong sd) as [qd Ed]; [lia|].
  pose proof (ones_norm_range sp ltac:(lia)). pose proof (ones_norm_range sh ltac:(lia)).
  pose proof (ones_norm_range sd ltac:(lia)).
  assert (0 < ones_norm sp) by (unfold ones_norm; rewrite (proj2 (Z.eqb_neq _ _)) by lia;
    pose proof (Z.mod_pos_bound (sp - 1) 65535); lia).
  assert (0 < f) by (unfold f, ones_norm at 1; rewrite (proj2 (Z.eqb_neq _ _)) by lia;
    pose proof (Z.mod_pos_bound (acc - 1) 65535); lia).
  destruct (ones_norm_cong acc) as [qa Ea]; [lia|].
  pose proof (ones_norm_range acc ltac:(lia)) as Hf. fold f in Ea, Hf.
  assert (0 < crc ≤ 65535 ∧ ∃ q, f + crc = 65535 + 65535 * q) as [Hc [q Eq]].
  { unfold crc. destruct (Z.eqb_spec (65535 - f) 0); [split; [lia|]; exists 1; lia|].
    split; [lia|]. exists 0. lia. }
  split; [lia|]. split; [lia|].
  apply (ones_norm_unique _ _ (qp + qh + qd + qa + q)); lia.
Qed.

Lemma pseudo_header_ok s e n :
  bytes_ok s → bytes_ok e → length s = 16%nat → length e = 16%nat →
  bytes_ok (udp.pseudo_header s e n) ∧ length (udp.pseudo_header s e n) = 40%nat ∧
  0 < word_sum (udp.pseudo_header s e n).
Proof.
  intros Hs He Ls Le. unfold udp.pseudo_header. split; [|split].
  - rewrite !Forall_app. repeat split; [done..|apply be_bytes_ok|].
    by repeat constructor.
  - by rewrite !length_app, Ls, Le, length_be_bytes.
  - rewrite (word_sum_app s), (word_sum_app e), (word_sum_app (be_bytes 4 n))
      by (rewrite ?Ls, ?Le, ?length_be_bytes; first [by exists 8%nat|by exists 2%nat]).
    pose proof (word_sum_bound s Hs). pose proof (word_sum_bound e He).
    pose proof (word_sum_bound _ (be_bytes_ok 4 n)). cbn [word_sum]. unfold udp.IP_PROT_UDP. lia.
Qed.

(** The checksum field as [write_crc] computes it. *)
Definition crc_acc (s e : list Z) (sport dport : Z) (data : list Z) : Z :=
  Packet.checksum (udp.pseudo_header s e (8 + zlen data))
  + Packet.checksum (udp_header sport dport (8 + zlen data) 0) + Packet.checksum data.
Definition crc_fold (s e : list Z) (sport dport : Z) (data : list Z) : Z :=
  Packet.fold_carries (Packet.fold_carries (crc_acc s e sport dport data)).
Definition crc_field (s e : list Z) (sport dport : Z) (data : list Z) : Z :=
  let f := crc_fold s e sport dport data in if (65535 - f) =? 0 then 0xFFFF else 65535 - f.

Lemma checksum_value s e sport dport data :
  bytes_ok s → bytes_ok e → bytes_ok data → length s = 16%nat → length e = 16%nat →
  zlen data ≤ 1452 →
  0 ≤ crc_acc s e sport dport data < 2 ^ 20 ∧ 0 ≤ crc_fold s e sport dport data < 2 ^ 16 ∧
  0 < crc_field s e sport dport data < 2 ^ 16 ∧
  udp_v6_valid s e sport dport (crc_field s e sport dport data) data.
Proof.
  intros Hs He Hd Ls Le Hn. set (n := 8 + zlen data). set (acc := crc_acc s e sport dport data).
  set (f := crc_fold s e sport dport data). set (crc := crc_field s e sport dport data).
  destruct (pseudo_header_ok s e n Hs He Ls Le) as (Hp & Lp & Pp).
  assert (bytes_ok (udp_header sport dport n 0)) as Hh
    by (unfold udp_header; rewrite !Forall_app; repeat split; apply be_bytes_ok).
  assert (length (udp_header sport dport n 0) = 8%nat) as Lh by done.
  pose proof (word_sum_bound _ Hp). pose proof (word_sum_bound _ Hh).
  pose proof (word_sum_bound _ Hd). unfold zlen in H, H0, H1. rewrite Lp in H. rewrite Lh in H0.
  unfold zlen in Hn.
  assert (acc = ones_norm (word_sum (udp.pseudo_header s e n)) +
    ones_norm (word_sum (udp_header sport dport n 0)) + ones_norm (word_sum data)) as Hacc
    by (unfold acc, crc_acc; fold n; rewrite !checksum_spec by (try done; unfold zlen; lia); done).
  pose proof (ones_norm_range (word_sum (udp.pseudo_header s e n)) ltac:(lia)).
  pose proof (ones_norm_range (word_sum (udp_header sport dport n 0)) ltac:(lia)).
  pose proof (ones_norm_range (word_sum data) ltac:(lia)).
  destruct (crc_verifies (word_sum (udp.pseudo_header s e n))
    (word_sum (udp_header sport dport n 0)) (word_sum data)) as (Hf & Hc & Hv); [lia..|].
  rewrite <-Hacc in Hf, Hc, Hv.
  assert (f = ones_norm acc) as Ef by (unfold f, crc_fold; apply ones_norm_fold; lia).
  rewrite <-Ef in Hf, Hc, Hv. 
  assert (crc = if 65535 - f =? 0 then 0xFFFF else 65535 - f) as Ec by (unfold crc, crc_field, f; exact eq_refl).
  rewrite <-Ec in Hc, Hv.
  split; [lia|]. split; [done|]. split; [done|].
  unfold udp_v6_valid. change (8 + zlen data) with n.
  rewrite checksum_spec.
  - rewrite word_sum_app by (rewrite Lp; by exists 20%nat).
    rewrite word_sum_header_crc by (unfold fits; lia). done.
  - rewrite !Forall_app. repeat split; try done; unfold udp_header; rewrite ?Forall_app;
      repeat split; apply be_bytes_ok.
  - unfold zlen. rewrite !length_app, Lp. change (length (udp_header sport dport n crc)) with 8%nat. lia.
Qed.

(** A carry fold with the plain [+] does not overflow. *)
Lemma add_fold {E} (x : Z) :
  0 ≤ x < 2 ^ 32 → add (E:=E) 32 (Z.land x 0xFFFF) (Z.shiftr x 16) = Ok (Packet.fold_carries x).
Proof.
  intros Hx. unfold Packet.fold_carries, wrapping_add.
  change 0xFFFF with (Z.ones 16). rewrite Z.land_ones, Z.shiftr_div_pow2 by lia.
  pose proof (Z.mod_pos_bound x (2 ^ 16)).
  assert (x / 2 ^ 16 < 2 ^ 16) by (apply Z.div_lt_upper_bound; lia).
  assert (0 ≤ x / 2 ^ 16) by (apply Z.div_pos; lia).
  rewrite add_Ok by lia. by rewrite (Z.mod_small (_ + _)) by lia.
Qed.

Lemma crc_acc_wrapping s e sport dport data :
  udp.crc_sum s e (8 + zlen data) (udp_header sport dport (8 + zlen data) 0) data
  = crc_acc s e sport dport data.
Proof.
  assert (∀ l, 0 ≤ Packet.checksum l < 2 ^ 16) as Hb
    by (intros l; unfold Packet.checksum, cast; apply Z.mod_pos_bound; lia).
  pose proof (Hb (udp.pseudo_header s e (8 + zlen data))).
  pose proof (Hb (udp_header sport dport (8 + zlen data) 0)). pose proof (Hb data).
  unfold crc_acc, udp.crc_sum, wrapping_add. rewrite !Z.mod_small by (rewrite ?Z.mod_small; rewrite ?Z.mod_small; lia).
  lia.
Qed.

(** The two folds and the complement at the end of [write_crc]. *)
Lemma finish_crc_ok (acc : Z) :
  0 ≤ acc < 2 ^ 32 → 0 ≤ Packet.fold_carries (Packet.fold_carries acc) < 2 ^ 16 →
  udp.finish_crc acc =
  (let f := Packet.fold_carries (Packet.fold_carries acc) in
   Ok (if (65535 - f) =? 0 then 0xFFFF else 65535 - f)).
Proof.
  intros Ha Hf. unfold udp.finish_crc. rewrite add_fold by done. cbn [mbind res_bind].
  assert (0 ≤ Packet.fold_carries acc < 2 ^ 32) as H1
    by (unfold Packet.fold_carries, wrapping_add; apply Z.mod_pos_bound; lia).
  set (f1 := Packet.fold_carries acc) in *. clearbody f1.
  rewrite add_fold by done. cbn [mbind res_bind].
  set (f2 := Packet.fold_carries f1) in *. clearbody f2.
  unfold cast. by rewrite Z.mod_small.
Qed.

Lemma finish_crc_sum s e sport dport data :
  0 ≤ crc_acc s e sport dport data < 2 ^ 20 → 0 ≤ crc_fold s e sport dport data < 2 ^ 16 →
  udp.finish_crc (udp.crc_sum s e (8 + zlen data) (udp_header sport dport (8 + zlen data) 0) data)
  = Ok (crc_field s e sport dport data).
Proof.
  rewrite crc_acc_wrapping. unfold crc_field, crc_fold.
  generalize (crc_acc s e sport dport data). intros acc Ha Hf. apply finish_crc_ok; lia.
Qed.

Lemma write_crc_eq U B p s e sport dport data :
  udp.payload_bytes U p = Ok (data, p) → udp.b_hdr U = mkSlice (off (udp.b_hdr U)) 8 →
  read_hdr (udp.b_hdr U) p = Ok (udp_header sport dport (8 + zlen data) 0, p) →
  udp.b_ip U = ip.BV6 B → ip.v6_src B = s → ip.v6_dst B = e → zlen data ≤ 1452 →
  0 ≤ crc_acc s e sport dport data < 2 ^ 20 → 0 ≤ crc_fold s e sport dport data < 2 ^ 16 →
  udp.write_crc U p =
    write_hdr (udp.b_hdr U) (udp.fill_crc U) (be_bytes 2 (crc_field s e sport dport data)) p.
Proof.
  intros Hp Hh Hr HB Hs Hd Hn Ha Hf.
  assert (cast 32 (Z.of_nat (slen (udp.b_hdr U)) + zlen data) = 8 + zlen data) as Hl.
  { rewrite Hh. cbn [slen]. unfold cast, zlen in *. rewrite Z.mod_small; lia. }
  pose proof (finish_crc_sum s e sport dport data Ha Hf) as Ef.
  rewrite <-Hl in Ef at 1. rewrite <-Hs, <-Hd in Ef at 1.
  set (h := udp_header sport dport (8 + zlen data) 0) in *. clearbody h.
  set (crc := crc_field s e sport dport data) in *. clearbody crc.
  unfold udp.write_crc. rewrite HB. unfold mbind, M_bind. rewrite Hp, Hr. unfold lift. by rewrite Ef.
Qed.

Lemma write_crc_v6_ok U B o p c w s e sport dport data :
  written o p c ((w ++ udp_header sport dport (8 + zlen data) 0) ++ data) →
  o = (length w + 8)%nat → udp.b_hdr U = mkSlice (length w) 8 → udp.b_payload U = c →
  udp.fill_crc U = 6 → udp.b_ip U = ip.BV6 B → ip.v6_src B = s → ip.v6_dst B = e →
  bytes_ok s → bytes_ok e → bytes_ok data → length s = 16%nat → length e = 16%nat →
  zlen data ≤ 1452 →
  ∃ crc p', udp.write_crc U p = Ok (tt, p') ∧ 0 < crc < 2 ^ 16 ∧
    udp_v6_valid s e sport dport crc data ∧
    written o p' c ((w ++ udp_header sport dport (8 + zlen data) crc) ++ data).
Proof.
  intros H Ho Hh Hc Hf HB Hs Hd Os Oe Od Ls Le Hn.
  destruct (checksum_value s e sport dport data Os Oe Od Ls Le Hn) as (Ha & Hff & Hcrc & Hv).
  assert (o = length (w ++ udp_header sport dport (8 + zlen data) 0)) as Ho'
    by (rewrite length_app; done).
  pose proof (written_holds _ _ _ _ H) as Hholds. rewrite <-app_assoc in Hholds.
  rewrite (write_crc_eq U B p s e sport dport data); try done.
  - rewrite Hh, Hf. set (crc := crc_field s e sport dport data) in *. clearbody crc.
    unfold udp_header in H.
    destruct (hdr_written _ _ _ _ (w ++ be_bytes 2 sport ++ be_bytes 2 dport ++ be_bytes 2 (8 + zlen data))
      (be_bytes 2 0) data (be_bytes 2 crc) (mkSlice (length w) 8) 6 H)
      as (p' & E & H'); [by rewrite <-!app_assoc|by rewrite !length_be_bytes|
        cbn [off slen]; unfold zlen; rewrite ?length_app, ?length_be_bytes; lia..|].
    exists crc, p'. split; [done|]. split; [done|]. split; [done|].
    apply (written_eq _ _ _ _ _ _ H'); [unfold udp_header; by rewrite <-!app_assoc|done].
  - exact (payload_bytes_ok _ _ _ _ _ _ H Ho' Hc).
  - by rewrite Hh.
  - rewrite Hh. exact (hdr_view _ _ _ _ _ Hholds eq_refl).
Qed.

Definition frame_v6 (src dst : Mac) (s e : list Z) (sport dport crc : Z) (data : list Z) : list Z :=
  let n := 8 + zlen data in
  eth_header dst src ip.ETH_TYPE_IPV6 ++ ipv6_header n 0x11 s e
  ++ udp_header sport dport n crc ++ data.

Lemma datagram_v6 p src dst s e (sport dport : Z) data :
  length (buffer p) = Packet.BUF_LEN → len p = 0 →
  length src = 6%nat → length dst = 6%nat → length s = 16%nat → length e = 16%nat →
  bytes_ok s → bytes_ok e → bytes_ok data → zlen data ≤ 1452 →
  ∃ p' crc, udp.datagram (mkNetAddress src (IpV6 s) sport dst (IpV6 e) dport) data p = Ok (tt, p') ∧
    0 < crc < 2 ^ 16 ∧ udp_v6_valid s e sport dport crc data ∧
    holds p' (frame_v6 src dst s e sport dport crc data).
Proof.
  intros Hb Hl Hs Hd Ls Le Os Oe Od Hn. unfold udp.datagram.
  destruct (create_udp_v6 p src dst s e sport dport) as (p1 & c1 & E1 & H1); [done..|].
  rewrite (M_bind_Ok _ _ _ _ _ E1).
  assert (length (eth_header dst src ip.ETH_TYPE_IPV6) = 14%nat) as He
    by (unfold eth_header; len_solve).
  assert (∀ l pr, length (ipv6_header l pr s e) = 40%nat) as H6
    by (intros; unfold ipv6_header; len_solve).
  set (B := ip.mkBuilderV6 (mkSlice 14 40) s e 4 6 None) in *.
  destruct (udp_write_ok (udp.mkBuilder (ip.BV6 B) (mkSlice 54 8) c1 4 6) _ _ _ _ data H1)
    as (p2 & c2 & r & E2 & H2); [unfold ipv6_header, udp_header; len_solve|done|].
  rewrite (M_bind_Ok _ _ _ _ _ E2). cbv beta iota. cbn [udp.b_ip udp.b_hdr udp.fill_len udp.fill_crc].
  set (U := udp.mkBuilder _ _ _ _ _). unfold udp.finalize.
  destruct (write_len_ok U _ _ _ _ _ _ _ _ H2) as (p3 & E3 & H3);
    [unfold ipv6_header, udp_header; len_solve|by rewrite length_app, He, H6|done..|].
  rewrite (M_bind_Ok _ _ _ _ _ E3). cbn [udp.b_ip U ip.finalize].
  rewrite <-!app_assoc in H3.
  destruct (finalize_v6_ok B _ _ _ _ _ _ _ _ (8 + zlen data) H3) as (p4 & E4 & H4);
    [by rewrite He|done|].
  rewrite (M_bind_Ok _ _ _ _ _ E4). rewrite !app_assoc in H4.
  destruct (write_crc_v6_ok U B _ _ _ _ s e _ _ _ H4) as (crc & p5 & E5 & Hc & Hv & H5);
    [by rewrite length_app, He, H6|by rewrite length_app, He, H6|done..|].
  exists p5, crc. split; [done|]. split; [done|]. split; [done|].
  apply written_holds in H5. by rewrite <-!app_assoc in H5.
Qed.
End frames.
