(* ===== verification/NetParse.v ===== *)
(** Received packets: what the parsers of the protocol layers return lies inside the
    packet, and a datagram the builders wrote parses
    back to what was sent. *)
From Stdlib Require Import ZArith Lia.
From stdpp Require Import prelude list numbers.
From S2P Require Import Prelude Cursor Packet Net NetBuild.

(** A packet as the driver hands it over: at most the buffer's length is in use. *)
Record wf_packet (p : Packet) : Prop := {
  wf_buf : length (buffer p) = Packet.BUF_LEN;
  wf_bytes : bytes_ok (buffer p);
  wf_len : 0 ≤ len p ≤ 4096;
}.

(** [r] is a contiguous part of [l]. *)
Definition part {A} (r l : list A) : Prop := ∃ x y, l = x ++ r ++ y.

Section parts.
Context {A : Type}.
Implicit Types (l r : list A).

Lemma part_trans r l m : part r l → part l m → part r m.
Proof. intros (x & y & ->) (u & v & ->). exists (u ++ x), (y ++ v). by rewrite <-!app_assoc. Qed.
Lemma part_range l r a b : get_range l a b = Some r → part r l.
Proof. intros (x & y & ? & _)%get_range_Some. by exists x, y. Qed.
Lemma part_zlen r l : part r l → zlen r ≤ zlen l.
Proof. intros (x & y & ->). unfold zlen. rewrite !length_app. lia. Qed.
Lemma part_Forall (P : A → Prop) r l : part r l → Forall P l → Forall P r.
Proof. intros (x & y & ->) H. apply Forall_app in H as [_ H]. by apply Forall_app in H as [H _]. Qed.
End parts.

Section safe_parsers.
Implicit Types (p : Packet) (l : list Z).

Lemma safe_parse_mac o :
  safe (λ r, length r = 6%nat ∧ o = Some r) (Packet.parse_mac o).
Proof.
  destruct o as [l|]; [|done]. unfold Packet.parse_mac; cbn [ok_or mbind res_bind].
  destruct (Nat.eqb_spec (length l) 6); simpl; eauto.
Qed.

Lemma safe_parse_u16 o :
  safe (λ v, ∃ l, o = Some l ∧ length l = 2%nat ∧ v = be_val l) (Packet.parse_u16 o).
Proof.
  destruct o as [l|]; [|done]. unfold Packet.parse_u16; cbn [ok_or mbind res_bind].
  destruct (Nat.eqb_spec (length l) 2); simpl; eauto.
Qed.

Lemma safe_parse_u32 o :
  safe (λ v, ∃ l, o = Some l ∧ length l = 4%nat ∧ v = be_val l) (Packet.parse_u32 o).
Proof.
  destruct o as [l|]; [|done]. unfold Packet.parse_u32; cbn [ok_or mbind res_bind].
  destruct (Nat.eqb_spec (length l) 4); simpl; eauto.
Qed.

Lemma be_val_u16 l : bytes_ok l → length l = 2%nat → u16 (be_val l).
Proof. intros H Hl. pose proof (be_val_bound l H) as Hb. unfold zlen in Hb. by rewrite Hl in Hb. Qed.
Lemma be_val_u32 l : bytes_ok l → length l = 4%nat → u32 (be_val l).
Proof. intros H Hl. pose proof (be_val_bound l H) as Hb. unfold zlen in Hb. by rewrite Hl in Hb. Qed.

(** The packet's bytes. *)
Lemma safe_raw {E} p :
  wf_packet p →
  safe (E:=E) (λ r, r = take (Z.to_nat (len p)) (buffer p) ∧ zlen r = len p ∧ bytes_ok r)
    (Packet.raw p).
Proof.
  intros [Hb Hok Hl]. unfold Packet.raw, slice, get_range, zlen. rewrite Hb.
  change (Z.of_nat Packet.BUF_LEN) with 4096. rewrite !(proj2 (Z.leb_le _ _)) by lia. simpl.
  rewrite Z.sub_0_r, drop_0, length_take, Hb. unfold Packet.BUF_LEN. split; [done|].
  split; [lia|]. by apply Forall_take.
Qed.

Lemma safe_parse_eth p :
  wf_packet p →
  safe (λ e, length (eth.dst_mac e) = 6%nat ∧ length (eth.src_mac e) = 6%nat ∧
             u16 (eth.eth_type e) ∧ bytes_ok (eth.payload e) ∧
             zlen (eth.payload e) = len p - 14 ∧
             part (eth.payload e) (take (Z.to_nat (len p)) (buffer p))) (eth.parse_eth p).
Proof.
  intros Hwf. unfold eth.parse_eth.
  eapply safe_bind; [by apply safe_raw|]. intros raw (Hraw & Hlen & Hok).
  eapply safe_bind; [apply safe_parse_mac|]. intros dst [Hdst _].
  eapply safe_bind; [apply safe_parse_mac|]. intros src [Hsrc _].
  eapply safe_bind; [apply safe_parse_u16|]. intros t (lt & Hlt & Hl2 & ->).
  eapply safe_bind; [apply safe_ok_or; intros pl Hpl; exact Hpl|]. intros pl Hpl.
  simpl. apply part_range in Hlt. pose proof Hpl as Hpl'. unfold get_from in Hpl, Hpl'.
  apply part_range in Hpl. apply get_range_Some in Hpl' as (x & y & E & Hx & Hz).
  split; [done|]. split; [done|].
  split; [apply be_val_u16; [by eapply part_Forall|done]|].
  split; [by eapply part_Forall|]. split; [lia|]. by rewrite <-Hraw.
Qed.

Lemma safe_slice_part {E} l a b :
  0 ≤ a → a ≤ b → b ≤ zlen l → safe (E:=E) (λ r, zlen r = b - a ∧ part r l) (slice l a b).
Proof.
  intros. eapply safe_weaken; [by apply safe_slice|].
  intros r (? & x & y & ? & _). split; [done|]. by exists x, y.
Qed.

(** A field of known bounds. *)
Lemma safe_u16_at l a b :
  bytes_ok l → 0 ≤ a → b = a + 2 → b ≤ zlen l →
  safe (E:=ParseError) u16 (w ← slice l a b; Packet.parse_u16 (Some w)).
Proof.
  intros Hok Ha -> Hb. eapply safe_bind; [apply safe_slice_part; lia|]. intros w [Hw Hp].
  eapply safe_weaken; [apply safe_parse_u16|]. intros v (l' & [= <-] & Hl & ->).
  apply be_val_u16; [by eapply part_Forall|done].
Qed.
Lemma safe_u32_at l a b :
  bytes_ok l → 0 ≤ a → b = a + 4 → b ≤ zlen l →
  safe (E:=ParseError) u32 (w ← slice l a b; Packet.parse_u32 (Some w)).
Proof.
  intros Hok Ha -> Hb. eapply safe_bind; [apply safe_slice_part; lia|]. intros w [Hw Hp].
  eapply safe_weaken; [apply safe_parse_u32|]. intros v (l' & [= <-] & Hl & ->).
  apply be_val_u32; [by eapply part_Forall|done].
Qed.

Lemma bind_assoc {E A B C} (m : res E A) (f : A → res E B) (g : B → res E C) :
  (a ← m; f a ≫= g) = ((a ← m; f a) ≫= g).
Proof. by destruct m. Qed.

Lemma safe_header {E} l n (e : E) :
  bytes_ok l → safe (λ h, zlen h = n ∧ bytes_ok h ∧ n ≤ zlen l) (ok_or (get_range l 0 n) e).
Proof.
  intros Hok. apply safe_ok_or. intros h Hh. pose proof (part_range _ _ _ _ Hh) as Hp.
  pose proof (part_zlen _ _ Hp). destruct (get_range_Some _ _ _ _ Hh) as (x & y & _ & _ & ?).
  split; [lia|]. split; [by eapply part_Forall|lia].
Qed.

Lemma safe_parse_ipv4 p :
  wf_packet p →
  safe (λ i, u32 (ip.v4_src_ip i) ∧ u32 (ip.v4_dst_ip i) ∧ bytes_ok (ip.v4_payload i) ∧
             part (ip.v4_payload i) (take (Z.to_nat (len p)) (buffer p)) ∧
             zlen (ip.v4_payload i) ≤ len p - 34) (ip.parse_ipv4 p).
Proof.
  intros Hwf. unfold ip.parse_ipv4.
  eapply safe_bind; [by apply safe_parse_eth|]. intros e (_ & _ & _ & Hok & Hlen & Hpart).
  apply safe_if; [done|intros _].
  eapply safe_bind; [by apply safe_header|]. intros h (Hh & Hhok & Hle).
  assert (length h = 20%nat) as Hh' by (unfold zlen in Hh; lia).
  eapply safe_bind; [apply safe_index; lia|]. intros b0 _.
  apply safe_if; [done|intros _]. apply safe_if; [done|intros _].
  rewrite bind_assoc. eapply safe_bind; [apply safe_u16_at; (done || lia)|]. intros tl [Ht1 Ht2].
  eapply safe_bind; [apply safe_index; lia|]. intros b6 _.
  apply safe_if; [done|intros _].
  rewrite bind_assoc. eapply safe_bind; [apply safe_u16_at; (done || lia)|]. intros fo _.
  apply safe_if; [done|intros _].
  eapply safe_bind; [apply safe_index; lia|]. intros prot _.
  rewrite bind_assoc. eapply safe_bind; [apply safe_u32_at; (done || lia)|]. intros s Hs.
  rewrite bind_assoc. eapply safe_bind; [apply safe_u32_at; (done || lia)|]. intros d Hd.
  apply safe_if; [done|]. intros [H1%Z.ltb_ge H2%Z.ltb_ge]%orb_false_iff.
  eapply safe_bind; [apply safe_slice_part; lia|]. intros pl [Hpl Hpp]. simpl.
  split; [done|]. split; [done|]. split; [by eapply part_Forall|].
  split; [by eapply part_trans|]. lia.
Qed.

Lemma safe_parse_ipv6 p :
  wf_packet p →
  safe (λ i, length (ip.v6_src_ip i) = 16%nat ∧ length (ip.v6_dst_ip i) = 16%nat ∧
             bytes_ok (ip.v6_payload i) ∧
             part (ip.v6_payload i) (take (Z.to_nat (len p)) (buffer p)) ∧
             zlen (ip.v6_payload i) ≤ len p - 54) (ip.parse_ipv6 p).
Proof.
  intros Hwf. unfold ip.parse_ipv6.
  eapply safe_bind; [by apply safe_parse_eth|]. intros e (_ & _ & _ & Hok & Hlen & Hpart).
  apply safe_if; [done|intros _].
  eapply safe_bind; [by apply safe_header|]. intros h (Hh & Hhok & Hle).
  assert (length h = 40%nat) as Hh' by (unfold zlen in Hh; lia).
  eapply safe_bind; [apply safe_index; lia|]. intros b0 _.
  apply safe_if; [done|intros _].
  rewrite bind_assoc. eapply safe_bind; [apply safe_u16_at; (done || lia)|]. intros tl [Ht1 Ht2].
  eapply safe_bind; [apply safe_index; lia|]. intros nh _.
  eapply safe_bind; [apply safe_slice_part; lia|]. intros s [Hs _].
  assert (length s = 16%nat) as Ls by (unfold zlen in Hs; lia). rewrite Ls.
  cbn [assert Nat.eqb]. eapply (safe_bind (λ _, True)); [done|]. intros _ _.
  eapply safe_bind; [apply safe_slice_part; lia|]. intros d [Hd _].
  assert (length d = 16%nat) as Ld by (unfold zlen in Hd; lia). rewrite Ld.
  cbn [assert Nat.eqb]. eapply (safe_bind (λ _, True)); [done|]. intros _ _.
  rewrite add_Ok by (rewrite Hh; lia). eapply (safe_bind (λ t, t = tl + zlen h)); [done|]. intros t ->.
  apply safe_if; [done|]. intros H1%Z.ltb_ge.
  eapply safe_bind; [apply safe_slice_part; lia|]. intros pl [Hpl Hpp]. simpl.
  split; [done|]. split; [done|]. split; [by eapply part_Forall|].
  split; [by eapply part_trans|]. lia.
Qed.

Lemma safe_or_else {E A} (Q : A → Prop) (r : res E A) f :
  safe Q r → (∀ e, safe Q (f e)) → safe Q (or_else r f).
Proof. destruct r; simpl; auto. Qed.
Lemma safe_rmap {E A B} (Q : B → Prop) (f : A → B) (r : res E A) :
  safe (λ a, Q (f a)) r → safe Q (rmap f r).
Proof. by destruct r. Qed.
End safe_parsers.

(** What holds of every datagram [parse_udp] accepts. *)
Definition udp_in_packet (p : Packet) (u : udp.Parsed) : Prop :=
  u16 (udp.src_port u) ∧ u16 (udp.dst_port u) ∧ bytes_ok (udp.payload u) ∧
  part (udp.payload u) (take (Z.to_nat (len p)) (buffer p)) ∧
  zlen (udp.payload u) ≤ len p - 42.

Lemma safe_parse_udp p : wf_packet p → safe (udp_in_packet p) (udp.parse_udp p).
Proof.
  intros Hwf. unfold udp.parse_udp.
  eapply (safe_bind (λ i, bytes_ok (ip.payload i) ∧ zlen (ip.payload i) ≤ len p - 34 ∧
     part (ip.payload i) (take (Z.to_nat (len p)) (buffer p)))).
  { apply safe_or_else; [|intros _]; apply safe_rmap;
      (eapply safe_weaken; [by apply safe_parse_ipv4 || by apply safe_parse_ipv6|]);
      simpl; intros; intuition lia. }
  intros i (Hok & Hlen & Hpart). apply safe_if; [done|intros _].
  eapply safe_bind; [by apply safe_header|]. intros h (Hh & Hhok & Hle).
  assert (∀ a b, safe u16 (Packet.parse_u16 (get_range h a b))) as Hfield.
  { intros a b. eapply safe_weaken; [apply safe_parse_u16|]. intros v (l & Hl & H2 & ->).
    apply be_val_u16; [eapply part_Forall; [by eapply part_range|done]|done]. }
  eapply safe_bind; [apply Hfield|]. intros sp Hsp.
  eapply safe_bind; [apply Hfield|]. intros dp Hdp.
  eapply safe_bind; [apply Hfield|]. intros n [Hn1 Hn2].
  apply safe_if; [done|]. intros [H1%Z.ltb_ge H2%Z.ltb_ge]%orb_false_iff.
  eapply safe_bind; [apply safe_slice_part; lia|]. intros pl [Hpl Hpp]. simpl.
  split; [done|]. split; [done|]. split; [by eapply part_Forall|].
  split; [by eapply part_trans|]. simpl. lia.
Qed.

Lemma safe_parse_arp p :
  wf_packet p →
  safe (λ a, 42 ≤ len p ∧ length (arp.sender_mac a) = 6%nat ∧ length (arp.target_mac a) = 6%nat ∧
             u32 (arp.sender_ip a) ∧ u32 (arp.target_ip a) ∧ u16 (arp.opcode a)) (arp.parse_arp p).
Proof.
  intros Hwf. unfold arp.parse_arp.
  eapply safe_bind; [by apply safe_parse_eth|]. intros e (_ & _ & _ & Hok & Hlen & Hpart).
  apply safe_if; [done|intros _]. apply safe_if; [done|intros Hmin%Z.ltb_ge].
  set (pl := eth.payload e) in *.
  assert (∀ a b er, 0 ≤ a → a ≤ b → b ≤ 28 →
    safe (λ r, zlen r = b - a ∧ bytes_ok r) (arp.field pl a b er)) as Hfield.
  { intros. unfold arp.field. eapply safe_bind; [apply safe_slice_part; lia|].
    intros r [Hr Hp]. apply safe_if; [|done]. intros _. split; [done|]. by eapply part_Forall. }
  assert (length pl ≥ 28)%nat by (unfold zlen in *; lia).
  eapply safe_bind; [apply Hfield; lia|]. intros f1 _.
  eapply safe_bind; [apply Hfield; lia|]. intros f2 _.
  eapply safe_bind; [apply safe_index; lia|]. intros f3 _.
  eapply safe_bind; [apply safe_index; lia|]. intros f4 _.
  eapply safe_bind; [apply Hfield; lia|]. intros op [Lop Oop].
  eapply safe_bind; [apply Hfield; lia|]. intros sm [Lsm Osm].
  eapply safe_bind; [apply Hfield; lia|]. intros si [Lsi Osi].
  eapply safe_bind; [apply Hfield; lia|]. intros tm [Ltm Otm].
  eapply safe_bind; [apply Hfield; lia|]. intros ti [Lti Oti]. simpl.
  unfold zlen in *. split; [lia|]. split; [lia|]. split; [lia|].
  split; [apply be_val_u32; (done || lia)|]. split; [apply be_val_u32; (done || lia)|].
  apply be_val_u16; (done || lia).
Qed.

(** * Round trip *)
Section roundtrip.
Implicit Types (p : Packet) (l x r y : list Z).

Lemma slice_app {E} l x r y a b :
  l = x ++ r ++ y → zlen x = a → zlen r = b - a → slice (E:=E) l a b = Ok r.
Proof. intros -> Ha Hb. unfold slice. by rewrite (get_range_app x r y). Qed.

Lemma parse_u16_be (v : Z) : u16 v → Packet.parse_u16 (Some (be_bytes 2 v)) = Ok v.
Proof.
  intros H. unfold Packet.parse_u16. cbn [ok_or mbind res_bind]. rewrite length_be_bytes.
  simpl Nat.eqb. cbv iota. by rewrite be_val_bytes.
Qed.
Lemma parse_u32_be (v : Z) : u32 v → Packet.parse_u32 (Some (be_bytes 4 v)) = Ok v.
Proof.
  intros H. unfold Packet.parse_u32. cbn [ok_or mbind res_bind]. rewrite length_be_bytes.
  simpl Nat.eqb. cbv iota. by rewrite be_val_bytes.
Qed.

Lemma get_range_eq l x r y a b :
  l = x ++ r ++ y → zlen x = a → zlen r = b - a → get_range l a b = Some r.
Proof. intros -> Ha Hb. by apply get_range_app. Qed.

Lemma parse_mac_ok l : length l = 6%nat → Packet.parse_mac (Some l) = Ok l.
Proof. intros H. unfold Packet.parse_mac. simpl. by rewrite H. Qed.

Lemma get_from_app l x y a : l = x ++ y → zlen x = a → get_from l a = Some y.
Proof.
  intros -> <-. unfold get_from. apply (get_range_eq _ x y []); [by rewrite app_nil_r|done|].
  unfold zlen. rewrite length_app. lia.
Qed.
End roundtrip.

(** [range_at a b x r y]: bytes [a..b] of the list at hand, [x ++ r ++ y], are [r]. *)
Ltac lens := unfold zlen, ipv4_header, ipv6_header, udp_header in *; rewrite ?length_app, ?length_be_bytes, ?length_le_bytes; cbn [length]; lia.
Ltac range_at a b x r y :=
  match goal with
  | |- context [get_range ?l a b] =>
      rewrite (get_range_eq l x r y a b); [|by rewrite <-?app_assoc|lens|lens]
  | |- context [@slice ?E _ ?l a b] =>
      rewrite (slice_app (E:=E) l x r y a b); [|by rewrite <-?app_assoc|lens|lens]
  end; cbn [mbind res_bind ok_or].

Section frames.
Implicit Types (p : Packet).

Lemma parse_eth_frame p dst src (t : Z) body :
  holds p (eth_header dst src t ++ body) →
  length dst = 6%nat → length src = 6%nat → u16 t →
  eth.parse_eth p = Ok (eth.mkParsed dst src t body).
Proof.
  intros H Hd Hs Ht. unfold eth.parse_eth. rewrite (holds_raw _ _ H). cbn [mbind res_bind].
  unfold eth_header.
  range_at 0 6 (@nil Z) dst (src ++ be_bytes 2 t ++ body). rewrite parse_mac_ok by done. cbn [mbind res_bind].
  range_at 6 12 dst src (be_bytes 2 t ++ body). rewrite parse_mac_ok by done. cbn [mbind res_bind].
  range_at 12 14 (dst ++ src) (be_bytes 2 t) body. rewrite parse_u16_be by done. cbn [mbind res_bind].
  rewrite (get_from_app _ ((dst ++ src) ++ be_bytes 2 t) body) by (done || lens). done.
Qed.

Lemma parse_ipv4_frame p dst src (n prot s d : Z) crc pl :
  holds p (eth_header dst src ip.ETH_TYPE_IPV4 ++ ipv4_header (20 + n) prot crc s d ++ pl) →
  length dst = 6%nat → length src = 6%nat → length crc = 2%nat → u32 s → u32 d →
  0 ≤ n → 20 + n < 2 ^ 16 → zlen pl = n →
  ip.parse_ipv4 p = Ok (ip.mkParsedV4
    (eth.mkParsed dst src ip.ETH_TYPE_IPV4 (ipv4_header (20 + n) prot crc s d ++ pl)) s d prot pl).
Proof.
  intros H Hd Hs Hc Us Ud Hn Hn2 Hpl. unfold ip.parse_ipv4.
  rewrite (parse_eth_frame p dst src _ _ H) by (done || (unfold fits; vm_compute; done)).
  cbn [mbind res_bind eth.eth_type eth.payload]. rewrite Z.eqb_refl. cbn [negb].
  range_at 0 20 (@nil Z) (ipv4_header (20 + n) prot crc s d) pl.
  set (h := ipv4_header _ _ _ _ _).
  assert (h = [0x45; 0] ++ be_bytes 2 (20 + n) ++ be_bytes 4 0 ++ [64; prot] ++ crc
    ++ be_bytes 4 s ++ be_bytes 4 d) as Eh by done.
  assert (zlen h = 20) as Hh by (rewrite Eh; lens).
  assert (h !! 0%nat = Some 0x45 ∧ h !! 6%nat = Some 0 ∧ h !! 9%nat = Some prot) as (E0 & E6 & E9) by done.
  rewrite !(index_lookup _ _ _ E0), !(index_lookup _ _ _ E6), !(index_lookup _ _ _ E9). cbn [mbind res_bind].
  change (negb (Z.shiftr 69 4 =? 4)) with false. change (negb (Z.land 69 15 =? 5)) with false. cbv iota.
  range_at 2 4 [0x45; 0] (be_bytes 2 (20 + n))
    (be_bytes 4 0 ++ [64; prot] ++ crc ++ be_bytes 4 s ++ be_bytes 4 d).
  rewrite parse_u16_be by (unfold fits; lia). cbn [mbind res_bind].
  change (negb (Z.land (Z.land (Z.shiftr 0 5) 7) 5 =? 0)) with false. cbv iota.
  range_at 6 8 ([0x45; 0] ++ be_bytes 2 (20 + n) ++ [0; 0]) (be_bytes 2 0)
    ([64; prot] ++ crc ++ be_bytes 4 s ++ be_bytes 4 d).
  rewrite parse_u16_be by done. cbn [mbind res_bind]. change (negb (Z.land 0 0x1FFF =? 0)) with false.
  cbv iota.
  range_at 12 16 ([0x45; 0] ++ be_bytes 2 (20 + n) ++ be_bytes 4 0 ++ [64; prot] ++ crc)
    (be_bytes 4 s) (be_bytes 4 d).
  rewrite parse_u32_be by done. cbn [mbind res_bind].
  range_at 16 20 ([0x45; 0] ++ be_bytes 2 (20 + n) ++ be_bytes 4 0 ++ [64; prot] ++ crc ++ be_bytes 4 s)
    (be_bytes 4 d) (@nil Z).
  rewrite parse_u32_be by done. cbn [mbind res_bind].
  rewrite Hh. replace (zlen (h ++ pl)) with (20 + n) by (unfold zlen in *; rewrite length_app; lia).
  rewrite Z.ltb_irrefl, (proj2 (Z.ltb_ge (20 + n) 20)) by lia. cbn [orb].
  rewrite (slice_app _ h pl []); [done|by rewrite app_nil_r|done|lia].
Qed.

Lemma parse_ipv6_frame p dst src (n prot : Z) s d pl :
  holds p (eth_header dst src ip.ETH_TYPE_IPV6 ++ ipv6_header n prot s d ++ pl) →
  length dst = 6%nat → length src = 6%nat → length s = 16%nat → length d = 16%nat →
  0 ≤ n < 2 ^ 16 → zlen pl = n →
  ip.parse_ipv6 p = Ok (ip.mkParsedV6
    (eth.mkParsed dst src ip.ETH_TYPE_IPV6 (ipv6_header n prot s d ++ pl)) s d prot pl).
Proof.
  intros H Hd Hs Ls Ld Hn Hpl. unfold ip.parse_ipv6.
  rewrite (parse_eth_frame p dst src _ _ H) by (done || (unfold fits; vm_compute; done)).
  cbn [mbind res_bind eth.eth_type eth.payload]. rewrite Z.eqb_refl. cbn [negb].
  range_at 0 40 (@nil Z) (ipv6_header n prot s d) pl.
  set (h := ipv6_header _ _ _ _).
  assert (zlen h = 40) as Hh by (unfold h; lens).
  assert (h !! 0%nat = Some 0x60 ∧ h !! 6%nat = Some prot) as (E0 & E6) by done.
  rewrite !(index_lookup _ _ _ E0), !(index_lookup _ _ _ E6). cbn [mbind res_bind].
  change (negb (Z.shiftr 0x60 4 =? 6)) with false. cbv iota.
  range_at 4 6 [0x60; 0; 0; 0] (be_bytes 2 n) ([prot; 64] ++ s ++ d).
  rewrite parse_u16_be by done. cbn [mbind res_bind].
  range_at 8 24 ([0x60; 0; 0; 0] ++ be_bytes 2 n ++ [prot; 64]) s d.
  rewrite Ls. cbn [Nat.eqb assert mbind res_bind].
  rewrite (slice_app h ([0x60; 0; 0; 0] ++ be_bytes 2 n ++ [prot; 64] ++ s) d []);
    [|rewrite app_nil_r; unfold h, ipv6_header; by rewrite <-!app_assoc|lens..].
  rewrite Hh, add_Ok by lia. cbn [mbind res_bind]. rewrite Ld. cbn [Nat.eqb assert mbind res_bind].
  replace (zlen (h ++ pl)) with (n + 40) by (unfold zlen in *; rewrite length_app; lia).
  rewrite Z.ltb_irrefl.
  rewrite (slice_app _ h pl []); [done|by rewrite app_nil_r|done|lia].
Qed.

(** The UDP part, once the IP layer gave the payload. *)
Lemma parse_udp_body p (i : ip.Parsed) (sport dport crc : Z) data :
  or_else (rmap ip.V4 (ip.parse_ipv4 p)) (λ _, rmap ip.V6 (ip.parse_ipv6 p)) = Ok i →
  ip.protocol i = udp.IP_PROT_UDP →
  ip.payload i = udp_header sport dport (8 + zlen data) crc ++ data →
  u16 sport → u16 dport → 8 + zlen data < 2 ^ 16 →
  udp.parse_udp p = Ok (udp.mkParsed i sport dport data).
Proof.
  intros Hip Hprot Hpl Us Ud Hn. unfold udp.parse_udp. rewrite Hip. cbn [mbind res_bind].
  rewrite Hprot, Hpl, Z.eqb_refl. cbn [negb].
  assert (0 ≤ zlen data) by (unfold zlen; lia).
  set (n := 8 + zlen data) in *.
  range_at 0 8 (@nil Z) (udp_header sport dport n crc) data.
  set (h := udp_header _ _ _ _).
  assert (zlen h = 8) as Hh by done.
  range_at 0 2 (@nil Z) (be_bytes 2 sport) (be_bytes 2 dport ++ be_bytes 2 n ++ be_bytes 2 crc).
  rewrite parse_u16_be by done. cbn [mbind res_bind].
  range_at 2 4 (be_bytes 2 sport) (be_bytes 2 dport) (be_bytes 2 n ++ be_bytes 2 crc).
  rewrite parse_u16_be by done. cbn [mbind res_bind].
  range_at 4 6 (be_bytes 2 sport ++ be_bytes 2 dport) (be_bytes 2 n) (be_bytes 2 crc).
  rewrite parse_u16_be by (unfold fits; lia). cbn [mbind res_bind].
  replace (zlen (h ++ data)) with n by (unfold n, zlen in *; rewrite length_app; lia).
  rewrite Hh, Z.ltb_irrefl, (proj2 (Z.ltb_ge n 8)) by lia. cbn [orb].
  rewrite (slice_app _ h data []); [done|by rewrite app_nil_r|done|unfold n; lia].
Qed.
End frames.

(** A parsed datagram is the one that was sent. *)
Definition is_datagram (addr : NetAddress) (data : list Z) (u : udp.Parsed) : Prop :=
  udp.payload u = data ∧ udp.src_port u = src_port addr ∧ udp.dst_port u = dst_port addr ∧
  ip.src_ip (udp.ip u) = src_ip addr ∧ ip.dst_ip (udp.ip u) = dst_ip addr ∧
  eth.src_mac (ip.parsed_eth (udp.ip u)) = src_mac addr ∧
  eth.dst_mac (ip.parsed_eth (udp.ip u)) = dst_mac addr.

(** A [NetAddress] with its fields at their widths; both addresses of one family. *)
Definition wf_address (a : NetAddress) : Prop :=
  length (src_mac a) = 6%nat ∧ length (dst_mac a) = 6%nat ∧
  u16 (src_port a) ∧ u16 (dst_port a) ∧
  match src_ip a, dst_ip a with
  | IpV4 s, IpV4 d => u32 s ∧ u32 d
  | IpV6 s, IpV6 d => length s = 16%nat ∧ length d = 16%nat ∧ bytes_ok s ∧ bytes_ok d
  | _, _ => False
  end.

(** The payload that still fits into an Ethernet frame. *)
Definition max_payload (a : NetAddress) : Z :=
  match src_ip a with IpV4 _ => 1472 | IpV6 _ => 1452 end.

(** C11. A UDP datagram written with [create_udp], [write] and the builder's
    finalization into a cleared packet is parsed by [parse_udp] to the same
    payload, ports, IP and MAC addresses, over IPv4 and over IPv6, for every
    payload that fits into an Ethernet frame. *)
Theorem udp_roundtrip p addr data :
  length (buffer p) = Packet.BUF_LEN → len p = 0 →
  wf_address addr → bytes_ok data → zlen data ≤ max_payload addr →
  ∃ p' u, udp.datagram addr data p = Ok (tt, p') ∧ len p' ≤ Packet.MAX_PACKET_LEN ∧
          udp.parse_udp p' = Ok u ∧ is_datagram addr data u.
Proof.
  intros Hb Hl. destruct addr as [sm si sp dm di dp]. unfold wf_address, max_payload.
  cbn [src_mac dst_mac src_ip dst_ip src_port dst_port]. intros (Hs & Hd & Us & Ud & Hip) Hok Hn.
  assert (0 ≤ zlen data) by (unfold zlen; lia).
  destruct si as [s|s], di as [d|d]; [|done..|].
  - destruct Hip as [U1 U2].
    destruct (datagram_v4 p sm dm s d sp dp data) as (p' & E & Hp'); [done..|].
    pose proof (h_len _ _ Hp') as Hlen. pose proof (h_max _ _ Hp') as Hm.
    eexists p', _. split; [done|]. split; [by rewrite Hlen|]. split.
    { unfold frame_v4 in Hp'.
      pose proof (parse_ipv4_frame p' dm sm (8 + zlen data) _ s d _ _ Hp') as Ep.
      eapply parse_udp_body; [rewrite Ep by (done || lia || lens); reflexivity|done..|lia]. }
    by repeat split.
  - destruct Hip as (L1 & L2 & B1 & B2).
    destruct (datagram_v6 p sm dm s d sp dp data) as (p' & crc & E & Hc & Hv & Hp'); [done..|].
    pose proof (h_len _ _ Hp') as Hlen. pose proof (h_max _ _ Hp') as Hm.
    eexists p', _. split; [done|]. split; [by rewrite Hlen|]. split.
    { unfold frame_v6 in Hp'.
      assert (ip.parse_ipv4 p' = Err UnsupportedVersion) as E4
        by (unfold ip.parse_ipv4; by rewrite (parse_eth_frame p' dm sm _ _ Hp')).
      pose proof (parse_ipv6_frame p' dm sm (8 + zlen data) _ s d _ Hp') as Ep.
      eapply parse_udp_body; [rewrite E4, Ep by (done || lia || lens); reflexivity|done..|lia]. }
    by repeat split.
Qed.

(** The checksum of a UDP datagram built over IPv6 is never the reserved
    value zero, and a receiver's sum over pseudo header, UDP header and payload
    comes out as all ones. *)
Theorem udp_v6_checksum_verifies p sm dm s d sp dp data :
  length (buffer p) = Packet.BUF_LEN → len p = 0 →
  wf_address (mkNetAddress sm (IpV6 s) sp dm (IpV6 d) dp) → bytes_ok data → zlen data ≤ 1452 →
  ∃ p' crc, udp.datagram (mkNetAddress sm (IpV6 s) sp dm (IpV6 d) dp) data p = Ok (tt, p') ∧
    Packet.raw (E:=unit) p' = Ok (frame_v6 sm dm s d sp dp crc data) ∧
    0 < crc < 2 ^ 16 ∧
    Packet.checksum (udp.pseudo_header s d (8 + zlen data)
      ++ udp_header sp dp (8 + zlen data) crc ++ data) = 0xFFFF.
Proof.
  intros Hb Hl (Hs & Hd & Us & Ud & L1 & L2 & B1 & B2) Hok Hn.
  destruct (datagram_v6 p sm dm s d sp dp data) as (p' & crc & E & Hc & Hv & Hp'); [done..|].
  exists p', crc. split; [done|]. split; [by apply holds_raw|]. done.
Qed.

(** * ARP frames as they are built *)
Section arp_frames.
Implicit Types (p : Packet).

Definition arp_body (op : arp.Opcode) (s_mac : Mac) (s_ip : Z) (t_mac : Mac) (t_ip : Z) : list Z :=
  be_bytes 2 arp.ETH_TYPE_ARP ++ [6; 4] ++ be_bytes 2 (arp.opcode_code op)
  ++ s_mac ++ be_bytes 4 s_ip ++ t_mac ++ be_bytes 4 t_ip.

Lemma build_arp_bytes p op s_mac s_ip t_mac t_ip :
  length (buffer p) = Packet.BUF_LEN → len p = 0 →
  length s_mac = 6%nat → length t_mac = 6%nat →
  ∃ p', arp.build_arp_packet op s_mac s_ip t_mac t_ip p = Ok (tt, p') ∧
        holds p' (eth_header BROADCAST s_mac arp.HW_TYPE_ETH ++ arp_body op s_mac s_ip t_mac t_ip).
Proof.
  intros Hb Hl Hs Ht. unfold arp.build_arp_packet.
  destruct (pc_new p Hb Hl) as (c & E & H). unfold mbind at 1, M_bind at 1, get.
  rewrite E. unfold mbind at 1, M_bind at 1, lift.
  destruct (eth_new _ _ s_mac BROADCAST H) as (p1 & c1 & E1 & H1); [done..|].
  rewrite (M_bind_Ok _ _ _ _ _ E1). unfold with_cursor, mbind at 1, M_bind at 1.
  unfold PacketCursor.write_u8, PacketCursor.write_u16. clear E E1 H.
  assert (length BROADCAST = 6%nat) by done.
  do 9 wstep_write H1. eexists. split; [reflexivity|].
  apply written_holds in H1. unfold arp_body, eth_header.
  rewrite <-!app_assoc in H1. rewrite <-!app_assoc. exact H1.
Qed.

(** The frame [build_arp_packet] writes carries the ARP hardware type in the
    place of the Ethernet type, so [parse_arp] refuses every request and reply
    the kernel builds. *)
Theorem built_arp_is_refused p op s_mac s_ip t_mac t_ip :
  length (buffer p) = Packet.BUF_LEN → len p = 0 →
  length s_mac = 6%nat → length t_mac = 6%nat →
  ∃ p' e, arp.build_arp_packet op s_mac s_ip t_mac t_ip p = Ok (tt, p') ∧
        eth.parse_eth p' = Ok e ∧ eth.eth_type e = arp.HW_TYPE_ETH ∧
        arp.parse_arp p' = Err InvalidLength.
Proof.
  intros Hb Hl Hs Ht.
  destruct (build_arp_bytes p op s_mac s_ip t_mac t_ip) as (p' & E & H); [done..|].
  pose proof (parse_eth_frame p' _ _ _ _ H) as Ep. specialize (Ep eq_refl Hs).
  eexists p', _. split; [done|]. split; [by apply Ep|]. split; [done|].
  unfold arp.parse_arp. by rewrite Ep.
Qed.
End arp_frames.

(** * Witnesses *)
Definition sample_v4 : NetAddress :=
  mkNetAddress [2;0;0;0;0;1] (IpV4 0x0A000001) 5000 BROADCAST (IpV4 0x0A0000FF) 67.
Definition sample_v6 : NetAddress :=
  mkNetAddress [2;0;0;0;0;1] (IpV6 (replicate 16 1)) 5000 BROADCAST (IpV6 (replicate 16 2)) 67.

Lemma sample_v6_wf : wf_address sample_v6.
Proof.
  split; [done|]. split; [done|]. split; [done|]. split; [done|].
  split; [done|]. split; [done|]. by split; apply Forall_replicate.
Qed.

Lemma udp_roundtrip_witness :
  ∃ p' u, udp.datagram sample_v6 [1; 2; 3] (Packet.new 0) = Ok (tt, p') ∧
          len p' ≤ Packet.MAX_PACKET_LEN ∧
          udp.parse_udp p' = Ok u ∧ is_datagram sample_v6 [1; 2; 3] u.
Proof.
  apply udp_roundtrip; [done|done|apply sample_v6_wf|by repeat constructor|done].
Defined.

Lemma udp_v6_checksum_verifies_witness :
  ∃ p' crc, udp.datagram sample_v6 [1; 2; 3] (Packet.new 0) = Ok (tt, p') ∧
    Packet.raw (E:=unit) p' = Ok (frame_v6 [2;0;0;0;0;1] BROADCAST (replicate 16 1)
       (replicate 16 2) 5000 67 crc [1; 2; 3]) ∧
    0 < crc < 2 ^ 16 ∧
    Packet.checksum (udp.pseudo_header (replicate 16 1) (replicate 16 2) (8 + 3)
      ++ udp_header 5000 67 (8 + 3) crc ++ [1; 2; 3]) = 0xFFFF.
Proof.
  apply (udp_v6_checksum_verifies (Packet.new 0) [2;0;0;0;0;1] BROADCAST (replicate 16 1)
    (replicate 16 2) 5000 67 [1; 2; 3]);
    [done|done|apply sample_v6_wf|by repeat constructor|done].
Defined.

Lemma built_arp_is_refused_witness :
  ∃ p' e, arp.build_arp_packet arp.Request [2;0;0;0;0;1] 0x0A000001 ZERO 0x0A000002 (Packet.new 0)
            = Ok (tt, p') ∧
        eth.parse_eth p' = Ok e ∧ eth.eth_type e = arp.HW_TYPE_ETH ∧
        arp.parse_arp p' = Err InvalidLength.
Proof. apply built_arp_is_refused; done. Defined.

(** * Behaviour at the edges *)

(** The IPv4 header checksum is stored in host byte order: the header the
    builder writes does not verify. *)
Example ipv4_header_checksum_swapped :
  match udp.datagram sample_v4 [1; 2; 3] (Packet.new 0) with
  | Ok (_, p) => match eth.parse_eth p with
                 | Ok e => Packet.checksum (take 20 (eth.payload e)) ≠ 0xFFFF
                 | _ => False
                 end
  | _ => False
  end.
Proof. vm_compute. done. Qed.
