(* ===== verification/NetFormat.v ===== *)
(** The packet formats as the standards have them, read off the bytes of a frame at fixed
    offsets, and the parsers of kernel/src/net/protocols against them: each parser accepts
    exactly the frames of its format and returns exactly their fields. *)
From Stdlib Require Import ZArith Lia.
From stdpp Require Import prelude list numbers.
From S2P Require Import Prelude Cursor Packet Net NetBuild NetParse.

(** [n] bytes from offset [o] on, and the number they are in network order *)
Definition bytes_at (r : list Z) (o n : Z) : list Z := take (Z.to_nat n) (drop (Z.to_nat o) r).
Definition word (r : list Z) (o n : Z) : Z := be_val (bytes_at r o n).
(** The bytes of a packet *)
Definition frame (p : Packet) : list Z := take (Z.to_nat (len p)) (buffer p).

(** ** The formats *)
(** An Ethernet frame: destination, source, type; the rest is the payload. *)
Definition eth_fields (r : list Z) : eth.Parsed :=
  eth.mkParsed (bytes_at r 0 6) (bytes_at r 6 6) (word r 12 2) (bytes_at r 14 (zlen r - 14)).
Definition eth_format (r : list Z) : option eth.Parsed := if 14 <=? zlen r then Some (eth_fields r) else None.

(** IPv4 (RFC 791): version 4 and a header of 5 words (byte 14), the total length at 16, no
    fragment (at 20: no more fragments, offset 0; "don't fragment" may be set), the protocol at
    23, the addresses at 26 and 30.  Any type of service, identification, time to live and
    checksum; what lies behind the total length is padding. *)
Definition is_ipv4 (r : list Z) : bool :=
  (34 <=? zlen r) && (word r 12 2 =? 0x0800) && (word r 14 1 =? 0x45) &&
  ((word r 20 2 =? 0) || (word r 20 2 =? 0x4000)) && (20 <=? word r 16 2) && (14 + word r 16 2 <=? zlen r).
Definition ipv4_fields (r : list Z) : ip.ParsedV4 :=
  ip.mkParsedV4 (eth_fields r) (word r 26 4) (word r 30 4) (word r 23 1) (bytes_at r 34 (word r 16 2 - 20)).
Definition ipv4_format (r : list Z) : option ip.ParsedV4 := if is_ipv4 r then Some (ipv4_fields r) else None.

(** IPv6 (RFC 8200): version 6, the payload's length at 18, the next header at 20, the
    addresses at 22 and 38 *)
Definition is_ipv6 (r : list Z) : bool :=
  (54 <=? zlen r) && (word r 12 2 =? 0x86DD) && (word r 14 1 / 16 =? 6) && (54 + word r 18 2 <=? zlen r).
Definition ipv6_fields (r : list Z) : ip.ParsedV6 :=
  ip.mkParsedV6 (eth_fields r) (bytes_at r 22 16) (bytes_at r 38 16) (word r 20 1) (bytes_at r 54 (word r 18 2)).
Definition ipv6_format (r : list Z) : option ip.ParsedV6 := if is_ipv6 r then Some (ipv6_fields r) else None.

Definition ip_format (r : list Z) : option ip.Parsed :=
  if is_ipv4 r then Some (ip.V4 (ipv4_fields r))
  else if is_ipv6 r then Some (ip.V6 (ipv6_fields r)) else None.

(** UDP (RFC 768), protocol 17: ports at 0 and 2, at 4 the length with the 8 bytes of the header *)
Definition udp_format (r : list Z) : option udp.Parsed :=
  i ← ip_format r;
  let q := ip.payload i in
  if (ip.protocol i =? 17) && (8 <=? zlen q) && (8 <=? word q 4 2) && (word q 4 2 <=? zlen q)
  then Some (udp.mkParsed i (word q 0 2) (word q 2 2) (bytes_at q 8 (word q 4 2 - 8))) else None.

(** ARP (RFC 826) for Ethernet and IPv4 *)
Definition arp_format (r : list Z) : option arp.Parsed :=
  if (42 <=? zlen r) && (word r 12 2 =? 0x0806)
  then Some (arp.mkParsed (eth_fields r) (word r 14 2) (word r 16 2) (word r 18 1) (word r 19 1) (word r 20 2)
    (bytes_at r 22 6) (word r 28 4) (bytes_at r 32 6) (word r 38 4)) else None.

(** A parser gives the fields of the format, and an error for anything else. *)
Definition agrees {A} (m : res ParseError A) (o : option A) : Prop :=
  match o with Some a => m = Ok a | None => ∃ e, m = Err e end.

(** ** Bytes at offsets *)
Section bytes.
Implicit Types (r l : list Z) (o n a b : Z).

Lemma zlen_at r o n : 0 ≤ o → 0 ≤ n → o + n ≤ zlen r → zlen (bytes_at r o n) = n.
Proof. unfold zlen, bytes_at. rewrite length_take, length_drop. lia. Qed.
Lemma length_at r o n : 0 ≤ o → 0 ≤ n → o + n ≤ zlen r → length (bytes_at r o n) = Z.to_nat n.
Proof. intros. pose proof (zlen_at r o n). unfold zlen in *. lia. Qed.
Lemma at_at r o n o' n' : 0 ≤ o → 0 ≤ o' → 0 ≤ n' → o' + n' ≤ n → bytes_at (bytes_at r o n) o' n' = bytes_at r (o + o') n'.
Proof.
  intros. unfold bytes_at. rewrite skipn_firstn_comm, firstn_firstn, drop_drop. f_equal; [lia|]. f_equal. lia.
Qed.
Lemma format_word_at r o n o' n' : 0 ≤ o → 0 ≤ o' → 0 ≤ n' → o' + n' ≤ n → word (bytes_at r o n) o' n' = word r (o + o') n'.
Proof. intros. unfold word. by rewrite at_at. Qed.
Lemma range_in l a b : 0 ≤ a → a ≤ b → b ≤ zlen l → get_range l a b = Some (bytes_at l a (b - a)).
Proof. intros. unfold get_range. by rewrite !(proj2 (Z.leb_le _ _)) by lia. Qed.
Lemma range_out l a b : zlen l < b → get_range l a b = None.
Proof. intros. unfold get_range. rewrite (proj2 (Z.leb_gt b (zlen l))) by lia. by rewrite andb_false_r. Qed.
Lemma index_in {E} l (k : nat) : Z.of_nat k < zlen l → index (E := E) l k = Ok (word l (Z.of_nat k) 1).
Proof.
  intros Hk. unfold index, word, bytes_at. destruct (lookup_lt_is_Some_2 l k) as [b Hb]; [unfold zlen in Hk; lia|].
  rewrite Hb, Nat2Z.id. cbn [unwrap]. rewrite (drop_S l b k Hb). cbn [Z.to_nat take]. unfold be_val. simpl. f_equal. lia.
Qed.
Lemma format_slice_in {E} l a b : 0 ≤ a → a ≤ b → b ≤ zlen l → slice (E := E) l a b = Ok (bytes_at l a (b - a)).
Proof. intros. unfold slice. by rewrite range_in. Qed.
Lemma u16_in l a : 0 ≤ a → a + 2 ≤ zlen l → Packet.parse_u16 (Some (bytes_at l a 2)) = Ok (word l a 2).
Proof. intros. unfold Packet.parse_u16. cbn [ok_or mbind res_bind]. by rewrite length_at by lia. Qed.
Lemma u32_in l a : 0 ≤ a → a + 4 ≤ zlen l → Packet.parse_u32 (Some (bytes_at l a 4)) = Ok (word l a 4).
Proof. intros. unfold Packet.parse_u32. cbn [ok_or mbind res_bind]. by rewrite length_at by lia. Qed.
Lemma word_bound l o n : bytes_ok l → 0 ≤ n → 0 ≤ word l o n < 2 ^ (8 * n).
Proof.
  intros Hl Hn. assert (bytes_ok (bytes_at l o n)) as Hb by (by apply Forall_take, Forall_drop).
  pose proof (be_val_bound _ Hb) as [H0 H1]. split; [done|]. eapply Z.lt_le_trans; [exact H1|].
  apply Z.pow_le_mono_r; [lia|]. unfold zlen, bytes_at. rewrite length_take, length_drop. lia.
Qed.
End bytes.

(** ** The parsers *)
Section parsers.
Implicit Types (p : Packet) (r : list Z).

Lemma raw_frame {E} p : wf_packet p → Packet.raw (E := E) p = Ok (frame p) ∧ bytes_ok (frame p) ∧ zlen (frame p) = len p.
Proof.
  intros Hwf. pose proof (safe_raw (E := E) p Hwf) as Hs. destruct (Packet.raw p) as [r| | |] eqn:E1; try done.
  - destruct Hs as (-> & Hl & Hok). done.
  - exfalso. unfold Packet.raw, slice in E1. by destruct (get_range _ _ _).
Qed.

Lemma parse_eth_format p : wf_packet p → agrees (eth.parse_eth p) (eth_format (frame p)).
Proof.
  intros Hwf. destruct (raw_frame (E := ParseError) p Hwf) as (Er & Hok & _). set (r := frame p) in *. clearbody r.
  unfold eth.parse_eth, eth_format, Packet.parse_mac. rewrite Er. cbn [mbind res_bind].
  destruct (Z.leb_spec 14 (zlen r)) as [H14|H14].
  - cbn [agrees]. rewrite !range_in by lia. cbn [ok_or mbind res_bind]. rewrite !length_at by lia. cbn [Nat.eqb].
    change (0xE - 0xC) with 2. rewrite u16_in by lia. cbn [mbind res_bind]. unfold get_from. by rewrite range_in by lia.
  - cbn [agrees]. destruct (Z.lt_ge_cases (zlen r) 6); [rewrite (range_out r 0 6) by lia; by eexists|].
    rewrite (range_in r 0 6) by lia. cbn [ok_or mbind res_bind]. rewrite length_at by lia. cbn [Nat.eqb].
    destruct (Z.lt_ge_cases (zlen r) 12); [rewrite (range_out r 6 12) by lia; by eexists|].
    rewrite (range_in r 6 12) by lia. cbn [ok_or mbind res_bind]. rewrite length_at by lia. cbn [Nat.eqb mbind res_bind].
    rewrite (range_out r 12 14) by lia. by eexists.
Qed.

(** A parser behind the Ethernet header *)
Lemma after_eth {A} p (f : eth.Parsed → res ParseError A) (o : option A) :
  wf_packet p → (14 ≤ zlen (frame p) → agrees (f (eth_fields (frame p))) o) → (zlen (frame p) < 14 → o = None) →
  agrees (e ← eth.parse_eth p; f e) o.
Proof.
  intros Hwf Hin Hout. pose proof (parse_eth_format p Hwf) as He. unfold eth_format in He.
  destruct (Z.leb_spec 14 (zlen (frame p))) as [H14|H14]; cbn [agrees] in He.
  - rewrite He. cbn [mbind res_bind]. by apply Hin.
  - rewrite Hout by done. destruct He as [e ->]. by exists e.
Qed.
Lemma agrees_err {A} (b : bool) e (m : res ParseError A) (o : option A) :
  (b = true → o = None) → (b = false → agrees m o) → agrees (if b then Err e else m) o.
Proof. destruct b; intros H1 H2; [rewrite H1 by done; by exists e|by apply H2]. Qed.

Lemma version_bits w : 0 ≤ w < 2 ^ (8 * 1) → (Z.shiftr w 4 =? 4) && (Z.land w 15 =? 5) = (w =? 0x45).
Proof.
  intros Hw. change 15 with (2 ^ 4 - 1). rewrite land_mask, Z.shiftr_div_pow2 by lia.
  apply eq_true_iff_eq. rewrite andb_true_iff, !Z.eqb_eq. Z.div_mod_to_equations. lia.
Qed.
Lemma word_two r o : 0 ≤ o → o + 2 ≤ zlen r → word r o 2 = 256 * word r o 1 + word r (o + 1) 1.
Proof.
  intros H0 Hl. unfold word, bytes_at. replace (Z.to_nat (o + 1)) with (S (Z.to_nat o)) by lia.
  destruct (lookup_lt_is_Some_2 r (Z.to_nat o)) as [a Ha]; [unfold zlen in Hl; lia|].
  destruct (lookup_lt_is_Some_2 r (S (Z.to_nat o))) as [b Hb]; [unfold zlen in Hl; lia|].
  rewrite (drop_S r a _ Ha), (drop_S r b _ Hb). change (Z.to_nat 2) with 2%nat. change (Z.to_nat 1) with 1%nat.
  cbn [take]. rewrite !take_0. change (be_val [a; b]) with (b + 256 * (a + 256 * 0)). change (be_val [a]) with (a + 256 * 0).
  change (be_val [b]) with (b + 256 * 0). lia.
Qed.
(** The two tests on the fragmentation word leave "don't fragment" alone. *)
Lemma fragment_bits r : bytes_ok r → 22 ≤ zlen r →
  (Z.land (Z.land (Z.shiftr (word r 20 1) 5) 7) 5 =? 0) && (Z.land (word r 20 2) 8191 =? 0) =
  (word r 20 2 =? 0) || (word r 20 2 =? 0x4000).
Proof.
  intros Hok Hl. rewrite word_two by lia. pose proof (word_bound r 20 1 Hok ltac:(lia)) as Ha.
  pose proof (word_bound r (20 + 1) 1 Hok ltac:(lia)) as Hb. set (a := word r 20 1) in *. set (b := word r (20 + 1) 1) in *. clearbody a b.
  change (2 ^ (8 * 1)) with 256 in *. change 7 with (2 ^ 3 - 1). change 8191 with (2 ^ 13 - 1). rewrite !land_mask by lia.
  rewrite Z.shiftr_div_pow2 by lia. assert (a / 2 ^ 5 mod 2 ^ 3 = a / 32) as -> by (Z.div_mod_to_equations; lia).
  assert (a / 32 = 0 ∨ a / 32 = 1 ∨ a / 32 = 2 ∨ a / 32 = 3 ∨ a / 32 = 4 ∨ a / 32 = 5 ∨ a / 32 = 6 ∨ a / 32 = 7) as Hc
    by (Z.div_mod_to_equations; lia).
  apply eq_true_iff_eq. rewrite andb_true_iff, orb_true_iff, !Z.eqb_eq. change (2 ^ 13) with 8192.
  repeat (destruct Hc as [Hc|Hc]; [rewrite Hc; match goal with |- context [Z.land ?x 5] =>
    let v := eval vm_compute in (Z.land x 5) in change (Z.land x 5) with v end; Z.div_mod_to_equations; lia|]).
  rewrite Hc. change (Z.land 7 5) with 5. Z.div_mod_to_equations. lia.
Qed.
Lemma two_checks {A} (a b : bool) e e' (m : res ParseError A) (o : option A) :
  agrees (if negb (a && b) then Err e else m) o → agrees (if negb a then Err e else if negb b then Err e' else m) o.
Proof. destruct a, b, o; cbn; (done || by eexists). Qed.

Lemma parse_ipv4_format p : wf_packet p → agrees (ip.parse_ipv4 p) (ipv4_format (frame p)).
Proof.
  intros Hwf. destruct (raw_frame (E := ParseError) p Hwf) as (_ & Hok & _). unfold ip.parse_ipv4, ipv4_format.
  apply (after_eth p); [done| |]; set (r := frame p) in *; clearbody r; intros H14; unfold is_ipv4.
  2:{ by rewrite (proj2 (Z.leb_gt 34 _)) by lia. }
  cbn [eth_fields eth.eth_type eth.payload]. set (pl := bytes_at r 14 (zlen r - 14)).
  assert (zlen pl = zlen r - 14) as Hpl by (apply zlen_at; lia).
  change ip.ETH_TYPE_IPV4 with 0x0800.
  apply agrees_err; [intros Ht%negb_true_iff; by rewrite Ht, andb_false_r|intros Ht%negb_false_iff; rewrite Ht, andb_true_r].
  destruct (Z.leb_spec 34 (zlen r)) as [H34|H34]; [|rewrite range_out by lia; by eexists].
  rewrite range_in by lia. cbn [ok_or mbind res_bind andb].
  assert (bytes_at pl 0 (20 - 0) = bytes_at r 14 20) as -> by (by apply at_at; lia).
  set (h := bytes_at r 14 20). assert (zlen h = 20) as Hh by (apply zlen_at; lia).
  rewrite !(index_in h) by lia. rewrite !(format_slice_in h) by lia. cbn [mbind res_bind].
  change (4 - 2) with 2. change (8 - 6) with 2. change (16 - 12) with 4. change (20 - 16) with 4.
  rewrite !(u16_in h), !(u32_in h) by lia. cbn [mbind res_bind].
  unfold h. rewrite !format_word_at by lia. fold h.
  pose proof (word_bound r 14 1 Hok ltac:(lia)) as B14. pose proof (word_bound r 20 1 Hok ltac:(lia)) as B20.
  pose proof (word_bound r 20 2 Hok ltac:(lia)) as B20'. pose proof (word_bound r 16 2 Hok ltac:(lia)) as B16.
  change (14 + Z.of_nat 0) with 14. change (14 + Z.of_nat 6) with 20. change (14 + Z.of_nat 9) with 23.
  change (14 + 6) with 20. change (14 + 2) with 16.
  apply two_checks. rewrite version_bits by lia.
  apply agrees_err; [intros ->%negb_true_iff; done|intros ->%negb_false_iff]. cbn [andb].
  apply two_checks. rewrite fragment_bits by (done || lia).
  apply agrees_err; [intros ->%negb_true_iff; done|intros ->%negb_false_iff]. cbn [andb].
  rewrite Hh, Hpl. apply agrees_err.
  { rewrite orb_true_iff, !Z.ltb_lt. intros [H|H]; [by rewrite (proj2 (Z.leb_gt _ _)) by lia|].
    rewrite (proj2 (Z.leb_gt (14 + _) _)) by lia. by rewrite andb_false_r. }
  rewrite orb_false_iff, !Z.ltb_ge. intros [H1 H2]. rewrite !(proj2 (Z.leb_le _ _)) by lia. cbn [andb agrees].
  rewrite format_slice_in by lia. cbn [mbind res_bind]. unfold pl. rewrite at_at by lia. reflexivity.
Qed.

Lemma parse_ipv6_format p : wf_packet p → agrees (ip.parse_ipv6 p) (ipv6_format (frame p)).
Proof.
  intros Hwf. destruct (raw_frame (E := ParseError) p Hwf) as (_ & Hok & _). unfold ip.parse_ipv6, ipv6_format.
  apply (after_eth p); [done| |]; set (r := frame p) in *; clearbody r; intros H14; unfold is_ipv6.
  2:{ by rewrite (proj2 (Z.leb_gt 54 _)) by lia. }
  cbn [eth_fields eth.eth_type eth.payload]. set (pl := bytes_at r 14 (zlen r - 14)).
  assert (zlen pl = zlen r - 14) as Hpl by (apply zlen_at; lia). change ip.ETH_TYPE_IPV6 with 0x86DD.
  apply agrees_err; [intros Ht%negb_true_iff; by rewrite Ht, andb_false_r|intros Ht%negb_false_iff; rewrite Ht, andb_true_r].
  destruct (Z.leb_spec 54 (zlen r)) as [H54|H54]; [|rewrite range_out by lia; by eexists].
  rewrite range_in by lia. cbn [ok_or mbind res_bind andb].
  assert (bytes_at pl 0 (40 - 0) = bytes_at r 14 40) as -> by (by apply at_at; lia).
  set (h := bytes_at r 14 40). assert (zlen h = 40) as Hh by (apply zlen_at; lia).
  rewrite !(index_in h) by lia. rewrite !(format_slice_in h) by lia. cbn [mbind res_bind].
  change (6 - 4) with 2. change (24 - 8) with 16. change (40 - 24) with 16. rewrite (u16_in h) by lia.
  unfold h. rewrite !at_at, !format_word_at by lia. fold h.
  change (14 + Z.of_nat 0) with 14. change (14 + Z.of_nat 6) with 20. change (14 + 4) with 18.
  change (14 + 8) with 22. change (14 + 24) with 38.
  pose proof (word_bound r 18 2 Hok ltac:(lia)) as B18. change (2 ^ (8 * 2)) with 65536 in B18.
  rewrite Z.shiftr_div_pow2 by lia. change (2 ^ 4) with 16.
  apply agrees_err; [intros ->%negb_true_iff; done|intros ->%negb_false_iff]. cbn [andb].
  rewrite !length_at by lia. cbn [mbind res_bind]. change (Z.to_nat 16 =? 16)%nat with true. cbn [assert mbind res_bind].
  rewrite add_Ok by lia. cbn [mbind res_bind]. rewrite Hh, Hpl. apply agrees_err.
  { intros H%Z.ltb_lt. by rewrite (proj2 (Z.leb_gt _ _)) by lia. }
  intros H%Z.ltb_ge. rewrite (proj2 (Z.leb_le _ _)) by lia. cbn [agrees].
  rewrite format_slice_in by lia. cbn [mbind res_bind]. unfold pl. rewrite at_at by lia.
  unfold ipv6_fields. do 4 f_equal. lia.
Qed.

Lemma parse_ip_format p : wf_packet p →
  agrees (or_else (rmap ip.V4 (ip.parse_ipv4 p)) (λ _, rmap ip.V6 (ip.parse_ipv6 p))) (ip_format (frame p)).
Proof.
  intros Hwf. pose proof (parse_ipv4_format p Hwf) as H4. pose proof (parse_ipv6_format p Hwf) as H6.
  unfold ip_format, ipv4_format, ipv6_format in *. destruct (is_ipv4 (frame p)); cbn [agrees] in *; [by rewrite H4|].
  destruct H4 as [e ->]. cbn [rmap or_else mbind res_bind].
  destruct (is_ipv6 (frame p)); cbn [agrees] in *; [by rewrite H6|]. destruct H6 as [e' ->]. by exists e'.
Qed.

(** The payload of an IP packet is made of bytes. *)
Lemma ip_payload_ok p i : wf_packet p → ip_format (frame p) = Some i → bytes_ok (ip.payload i).
Proof.
  intros Hwf. destruct (raw_frame (E := ParseError) p Hwf) as (_ & Hok & _). unfold ip_format.
  destruct (is_ipv4 _); [intros [= <-]|destruct (is_ipv6 _); [intros [= <-]|done]]; by apply Forall_take, Forall_drop.
Qed.
(** A parser behind the IP header *)
Lemma after_ip {A} p (f : ip.Parsed → res ParseError A) (g : ip.Parsed → option A) :
  wf_packet p → (∀ i, bytes_ok (ip.payload i) → agrees (f i) (g i)) →
  agrees (i ← or_else (rmap ip.V4 (ip.parse_ipv4 p)) (λ _, rmap ip.V6 (ip.parse_ipv6 p)); f i) (i ← ip_format (frame p); g i).
Proof.
  intros Hwf Hin. pose proof (parse_ip_format p Hwf) as Hi. pose proof (ip_payload_ok p) as Hok.
  destruct (ip_format (frame p)) as [i|]; cbn [agrees mbind option_bind] in *.
  - rewrite Hi. apply Hin. by apply Hok.
  - destruct Hi as [e ->]. by exists e.
Qed.

Lemma parse_udp_format p : wf_packet p → agrees (udp.parse_udp p) (udp_format (frame p)).
Proof.
  intros Hwf. unfold udp.parse_udp, udp_format. apply after_ip; [done|]. intros i Hok. set (q := ip.payload i) in *.
  change udp.IP_PROT_UDP with 17. apply agrees_err; [intros ->%negb_true_iff; done|intros ->%negb_false_iff]. cbn [andb].
  destruct (Z.leb_spec 8 (zlen q)) as [H8|H8]; [|rewrite range_out by lia; by eexists]. cbn [andb].
  rewrite range_in by lia. cbn [ok_or mbind res_bind]. change (8 - 0) with 8.
  set (h := bytes_at q 0 8). assert (zlen h = 8) as Hh by (apply zlen_at; lia).
  rewrite !(range_in h) by lia. change (2 - 0) with 2. change (4 - 2) with 2. change (6 - 4) with 2.
  rewrite !(u16_in h) by lia. cbn [mbind res_bind]. unfold h. rewrite !format_word_at by lia. fold h. rewrite Hh.
  change (0 + 0) with 0. change (0 + 2) with 2. change (0 + 4) with 4. apply agrees_err.
  { rewrite orb_true_iff, !Z.ltb_lt. intros [H|H]; [by rewrite (proj2 (Z.leb_gt _ _)) by lia|].
    rewrite (proj2 (Z.leb_gt (word q 4 2) _)) by lia. by rewrite andb_false_r. }
  rewrite orb_false_iff, !Z.ltb_ge. intros [H1 H2]. rewrite !(proj2 (Z.leb_le _ _)) by lia. cbn [andb agrees].
  by rewrite format_slice_in by lia.
Qed.

Lemma format_field_in pl a b e : 0 ≤ a → a ≤ b → b ≤ zlen pl → arp.field pl a b e = Ok (bytes_at pl a (b - a)).
Proof.
  intros. unfold arp.field. rewrite format_slice_in by lia. cbn [mbind res_bind]. by rewrite zlen_at, Z.eqb_refl by lia.
Qed.
Lemma parse_arp_format p : wf_packet p → agrees (arp.parse_arp p) (arp_format (frame p)).
Proof.
  intros Hwf. unfold arp.parse_arp, arp_format.
  apply (after_eth p); [done| |]; set (r := frame p) in *; clearbody r; intros H14.
  2:{ by rewrite (proj2 (Z.leb_gt 42 _)) by lia. }
  cbn [eth_fields eth.eth_type eth.payload]. set (pl := bytes_at r 14 (zlen r - 14)).
  assert (zlen pl = zlen r - 14) as Hpl by (apply zlen_at; lia). change arp.ETH_TYPE_ARP with 0x0806.
  apply agrees_err; [intros Ht%negb_true_iff; by rewrite Ht, andb_false_r|intros Ht%negb_false_iff; rewrite Ht, andb_true_r].
  cbv zeta. rewrite Hpl. destruct (Z.leb_spec 42 (zlen r)) as [H42|H42].
  - rewrite (proj2 (Z.ltb_ge _ _)) by lia. cbn [agrees]. rewrite !format_field_in, !(index_in pl) by lia. cbn [mbind res_bind].
    unfold pl. rewrite !at_at, !format_word_at by lia. reflexivity.
  - rewrite (proj2 (Z.ltb_lt _ _)) by lia. by eexists.
Qed.
Lemma agrees_iff {A} (m : res ParseError A) o : agrees m o → returns m ∧ ∀ a, m = Ok a ↔ o = Some a.
Proof. destruct o as [a|]; cbn [agrees]; [intros ->|intros [e ->]]; (split; [done|]; split; congruence). Qed.
End parsers.

(** C9. No received packet, of any length and with any contents, makes a parser panic:
    [parse_eth], [parse_ipv4], [parse_ipv6], [parse_arp] and [parse_udp] return a value or an
    error.  They accept exactly the frames of the formats of the standards (IPv4 without options
    and fragments, IPv6 without extension headers), and return exactly the fields at the offsets of
    the formats: the UDP payload begins 42 bytes into an IPv4 frame and 62 into an IPv6 frame, and
    ends with the length in the UDP header. *)
Theorem parsers_safe p :
  wf_packet p →
  (returns (eth.parse_eth p) ∧ ∀ e, eth.parse_eth p = Ok e ↔ eth_format (frame p) = Some e) ∧
  (returns (ip.parse_ipv4 p) ∧ ∀ i, ip.parse_ipv4 p = Ok i ↔ ipv4_format (frame p) = Some i) ∧
  (returns (ip.parse_ipv6 p) ∧ ∀ i, ip.parse_ipv6 p = Ok i ↔ ipv6_format (frame p) = Some i) ∧
  (returns (arp.parse_arp p) ∧ ∀ a, arp.parse_arp p = Ok a ↔ arp_format (frame p) = Some a) ∧
  (returns (udp.parse_udp p) ∧ ∀ u, udp.parse_udp p = Ok u ↔ udp_format (frame p) = Some u).
Proof.
  intros Hwf. split; [by apply agrees_iff, parse_eth_format|]. split; [by apply agrees_iff, parse_ipv4_format|].
  split; [by apply agrees_iff, parse_ipv6_format|]. split; [by apply agrees_iff, parse_arp_format|].
  by apply agrees_iff, parse_udp_format.
Qed.

(** * Witness *)
(** A frame from elsewhere: "don't fragment" set, a time to live of 5, and padding behind the
    datagram of 3 bytes *)
Definition foreign_udp : list Z :=
  [2;0;0;0;0;2; 2;0;0;0;0;1; 8;0; 0x45;16; 0;31; 0x12;0x34; 0x40;0; 5;17; 0;0; 10;0;0;1; 10;0;0;2;
   0;53; 19;136; 0;11; 0;0; 7;8;9; 0;0;0;0;0;0;0;0;0;0;0;0;0;0;0].
Definition received (f : list Z) : Packet := mkPacket (f ++ replicate (Packet.BUF_LEN - length f) 0) (zlen f) 0.
Lemma bytes_ok_check l : forallb (λ b, (0 <=? b) && (b <? 256)) l = true → bytes_ok l.
Proof.
  intros H. apply Forall_forall. intros b Hb. rewrite forallb_forall in H. specialize (H b Hb).
  unfold fits. lia.
Qed.
(** A packet that is given, checked by computation *)
Lemma wf_packet_check p :
  (length (buffer p) =? Packet.BUF_LEN)%nat && forallb (λ b, (0 <=? b) && (b <? 256)) (buffer p)
  && (0 <=? len p) && (len p <=? Z.of_nat Packet.BUF_LEN) = true → wf_packet p.
Proof.
  rewrite !andb_true_iff, Nat.eqb_eq, !Z.leb_le. intros (((H1 & H2) & H3) & H4).
  split; [done|by apply bytes_ok_check|done].
Qed.
Lemma received_wf f : bytes_ok f → (length f ≤ Packet.BUF_LEN)%nat → wf_packet (received f).
Proof.
  intros Hok Hl. split; cbn [received buffer len].
  - rewrite length_app, length_replicate. lia.
  - apply Forall_app. split; [done|]. by apply Forall_replicate.
  - unfold zlen, Packet.BUF_LEN in *. lia.
Qed.
Lemma parsers_safe_witness :
  ∃ u, udp.parse_udp (received foreign_udp) = Ok u ∧ udp.src_port u = 53 ∧ udp.dst_port u = 5000 ∧ udp.payload u = [7; 8; 9].
Proof.
  destruct (parsers_safe (received foreign_udp)) as (_ & _ & _ & _ & _ & Hu).
  { apply received_wf; [|vm_compute; lia]. repeat (apply Forall_cons_2; [split; lia|]). apply Forall_nil_2. }
  destruct (udp_format (frame (received foreign_udp))) as [u|] eqn:E; [|vm_compute in E; discriminate E].
  exists u. split; [apply (Hu u); reflexivity|]. vm_compute in E. injection E as <-. vm_compute. done.
Defined.
