(* ===== verification/NetDevice.v ===== *)
(** Network devices: kernel/src/net/net.rs, the device side of udp.rs (binds,
    receive, discard) and arp.rs (resolution, discard), and time.rs's deadlines.

    The driver trait [NetDriver] is a type class; its laws [NetDriverLaws] say
    what the stack relies on: received packets are well formed, a packet buffer
    has one owner, and time moves forward.  [NetHistory] adds what arrived and what was
    sent, and how long a call takes.  The handlers run one at a time, as
    under the locks of the source. *)
From Stdlib Require Import ZArith Lia.
From stdpp Require Import prelude list numbers gmap.
From S2P Require Import Prelude Cursor Packet Net NetBuild NetParse NetFormat.

(** * The driver trait *)

(** [rdtsc] and the rate [tsc_mhz] of the time-stamp counter belong to the
    machine the driver runs on. *)
Class NetDriver (D : Type) := {
  drv_mac : D → Mac;
  drv_recv : M D unit (option Packet);
  drv_send : Packet → bool → M D unit unit;
  drv_allocate : M D unit Packet;
  drv_release : Packet → M D unit unit;
  rdtsc : M D unit Z;
  tsc_mhz : D → Z;
}.

(** A packet to be filled: empty; and one to be sent. *)
Definition blank (p : Packet) : Prop := length (buffer p) = Packet.BUF_LEN ∧ len p = 0.
Definition sendable (p : Packet) : Prop :=
  length (buffer p) = Packet.BUF_LEN ∧ 0 ≤ len p ≤ Packet.MAX_PACKET_LEN.

(** [excl d hs]: the buffers of the packets [hs], which the callers hold, belong
    to nobody else.  [now d] bounds the counter values read so far. *)
Class NetDriverLaws (D : Type) `{NetDriver D} := {
  excl : D → list Packet → Prop;
  now : D → Z;
  excl_perm d hs hs' : hs ≡ₚ hs' → excl d hs → excl d hs';
  recv_law d hs : excl d hs →
    ∃ o d', drv_recv d = Ok (o, d') ∧ now d ≤ now d' ∧ tsc_mhz d' = tsc_mhz d ∧
      match o with Some p => wf_packet p ∧ excl d' (p :: hs) | None => excl d' hs end;
  excl_fill d hs p p' : excl d (p :: hs) → paddr p' = paddr p →
    length (buffer p') = Packet.BUF_LEN → excl d (p' :: hs);
  send_law d hs p flush : excl d (p :: hs) → sendable p →
    ∃ d', drv_send p flush d = Ok (tt, d') ∧ now d ≤ now d' ∧ tsc_mhz d' = tsc_mhz d ∧ excl d' hs;
  allocate_law d hs : excl d hs →
    ∃ p d', drv_allocate d = Ok (p, d') ∧ now d ≤ now d' ∧ tsc_mhz d' = tsc_mhz d ∧
      blank p ∧ excl d' (p :: hs);
  release_law d hs p : excl d (p :: hs) →
    ∃ d', drv_release p d = Ok (tt, d') ∧ now d ≤ now d' ∧ tsc_mhz d' = tsc_mhz d ∧ excl d' hs;
  rdtsc_law d hs : excl d hs →
    ∃ t d', rdtsc d = Ok (t, d') ∧ now d < t ∧ now d' = t ∧ tsc_mhz d' = tsc_mhz d ∧ excl d' hs;
}.

(** What a driver that is observed adds: the packets it handed out and the packets it was given
    to send so far, oldest first, and the ticks of the counter a call takes at most. *)
Class NetHistory (D : Type) `{NetDriverLaws D} := {
  arrived : D → list Packet;
  sent : D → list Packet;
  pace : Z;
  pace_nonneg : 0 ≤ pace;
  recv_logged d hs o d' : excl d hs → drv_recv d = Ok (o, d') →
    arrived d' = arrived d ++ option_list o ∧ sent d' = sent d ++ [] ∧ now d' ≤ now d + pace;
  send_logged d hs p flush d' : excl d (p :: hs) → sendable p → drv_send p flush d = Ok (tt, d') →
    arrived d' = arrived d ++ [] ∧ sent d' = sent d ++ [p] ∧ now d' ≤ now d + pace;
  allocate_logged d hs p d' : excl d hs → drv_allocate d = Ok (p, d') →
    arrived d' = arrived d ++ [] ∧ sent d' = sent d ++ [] ∧ now d' ≤ now d + pace;
  release_logged d hs p d' : excl d (p :: hs) → drv_release p d = Ok (tt, d') →
    arrived d' = arrived d ++ [] ∧ sent d' = sent d ++ [] ∧ now d' ≤ now d + pace;
  rdtsc_logged d hs t d' : excl d hs → rdtsc d = Ok (t, d') →
    arrived d' = arrived d ++ [] ∧ sent d' = sent d ++ [] ∧ now d' ≤ now d + pace;
}.

(** * State *)

(** dhcp.rs: [Lease] *)
Record Lease := mkLease {
  client_ip : Z; server_ip : Z; broadcast_ip : option Z; subnet_mask : option Z }.

(** A [VecDeque<Packet>]: its elements and the room it has before it grows. *)
Record Bind := mkBind { queue : list Packet; capacity : nat }.

Record NetDevice (D : Type) := mkNetDevice {
  id : Z; driver : D; mac : Mac; dhcp_lease : option Lease; udp_binds : gmap Z Bind }.
Arguments mkNetDevice {D} _ _ _ _ _.
Arguments id {D} _. Arguments driver {D} _. Arguments mac {D} _.
Arguments dhcp_lease {D} _. Arguments udp_binds {D} _.

(** * Ports *)
Module Port.

Definition EPHEMERAL_START : Z := 49152.

(** On the static [NEXT_FREE_PORT]: the port, and the next one. *)
Definition next_free (prev : Z) : Z * Z :=
  (prev, if prev =? umax 16 then EPHEMERAL_START else prev + 1).

End Port.

(** * Operations *)
Module Dev.
Section ops.
Context {D : Type} `{NetDriver D}.
Abbreviation St := (NetDevice D).

(** Call the driver. *)
Definition drv {A} (m : M D unit A) : M St unit A := λ dev,
  let set d := mkNetDevice (id dev) d (mac dev) (dhcp_lease dev) (udp_binds dev) in
  match m (driver dev) with
  | Ok (a, d) => Ok (a, set d)
  | Err (e, d) => Err (e, set d)
  | Panic => Panic
  | Diverge => Diverge
  end.

Definition set_binds (b : gmap Z Bind) (dev : St) : St :=
  mkNetDevice (id dev) (driver dev) (mac dev) (dhcp_lease dev) b.
Definition set_lease (l : option Lease) (dev : St) : St :=
  mkNetDevice (id dev) (driver dev) (mac dev) l (udp_binds dev).

Definition recv : M St unit (option Packet) := drv drv_recv.
Definition send (packet : Packet) (flush : bool) : M St unit unit := drv (drv_send packet flush).
Definition allocate_packet : M St unit Packet := drv drv_allocate.

(** Dropping a [PacketLease] that still holds its packet. *)
Definition release (packet : Packet) : M St unit unit := drv (drv_release packet).

(** time.rs: [future] *)
Definition future (us : Z) : M St unit Z :=
  now ← drv rdtsc;
  dev ← get;
  t ← lift (mul 64 us (tsc_mhz (driver dev)));
  lift (add 64 now t).

(** Run an operation on a packet that is owned here. *)
Definition on_packet {A} (p : Packet) (m : M Packet unit A) : M St unit (option A * Packet) := λ dev,
  match m p with
  | Ok (a, p') => Ok ((Some a, p'), dev)
  | Err (_, p') => Ok ((None, p'), dev)
  | Panic => Panic
  | Diverge => Diverge
  end.

Definition bind_udp_port (port : Z) : M St unit (option Z) :=
  dev ← get;
  match udp_binds dev !! port with
  | Some _ => mret None
  | None => _ ← put (set_binds (<[port := mkBind [] 0]> (udp_binds dev)) dev); mret (Some port)
  end.

(** The loop over ephemeral ports, on the static [NEXT_FREE_PORT]. *)
Fixpoint bind_udp (fuel : nat) (next : Z) : M St unit (option Z * Z) :=
  match fuel with
  | O => diverge
  | S fuel =>
      let '(port, next) := Port.next_free next in
      b ← bind_udp_port port;
      match b with
      | Some p => mret (Some p, next)
      | None => bind_udp fuel next
      end
  end.

Fixpoint release_all (ps : list Packet) : M St unit unit :=
  match ps with
  | [] => mret tt
  | p :: ps => _ ← release p; release_all ps
  end.

Definition unbind_udp (port : Z) : M St unit unit :=
  dev ← get;
  match udp_binds dev !! port with
  | None => mret tt
  | Some b => _ ← put (set_binds (delete port (udp_binds dev)) dev); release_all (queue b)
  end.

(** A packet is handled (and its lease dropped), or put back. *)
Definition discard_arp (packet : option Packet) : M St unit (option Packet) :=
  match packet with
  | None => mret None
  | Some pk =>
      match arp.parse_arp pk with
      | Ok a =>
          dev ← get;
          match dhcp_lease dev with
          | None => _ ← release pk; mret None
          | Some lease =>
              let this_ip := client_ip lease in
              _ ← (if (arp.opcode a =? arp.opcode_code arp.Request)
                     && (arp.hw_type a =? arp.HW_TYPE_ETH)
                     && (arp.proto_type a =? arp.ETH_TYPE_IPV4)
                     && (arp.hw_size a =? 6) && (arp.proto_size a =? 4)
                     && (arp.target_ip a =? this_ip)
                   then
                     packet ← allocate_packet;
                     '(_, packet) ← on_packet packet (arp.build_arp_packet arp.Reply
                        (mac dev) this_ip (arp.sender_mac a) (arp.sender_ip a));
                     send packet true
                   else mret tt);
              _ ← release pk; mret None
          end
      | Err _ => mret (Some pk)
      | Panic => panic
      | Diverge => diverge
      end
  end.

(** [packet.take()] leaves [None] behind, so the second [packet.take().unwrap()]
    of the source panics where it is reached. *)
Definition discard_udp (packet : option Packet) : M St unit (option Packet) :=
  match packet with
  | None => mret None
  | Some pk =>
      match udp.parse_udp pk with
      | Ok u =>
          dev ← get;
          match udp_binds dev !! udp.dst_port u with
          | None => _ ← release pk; mret None
          | Some bind =>
              if (length (queue bind) <? capacity bind)%nat then panic
              else _ ← release pk; mret None
          end
      | Err _ => mret (Some pk)
      | Panic => panic
      | Diverge => diverge
      end
  end.

Definition discard (packet : Packet) : M St unit unit :=
  packet ← discard_arp (Some packet);
  packet ← discard_udp packet;
  match packet with None => mret tt | Some pk => release pk end.

(** [func] is the receiver's closure. *)
Definition recv_udp {T} (port : Z) (func : Packet → udp.Parsed → option T) : M St unit (option T) :=
  dev ← get;
  match udp_binds dev !! port with
  | None => mret None
  | Some (mkBind (packet :: rest) cap) =>
      _ ← put (set_binds (<[port := mkBind rest cap]> (udp_binds dev)) dev);
      u ← lift (unwrap_res (udp.parse_udp packet));
      _ ← release packet;
      mret (func packet u)
  | Some (mkBind [] _) =>
      o ← recv;
      match o with
      | None => mret None
      | Some packet =>
          match udp.parse_udp packet with
          | Ok u =>
              if udp.dst_port u =? port then _ ← release packet; mret (func packet u)
              else _ ← discard packet; mret None
          | Err _ => _ ← discard packet; mret None
          | Panic => panic
          | Diverge => diverge
          end
      end
  end.

(** Receive until the counter passes [deadline]. *)
Fixpoint recv_until {T} (fuel : nat) (deadline port : Z) (func : Packet → udp.Parsed → option T)
    : M St unit (option T) :=
  match fuel with
  | O => diverge
  | S fuel =>
      t ← drv rdtsc;
      if deadline <=? t then mret None
      else
        r ← recv_udp port func;
        match r with
        | Some v => mret (Some v)
        | None => recv_until fuel deadline port func
        end
  end.

Definition recv_timeout {T} (fuel : nat) (port timeout : Z)
    (func : Packet → udp.Parsed → option T) : M St unit (option T) :=
  deadline ← future timeout;
  recv_until fuel deadline port func.

(** ** ARP resolution *)
Definition ARP_TIMEOUT : Z := 100000.
Definition N_RETRIES : nat := 1000.

(** The inner loop of [arp]: a reply, or [None] on the deadline. *)
Fixpoint await_reply (fuel : nat) (deadline ip this_ip : Z) : M St unit (option Mac) :=
  match fuel with
  | O => diverge
  | S fuel =>
      t ← drv rdtsc;
      if deadline <=? t then mret None
      else
        o ← recv;
        match o with
        | None => await_reply fuel deadline ip this_ip
        | Some packet =>
            match arp.parse_arp packet with
            | Panic => panic
            | Diverge => diverge
            | r =>
                dev ← get;
                match r with
                | Ok a =>
                    if arp.is_valid_reply a ip this_ip (mac dev)
                    then _ ← release packet; mret (Some (arp.sender_mac a))
                    else _ ← discard packet; await_reply fuel deadline ip this_ip
                | _ => _ ← discard packet; await_reply fuel deadline ip this_ip
                end
            end
        end
  end.

(** [retries] requests, each with its deadline; [fuel] bounds each wait. *)
Fixpoint arp_retry (retries fuel : nat) (ip this_ip : Z) (this_mac : Mac) : M St unit (option Mac) :=
  match retries with
  | O => mret None
  | S retries =>
      packet ← allocate_packet;
      '(built, packet) ← on_packet packet
        (arp.build_arp_packet arp.Request this_mac this_ip ZERO ip);
      match built with
      | None => mret None
      | Some _ =>
          _ ← send packet true;
          deadline ← future ARP_TIMEOUT;
          r ← await_reply fuel deadline ip this_ip;
          match r with
          | Some m => mret (Some m)
          | None => arp_retry retries fuel ip this_ip this_mac
          end
      end
  end.

Definition arp (fuel : nat) (ip : Z) : M St unit (option Mac) :=
  dev ← get;
  lease ← lift (unwrap (dhcp_lease dev));
  arp_retry N_RETRIES fuel ip (client_ip lease) (mac dev).

(** [NetAddress::resolve] *)
Definition resolve (fuel : nat) (src_port dst_port dst_ip : Z) : M St unit (option NetAddress) :=
  m ← arp fuel dst_ip;
  match m with
  | None => mret None
  | Some dst_mac =>
      dev ← get;
      match dhcp_lease dev with
      | None => mret None
      | Some lease =>
          mret (Some (mkNetAddress (mac dev) (IpV4 (client_ip lease)) src_port
                        dst_mac (IpV4 dst_ip) dst_port))
      end
  end.

End ops.
End Dev.

(** ** The device registry *)

(** [NetDevice::get] on the strong counts of the locked-in devices: the loop
    keeps a clone of the best one so far, which its count includes. *)
Fixpoint least_contended (counts : list Z) (i : nat) (best : option (nat * Z)) : option nat :=
  match counts with
  | [] => fst <$> best
  | count :: counts =>
      let cur_best := match best with Some (_, c) => (c + 1) - 1 | None => umax 64 end in
      if count <? cur_best then least_contended counts (S i) (Some (i, count))
      else least_contended counts (S i) best
  end.

Definition get_device (net_devices : option (list Z)) : option nat :=
  match net_devices with None => None | Some counts => least_contended counts 0 None end.

(** * Builders keep the buffer they write into *)
Section keeps.

Definition keeps {A} (m : M Packet unit A) : Prop := ∀ p,
  match m p with Ok (_, p') | Err (_, p') => paddr p' = paddr p | _ => True end.
Definition keeps_c {A} (m : M PacketCursor.St unit A) : Prop := ∀ p c,
  match m (p, c) with Ok (_, (p', _)) | Err (_, (p', _)) => paddr p' = paddr p | _ => True end.

Lemma keeps_bind {A B} (m : M Packet unit A) (f : A → M Packet unit B) :
  keeps m → (∀ a, keeps (f a)) → keeps (m ≫= f).
Proof.
  intros Hm Hf p. unfold mbind, M_bind. specialize (Hm p).
  destruct (m p) as [[a p1]|[]| |]; try done. specialize (Hf a p1).
  destruct (f a p1) as [[]|[]| |]; try done; congruence.
Qed.
Lemma keeps_c_bind {A B} (m : M PacketCursor.St unit A) (f : A → M PacketCursor.St unit B) :
  keeps_c m → (∀ a, keeps_c (f a)) → keeps_c (m ≫= f).
Proof.
  intros Hm Hf p c. unfold mbind, M_bind. specialize (Hm p c).
  destruct (m (p, c)) as [[a [p1 c1]]|[e [p1 c1]]| |]; try done. specialize (Hf a p1 c1).
  destruct (f a (p1, c1)) as [[b [p2 c2]]|[e [p2 c2]]| |]; try done; congruence.
Qed.
Lemma keeps_ret {A} (a : A) : keeps (mret a).
Proof. done. Qed.
Lemma keeps_c_ret {A} (a : A) : keeps_c (mret a).
Proof. done. Qed.
Lemma keeps_c_write buf : keeps_c (PacketCursor.write buf).
Proof.
  intros p c. unfold PacketCursor.write.
  destruct (Cursor.write buf (buffer p, c)) as [[r [st c']]|[e [st c']]| |]; done.
Qed.
Lemma keeps_with_cursor {A} c (m : M PacketCursor.St unit A) : keeps_c m → keeps (with_cursor c m).
Proof.
  intros H p. unfold with_cursor. specialize (H p c).
  by destruct (m (p, c)) as [[a [p1 c1]]|[e [p1 c1]]| |].
Qed.

Lemma keeps_get : keeps get.
Proof. done. Qed.
Lemma keeps_throw {A} : keeps (A:=A) (throw tt).
Proof. done. Qed.
Lemma keeps_lift {A} (r : res unit A) : keeps (lift r).
Proof. intros p. by destruct r. Qed.
Lemma keeps_unwrap {A} (m : M Packet unit A) : keeps m → keeps (unwrap_M m).
Proof. intros H p. specialize (H p). unfold unwrap_M. by destruct (m p) as [[]|[]| |]. Qed.
Lemma keeps_read_hdr h : keeps (read_hdr h).
Proof. done. Qed.
Lemma keeps_write_hdr h i src : keeps (write_hdr h i src).
Proof. intros p. unfold write_hdr. destruct (_ && _); [|done]. by destruct (copy_from_slice _ _ _ _). Qed.
Lemma keeps_c_ignore {A} (m : M PacketCursor.St unit A) : keeps_c m → keeps_c (ignore m).
Proof.
  intros H p c. specialize (H p c). unfold ignore.
  by destruct (m (p, c)) as [[a [p1 c1]]|[e [p1 c1]]| |].
Qed.
Lemma keeps_c_split : keeps_c PacketCursor.split_at_current.
Proof.
  intros p c. unfold PacketCursor.split_at_current, mbind, M_bind, get, lift.
  by destruct (Cursor.split_at_current c) as [[]| | |].
Qed.
End keeps.

Create HintDb keeps.
#[export] Hint Resolve keeps_ret keeps_c_ret keeps_c_write keeps_get keeps_throw keeps_lift
  keeps_read_hdr keeps_write_hdr keeps_c_split : keeps.

Ltac keep :=
  repeat first
    [ solve [auto with keeps]
    | progress intros
    | progress cbv beta zeta
    | match goal with |- context [let '(_, _) := ?x in _] => destruct x end
    | apply keeps_bind | apply keeps_c_bind | apply keeps_with_cursor
    | apply keeps_unwrap | apply keeps_c_ignore
    | match goal with |- keeps (match ?x with _ => _ end) => destruct x end
    | match goal with |- keeps_c (match ?x with _ => _ end) => destruct x end ].

Section builders_keep.

Lemma eth_new_keeps c s d : keeps (eth.Builder_new c s d).
Proof. unfold eth.Builder_new. keep. Qed.

Lemma ip_keeps c s d : keeps (ip.ip c s d).
Proof.
  unfold ip.ip, ip.ipv4, ip.ipv6, ip.BuilderV4_new, ip.BuilderV6_new,
    PacketCursor.write_u8, PacketCursor.write_u16, PacketCursor.write_u32. keep.
Qed.

Lemma create_udp_keeps a : keeps (udp.create_udp a).
Proof.
  pose proof eth_new_keeps. pose proof ip_keeps.
  unfold udp.create_udp, udp.from_packet, udp.udp, udp.Builder_new, ip.set_protocol, ip.set_protocol_v4, ip.set_protocol_v6,
    PacketCursor.write_u16. keep.
Qed.

Lemma udp_write_keeps U buf : keeps (udp.write U buf).
Proof. unfold udp.write. keep. Qed.

Lemma udp_finalize_keeps U : keeps (udp.finalize U).
Proof.
  unfold udp.finalize, udp.write_len, udp.payload_bytes, ip.finalize, ip.finalize_v4,
    ip.finalize_v6, ip.write_len_v4, ip.write_len_v6, ip.write_crc_v4, udp.write_crc,
    udp.payload_bytes. keep.
Qed.

Lemma build_arp_keeps op sm si tm ti : keeps (arp.build_arp_packet op sm si tm ti).
Proof.
  unfold arp.build_arp_packet, PacketCursor.write_u8, PacketCursor.write_u16.
  pose proof eth_new_keeps. keep.
Qed.

Lemma holds_sendable p w : holds p w → sendable p.
Proof. intros [H1 H2 H3 H4]. split; [done|]. rewrite H3. unfold zlen in *. lia. Qed.

(** A blank packet becomes a sendable ARP packet in the same buffer. *)
Lemma build_arp_ok p op sm si tm ti :
  blank p → length sm = 6%nat → length tm = 6%nat →
  ∃ p', arp.build_arp_packet op sm si tm ti p = Ok (tt, p') ∧ sendable p' ∧ paddr p' = paddr p.
Proof.
  intros [Hb Hl] Hs Ht. destruct (build_arp_bytes p op sm si tm ti) as (p' & E & H); [done..|].
  exists p'. split; [done|]. pose proof (build_arp_keeps op sm si tm ti p) as Hk. rewrite E in Hk.
  split; [|done]. by eapply holds_sendable.
Qed.
End builders_keep.

(** * The stack over any lawful driver *)
Section stack.
Context {D : Type} `{Hdrv : NetDriver D} {Hlaws : NetDriverLaws D}.
Abbreviation St := (NetDevice D).
Implicit Types (dev : St) (hs : list Packet) (p pk : Packet).

(** No queue of a bind holds a packet or has room for one. *)
Definition binds_idle (b : gmap Z Bind) : Prop :=
  map_Forall (λ _ x, queue x = [] ∧ capacity x = 0%nat) b.

(** The packets [hs] are out of the driver's hands and in ours only. *)
Record inv (dev : St) (hs : list Packet) : Prop := {
  inv_excl : excl (driver dev) hs;
  inv_binds : binds_idle (udp_binds dev);
  inv_mac : length (mac dev) = 6%nat;
}.

(** What no receive path changes. *)
Record kept (dev dev' : St) : Prop := {
  kept_mac : mac dev' = mac dev;
  kept_lease : dhcp_lease dev' = dhcp_lease dev;
  kept_binds : udp_binds dev' = udp_binds dev;
  kept_now : now (driver dev) ≤ now (driver dev');
  kept_mhz : tsc_mhz (driver dev') = tsc_mhz (driver dev);
}.

#[global] Instance kept_preorder : PreOrder kept.
Proof.
  split; [intros dev; by split|].
  intros a b c [] []. split; try congruence. lia.
Qed.

Lemma kept_inv dev dev' hs : kept dev dev' → excl (driver dev') hs → ∀ hs0, inv dev hs0 → inv dev' hs.
Proof.
  intros [Hm _ Hb _ _] He hs0 []. split; [done|by rewrite Hb|by rewrite Hm].
Qed.

(** A driver call: what the law says, on the device. *)
Lemma runs_drv {A} (m : M D unit A) dev a d' (Q : A → St → Prop) :
  m (driver dev) = Ok (a, d') → now (driver dev) ≤ now d' →
  tsc_mhz d' = tsc_mhz (driver dev) →
  (∀ dev', driver dev' = d' → kept dev dev' → Q a dev') → runs (Dev.drv m) dev Q.
Proof.
  intros E Hn Hm HQ. unfold runs, Dev.drv. rewrite E. eexists _, _. split; [done|].
  apply HQ; [done|]. by split.
Qed.

Lemma runs_release dev hs p :
  inv dev (p :: hs) → runs (Dev.release p) dev (λ _ dev', inv dev' hs ∧ kept dev dev').
Proof.
  intros Hi. destruct (release_law _ _ _ (inv_excl _ _ Hi)) as (d' & E & Hn & Hm & He).
  eapply runs_drv; [done..|]. intros dev' <- Hk. split; [by eapply kept_inv|done].
Qed.

Lemma runs_send dev hs p flush :
  inv dev (p :: hs) → sendable p →
  runs (Dev.send p flush) dev (λ _ dev', inv dev' hs ∧ kept dev dev').
Proof.
  intros Hi Hs. destruct (send_law _ _ _ flush (inv_excl _ _ Hi) Hs) as (d' & E & Hn & Hm & He).
  eapply runs_drv; [done..|]. intros dev' <- Hk. split; [by eapply kept_inv|done].
Qed.

Lemma runs_allocate dev hs :
  inv dev hs → runs Dev.allocate_packet dev (λ p dev', inv dev' (p :: hs) ∧ blank p ∧ kept dev dev').
Proof.
  intros Hi. destruct (allocate_law _ _ (inv_excl _ _ Hi)) as (p & d' & E & Hn & Hm & Hb & He).
  eapply runs_drv; [done..|]. intros dev' <- Hk. split; [by eapply kept_inv|done].
Qed.

Lemma runs_recv dev hs :
  inv dev hs → runs Dev.recv dev (λ o dev', kept dev dev' ∧
    match o with Some p => wf_packet p ∧ inv dev' (p :: hs) | None => inv dev' hs end).
Proof.
  intros Hi. destruct (recv_law _ _ (inv_excl _ _ Hi)) as (o & d' & E & Hn & Hm & He).
  eapply runs_drv; [done..|]. intros dev' <- Hk. split; [done|].
  destruct o as [p|]; [destruct He as [Hw He]; split; [done|]|]; by eapply kept_inv.
Qed.

Lemma runs_rdtsc dev hs :
  inv dev hs → runs (Dev.drv rdtsc) dev (λ t dev', inv dev' hs ∧ kept dev dev' ∧
    now (driver dev) < t ∧ now (driver dev') = t).
Proof.
  intros Hi. destruct (rdtsc_law _ _ (inv_excl _ _ Hi)) as (t & d' & E & Hn & Hn' & Hm & He).
  eapply runs_drv; [done|lia|done|]. intros dev' <- Hk.
  split; [by eapply kept_inv|]. by split.
Qed.

(** ** Binding ports *)

(** The [k]-th port the allocator hands out from [next]. *)
Definition nth_port (next : Z) (k : nat) : Z := (next - Port.EPHEMERAL_START + Z.of_nat k) mod 16384 + Port.EPHEMERAL_START.

Lemma next_free_step next :
  Port.EPHEMERAL_START ≤ next ≤ umax 16 →
  Port.next_free next = (nth_port next 0, nth_port next 1) ∧
  Port.EPHEMERAL_START ≤ nth_port next 1 ≤ umax 16 ∧
  ∀ k, nth_port (nth_port next 1) k = nth_port next (S k).
Proof.
  unfold Port.next_free, nth_port, Port.EPHEMERAL_START, umax. intros H. split; [|split].
  - f_equal; [rewrite Z.add_0_r, Z.mod_small; lia|].
    destruct (Z.eqb_spec next (2 ^ 16 - 1)) as [->|]; [done|]. rewrite Z.mod_small; lia.
  - pose proof (Z.mod_pos_bound (next - 49152 + Z.of_nat 1) 16384). lia.
  - intros k. f_equal. rewrite Z.add_simpl_r, Z.add_mod_idemp_l by lia. f_equal. lia.
Qed.

Lemma bind_udp_finds fuel dev next k :
  Port.EPHEMERAL_START ≤ next ≤ umax 16 → (k < fuel)%nat →
  udp_binds dev !! nth_port next k = None →
  ∃ port next' dev', Dev.bind_udp fuel next dev = Ok ((Some port, next'), dev') ∧
    Port.EPHEMERAL_START ≤ port ≤ umax 16 ∧ Port.EPHEMERAL_START ≤ next' ≤ umax 16 ∧
    udp_binds dev !! port = None ∧ dev' = Dev.set_binds (<[port := mkBind [] 0]> (udp_binds dev)) dev.
Proof.
  revert next k. induction fuel as [|fuel IH]; intros next k Hr Hk Hfree; [lia|].
  destruct (next_free_step next Hr) as (E & Hr1 & Hs). cbn [Dev.bind_udp]. rewrite E.
  assert (nth_port next 0 = next) as E0
    by (unfold nth_port, Port.EPHEMERAL_START, umax in *; rewrite Z.mod_small; lia).
  unfold mbind at 1, M_bind at 1, Dev.bind_udp_port, mbind at 1, M_bind at 1, get.
  destruct (udp_binds dev !! nth_port next 0) eqn:Eb.
  - destruct k as [|k]; [congruence|]. cbn. apply (IH (nth_port next 1) k); [done|lia|].
    by rewrite Hs.
  - cbn. eexists _, _, _. split; [done|]. rewrite E0 in *. done.
Qed.
End stack.

(** * The stack over a driver that is observed *)
Section history.
Context {D : Type} `{Hdrv : NetDriver D} {Hlaws : NetDriverLaws D} {Hhist : NetHistory D}.
Abbreviation St := (NetDevice D).
Implicit Types (dev : St) (hs ps qs : list Packet) (p pk : Packet) (b k : Z).

(** From [dev] to [dev'] the packets [ps] arrived, the packets [qs] were sent, and the counter
    did not pass [b]. *)
Definition since ps qs b dev dev' : Prop :=
  arrived (driver dev') = arrived (driver dev) ++ ps ∧ sent (driver dev') = sent (driver dev) ++ qs ∧
  now (driver dev') ≤ b.
Lemma since_refl dev b : now (driver dev) ≤ b → since [] [] b dev dev.
Proof. intros. unfold since. by rewrite !app_nil_r. Qed.
Lemma since_trans ps qs b ps' qs' b' dev dev1 dev2 :
  since ps qs b dev dev1 → since ps' qs' b' dev1 dev2 → since (ps ++ ps') (qs ++ qs') b' dev dev2.
Proof. intros (E1 & E2 & _) (F1 & F2 & F3). unfold since. rewrite F1, F2, E1, E2, !app_assoc. done. Qed.
Lemma since_le ps qs b b' dev dev' : since ps qs b dev dev' → b ≤ b' → since ps qs b' dev dev'.
Proof. intros (E1 & E2 & E3) Hb. split; [done|]. split; [done|lia]. Qed.

(** No packet arrived, in the time of [k] calls *)
Definition later k dev dev' : Prop := ∃ qs, since [] qs (now (driver dev) + k * pace) dev dev'.
Lemma later_trans k k' dev dev1 dev2 : later k dev dev1 → later k' dev1 dev2 → later (k + k') dev dev2.
Proof.
  intros [qs H1] [qs' H2]. exists (qs ++ qs'). eapply since_le; [exact (since_trans _ _ _ _ _ _ _ _ _ H1 H2)|].
  destruct H1 as (_ & _ & H1). lia.
Qed.
Lemma later_le k k' dev dev' : later k dev dev' → k ≤ k' → later k' dev dev'.
Proof. intros [qs H] Hk. exists qs. eapply since_le; [done|]. pose proof pace_nonneg. nia. Qed.
Lemma later_refl dev : later 0 dev dev.
Proof. exists []. apply since_refl. lia. Qed.
Lemma later_since ps qs b k dev dev1 dev2 : since ps qs b dev dev1 → later k dev1 dev2 →
  ∃ qs', since ps (qs ++ qs') (b + k * pace) dev dev2.
Proof.
  intros H1 [qs' H2]. exists qs'. eapply since_le.
  - rewrite <-(app_nil_r ps). exact (since_trans _ _ _ _ _ _ _ _ _ H1 H2).
  - destruct H1 as (_ & _ & H1). lia.
Qed.

(** ** Driver calls *)
Lemma runs_logged {A} (m : M D unit A) dev (P : A → St → Prop) (ps qs : A → list Packet) :
  runs (Dev.drv m) dev P →
  (∀ a d', m (driver dev) = Ok (a, d') → arrived d' = arrived (driver dev) ++ ps a ∧
     sent d' = sent (driver dev) ++ qs a ∧ now d' ≤ now (driver dev) + pace) →
  runs (Dev.drv m) dev (λ a dev', P a dev' ∧ since (ps a) (qs a) (now (driver dev) + pace) dev dev').
Proof.
  intros (a & dev' & E & HP) Hl. exists a, dev'. split; [done|]. split; [done|]. unfold Dev.drv in E.
  destruct (m (driver dev)) as [[a' d']|[]| |] eqn:Em; try done. injection E as <- <-. by apply Hl.
Qed.
Lemma later_one dev dev' : since [] [] (now (driver dev) + pace) dev dev' → later 1 dev dev'.
Proof. intros H. exists []. by rewrite Z.mul_1_l. Qed.

Lemma release_since dev hs p : inv dev (p :: hs) →
  runs (Dev.release p) dev (λ _ dev', inv dev' hs ∧ kept dev dev' ∧ later 1 dev dev').
Proof.
  intros Hi. eapply runs_weaken; [apply (runs_logged _ _ _ (λ _, []) (λ _, []) (runs_release dev hs p Hi))|].
  - intros [] d' E. by eapply release_logged; [apply Hi|].
  - intros _ dev' [[? ?] Hs]. split; [done|]. split; [done|]. by apply later_one.
Qed.
Lemma send_since dev hs p flush : inv dev (p :: hs) → sendable p →
  runs (Dev.send p flush) dev (λ _ dev', inv dev' hs ∧ kept dev dev' ∧ since [] [p] (now (driver dev) + pace) dev dev').
Proof.
  intros Hi Hs. eapply runs_weaken; [apply (runs_logged _ _ _ (λ _, []) (λ _, [p]) (runs_send dev hs p flush Hi Hs))|].
  - intros [] d' E. by eapply send_logged; [apply Hi|..].
  - intros _ dev' [[? ?] ?]. done.
Qed.
Lemma allocate_since dev hs : inv dev hs →
  runs Dev.allocate_packet dev (λ p dev', inv dev' (p :: hs) ∧ blank p ∧ kept dev dev' ∧
    since [] [] (now (driver dev) + pace) dev dev').
Proof.
  intros Hi. eapply runs_weaken; [apply (runs_logged _ _ _ (λ _, []) (λ _, []) (runs_allocate dev hs Hi))|].
  - intros p d' E. by eapply allocate_logged; [apply Hi|].
  - intros p dev' [(? & ? & ?) Hs]. done.
Qed.
Lemma recv_since dev hs : inv dev hs →
  runs Dev.recv dev (λ o dev', kept dev dev' ∧ since (option_list o) [] (now (driver dev) + pace) dev dev' ∧
    match o with Some p => wf_packet p ∧ inv dev' (p :: hs) | None => inv dev' hs end).
Proof.
  intros Hi. eapply runs_weaken; [apply (runs_logged _ _ _ option_list (λ _, []) (runs_recv dev hs Hi))|].
  - intros o d' E. by eapply recv_logged; [apply Hi|].
  - intros o dev' [[? ?] Hs]. done.
Qed.
Lemma rdtsc_since dev hs : inv dev hs →
  runs (Dev.drv rdtsc) dev (λ t dev', inv dev' hs ∧ kept dev dev' ∧ now (driver dev) < t ∧ now (driver dev') = t ∧
    since [] [] (now (driver dev) + pace) dev dev').
Proof.
  intros Hi. eapply runs_weaken; [apply (runs_logged _ _ _ (λ _, []) (λ _, []) (runs_rdtsc dev hs Hi))|].
  - intros t d' E. by eapply rdtsc_logged; [apply Hi|].
  - intros t dev' [(? & ? & ? & ?) Hs]. done.
Qed.

(** Fill a fresh buffer and send it: [build] makes a sendable packet of any blank one. *)
Lemma runs_send_built dev hs {A} (build : M Packet unit A) (P : Packet → Prop) :
  inv dev hs →
  (∀ p, blank p → ∃ a p', build p = Ok (a, p') ∧ sendable p' ∧ paddr p' = paddr p ∧ P p') →
  runs (packet ← Dev.allocate_packet; '(_, packet) ← Dev.on_packet packet build; Dev.send packet true) dev
    (λ _ dev', inv dev' hs ∧ kept dev dev' ∧ ∃ q, P q ∧ since [] [q] (now (driver dev) + 2 * pace) dev dev').
Proof.
  intros Hi Hb. eapply runs_bind; [by apply allocate_since|]. intros p dev1 (Hi1 & Hbl & Hk1 & Hs1).
  destruct (Hb p Hbl) as (a & p' & E & Hs & Hp & HP).
  eapply (runs_bind _ _ _ (λ r dev', r = (Some a, p') ∧ dev' = dev1)).
  { eexists _, _. unfold Dev.on_packet. rewrite E. done. }
  intros [o p2] dev2 [[= -> ->] ->].
  eapply runs_weaken; [apply send_since; [split; [eapply excl_fill; [apply Hi1|done|apply Hs]|apply Hi1..]|done]|].
  intros _ dev3 (Hi3 & Hk3 & Hs3). split; [done|]. split; [by etrans|]. exists p'. split; [done|].
  eapply since_le; [exact (since_trans _ _ _ _ _ _ _ _ _ Hs1 Hs3)|]. destruct Hs1 as (_ & _ & H1). lia.
Qed.
Lemma runs_send_arp dev hs op (tm : Mac) (si ti : Z) :
  inv dev hs → length tm = 6%nat →
  runs (packet ← Dev.allocate_packet;
        '(_, packet) ← Dev.on_packet packet (arp.build_arp_packet op (mac dev) si tm ti);
        Dev.send packet true) dev (λ _ dev', inv dev' hs ∧ kept dev dev' ∧ later 2 dev dev').
Proof.
  intros Hi Ht. eapply runs_weaken; [apply (runs_send_built dev hs _ (λ _, True)); [done|]|].
  - intros p Hp. destruct (build_arp_ok p op (mac dev) si tm ti Hp (inv_mac _ _ Hi) Ht) as (p' & E & Hs & Ha). by exists tt, p'.
  - intros _ dev' (? & ? & q & _ & Hs). split; [done|]. split; [done|]. by exists [q].
Qed.

(** ** Discarding *)
Lemma runs_discard_arp dev hs pk :
  inv dev (pk :: hs) → wf_packet pk →
  runs (Dev.discard_arp (Some pk)) dev (λ o dev', kept dev dev' ∧ later 3 dev dev' ∧
    match o with None => inv dev' hs | Some p => p = pk ∧ inv dev' (pk :: hs) end).
Proof.
  intros Hi Hwf. unfold Dev.discard_arp. pose proof (safe_parse_arp pk Hwf) as Hs.
  assert (later 3 dev dev) as H3 by (eapply later_le; [apply later_refl|lia]).
  destruct (arp.parse_arp pk) as [a|e| |]; [|by apply runs_ret|done..].
  destruct Hs as (_ & Hsm & _). eapply runs_bind; [by apply (runs_get _ (λ d s, d = dev ∧ s = dev))|].
  intros ? ? [-> ->]. destruct (dhcp_lease dev) as [lease|].
  2:{ eapply runs_bind; [by apply release_since|]. intros _ dev1 (Hi1 & Hk1 & Hl1). apply runs_ret.
      split; [done|]. split; [by eapply later_le; [exact Hl1|lia]|done]. }
  eapply (runs_bind _ _ _ (λ _ dev1, inv dev1 (pk :: hs) ∧ kept dev dev1 ∧ later 2 dev dev1)).
  - destruct (_ && _); [by apply runs_send_arp|]. apply runs_ret. split; [done|]. split; [done|].
    eapply later_le; [apply later_refl|lia].
  - intros _ dev1 (Hi1 & Hk1 & Hl1). eapply runs_bind; [by apply release_since|].
    intros _ dev2 (Hi2 & Hk2 & Hl2). apply runs_ret. split; [by etrans|]. split; [exact (later_trans _ _ _ _ _ Hl1 Hl2)|done].
Qed.

Lemma runs_discard_udp dev hs pk :
  inv dev (pk :: hs) → wf_packet pk →
  runs (Dev.discard_udp (Some pk)) dev (λ o dev', kept dev dev' ∧ later 1 dev dev' ∧
    match o with None => inv dev' hs | Some p => p = pk ∧ inv dev' (pk :: hs) end).
Proof.
  intros Hi Hwf. unfold Dev.discard_udp. pose proof (safe_parse_udp pk Hwf) as Hs.
  assert (later 1 dev dev) as H1 by (eapply later_le; [apply later_refl|lia]).
  destruct (udp.parse_udp pk) as [u|e| |]; [|by apply runs_ret|done..].
  eapply runs_bind; [by apply (runs_get _ (λ d s, d = dev ∧ s = dev))|]. intros ? ? [-> ->].
  assert (runs (_ ← Dev.release pk; mret None) dev (λ o dev', kept dev dev' ∧ later 1 dev dev' ∧
    match o with None => inv dev' hs | Some p => p = pk ∧ inv dev' (pk :: hs) end)) as Hrel.
  { eapply runs_bind; [by apply release_since|]. intros _ dev1 (Hi1 & Hk1 & Hl1). by apply runs_ret. }
  destruct (udp_binds dev !! udp.dst_port u) as [b|] eqn:Eb; [|done].
  destruct (inv_binds _ _ Hi _ _ Eb) as [Hq Hc]. rewrite Hc, Hq. done.
Qed.

Lemma runs_discard dev hs pk :
  inv dev (pk :: hs) → wf_packet pk →
  runs (Dev.discard pk) dev (λ _ dev', inv dev' hs ∧ kept dev dev' ∧ later 5 dev dev').
Proof.
  intros Hi Hwf. unfold Dev.discard.
  eapply runs_bind; [by apply runs_discard_arp|]. intros o dev1 (Hk1 & Hl1 & Ho).
  eapply (runs_bind _ _ _ (λ o dev2, kept dev dev2 ∧ later 4 dev dev2 ∧
    match o with None => inv dev2 hs | Some p => p = pk ∧ inv dev2 (pk :: hs) end)).
  - destruct o as [p|]; [|apply runs_ret; split; [done|]; split; [by eapply later_le; [exact Hl1|lia]|done]].
    destruct Ho as [-> Hi1]. eapply runs_weaken; [by apply runs_discard_udp|]. intros o2 dev2 (Hk2 & Hl2 & Ho2).
    split; [by etrans|]. split; [exact (later_trans _ _ _ _ _ Hl1 Hl2)|done].
  - intros [p|] dev2 (Hk2 & Hl2 & Ho2);
      [|apply runs_ret; split; [done|]; split; [done|by eapply later_le; [exact Hl2|lia]]].
    destruct Ho2 as [-> Hi2]. eapply runs_weaken; [by apply release_since|]. intros _ dev3 (Hi3 & Hk3 & Hl3).
    split; [done|]. split; [by etrans|exact (later_trans _ _ _ _ _ Hl2 Hl3)].
Qed.

(** ** Receiving *)

(** A receiver's answer comes from a datagram to its port, among the packets that arrived. *)
Definition from_port {T} (port : Z) (func : Packet → udp.Parsed → option T) ps (v : T) : Prop :=
  ∃ p u, p ∈ ps ∧ wf_packet p ∧ udp.parse_udp p = Ok u ∧ udp.dst_port u = port ∧ func p u = Some v.
Definition answer {T} port (func : Packet → udp.Parsed → option T) ps (r : option T) : Prop :=
  ∀ v, r = Some v → from_port port func ps v.

Lemma runs_recv_udp {T} dev hs port (func : Packet → udp.Parsed → option T) :
  inv dev hs →
  runs (Dev.recv_udp port func) dev (λ r dev', inv dev' hs ∧ kept dev dev' ∧
    ∃ ps qs, since ps qs (now (driver dev) + 6 * pace) dev dev' ∧ answer port func ps r).
Proof.
  intros Hi. unfold Dev.recv_udp. pose proof pace_nonneg as Hp0.
  eapply runs_bind; [by apply (runs_get _ (λ d s, d = dev ∧ s = dev))|]. intros ? ? [-> ->].
  destruct (udp_binds dev !! port) as [[q cap]|] eqn:Eb.
  2:{ apply runs_ret. split; [done|]. split; [done|]. exists [], []. split; [apply since_refl; lia|done]. }
  destruct (inv_binds _ _ Hi _ _ Eb) as [Hq _]. simpl in Hq. subst q.
  eapply runs_bind; [by apply recv_since|]. intros o dev1 (Hk1 & Hs1 & Ho).
  destruct o as [pk|].
  2:{ apply runs_ret. split; [done|]. split; [done|]. exists [], []. split; [|done]. eapply since_le; [exact Hs1|lia]. }
  destruct Ho as [Hwf Hi1]. cbn [option_list] in Hs1.
  assert (runs (_ ← Dev.discard pk; mret None) dev1 (λ r dev', inv dev' hs ∧ kept dev dev' ∧
    ∃ ps qs, since ps qs (now (driver dev) + 6 * pace) dev dev' ∧ answer port func ps r)) as Hdis.
  { eapply runs_bind; [by apply runs_discard|]. intros _ dev2 (Hi2 & Hk2 & Hl2). apply runs_ret.
    split; [done|]. split; [by etrans|]. destruct (later_since _ _ _ _ _ _ _ Hs1 Hl2) as [qs Hs2].
    exists [pk], ([] ++ qs). split; [eapply since_le; [exact Hs2|lia]|done]. }
  pose proof (safe_parse_udp pk Hwf) as Hs.
  destruct (udp.parse_udp pk) as [u|e| |] eqn:Eu; [|done..].
  destruct (Z.eqb_spec (udp.dst_port u) port) as [Hp|Hp]; [|done].
  eapply runs_bind; [by apply release_since|]. intros _ dev2 (Hi2 & Hk2 & Hl2). apply runs_ret.
  split; [done|]. split; [by etrans|]. destruct (later_since _ _ _ _ _ _ _ Hs1 Hl2) as [qs Hs2].
  exists [pk], ([] ++ qs). split; [eapply since_le; [exact Hs2|lia]|].
  intros v Ef. exists pk, u. split; [by apply list_elem_of_singleton|]. done.
Qed.

(** The time of a wait: it ends by the deadline, and the calls of the last turn. *)
Definition wait_end deadline dev : Z := Z.max (now (driver dev) + pace) (deadline + 7 * pace).

(** Polling until a deadline ends: the counter grows with every turn. *)
Lemma runs_recv_until {T} fuel dev hs deadline port (func : Packet → udp.Parsed → option T) :
  inv dev hs → deadline - now (driver dev) ≤ Z.of_nat fuel → (0 < fuel)%nat →
  runs (Dev.recv_until fuel deadline port func) dev
    (λ r dev', inv dev' hs ∧ kept dev dev' ∧
       ∃ ps qs, since ps qs (wait_end deadline dev) dev dev' ∧ answer port func ps r).
Proof.
  pose proof pace_nonneg as Hp0. unfold wait_end.
  revert dev. induction fuel as [|fuel IH]; intros dev Hi Hf Hpos; [lia|]. cbn [Dev.recv_until].
  eapply runs_bind; [by apply rdtsc_since|]. intros t dev1 (Hi1 & Hk1 & Ht & Ht' & Hs1).
  destruct (Z.leb_spec deadline t) as [Hd|Hd].
  { apply runs_ret. split; [done|]. split; [done|]. exists [], []. split; [eapply since_le; [exact Hs1|lia]|done]. }
  eapply runs_bind; [by apply runs_recv_udp|]. intros r dev2 (Hi2 & Hk2 & ps & qs & Hs2 & Ha).
  pose proof (since_trans _ _ _ _ _ _ _ _ _ Hs1 Hs2) as Hs12. cbn [app] in Hs12.
  destruct r as [v|].
  - apply runs_ret. split; [done|]. split; [by etrans|]. exists ps, qs. split; [eapply since_le; [exact Hs12|lia]|done].
  - pose proof (kept_now _ _ Hk2). eapply runs_weaken; [apply IH; [done|lia|lia]|].
    intros r dev3 (Hi3 & Hk3 & ps' & qs' & Hs3 & Ha3). split; [done|]. split; [etrans; [exact Hk1|by etrans]|].
    exists (ps ++ ps'), (qs ++ qs'). split.
    + destruct Hs12 as (S1 & S2 & S3). eapply since_le; [exact (since_trans _ _ _ _ _ _ _ _ _ (conj S1 (conj S2 S3)) Hs3)|lia].
    + intros v Hv. destruct (Ha3 v Hv) as (p & u & Hin & Hpu). exists p, u. split; [apply elem_of_app; by right|done].
Qed.

(** [future]: the deadline does not overflow while the counter is that far from its maximum. *)
Lemma runs_future dev hs us :
  inv dev hs → 0 ≤ us → 0 ≤ tsc_mhz (driver dev) →
  now (driver dev) + pace + us * tsc_mhz (driver dev) < 2 ^ 64 → 0 ≤ now (driver dev) →
  runs (Dev.future us) dev (λ dl dev', inv dev' hs ∧ kept dev dev' ∧
    dl = now (driver dev') + us * tsc_mhz (driver dev) ∧ since [] [] (now (driver dev) + pace) dev dev').
Proof.
  intros Hi Hus Hmhz Hov Hn0. unfold Dev.future. pose proof pace_nonneg as Hp0.
  eapply runs_bind; [by apply rdtsc_since|]. intros t dev1 (Hi1 & Hk1 & Ht & Ht' & Hs1).
  eapply runs_bind; [by apply (runs_get _ (λ d s, d = dev1 ∧ s = dev1))|]. intros ? ? [-> ->].
  pose proof (kept_mhz _ _ Hk1) as Hm1. rewrite Hm1. pose proof (proj2 (proj2 Hs1)) as Hn1.
  eapply (runs_bind _ _ _ (λ r s, r = us * tsc_mhz (driver dev) ∧ s = dev1)).
  { eapply runs_lift; [apply mul_Ok; nia|done]. }
  intros ? ? [-> ->]. eapply runs_lift; [apply add_Ok; lia|]. by rewrite Ht'.
Qed.

(** ** ARP resolution *)





End history.

(** * Properties *)

(** The device a receiver holds between calls: no packet is out. *)
Definition settled {D} `{NetDriverLaws D} (dev : NetDevice D) : Prop := inv dev [].

(** Over any lawful driver, receiving on a bound port with a timeout returns
    once the counter passes the deadline ([fuel] turns of the loop suffice), never
    panics, gives every packet buffer it took from the driver back, leaves the
    binds and the lease alone, and answers only with what the closure made of a
    datagram addressed to that port that arrived meanwhile. *)
Theorem recv_timeout_correct {D} `{NetHistory D} {T} (dev : NetDevice D) hs fuel port us
    (func : Packet → udp.Parsed → option T) :
  inv dev hs → 0 ≤ us → 0 ≤ tsc_mhz (driver dev) → 0 ≤ now (driver dev) →
  us * tsc_mhz (driver dev) < Z.of_nat fuel →
  now (driver dev) + pace + us * tsc_mhz (driver dev) < 2 ^ 64 →
  runs (Dev.recv_timeout fuel port us func) dev
    (λ r dev', inv dev' hs ∧ kept dev dev' ∧ ∃ ps qs,
       since ps qs (now (driver dev) + us * tsc_mhz (driver dev) + 8 * pace) dev dev' ∧ answer port func ps r).
Proof.
  intros Hi Hus Hm Hn Hf Hov. unfold Dev.recv_timeout. pose proof (pace_nonneg (D:=D)) as Hp0.
  eapply runs_bind; [by apply runs_future|]. intros dl dev1 (Hi1 & Hk1 & Hdl & Hs1).
  assert (0 ≤ us * tsc_mhz (driver dev)) by nia. pose proof (proj2 (proj2 Hs1)) as T1.
  eapply runs_weaken; [apply runs_recv_until; [done|lia|lia]|].
  intros r dev2 (Hi2 & Hk2 & ps & qs & Hs2 & Ha). split; [done|]. split; [by etrans|]. exists ps, qs. split; [|done].
  eapply since_le; [exact (since_trans _ _ _ _ _ _ _ _ _ Hs1 Hs2)|]. unfold wait_end. lia.
Qed.

(** Handing a packet to [discard] always ends with its buffer back at the
    driver, whatever the packet holds: it is answered (an ARP request for us),
    dropped, or released unparsed; nothing else the callers hold is touched.  The
    [packet.take().unwrap()] of [discard_udp] is never reached, because no bind
    ever has room in its queue. *)
Theorem discard_releases {D} `{NetHistory D} (dev : NetDevice D) hs pk :
  inv dev (pk :: hs) → wf_packet pk →
  runs (Dev.discard pk) dev (λ _ dev', inv dev' hs ∧ kept dev dev' ∧ later 5 dev dev').
Proof. apply runs_discard. Qed.


(** Binding a UDP port ends as long as an ephemeral port is unbound: the loop
    finds one within 16384 turns, it was free, it is in the ephemeral range and it
    is bound with an empty queue; an explicit bind of a taken port is refused. *)
Theorem bind_udp_correct {D} `{NetDriver D} (dev : NetDevice D) next free :
  Port.EPHEMERAL_START ≤ next ≤ umax 16 →
  Port.EPHEMERAL_START ≤ free ≤ umax 16 → udp_binds dev !! free = None →
  (∃ port next' dev', Dev.bind_udp (Z.to_nat 16384) next dev = Ok ((Some port, next'), dev') ∧
    Port.EPHEMERAL_START ≤ port ≤ umax 16 ∧ udp_binds dev !! port = None ∧
    udp_binds dev' = <[port := mkBind [] 0]> (udp_binds dev)) ∧
  (∀ port b, udp_binds dev !! port = Some b → Dev.bind_udp_port port dev = Ok (None, dev)).
Proof.
  intros Hn Hf Hfree. split.
  - destruct (bind_udp_finds (Z.to_nat 16384) dev next (Z.to_nat ((free - next) mod 16384)))
      as (port & next' & dev' & E & Hp & _ & Hfr & ->).
    + done.
    + pose proof (Z.mod_pos_bound (free - next) 16384). lia.
    + replace (nth_port next _) with free; [done|]. unfold nth_port.
      pose proof (Z.mod_pos_bound (free - next) 16384).
      rewrite Z2Nat.id, Z.add_mod_idemp_r by lia. unfold Port.EPHEMERAL_START, umax in *.
      rewrite Z.mod_small; lia.
    + exists port, next', (Dev.set_binds (<[port := mkBind [] 0]> (udp_binds dev)) dev).
      by rewrite E.
  - intros port b Hb. unfold Dev.bind_udp_port, mbind, M_bind, get. by rewrite Hb.
Qed.

Lemma least_contended_spec counts i best r :
  Forall (λ c, 0 ≤ c < umax 64) counts →
  (∀ j c, best = Some (j, c) → (j < i)%nat ∧ 0 ≤ c < umax 64) →
  least_contended counts i best = Some r →
  (∃ c, best = Some (r, c) ∧ Forall (λ x, c ≤ x) counts) ∨
  (∃ k c, r = (i + k)%nat ∧ counts !! k = Some c ∧ Forall (λ x, c ≤ x) counts ∧
          ∀ j cj, best = Some (j, cj) → c < cj).
Proof.
  revert i best. induction counts as [|x counts IH]; intros i best Hall Hb Hr.
  - simpl in Hr. destruct best as [[j c]|]; [|done]. simpl in Hr. injection Hr as <-.
    left. exists c. by split; [|constructor].
  - apply Forall_cons_iff in Hall as [Hx Hall]. cbn [least_contended] in Hr.
    destruct (Z.ltb_spec x (match best with Some (_, c) => c + 1 - 1 | None => umax 64 end)) as [Hlt|Hge].
    + apply IH in Hr; [|done|by intros j c [= <- <-]; split; [lia|]].
      right. destruct Hr as [(c & [= <- <-] & Hf)|(k & c & -> & Hk & Hf & Hc)].
      * exists 0%nat, x. split; [lia|]. split; [done|]. split; [by constructor|].
        intros j cj ->. lia.
      * exists (S k), c. split; [lia|]. split; [done|]. specialize (Hc _ _ eq_refl).
        split; [by constructor; [lia|]|]. intros j cj ->. lia.
    + destruct best as [[j c]|]; [|lia].
      apply IH in Hr; [|done|intros ? ? [= <- <-]; destruct (Hb _ _ eq_refl); split; [lia|done]].
      destruct Hr as [(c' & [= <- <-] & Hf)|(k & c' & -> & Hk & Hf & Hc)].
      * left. exists c. split; [done|]. constructor; [lia|done].
      * right. exists (S k), c'. specialize (Hc _ _ eq_refl). split; [lia|]. split; [done|].
        split; [constructor; [lia|done]|]. by intros ? ? [= <- <-].
Qed.

(** [NetDevice::get] returns a device with the fewest references among the
    locked-in devices, and nothing before they are locked in. *)
Theorem get_device_least counts r :
  Forall (λ c, 0 ≤ c < umax 64) counts → get_device (Some counts) = Some r →
  get_device None = None ∧ ∃ c, counts !! r = Some c ∧ Forall (λ x, c ≤ x) counts.
Proof.
  intros Hall Hr. split; [done|]. apply least_contended_spec in Hr; [|done|done].
  destruct Hr as [(? & ? & _)|(k & c & -> & Hk & Hf & _)]; [done|]. by exists c.
Qed.

(** * A driver that satisfies the laws *)

(** Packets that will arrive, buffers never used before ([next] and up), a
    counter that ticks. *)
Record Script := mkScript { rx : list Packet; next : Z; clock : Z }.

#[global] Instance script_driver : NetDriver Script := {
  drv_mac _ := [2; 0; 0; 0; 0; 1];
  drv_recv s := Ok (head (rx s), mkScript (tail (rx s)) (next s) (clock s));
  drv_send _ _ s := Ok (tt, s);
  drv_allocate s := Ok (Packet.new (next s), mkScript (rx s) (next s + 1) (clock s));
  drv_release _ s := Ok (tt, s);
  rdtsc s := Ok (clock s + 1, mkScript (rx s) (next s) (clock s + 1));
  tsc_mhz _ := 1;
}.

Definition script_excl (s : Script) (hs : list Packet) : Prop :=
  Forall wf_packet (rx s) ∧ NoDup (paddr <$> rx s ++ hs) ∧
  Forall (λ p, paddr p < next s) (rx s ++ hs).

Lemma script_excl_perm s hs hs' : hs ≡ₚ hs' → script_excl s hs → script_excl s hs'.
Proof. intros Hp (H1 & H2 & H3). split; [done|]. by rewrite <-Hp. Qed.

Lemma script_excl_drop s hs p : script_excl s (p :: hs) → script_excl s hs.
Proof.
  intros (H1 & H2 & H3). split; [done|]. rewrite <-Permutation_middle in H2, H3.
  rewrite fmap_cons in H2. split; [by apply NoDup_cons in H2 as [_ ?]|by apply Forall_cons in H3 as [_ ?]].
Qed.

#[global] Instance script_laws : NetDriverLaws Script.
Proof.
  refine {| excl := script_excl; now := clock |}.
  - apply script_excl_perm.
  - intros [[|p l] n c] hs (H1 & H2 & H3); eexists _, _; (split; [reflexivity|]); simpl in *.
    + by split.
    + split; [done|]. split; [done|]. apply Forall_cons in H1 as [Hp H1]. split; [done|].
      split; [done|]. simpl. rewrite <-Permutation_middle. done.
  - intros s hs p p' (H1 & H2 & H3) Ha _. split; [done|].
    rewrite <-Permutation_middle in H2, H3. rewrite <-Permutation_middle.
    rewrite fmap_cons in H2 |- *. rewrite Ha. split; [done|].
    apply Forall_cons in H3 as [? ?]. constructor; [by rewrite Ha|done].
  - intros s hs p fl He _. eexists. split; [reflexivity|]. split; [done|]. split; [done|].
    by eapply script_excl_drop.
  - intros [l n c] hs (H1 & H2 & H3). eexists _, _. split; [reflexivity|]. split; [done|].
    split; [done|]. split; [done|]. split; [done|]. simpl in *. rewrite <-Permutation_middle. simpl.
    split.
    + constructor; [|done]. intros Hin. apply list_elem_of_fmap in Hin as (q & Hq & Hin).
      rewrite Forall_forall in H3. specialize (H3 q Hin). simpl in *. lia.
    + constructor; [simpl; lia|]. eapply Forall_impl; [done|]. simpl. lia.
  - intros s hs p He. eexists. split; [reflexivity|]. split; [done|]. split; [done|].
    by eapply script_excl_drop.
  - intros s hs He. eexists _, _. split; [reflexivity|]. split; [simpl; lia|]. done.
Defined.

(** The same with its history: any driver can be observed, call by call. *)
Record Logged (D : Type) := mkLogged { base : D; heard : list Packet; spoken : list Packet }.
Arguments mkLogged {D} _ _ _. Arguments base {D} _. Arguments heard {D} _. Arguments spoken {D} _.
Section logged.
Context {D : Type} `{Hdrv : NetDriver D} {Hlaws : NetDriverLaws D}.
Definition log {A} (m : M D unit A) (h : A → list Packet) (w : list Packet) : M (Logged D) unit A := λ l,
  match m (base l) with
  | Ok (a, d) => Ok (a, mkLogged d (heard l ++ h a) (spoken l ++ w))
  | Err (e, d) => Err (e, mkLogged d (heard l) (spoken l))
  | Panic => Panic
  | Diverge => Diverge
  end.
#[global] Instance logged_driver : NetDriver (Logged D) := {
  drv_mac l := drv_mac (base l);
  drv_recv := log drv_recv option_list [];
  drv_send p fl := log (drv_send p fl) (λ _, []) [p];
  drv_allocate := log drv_allocate (λ _, []) [];
  drv_release p := log (drv_release p) (λ _, []) [];
  rdtsc := log rdtsc (λ _, []) [];
  tsc_mhz l := tsc_mhz (base l);
}.
#[global] Instance logged_laws : NetDriverLaws (Logged D).
Proof.
  refine {| excl l hs := excl (base l) hs; now l := now (base l) |}.
  - intros l hs hs'. apply excl_perm.
  - intros l hs He. destruct (recv_law _ _ He) as (o & d' & E & HH). eexists _, _. cbn [drv_recv logged_driver].
    unfold log. rewrite E. by split.
  - intros l hs p p'. apply excl_fill.
  - intros l hs p fl He Hs. destruct (send_law _ _ _ fl He Hs) as (d' & E & HH). eexists. cbn [drv_send logged_driver].
    unfold log. rewrite E. by split.
  - intros l hs He. destruct (allocate_law _ _ He) as (p & d' & E & HH). eexists _, _. cbn [drv_allocate logged_driver].
    unfold log. rewrite E. by split.
  - intros l hs p He. destruct (release_law _ _ _ He) as (d' & E & HH). eexists. cbn [drv_release logged_driver].
    unfold log. rewrite E. by split.
  - intros l hs He. destruct (rdtsc_law _ _ He) as (t & d' & E & HH). eexists _, _. cbn [rdtsc logged_driver].
    unfold log. rewrite E. by split.
Defined.
(** The calls of [D] take [q] ticks at most. *)
Definition paced (q : Z) : Prop := 0 ≤ q ∧
  (∀ (d d' : D) o, drv_recv d = Ok (o, d') → now d' ≤ now d + q) ∧
  (∀ (d d' : D) p fl, drv_send p fl d = Ok (tt, d') → now d' ≤ now d + q) ∧
  (∀ (d d' : D) p, drv_allocate d = Ok (p, d') → now d' ≤ now d + q) ∧
  (∀ (d d' : D) p, drv_release p d = Ok (tt, d') → now d' ≤ now d + q) ∧
  (∀ (d d' : D) t, rdtsc d = Ok (t, d') → now d' ≤ now d + q).
Lemma log_Ok {A} (m : M D unit A) h w l a l' : log m h w l = Ok (a, l') →
  m (base l) = Ok (a, base l') ∧ heard l' = heard l ++ h a ∧ spoken l' = spoken l ++ w.
Proof. unfold log. destruct (m (base l)) as [[]|[]| |]; try done. by intros [= <- <-]. Qed.
Definition logged_history q (Hq : paced q) : NetHistory (Logged D).
Proof.
  refine {| arrived l := heard l; sent l := spoken l; pace := q |}; destruct Hq as (H0 & H1 & H2 & H3 & H4 & H5); [done|..].
  - intros l hs o l' _ (E & ? & ?)%log_Ok. split; [done|]. split; [done|]. exact (H1 _ _ _ E).
  - intros l hs p fl l' _ _ (E & ? & ?)%log_Ok. split; [done|]. split; [done|]. exact (H2 _ _ _ _ E).
  - intros l hs p l' _ (E & ? & ?)%log_Ok. split; [done|]. split; [done|]. exact (H3 _ _ _ E).
  - intros l hs p l' _ (E & ? & ?)%log_Ok. split; [done|]. split; [done|]. exact (H4 _ _ _ E).
  - intros l hs t l' _ (E & ? & ?)%log_Ok. split; [done|]. split; [done|]. exact (H5 _ _ _ E).
Defined.
End logged.
Lemma script_paced : paced (D:=Script) 1.
Proof.
  split; [done|]. split; [|split; [|split; [|split]]]; intros; cbn in *;
    match goal with H : Ok _ = Ok _ |- _ => injection H as <- <- || injection H as <- end; cbn; lia.
Qed.
#[global] Instance script_history : NetHistory (Logged Script) := logged_history 1 script_paced.

(** A device with one bound port and one datagram for it on the wire. *)
Definition sample_rx : Packet :=
  match udp.datagram (mkNetAddress BROADCAST (IpV4 1) 67 [2;0;0;0;0;1] (IpV4 2) 68) [7] (Packet.new 0) with
  | Ok (_, p) => p
  | _ => Packet.new 0
  end.

Definition sample_device : NetDevice Script :=
  mkNetDevice 0 (mkScript [Packet.new 0] 1 0) [2; 0; 0; 0; 0; 1]
    (Some (mkLease 2 1 None None)) {[ 68 := mkBind [] 0 ]}.
Definition observed {D} (dev : NetDevice D) : NetDevice (Logged D) :=
  mkNetDevice (id dev) (mkLogged (driver dev) [] []) (mac dev) (dhcp_lease dev) (udp_binds dev).

Lemma new_packet_wf n : wf_packet (Packet.new n).
Proof. split; [done| |done]. by apply Forall_replicate. Qed.

Lemma sample_device_inv : inv sample_device [].
Proof.
  split; [|by apply map_Forall_singleton|done].
  split; [constructor; [apply new_packet_wf|constructor]|].
  split; [by apply NoDup_singleton|by constructor].
Qed.
Lemma observed_inv {D} `{NetDriverLaws D} (dev : NetDevice D) hs : inv dev hs → inv (observed dev) hs.
Proof. intros [H1 H2 H3]. by split. Qed.

Lemma recv_timeout_correct_witness :
  runs (Dev.recv_timeout 10 68 5 (λ _ u, Some (udp.payload u))) (observed sample_device)
    (λ r dev', inv dev' [] ∧ kept (observed sample_device) dev' ∧ ∃ ps qs,
       since ps qs 13 (observed sample_device) dev' ∧ answer 68 (λ _ u, Some (udp.payload u)) ps r).
Proof.
  assert (inv (observed sample_device) []) as Hi by apply observed_inv, sample_device_inv.
  exact (recv_timeout_correct (observed sample_device) [] 10 68 5 (λ _ u, Some (udp.payload u)) Hi
    ltac:(done) ltac:(done) ltac:(done) ltac:(done) ltac:(done)).
Defined.

Lemma discard_releases_witness :
  let dev := observed (mkNetDevice 0 (mkScript [] 9 0) [2; 0; 0; 0; 0; 1] None ∅) in
  runs (Dev.discard (Packet.new 5)) dev (λ _ dev', inv dev' [] ∧ kept dev dev' ∧ later 5 dev dev').
Proof.
  apply discard_releases; [|apply new_packet_wf]. apply observed_inv. split; [|by apply map_Forall_empty|done].
  split; [constructor|]. split; [by apply NoDup_singleton|]. constructor; [done|constructor].
Defined.

(** A host at address 7 answers. *)
Definition arp_answer : list Z :=
  [2;0;0;0;0;1; 4;0;0;0;0;7; 8;6; 0;1; 8;0; 6; 4; 0;2; 4;0;0;0;0;7; 0;0;0;7; 2;0;0;0;0;1; 0;0;0;2].
Definition resolving : NetDevice (Logged Script) :=
  observed (mkNetDevice 0 (mkScript [received arp_answer] 1 0) [2; 0; 0; 0; 0; 1] (Some (mkLease 2 1 None None)) ∅).
Example arp_resolves :
  match Dev.arp 10 7 resolving with Ok (r, _) => r = Some [4; 0; 0; 0; 0; 7] | _ => False end.
Proof. vm_compute. done. Qed.

Lemma bind_udp_correct_witness :
  (∃ port next' dev', Dev.bind_udp (Z.to_nat 16384) 49152 sample_device = Ok ((Some port, next'), dev') ∧
    Port.EPHEMERAL_START ≤ port ≤ umax 16 ∧ udp_binds sample_device !! port = None ∧
    udp_binds dev' = <[port := mkBind [] 0]> (udp_binds sample_device)) ∧
  (∀ port b, udp_binds sample_device !! port = Some b →
    Dev.bind_udp_port port sample_device = Ok (None, sample_device)).
Proof. apply (bind_udp_correct sample_device 49152 50000); [done|done|reflexivity]. Defined.

Lemma get_device_least_witness :
  get_device None = None ∧ ∃ c, [3; 1; 2] !! 1%nat = Some c ∧ Forall (λ x, c ≤ x) [3; 1; 2].
Proof. apply get_device_least; [by repeat constructor|reflexivity]. Defined.

(** * Behaviour at the edges *)

(** A datagram reaches the closure of its receiver. *)
Example datagram_received :
  match Dev.recv_udp 68 (λ _ u, Some (udp.payload u))
    (mkNetDevice 0 (mkScript [sample_rx] 1 0) [2; 0; 0; 0; 0; 1] None {[ 68 := mkBind [] 0 ]}) with
  | Ok (r, _) => r = Some [7]
  | _ => False
  end.
Proof. vm_compute. done. Qed.

(** Without a lease [resolve] panics in [arp] before it can return [None]. *)
Example resolve_without_lease :
  Dev.resolve 10 1 2 3 (mkNetDevice 0 (mkScript [] 1 0) [2; 0; 0; 0; 0; 1] None ∅) = Panic.
Proof. reflexivity. Qed.
