(* ===== verification/Dhcp.v ===== *)
(** DHCP: kernel/src/net/protocols/dhcp.rs — the option codec, replies, the
    request packet and the lease handshake over a network device. *)
From Stdlib Require Import ZArith Lia.
From stdpp Require Import prelude list numbers gmap.
From S2P Require Import Prelude Cursor Packet Net NetBuild NetParse NetFormat NetDevice.

Definition DHCP_TIMEOUT : Z := 5000000.
Definition CLIENT_PORT : Z := 68.
Definition SERVER_PORT : Z := 67.
Definition COOKIE : Z := 0x63825363.

(** [u32::from_be] and [to_be] on the little-endian target. *)
Definition swap32 (x : Z) : Z := be_val (le_bytes 4 x).

(** * Messages *)

Inductive MessageType := Discover | Offer | Request | Ack | Unsupported.
#[global] Instance MessageType_eq_dec : EqDecision MessageType.
Proof. solve_decision. Defined.

Definition message_code (t : MessageType) : Z :=
  match t with Discover => 1 | Offer => 2 | Request => 3 | Ack => 5 | Unsupported => 6 end.
Definition message_from (val : Z) : MessageType :=
  if val =? 1 then Discover else if val =? 2 then Offer else if val =? 3 then Request
  else if val =? 5 then Ack else Unsupported.

Inductive DhcpOption :=
| Pad
| SubnetMask (a : Z)
| BroadcastIp (a : Z)
| RequestedIp (a : Z)
| LeaseTime (t : Z)
| MessageTypeOpt (t : MessageType)
| ServerIp (a : Z)
| ParameterRequestList (data : list Z)
| RenewalTime (t : Z)
| Unknown (code : Z) (data : list Z)
| End.
#[global] Instance DhcpOption_eq_dec : EqDecision DhcpOption.
Proof. solve_decision. Defined.

Inductive DhcpOptionId :=
| IdPad | IdSubnetMask | IdBroadcastIp | IdRequestedIp | IdLeaseTime | IdMessageType
| IdServerIp | IdParameterRequestList | IdRenewalTime | IdEnd.

Definition id_code (i : DhcpOptionId) : Z :=
  match i with
  | IdPad => 0 | IdSubnetMask => 1 | IdBroadcastIp => 28 | IdRequestedIp => 50
  | IdLeaseTime => 51 | IdMessageType => 53 | IdServerIp => 54
  | IdParameterRequestList => 55 | IdRenewalTime => 58 | IdEnd => 255
  end.

Definition id_try_from (value : Z) : option DhcpOptionId :=
  if value =? 0 then Some IdPad else if value =? 1 then Some IdSubnetMask
  else if value =? 28 then Some IdBroadcastIp else if value =? 50 then Some IdRequestedIp
  else if value =? 51 then Some IdLeaseTime else if value =? 53 then Some IdMessageType
  else if value =? 54 then Some IdServerIp else if value =? 55 then Some IdParameterRequestList
  else if value =? 58 then Some IdRenewalTime else if value =? 255 then Some IdEnd
  else None.

Module DhcpOption.

(** [payload.try_into::<[u8; 4]>().ok()?], big endian *)
Definition word (payload : list Z) : res unit Z :=
  if (length payload =? 4)%nat then Ok (be_val payload) else Err tt.

(** The payload of a variable-length option. *)
Definition decode (id : option DhcpOptionId) (code : Z) (payload : list Z) : res unit DhcpOption :=
  match id with
  | Some IdSubnetMask => a ← word payload; Ok (SubnetMask a)
  | Some IdBroadcastIp => a ← word payload; Ok (BroadcastIp a)
  | Some IdRequestedIp => a ← word payload; Ok (RequestedIp a)
  | Some IdLeaseTime => t ← word payload; Ok (LeaseTime t)
  | Some IdMessageType =>
      byte ← ok_or (head payload) tt; Ok (MessageTypeOpt (message_from byte))
  | Some IdServerIp => a ← word payload; Ok (ServerIp a)
  | Some IdParameterRequestList => Ok (ParameterRequestList payload)
  | Some IdRenewalTime => t ← word payload; Ok (RenewalTime t)
  | Some IdPad | Some IdEnd => Panic (* unreachable!() *)
  | None => Ok (Unknown code payload)
  end.

(** The option and the rest of the message; [Err] is the [None] of the source. *)
Definition parse (ptr : list Z) : res unit (DhcpOption * list Z) :=
  code ← ok_or (head ptr) tt;
  match id_try_from code with
  | Some IdPad => rest ← slice ptr 1 (zlen ptr); Ok (Pad, rest)
  | Some IdEnd => rest ← slice ptr 1 (zlen ptr); Ok (End, rest)
  | id =>
      len ← ok_or (ptr !! 1%nat) tt;
      payload ← ok_or (get_range ptr 2 (2 + len)) tt;
      option ← decode id code payload;
      rest ← slice ptr (2 + len) (zlen ptr);
      Ok (option, rest)
  end.

Definition push_u32_option (buffer : list Z) (code : DhcpOptionId) (value : Z) : list Z :=
  buffer ++ [id_code code] ++ [4] ++ be_bytes 4 value.

(** Append the option to [buffer]. *)
Definition serialize (self : DhcpOption) (buffer : list Z) : list Z :=
  match self with
  | Pad => buffer ++ [id_code IdPad]
  | End => buffer ++ [id_code IdEnd]
  | SubnetMask addr => push_u32_option buffer IdSubnetMask addr
  | BroadcastIp addr => push_u32_option buffer IdBroadcastIp addr
  | RequestedIp addr => push_u32_option buffer IdRequestedIp addr
  | ServerIp addr => push_u32_option buffer IdServerIp addr
  | LeaseTime time => push_u32_option buffer IdLeaseTime time
  | RenewalTime time => push_u32_option buffer IdRenewalTime time
  | MessageTypeOpt typ => buffer ++ [id_code IdMessageType; 1; message_code typ]
  | ParameterRequestList data =>
      buffer ++ [id_code IdParameterRequestList; cast 8 (zlen data)] ++ data
  | Unknown code data => buffer ++ [code; cast 8 (zlen data)] ++ data
  end.

End DhcpOption.

Module DhcpOptionsBuilder.
Definition new : list Z := [].
Definition add (self : list Z) (option : DhcpOption) : list Z := DhcpOption.serialize option self.
Definition end_ (self : list Z) : list Z := DhcpOption.serialize End self.
End DhcpOptionsBuilder.

(** * The header *)

(** The multi-byte fields are as the little-endian target reads them from the
    packed struct; [sname] and [file] are opaque bytes. *)
Record Header := mkHeader {
  op : Z; htype : Z; hlen : Z; hops : Z; xid : Z; secs : Z; flags : Z;
  ciaddr : Z; yiaddr : Z; siaddr : Z; giaddr : Z; chaddr : list Z; sname : list Z;
  file : list Z; cookie : Z }.

Definition HEADER_SIZE : nat := 240.

(** [sub l i n]: the [n] bytes at offset [i] of the struct. *)
Definition sub_bytes (l : list Z) (i n : nat) : list Z := take n (drop i l).

(** The cast of the header bytes to the struct. *)
Definition cast_header (l : list Z) : Header :=
  let f i n := le_val (sub_bytes l i n) in
  mkHeader (f 0%nat 1%nat) (f 1%nat 1%nat) (f 2%nat 1%nat) (f 3%nat 1%nat) (f 4%nat 4%nat)
    (f 8%nat 2%nat) (f 10%nat 2%nat) (f 12%nat 4%nat) (f 16%nat 4%nat) (f 20%nat 4%nat)
    (f 24%nat 4%nat) (sub_bytes l 28 16) (sub_bytes l 44 64) (sub_bytes l 108 128)
    (f 236%nat 4%nat).

Definition OP_REQUEST : Z := 1.
Definition OP_REPLY : Z := 2.
Definition HW_ETHERNET : Z := 1.
Definition HLEN_ETHERNET : Z := 6.

(** The loop over the options stops at the first one that does not parse. *)
Fixpoint parse_options (fuel : nat) (raw : list Z) (options : list DhcpOption)
    : res unit (list DhcpOption) :=
  match fuel with
  | O => Diverge
  | S fuel =>
      match raw with
      | [] => Ok options
      | _ =>
          match DhcpOption.parse raw with
          | Ok (o, raw) => parse_options fuel raw (options ++ [o])
          | Err _ => Ok options
          | Panic => Panic
          | Diverge => Diverge
          end
      end
  end.

Definition parse_dhcp_reply (payload : list Z) (x : Z) : res unit (Header * list DhcpOption) :=
  header_bytes ← ok_or (get_range payload 0 (Z.of_nat HEADER_SIZE)) tt;
  raw_options ← ok_or (get_from payload (Z.of_nat HEADER_SIZE)) tt;
  let header := cast_header header_bytes in
  if negb (swap32 (xid header) =? x) then Err tt else
  if negb (op header =? OP_REPLY) || negb (htype header =? HW_ETHERNET)
     || negb (hlen header =? HLEN_ETHERNET) || negb (swap32 (cookie header) =? COOKIE)
  then Err tt else
  options ← parse_options (S (length raw_options)) raw_options [];
  Ok (header, options).

(** * Requests *)

(** The fields filled into the header struct that was just written as zeros. *)
Definition fill_header (hdr : Slice) (x : Z) (m : Mac) : M Packet unit unit :=
  _ ← write_hdr hdr 0 [OP_REQUEST];
  _ ← write_hdr hdr 1 [HW_ETHERNET];
  _ ← write_hdr hdr 2 [HLEN_ETHERNET];
  _ ← write_hdr hdr 4 (le_bytes 4 (swap32 x));
  _ ← write_hdr hdr 28 m;
  write_hdr hdr 236 (le_bytes 4 (swap32 COOKIE)).

(** A write whose [Option] is dropped. *)
Definition write_or_skip (b : udp.Builder) (buf : list Z) : M Packet unit udp.Builder := λ p,
  match udp.write b buf p with
  | Ok ((b', _), p') => Ok (b', p')
  | Err (_, p') => Ok (b, p')
  | Panic => Panic
  | Diverge => Diverge
  end.

Definition dhcp_address (m : Mac) : NetAddress :=
  mkNetAddress m (IpV4 0) CLIENT_PORT BROADCAST (IpV4 (umax 32)) SERVER_PORT.

Definition create_dhcp_request (x : Z) (m : Mac) (options : list Z) : M Packet unit unit :=
  builder ← udp.create_udp (dhcp_address m);
  builder ← write_or_skip builder (replicate HEADER_SIZE 0);
  (* builder.payload.get_mut(), seen as the header *)
  _ ← fill_header (mkSlice (off (inner (udp.b_payload builder)))
                           (Z.to_nat (pos (udp.b_payload builder)))) x m;
  builder ← write_or_skip builder options;
  udp.finalize builder.

(** * The handshake *)

Definition to_option {A} (r : res unit A) : option A := match r with Ok a => Some a | _ => None end.

Definition for_us (m : Mac) (u : udp.Parsed) : bool :=
  let dst := eth.dst_mac (ip.parsed_eth (udp.ip u)) in
  bool_decide (dst = m) || bool_decide (dst = BROADCAST).

Fixpoint find_map {A B} (f : A → option B) (l : list A) : option B :=
  match l with
  | [] => None
  | a :: l => match f a with Some b => Some b | None => find_map f l end
  end.
Definition has_option (o : DhcpOption) (l : list DhcpOption) : bool := bool_decide (o ∈ l).

(** What the two receive closures save: the offered address and the server; the
    broadcast address and the subnet mask. *)
Definition offer_of (m : Mac) (x : Z) (_ : Packet) (u : udp.Parsed) : option (Z * option Z) :=
  if negb (for_us m u) then None else
  '(header, options) ← to_option (parse_dhcp_reply (udp.payload u) x);
  if negb (has_option (MessageTypeOpt Offer) options) then None else
  Some (swap32 (yiaddr header),
        find_map (λ o, match o with ServerIp a => Some a | _ => None end) options).

Definition ack_of (m : Mac) (x : Z) (_ : Packet) (u : udp.Parsed) : option (option Z * option Z) :=
  if negb (for_us m u) then None else
  '(_, options) ← to_option (parse_dhcp_reply (udp.payload u) x);
  if negb (has_option (MessageTypeOpt Ack) options) then None else
  Some (find_map (λ o, match o with BroadcastIp a => Some a | _ => None end) options,
        find_map (λ o, match o with SubnetMask a => Some a | _ => None end) options).

Definition request_options (t : MessageType) (extra : list DhcpOption) : list Z :=
  let opts := DhcpOptionsBuilder.new in
  let opts := DhcpOptionsBuilder.add opts (MessageTypeOpt t) in
  let opts := DhcpOptionsBuilder.add opts (ParameterRequestList
    [id_code IdMessageType; id_code IdServerIp; id_code IdBroadcastIp; id_code IdSubnetMask]) in
  DhcpOptionsBuilder.end_ (fold_left DhcpOptionsBuilder.add extra opts).

Section lease.
Context {D : Type} `{NetDriver D}.
Abbreviation St := (NetDevice D).

Definition send_dhcp_request (x : Z) (m : Mac) (t : MessageType) (extra : list DhcpOption)
    : M St unit unit :=
  packet ← Dev.allocate_packet;
  '(_, packet) ← Dev.on_packet packet (create_dhcp_request x m (request_options t extra));
  Dev.send packet true.

(** Between the bind and its drop. *)
Definition handshake (fuel : nat) (x : Z) (m : Mac) : M St unit (option Lease) :=
  _ ← send_dhcp_request x m Discover [];
  r ← Dev.recv_timeout fuel CLIENT_PORT DHCP_TIMEOUT (offer_of m x);
  match r with
  | Some (offered_ip, Some server_ip) =>
      _ ← send_dhcp_request x m Request [RequestedIp offered_ip; ServerIp server_ip];
      r ← Dev.recv_timeout fuel CLIENT_PORT DHCP_TIMEOUT (ack_of m x);
      match r with
      | Some (broadcast_ip, subnet_mask) =>
          mret (Some (mkLease offered_ip server_ip broadcast_ip subnet_mask))
      | None => mret None
      end
  | _ => mret None
  end.

Definition get_lease (fuel : nat) : M St unit (option Lease) :=
  t ← Dev.drv rdtsc;
  dev ← get;
  b ← Dev.bind_udp_port CLIENT_PORT;
  match b with
  | None => mret None
  | Some port =>
      r ← handshake fuel (cast 32 t) (mac dev);
      _ ← Dev.unbind_udp port;
      mret r
  end.

End lease.

(** * The option codec *)
Section codec.
Implicit Types (l rest : list Z) (o : DhcpOption).

Definition wf_option (o : DhcpOption) : Prop :=
  match o with
  | Pad | End | MessageTypeOpt _ => True
  | SubnetMask a | BroadcastIp a | RequestedIp a | ServerIp a => u32 a
  | LeaseTime t | RenewalTime t => u32 t
  | ParameterRequestList data => zlen data ≤ 255
  | Unknown code data => id_try_from code = None ∧ zlen data ≤ 255
  end.

Lemma serialize_app o buffer : DhcpOption.serialize o buffer = buffer ++ DhcpOption.serialize o [].
Proof. by destruct o. Qed.

Lemma slice_tail {E} l x y a : l = x ++ y → zlen x = a → slice (E:=E) l a (zlen l) = Ok y.
Proof.
  intros -> <-. apply (slice_app _ x y []); [by rewrite app_nil_r|done|].
  unfold zlen. rewrite length_app. lia.
Qed.

Lemma message_from_code t : message_from (message_code t) = t.
Proof. by destruct t. Qed.

Lemma word_be a : u32 a → DhcpOption.word (be_bytes 4 a) = Ok a.
Proof.
  intros H. unfold DhcpOption.word. rewrite length_be_bytes. simpl Nat.eqb. cbv iota.
  by rewrite be_val_bytes.
Qed.

(** A variable-length option: code, length, payload. *)
Definition single_byte (id : option DhcpOptionId) : bool :=
  match id with Some IdPad | Some IdEnd => true | _ => false end.

Lemma parse_variable code n payload rest :
  single_byte (id_try_from code) = false → zlen payload = n →
  DhcpOption.parse (code :: n :: payload ++ rest)
  = (option ← DhcpOption.decode (id_try_from code) code payload; Ok (option, rest)).
Proof.
  intros Hid Hn. unfold DhcpOption.parse. cbn [head ok_or mbind res_bind].
  set (l := code :: n :: payload ++ rest).
  assert (l !! 1%nat = Some n) as -> by done.
  assert (get_range l 2 (2 + n) = Some payload) as Hp
    by (apply (get_range_eq _ [code; n] payload rest); [done|done|lia]).
  assert (slice (E:=unit) l (2 + n) (zlen l) = Ok rest) as Hs.
  { apply (slice_tail _ ([code; n] ++ payload)); [done|]. unfold zlen in *. rewrite length_app. simpl. lia. }
  destruct (id_try_from code) as [[]|]; try done; cbn [ok_or mbind res_bind]; rewrite Hp; cbn [ok_or mbind res_bind];
    (destruct (DhcpOption.decode _ code payload); cbn [mbind res_bind]; [by rewrite Hs|done..]).
Qed.

Lemma cast8_len {A} (d : list A) : zlen d ≤ 255 → cast 8 (zlen d) = zlen d.
Proof. intros H. unfold cast. apply Z.mod_small. unfold zlen in *. lia. Qed.

Lemma parse_serialize o rest :
  wf_option o → DhcpOption.parse (DhcpOption.serialize o [] ++ rest) = Ok (o, rest).
Proof.
  intros Hwf. destruct o as [|a|a|a|t|t|a|d|t|c d|]; simpl in Hwf.
  1: unfold DhcpOption.parse; simpl; by rewrite (slice_tail _ [0] rest).
  10: unfold DhcpOption.parse; simpl; by rewrite (slice_tail _ [255] rest).
  all: unfold DhcpOption.serialize, DhcpOption.push_u32_option; cbn [app]; rewrite <-?app_comm_cons.
  1, 2, 3, 4, 6, 8: rewrite parse_variable by done; cbn -[DhcpOption.word be_bytes];
    by rewrite word_be.
  - change (message_code t :: rest) with ([message_code t] ++ rest).
    rewrite parse_variable by done. simpl. by rewrite message_from_code.
  - rewrite cast8_len by done. by rewrite parse_variable by done.
  - destruct Hwf as [Hid Hlen]. rewrite cast8_len by done.
    rewrite parse_variable; [|by rewrite Hid|done]. by rewrite Hid.
Qed.

Lemma serialize_nonempty o : DhcpOption.serialize o [] ≠ [].
Proof. by destruct o. Qed.

(** The bytes of a list of options. *)
Definition serialize_all (opts : list DhcpOption) : list Z :=
  fold_left DhcpOptionsBuilder.add opts DhcpOptionsBuilder.new.

Lemma fold_add_app opts buffer :
  fold_left DhcpOptionsBuilder.add opts buffer = buffer ++ serialize_all opts.
Proof.
  unfold serialize_all. revert buffer. induction opts as [|o opts IH]; intros buffer; simpl.
  - by rewrite app_nil_r.
  - rewrite IH, (IH (DhcpOptionsBuilder.add _ _)). unfold DhcpOptionsBuilder.add.
    rewrite serialize_app. by rewrite <-app_assoc.
Qed.

Lemma parse_options_serialize opts fuel acc :
  Forall wf_option opts → (length (serialize_all opts) < fuel)%nat →
  parse_options fuel (serialize_all opts) acc = Ok (acc ++ opts).
Proof.
  revert fuel acc. induction opts as [|o opts IH]; intros fuel acc Hwf Hf.
  - destruct fuel; [lia|]. simpl. by rewrite app_nil_r.
  - apply Forall_cons in Hwf as [Ho Hwf].
    assert (serialize_all (o :: opts) = DhcpOption.serialize o [] ++ serialize_all opts) as E
      by (unfold serialize_all at 1; simpl; by rewrite fold_add_app).
    rewrite E in *. rewrite length_app in Hf. destruct fuel as [|fuel]; [lia|].
    pose proof (serialize_nonempty o). cbn [parse_options].
    destruct (DhcpOption.serialize o [] ++ serialize_all opts) eqn:Es;
      [by apply app_eq_nil in Es as [? _]|].
    rewrite <-Es, parse_serialize by done. cbv iota beta.
    destruct (DhcpOption.serialize o []); [done|]. simpl in Hf.
    rewrite IH by (done || lia). by rewrite <-app_assoc.
Qed.

(** A parsed option uses up bytes, so the loop over options ends. *)
Lemma parse_safe l :
  bytes_ok l → safe (λ r, (length r.2 < length l)%nat ∧ bytes_ok r.2) (DhcpOption.parse l).
Proof.
  intros Hok. unfold DhcpOption.parse. eapply safe_bind; [by apply safe_ok_or; intros c Hc; exact Hc|].
  intros code Hc. destruct l as [|b l]; [done|]. injection Hc as <-.
  set (l0 := b :: l) in *.
  assert (∀ o a, 1 ≤ a ≤ zlen l0 →
    safe (E:=unit) (λ r, (length r.2 < length l0)%nat ∧ bytes_ok r.2)
      (rest ← slice l0 a (zlen l0); Ok (o : DhcpOption, rest))) as Hrest.
  { intros o a Ha. eapply safe_bind; [apply safe_slice_part; lia|]. intros r [Hr Hp]. cbn [safe snd].
    split; [unfold zlen in *; lia|]. by eapply part_Forall. }
  assert (1 ≤ zlen l0) by (unfold zlen, l0; simpl; lia).
  destruct (id_try_from b) as [id|] eqn:Eid.
  1: destruct id; try (apply Hrest; lia).
  all: (eapply safe_bind; [apply safe_ok_or; intros n Hn; exact Hn|]; intros n Hn;
    eapply safe_bind; [apply safe_ok_or; intros q Hq; exact Hq|]; intros q Hq;
    destruct (get_range_Some _ _ _ _ Hq) as (x & y & Hxy & Hx & Hz);
    assert (2 + n ≤ zlen l0) by (rewrite Hxy; unfold zlen in *; rewrite !length_app; lia);
    assert (0 ≤ n) by (unfold zlen in *; lia);
    eapply (safe_bind (λ _, True)); [|intros o _; apply Hrest; lia]).
  all: cbn [DhcpOption.decode]; unfold DhcpOption.word; try done.
  all: try (destruct (_ =? _)%nat; done). by destruct q.
Qed.

Lemma parse_options_safe fuel l acc :
  bytes_ok l → (length l < fuel)%nat → safe (λ _, True) (parse_options fuel l acc).
Proof.
  revert l acc. induction fuel as [|fuel IH]; intros l acc Hok Hf; [lia|]. cbn [parse_options].
  destruct l as [|b l]; [done|]. pose proof (parse_safe _ Hok) as Hs.
  destruct (DhcpOption.parse (b :: l)) as [[o r]| | |]; try done.
  destruct Hs as [Hl Hr]. simpl in *. apply IH; [done|lia].
Qed.
End codec.

(** * The request packet *)
Section request.
Implicit Types (p : Packet) (c : Cursor) (w : list Z).

(** The 240 header bytes of a request. *)
Definition request_header (x : Z) (m : Mac) : list Z :=
  [OP_REQUEST; HW_ETHERNET; HLEN_ETHERNET; 0] ++ be_bytes 4 x ++ replicate 20 0 ++ m
  ++ replicate 202 0 ++ be_bytes 4 COOKIE.

Lemma le_swap32 x : le_bytes 4 (swap32 x) = be_bytes 4 x.
Proof.
  unfold swap32, be_val, be_bytes.
  rewrite <-(le_bytes_val (reverse (le_bytes 4 x))) at 2 by (apply Forall_reverse, le_bytes_ok).
  by rewrite length_reverse, length_le_bytes.
Qed.

(** Writing the struct field at offset [length a] of the header window. *)
Lemma field_written o p c w a b d src n :
  written o p c (w ++ a ++ b ++ d) → length b = length src → (length (a ++ b) ≤ n)%nat →
  ∃ p', write_hdr (mkSlice (length w) n) (zlen a) src p = Ok (tt, p') ∧
        written o p' c (w ++ a ++ src ++ d).
Proof.
  intros H Hb Hn. rewrite length_app in Hn.
  destruct (hdr_written _ _ _ _ (w ++ a) b d src (mkSlice (length w) n) (zlen a) H)
    as (p' & E & H'); [by rewrite <-app_assoc|done|..].
  - rewrite length_app. cbn [off]. unfold zlen. lia.
  - unfold zlen. lia.
  - cbn [slen]. unfold zlen. lia.
  - exists p'. split; [done|]. by rewrite <-app_assoc in H'.
Qed.

Lemma fill_header_ok o p c w x m rest :
  written o p c (w ++ replicate HEADER_SIZE 0 ++ rest) → length m = 6%nat →
  ∃ p', fill_header (mkSlice (length w) HEADER_SIZE) x m p = Ok (tt, p') ∧
        written o p' c (w ++ request_header x m ++ rest).
Proof.
  intros H Hm. unfold fill_header. rewrite !le_swap32.
  assert (∀ a b d src p0 i, written o p0 c (w ++ a ++ b ++ d) → length b = length src →
    (length (a ++ b) <=? HEADER_SIZE)%nat = true → zlen a = i →
    ∃ p', write_hdr (mkSlice (length w) HEADER_SIZE) i src p0 = Ok (tt, p') ∧
          written o p' c (w ++ a ++ src ++ d)) as step
    by (intros a b d src p0 i H0 Hb Hn%Nat.leb_le <-; by apply field_written with (b := b)).
  destruct (step [] [0] (replicate 239 0 ++ rest) [OP_REQUEST] p 0 H) as (p1 & E1 & H1); [done..|].
  rewrite (M_bind_Ok _ _ _ _ _ E1).
  destruct (step [OP_REQUEST] [0] (replicate 238 0 ++ rest) [HW_ETHERNET] p1 1 H1)
    as (p2 & E2 & H2); [done..|]. rewrite (M_bind_Ok _ _ _ _ _ E2).
  destruct (step [OP_REQUEST; HW_ETHERNET] [0] (replicate 237 0 ++ rest) [HLEN_ETHERNET] p2 2 H2)
    as (p3 & E3 & H3); [done..|]. rewrite (M_bind_Ok _ _ _ _ _ E3).
  destruct (step [OP_REQUEST; HW_ETHERNET; HLEN_ETHERNET; 0] (replicate 4 0)
    (replicate 232 0 ++ rest) (be_bytes 4 x) p3 4 H3) as (p4 & E4 & H4); [done..|].
  rewrite (M_bind_Ok _ _ _ _ _ E4).
  destruct (step ([OP_REQUEST; HW_ETHERNET; HLEN_ETHERNET; 0] ++ be_bytes 4 x ++ replicate 20 0)
    (replicate 6 0) (replicate 206 0 ++ rest) m p4 28 H4) as (p5 & E5 & H5); [done..|].
  rewrite (M_bind_Ok _ _ _ _ _ E5).
  destruct (step ([OP_REQUEST; HW_ETHERNET; HLEN_ETHERNET; 0] ++ be_bytes 4 x ++ replicate 20 0
    ++ m ++ replicate 202 0) (replicate 4 0) rest (be_bytes 4 COOKIE) p5 236)
    as (p6 & E6 & H6).
  - rewrite <-!app_assoc in H5. rewrite <-!app_assoc. exact H5.
  - done.
  - by rewrite !length_app, Hm.
  - unfold zlen. rewrite !length_app, Hm. done.
  - exists p6. split; [done|]. unfold request_header. rewrite <-!app_assoc in H6. rewrite <-!app_assoc. exact H6.
Qed.

Lemma write_or_skip_ok U o p c w data :
  written o p c w → zlen w + zlen data ≤ Packet.MAX_PACKET_LEN → udp.b_payload U = c →
  ∃ p' c', write_or_skip U data p =
    Ok (udp.mkBuilder (udp.b_ip U) (udp.b_hdr U) c' (udp.fill_len U) (udp.fill_crc U), p') ∧
    written o p' c' (w ++ data).
Proof.
  intros H Hf Hc. destruct (udp_write_ok U o p c w data H Hf Hc) as (p' & c' & r & E & H').
  exists p', c'. unfold write_or_skip. by rewrite E.
Qed.

(** The bytes of a DHCP request: a UDP datagram from 0.0.0.0:68 to
    255.255.255.255:67 with the filled header and the options. *)
Lemma create_dhcp_request_ok p x m options :
  length (buffer p) = Packet.BUF_LEN → len p = 0 → length m = 6%nat → zlen options ≤ 1232 →
  ∃ p', create_dhcp_request x m options p = Ok (tt, p') ∧
    holds p' (frame_v4 m BROADCAST 0 (umax 32) CLIENT_PORT SERVER_PORT
                (request_header x m ++ options)).
Proof.
  intros Hb Hl Hm Hn. unfold create_dhcp_request, dhcp_address.
  destruct (create_udp_v4 p m BROADCAST 0 (umax 32) CLIENT_PORT SERVER_PORT) as (p1 & c1 & E1 & H1);
    [done..|]. rewrite (M_bind_Ok _ _ _ _ _ E1). set (W := _ ++ udp_header _ _ _ _) in H1.
  assert (length W = 42%nat) as HW
    by (unfold W, eth_header; rewrite !length_app, Hm; done).
  destruct (write_or_skip_ok (v4_builder 0 (umax 32) c1) _ _ _ _ (replicate HEADER_SIZE 0) H1)
    as (p2 & c2 & E2 & H2); [unfold zlen; rewrite HW; done|done|].
  rewrite (M_bind_Ok _ _ _ _ _ E2). cbn [udp.b_payload].
  assert (mkSlice (off (inner c2)) (Z.to_nat (pos c2)) = mkSlice (length W) HEADER_SIZE) as ->.
  { destruct H2 as [_ _ _ _ _ ->]. cbn [inner off pos]. unfold zlen. rewrite length_app, HW. done. }
  rewrite <-(app_nil_r (replicate HEADER_SIZE 0)) in H2.
  destruct (fill_header_ok _ _ _ _ x m [] H2 Hm) as (p3 & E3 & H3).
  rewrite (M_bind_Ok _ _ _ _ _ E3), app_nil_r in *.
  assert (length (request_header x m) = 240%nat) as HR
    by (unfold request_header; rewrite !length_app, Hm; done).
  destruct (write_or_skip_ok (v4_builder 0 (umax 32) c2) _ _ _ _ options H3)
    as (p4 & c4 & E4 & H4);
    [unfold zlen in *; rewrite length_app, HW, HR; unfold Packet.MAX_PACKET_LEN; lia|done|].
  rewrite (M_bind_Ok _ _ _ _ _ E4).
  rewrite <-app_assoc in H4. apply finalize_datagram_v4; done.
Qed.
End request.

Lemma dhcp_request_parses p' x m options :
  length m = 6%nat → zlen options ≤ 1232 → 
  holds p' (frame_v4 m BROADCAST 0 (umax 32) CLIENT_PORT SERVER_PORT (request_header x m ++ options)) →
  ∃ u, udp.parse_udp p' = Ok u ∧ is_datagram (dhcp_address m) (request_header x m ++ options) u.
Proof.
  intros Hm Hn Hp'. pose proof (h_len _ _ Hp') as Hlen. pose proof (h_max _ _ Hp') as Hmax.
  assert (zlen (request_header x m ++ options) = 240 + zlen options) as Hz
    by (unfold zlen, request_header; rewrite !length_app, Hm; simpl; lia).
  assert (0 ≤ zlen options) by (unfold zlen; lia).
  eexists. split.
  { unfold frame_v4 in Hp'.
    pose proof (parse_ipv4_frame p' BROADCAST m (8 + zlen (request_header x m ++ options)) _ 0
      (umax 32) _ _ Hp') as Ep.
    eapply parse_udp_body; [rewrite Ep by (done || lia || lens); reflexivity|done..|lia]. }
  by repeat split.
Qed.
(** A pair of calls and what follows it *)
Lemma bind_then {S E A B C} (a : M S E A) (b : M S E B) (k : B → M S E C) s r s' :
  (_ ← a; b) s = Ok (r, s') → (_ ← a; x ← b; k x) s = k r s'.
Proof. unfold mbind, M_bind. destruct (a s) as [[x s1]| | |]; try done. by intros ->. Qed.

(** * The handshake over a lawful driver *)
Section handshake.
Context {D : Type} `{Hdrv : NetDriver D} {Hlaws : NetDriverLaws D} {Hhist : NetHistory D}.
Abbreviation St := (NetDevice D).
Implicit Types (dev : St) (hs ps qs : list Packet) (p : Packet) (pl : list Z).

Lemma create_dhcp_keeps x m options : keeps (create_dhcp_request x m options).
Proof.
  assert (∀ U buf, keeps (write_or_skip U buf)) as Hw.
  { intros U buf p. pose proof (udp_write_keeps U buf p) as H. unfold write_or_skip.
    by destruct (udp.write U buf p) as [[[] ?]|[]| |]. }
  pose proof create_udp_keeps. pose proof udp_finalize_keeps.
  unfold create_dhcp_request, fill_header. keep.
Qed.

Lemma request_options_len t extra :
  zlen (request_options t extra) = 10 + zlen (serialize_all extra).
Proof.
  unfold request_options, DhcpOptionsBuilder.end_. rewrite fold_add_app, serialize_app.
  unfold zlen. rewrite !length_app. simpl. lia.
Qed.

(** A message of ours: a broadcast from 0.0.0.0, port 68, to port 67, with the transaction id,
    our hardware address, its type and [extra] options *)
Definition asked (m : Mac) (x : Z) (t : MessageType) (extra : list DhcpOption) p : Prop :=
  ∃ u, udp.parse_udp p = Ok u ∧
    is_datagram (mkNetAddress m (IpV4 0) 68 (replicate 6 255) (IpV4 0xFFFFFFFF) 67)
      ([1; 1; 6; 0] ++ be_bytes 4 x ++ replicate 20 0 ++ m ++ replicate 202 0 ++ [0x63; 0x82; 0x53; 0x63] ++ request_options t extra) u.

Lemma dhcp_request_asks p x m t extra :
  blank p → length m = 6%nat → zlen (serialize_all extra) ≤ 1000 →
  ∃ a p', create_dhcp_request x m (request_options t extra) p = Ok (a, p') ∧ sendable p' ∧ paddr p' = paddr p ∧ asked m x t extra p'.
Proof.
  intros [Hb Hl] Hm Hx. assert (zlen (request_options t extra) ≤ 1232) as Hn by (rewrite request_options_len; lia).
  destruct (create_dhcp_request_ok p x m _ Hb Hl Hm Hn) as (p' & E & Hp'). exists tt, p'. split; [done|].
  split; [by eapply holds_sendable|]. split.
  - pose proof (create_dhcp_keeps x m (request_options t extra) p) as Hk. by rewrite E in Hk.
  - destruct (dhcp_request_parses p' x m _ Hm Hn Hp') as (u & Hu & Hd). exists u. split; [done|].
    unfold request_header in Hd. rewrite <-!app_assoc in Hd. exact Hd.
Qed.

Lemma runs_send_dhcp dev hs x t extra :
  inv dev hs → zlen (serialize_all extra) ≤ 1000 →
  runs (send_dhcp_request x (mac dev) t extra) dev (λ _ dev', inv dev' hs ∧ kept dev dev' ∧
    ∃ q, asked (mac dev) x t extra q ∧ since [] [q] (now (driver dev) + 2 * pace) dev dev').
Proof.
  intros Hi Hx. apply (runs_send_built dev hs _ (asked (mac dev) x t extra)); [done|]. intros p Hp.
  by apply dhcp_request_asks; [|apply Hi|].
Qed.

(** A reply in a datagram for the client port, to our hardware address or to all: a BOOTREPLY
    for Ethernet with the transaction id and the cookie at their places, and a type *)
Definition dhcp_reply (m : Mac) (x : Z) (t : MessageType) pl (opts : list DhcpOption) p : Prop :=
  ∃ u, udp.parse_udp p = Ok u ∧ udp.payload u = pl ∧ udp.dst_port u = 68 ∧
    (eth.dst_mac (ip.parsed_eth (udp.ip u)) = m ∨ eth.dst_mac (ip.parsed_eth (udp.ip u)) = replicate 6 255) ∧
    240 ≤ zlen pl ∧ word pl 0 1 = 2 ∧ word pl 1 1 = 1 ∧ word pl 2 1 = 6 ∧ word pl 4 4 = x ∧ word pl 236 4 = 0x63825363 ∧
    parse_options (S (length (drop 240 pl))) (drop 240 pl) [] = Ok opts ∧ MessageTypeOpt t ∈ opts.

(** What a lease rests on, in the packets [ps] that arrived and [qs] that were sent: we asked
    for an offer, one arrived, we asked for what it offers, and that was acknowledged. *)
Definition leased (m : Mac) (x : Z) ps qs (l : Lease) : Prop :=
  ∃ ps1 ps2 d qs1 r qs2, ps = ps1 ++ ps2 ∧ qs = d :: qs1 ++ r :: qs2 ∧
  asked m x Discover [] d ∧
  (∃ p pl opts, p ∈ ps1 ∧ dhcp_reply m x Offer pl opts p ∧ client_ip l = word pl 16 4 ∧ ServerIp (server_ip l) ∈ opts) ∧
  asked m x Request [RequestedIp (client_ip l); ServerIp (server_ip l)] r ∧
  (∃ p pl opts, p ∈ ps2 ∧ dhcp_reply m x Ack pl opts p ∧
     (∀ a, broadcast_ip l = Some a → BroadcastIp a ∈ opts) ∧
     (∀ a, subnet_mask l = Some a → SubnetMask a ∈ opts)).

Lemma swap_le_val l : bytes_ok l → length l = 4%nat → swap32 (le_val l) = be_val l.
Proof. intros Hl Hn. unfold swap32. rewrite <-Hn at 1. by rewrite le_bytes_val. Qed.
Lemma le_val_one l : length l = 1%nat → le_val l = be_val l.
Proof. by destruct l as [|a [|b l]]. Qed.

(** The fields of an accepted reply *)
Lemma reply_fields pl x h opts : bytes_ok pl → parse_dhcp_reply pl x = Ok (h, opts) →
  240 ≤ zlen pl ∧ word pl 0 1 = 2 ∧ word pl 1 1 = 1 ∧ word pl 2 1 = 6 ∧ word pl 4 4 = x ∧ word pl 236 4 = 0x63825363 ∧
  swap32 (yiaddr h) = word pl 16 4 ∧ parse_options (S (length (drop 240 pl))) (drop 240 pl) [] = Ok opts.
Proof.
  intros Hok. unfold parse_dhcp_reply. change (Z.of_nat HEADER_SIZE) with 240.
  destruct (Z.lt_ge_cases (zlen pl) 240) as [Hl|Hl]; [by rewrite range_out|]. unfold get_from.
  rewrite !range_in by lia. cbn [ok_or mbind res_bind]. change (240 - 0) with 240.
  assert (∀ i n : nat, Z.of_nat i + Z.of_nat n ≤ 240 →
    sub_bytes (bytes_at pl 0 240) i n = bytes_at pl (Z.of_nat i) (Z.of_nat n)) as Hsub.
  { intros i n Hin. rewrite <-(Z.add_0_l (Z.of_nat i)). rewrite <-at_at with (n := 240) by lia.
    unfold sub_bytes, bytes_at at 2. by rewrite !Nat2Z.id. }
  assert (∀ o n, bytes_ok (bytes_at pl o n)) as Hb by (intros; by apply Forall_take, Forall_drop).
  assert (bytes_at pl 240 (zlen pl - 240) = drop 240 pl) as ->
    by (unfold bytes_at; apply take_ge; rewrite length_drop; unfold zlen; lia).
  unfold cast_header. cbn [xid op htype hlen cookie]. rewrite !Hsub by lia.
  rewrite !(le_val_one (bytes_at pl _ (Z.of_nat 1))) by (rewrite length_at by lia; done).
  rewrite !(swap_le_val (bytes_at pl _ (Z.of_nat 4))) by (done || (rewrite length_at by lia; done)).
  match goal with |- context [if negb (?a =? x) then _ else _] => destruct (Z.eqb_spec a x) as [Hx|]; [|done] end. cbn [negb].
  destruct (_ || _) eqn:Eb; [done|]. rewrite !orb_false_iff, !negb_false_iff, !Z.eqb_eq in Eb. destruct Eb as (((H2 & H3) & H4) & H5).
  destruct (parse_options _ _ _) as [o| | |] eqn:Eo; try done. cbn [mbind res_bind]. intros [= <- <-].
  split; [lia|]. split; [exact H2|]. split; [exact H3|]. split; [exact H4|]. split; [exact Hx|]. split; [exact H5|]. split; [|done].
  cbn [yiaddr]. rewrite swap_le_val; [done|done|by rewrite length_at by lia].
Qed.

Lemma find_map_Some {A B} (f : A → option B) (l : list A) b :
  find_map f l = Some b → ∃ a, a ∈ l ∧ f a = Some b.
Proof.
  induction l as [|a l IH]; [done|]. simpl. destruct (f a) eqn:E.
  - intros [= <-]. exists a. split; [constructor|done].
  - intros (a' & Ha & Hf)%IH. exists a'. split; [by constructor|done].
Qed.

(** What either closure looks at first *)
Lemma reply_from m x t ps p u h opts :
  p ∈ ps → wf_packet p → udp.parse_udp p = Ok u → udp.dst_port u = CLIENT_PORT → for_us m u = true →
  parse_dhcp_reply (udp.payload u) x = Ok (h, opts) → has_option (MessageTypeOpt t) opts = true →
  dhcp_reply m x t (udp.payload u) opts p ∧ swap32 (yiaddr h) = word (udp.payload u) 16 4.
Proof.
  intros Hin Hwf Hu Hd Hf Hr Ho. pose proof (safe_parse_udp p Hwf) as Hs. rewrite Hu in Hs.
  assert (bytes_ok (udp.payload u)) as Hok by apply Hs. destruct (reply_fields _ _ _ _ Hok Hr) as (R1 & R2 & R3 & R4 & R5 & R6 & R7 & R8).
  apply bool_decide_eq_true in Ho. split; [|done]. exists u. split; [done|]. split; [done|]. split; [done|].
  unfold for_us in Hf. apply orb_true_iff in Hf. rewrite !bool_decide_eq_true in Hf. done.
Qed.
Lemma offer_of_spec m x ps v ip : from_port CLIENT_PORT (offer_of m x) ps (v, Some ip) →
  ∃ p pl opts, p ∈ ps ∧ dhcp_reply m x Offer pl opts p ∧ v = word pl 16 4 ∧ ServerIp ip ∈ opts.
Proof.
  intros (p & u & Hin & Hwf & Hu & Hd & Ho). unfold offer_of in Ho.
  destruct (for_us m u) eqn:Hf; [|done]. simpl in Ho.
  destruct (parse_dhcp_reply (udp.payload u) x) as [[h opts]| | |] eqn:Ep; try done. simpl in Ho.
  destruct (has_option (MessageTypeOpt Offer) opts) eqn:Ht; [|done]. simpl in Ho.
  injection Ho as <- Hip. apply find_map_Some in Hip as ([] & Hi & [= ->]).
  destruct (reply_from m x Offer ps p u h opts) as [Hr Hy]; [done..|]. by exists p, (udp.payload u), opts.
Qed.
Lemma ack_of_spec m x ps b s : from_port CLIENT_PORT (ack_of m x) ps (b, s) →
  ∃ p pl opts, p ∈ ps ∧ dhcp_reply m x Ack pl opts p ∧ (∀ a, b = Some a → BroadcastIp a ∈ opts) ∧
            (∀ a, s = Some a → SubnetMask a ∈ opts).
Proof.
  intros (p & u & Hin & Hwf & Hu & Hd & Ho). unfold ack_of in Ho.
  destruct (for_us m u) eqn:Hf; [|done]. simpl in Ho.
  destruct (parse_dhcp_reply (udp.payload u) x) as [[h opts]| | |] eqn:Ep; try done. simpl in Ho.
  destruct (has_option (MessageTypeOpt Ack) opts) eqn:Ht; [|done]. simpl in Ho.
  injection Ho as Hb Hs. destruct (reply_from m x Ack ps p u h opts) as [Hr _]; [done..|].
  exists p, (udp.payload u), opts. split; [done|]. split; [done|].
  split; intros a ->; [apply find_map_Some in Hb as ([] & Hi & [= ->])
                      |apply find_map_Some in Hs as ([] & Hi & [= ->])]; done.
Qed.

(** The time of a question and the wait for its answer *)
Definition ask_time (mhz : Z) : Z := DHCP_TIMEOUT * mhz + 10 * pace.

(** Ask, and wait for an answer. *)
Lemma runs_ask {T} fuel dev hs x t extra (func : Packet → udp.Parsed → option T) mhz m :
  inv dev hs → mac dev = m → tsc_mhz (driver dev) = mhz → 0 ≤ mhz → 0 ≤ now (driver dev) → zlen (serialize_all extra) ≤ 1000 →
  DHCP_TIMEOUT * mhz < Z.of_nat fuel → now (driver dev) + ask_time mhz < 2 ^ 64 →
  runs (_ ← send_dhcp_request x m t extra; Dev.recv_timeout fuel CLIENT_PORT DHCP_TIMEOUT func) dev
    (λ r dev', inv dev' hs ∧ kept dev dev' ∧ ∃ q ps qs, asked m x t extra q ∧
       since ps (q :: qs) (now (driver dev) + ask_time mhz) dev dev' ∧ answer CLIENT_PORT func ps r).
Proof.
  intros Hi <- Hmhz Hpos Hn Hx Hf Hov. pose proof (pace_nonneg (D:=D)) as Hp0. unfold ask_time in *.
  assert (0 ≤ DHCP_TIMEOUT * mhz) by (unfold DHCP_TIMEOUT; lia).
  eapply runs_bind; [by apply runs_send_dhcp|]. intros _ dev1 (Hi1 & Hk1 & q & Hq & Hs1).
  pose proof (kept_mhz _ _ Hk1) as Hm1. rewrite Hmhz in Hm1. pose proof (kept_now _ _ Hk1). pose proof (proj2 (proj2 Hs1)) as T1.
  eapply runs_weaken; [apply recv_timeout_correct; rewrite ?Hm1; (done || lia)|].
  intros r dev2 (Hi2 & Hk2 & ps & qs & Hs2 & Ha). split; [done|]. split; [by etrans|]. exists q, ps, qs. split; [done|].
  split; [|done]. rewrite Hm1 in Hs2. eapply since_le; [exact (since_trans _ _ _ _ _ _ _ _ _ Hs1 Hs2)|lia].
Qed.

Lemma handshake_runs fuel dev hs x mhz :
  inv dev hs → tsc_mhz (driver dev) = mhz → 0 ≤ mhz → 0 ≤ now (driver dev) →
  DHCP_TIMEOUT * mhz < Z.of_nat fuel → now (driver dev) + 2 * ask_time mhz < 2 ^ 64 →
  runs (handshake fuel x (mac dev)) dev (λ r dev', inv dev' hs ∧ kept dev dev' ∧
    ∃ ps qs, since ps qs (now (driver dev) + 2 * ask_time mhz) dev dev' ∧
      ∀ l, r = Some l → leased (mac dev) x ps qs l).
Proof.
  intros Hi Hmhz Hpos Hn Hfuel Hov. pose proof (pace_nonneg (D:=D)) as Hp0. unfold handshake.
  assert (0 ≤ ask_time mhz) as Hat by (unfold ask_time, DHCP_TIMEOUT; lia).
  destruct (runs_ask fuel dev hs x Discover [] (offer_of (mac dev) x) mhz (mac dev))
    as (r & dev1 & E1 & Hi1 & Hk1 & d & ps1 & qs1 & Hd & Hs1 & Ha1); [done..|lia|].
  unfold runs. rewrite (bind_then _ _ _ _ _ _ E1).
  assert (∃ ps qs, since ps qs (now (driver dev) + 2 * ask_time mhz) dev dev1) as (ps0 & qs0 & Hs0).
  { exists ps1, (d :: qs1). eapply since_le; [exact Hs1|lia]. }
  destruct r as [[off [srv|]]|]; [|eexists _, _; split; [reflexivity|]; split; [done|]; split; [done|]; by exists ps0, qs0..].
  pose proof (proj2 (proj2 Hs1)) as T1. pose proof (kept_now _ _ Hk1) as N1.
  destruct (runs_ask fuel dev1 hs x Request [RequestedIp off; ServerIp srv] (ack_of (mac dev) x) mhz (mac dev))
    as (r & dev2 & E2 & Hi2 & Hk2 & q & ps2 & qs2 & Hq & Hs2 & Ha2);
    [done|apply Hk1|by rewrite (kept_mhz _ _ Hk1)|done|lia|done|done|lia|].
  rewrite (bind_then _ _ _ _ _ _ E2). assert (kept dev dev2) as Hk by (by etrans).
  assert (since (ps1 ++ ps2) (d :: qs1 ++ q :: qs2) (now (driver dev) + 2 * ask_time mhz) dev dev2) as Hs.
  { eapply since_le; [exact (since_trans _ _ _ _ _ _ _ _ _ Hs1 Hs2)|lia]. }
  destruct r as [[b s]|]; eexists _, _; (split; [reflexivity|]; split; [done|]; split; [done|];
    exists (ps1 ++ ps2), (d :: qs1 ++ q :: qs2); split; [done|]); [|done].
  intros l [= <-]. exists ps1, ps2, d, qs1, q, qs2. cbn [client_ip server_ip broadcast_ip subnet_mask].
  split; [done|]. split; [done|]. split; [done|]. split; [by apply offer_of_spec, Ha1|]. split; [done|].
  by apply ack_of_spec, Ha2.
Qed.
End handshake.

Lemma bind_taken {D} (dev : NetDevice D) port b :
  udp_binds dev !! port = Some b → Dev.bind_udp_port port dev = Ok (None, dev).
Proof. intros H. unfold Dev.bind_udp_port, mbind, M_bind, get. by rewrite H. Qed.

Lemma bind_free {D} (dev : NetDevice D) port :
  udp_binds dev !! port = None →
  Dev.bind_udp_port port dev =
    Ok (Some port, Dev.set_binds (<[port := mkBind [] 0]> (udp_binds dev)) dev).
Proof. intros H. unfold Dev.bind_udp_port, mbind, M_bind, get. by rewrite H. Qed.

Lemma unbind_idle {D} `{NetDriver D} (dev : NetDevice D) port n :
  udp_binds dev !! port = Some (mkBind [] n) →
  Dev.unbind_udp port dev = Ok (tt, Dev.set_binds (delete port (udp_binds dev)) dev).
Proof. intros Hb. unfold Dev.unbind_udp, mbind, M_bind, get. by rewrite Hb. Qed.

(** * Properties *)

(** The option codec round trips: an option whose payload fits its length
    byte is parsed back from its serialization with the rest of the message
    untouched, and the options a builder collected are parsed back as they were
    added. *)
Theorem dhcp_options_roundtrip opts :
  Forall wf_option opts →
  (∀ o rest, o ∈ opts → DhcpOption.parse (DhcpOption.serialize o [] ++ rest) = Ok (o, rest)) ∧
  parse_options (S (length (serialize_all opts))) (serialize_all opts) [] = Ok opts.
Proof.
  intros H. split.
  - intros o rest Ho. apply parse_serialize. by eapply Forall_forall in H.
  - rewrite parse_options_serialize; [done|done|lia].
Qed.

(** No payload makes the reply parser panic or loop, and a reply it accepts
    is a full header of an Ethernet BOOTREPLY with the DHCP cookie and the
    transaction id that was asked for. *)
Theorem dhcp_reply_safe payload x :
  bytes_ok payload →
  returns (parse_dhcp_reply payload x) ∧
  (∀ h opts, parse_dhcp_reply payload x = Ok (h, opts) →
     240 ≤ zlen payload ∧ swap32 (xid h) = x ∧ op h = OP_REPLY ∧ htype h = HW_ETHERNET ∧
     hlen h = HLEN_ETHERNET ∧ swap32 (cookie h) = COOKIE).
Proof.
  intros Hok.
  assert (safe (λ r, 240 ≤ zlen payload ∧ swap32 (xid r.1) = x ∧ op r.1 = OP_REPLY ∧
     htype r.1 = HW_ETHERNET ∧ hlen r.1 = HLEN_ETHERNET ∧ swap32 (cookie r.1) = COOKIE)
     (parse_dhcp_reply payload x)) as Hs.
  { unfold parse_dhcp_reply. eapply safe_bind; [by apply safe_header|].
    intros hb (Hh & _ & Hle). change (Z.of_nat HEADER_SIZE) with 240 in *.
    eapply (safe_bind (λ r, part r payload)).
    { apply safe_ok_or. intros r Hr. exact (part_range _ _ _ _ Hr). }
    intros raw Hraw. apply safe_if; [done|]. intros H1%negb_false_iff%Z.eqb_eq.
    apply safe_if; [done|]. rewrite !orb_false_iff, !negb_false_iff, !Z.eqb_eq.
    intros (((H2 & H3) & H4) & H5).
    eapply safe_bind; [apply parse_options_safe; [by eapply part_Forall|lia]|].
    intros opts _. simpl. done. }
  split; [by eapply safe_returns|]. intros h opts E. by rewrite E in Hs.
Qed.

(** A DHCP request written into a cleared packet parses as a UDP datagram
    from 0.0.0.0 port 68 to 255.255.255.255 port 67, broadcast on the link, whose
    payload is the filled 240-byte header followed by the options. *)
Theorem dhcp_request_correct p x m options :
  length (buffer p) = Packet.BUF_LEN → len p = 0 → length m = 6%nat → zlen options ≤ 1232 →
  ∃ p' u, create_dhcp_request x m options p = Ok (tt, p') ∧
    udp.parse_udp p' = Ok u ∧ is_datagram (dhcp_address m) (request_header x m ++ options) u.
Proof.
  intros Hb Hl Hm Hn.
  destruct (create_dhcp_request_ok p x m options) as (p' & E & Hp'); [done..|].
  destruct (dhcp_request_parses p' x m options Hm Hn Hp') as (u & Hu & Hd). by exists p', u.
Qed.

(** C10. Getting a lease ends over any lawful driver, without a panic, by the time of two
    questions (5 s and ten driver calls each), as long as the time-stamp counter is that far from
    its maximum: every packet buffer goes back and the client port is unbound again.  A lease
    that is returned rests on what was sent and what arrived meanwhile: our discovery, then an
    offer with the transaction id of the discovery and addressed to us, whose address and server are
    the lease's; our request for them, and then an acknowledgement with the same transaction id,
    which the lease has its masks from. *)
Theorem get_lease_correct {D} `{NetHistory D} (dev : NetDevice D) hs fuel :
  inv dev hs → 0 ≤ tsc_mhz (driver dev) → 0 ≤ now (driver dev) →
  5000000 * tsc_mhz (driver dev) < Z.of_nat fuel →
  now (driver dev) + 2 * (5000000 * tsc_mhz (driver dev) + 10 * pace) + pace < 2 ^ 64 →
  runs (get_lease fuel) dev (λ r dev', inv dev' hs ∧ udp_binds dev' = udp_binds dev ∧
    dhcp_lease dev' = dhcp_lease dev ∧ ∃ ps qs,
      since ps qs (now (driver dev) + 2 * (5000000 * tsc_mhz (driver dev) + 10 * pace) + pace) dev dev' ∧
      ∀ l, r = Some l → ∃ x, u32 x ∧ leased (mac dev) x ps qs l).
Proof.
  intros Hi Hm Hn Hf Hov. unfold runs, get_lease. pose proof (pace_nonneg (D:=D)) as Hp0.
  destruct (rdtsc_since dev hs Hi) as (t & dev1 & E1 & Hi1 & Hk1 & Ht & Ht' & Hs1).
  pose proof (proj2 (proj2 Hs1)) as T1.
  rewrite (M_bind_Ok _ _ _ _ _ E1), (M_bind_Ok get _ dev1 dev1 dev1 eq_refl).
  destruct (udp_binds dev1 !! CLIENT_PORT) as [b|] eqn:Eb.
  { rewrite (M_bind_Ok _ _ _ _ _ (bind_taken _ _ _ Eb)). eexists _, _. split; [reflexivity|].
    split; [done|]. split; [apply Hk1|]. split; [apply Hk1|]. exists [], []. split; [|done].
    eapply since_le; [exact Hs1|nia]. }
  rewrite (M_bind_Ok _ _ _ _ _ (bind_free _ _ Eb)).
  set (dev2 := Dev.set_binds _ dev1).
  assert (inv dev2 hs) as Hi2 by (split; [apply Hi1|by apply map_Forall_insert_2, Hi1|apply Hi1]).
  destruct (handshake_runs fuel dev2 hs (cast 32 t) (tsc_mhz (driver dev)) Hi2 (kept_mhz _ _ Hk1) Hm)
    as (r & dev3 & E3 & Hi3 & Hk3 & ps & qs & Hs3 & Hl);
    [cbn [dev2 Dev.set_binds driver]; lia|done|cbn [dev2 Dev.set_binds driver]; unfold ask_time, DHCP_TIMEOUT; lia|].
  change (mac dev1) with (mac dev2). rewrite (M_bind_Ok _ _ _ _ _ E3).
  pose proof (kept_binds _ _ Hk3) as Hb3.
  assert (udp_binds dev3 !! CLIENT_PORT = Some (mkBind [] 0)) as Eb3
    by (rewrite Hb3; apply lookup_insert_eq).
  rewrite (M_bind_Ok _ _ _ _ _ (unbind_idle _ _ _ Eb3)).
  assert (delete CLIENT_PORT (udp_binds dev3) = udp_binds dev) as Hdel.
  { rewrite Hb3. cbn [udp_binds dev2 Dev.set_binds]. rewrite delete_insert_id by done. apply Hk1. }
  eexists _, _. split; [reflexivity|]. cbn [udp_binds dhcp_lease Dev.set_binds].
  split; [split; [apply Hi3|cbn; rewrite Hdel; apply Hi|apply Hi3]|].
  split; [done|]. split; [by rewrite (kept_lease _ _ Hk3), <-(kept_lease _ _ Hk1)|].
  exists ps, qs. split.
  - eapply since_le; [exact (since_trans _ _ _ _ _ _ _ _ _ Hs1 Hs3)|]. unfold ask_time, DHCP_TIMEOUT.
    cbn [dev2 Dev.set_binds driver]. lia.
  - intros l ->. exists (cast 32 t). split; [apply Z.mod_pos_bound; lia|].
    rewrite <-(kept_mac _ _ Hk1). by apply Hl.
Qed.

(** * The registry of devices: [NetDevice::register] and [NetDevice::lock_in] *)
Module Registry.
Section registry.
Context {D : Type} `{NetDriver D}.

(** The statics [PROBED_DEVICES], [NET_DEVICES] and [NEXT_DEV_ID]. *)
Record State := mkState {
  probed : option (list (NetDevice D)); net_devices : option (list (NetDevice D));
  next_dev_id : Z }.

Definition init : State := mkState (Some []) None 0.

Definition register (d : D) : M State unit unit :=
  s ← get;
  match net_devices s with
  | Some _ => panic
  | None =>
      let id := next_dev_id s in
      _ ← put (mkState (probed s) (net_devices s) (wrapping_add 64 id 1));
      _ ← lift (unwrap (checked_add 64 id 1));
      s ← get;
      devs ← lift (unwrap (probed s));
      put (mkState (Some (devs ++ [mkNetDevice id d (drv_mac d) None ∅]))
             (net_devices s) (next_dev_id s))
  end.

(** A lease for each device; the ones that got one are kept. *)
Fixpoint lease_all (fuel : nat) (devs : list (NetDevice D)) : res unit (list (NetDevice D)) :=
  match devs with
  | [] => Ok []
  | dev :: devs =>
      match get_lease fuel dev with
      | Ok (lease, dev) =>
          let dev := Dev.set_lease lease dev in
          rest ← lease_all fuel devs;
          Ok (match lease with Some _ => dev :: rest | None => rest end)
      | Err (e, _) => Err e
      | Panic => Panic
      | Diverge => Diverge
      end
  end.

(** [OnceLock::set] panics when the cell was set before. *)
Definition lock_in (fuel : nat) : M State unit unit :=
  s ← get;
  _ ← put (mkState None (net_devices s) (next_dev_id s));
  devs ← lift (unwrap (probed s));
  leased ← lift (lease_all fuel devs);
  s ← get;
  match net_devices s with
  | Some _ => panic
  | None => put (mkState (probed s) (Some leased) (next_dev_id s))
  end.

End registry.
Arguments State D : clear implicits.
End Registry.

Section registry_props.
Context {D : Type} `{NetDriver D}.
Import Registry.

(** Calls that return, in any order. *)
Inductive reachable : State D → Prop :=
| reach_init : reachable init
| reach_register s d s' : reachable s → register d s = Ok (tt, s') → reachable s'
| reach_lock_in s fuel s' : reachable s → lock_in fuel s = Ok (tt, s') → reachable s'.

(** Before the devices are locked in they are in the probe list, each with an id
    of its own; afterwards each has a lease. *)
Definition registry_inv (s : State D) : Prop :=
  match probed s, net_devices s with
  | Some devs, None =>
      NoDup (id <$> devs) ∧ Forall (λ d, 0 ≤ id d < next_dev_id s) devs ∧
      0 ≤ next_dev_id s < 2 ^ 64
  | None, Some devs => Forall (λ d, is_Some (dhcp_lease d)) devs
  | _, _ => False
  end.

Lemma register_Ok d (s s' : State D) :
  register d s = Ok (tt, s') →
  ∃ devs, probed s = Some devs ∧ net_devices s = None ∧ next_dev_id s + 1 < 2 ^ 64 ∧
    s' = mkState (Some (devs ++ [mkNetDevice (next_dev_id s) d (drv_mac d) None ∅])) None
           (wrapping_add 64 (next_dev_id s) 1).
Proof.
  unfold register, mbind, M_bind, get, put, lift. destruct s as [pr nd next]; simpl.
  destruct nd; [done|]. unfold checked_add. destruct (Z.ltb_spec (next + 1) (2 ^ 64)); [|done]. simpl.
  destruct pr as [devs|]; [|done]. simpl. intros [= <-]. by exists devs.
Qed.

Lemma lease_all_leased fuel devs ls :
  lease_all fuel devs = Ok ls → Forall (λ d : NetDevice D, is_Some (dhcp_lease d)) ls.
Proof.
  revert ls. induction devs as [|dev devs IH]; intros ls; simpl; [by intros [= <-]|].
  destruct (get_lease fuel dev) as [[l dev']|[]| |]; try done.
  intros (rest & Hrest & [= <-])%res_bind_Ok. specialize (IH _ Hrest).
  destruct l; [|done]. constructor; [by eexists|done].
Qed.

Lemma lock_in_Ok fuel (s s' : State D) :
  lock_in fuel s = Ok (tt, s') →
  ∃ devs ls, probed s = Some devs ∧ net_devices s = None ∧ lease_all fuel devs = Ok ls ∧
    s' = mkState None (Some ls) (next_dev_id s).
Proof.
  unfold lock_in, mbind, M_bind, get, put, lift. destruct s as [pr nd next]; simpl.
  destruct pr as [devs|]; [|done]. simpl. destruct (lease_all fuel devs) as [ls| | |] eqn:El; try done.
  destruct nd; [done|]. intros [= <-]. by exists devs, ls.
Qed.

(** In every state that calls to [register] and [lock_in] can reach, the
    devices that are still being probed have distinct ids and nothing is locked
    in, or the devices are locked in and each of them has a DHCP lease; then no
    further [register] or [lock_in] returns. *)
Theorem registry_invariant (s : State D) :
  reachable s →
  registry_inv s ∧
  (net_devices s ≠ None → (∀ d, register d s = Panic) ∧ (∀ fuel, lock_in fuel s = Panic)).
Proof.
  intros Hr. assert (registry_inv s) as Hi.
  { induction Hr as [|s d s' _ IH Hs|s fuel s' _ IH Hs].
    - split; [by constructor|]. split; [constructor|done].
    - apply register_Ok in Hs as (devs & Hp & Hn & Hov & ->). unfold registry_inv in *.
      rewrite Hp, Hn in IH. simpl. destruct IH as (Hnd & Hid & Hx).
      assert (wrapping_add 64 (next_dev_id s) 1 = next_dev_id s + 1) as ->
        by (unfold wrapping_add; apply Z.mod_small; lia).
      split; [|split; [|lia]].
      + rewrite fmap_app. apply NoDup_app. split; [done|]. split; [|apply NoDup_singleton].
        intros i (dv & -> & Hin)%list_elem_of_fmap Hi'. apply list_elem_of_singleton in Hi'.
        rewrite Forall_forall in Hid. specialize (Hid _ Hin). simpl in Hi'. lia.
      + apply Forall_app. split; [eapply Forall_impl; [done|simpl; lia]|].
        constructor; [simpl; lia|constructor].
    - apply lock_in_Ok in Hs as (devs & ls & Hp & Hn & Hl & ->). simpl. by eapply lease_all_leased. }
  split; [done|]. intros Hnd. by destruct s as [[devs|] [ls|] n].
Qed.
End registry_props.

(** * Witnesses *)
Definition sample_options : list DhcpOption :=
  [MessageTypeOpt Offer; ServerIp 0x0A000001; Unknown 12 [1; 2]; ParameterRequestList [53; 54]; End].

Lemma dhcp_options_roundtrip_witness :
  (∀ o rest, o ∈ sample_options → DhcpOption.parse (DhcpOption.serialize o [] ++ rest) = Ok (o, rest)) ∧
  parse_options (S (length (serialize_all sample_options))) (serialize_all sample_options) []
  = Ok sample_options.
Proof. apply dhcp_options_roundtrip. by repeat constructor. Defined.

Lemma dhcp_reply_safe_witness :
  returns (parse_dhcp_reply (replicate 240 0) 0) ∧
  (∀ h opts, parse_dhcp_reply (replicate 240 0) 0 = Ok (h, opts) →
     240 ≤ zlen (replicate 240 0) ∧ swap32 (xid h) = 0 ∧ op h = OP_REPLY ∧ htype h = HW_ETHERNET ∧
     hlen h = HLEN_ETHERNET ∧ swap32 (cookie h) = COOKIE).
Proof. apply dhcp_reply_safe. by apply Forall_replicate. Defined.

Lemma dhcp_request_correct_witness :
  ∃ p' u, create_dhcp_request 7 [2;0;0;0;0;1] [255] (Packet.new 0) = Ok (tt, p') ∧
    udp.parse_udp p' = Ok u ∧
    is_datagram (dhcp_address [2;0;0;0;0;1]) (request_header 7 [2;0;0;0;0;1] ++ [255]) u.
Proof. apply dhcp_request_correct; done. Defined.

(** ** A handshake with a server *)

(** A reply datagram of a server at 10.0.0.1 with transaction id 1. *)
Definition server_reply (addr : Z) (opts : list DhcpOption) : Packet :=
  let header := [OP_REPLY; HW_ETHERNET; HLEN_ETHERNET; 0] ++ be_bytes 4 1 ++ replicate 8 0
    ++ be_bytes 4 0x0A000005 ++ replicate 216 0 ++ be_bytes 4 COOKIE in
  match udp.datagram (mkNetAddress [4;0;0;0;0;9] (IpV4 0x0A000001) 67 BROADCAST (IpV4 (umax 32)) 68)
          (header ++ serialize_all opts) (Packet.new addr) with
  | Ok (_, p) => p
  | _ => Packet.new addr
  end.

Definition leasing : NetDevice (Logged Script) := observed (mkNetDevice 0 (mkScript
  [server_reply 0 [MessageTypeOpt Offer; ServerIp 0x0A000001; End];
   server_reply 1 [MessageTypeOpt Ack; SubnetMask 0xFFFFFF00; End]] 2 0) [2;0;0;0;0;1] None ∅).
Lemma leasing_inv : inv leasing [].
Proof.
  apply observed_inv. split; [|by apply map_Forall_empty|done].
  split; [apply Forall_cons_2; [|apply Forall_cons_2; [|apply Forall_nil_2]]; apply wf_packet_check; by vm_compute|].
  split; [|apply Forall_cons_2; [by vm_compute|apply Forall_cons_2; [by vm_compute|apply Forall_nil_2]]].
  assert (paddr <$> [server_reply 0 [MessageTypeOpt Offer; ServerIp 0x0A000001; End];
    server_reply 1 [MessageTypeOpt Ack; SubnetMask 0xFFFFFF00; End]] ++ [] = [0; 1]) as E by (vm_compute; reflexivity).
  cbn [base rx driver leasing] in *. rewrite E. apply NoDup_cons_2; [|apply NoDup_singleton]. by intros ?%list_elem_of_singleton.
Qed.
Lemma get_lease_correct_witness :
  runs (get_lease (Z.to_nat 6000000)) leasing (λ r dev', inv dev' [] ∧
    udp_binds dev' = ∅ ∧ dhcp_lease dev' = None ∧ ∃ ps qs, since ps qs 10000021 leasing dev' ∧
    ∀ l, r = Some l → ∃ x, u32 x ∧ leased [2;0;0;0;0;1] x ps qs l).
Proof.
  assert (5000000 * tsc_mhz (driver leasing) < Z.of_nat (Z.to_nat 6000000)) as Hf
    by (rewrite Z2Nat.id; [reflexivity|vm_compute; discriminate]).
  exact (get_lease_correct leasing [] (Z.to_nat 6000000) leasing_inv
    ltac:(vm_compute; discriminate) ltac:(vm_compute; discriminate) Hf ltac:(reflexivity)).
Defined.

Lemma registry_invariant_witness :
  registry_inv (Registry.init (D:=Script)) ∧
  (Registry.net_devices (Registry.init (D:=Script)) ≠ None →
   (∀ d, Registry.register d (Registry.init (D:=Script)) = Panic) ∧
   (∀ fuel, Registry.lock_in fuel (Registry.init (D:=Script)) = Panic)).
Proof. apply registry_invariant. constructor. Defined.

Example lease_obtained :
  match get_lease 20 leasing with
  | Ok (l, _) => l = Some (mkLease 0x0A000005 0x0A000001 None (Some 0xFFFFFF00))
  | _ => False
  end.
Proof. vm_compute. done. Qed.
