(* ===== verification/Tcp.v ===== *)
(** TCP segments: the parser and the builder of kernel/src/net/protocols/tcp.rs.

    The file is not part of the kernel's module tree.  Its wire half is complete but for
    [create_tcp], which calls itself with an argument too many; it is read as
    [create_tcp_options] without options. *)
From Stdlib Require Import ZArith Lia.
From stdpp Require Import prelude list numbers.
From S2P Require Import Prelude Cursor Packet Net NetBuild NetParse NetFormat.

Module tcp.

Definition WINDOW_SIZE : Z := umax 16.
Definition TIMEOUT : Z := 1000000.
Definition N_RETRIES : nat := Z.to_nat 100000.
Definition IP_PROT_TCP : Z := 0x6.
Definition MAX_MSS : Z := 1420.
Definition TCP_SYN : Z := Z.shiftl 1 1.
Definition TCP_RST : Z := Z.shiftl 1 2.
Definition TCP_ACK : Z := Z.shiftl 1 4.

Record Parsed := mkParsed {
  ip : ip.Parsed; src_port : Z; dst_port : Z; seq : Z; ack : Z; window : Z; flags : Z;
  payload : list Z }.

Definition parse_tcp (self : Packet) : res ParseError Parsed :=
  ip ← or_else (rmap ip.V4 (ip.parse_ipv4 self)) (λ _, rmap ip.V6 (ip.parse_ipv6 self));
  let min_hdr := 20 in
  if negb (ip.protocol ip =? IP_PROT_TCP) then Err InvalidIpProtocol else
  if zlen (ip.payload ip) <? min_hdr then Err InvalidLength else
  b ← index (ip.payload ip) 0xC;
  doffset ← mul 8 (Z.shiftr b 4) 4;
  if (doffset <? min_hdr) || (zlen (ip.payload ip) <? doffset) then Err InvalidLength else
  header ← ok_or (get_range (ip.payload ip) 0 doffset) TruncatedPacket;
  payload ← ok_or (get_from (ip.payload ip) doffset) TruncatedPacket;
  src_port ← Packet.parse_u16 (get_range header 0 2);
  dst_port ← Packet.parse_u16 (get_range header 2 4);
  seq ← Packet.parse_u32 (get_range header 4 8);
  ack ← Packet.parse_u32 (get_range header 8 12);
  window ← Packet.parse_u16 (get_range header 14 16);
  flags ← ok_or (header !! 13%nat) TruncatedPacket;
  Ok (mkParsed ip src_port dst_port seq ack window flags payload).

(** ** The builder *)
Record Builder := mkBuilder { b_ip : ip.Builder; b_hdr : Slice; b_payload : Cursor; fill_crc : Z }.

Definition Builder_new (ip : ip.Builder) (cursor : Cursor) (src dst flags seq ack window : Z) (opts : list Z)
    : M Packet unit Builder :=
  _ ← ip.set_protocol ip ip.Tcp;
  '((hdr, (data_offset, crc)), payload) ← with_cursor cursor (
    _ ← PacketCursor.write_u16 src;
    _ ← PacketCursor.write_u16 dst;
    _ ← PacketCursor.write_u32 seq;
    _ ← PacketCursor.write_u32 ack;
    '(data_offset, _) ← PacketCursor.write_u8 0;
    _ ← PacketCursor.write_u8 flags;
    _ ← PacketCursor.write_u16 window;
    '(crc, _) ← PacketCursor.write_u16 0;
    _ ← PacketCursor.write_u8 0;
    _ ← PacketCursor.write opts;
    hdr ← PacketCursor.split_at_current;
    mret (hdr, (data_offset, crc)));
  let offset := cast 8 (Z.of_nat (slen hdr) / 4) in
  _ ← lift (assert (offset <=? 15));
  _ ← write_hdr hdr data_offset [cast 8 (Z.shiftl offset 4)];
  mret (mkBuilder ip hdr payload crc).

(** [ip::Builder::tcp] *)
Definition tcp (self : ip.Builder) (src dst flags seq ack window : Z) (opts : list Z) : M Packet unit Builder :=
  _ ← ip.set_protocol self ip.Tcp;
  let '(self, cursor) := ip.take_cursor self in
  cursor ← lift (unwrap cursor);
  Builder_new self cursor src dst flags seq ack window opts.

Definition from_packet (cursor : Cursor) (addr : NetAddress) (flags seq ack window : Z) (opts : list Z)
    : M Packet unit Builder :=
  cursor ← eth.Builder_new cursor (src_mac addr) (dst_mac addr);
  ip ← ip.ip cursor (src_ip addr) (dst_ip addr);
  tcp ip (Net.src_port addr) (Net.dst_port addr) flags seq ack window opts.

Definition create_tcp_options (addr : NetAddress) (flags seq ack window : Z) (options : list Z) : M Packet unit Builder :=
  self ← get;
  cursor ← lift (PacketCursor.new self);
  unwrap_M (from_packet cursor addr flags seq ack window options).
Definition create_tcp (addr : NetAddress) (flags seq ack window : Z) : M Packet unit Builder :=
  create_tcp_options addr flags seq ack window [].

(** [self.payload.get()] *)
Definition payload_bytes (self : Builder) : M Packet unit (list Z) :=
  p ← get; lift (PacketCursor.get p (b_payload self)).

(** The first 12 bytes of [ph], and all 40 *)
Definition pseudo_v4 (src dst len : Z) : list Z :=
  be_bytes 4 src ++ be_bytes 4 dst ++ [0; IP_PROT_TCP] ++ be_bytes 2 (cast 16 len).
Definition pseudo_v6 (src dst : list Z) (len : Z) : list Z :=
  src ++ dst ++ be_bytes 4 len ++ [0; 0; 0; IP_PROT_TCP].

Definition pseudo_header (ip : ip.Builder) (len : Z) : list Z :=
  match ip with
  | ip.BV4 ipv4 => pseudo_v4 (ip.v4_src ipv4) (ip.v4_dst ipv4) len
  | ip.BV6 ipv6 => pseudo_v6 (ip.v6_src ipv6) (ip.v6_dst ipv6) len
  end.

Definition write_crc (self : Builder) : M Packet unit unit :=
  payload ← payload_bytes self;
  let len := cast 32 (Z.of_nat (slen (b_hdr self)) + zlen payload) in
  hdr ← read_hdr (b_hdr self);
  let acc := wrapping_add 32 0 (Packet.checksum (pseudo_header (b_ip self) len)) in
  let acc := wrapping_add 32 acc (Packet.checksum hdr) in
  let acc := wrapping_add 32 acc (Packet.checksum payload) in
  checksum ← lift (udp.finish_crc acc);
  write_hdr (b_hdr self) (fill_crc self) (be_bytes 2 checksum).

Definition finalize (self : Builder) : M Packet unit unit :=
  payload ← payload_bytes self;
  let tcp_len := cast 16 (Z.of_nat (slen (b_hdr self)) + zlen payload) in
  _ ← ip.finalize (b_ip self) tcp_len;
  write_crc self.

(** A segment without data, as the connection sends it: the builder is made and dropped. *)
Definition segment (addr : NetAddress) (flags seq ack window : Z) (options : list Z) : M Packet unit unit :=
  b ← create_tcp_options addr flags seq ack window options;
  finalize b.

End tcp.

Example segments_parse :
  let addr := mkNetAddress [2;0;0;0;0;1] (IpV4 0x0A000001) 5000 BROADCAST (IpV4 0x0A0000FF) 80 in
  let parsed opts := match tcp.segment addr tcp.TCP_SYN 7 0 65535 opts (Packet.new 0) with
    | Ok (_, p) => match tcp.parse_tcp p with Ok t => Some (tcp.seq t, tcp.window t, tcp.payload t) | _ => None end
    | _ => None end in
  parsed [] = None ∧ parsed [2; 4; 5; 0x8C] = Some (7, 65535, [4; 5; 0x8C]).
Proof. vm_compute. done. Qed.

(** The limit on the options is checked after the cast to a byte: 45 bytes of options panic,
    and 1005 of them pass with a data offset of 0. *)
Example options_limit :
  let addr := mkNetAddress [2;0;0;0;0;1] (IpV4 0x0A000001) 5000 BROADCAST (IpV4 0x0A0000FF) 80 in
  let built n := match tcp.segment addr tcp.TCP_SYN 7 0 65535 (replicate n 1) (Packet.new 0) with
    | Ok (_, p) => buffer p !! 46%nat | _ => None end in
  built 44%nat = Some 0xF0 ∧ built 45%nat = None ∧ built 1005%nat = Some 0.
Proof. vm_compute. done. Qed.

(** * What the builder writes *)

(** The header up to its options: one byte short of 20, since the urgent pointer is one
    byte.  [off]: the byte of the data offset *)
Definition tcp_header (sport dport seq ack off flags window crc : Z) : list Z :=
  (be_bytes 2 sport ++ be_bytes 2 dport ++ be_bytes 4 seq ++ be_bytes 4 ack) ++ be_bytes 1 off
  ++ be_bytes 1 flags ++ be_bytes 2 window ++ be_bytes 2 crc ++ be_bytes 1 0.

(** The data offset of a header with [n] bytes of options, in words *)
Definition words_of (n : Z) : Z := (19 + n) / 4.

Section building.
Implicit Types (p : Packet) (c : Cursor) (w opts : list Z) (o : nat).

Lemma length_tcp_header sport dport seq ack off flags win crc :
  length (tcp_header sport dport seq ack off flags win crc) = 19%nat.
Proof. done. Qed.

Lemma tcp_header_new o p c w sport dport flags seq ack win opts :
  written o p c w → o = length w → zlen w + 19 + zlen opts ≤ Packet.MAX_PACKET_LEN →
  ∃ p' c', with_cursor c (
    _ ← PacketCursor.write_u16 sport;
    _ ← PacketCursor.write_u16 dport;
    _ ← PacketCursor.write_u32 seq;
    _ ← PacketCursor.write_u32 ack;
    '(data_offset, _) ← PacketCursor.write_u8 0;
    _ ← PacketCursor.write_u8 flags;
    _ ← PacketCursor.write_u16 win;
    '(crc, _) ← PacketCursor.write_u16 0;
    _ ← PacketCursor.write_u8 0;
    _ ← PacketCursor.write opts;
    hdr ← PacketCursor.split_at_current;
    mret (hdr, (data_offset, crc))) p =
      Ok (((mkSlice o (19 + length opts), (12, 16)), c'), p') ∧
    written (length w + (19 + length opts)) p' c' (w ++ tcp_header sport dport seq ack 0 flags win 0 ++ opts).
Proof.
  intros H -> Hmax. unfold with_cursor, PacketCursor.write_u8, PacketCursor.write_u16, PacketCursor.write_u32.
  assert (0 ≤ zlen opts) by (unfold zlen; lia).
  do 11 wstep_write H. eexists _, _. split.
  - unfold mret, M_ret. cbv beta iota. do 2 f_equal. f_equal. f_equal; f_equal; len_solve.
  - apply (written_eq _ _ _ _ _ _ H); [unfold tcp_header; by rewrite <-!app_assoc|len_solve].
Qed.

(** The byte of the data offset *)
Lemma offset_byte (n : Z) : 0 ≤ n ≤ 44 →
  cast 8 ((19 + n) / 4) = words_of n ∧ words_of n ≤ 15 ∧
  [cast 8 (Z.shiftl (words_of n) 4)] = be_bytes 1 (16 * words_of n).
Proof.
  intros Hn. unfold words_of, cast. change (2 ^ 8) with 256.
  assert (0 ≤ (19 + n) / 4 ≤ 15) as Hq by (Z.div_mod_to_equations; lia).
  rewrite (Z.mod_small ((19 + n) / 4)) by lia. split; [done|]. split; [lia|].
  rewrite Z.shiftl_mul_pow2 by lia. change (be_bytes 1 (16 * ((19 + n) / 4))) with [(16 * ((19 + n) / 4)) mod 256].
  do 2 f_equal. lia.
Qed.

(** [ip::Builder::tcp] over a header whose protocol field can be set *)
Lemma tcp_stage B B' o p p1 c w sport dport flags seq ack win opts :
  ip.take_cursor B = (B', Some c) →
  ip.set_protocol B ip.Tcp p = Ok (tt, p1) → written o p1 c w →
  (∃ p2, ip.set_protocol B' ip.Tcp p1 = Ok (tt, p2) ∧ written o p2 c w) →
  o = length w → zlen w + 19 + zlen opts ≤ Packet.MAX_PACKET_LEN → zlen opts ≤ 44 →
  ∃ p' c', tcp.tcp B sport dport flags seq ack win opts p =
      Ok (tcp.mkBuilder B' (mkSlice o (19 + length opts)) c' 16, p') ∧
    written (o + (19 + length opts)) p' c'
      (w ++ tcp_header sport dport seq ack (16 * words_of (zlen opts)) flags win 0 ++ opts).
Proof.
  intros Hc Hset H (p2 & Hset2 & H2) Ho Hmax Hopt. unfold tcp.tcp, tcp.Builder_new.
  rewrite (M_bind_Ok _ _ _ _ _ Hset), Hc. unfold mbind at 1, M_bind at 1, lift at 1, unwrap.
  rewrite (M_bind_Ok _ _ _ _ _ Hset2).
  destruct (tcp_header_new _ _ _ _ sport dport flags seq ack win opts H2 Ho Hmax) as (p3 & c3 & E3 & H3).
  rewrite (M_bind_Ok _ _ _ _ _ E3). cbv beta iota. cbn [slen].
  destruct (offset_byte (zlen opts)) as (Eo & Hle & Eb); [unfold zlen in *; lia|].
  assert (Z.of_nat (19 + length opts) = 19 + zlen opts) as -> by (unfold zlen; lia).
  rewrite Eo, (proj2 (Z.leb_le _ _)) by done. rewrite Eb.
  unfold mbind at 1, M_bind at 1, lift at 1, assert.
  destruct (hdr_written _ _ _ _ (w ++ be_bytes 2 sport ++ be_bytes 2 dport ++ be_bytes 4 seq ++ be_bytes 4 ack)
    (be_bytes 1 0) (be_bytes 1 flags ++ be_bytes 2 win ++ be_bytes 2 0 ++ be_bytes 1 0 ++ opts)
    (be_bytes 1 (16 * words_of (zlen opts))) (mkSlice o (19 + length opts)) 12 H3) as (p4 & E4 & H4);
    [unfold tcp_header; by rewrite <-!app_assoc|by rewrite !length_be_bytes|
      cbn [off slen]; unfold zlen; rewrite ?length_app, ?length_be_bytes; lia..|].
  rewrite (M_bind_Ok _ _ _ _ _ E4). eexists _, _. split; [reflexivity|].
  apply (written_eq _ _ _ _ _ _ H4); [unfold tcp_header; by rewrite <-!app_assoc|by rewrite Ho].
Qed.
End building.

(** ** The checksum field *)
Section crc.
Implicit Types (P A B : list Z).

Lemma bytes_ok_field A B x : bytes_ok A → bytes_ok B → bytes_ok (A ++ be_bytes 2 x ++ B).
Proof. intros Ha Hb. rewrite !Forall_app. repeat split; [done|apply be_bytes_ok|done]. Qed.
Lemma word_sum_field A B x : Nat.Even (length A) → u16 x →
  word_sum (A ++ be_bytes 2 x ++ B) = word_sum A + (x + word_sum B).
Proof. intros He Hx. rewrite word_sum_app by done. by rewrite word_sum_u16. Qed.

(** The sum over pseudo header and header, complemented into the field at an even place of
    the header, makes the whole verify. *)
Lemma crc_of_ok P A B :
  bytes_ok P → bytes_ok A → bytes_ok B → Nat.Even (length P) → Nat.Even (length A) → 0 < word_sum P →
  zlen P + zlen A + zlen B ≤ 4096 →
  ∃ crc, udp.finish_crc (wrapping_add 32 (wrapping_add 32 (wrapping_add 32 0 (Packet.checksum P)) (Packet.checksum (A ++ be_bytes 2 0 ++ B))) (Packet.checksum [])) = Ok crc ∧ 0 < crc < 2 ^ 16 ∧
    Packet.checksum (P ++ A ++ be_bytes 2 crc ++ B) = 0xFFFF.
Proof.
  intros OP OA OB EP EA Hp Hlen. set (H := A ++ be_bytes 2 0 ++ B).
  assert (bytes_ok H) as OH by by apply bytes_ok_field.
  assert (zlen H = zlen A + zlen B + 2) as LH by (unfold H, zlen; rewrite !length_app, length_be_bytes; lia).
  pose proof (word_sum_bound P OP) as BP. pose proof (word_sum_bound H OH) as BH.
  assert (0 ≤ zlen A ∧ 0 ≤ zlen B ∧ 0 ≤ zlen P) as (? & ? & ?) by (unfold zlen; lia).
  destruct (crc_verifies (word_sum P) (word_sum H) 0) as (Hf & Hc & Hv); [lia..|].
  cbv zeta in Hf, Hc, Hv. change (ones_norm 0) with 0 in Hf, Hc, Hv.
  rewrite (Z.add_0_r (ones_norm (word_sum P) + ones_norm (word_sum H))) in Hf, Hc, Hv.
  set (acc := ones_norm (word_sum P) + ones_norm (word_sum H)) in *.
  pose proof (ones_norm_range (word_sum P) ltac:(lia)). pose proof (ones_norm_range (word_sum H) ltac:(lia)).
  assert (0 ≤ acc ≤ 131070) as Ha by (unfold acc; lia).
  assert (udp.finish_crc (wrapping_add 32 (wrapping_add 32 (wrapping_add 32 0 (Packet.checksum P)) (Packet.checksum H)) (Packet.checksum [])) = Ok (if 65535 - ones_norm acc =? 0 then 0xFFFF else 65535 - ones_norm acc)) as E.
  { rewrite (checksum_spec P), (checksum_spec H), (checksum_spec []) by (done || lia).
    change (ones_norm (word_sum [])) with 0. unfold wrapping_add.
    rewrite Z.add_0_l, Z.add_0_r, !Z.mod_mod, (Z.mod_small (ones_norm _)), Z.mod_small by lia. fold acc. clearbody acc.
    assert (Packet.fold_carries (Packet.fold_carries acc) = ones_norm acc) as Ef by (apply ones_norm_fold; lia).
    by rewrite finish_crc_ok, Ef by (rewrite ?Ef; lia). }
  set (crc := if 65535 - ones_norm acc =? 0 then 0xFFFF else 65535 - ones_norm acc) in *. clearbody crc.
  exists crc. split; [done|]. split; [done|].
  rewrite checksum_spec.
  - rewrite (word_sum_app P) by done. rewrite word_sum_field by (done || (unfold fits; lia)).
    rewrite <-Hv. f_equal. unfold H. rewrite word_sum_field by (done || (unfold fits; lia)). lia.
  - rewrite Forall_app. split; [done|by apply bytes_ok_field].
  - unfold zlen in *. rewrite !length_app, length_be_bytes. lia.
Qed.
End crc.

Section finalize.
Implicit Types (p : Packet) (c : Cursor) (w opts : list Z) (o : nat) (B : ip.Builder).

Definition header_head (sport dport seq ack off flags win : Z) : list Z :=
  (be_bytes 2 sport ++ be_bytes 2 dport ++ be_bytes 4 seq ++ be_bytes 4 ack) ++ be_bytes 1 off
  ++ be_bytes 1 flags ++ be_bytes 2 win.
Lemma tcp_header_split sport dport seq ack off flags win crc opts :
  tcp_header sport dport seq ack off flags win crc ++ opts =
  header_head sport dport seq ack off flags win ++ be_bytes 2 crc ++ (be_bytes 1 0 ++ opts).
Proof. unfold tcp_header, header_head. by rewrite <-!app_assoc. Qed.
Lemma header_head_ok sport dport seq ack off flags win : bytes_ok (header_head sport dport seq ack off flags win).
Proof. unfold header_head. rewrite !Forall_app. repeat split; apply be_bytes_ok. Qed.

(** A pseudo header that can be summed *)
Definition summable (P : list Z) : Prop := bytes_ok P ∧ Nat.Even (length P) ∧ 0 < word_sum P ∧ zlen P ≤ 40.

Lemma pseudo_v4_ok (s d n : Z) : summable (tcp.pseudo_v4 s d n).
Proof.
  split; [|split; [by exists 6%nat|split; [|done]]].
  - unfold tcp.pseudo_v4. rewrite !Forall_app. repeat split; try apply be_bytes_ok. by repeat constructor.
  - unfold tcp.pseudo_v4. rewrite !(word_sum_app (be_bytes 4 _)) by by exists 2%nat.
    pose proof (word_sum_bound _ (be_bytes_ok 4 s)). pose proof (word_sum_bound _ (be_bytes_ok 4 d)).
    pose proof (word_sum_bound _ (be_bytes_ok 2 (cast 16 n))).
    rewrite (word_sum_app [0; tcp.IP_PROT_TCP]) by by exists 1%nat. cbn [word_sum]. unfold tcp.IP_PROT_TCP. lia.
Qed.
Lemma pseudo_v6_ok s d (n : Z) : bytes_ok s → bytes_ok d → length s = 16%nat → length d = 16%nat →
  summable (tcp.pseudo_v6 s d n).
Proof.
  intros Hs Hd Ls Ld. unfold tcp.pseudo_v6. split; [|split; [|split]].
  - rewrite !Forall_app. repeat split; [done..|apply be_bytes_ok|]. by repeat constructor.
  - rewrite !length_app, Ls, Ld, length_be_bytes. by exists 20%nat.
  - rewrite (word_sum_app s), (word_sum_app d), (word_sum_app (be_bytes 4 n))
      by (rewrite ?Ls, ?Ld, ?length_be_bytes; first [by exists 8%nat|by exists 2%nat]).
    pose proof (word_sum_bound s Hs). pose proof (word_sum_bound d Hd).
    pose proof (word_sum_bound _ (be_bytes_ok 4 n)). cbn [word_sum]. unfold tcp.IP_PROT_TCP. lia.
  - unfold zlen. rewrite !length_app, Ls, Ld, length_be_bytes. done.
Qed.

Lemma tcp_payload_ok U o p c w : written o p c w → o = length w → tcp.b_payload U = c →
  tcp.payload_bytes U p = Ok ([], p).
Proof.
  intros H Ho Hc. rewrite <-(app_nil_r w) in H.
  unfold tcp.payload_bytes, PacketCursor.get, mbind, M_bind, get, lift. by rewrite Hc, (payload_view _ _ _ _ _ H Ho).
Qed.

Lemma tcp_write_crc_ok U o p c w sport dport seq ack off flags win opts :
  let n := 19 + zlen opts in
  written o p c (w ++ tcp_header sport dport seq ack off flags win 0 ++ opts) →
  o = (length w + (19 + length opts))%nat → tcp.b_hdr U = mkSlice (length w) (19 + length opts) →
  tcp.b_payload U = c → tcp.fill_crc U = 16 → summable (tcp.pseudo_header (tcp.b_ip U) n) →
  bytes_ok opts → zlen opts ≤ 44 →
  ∃ crc p', tcp.write_crc U p = Ok (tt, p') ∧ 0 < crc < 2 ^ 16 ∧
    Packet.checksum (tcp.pseudo_header (tcp.b_ip U) n ++ tcp_header sport dport seq ack off flags win crc ++ opts) = 0xFFFF ∧
    written o p' c (w ++ tcp_header sport dport seq ack off flags win crc ++ opts).
Proof.
  intros n H Ho Hh Hc Hf (OP & EP & Pp & LP) Oo Hopt. unfold tcp.write_crc. rewrite Hh, Hf. cbn [slen].
  assert (o = length (w ++ tcp_header sport dport seq ack off flags win 0 ++ opts)) as Ho'
    by (rewrite !length_app, length_tcp_header; lia).
  rewrite (M_bind_Ok _ _ _ _ _ (tcp_payload_ok U _ _ _ _ H Ho' Hc)).
  assert (cast 32 (Z.of_nat (19 + length opts) + zlen (@nil Z)) = n) as ->.
  { unfold cast, n. change (zlen (@nil Z)) with 0. rewrite Z.mod_small; unfold zlen in *; lia. }
  assert (read_hdr (mkSlice (length w) (19 + length opts)) p =
    Ok (tcp_header sport dport seq ack off flags win 0 ++ opts, p)) as Er.
  { pose proof (hdr_view p _ w (tcp_header sport dport seq ack off flags win 0 ++ opts) [] (written_holds _ _ _ _ H)) as E.
    rewrite app_nil_r in E. specialize (E eq_refl). by rewrite length_app, length_tcp_header in E. }
  rewrite (M_bind_Ok _ _ _ _ _ Er). set (P := tcp.pseudo_header (tcp.b_ip U) n) in *. clearbody P.
  pose proof (tcp_header_split sport dport seq ack off flags win) as Hsplit.
  pose proof (header_head_ok sport dport seq ack off flags win) as OA.
  assert (length (header_head sport dport seq ack off flags win) = 16%nat) as LA by done.
  set (A := header_head sport dport seq ack off flags win) in *. clearbody A. set (D := be_bytes 1 0) in *.
  assert (bytes_ok (D ++ opts) ∧ length D = 1%nat) as [OB LD] by (split; [apply Forall_app; split; [apply be_bytes_ok|done]|done]).
  clearbody D. rewrite Hsplit in H |- *. clear Er.
  destruct (crc_of_ok P A (D ++ opts) OP OA OB EP) as (crc & Ec & Hcrc & Hsum);
    [rewrite LA; by exists 8%nat|done|unfold zlen in *; rewrite length_app; lia|].
  exists crc. erewrite M_bind_Ok; [|unfold lift; rewrite Ec; reflexivity]. clear Ec.
  destruct (hdr_written _ _ _ _ (w ++ A) (be_bytes 2 0) (D ++ opts) (be_bytes 2 crc)
    (mkSlice (length w) (19 + length opts)) 16 H) as (p' & E & H');
    [by rewrite <-!app_assoc|by rewrite !length_be_bytes|rewrite length_app; cbn [Cursor.off]; lia|lia|
     cbn [slen]; unfold zlen; rewrite length_be_bytes; lia|].
  exists p'. split; [exact E|]. split; [done|]. rewrite Hsplit. split; [exact Hsum|].
  apply (written_eq _ _ _ _ _ _ H'); [by rewrite <-!app_assoc|done].
Qed.
End finalize.

(** ** Whole segments *)
Section segments.
Implicit Types (p : Packet) (c : Cursor) (w opts : list Z) (o : nat).

(** The segment behind the IP header *)
Definition tcp_bytes (sport dport flags seq ack win crc : Z) opts : list Z :=
  tcp_header sport dport seq ack (16 * words_of (zlen opts)) flags win crc ++ opts.
Lemma zlen_tcp_bytes sport dport flags seq ack win crc opts :
  zlen (tcp_bytes sport dport flags seq ack win crc opts) = 19 + zlen opts.
Proof. unfold tcp_bytes, zlen. rewrite length_app, length_tcp_header. lia. Qed.

Lemma create_tcp_v4 p src dst (s d sport dport flags seq ack win : Z) opts :
  length (buffer p) = Packet.BUF_LEN → len p = 0 → length src = 6%nat → length dst = 6%nat →
  zlen opts ≤ 44 →
  ∃ p' c', tcp.create_tcp_options (mkNetAddress src (IpV4 s) sport dst (IpV4 d) dport) flags seq ack win opts p =
      Ok (tcp.mkBuilder (ip.BV4 (ip.mkBuilderV4 (mkSlice 14 20) s d 2 9 10 None)) (mkSlice 34 (19 + length opts)) c' 16, p') ∧
    written (34 + (19 + length opts)) p' c'
      ((eth_header dst src ip.ETH_TYPE_IPV4 ++ ipv4_header 0 0x06 [0; 0] s d) ++ tcp_bytes sport dport flags seq ack win 0 opts).
Proof.
  intros Hb Hl Hs Hd Hopt. assert (0 ≤ zlen opts) as Hz by (unfold zlen; lia).
  unfold tcp.create_tcp_options, tcp.from_packet.
  destruct (pc_new p Hb Hl) as (c & E & H). unfold mbind at 1, M_bind at 1, get. rewrite E.
  unfold mbind at 1, M_bind at 1, lift. unfold unwrap_M. cbn [src_mac dst_mac src_ip dst_ip src_port dst_port].
  destruct (ip_builder_v4 _ _ src dst s d H) as (p1 & c1 & p3 & c3 & E1 & E3 & H3); [done..|].
  rewrite (M_bind_Ok _ _ _ _ _ E1), (M_bind_Ok _ _ _ _ _ E3).
  assert (length (eth_header dst src ip.ETH_TYPE_IPV4) = 14%nat) as He by (unfold eth_header; len_solve).
  set (B := ip.mkBuilderV4 (mkSlice 14 20) s d 2 9 10 (Some c3)) in *. set (B' := ip.mkBuilderV4 (mkSlice 14 20) s d 2 9 10 None).
  rewrite <-(app_nil_r (_ ++ ipv4_header _ _ _ _ _)), <-app_assoc in H3.
  destruct (set_protocol_v4_written _ _ _ _ B _ _ _ _ _ _ ip.Tcp H3) as (p4 & E4 & H4); [done..|].
  destruct (set_protocol_v4_written _ _ _ _ B' _ _ _ _ _ _ ip.Tcp H4) as (p5 & E5 & H5); [done..|].
  rewrite app_nil_r in H4, H5.
  destruct (tcp_stage (ip.BV4 B) (ip.BV4 B') _ p3 p4 c3 _ sport dport flags seq ack win opts eq_refl E4 H4)
    as (p6 & c6 & E6 & H6); [by exists p5|unfold ipv4_header; len_solve..|done|].
  rewrite E6. by exists p6, c6.
Qed.

Lemma create_tcp_v6 p src dst s d (sport dport flags seq ack win : Z) opts :
  length (buffer p) = Packet.BUF_LEN → len p = 0 → length src = 6%nat → length dst = 6%nat → length s = 16%nat → length d = 16%nat →
  zlen opts ≤ 44 →
  ∃ p' c', tcp.create_tcp_options (mkNetAddress src (IpV6 s) sport dst (IpV6 d) dport) flags seq ack win opts p =
      Ok (tcp.mkBuilder (ip.BV6 (ip.mkBuilderV6 (mkSlice 14 40) s d 4 6 None)) (mkSlice 54 (19 + length opts)) c' 16, p') ∧
    written (54 + (19 + length opts)) p' c'
      ((eth_header dst src ip.ETH_TYPE_IPV6 ++ ipv6_header 0 0x06 s d) ++ tcp_bytes sport dport flags seq ack win 0 opts).
Proof.
  intros Hb Hl Hs Hd Ls Ld Hopt. assert (0 ≤ zlen opts) as Hz by (unfold zlen; lia).
  unfold tcp.create_tcp_options, tcp.from_packet.
  destruct (pc_new p Hb Hl) as (c & E & H). unfold mbind at 1, M_bind at 1, get. rewrite E.
  unfold mbind at 1, M_bind at 1, lift. unfold unwrap_M. cbn [src_mac dst_mac src_ip dst_ip src_port dst_port].
  destruct (ip_builder_v6 _ _ src dst s d H) as (p1 & c1 & p3 & c3 & E1 & E3 & H3); [done..|].
  rewrite (M_bind_Ok _ _ _ _ _ E1), (M_bind_Ok _ _ _ _ _ E3).
  assert (length (eth_header dst src ip.ETH_TYPE_IPV6) = 14%nat) as He by (unfold eth_header; len_solve).
  set (B := ip.mkBuilderV6 (mkSlice 14 40) s d 4 6 (Some c3)) in *. set (B' := ip.mkBuilderV6 (mkSlice 14 40) s d 4 6 None).
  rewrite <-(app_nil_r (_ ++ ipv6_header _ _ _ _)), <-app_assoc in H3.
  destruct (set_protocol_v6_written _ _ _ _ B _ _ _ _ _ ip.Tcp H3) as (p4 & E4 & H4); [done..|].
  destruct (set_protocol_v6_written _ _ _ _ B' _ _ _ _ _ ip.Tcp H4) as (p5 & E5 & H5); [done..|].
  rewrite app_nil_r in H4, H5.
  destruct (tcp_stage (ip.BV6 B) (ip.BV6 B') _ p3 p4 c3 _ sport dport flags seq ack win opts eq_refl E4 H4)
    as (p6 & c6 & E6 & H6); [by exists p5|unfold ipv6_header; len_solve..|done|].
  rewrite E6. by exists p6, c6.
Qed.

(** The builder's [finalize] knows the length of the segment. *)
Lemma segment_len U opts : slen (tcp.b_hdr U) = (19 + length opts)%nat → zlen opts ≤ 44 →
  cast 16 (Z.of_nat (slen (tcp.b_hdr U)) + zlen (@nil Z)) = 19 + zlen opts.
Proof. intros -> Ho. change (zlen (@nil Z)) with 0. unfold cast. rewrite Z.mod_small; unfold zlen in *; lia. Qed.

Lemma segment_v4 p src dst (s d sport dport flags seq ack win : Z) opts :
  length (buffer p) = Packet.BUF_LEN → len p = 0 → length src = 6%nat → length dst = 6%nat →
  bytes_ok opts → zlen opts ≤ 44 →
  ∃ p' crc hcrc, tcp.segment (mkNetAddress src (IpV4 s) sport dst (IpV4 d) dport) flags seq ack win opts p = Ok (tt, p') ∧
    0 < crc < 2 ^ 16 ∧ length hcrc = 2%nat ∧
    Packet.checksum (tcp.pseudo_v4 s d (19 + zlen opts) ++ tcp_bytes sport dport flags seq ack win crc opts) = 0xFFFF ∧
    holds p' (eth_header dst src ip.ETH_TYPE_IPV4 ++ ipv4_header (20 + (19 + zlen opts)) 0x06 hcrc s d
              ++ tcp_bytes sport dport flags seq ack win crc opts).
Proof.
  intros Hb Hl Hs Hd Oo Hopt. assert (0 ≤ zlen opts) as Hz by (unfold zlen; lia). unfold tcp.segment.
  destruct (create_tcp_v4 p src dst s d sport dport flags seq ack win opts) as (p6 & c6 & E & H6); [done..|].
  rewrite (M_bind_Ok _ _ _ _ _ E). clear E. set (U := tcp.mkBuilder _ _ _ _).
  assert (length (eth_header dst src ip.ETH_TYPE_IPV4) = 14%nat) as He by (unfold eth_header; len_solve).
  unfold tcp.finalize, tcp_bytes in *.
  rewrite (M_bind_Ok _ _ _ _ _ (tcp_payload_ok U _ _ _ _ H6 ltac:(rewrite !length_app, length_tcp_header, He; done) eq_refl)).
  rewrite (segment_len U opts eq_refl Hopt). cbn [tcp.b_ip U ip.finalize]. rewrite <-!app_assoc in H6.
  destruct (finalize_v4_ok (ip.mkBuilderV4 (mkSlice 14 20) s d 2 9 10 None) _ _ _ _ _ _ _ _ (19 + zlen opts) H6)
    as (p7 & E7 & H7); [lia|lia|by rewrite He|done..|].
  rewrite (M_bind_Ok _ _ _ _ _ E7). rewrite app_assoc in H7. set (hcrc := le_bytes 2 _) in H7.
  destruct (tcp_write_crc_ok U _ _ _ _ _ _ _ _ _ _ _ _ H7) as (crc & p8 & E8 & Hc & Hv & H8);
    [by rewrite length_app, He|by rewrite length_app, He|done|done|apply pseudo_v4_ok|done|done|].
  exists p8, crc, hcrc. split; [exact E8|]. split; [done|]. split; [apply length_le_bytes|]. split; [exact Hv|].
  apply written_holds in H8. by rewrite <-!app_assoc in H8.
Qed.

Lemma segment_v6 p src dst s d (sport dport flags seq ack win : Z) opts :
  length (buffer p) = Packet.BUF_LEN → len p = 0 → length src = 6%nat → length dst = 6%nat →
  length s = 16%nat → length d = 16%nat → bytes_ok s → bytes_ok d → bytes_ok opts → zlen opts ≤ 44 →
  ∃ p' crc, tcp.segment (mkNetAddress src (IpV6 s) sport dst (IpV6 d) dport) flags seq ack win opts p = Ok (tt, p') ∧
    0 < crc < 2 ^ 16 ∧
    Packet.checksum (tcp.pseudo_v6 s d (19 + zlen opts) ++ tcp_bytes sport dport flags seq ack win crc opts) = 0xFFFF ∧
    holds p' (eth_header dst src ip.ETH_TYPE_IPV6 ++ ipv6_header (19 + zlen opts) 0x06 s d
              ++ tcp_bytes sport dport flags seq ack win crc opts).
Proof.
  intros Hb Hl Hs Hd Ls Ld Os Od Oo Hopt. assert (0 ≤ zlen opts) as Hz by (unfold zlen; lia). unfold tcp.segment.
  destruct (create_tcp_v6 p src dst s d sport dport flags seq ack win opts) as (p6 & c6 & E & H6); [done..|].
  rewrite (M_bind_Ok _ _ _ _ _ E). clear E. set (U := tcp.mkBuilder _ _ _ _).
  assert (length (eth_header dst src ip.ETH_TYPE_IPV6) = 14%nat) as He by (unfold eth_header; len_solve).
  assert (∀ l, length (ipv6_header l 0x06 s d) = 40%nat) as H40 by (intros; unfold ipv6_header; len_solve).
  unfold tcp.finalize, tcp_bytes in *.
  rewrite (M_bind_Ok _ _ _ _ _ (tcp_payload_ok U _ _ _ _ H6 ltac:(rewrite !length_app, length_tcp_header, He, H40; done) eq_refl)).
  rewrite (segment_len U opts eq_refl Hopt). cbn [tcp.b_ip U ip.finalize]. rewrite <-!app_assoc in H6.
  destruct (finalize_v6_ok (ip.mkBuilderV6 (mkSlice 14 40) s d 4 6 None) _ _ _ _ _ _ _ _ (19 + zlen opts) H6)
    as (p7 & E7 & H7); [by rewrite He|done|].
  rewrite (M_bind_Ok _ _ _ _ _ E7). rewrite app_assoc in H7.
  destruct (tcp_write_crc_ok U _ _ _ _ _ _ _ _ _ _ _ _ H7) as (crc & p8 & E8 & Hc & Hv & H8);
    [by rewrite length_app, He, H40|by rewrite length_app, He, H40|done|done|by apply pseudo_v6_ok|done|done|].
  exists p8, crc. split; [exact E8|]. split; [done|]. split; [exact Hv|].
  apply written_holds in H8. by rewrite <-!app_assoc in H8.
Qed.
End segments.

(** * Parsing *)
Section parsing.
Implicit Types (p : Packet) (opts data rest : list Z).

(** What holds of every segment [parse_tcp] accepts *)
Definition tcp_in_packet p (t : tcp.Parsed) : Prop :=
  u16 (tcp.src_port t) ∧ u16 (tcp.dst_port t) ∧ u32 (tcp.seq t) ∧ u32 (tcp.ack t) ∧ u16 (tcp.window t) ∧
  u8 (tcp.flags t) ∧ bytes_ok (tcp.payload t) ∧
  part (tcp.payload t) (take (Z.to_nat (len p)) (buffer p)) ∧ zlen (tcp.payload t) ≤ len p - 54.

Lemma safe_parse_tcp p : wf_packet p → safe (tcp_in_packet p) (tcp.parse_tcp p).
Proof.
  intros Hwf. unfold tcp.parse_tcp.
  eapply (safe_bind (λ i, bytes_ok (ip.payload i) ∧ zlen (ip.payload i) ≤ len p - 34 ∧
     part (ip.payload i) (take (Z.to_nat (len p)) (buffer p)))).
  { apply safe_or_else; [|intros _]; apply safe_rmap;
      (eapply safe_weaken; [by apply safe_parse_ipv4 || by apply safe_parse_ipv6|]);
      simpl; intros; intuition lia. }
  intros i (Hok & Hlen & Hpart). cbv zeta. apply safe_if; [done|intros _].
  apply safe_if; [done|intros Hmin%Z.ltb_ge].
  eapply (safe_bind (fits 8)).
  { unfold index. destruct (ip.payload i !! 12%nat) as [b|] eqn:Eb; [|apply lookup_ge_None in Eb; unfold zlen in Hmin; lia].
    simpl. by apply (Forall_lookup_1 _ _ _ _ Hok Eb). }
  intros b [Hb0 Hb1].
  assert (0 ≤ Z.shiftr b 4 < 16) as Hs by (rewrite Z.shiftr_div_pow2 by lia; Z.div_mod_to_equations; lia).
  rewrite mul_Ok by lia. eapply (safe_bind (λ d, d = Z.shiftr b 4 * 4)); [done|]. intros d ->.
  set (d := Z.shiftr b 4 * 4) in *. clearbody d.
  apply safe_if; [done|]. intros [H1%Z.ltb_ge H2%Z.ltb_ge]%orb_false_iff.
  eapply safe_bind; [by apply safe_header|]. intros h (Hh & Hhok & _).
  eapply (safe_bind (λ pl, bytes_ok pl ∧ part pl (ip.payload i) ∧ zlen pl = zlen (ip.payload i) - d)).
  { apply safe_ok_or. intros pl Hpl. pose proof (part_range _ _ _ _ Hpl).
    apply get_range_Some in Hpl as (x & y & E & Hx & Hz). split; [by eapply part_Forall|]. split; [done|lia]. }
  intros pl (Hplok & Hplp & Hpll).
  assert (∀ a b, safe u16 (Packet.parse_u16 (get_range h a b))) as H16.
  { intros x y. eapply safe_weaken; [apply safe_parse_u16|]. intros v (l & Hl & L2 & ->).
    apply be_val_u16; [eapply part_Forall; [by eapply part_range|done]|done]. }
  assert (∀ a b, safe u32 (Packet.parse_u32 (get_range h a b))) as H32.
  { intros x y. eapply safe_weaken; [apply safe_parse_u32|]. intros v (l & Hl & L2 & ->).
    apply be_val_u32; [eapply part_Forall; [by eapply part_range|done]|done]. }
  eapply safe_bind; [apply H16|]. intros sp Hsp. eapply safe_bind; [apply H16|]. intros dp Hdp.
  eapply safe_bind; [apply H32|]. intros sq Hsq. eapply safe_bind; [apply H32|]. intros ac Hac.
  eapply safe_bind; [apply H16|]. intros wn Hwn.
  eapply (safe_bind (fits 8)); [apply safe_ok_or; intros f Hf; by apply (Forall_lookup_1 _ _ _ _ Hhok Hf)|].
  intros f Hf. simpl. split_and!; try done; [by eapply part_trans|cbn; lia].
Qed.

(** The TCP part, once the IP layer gave the payload: [k], the data offset in words *)
Lemma parse_tcp_body p (i : ip.Parsed) (sport dport seq ack k flags win : Z) rest :
  or_else (rmap ip.V4 (ip.parse_ipv4 p)) (λ _, rmap ip.V6 (ip.parse_ipv6 p)) = Ok i →
  ip.protocol i = tcp.IP_PROT_TCP →
  ip.payload i = header_head sport dport seq ack (16 * k) flags win ++ rest →
  u16 sport → u16 dport → u32 seq → u32 ack → u16 win → u8 flags → 0 ≤ k ≤ 15 → 4 ≤ zlen rest →
  tcp.parse_tcp p =
    if (k <? 5) || (16 + zlen rest <? 4 * k) then Err InvalidLength
    else Ok (tcp.mkParsed i sport dport seq ack win flags (drop (Z.to_nat (4 * k - 16)) rest)).
Proof.
  intros Hip Hprot Hpl Us Ud Uq Ua Uw Uf Hk Hr. unfold tcp.parse_tcp. rewrite Hip. cbn [mbind res_bind].
  rewrite Hprot, Hpl, Z.eqb_refl. cbn [negb]. cbv zeta.
  set (hd := header_head sport dport seq ack (16 * k) flags win).
  assert (zlen (hd ++ rest) = 16 + zlen rest) as Hlen by (unfold zlen; rewrite length_app; change (length hd) with 16%nat; lia).
  rewrite Hlen, (proj2 (Z.ltb_ge _ _)) by lia.
  assert ((hd ++ rest) !! 12%nat = Some ((16 * k) mod 256)) as E12 by done.
  rewrite (index_lookup _ _ _ E12). cbn [mbind res_bind]. rewrite (Z.mod_small (16 * k)) by lia.
  replace (Z.shiftr (16 * k) 4) with k by (rewrite Z.shiftr_div_pow2 by lia; change (2 ^ 4) with 16; rewrite Z.mul_comm, Z.div_mul; lia).
  rewrite mul_Ok by lia. cbn [mbind res_bind].
  replace (k * 4 <? 20) with (k <? 5) by (apply eq_true_iff_eq; rewrite !Z.ltb_lt; lia). rewrite (Z.mul_comm k 4).
  destruct (Z.ltb_spec k 5) as [|H5]; [done|]. destruct (Z.ltb_spec (16 + zlen rest) (4 * k)) as [|Hfit]; [done|]. cbn [orb].
  set (m := Z.to_nat (4 * k - 16)). assert (zlen (take m rest) = 4 * k - 16) as Lt by (unfold zlen in *; rewrite length_take; lia).
  rewrite (get_range_eq _ [] (hd ++ take m rest) (drop m rest)); [|cbn [app]; by rewrite <-app_assoc, take_drop|done|].
  2:{ unfold zlen in *. rewrite length_app. change (length hd) with 16%nat. lia. }
  cbn [ok_or mbind res_bind]. rewrite (get_from_app _ (hd ++ take m rest) (drop m rest)); [|by rewrite <-app_assoc, take_drop|].
  2:{ unfold zlen in *. rewrite length_app. change (length hd) with 16%nat. lia. }
  cbn [ok_or mbind res_bind]. set (tl := take m rest).
  assert (hd ++ tl = be_bytes 2 sport ++ be_bytes 2 dport ++ be_bytes 4 seq ++ be_bytes 4 ack ++ be_bytes 1 (16 * k)
    ++ be_bytes 1 flags ++ be_bytes 2 win ++ tl) as Eh by (unfold hd, header_head; by rewrite <-!app_assoc).
  assert ((hd ++ tl) !! 13%nat = Some (flags mod 256)) as E13 by done. rewrite E13. rewrite Eh.
  range_at 0 2 (@nil Z) (be_bytes 2 sport) (be_bytes 2 dport ++ be_bytes 4 seq ++ be_bytes 4 ack ++ be_bytes 1 (16 * k) ++ be_bytes 1 flags ++ be_bytes 2 win ++ tl).
  rewrite parse_u16_be by done. cbn [mbind res_bind].
  range_at 2 4 (be_bytes 2 sport) (be_bytes 2 dport) (be_bytes 4 seq ++ be_bytes 4 ack ++ be_bytes 1 (16 * k) ++ be_bytes 1 flags ++ be_bytes 2 win ++ tl).
  rewrite parse_u16_be by done. cbn [mbind res_bind].
  range_at 4 8 (be_bytes 2 sport ++ be_bytes 2 dport) (be_bytes 4 seq) (be_bytes 4 ack ++ be_bytes 1 (16 * k) ++ be_bytes 1 flags ++ be_bytes 2 win ++ tl).
  rewrite parse_u32_be by done. cbn [mbind res_bind].
  range_at 8 12 (be_bytes 2 sport ++ be_bytes 2 dport ++ be_bytes 4 seq) (be_bytes 4 ack) (be_bytes 1 (16 * k) ++ be_bytes 1 flags ++ be_bytes 2 win ++ tl).
  rewrite parse_u32_be by done. cbn [mbind res_bind].
  range_at 14 16 (be_bytes 2 sport ++ be_bytes 2 dport ++ be_bytes 4 seq ++ be_bytes 4 ack ++ be_bytes 1 (16 * k) ++ be_bytes 1 flags) (be_bytes 2 win) tl.
  rewrite parse_u16_be by done. cbn [ok_or mbind res_bind]. unfold fits in Uf. by rewrite (Z.mod_small flags).
Qed.
(** The format (RFC 9293) behind an IP header with protocol 6: ports at 0 and 2, sequence and
    acknowledgement numbers at 4 and 8, the data offset in words in the upper half of byte 12,
    the flags at 13, the window at 14; options up to the data offset, then the data *)
Definition tcp_format (r : list Z) : option tcp.Parsed :=
  i ← ip_format r;
  let q := ip.payload i in
  let offset := 4 * (word q 12 1 / 16) in
  if (ip.protocol i =? 6) && (20 <=? zlen q) && (20 <=? offset) && (offset <=? zlen q)
  then Some (tcp.mkParsed i (word q 0 2) (word q 2 2) (word q 4 4) (word q 8 4) (word q 14 2) (word q 13 1)
    (bytes_at q offset (zlen q - offset))) else None.

Lemma parse_tcp_format p : wf_packet p → agrees (tcp.parse_tcp p) (tcp_format (frame p)).
Proof.
  intros Hwf. unfold tcp.parse_tcp, tcp_format. apply after_ip; [done|]. intros i Hok. set (q := ip.payload i) in *.
  cbv zeta. change tcp.IP_PROT_TCP with 6. apply agrees_err; [intros ->%negb_true_iff; done|intros ->%negb_false_iff]. cbn [andb].
  destruct (Z.leb_spec 20 (zlen q)) as [H20|H20]; [|rewrite (proj2 (Z.ltb_lt _ _)) by lia; by eexists].
  rewrite (proj2 (Z.ltb_ge _ _)) by lia. cbn [andb]. rewrite (index_in q) by lia. cbn [mbind res_bind].
  change (Z.of_nat 12) with 12. pose proof (word_bound q 12 1 Hok ltac:(lia)) as B12. change (2 ^ (8 * 1)) with 256 in B12.
  rewrite Z.shiftr_div_pow2 by lia. change (2 ^ 4) with 16.
  assert (0 ≤ word q 12 1 / 16 < 16) as Hw by (Z.div_mod_to_equations; lia).
  rewrite mul_Ok by lia. cbn [mbind res_bind]. rewrite (Z.mul_comm _ 4). set (d := 4 * (word q 12 1 / 16)) in *.
  apply agrees_err.
  { rewrite orb_true_iff, !Z.ltb_lt. intros [H|H]; [by rewrite (proj2 (Z.leb_gt _ _)) by lia|].
    rewrite (proj2 (Z.leb_gt d (zlen q))) by lia. by rewrite andb_false_r. }
  rewrite orb_false_iff, !Z.ltb_ge. intros [H1 H2]. rewrite !(proj2 (Z.leb_le _ _)) by lia. cbn [andb agrees].
  unfold get_from. rewrite !(range_in q) by lia. cbn [ok_or mbind res_bind].
  set (h := bytes_at q 0 (d - 0)). assert (zlen h = d) as Hh by (unfold h; rewrite zlen_at; lia).
  rewrite !(range_in h) by lia. change (2 - 0) with 2. change (4 - 2) with 2. change (8 - 4) with 4. change (12 - 8) with 4. change (16 - 14) with 2.
  rewrite !(u16_in h), !(u32_in h) by lia. cbn [mbind res_bind].
  destruct (lookup_lt_is_Some_2 h 13) as [fl Hfl]; [unfold zlen in Hh; lia|].
  pose proof (index_in (E := unit) h 13 ltac:(lia)) as E13. unfold index in E13. rewrite Hfl in E13 |- *. cbn [unwrap] in E13.
  injection E13 as ->. cbn [ok_or mbind res_bind]. change (Z.of_nat 13) with 13. unfold h. rewrite !format_word_at by lia. reflexivity.
Qed.
End parsing.

(** * Frames *)
Section frames.
Implicit Types (p : Packet) (opts data body : list Z) (addr : NetAddress).

(** An Ethernet frame that carries [body] as TCP, over either IP *)
Definition ip_frame addr (hcrc : list Z) body : list Z :=
  match src_ip addr, dst_ip addr with
  | IpV4 s, IpV4 d => eth_header (dst_mac addr) (src_mac addr) 0x0800
      ++ ipv4_header (20 + zlen body) 0x06 hcrc s d ++ body
  | IpV6 s, IpV6 d => eth_header (dst_mac addr) (src_mac addr) 0x86DD
      ++ ipv6_header (zlen body) 0x06 s d ++ body
  | _, _ => []
  end.

Lemma ip_layer p addr hcrc body :
  holds p (ip_frame addr hcrc body) → wf_address addr → length hcrc = 2%nat →
  ∃ i, or_else (rmap ip.V4 (ip.parse_ipv4 p)) (λ _, rmap ip.V6 (ip.parse_ipv6 p)) = Ok i ∧
    ip.protocol i = tcp.IP_PROT_TCP ∧ ip.payload i = body ∧ ip.src_ip i = src_ip addr ∧ ip.dst_ip i = dst_ip addr ∧
    eth.src_mac (ip.parsed_eth i) = src_mac addr ∧ eth.dst_mac (ip.parsed_eth i) = dst_mac addr.
Proof.
  destruct addr as [sm si sp dm di dp]. unfold wf_address, ip_frame. cbn [src_mac dst_mac src_ip dst_ip src_port dst_port].
  intros H (Hs & Hd & _ & _ & Hip) Hc. assert (0 ≤ zlen body) as Hz by (unfold zlen; lia).
  assert (zlen body < 2 ^ 15) as Hmax.
  { pose proof (h_max _ _ H) as Hm. revert Hm. unfold Packet.MAX_PACKET_LEN, zlen in *.
    destruct si, di; try done; rewrite !length_app; lia. }
  destruct si as [s|s], di as [d|d]; [|done..|].
  - destruct Hip as [U1 U2]. pose proof (parse_ipv4_frame p dm sm (zlen body) _ s d _ _ H) as Ep.
    rewrite Ep by (done || lia). cbn [rmap or_else mbind res_bind]. eexists. split; [reflexivity|]. done.
  - destruct Hip as (L1 & L2 & _ & _).
    assert (ip.parse_ipv4 p = Err UnsupportedVersion) as E4
      by (unfold ip.parse_ipv4; by rewrite (parse_eth_frame p dm sm _ _ H)).
    pose proof (parse_ipv6_frame p dm sm (zlen body) _ s d _ H) as Ep.
    rewrite E4, Ep by (done || lia). cbn [rmap or_else mbind res_bind]. eexists. split; [reflexivity|]. done.
Qed.

(** A parsed segment is the one that was sent. *)
Definition is_segment addr (flags seq ack win : Z) data (t : tcp.Parsed) : Prop :=
  tcp.payload t = data ∧ tcp.flags t = flags ∧ tcp.seq t = seq ∧ tcp.ack t = ack ∧ tcp.window t = win ∧
  tcp.src_port t = src_port addr ∧ tcp.dst_port t = dst_port addr ∧
  ip.src_ip (tcp.ip t) = src_ip addr ∧ ip.dst_ip (tcp.ip t) = dst_ip addr ∧
  eth.src_mac (ip.parsed_eth (tcp.ip t)) = src_mac addr ∧ eth.dst_mac (ip.parsed_eth (tcp.ip t)) = dst_mac addr.

(** C35. [parse_tcp] panics on no packet.  It accepts exactly the segments of the standard in
    IPv4 packets without options and fragments and in IPv6 packets without extension headers,
    and returns exactly the fields at the offsets of the format: with any TCP options and any
    payload, and with any time to live, identification, "don't fragment" and padding.  (The
    checksum is not verified, neither by the parser nor by the format.)  The fields it returns
    are at their widths, and the payload lies in the packet behind at least 54 bytes of headers. *)
Theorem parse_tcp_correct p :
  wf_packet p →
  returns (tcp.parse_tcp p) ∧ (∀ t, tcp.parse_tcp p = Ok t ↔ tcp_format (frame p) = Some t) ∧
  ∀ t, tcp.parse_tcp p = Ok t → tcp_in_packet p t.
Proof.
  intros Hwf. destruct (agrees_iff _ _ (parse_tcp_format p Hwf)) as [H1 H2]. split; [done|]. split; [done|].
  pose proof (safe_parse_tcp p Hwf) as Hs. intros t E. by rewrite E in Hs.
Qed.

(** What a receiver checks (RFC 9293, 3.1): the pseudo header of the addresses, the protocol
    number 6 and the length, in front of the segment, sums up to 0xFFFF in one's complement, that
    is, to a positive multiple of it. *)
Definition pseudo_of addr (n : Z) : list Z :=
  match src_ip addr, dst_ip addr with
  | IpV4 s, IpV4 d => be_bytes 4 s ++ be_bytes 4 d ++ [0; 6] ++ be_bytes 2 n
  | IpV6 s, IpV6 d => s ++ d ++ be_bytes 4 n ++ [0; 0; 0; 6]
  | _, _ => []
  end.
Definition verifies addr body : Prop := ∃ k, 0 < k ∧ word_sum (pseudo_of addr (zlen body) ++ body) = 65535 * k.

Lemma tcp_bytes_ok sport dport flags seq ack win crc opts : bytes_ok opts → bytes_ok (tcp_bytes sport dport flags seq ack win crc opts).
Proof. intros Ho. unfold tcp_bytes, tcp_header. rewrite !Forall_app. repeat split; (apply be_bytes_ok || done). Qed.
Lemma verifies_checksum l : bytes_ok l → zlen l ≤ 65536 → Packet.checksum l = 0xFFFF → ∃ k, 0 < k ∧ word_sum l = 65535 * k.
Proof.
  intros Hok Hl. rewrite checksum_spec by done. pose proof (word_sum_bound l Hok). unfold ones_norm.
  destruct (Z.eqb_spec (word_sum l) 0) as [|Hne]; [lia|]. intros Hm. exists (word_sum l / 65535). Z.div_mod_to_equations. lia.
Qed.
Lemma segment_frame p addr flags seq ack win opts :
  length (buffer p) = Packet.BUF_LEN → len p = 0 → wf_address addr → bytes_ok opts → zlen opts ≤ 44 →
  ∃ p' crc hcrc, tcp.segment addr flags seq ack win opts p = Ok (tt, p') ∧ length hcrc = 2%nat ∧
    holds p' (ip_frame addr hcrc (tcp_bytes (src_port addr) (dst_port addr) flags seq ack win crc opts)) ∧
    verifies addr (tcp_bytes (src_port addr) (dst_port addr) flags seq ack win crc opts).
Proof.
  intros Hb Hl Ha Oo Hopt. destruct addr as [sm si sp dm di dp]. unfold wf_address, ip_frame, verifies, pseudo_of in *.
  cbn [src_mac dst_mac src_ip dst_ip src_port dst_port] in *. destruct Ha as (Hs & Hd & Us & Ud & Hip).
  destruct si as [s|s], di as [d|d]; [|done..|].
  - destruct (segment_v4 p sm dm s d sp dp flags seq ack win opts) as (p' & crc & hcrc & E & _ & Hc & Hsum & Hp); [done..|].
    exists p', crc, hcrc. rewrite zlen_tcp_bytes. split; [done|]. split; [done|]. split; [done|]. apply verifies_checksum.
    + rewrite !Forall_app. repeat split; try apply be_bytes_ok; [by apply bytes_ok_check|by apply tcp_bytes_ok].
    + pose proof (zlen_tcp_bytes sp dp flags seq ack win crc opts). unfold zlen in *. rewrite !length_app, !length_be_bytes. cbn [length]. lia.
    + rewrite <-Hsum. unfold tcp.pseudo_v4. do 5 f_equal. unfold cast. rewrite Z.mod_small by (unfold zlen in *; lia). reflexivity.
  - destruct Hip as (L1 & L2 & B1 & B2).
    destruct (segment_v6 p sm dm s d sp dp flags seq ack win opts) as (p' & crc & E & _ & Hsum & Hp); [done..|].
    exists p', crc, [0; 0]. rewrite zlen_tcp_bytes. split; [done|]. split; [done|]. split; [done|]. apply verifies_checksum.
    + rewrite !Forall_app. repeat split; try done; [apply be_bytes_ok|by apply bytes_ok_check|by apply tcp_bytes_ok].
    + pose proof (zlen_tcp_bytes sp dp flags seq ack win crc opts). unfold zlen in *. rewrite !length_app, !length_be_bytes. cbn [length]. lia.
    + exact Hsum.
Qed.

(** C36. The segments the kernel builds without data, with up to 44 bytes of options: their
    checksum verifies at a receiver that follows RFC 9293, but the header is a byte short of the
    standard's, since the urgent pointer is written as one byte.  So [parse_tcp] refuses a segment
    without options; with options it returns the numbers that were sent, and the options' tail
    that does not fill a word of the header (none only if their number is one more than a multiple
    of four) as payload. *)
Theorem built_segments_parse p addr flags seq ack win opts :
  length (buffer p) = Packet.BUF_LEN → len p = 0 → wf_address addr →
  u8 flags → u32 seq → u32 ack → u16 win → bytes_ok opts → zlen opts ≤ 44 →
  ∃ p' crc hcrc, tcp.segment addr flags seq ack win opts p = Ok (tt, p') ∧
    holds p' (ip_frame addr hcrc (tcp_bytes (src_port addr) (dst_port addr) flags seq ack win crc opts)) ∧
    verifies addr (tcp_bytes (src_port addr) (dst_port addr) flags seq ack win crc opts) ∧
    if zlen opts =? 0 then tcp.parse_tcp p' = Err InvalidLength
    else ∃ t, tcp.parse_tcp p' = Ok t ∧
      is_segment addr flags seq ack win (drop (Z.to_nat (4 * words_of (zlen opts) - 19)) opts) t.
Proof.
  intros Hb Hl Ha Uf Uq Ua Uw Oo Hopt. assert (0 ≤ zlen opts) as Hz by (unfold zlen; lia).
  destruct (segment_frame p addr flags seq ack win opts Hb Hl Ha Oo Hopt) as (p' & crc & hcrc & E & Hc & Hp & Hsum).
  exists p', crc, hcrc. split; [done|]. split; [done|]. split; [done|].
  destruct (ip_layer p' addr hcrc _ Hp Ha Hc) as (i & Ei & Hprot & Hpl & Hi). clear E Hsum Hp.
  pose proof Ha as (_ & _ & Us & Ud & _). unfold tcp_bytes in Hpl. rewrite tcp_header_split in Hpl.
  set (rest := be_bytes 2 crc ++ be_bytes 1 0 ++ opts) in *.
  assert (zlen rest = 3 + zlen opts) as Lr by (unfold rest, zlen; rewrite !length_app, !length_be_bytes; lia).
  pose proof (offset_byte (zlen opts) ltac:(lia)) as (_ & Hw & _).
  assert (4 * words_of (zlen opts) ≤ 19 + zlen opts < 4 * words_of (zlen opts) + 4) as Hk
    by (unfold words_of; Z.div_mod_to_equations; lia).
  destruct (Z.eqb_spec (zlen opts) 0) as [E0|Hne].
  - unfold tcp.parse_tcp. rewrite Ei. cbn [mbind res_bind]. rewrite Hprot, Z.eqb_refl. cbn [negb]. cbv zeta.
    rewrite Hpl, (proj2 (Z.ltb_lt _ _)); [done|]. unfold zlen in *. rewrite length_app.
    change (length (header_head _ _ _ _ _ _ _)) with 16%nat. lia.
  - set (k := words_of (zlen opts)) in *.
    rewrite (parse_tcp_body p' i _ _ seq ack k flags win rest Ei Hprot Hpl) by (done || lia).
    rewrite (proj2 (Z.ltb_ge k 5)), (proj2 (Z.ltb_ge _ (4 * k))) by lia. cbn [orb].
    eexists. split; [reflexivity|]. unfold is_segment.
    cbn [tcp.payload tcp.flags tcp.seq tcp.ack tcp.window tcp.src_port tcp.dst_port tcp.ip]. split; [|done].
    unfold rest. rewrite app_assoc. replace (Z.to_nat (4 * k - 16)) with (3 + Z.to_nat (4 * k - 19))%nat by lia.
    change 3%nat with (length (be_bytes 2 crc ++ be_bytes 1 0)). apply drop_app_add.
Qed.
End frames.

(** * Witnesses *)
Definition packet_of (w : list Z) : Packet := mkPacket (w ++ replicate (Packet.BUF_LEN - length w) 0) (zlen w) 0.
Lemma packet_of_holds w : zlen w ≤ Packet.MAX_PACKET_LEN → bytes_ok w → holds (packet_of w) w ∧ wf_packet (packet_of w).
Proof.
  intros Hm Ho. unfold Packet.MAX_PACKET_LEN, zlen in Hm.
  assert (length (buffer (packet_of w)) = Packet.BUF_LEN) as Hb
    by (cbn [packet_of buffer]; rewrite length_app, length_replicate; unfold Packet.BUF_LEN; lia).
  split; split; try done.
  - cbn [packet_of buffer]. apply take_app_length.
  - cbn [packet_of buffer]. apply Forall_app. split; [done|]. by apply Forall_replicate.
  - cbn [packet_of len]. unfold zlen. lia.
Qed.

(** An answer of a server in a frame the kernel would not build: SYN-ACK with a maximum
    segment size, a byte of data and padding behind it, "don't fragment", time to live 57 *)
Definition syn_ack : list Z :=
  [2;0;0;0;0;1; 2;0;0;0;0;2; 8;0; 0x45;0; 0;45; 0x9A;1; 0x40;0; 57;6; 1;2; 10;0;0;2; 10;0;0;1;
   0;80; 19;136; 0;0;3;232; 0;0;0;8; 0x60;0x12; 2;0; 3;4; 0;0; 2;4;5;0xB4; 0x2A; 0].
Lemma parse_tcp_correct_witness :
  ∃ t, tcp.parse_tcp (packet_of syn_ack) = Ok t ∧ tcp.src_port t = 80 ∧ tcp.dst_port t = 5000 ∧ tcp.seq t = 1000 ∧
    tcp.ack t = 8 ∧ tcp.flags t = 0x12 ∧ tcp.window t = 512 ∧ tcp.payload t = [0x2A].
Proof.
  destruct (packet_of_holds syn_ack) as [_ Hw]; [done|by apply bytes_ok_check|].
  destruct (parse_tcp_correct _ Hw) as (_ & H & _).
  destruct (tcp_format (frame (packet_of syn_ack))) as [t|] eqn:E; [|vm_compute in E; discriminate E].
  exists t. split; [apply (H t); reflexivity|]. vm_compute in E. injection E as <-. vm_compute. done.
Defined.

(** The SYN of [tcp_connect]: three of its four option bytes arrive as data. *)
Lemma built_segments_parse_witness :
  ∃ p' t, tcp.segment sample_v4 tcp.TCP_SYN 7 0 65535 [2; 4; 5; 0x8C] (Packet.new 0) = Ok (tt, p') ∧
    tcp.parse_tcp p' = Ok t ∧ is_segment sample_v4 tcp.TCP_SYN 7 0 65535 [4; 5; 0x8C] t.
Proof.
  assert (bytes_ok [2; 4; 5; 0x8C]) as Ho by by apply bytes_ok_check.
  assert (wf_address sample_v4) as Ha by by unfold wf_address.
  destruct (built_segments_parse (Packet.new 0) sample_v4 tcp.TCP_SYN 7 0 65535 [2; 4; 5; 0x8C]
    eq_refl eq_refl Ha ltac:(done) ltac:(done) ltac:(done)
    ltac:(done) Ho ltac:(done)) as (p' & crc & hcrc & E & _ & _ & t & Ep & Ht).
  exists p', t. split; [exact E|]. split; [exact Ep|exact Ht].
Defined.
