(* ===== verification/TcpConn.v ===== *)
(** TCP connections: the state machine of kernel/src/net/protocols/tcp.rs.

    The file is not part of the kernel's module tree and does not compile as it stands.  Read
    here: the fields [ack], [remote_ack] and [remote_window] that [handle_packet] uses are
    fields of [Internal] (the struct and the literal of [tcp_connect] leave them out, so their
    first values are arguments), [seq.ack] is [self.ack], [Tcp::SynSent] is [TcpState::Syn],
    and the registry [tcp_connections] is a map from ports.  [send], which mentions a device
    and a flag that are nowhere declared, and [recv], which is a stub, are left out.

    A connection runs on the device it was made for; the shared connection behind its [Arc]
    is the registry's entry. *)
From Stdlib Require Import ZArith Lia.
From stdpp Require Import prelude list numbers gmap.
From S2P Require Import Prelude Cursor Packet Net NetBuild NetParse NetFormat NetDevice Tcp.

Module TcpConn.

Inductive TcpState := Closed | Syn | Established.
#[global] Instance TcpState_eq_dec : EqDecision TcpState.
Proof. solve_decision. Defined.

Record Internal := mkInternal {
  window : list Z; server : NetAddress; state : TcpState; port : Z; seq : Z;
  ack : Z; remote_ack : Z; remote_window : Z }.

Definition set_state (st : TcpState) (c : Internal) : Internal :=
  mkInternal (window c) (server c) st (port c) (seq c) (ack c) (remote_ack c) (remote_window c).
Definition set_seq (n : Z) (c : Internal) : Internal :=
  mkInternal (window c) (server c) (state c) (port c) n (ack c) (remote_ack c) (remote_window c).
Definition set_ack (n : Z) (c : Internal) : Internal :=
  mkInternal (window c) (server c) (state c) (port c) (seq c) n (remote_ack c) (remote_window c).
Definition set_window (w : list Z) (c : Internal) : Internal :=
  mkInternal w (server c) (state c) (port c) (seq c) (ack c) (remote_ack c) (remote_window c).
Definition set_remote (a w : Z) (c : Internal) : Internal :=
  mkInternal (window c) (server c) (state c) (port c) (seq c) (ack c) a w.

(** [flags & flag != 0] *)
Definition has (flags flag : Z) : bool := negb (Z.land flags flag =? 0).

Section ops.
Context {D : Type} `{NetDriver D}.
Abbreviation St := (NetDevice D).

(** A segment without data, built and sent; the window is what is free of ours. *)
Definition send_segment (c : Internal) (flags seq ack : Z) (options : list Z) : M St unit unit :=
  packet ← Dev.allocate_packet;
  free ← lift (sub tcp.WINDOW_SIZE (zlen (window c)));
  '(_, packet) ← Dev.on_packet packet (tcp.segment (server c) flags seq ack (cast 16 free) options);
  Dev.send packet true.

(** The part of [handle_packet] that takes data; [None] drops the packet. *)
Definition take_data (self : Internal) (tcp : tcp.Parsed) : res unit (option (Internal * bool)) :=
  if bool_decide (state self = Established) && (0 <? zlen (tcp.payload tcp)) then
    room ← sub tcp.WINDOW_SIZE (zlen (window self));
    if room <? zlen (tcp.payload tcp) then Ok None
    else
      let self := set_window (window self ++ tcp.payload tcp) self in
      Ok (Some (set_ack (wrapping_add 32 (ack self) (cast 32 (zlen (tcp.payload tcp)))) self, true))
  else Ok (Some (self, false)).

Definition handle_packet (self : Internal) (tcp : tcp.Parsed) : M St unit (option unit * Internal) :=
  _ ← lift (assert (port self =? tcp.dst_port tcp));
  if bool_decide (state self = Closed) then mret (None, self) else
  if has (tcp.flags tcp) tcp.TCP_RST then mret (None, set_state Closed self) else
  if negb (has (tcp.flags tcp) tcp.TCP_ACK) then mret (None, self) else
  let unacked := wrapping_sub 32 (seq self) (remote_ack self) in
  if unacked <? wrapping_sub 32 (tcp.ack tcp) (remote_ack self) then mret (None, self) else
  if bool_decide (state self = Established) && negb (tcp.seq tcp =? ack self) then mret (None, self) else
  taken ← lift (take_data self tcp);
  match taken with
  | None => mret (None, self)
  | Some (self, should_ack) =>
      let '(self, should_ack) :=
        if (bool_decide (state self = Syn) || bool_decide (state self = Established))
           && has (tcp.flags tcp) tcp.TCP_SYN
        then (set_ack (wrapping_add 32 (tcp.seq tcp) 1) (set_state Established self), true)
        else (self, should_ack) in
      _ ← (if should_ack : bool then send_segment self tcp.TCP_ACK (seq self) (ack self) [] else mret tt);
      mret (Some tt, set_remote (tcp.ack tcp) (tcp.window tcp) self)
  end.

(** ** The registry of connections *)
Abbreviation Cons := (gmap Z Internal).

(** A packet that parses is handled by the connection of its port, if there is one; its lease
    ends either way. *)
Definition discard_tcp (cons : Cons) (packet : option Packet) : M St unit (option Packet * Cons) :=
  match packet with
  | None => mret (None, cons)
  | Some pk =>
      match tcp.parse_tcp pk with
      | Ok tcp =>
          match cons !! tcp.dst_port tcp with
          | Some con =>
              '(_, con) ← handle_packet con tcp;
              _ ← Dev.release pk;
              mret (None, <[tcp.dst_port tcp := con]> cons)
          | None => _ ← Dev.release pk; mret (None, cons)
          end
      | Err _ => mret (Some pk, cons)
      | Panic => panic
      | Diverge => diverge
      end
  end.

(** The SYN of a new connection *)
Definition MSS_OPTION : list Z := [2; 4; cast 8 (Z.shiftr tcp.MAX_MSS 8); cast 8 (Z.land tcp.MAX_MSS 0xFF)].
Definition send_syn (con : Internal) : M St unit Internal :=
  _ ← send_segment con tcp.TCP_SYN (seq con) 0 MSS_OPTION;
  mret (set_state Syn (set_seq (wrapping_add 32 (seq con) 1) con)).

(** The wait for the SYN-ACK: whether the connection was established before [timeout] *)
Fixpoint await_established (fuel : nat) (timeout p : Z) (cons : Cons) : M St unit (bool * Cons) :=
  match fuel with
  | O => diverge
  | S fuel =>
      con ← lift (unwrap (cons !! p));
      if bool_decide (state con = Established) then mret (true, cons) else
      t ← Dev.drv rdtsc;
      if timeout <=? t then mret (false, delete p cons) else
      o ← Dev.recv;
      match o with
      | None => await_established fuel timeout p cons
      | Some pkt =>
          match tcp.parse_tcp pkt with
          | Ok tcp =>
              if negb (tcp.dst_port tcp =? p) then _ ← Dev.discard pkt; await_established fuel timeout p cons
              else
                '(_, con) ← handle_packet con tcp;
                _ ← Dev.release pkt;
                await_established fuel timeout p (<[p := con]> cons)
          | Err _ => _ ← Dev.discard pkt; await_established fuel timeout p cons
          | Panic => panic
          | Diverge => diverge
          end
      end
  end.

(** The turns of ['rebind], on the static [NEXT_FREE_PORT]: the port of the connection, the
    next port and the registry.  [first]: the fields the literal leaves out. *)
Fixpoint tcp_connect (retries fuel : nat) (first : Z * Z * Z) (dst_ip dst_port next : Z) (cons : Cons)
    : M St unit (option Z * Z * Cons) :=
  match retries with
  | O => mret (None, next, cons)
  | S retries =>
      let '(p, next) := Port.next_free next in
      server ← Dev.resolve fuel p dst_port dst_ip;
      match server with
      | None => mret (None, next, cons)
      | Some server =>
          match cons !! p with
          | Some _ => tcp_connect retries fuel first dst_ip dst_port next cons
          | None =>
              t ← Dev.drv rdtsc;
              let '(ack, remote_ack, remote_window) := first in
              let con := mkInternal [] server Closed p (cast 32 t) ack remote_ack remote_window in
              con ← send_syn con;
              let cons := <[p := con]> cons in
              timeout ← Dev.future tcp.TIMEOUT;
              '(established, cons) ← await_established fuel timeout p cons;
              if established : bool then mret (Some p, next, cons)
              else tcp_connect retries fuel first dst_ip dst_port next cons
          end
      end
  end.

End ops.
End TcpConn.

(** * The invariant of a connection *)
Module TcpFacts.
Import TcpConn.

(** The fields at their widths: the window never holds more than the 16 bits can offer. *)
Record conn_ok (c : Internal) : Prop := {
  co_addr : wf_address (server c);
  co_window : zlen (window c) ≤ tcp.WINDOW_SIZE;
  co_bytes : bytes_ok (window c);
  co_seq : u32 (seq c);
  co_ack : u32 (ack c);
  co_remote : u32 (remote_ack c) ∧ u16 (remote_window c);
}.
(** What [parse_tcp] gives *)
Definition fields_ok (t : tcp.Parsed) : Prop :=
  u32 (tcp.seq t) ∧ u32 (tcp.ack t) ∧ u16 (tcp.window t) ∧ bytes_ok (tcp.payload t).
Lemma in_packet_fields p t : tcp_in_packet p t → fields_ok t.
Proof. intros (? & ? & ? & ? & ? & ? & ? & ?). done. Qed.

Lemma u32_mod x : u32 (x mod 2 ^ 32).
Proof. apply Z.mod_pos_bound. lia. Qed.
#[local] Hint Resolve u32_mod : core.

Section stack.
Context {D : Type} `{Hdrv : NetDriver D} {Hlaws : NetDriverLaws D}.
Implicit Types (dev : NetDevice D) (hs : list Packet) (c : Internal) (t : tcp.Parsed).

Lemma segment_keeps addr flags sq ak win opts : keeps (tcp.segment addr flags sq ak win opts).
Proof.
  pose proof eth_new_keeps. pose proof ip_keeps.
  unfold tcp.segment, tcp.create_tcp_options, tcp.from_packet, tcp.tcp, tcp.Builder_new, ip.set_protocol,
    ip.set_protocol_v4, ip.set_protocol_v6, PacketCursor.write_u8, PacketCursor.write_u16, PacketCursor.write_u32,
    tcp.finalize, tcp.payload_bytes, ip.finalize, ip.finalize_v4, ip.finalize_v6, ip.write_len_v4, ip.write_len_v6,
    ip.write_crc_v4, tcp.write_crc, tcp.payload_bytes. keep.
Qed.
(** The frame of a segment from and to [addr], with a checksum that verifies *)
Definition segment_in addr (flags sq ak win : Z) (opts : list Z) (q : Packet) : Prop :=
  ∃ crc hcrc, let body := tcp_bytes (src_port addr) (dst_port addr) flags sq ak win crc opts in
    holds q (ip_frame addr hcrc body) ∧ verifies addr body.
Lemma segment_ok p addr flags sq ak win opts : blank p → wf_address addr → bytes_ok opts → zlen opts ≤ 44 →
  ∃ p', tcp.segment addr flags sq ak win opts p = Ok (tt, p') ∧ sendable p' ∧ paddr p' = paddr p ∧
    segment_in addr flags sq ak win opts p'.
Proof.
  intros [Hb Hl] Ha Ho Hn. destruct (segment_frame p addr flags sq ak win opts) as (p' & crc & hcrc & E & _ & Hh & Hv); [done..|].
  exists p'. split; [done|]. pose proof (segment_keeps addr flags sq ak win opts p) as Hk. rewrite E in Hk.
  split; [by eapply holds_sendable|]. split; [done|]. by exists crc, hcrc.
Qed.

Lemma runs_send_segment dev hs c flags sq ak opts : inv dev hs → conn_ok c → bytes_ok opts → zlen opts ≤ 44 →
  runs (send_segment c flags sq ak opts) dev (λ _ dev', inv dev' hs ∧ kept dev dev').
Proof.
  intros Hi Hc Ho Hn. unfold send_segment. eapply runs_bind; [by apply runs_allocate|]. intros p dev1 (Hi1 & Hb & Hk1).
  eapply (runs_bind _ _ _ (λ _ dev', dev' = dev1)).
  { eapply runs_lift; [apply sub_Ok; apply Hc|done]. }
  intros free ? ->.
  destruct (segment_ok p (server c) flags sq ak (cast 16 free) opts Hb (co_addr _ Hc) Ho Hn) as (p' & E & Hs & Hp & _).
  eapply (runs_bind _ _ _ (λ r dev', r = (Some tt, p') ∧ dev' = dev1)).
  { eexists _, _. unfold Dev.on_packet. rewrite E. done. }
  intros [o p2] dev2 [[= -> ->] ->].
  eapply runs_weaken; [apply runs_send; [split; [eapply excl_fill; [apply Hi1|done|apply Hs]|apply Hi1..]|done]|].
  intros _ dev3 [Hi3 Hk3]. split; [done|by etrans].
Qed.

(** ** One packet *)

(** The connection after a packet, without the acknowledgement that is sent *)
Definition after_packet c t : option unit * Internal :=
  if bool_decide (state c = Closed) then (None, c) else
  if has (tcp.flags t) tcp.TCP_RST then (None, set_state Closed c) else
  if negb (has (tcp.flags t) tcp.TCP_ACK) then (None, c) else
  if wrapping_sub 32 (seq c) (remote_ack c) <? wrapping_sub 32 (tcp.ack t) (remote_ack c) then (None, c) else
  if bool_decide (state c = Established) then
    if negb (tcp.seq t =? ack c) || (tcp.WINDOW_SIZE - zlen (window c) <? zlen (tcp.payload t)) then (None, c) else
    let ak := if has (tcp.flags t) tcp.TCP_SYN then tcp.seq t + 1 else ack c + zlen (tcp.payload t) in
    (Some tt, set_remote (tcp.ack t) (tcp.window t)
       (set_ack (ak mod 2 ^ 32) (set_window (window c ++ tcp.payload t) c)))
  else
    (Some tt, set_remote (tcp.ack t) (tcp.window t)
       (if has (tcp.flags t) tcp.TCP_SYN then set_ack ((tcp.seq t + 1) mod 2 ^ 32) (set_state Established c) else c)).

Lemma conn_ok_after c t : conn_ok c → fields_ok t → conn_ok (after_packet c t).2.
Proof.
  intros Hc (Ft & Fa & Fw & Fp). pose proof Hc as [H1 H2 H3 H4 H5 [H6 H7]]. unfold after_packet.
  destruct (bool_decide _); [done|]. destruct (has _ tcp.TCP_RST); [by split|].
  destruct (negb (has _ tcp.TCP_ACK)); [done|]. destruct (_ <? _); [done|].
  destruct (bool_decide (state c = Established)).
  - destruct (_ || _) eqn:Eb; [done|]. apply orb_false_iff in Eb as [_ Eb%Z.ltb_ge].
    split; cbn [snd set_remote set_ack set_window server window seq ack remote_ack remote_window]; try done.
    + unfold zlen in *. rewrite length_app. lia.
    + by apply Forall_app.
  - destruct (has _ tcp.TCP_SYN); split; cbn [snd set_remote set_ack set_state server window seq ack remote_ack remote_window]; done.
Qed.

(** Data in order is kept when the window has room for it. *)
Lemma take_data_eq c t : conn_ok c → state c = Established →
  take_data c t = Ok (
    if tcp.WINDOW_SIZE - zlen (window c) <? zlen (tcp.payload t) then None
    else Some (set_ack ((ack c + zlen (tcp.payload t)) mod 2 ^ 32) (set_window (window c ++ tcp.payload t) c),
               0 <? zlen (tcp.payload t))).
Proof.
  intros Hc Hs. unfold take_data. rewrite bool_decide_true by done. cbn [andb]. pose proof (co_window _ Hc) as Hw.
  destruct (Z.ltb_spec 0 (zlen (tcp.payload t))) as [Hpos|Hz].
  - rewrite sub_Ok by done. cbn [mbind res_bind]. destruct (_ <? _); [done|].
    unfold wrapping_add, cast. cbn [set_window ack]. by rewrite Z.add_mod_idemp_r by lia.
  - rewrite (proj2 (Z.ltb_ge _ _)) by lia. pose proof (co_ack _ Hc) as [Ha0 Ha1].
    assert (tcp.payload t = []) as -> by (apply nil_length_inv; unfold zlen in Hz; lia).
    change (zlen (@nil Z)) with 0. rewrite app_nil_r, Z.add_0_r, Z.mod_small by done. by destruct c.
Qed.

Lemma runs_assert dev (b : bool) : b = true → runs (E:=unit) (lift (assert b)) dev (λ _ dev', dev' = dev).
Proof. intros ->. eapply runs_lift; done. Qed.
Lemma conn_ok_remote c a w : conn_ok (set_remote a w c) → u32 (remote_ack c) → u16 (remote_window c) → conn_ok c.
Proof. intros [H1 H2 H3 H4 H5 _] ? ?. by split. Qed.

(** A packet that is taken is acknowledged if it carries data or a SYN. *)
Definition acks c t : bool :=
  bool_decide ((after_packet c t).1 = Some tt) &&
  (has (tcp.flags t) tcp.TCP_SYN || (bool_decide (state c = Established) && (0 <? zlen (tcp.payload t)))).
Lemma handle_packet_eq c t dev : conn_ok c → port c = tcp.dst_port t →
  let c' := (after_packet c t).2 in
  handle_packet c t dev =
    (_ ← (if acks c t then send_segment c' tcp.TCP_ACK (seq c') (ack c') [] else mret tt); mret (after_packet c t)) dev.
Proof.
  intros Hc Hp. unfold handle_packet, mbind at 1, M_bind at 1, lift at 1, assert. rewrite (proj2 (Z.eqb_eq _ _) Hp). cbv iota.
  unfold acks, after_packet.
  destruct (bool_decide (state c = Closed)) eqn:E0; [done|].
  destruct (has _ tcp.TCP_RST); [done|]. destruct (negb (has _ tcp.TCP_ACK)); [done|].
  cbv zeta in *. destruct (_ <? wrapping_sub 32 (tcp.ack t) _); [done|].
  destruct (bool_decide (state c = Established)) eqn:E1; cbn [andb].
  - apply bool_decide_eq_true in E1. destruct (Z.eqb_spec (tcp.seq t) (ack c)) as [Eq|]; cbn [negb orb]; [|done].
    rewrite take_data_eq by done. unfold mbind at 1, M_bind at 1, lift at 1.
    destruct (_ <? zlen (tcp.payload t)); [done|].
    destruct c as [w sv st po sq ak ra rw]. cbn [state] in E1. subst st.
    cbn [set_ack set_window set_state set_remote state window server port seq ack remote_ack remote_window snd fst].
    change (bool_decide (Established = Syn) || bool_decide (Established = Established)) with true.
    rewrite (bool_decide_true (Some tt = Some tt)) by done. cbn [andb]. by destruct (has _ tcp.TCP_SYN).
  - apply bool_decide_eq_false in E0, E1. unfold take_data. rewrite (bool_decide_false _ E1). cbn [andb].
    unfold mbind at 1, M_bind at 1, lift at 1.
    assert (state c = Syn) as Es by (destruct (state c); done). rewrite Es.
    change (bool_decide (Syn = Syn) || bool_decide (Syn = Established)) with true. cbn [andb fst snd].
    rewrite (bool_decide_true (Some tt = Some tt)) by done. cbn [andb]. by destruct (has _ tcp.TCP_SYN).
Qed.

(** [handle_packet] moves the connection, and gives back every buffer it takes. *)
Lemma runs_handle_packet dev hs c t : inv dev hs → conn_ok c → fields_ok t → port c = tcp.dst_port t →
  runs (handle_packet c t) dev (λ r dev', inv dev' hs ∧ kept dev dev' ∧ r = after_packet c t).
Proof.
  intros Hi Hc Hf Hp. pose proof (conn_ok_after c t Hc Hf) as Hc'. unfold runs. rewrite handle_packet_eq by done.
  eapply (runs_bind _ _ _ (λ _ dev', inv dev' hs ∧ kept dev dev')).
  - destruct (acks c t); [by apply runs_send_segment|by apply runs_ret].
  - intros _ dev1 [? ?]. by apply runs_ret.
Qed.

(** ** The stream *)

(** A peer that sends the bytes [S], numbered from [irs + 1] on: each of its segments is its
    SYN or carries some part of [S], in any order, any number of times. *)
Definition from_peer (irs : Z) (S : list Z) t : Prop :=
  if has (tcp.flags t) tcp.TCP_SYN then tcp.seq t = irs ∧ tcp.payload t = []
  else ∃ k n : nat, (k ≤ length S)%nat ∧ tcp.seq t = (irs + 1 + Z.of_nat k) mod 2 ^ 32 ∧ tcp.payload t = take n (drop k S).

(** The window is a prefix of the stream, and [ack] the number of the byte behind it. *)
Definition tracks (irs : Z) (S : list Z) c : Prop :=
  window c = take (length (window c)) S ∧
  match state c with
  | Syn => window c = []
  | Established => ack c = (irs + 1 + zlen (window c)) mod 2 ^ 32
  | Closed => True
  end.

Lemma take_extend {A} (m n : nat) (S : list A) (w : list A) : w = take m S → m = length w →
  w ++ take n (drop m S) = take (length (w ++ take n (drop m S))) S.
Proof.
  intros Ew Em. rewrite length_app, <-Em, length_take, length_drop, Ew, take_take_drop.
  destruct (Nat.le_ge_cases n (length S - m)).
  - by rewrite Nat.min_l.
  - rewrite Nat.min_r by done. rewrite !take_ge; [done| |lia]. assert (m ≤ length S)%nat; [|lia].
    rewrite Em, Ew, length_take. lia.
Qed.

Lemma tracks_after irs S c t : conn_ok c → zlen S < 2 ^ 32 → u32 irs → tracks irs S c → from_peer irs S t →
  tracks irs S (after_packet c t).2.
Proof.
  intros Hc HS [Hi0 Hi1] [Hw Hst] Ht. unfold after_packet.
  destruct (bool_decide (state c = Closed)) eqn:E0; [by split|]. apply bool_decide_eq_false in E0.
  destruct (has _ tcp.TCP_RST); [by split|]. destruct (negb (has _ tcp.TCP_ACK)); [by split|]. destruct (_ <? wrapping_sub 32 _ _); [by split|].
  assert (length (window c) ≤ length S)%nat as Hle by (rewrite Hw, length_take; lia).
  pose proof (co_window _ Hc) as Hmax. unfold tcp.WINDOW_SIZE, umax in *. unfold zlen in *.
  destruct (bool_decide (state c = Established)) eqn:E1.
  - apply bool_decide_eq_true in E1. rewrite E1 in Hst. destruct (negb _ || _) eqn:Eb;
      [split; [done|]; cbn [snd]; by rewrite E1|].
    apply orb_false_iff in Eb as [Eq%negb_false_iff%Z.eqb_eq _]. rewrite Hst in Eq. unfold from_peer in Ht.
    unfold tracks. cbn [snd set_remote set_ack set_window window state ack]. rewrite E1.
    destruct (has _ tcp.TCP_SYN).
    + destruct Ht as [Ht _]. exfalso. rewrite Ht in Eq. clear - Eq Hi0 Hi1 Hmax.
      assert (0 ≤ Z.of_nat (length (window c))) by lia. Z.div_mod_to_equations. lia.
    + destruct Ht as (k & n & Hk & Hseq & Hpl). rewrite Hseq in Eq.
      assert (k = length (window c)) as ->.
      { clear - Eq Hk HS Hle Hi0. assert (Z.of_nat k < 2 ^ 32 ∧ Z.of_nat (length (window c)) < 2 ^ 32) as [? ?] by lia.
        Z.div_mod_to_equations. lia. }
      rewrite Hpl. split; [by apply take_extend|]. unfold zlen. rewrite Hst, length_app, Nat2Z.inj_add, Z.add_mod_idemp_l by lia.
      f_equal. lia.
  - apply bool_decide_eq_false in E1. assert (state c = Syn) as Es by (by destruct (state c)). rewrite Es in Hst.
    unfold tracks, from_peer in *. destruct (has _ tcp.TCP_SYN); cbn [snd set_remote set_ack set_state window state ack].
    + destruct Ht as [-> _]. split; [done|]. rewrite Hst. change (zlen (@nil Z)) with 0. by rewrite Z.add_0_r.
    + split; [done|]. by rewrite Es.
Qed.

(** Packets one after the other *)
Fixpoint handle_all c (ts : list tcp.Parsed) : M (NetDevice D) unit Internal :=
  match ts with
  | [] => mret c
  | t :: ts => '(_, c) ← handle_packet c t; handle_all c ts
  end.
Lemma after_packet_same c t : port (after_packet c t).2 = port c ∧ server (after_packet c t).2 = server c.
Proof. unfold after_packet. repeat case_match; done. Qed.

(** C31. Delivery in order: whatever the network makes of a peer's segments (they are lost,
    repeated, reordered, mixed with resets), [handle_packet] panics on none of them, the
    fields of the connection keep their types' bounds, the window never outgrows its 65535
    bytes and always holds a prefix of the stream that the peer sent, without gaps or
    repetitions; once established, [ack] is the number of the next byte. *)
Theorem tcp_delivers_in_order dev hs c ts irs S :
  inv dev hs → conn_ok c → state c = Syn → window c = [] → zlen S < 2 ^ 32 → u32 irs →
  Forall (λ t, fields_ok t ∧ tcp.dst_port t = port c ∧ from_peer irs S t) ts →
  runs (handle_all c ts) dev (λ c' dev', inv dev' hs ∧ kept dev dev' ∧ conn_ok c' ∧ tracks irs S c').
Proof.
  intros Hi Hc Hst Hw HS Hirs. assert (tracks irs S c) as Htr by (split; [by rewrite Hw|by rewrite Hst]). clear Hst Hw.
  revert dev c Hi Hc Htr. induction ts as [|t ts IH]; intros dev c Hi Hc Htr Hts; cbn [handle_all]; [by apply runs_ret|].
  apply Forall_cons_iff in Hts as [(Hf & Hp & Ht) Hts].
  eapply runs_bind; [by apply runs_handle_packet|]. intros r dev1 (Hi1 & Hk1 & ->).
  pose proof (tracks_after irs S c t Hc HS Hirs Htr Ht) as Htr'. pose proof (conn_ok_after c t Hc Hf) as Hc'.
  pose proof (after_packet_same c t) as [Hport _].
  destruct (after_packet c t) as [o c']. cbn [snd] in *. eapply runs_weaken; [apply IH; try done; by rewrite Hport|].
  intros c2 dev2 (Hi2 & Hk2 & ?). split; [done|]. split; [by etrans|done].
Qed.

End stack.

(** * Over a driver that is observed *)
Section observed.
Context {D : Type} `{Hdrv : NetDriver D} {Hlaws : NetDriverLaws D} {Hhist : NetHistory D}.
Implicit Types (dev : NetDevice D) (hs ps qs : list Packet) (c : Internal) (t : tcp.Parsed).

Lemma send_segment_since dev hs c flags sq ak opts : inv dev hs → conn_ok c → bytes_ok opts → zlen opts ≤ 44 →
  runs (send_segment c flags sq ak opts) dev (λ _ dev', inv dev' hs ∧ kept dev dev' ∧
    ∃ q, segment_in (server c) flags sq ak (65535 - zlen (window c)) opts q ∧
      since [] [q] (now (driver dev) + 2 * pace) dev dev').
Proof.
  intros Hi Hc Ho Hn. pose proof (co_window _ Hc) as Hw. unfold tcp.WINDOW_SIZE, umax in *. change (2 ^ 16 - 1) with 65535 in Hw.
  assert (∀ d, send_segment c flags sq ak opts d = (packet ← Dev.allocate_packet;
    '(_, packet) ← Dev.on_packet packet (tcp.segment (server c) flags sq ak (65535 - zlen (window c)) opts);
    Dev.send packet true) d) as Heq.
  { intros d. unfold send_segment, mbind, M_bind, lift. destruct (Dev.allocate_packet d) as [[p d1]|[]| |]; try done.
    unfold tcp.WINDOW_SIZE, umax. change (2 ^ 16 - 1) with 65535. rewrite sub_Ok by lia. unfold cast.
    rewrite Z.mod_small by (unfold zlen in *; lia). done. }
  unfold runs. rewrite Heq. apply (runs_send_built dev hs _ (segment_in (server c) flags sq ak (65535 - zlen (window c)) opts)); [done|].
  intros p Hp. destruct (segment_ok p (server c) flags sq ak (65535 - zlen (window c)) opts Hp (co_addr _ Hc) Ho Hn)
    as (p' & E & ? & ? & ?). by exists tt, p'.
Qed.

(** The acknowledgement of a connection: its own next number, the number it expects, and the
    room in its window *)
Definition acknowledges c (q : Packet) : Prop :=
  segment_in (server c) 0x10 (seq c) (ack c) (65535 - zlen (window c)) [] q.
(** What is sent in answer *)
Definition answers (b : bool) c qs : Prop := if b then ∃ q, qs = [q] ∧ acknowledges c q else qs = [].

Lemma handle_packet_since dev hs c t : inv dev hs → conn_ok c → fields_ok t → port c = tcp.dst_port t →
  runs (handle_packet c t) dev (λ r dev', inv dev' hs ∧ kept dev dev' ∧ r = after_packet c t ∧
    ∃ qs, since [] qs (now (driver dev) + 2 * pace) dev dev' ∧ answers (acks c t) (after_packet c t).2 qs).
Proof.
  intros Hi Hc Hf Hp. pose proof (conn_ok_after c t Hc Hf) as Hc'. pose proof (pace_nonneg (D:=D)) as Hp0.
  unfold runs. rewrite handle_packet_eq by done.
  eapply (runs_bind _ _ _ (λ _ dev', inv dev' hs ∧ kept dev dev' ∧
    ∃ qs, since [] qs (now (driver dev) + 2 * pace) dev dev' ∧ answers (acks c t) (after_packet c t).2 qs)).
  - destruct (acks c t).
    + eapply runs_weaken; [by apply send_segment_since|]. intros _ dev1 (? & ? & q & Hq & Hs). split; [done|]. split; [done|].
      exists [q]. split; [done|]. by exists q.
    + apply runs_ret. split; [done|]. split; [done|]. exists []. split; [apply since_refl; lia|done].
  - intros _ dev1 (? & ? & ?). by apply runs_ret.
Qed.

Lemma has_testbit x k : 0 ≤ k → has x (Z.shiftl 1 k) = Z.testbit x k.
Proof.
  intros Hk. unfold has. rewrite Z.shiftl_1_l. destruct (Z.testbit x k) eqn:E; [apply negb_true_iff|apply negb_false_iff].
  - apply Z.eqb_neq. intros H0. assert (Z.testbit (Z.land x (2 ^ k)) k = true) as H1
      by (rewrite Z.land_spec, E, Z.pow2_bits_true by done; done). rewrite H0, Z.bits_0 in H1. done.
  - apply Z.eqb_eq, Z.bits_inj. intros i. rewrite Z.bits_0, Z.land_spec. destruct (Z.eq_dec i k) as [->|Hne]; [by rewrite E|].
    by rewrite Z.pow2_bits_false, andb_false_r.
Qed.

(** C38. What a connection answers; SYN, RST and ACK are the bits 1, 2 and 4 of the flags.  A
    SYN-ACK that acknowledges our SYN establishes a waiting connection, whatever [remote_ack]
    was, [ack] becomes the number behind the peer's SYN, and exactly one segment is sent: an
    acknowledgement of that number, from our next number, with the room in the window.  On an
    established connection, an acknowledging segment that is next in order and fits the
    window is taken whole, and [ack] moves behind it; if it has data one acknowledgement is sent, if
    it is empty nothing.  A reset closes either, without an answer. *)
Theorem handle_packet_progress dev hs c t :
  inv dev hs → conn_ok c → fields_ok t → port c = tcp.dst_port t → state c ≠ Closed →
  let moved (o : option unit) c' (b : bool) := runs (handle_packet c t) dev (λ r dev', inv dev' hs ∧ kept dev dev' ∧ r = (o, c') ∧
    ∃ qs, since [] qs (now (driver dev) + 2 * pace) dev dev' ∧ answers b c' qs) in
  if Z.testbit (tcp.flags t) 2 then moved None (set_state Closed c) false
  else Z.testbit (tcp.flags t) 4 = true →
    (state c = Syn → Z.testbit (tcp.flags t) 1 = true → tcp.ack t = seq c →
       moved (Some tt) (set_remote (tcp.ack t) (tcp.window t) (set_ack ((tcp.seq t + 1) mod 2 ^ 32) (set_state Established c))) true) ∧
    (state c = Established → Z.testbit (tcp.flags t) 1 = false → tcp.seq t = ack c →
       (tcp.ack t - remote_ack c) mod 2 ^ 32 ≤ (seq c - remote_ack c) mod 2 ^ 32 →
       zlen (window c) + zlen (tcp.payload t) ≤ 65535 →
       moved (Some tt) (set_remote (tcp.ack t) (tcp.window t)
         (set_ack ((ack c + zlen (tcp.payload t)) mod 2 ^ 32) (set_window (window c ++ tcp.payload t) c))) (0 <? zlen (tcp.payload t))).
Proof.
  intros Hi Hc Hf Hp Hcl moved. pose proof (handle_packet_since dev hs c t Hi Hc Hf Hp) as Hr.
  assert (∀ o c' b, after_packet c t = (o, c') → acks c t = b → moved o c' b) as Hm.
  { intros o c' b E Hb. rewrite E, Hb in Hr. exact Hr. }
  clear Hr. unfold acks in Hm. unfold after_packet in Hm. rewrite bool_decide_false in Hm by done.
  change tcp.TCP_RST with (Z.shiftl 1 2) in Hm. change tcp.TCP_ACK with (Z.shiftl 1 4) in Hm. change tcp.TCP_SYN with (Z.shiftl 1 1) in Hm.
  rewrite !has_testbit in Hm by lia. destruct (Z.testbit (tcp.flags t) 2); [by apply (Hm None)|].
  intros Ha. rewrite Ha in Hm. cbn [negb] in Hm. split.
  - intros Hs Hsyn Hack. rewrite Hsyn, Hack, Hs in Hm. rewrite Z.ltb_irrefl, bool_decide_false in Hm by done.
    rewrite Hack. by apply Hm.
  - intros Hs Hsyn Hseq Hack Hfit. rewrite Hsyn, Hs, Hseq, Z.eqb_refl in Hm. unfold wrapping_sub in Hm.
    rewrite (proj2 (Z.ltb_ge _ _) Hack), bool_decide_true, (proj2 (Z.ltb_ge (tcp.WINDOW_SIZE - _) _)) in Hm
      by (done || (unfold tcp.WINDOW_SIZE, umax; change (2 ^ 16 - 1) with 65535; lia)).
    cbn [negb orb] in Hm. by apply Hm.
Qed.

(** A SYN-ACK that comes again, because our acknowledgement was lost, is dropped without an
    answer: it is one number behind what an established connection expects. *)
Theorem repeated_syn_ack_dropped dev c t :
  conn_ok c → state c = Established → window c = [] → port c = tcp.dst_port t →
  has (tcp.flags t) tcp.TCP_SYN = true → has (tcp.flags t) tcp.TCP_RST = false →
  u32 (tcp.seq t) → ack c = (tcp.seq t + 1) mod 2 ^ 32 →
  handle_packet c t dev = Ok ((None, c), dev).
Proof.
  intros Hc Hs Hw Hp _ Hrst [Hq0 Hq1] Ha. unfold handle_packet, mbind at 1, M_bind at 1, lift at 1, assert.
  rewrite (proj2 (Z.eqb_eq _ _) Hp), Hs, bool_decide_false, Hrst by done. cbv iota.
  destruct (negb (has _ tcp.TCP_ACK)); [done|]. cbv zeta. destruct (_ <? wrapping_sub 32 (tcp.ack t) _); [done|].
  rewrite bool_decide_true by done. rewrite (proj2 (Z.eqb_neq (tcp.seq t) (ack c))); [done|].
  rewrite Ha. Z.div_mod_to_equations. lia.
Qed.

(** ** Connecting *)
Definition conns_ok (cons : gmap Z Internal) : Prop := map_Forall (λ p c, conn_ok c ∧ port c = p) cons.
Lemma conns_insert p c cons : conns_ok cons → conn_ok c → port c = p → conns_ok (<[p := c]> cons).
Proof. intros Hcs Hc Hp. by apply map_Forall_insert_2. Qed.











Section connect.
Context (fuel : nat) (mhz dst_ip dst_port ack0 remote_ack0 window0 : Z) (lease : Lease).
Hypothesis Hmhz : 0 ≤ mhz.
Hypothesis Hfuel : tcp.TIMEOUT * mhz < Z.of_nat fuel.
Hypothesis Hip : u32 dst_ip ∧ u32 (client_ip lease) ∧ u16 dst_port.
Hypothesis Hfirst : u32 ack0 ∧ u32 remote_ack0 ∧ u16 window0.



End connect.


(** A packet that is discarded to TCP is put back when it is not TCP; otherwise its buffer goes
    back to the driver, and at most the connection of its port moves. *)
Theorem discard_tcp_releases dev hs cons pk :
  inv dev (pk :: hs) → wf_packet pk → conns_ok cons →
  runs (discard_tcp cons (Some pk)) dev (λ r dev', kept dev dev' ∧ conns_ok r.2 ∧
    match tcp.parse_tcp pk with
    | Ok t => r = (None, match cons !! tcp.dst_port t with
                         | Some c => <[tcp.dst_port t := (after_packet c t).2]> cons
                         | None => cons end) ∧ inv dev' hs
    | _ => r = (Some pk, cons) ∧ inv dev' (pk :: hs)
    end).
Proof.
  intros Hi Hwf Hcs. unfold discard_tcp. pose proof (safe_parse_tcp pk Hwf) as Hs.
  destruct (tcp.parse_tcp pk) as [t|e| |]; [|by apply runs_ret|done..]. apply in_packet_fields in Hs.
  destruct (cons !! tcp.dst_port t) as [c|] eqn:Ec.
  - destruct (Hcs _ _ Ec) as [Hco Hpo].
    eapply runs_bind; [apply (runs_handle_packet dev (pk :: hs) c t); done|]. intros r dev1 (Hi1 & Hk1 & ->).
    pose proof (conn_ok_after c t Hco Hs) as Hco'. pose proof (after_packet_same c t) as [Hpo' _].
    destruct (after_packet c t) as [r c']. cbn [snd] in *.
    eapply runs_bind; [by apply runs_release|]. intros _ dev2 [Hi2 Hk2]. apply runs_ret.
    split; [by etrans|]. split; [|done]. apply conns_insert; [done|done|congruence].
  - eapply runs_bind; [by apply runs_release|]. intros _ dev1 [Hi1 Hk1]. by apply runs_ret.
Qed.
End observed.

(** * Witnesses *)
Definition ip0 : ip.Parsed := ip.V4 (ip.mkParsedV4 (eth.mkParsed [] [] 0 []) 0 0 6 []).
(** A segment from a peer whose stream starts at number 4294967290, to port 5000 *)
Definition from0 (k : Z) (flags : Z) (data : list Z) : tcp.Parsed :=
  tcp.mkParsed ip0 80 5000 ((4294967289 + k) mod 2 ^ 32) 8 512 flags data.
Definition conn0 : Internal := mkInternal [] sample_v4 Syn 5000 8 0 7 0.
Definition stream0 : list Z := [10; 11; 12; 13; 14; 15; 16; 17; 18; 19].
(** Data before the SYN-ACK, out of order, twice, and across the wrap of the numbers *)
Definition segments0 : list tcp.Parsed :=
  [from0 1 0x10 [10; 11]; from0 0 0x12 []; from0 3 0x10 [12; 13; 14]; from0 1 0x18 [10; 11; 12; 13];
   from0 0 0x12 []; from0 1 0x10 [10; 11; 12]; from0 5 0x10 [14; 15; 16; 17]; from0 9 0x18 [18; 19]].

Lemma conn0_ok : conn_ok conn0.
Proof. split; try done. Qed.
Lemma stream0_sent : Forall (λ t, fields_ok t ∧ tcp.dst_port t = port conn0 ∧ from_peer 4294967289 stream0 t) segments0.
Proof.
  assert (∀ (k n : nat) flags, (k ≤ 9)%nat → has flags tcp.TCP_SYN = false →
    let t := from0 (1 + Z.of_nat k) flags (take n (drop k stream0)) in
    fields_ok t ∧ tcp.dst_port t = port conn0 ∧ from_peer 4294967289 stream0 t) as Hd.
  { intros k n flags Hk Hf. cbv zeta. split; [|split; [done|]].
    - split_and!; [apply u32_mod|done|done|]. apply Forall_take, Forall_drop. by apply bytes_ok_check.
    - unfold from_peer. cbn [from0 tcp.flags tcp.seq tcp.payload]. rewrite Hf. exists k, n.
      split; [unfold stream0; cbn [length]; lia|]. split; [f_equal; lia|done]. }
  assert (fields_ok (from0 0 0x12 []) ∧ tcp.dst_port (from0 0 0x12 []) = port conn0 ∧
    from_peer 4294967289 stream0 (from0 0 0x12 [])) as Hs by (split; [split_and!; (done || constructor)|done]).
  unfold segments0. repeat apply Forall_cons_2; [exact (Hd 0%nat 2%nat 0x10 ltac:(lia) eq_refl)|exact Hs|exact (Hd 2%nat 3%nat 0x10 ltac:(lia) eq_refl)|
    exact (Hd 0%nat 4%nat 0x18 ltac:(lia) eq_refl)|exact Hs|exact (Hd 0%nat 3%nat 0x10 ltac:(lia) eq_refl)|
    exact (Hd 4%nat 4%nat 0x10 ltac:(lia) eq_refl)|exact (Hd 8%nat 2%nat 0x18 ltac:(lia) eq_refl)|constructor].
Qed.

Lemma tcp_delivers_in_order_witness :
  runs (handle_all conn0 segments0) sample_device (λ c' dev', inv dev' [] ∧ kept sample_device dev' ∧
    conn_ok c' ∧ tracks 4294967289 stream0 c').
Proof.
  apply tcp_delivers_in_order; [apply sample_device_inv|apply conn0_ok|done|done|done|done|apply stream0_sent].
Defined.
(** All of the stream arrives, [ack] past the wrap. *)
Example stream0_arrives :
  match handle_all conn0 segments0 sample_device with
  | Ok (c, _) => (window c, state c, ack c) = (stream0, Established, 4)
  | _ => False
  end.
Proof. vm_compute. done. Qed.

(** In answer, one acknowledgement of the number behind the peer's SYN *)
Lemma handle_packet_progress_witness :
  let c' := set_remote 8 512 (set_ack 4294967290 (set_state Established conn0)) in
  runs (handle_packet conn0 (from0 0 0x12 [])) (observed sample_device) (λ r dev', inv dev' [] ∧ kept (observed sample_device) dev' ∧
    r = (Some tt, c') ∧ ∃ qs, since [] qs 2 (observed sample_device) dev' ∧ ∃ q, qs = [q] ∧ acknowledges c' q).
Proof.
  assert (fields_ok (from0 0 0x12 [])) as Hf by (split_and!; (done || constructor)).
  assert (state conn0 ≠ Closed) as Hs by done. pose proof (observed_inv _ _ sample_device_inv) as Hi.
  exact (proj1 (handle_packet_progress (observed sample_device) [] conn0 (from0 0 0x12 []) Hi conn0_ok Hf eq_refl Hs eq_refl)
    eq_refl eq_refl eq_refl).
Defined.

(** With a server that answers the SYN, the connection is established; [ack] is behind its SYN. *)
Definition syn_ack_49152 : list Z :=
  [2;0;0;0;0;1; 4;0;0;0;0;7; 8;0; 0x45;0; 0;40; 0;0; 0x40;0; 64;6; 0;0; 0;0;0;7; 0;0;0;2;
   0;80; 0xC0;0; 0;0;3;232; 0;0;0;1; 0x50;0x12; 2;0; 0;0; 0;0].
Example connects :
  match tcp_connect 3 20 (0, 0, 0) 7 80 49152 ∅ (observed (mkNetDevice 0 (mkScript [received arp_answer; received syn_ack_49152] 1 0)
      [2; 0; 0; 0; 0; 1] (Some (mkLease 2 1 None None)) ∅)) with
  | Ok ((o, _, reg), _) => o = Some 49152 ∧ (ack <$> reg !! 49152) = Some 1001
  | _ => False
  end.
Proof. vm_compute. done. Qed.
End TcpFacts.
