(* ===== verification/PageTable.v ===== *)
(** 4-level x86-64 page tables: shared/page_table/src/lib.rs, with
    [canonicalize_address] of shared/cpu/src/lib.rs.

    The trait [PhysMem] is a type class.  A pointer it hands out is read and
    written byte by byte, so a table walk reads the same bytes [map_init]
    initialises. *)
From Stdlib Require Import ZArith Lia.
From stdpp Require Import prelude list numbers.
From S2P Require Import Prelude Packet.

(** * Entries *)
Definition PAGE_PRESENT : Z := Z.shiftl 1 0.
Definition PAGE_WRITE : Z := Z.shiftl 1 1.
Definition PAGE_USER : Z := Z.shiftl 1 2.
Definition PAGE_CACHE_DISABLE : Z := Z.shiftl 1 4.
Definition PAGE_SIZE : Z := Z.shiftl 1 7.
Definition PAGE_NXE : Z := Z.shiftl 1 63.

(** [self.0 & !(val - 1) == self.0] *)
Definition is_aligned {E} (addr val : Z) : res E bool :=
  m ← sub val 1; Ok (Z.land addr (unot 64 m) =? addr).

(** cpu: the arithmetic shift by [high_bits] of a 64-bit signed value. *)
Definition to_i64 (x : Z) : Z := if x <? 2 ^ 63 then x else x - 2 ^ 64.
Definition canonicalize_address {E} (high_bits addr : Z) : res E Z :=
  _ ← assert (high_bits <? 64);
  Ok (Z.shiftr (to_i64 (Z.shiftl (to_i64 addr) high_bits mod 2 ^ 64)) high_bits mod 2 ^ 64).

Inductive Error := InvalidPage | MappedAlready | SmallerPagesPresent
                 | AddressNotCanonical | AddressUnaligned.

Record Permissions := mkPermissions { write : bool; execute : bool; user : bool; cache : bool }.

#[global] Instance Permissions_eq_dec : EqDecision Permissions.
Proof. solve_decision. Defined.

Module Permissions.
Definition new (write execute user : bool) : Permissions := mkPermissions write execute user false.
Definition uncached (write execute user : bool) : Permissions := mkPermissions write execute user true.
Definition bits (self : Permissions) : Z :=
  Z.lor (Z.lor (Z.lor (Z.lor 0 (if write self then PAGE_WRITE else 0))
    (if user self then PAGE_USER else 0)) (if execute self then 0 else PAGE_NXE))
    (if cache self then 0 else PAGE_CACHE_DISABLE).
End Permissions.

Inductive PageType := Page4K | Page2M | Page1G.
#[global] Instance PageType_eq_dec : EqDecision PageType.
Proof. solve_decision. Defined.

Module PageType.
Definition size (t : PageType) : Z :=
  match t with Page4K => 4096 | Page2M => 2 * 1024 * 1024 | Page1G => 1024 * 1024 * 1024 end.
Definition size_bit (t : PageType) : Z := match t with Page4K => 0 | _ => PAGE_SIZE end.
End PageType.

Record MapRequest := mkMapRequest {
  page_type : PageType; vaddr : Z; size : Z; permissions : Permissions }.

Definition MapRequest_new (vaddr : Z) (t : PageType) (size : Z) (perms : Permissions)
    : res Error MapRequest :=
  a ← is_aligned (E:=Error) vaddr (PageType.size t);
  if (a : bool) then Ok (mkMapRequest t vaddr size perms) else Err AddressUnaligned.

Record Mapping := mkMapping {
  pml4e : option Z; pdpe : option Z; pde : option Z; pte : option Z;
  page : option (Z * Z * Z) }.

Module Mapping.
Definition default : Mapping := mkMapping None None None None None.

Definition get_indices (vaddr : Z) : list Z :=
  [Z.land (Z.shiftr vaddr 39) 0x1FF; Z.land (Z.shiftr vaddr 30) 0x1FF;
   Z.land (Z.shiftr vaddr 21) 0x1FF; Z.land (Z.shiftr vaddr 12) 0x1FF].

Definition entry_bits (o : option Z) (shift : Z) : Z :=
  Z.shiftl (Z.land (from_option id 0 o) 0xFFF / 8) shift mod 2 ^ 64.

Definition virt_base {E} (self : Mapping) : res E (option Z) :=
  match page self with
  | None => Ok None
  | Some _ =>
      v ← canonicalize_address 16
        (Z.lor (Z.lor (Z.lor (entry_bits (pml4e self) 39) (entry_bits (pdpe self) 30))
           (entry_bits (pde self) 21)) (entry_bits (pte self) 12));
      Ok (Some v)
  end.

Definition page_type (self : Mapping) : option PageType :=
  match page self with
  | None => None
  | Some _ =>
      match pde self, pte self with
      | None, _ => Some Page1G
      | _, None => Some Page2M
      | _, _ => Some Page4K
      end
  end.

(** The entry of a walk at [depth], and the four of them. *)
Definition set_entry (self : Mapping) (depth : nat) (ptp : Z) : Mapping :=
  match depth with
  | 0%nat => mkMapping (Some ptp) (pdpe self) (pde self) (pte self) (page self)
  | 1%nat => mkMapping (pml4e self) (Some ptp) (pde self) (pte self) (page self)
  | 2%nat => mkMapping (pml4e self) (pdpe self) (Some ptp) (pte self) (page self)
  | _ => mkMapping (pml4e self) (pdpe self) (pde self) (Some ptp) (page self)
  end.
Definition set_page (self : Mapping) (p : Z * Z * Z) : Mapping :=
  mkMapping (pml4e self) (pdpe self) (pde self) (pte self) (Some p).
Definition entries (self : Mapping) : list (option Z) :=
  [pml4e self; pdpe self; pde self; pte self].
End Mapping.

(** * Physical memory *)
Class PhysMem (S : Type) := {
  (** the pointer to [size] bytes at a physical address *)
  translate : Z → Z → S → option Z;
  (** size and alignment of the layout *)
  alloc_phys : Z → Z → S → option Z * S;
  (** a byte behind a pointer *)
  peek : Z → S → Z;
  poke : Z → Z → S → S;
}.

Section memory.
Context {S : Type} `{PhysMem S} {E : Type}.

Definition read_bytes (ptr : Z) (n : nat) (s : S) : list Z :=
  (λ k : nat, peek (ptr + Z.of_nat k) s) <$> seq 0 n.
Fixpoint write_bytes (ptr : Z) (l : list Z) (s : S) : S :=
  match l with [] => s | b :: l => write_bytes (ptr + 1) l (poke ptr b s) end.

(** [phys_mem.translate(paddr, 8).unwrap()], then a read or a write *)
Definition read_u64 (paddr : Z) : M S E Z := λ s,
  match translate paddr 8 s with
  | Some ptr => Ok (le_val (read_bytes ptr 8 s), s)
  | None => Panic
  end.
Definition write_u64 (paddr v : Z) : M S E unit := λ s,
  match translate paddr 8 s with
  | Some ptr => Ok (tt, write_bytes ptr (le_bytes 8 v) s)
  | None => Panic
  end.

(** The provided method of the trait. *)
Definition alloc_phys_zeroed (size align : Z) (s : S) : option Z * S :=
  match alloc_phys size align s with
  | (Some a, s) =>
      match translate a size s with
      | Some bytes => (Some a, write_bytes bytes (replicate (Z.to_nat size) 0) s)
      | None => (None, s)
      end
  | (None, s) => (None, s)
  end.

(** An [Option] call with [.unwrap()]. *)
Definition must {A} (f : S → option A * S) : M S E A := λ s,
  match f s with (Some a, s) => Ok (a, s) | (None, _) => Panic end.
End memory.

(** * The walk *)
Module PageTable.
Section ops.
Context {S : Type} `{PhysMem S}.

Definition ADDR_MASK : Z := 0xffffffffff000.

Definition new (s : S) : option Z * S := alloc_phys_zeroed 4096 4096 s.

Definition page_mask (depth : nat) : Z :=
  match depth with
  | 1%nat => PageType.size Page1G - 1
  | 2%nat => PageType.size Page2M - 1
  | _ => PageType.size Page4K - 1
  end.

(** The levels from [depth] on. *)
Fixpoint walk (vaddr : Z) (depth : nat) (indices : list Z) (table : Z) (ret : Mapping)
    : M S Error Mapping :=
  match indices with
  | [] => mret ret
  | index :: indices =>
      off ← lift (mul 64 index 8);
      ptp ← lift (add 64 table off);
      let ret := Mapping.set_entry ret depth ptp in
      ent ← read_u64 ptp;
      if Z.land ent PAGE_PRESENT =? 0 then mret ret
      else
        let table := Z.land ent ADDR_MASK in
        if (depth =? 3)%nat || negb (Z.land ent PAGE_SIZE =? 0) then
          if (depth =? 0)%nat then mret ret
          else
            let page_mask := page_mask depth in
            mret (Mapping.set_page ret
              (Z.land table (unot 64 page_mask), Z.land vaddr page_mask, ent))
        else walk vaddr (Datatypes.S depth) indices table ret
  end.

Definition components (self vaddr : Z) : M S Error Mapping :=
  c ← lift (canonicalize_address 16 vaddr);
  if negb (c =? vaddr) then throw AddressNotCanonical
  else walk vaddr 0 (Mapping.get_indices vaddr) self Mapping.default.

(** The reference count in bits 52..61 of an entry. *)
Definition bump_count (ent : Z) : Z :=
  let in_use := Z.land (Z.shiftr ent 52) 0x3ff in
  Z.lor (Z.land ent (unot 64 (Z.shiftl 0x3FF 52))) (Z.shiftl (in_use + 1) 52).

Definition add_ref (paddr : Z) : M S Error unit :=
  nent ← read_u64 paddr; write_u64 paddr (bump_count nent).

(** [entries[idx].unwrap()] *)
Definition entry (entries : list (option Z)) (idx : nat) : res Error Z :=
  o ← index entries idx; unwrap o.

(** Create the missing tables, [for idx in 1..depth]. *)
Fixpoint create_tables (indices : list Z) (idx n : nat) (entries : list (option Z))
    : M S Error (list (option Z)) :=
  match n with
  | O => mret entries
  | Datatypes.S n =>
      cur ← lift (index entries idx);
      match cur with
      | Some _ => create_tables indices (Datatypes.S idx) n entries
      | None =>
          table ← must (alloc_phys_zeroed 4096 4096);
          ptr ← lift (entry entries (idx - 1));
          _ ← (if (2 <=? idx)%nat then rc ← lift (entry entries (idx - 2)); add_ref rc
               else mret tt);
          _ ← write_u64 ptr (Z.lor (Z.lor (Z.lor table PAGE_USER) PAGE_WRITE) PAGE_PRESENT);
          i ← lift (index indices idx);
          off ← lift (mul 64 i 8);
          e ← lift (add 64 table off);
          entries ← lift (store entries idx (Some e));
          create_tables indices (Datatypes.S idx) n entries
      end
  end.

Definition depth_of (t : PageType) : nat :=
  match t with Page4K => 4 | Page2M => 3 | Page1G => 2 end.

Definition map_raw (self vaddr : Z) (page_type : PageType) (raw : Z) : M S Error unit :=
  if (Z.land raw PAGE_PRESENT =? 0)
     || (negb (bool_decide (page_type = Page4K)) && (Z.land raw PAGE_SIZE =? 0))
  then throw InvalidPage else
  mapping ← components self vaddr;
  match page mapping with
  | Some _ => throw MappedAlready
  | None =>
      let entries := Mapping.entries mapping in
      let depth := depth_of page_type in
      match entries !! depth with
      | Some (Some _) => throw SmallerPagesPresent
      | _ =>
          _ ← lift (assert (bool_decide (is_Some (pml4e mapping))));
          let indices := Mapping.get_indices vaddr in
          entries ← create_tables indices 1 (depth - 1) entries;
          rc ← lift (entry entries (depth - 2));
          _ ← add_ref rc;
          ptr ← lift (entry entries (depth - 1));
          write_u64 ptr raw
      end
  end.

(** The pages of a mapping: [n] of them from [vaddr] on, [off] bytes into it. *)
Fixpoint map_pages (self : Z) (request : MapRequest) (init : option (Z → Z)) (n : nat) (v : Z)
    : M S unit unit :=
  match n with
  | O => mret tt
  | Datatypes.S n =>
      let page_size := PageType.size (page_type request) in
      p ← (λ s, match alloc_phys page_size page_size s with
                | (Some p, s) => Ok (p, s)
                | (None, s) => Err (tt, s)
                end);
      let entry := Z.lor (Z.lor (Z.lor p PAGE_PRESENT) (Permissions.bits (permissions request)))
                         (PageType.size_bit (page_type request)) in
      _ ← (match init with
           | None => mret tt
           | Some f => λ s,
               match translate p page_size s with
               | None => Err (tt, s)
               | Some bytes =>
                   Ok (tt, write_bytes bytes
                     ((λ off : nat, f (v - vaddr request + Z.of_nat off))
                        <$> seq 0 (Z.to_nat page_size)) s)
               end
           end);
      _ ← (λ s, match map_raw self v (page_type request) entry s with
                | Ok r => Ok r
                | Err (_, s) => Err (tt, s)
                | Panic => Panic
                | Diverge => Diverge
                end);
      map_pages self request init n (v + page_size)
  end.

Definition map_init (self : Z) (request : MapRequest) (init : option (Z → Z)) : M S unit unit :=
  let page_size := PageType.size (page_type request) in
  if (size request <=? 0) || negb (Z.land (vaddr request) (page_size - 1) =? 0) then throw tt else
  end_vaddr ← lift (ok_or (checked_add 64 (vaddr request) (size request - 1)) tt);
  (* (vaddr..=end_vaddr).step_by(page_size) *)
  map_pages self request init
    (Z.to_nat ((end_vaddr - vaddr request) / page_size + 1)) (vaddr request).

Definition map (self : Z) (request : MapRequest) : M S unit unit := map_init self request None.

End ops.
End PageTable.

(** [Permissions::bits] encodes write, user and no-execute as asked, and is
    inverted on caching: permissions made by [new] disable the cache and those made
    by [uncached] do not. *)
Theorem permissions_bits_correct w x u :
  let on p k := negb (Z.land (Permissions.bits p) k =? 0) in
  ∀ p, p ∈ [Permissions.new w x u; Permissions.uncached w x u] →
  on p PAGE_WRITE = w ∧ on p PAGE_USER = u ∧ on p PAGE_NXE = negb x ∧ on p PAGE_PRESENT = false ∧
  on p PAGE_SIZE = false ∧
  on p PAGE_CACHE_DISABLE = bool_decide (p = Permissions.new w x u).
Proof.
  intros on p Hp. apply list_elem_of_In in Hp as [<-|[<-|[]]]; destruct w, x, u; done.
Qed.
Lemma permissions_bits_correct_witness :
  Permissions.new true false false ∈ [Permissions.new true false false; Permissions.uncached true false false]
  ∧ negb (Z.land (Permissions.bits (Permissions.new true false false)) PAGE_CACHE_DISABLE =? 0) = true.
Proof.
  assert (Permissions.new true false false
    ∈ [Permissions.new true false false; Permissions.uncached true false false]) as H by constructor.
  split; [exact H|].
  destruct (permissions_bits_correct true false false _ H) as (_ & _ & _ & _ & _ & E). exact E.
Defined.
