(* ===== verification/PageMem.v ===== *)
(** What page tables rely on of physical memory, and the words of that memory:
    the laws of the [PhysMem] interface of PageTable.v. *)
From Stdlib Require Import ZArith Lia.
From stdpp Require Import prelude list numbers.
From S2P Require Import Prelude Packet PageTable.

Definition block : Type := Z * Z.
Definition in_block (q : Z) (b : block) : Prop := b.1 ≤ q < b.1 + b.2.
Definition apart (a b : block) : Prop := a.1 + a.2 ≤ b.1 ∨ b.1 + b.2 ≤ a.1.

(** [owned s]: the blocks that were allocated.  Pointers are physical addresses
    at a fixed offset (the identity map of the bootloader, the window of the
    kernel); an allocation is aligned, new, and leaves what is allocated alone. *)
Class PhysMemLaws (S : Type) `{PhysMem S} := {
  offset : Z;
  owned : S → list block;
  translate_ptr p n s v : translate p n s = Some v → v = p + offset;
  translate_sub p n s v q m :
    translate p n s = Some v → p ≤ q → 0 < m → q + m ≤ p + n → translate q m s = Some (q + offset);
  peek_byte q s : u8 (peek q s);
  peek_poke q p b s : u8 b → peek q (poke p b s) = if decide (q = p) then b else peek q s;
  translate_poke p n q b s : translate p n (poke q b s) = translate p n s;
  owned_poke q b s : owned (poke q b s) = owned s;
  owned_apart s b b' : b ∈ owned s → b' ∈ owned s → b = b' ∨ apart b b';
  alloc_translate sz al s o s' p n :
    alloc_phys sz al s = (o, s') → translate p n s' = translate p n s;
  alloc_keeps sz al s o s' q b :
    alloc_phys sz al s = (o, s') → b ∈ owned s → in_block q b →
    peek (q + offset) s' = peek (q + offset) s;
  alloc_none sz al s s' : alloc_phys sz al s = (None, s') → owned s' = owned s;
  alloc_some sz al s a s' :
    0 < sz → alloc_phys sz al s = (Some a, s') →
    (al | a) ∧ 0 ≤ a ∧ a + sz ≤ 2 ^ 52 ∧ translate a sz s' = Some (a + offset) ∧
    owned s' = (a, sz) :: owned s ∧ Forall (apart (a, sz)) (owned s);
}.

Section words.
Context {S : Type} `{Hm : PhysMem S} {Hl : PhysMemLaws S}.
Implicit Types (s : S) (p q : Z) (l : list Z).

Lemma write_bytes_translate ptr l s p n : translate p n (write_bytes ptr l s) = translate p n s.
Proof.
  revert ptr s. induction l as [|b l IH]; intros ptr s; [done|].
  cbn [write_bytes]. by rewrite IH, translate_poke.
Qed.
Lemma write_bytes_owned ptr l s : owned (write_bytes ptr l s) = owned s.
Proof.
  revert ptr s. induction l as [|b l IH]; intros ptr s; [done|].
  cbn [write_bytes]. by rewrite IH, owned_poke.
Qed.

Lemma peek_write_out q ptr l s :
  bytes_ok l → q < ptr ∨ ptr + zlen l ≤ q → peek q (write_bytes ptr l s) = peek q s.
Proof.
  revert ptr s. induction l as [|b l IH]; intros ptr s Hok Hq; [done|].
  apply Forall_cons_iff in Hok as [Hb Hok]. cbn [write_bytes].
  unfold zlen in *. cbn [length] in Hq. rewrite IH by (done || lia).
  rewrite peek_poke by done. rewrite decide_False by lia. done.
Qed.
Lemma peek_write_in k ptr l s b :
  bytes_ok l → l !! k = Some b → peek (ptr + Z.of_nat k) (write_bytes ptr l s) = b.
Proof.
  revert k ptr s. induction l as [|b' l IH]; intros k ptr s Hok Hk; [done|].
  apply Forall_cons_iff in Hok as [Hb Hok]. cbn [write_bytes]. destruct k as [|k].
  - injection Hk as ->. rewrite peek_write_out by (done || lia).
    rewrite peek_poke by done. rewrite decide_True by lia. done.
  - replace (ptr + Z.of_nat (Datatypes.S k)) with (ptr + 1 + Z.of_nat k) by lia. by apply IH.
Qed.

(** ** 64-bit words *)
Definition word (s : S) (p : Z) : Z := le_val (read_bytes (p + offset) 8 s).
Definition usable (s : S) (p n : Z) : Prop := translate p n s = Some (p + offset).
Definition put_word (s : S) (p v : Z) : S := write_bytes (p + offset) (le_bytes 8 v) s.

Lemma usable_word s p n i : usable s p n → 0 ≤ i → 8 * i + 8 ≤ n → usable s (p + 8 * i) 8.
Proof. intros Hu Hi Hn. eapply translate_sub; [exact Hu|lia..]. Qed.

Lemma read_word {E} s p : usable s p 8 → read_u64 (E:=E) p s = Ok (word s p, s).
Proof. intros Hu. unfold read_u64. by rewrite Hu. Qed.
Lemma write_word {E} s p v : usable s p 8 → write_u64 (E:=E) p v s = Ok (tt, put_word s p v).
Proof. intros Hu. unfold write_u64. by rewrite Hu. Qed.

Lemma read_bytes_eq ptr n s s' :
  (∀ k, (k < n)%nat → peek (ptr + Z.of_nat k) s' = peek (ptr + Z.of_nat k) s) →
  read_bytes ptr n s' = read_bytes ptr n s.
Proof.
  intros Hk. unfold read_bytes. apply list_fmap_ext. intros i k Hi.
  apply lookup_seq in Hi as [-> Hi]. by apply Hk.
Qed.

Lemma word_u64 s p : u64 (word s p).
Proof.
  unfold word. assert (bytes_ok (read_bytes (p + offset) 8 s)) as Hok.
  { unfold read_bytes. apply Forall_fmap, Forall_true. intros k. apply peek_byte. }
  apply le_val_bound in Hok. unfold zlen in Hok. revert Hok. unfold read_bytes.
  rewrite length_fmap, length_seq. done.
Qed.

Lemma word_put_ne s p v q : q + 8 ≤ p ∨ p + 8 ≤ q → word (put_word s p v) q = word s q.
Proof.
  intros Hq. unfold word, put_word. f_equal. apply read_bytes_eq. intros k Hk.
  apply peek_write_out; [apply le_bytes_ok|]. unfold zlen. rewrite length_le_bytes. lia.
Qed.
Lemma word_put_eq s p v : u64 v → word (put_word s p v) p = v.
Proof.
  intros Hv. unfold word, put_word.
  assert (read_bytes (p + offset) 8 (write_bytes (p + offset) (le_bytes 8 v) s) = le_bytes 8 v) as ->.
  { apply list_eq. intros k. unfold read_bytes. rewrite list_lookup_fmap.
    destruct (decide (k < 8)%nat) as [Hk|Hk].
    - rewrite lookup_seq_lt by done. cbn [fmap option_fmap option_map].
      destruct (lookup_lt_is_Some_2 (le_bytes 8 v) k) as [b Hb]; [by rewrite length_le_bytes|].
      rewrite Hb. f_equal.
      apply (peek_write_in k); [apply le_bytes_ok|done].
    - rewrite lookup_seq_ge by lia. symmetry. apply lookup_ge_None. rewrite length_le_bytes. lia. }
  rewrite le_val_bytes. by apply Z.mod_small.
Qed.
Lemma usable_put s p v q n : usable (put_word s p v) q n ↔ usable s q n.
Proof. unfold usable, put_word. by rewrite write_bytes_translate. Qed.
Lemma owned_put s p v : owned (put_word s p v) = owned s.
Proof. apply write_bytes_owned. Qed.
Lemma peek_put s p v q : q < p ∨ p + 8 ≤ q → peek (q + offset) (put_word s p v) = peek (q + offset) s.
Proof.
  intros Hq. apply peek_write_out; [apply le_bytes_ok|].
  unfold zlen. rewrite length_le_bytes. lia.
Qed.

(** ** A zeroed page *)
Lemma le_val_zeros n : le_val (replicate n 0) = 0.
Proof. induction n as [|n IH]; [done|]. simpl. by rewrite IH. Qed.

Lemma alloc_zeroed_some s a s' :
  alloc_phys_zeroed 4096 4096 s = (Some a, s') →
  (4096 | a) ∧ 0 ≤ a ∧ a + 4096 ≤ 2 ^ 52 ∧ usable s' a 4096 ∧
  owned s' = (a, 4096) :: owned s ∧ Forall (apart (a, 4096)) (owned s) ∧
  (∀ i, 0 ≤ i < 512 → word s' (a + 8 * i) = 0) ∧
  (∀ q b, b ∈ owned s → in_block q b → peek (q + offset) s' = peek (q + offset) s) ∧
  (∀ p n, usable s p n → usable s' p n).
Proof.
  unfold alloc_phys_zeroed. destruct (alloc_phys 4096 4096 s) as [[a'|] s1] eqn:Ea; [|done].
  destruct (alloc_some 4096 4096 s a' s1 ltac:(lia) Ea) as (Hal & H0 & Hmax & Ht & Ho & Hap).
  rewrite Ht. set (z := replicate (Z.to_nat 4096) 0).
  assert (bytes_ok z) as Hz by (by apply Forall_replicate).
  assert (zlen z = 4096) as Hzl by (unfold zlen, z; rewrite length_replicate; lia).
  assert (∀ k, (Z.of_nat k < 4096) → z !! k = Some 0) as Hz0
    by (intros k Hk; apply lookup_replicate_2; lia).
  clearbody z. intros [= <- <-].
  split; [done|]. split; [done|]. split; [done|].
  split; [unfold usable; by rewrite write_bytes_translate|].
  split; [by rewrite write_bytes_owned|]. split; [done|]. split; [|split].
  - intros i Hi. unfold word.
    assert (read_bytes (a' + 8 * i + offset) 8 (write_bytes (a' + offset) z s1) = replicate 8 0) as ->;
      [|by rewrite le_val_zeros].
    apply list_eq. intros k. unfold read_bytes. rewrite list_lookup_fmap.
    destruct (decide (k < 8)%nat) as [Hk|Hk].
    + rewrite lookup_seq_lt, lookup_replicate_2 by done. simpl. f_equal.
      replace (a' + 8 * i + offset + Z.of_nat k)
        with (a' + offset + Z.of_nat (Z.to_nat (8 * i) + k)) by lia.
      apply peek_write_in; [done|]. apply Hz0. lia.
    + rewrite lookup_seq_ge by lia. symmetry. apply lookup_ge_None. rewrite length_replicate. lia.
  - intros q b Hb Hq. rewrite peek_write_out; [by eapply alloc_keeps|done|].
    rewrite Forall_forall in Hap. specialize (Hap b (proj1 (list_elem_of_In _ _) Hb)). destruct b as [b n].
    unfold apart, in_block in *. simpl in *. lia.
  - intros p n Hu. unfold usable in *. rewrite write_bytes_translate.
    by rewrite (alloc_translate _ _ _ _ _ _ _ Ea).
Qed.

Lemma word_kept s s' p b :
  (∀ q, in_block q b → peek (q + offset) s' = peek (q + offset) s) →
  b.1 ≤ p → p + 8 ≤ b.1 + b.2 → word s' p = word s p.
Proof.
  intros Hk H1 H2. unfold word. f_equal. apply read_bytes_eq. intros k Hk8.
  replace (p + offset + Z.of_nat k) with (p + Z.of_nat k + offset) by lia.
  apply Hk. unfold in_block. lia.
Qed.
End words.
