(* ===== verification/PageAlloc.v ===== *)
(** How much memory the page-table operations take: every operation is a sequence of
    writes and of a bounded number of allocations, so that running out of memory is
    a statement about the memory the operation was called on. *)
From Stdlib Require Import ZArith Lia.
From stdpp Require Import prelude list numbers.
From S2P Require Import Prelude Packet PageTable PageMem.

Section after.
Context {S : Type} `{Hm : PhysMem S} {Hl : PhysMemLaws S}.
Implicit Types (s : S) (l : list Z) (sz : Z).

(** [after l s s']: writes and allocations lead from [s] to [s'], and [l] are the
    sizes of the blocks that were handed out on the way. *)
Inductive after : list Z → S → S → Prop :=
| after_refl s : after [] s s
| after_poke l s s1 q b : after l s s1 → after l s (poke q b s1)
| after_alloc l s s1 sz a s2 :
    after l s s1 → alloc_phys sz sz s1 = (Some a, s2) → after (sz :: l) s s2
| after_fail l s s1 sz s2 : after l s s1 → alloc_phys sz sz s1 = (None, s2) → after l s s2.

Lemma after_trans l l' s s1 s2 : after l s s1 → after l' s1 s2 → after (l' ++ l) s s2.
Proof. intros H1 H2. induction H2; simpl; eauto using after. Qed.

(** At most [n] blocks, each a small page or of size [sz]. *)
Definition within sz (n : nat) s s' : Prop := ∃ l,
  (length l ≤ n)%nat ∧ Forall (λ x, x = 4096 ∨ x = sz) l ∧ after l s s'.

(** An allocation of such a block fails after fewer than [n] that succeed. *)
Definition short sz (n : nat) s : Prop := ∃ k s1 s2 z,
  (k < n)%nat ∧ within sz k s s1 ∧ (z = 4096 ∨ z = sz) ∧ alloc_phys z z s1 = (None, s2).

Lemma within_refl sz n s : within sz n s s.
Proof. exists []. split; [simpl; lia|]. split; [constructor|apply after_refl]. Qed.
Lemma within_trans sz n m s s1 s2 : within sz n s s1 → within sz m s1 s2 → within sz (n + m) s s2.
Proof.
  intros (l & Hl1 & Hf1 & H1) (l' & Hl2 & Hf2 & H2). exists (l' ++ l). rewrite length_app.
  split; [lia|]. split; [by apply Forall_app|by eapply after_trans].
Qed.
Lemma within_weaken sz n m s s' : (n ≤ m)%nat → within sz n s s' → within sz m s s'.
Proof. intros Hn (l & ? & ?). exists l. split; [lia|done]. Qed.
Lemma within_page sz n s s' : within 4096 n s s' → within sz n s s'.
Proof.
  intros (l & ? & Hf & ?). exists l. split; [done|]. split; [|done].
  eapply Forall_impl; [|exact Hf]. intros x [->| ->]; by left.
Qed.
Lemma within_poke sz n s s' q b : within sz n s s' → within sz n s (poke q b s').
Proof. intros (l & ? & ? & ?). exists l. split; [done|]. split; [done|by apply after_poke]. Qed.
Lemma within_write sz n s s' ptr bs : within sz n s s' → within sz n s (write_bytes ptr bs s').
Proof.
  revert ptr s'. induction bs as [|b bs IH]; intros ptr s' Hw; [done|]. cbn [write_bytes].
  by apply IH, within_poke.
Qed.
Lemma within_alloc sz s z a s' :
  z = 4096 ∨ z = sz → alloc_phys z z s = (Some a, s') → within sz 1 s s'.
Proof.
  intros Hz Ha. exists [z]. split; [done|]. split; [by constructor|].
  eapply after_alloc; [apply after_refl|done].
Qed.
Lemma within_fail sz s z s' : alloc_phys z z s = (None, s') → within sz 0 s s'.
Proof.
  intros Ha. exists []. split; [done|]. split; [constructor|]. eapply after_fail; [apply after_refl|done].
Qed.

Lemma short_now sz n s z s' :
  z = 4096 ∨ z = sz → alloc_phys z z s = (None, s') → (0 < n)%nat → short sz n s.
Proof. intros Hz Ha Hn. exists 0%nat, s, s', z. split; [done|]. split; [apply within_refl|done]. Qed.
Lemma short_later sz n m s s1 : within sz n s s1 → short sz m s1 → short sz (n + m) s.
Proof.
  intros Hw (k & s2 & s3 & z & Hk & Hw' & Hz & Ha). exists (n + k)%nat, s2, s3, z.
  split; [lia|]. split; [by eapply within_trans|done].
Qed.
Lemma short_weaken sz n m s : (n ≤ m)%nat → short sz n s → short sz m s.
Proof. intros Hn (k & s1 & s2 & z & Hk & ?). exists k, s1, s2, z. split; [lia|done]. Qed.
Lemma short_page sz n s : short 4096 n s → short sz n s.
Proof.
  intros (k & s1 & s2 & z & Hk & Hw & Hz & Ha). exists k, s1, s2, z. split; [done|].
  split; [by apply within_page|]. split; [|done]. left. by destruct Hz.
Qed.

(** A zeroed page: one allocation; it fails where the allocation does. *)
Lemma zeroed_within sz s a s' : alloc_phys_zeroed 4096 4096 s = (Some a, s') → within sz 1 s s'.
Proof.
  unfold alloc_phys_zeroed. destruct (alloc_phys 4096 4096 s) as [[p|] s1] eqn:Ea; [|done].
  set (z := replicate _ _). clearbody z.
  destruct (translate p 4096 s1); [|done]. intros [= <- <-].
  apply within_write. eapply within_alloc; [by left|done].
Qed.
Lemma zeroed_fails s s' :
  alloc_phys_zeroed 4096 4096 s = (None, s') → alloc_phys 4096 4096 s = (None, s').
Proof.
  unfold alloc_phys_zeroed. destruct (alloc_phys 4096 4096 s) as [[p|] s1] eqn:Ea; [|done].
  set (z := replicate _ _). clearbody z.
  destruct (alloc_some 4096 4096 s p s1 ltac:(lia) Ea) as (_ & _ & _ & -> & _). done.
Qed.

(** ** Operations that allocate a bounded number of blocks *)
Definition bounded {E A} sz n (m : M S E A) : Prop := ∀ s,
  match m s with Ok (_, s') | Err (_, s') => within sz n s s' | _ => True end.

Section bounds.
Context {E A B : Type}.
Implicit Types (m : M S E A) (f : A → M S E B).

Lemma bounded_bind sz n k m f :
  bounded sz n m → (∀ a, bounded sz k (f a)) → bounded sz (n + k) (m ≫= f).
Proof.
  intros Hbd Hf s. specialize (Hbd s). unfold mbind, M_bind.
  destruct (m s) as [[a s1]|[e s1]| |]; [|by eapply within_weaken; [|exact Hbd]; lia|done|done].
  specialize (Hf a s1). destruct (f a s1) as [[b s2]|[e s2]| |]; try done; by eapply within_trans.
Qed.
Lemma bounded_ret sz n (a : A) : bounded (E:=E) sz n (mret a).
Proof. intros s. apply within_refl. Qed.
Lemma bounded_lift sz n (r : res E A) : bounded sz n (lift r).
Proof. intros s. unfold lift. destruct r; try done; apply within_refl. Qed.
Lemma bounded_throw sz n (e : E) : bounded (A:=A) sz n (throw e).
Proof. intros s. apply within_refl. Qed.
Lemma bounded_weaken sz n k m : (n ≤ k)%nat → bounded sz n m → bounded sz k m.
Proof.
  intros Hn Hbd s. specialize (Hbd s). destruct (m s) as [[a s1]|[e s1]| |]; try done; by eapply within_weaken.
Qed.
Lemma bounded_read sz n p : bounded (E:=E) sz n (read_u64 p).
Proof. intros s. unfold read_u64. destruct (translate p 8 s); [apply within_refl|done]. Qed.
Lemma bounded_write sz n p v : bounded (E:=E) sz n (write_u64 p v).
Proof. intros s. unfold write_u64. destruct (translate p 8 s); [apply within_write, within_refl|done]. Qed.
Lemma bounded_zeroed sz : bounded (E:=E) sz 1 (must (alloc_phys_zeroed 4096 4096)).
Proof.
  intros s. unfold must. destruct (alloc_phys_zeroed 4096 4096 s) as [[a|] s1] eqn:E1; [|done].
  by eapply zeroed_within.
Qed.
End bounds.

Lemma bounded_add_ref sz p : bounded sz 0 (PageTable.add_ref p).
Proof. apply (bounded_bind _ 0 0); [apply bounded_read|intros a; apply bounded_write]. Qed.

Lemma bounded_walk sz v depth indices table ret : bounded sz 0 (PageTable.walk v depth indices table ret).
Proof.
  revert depth table ret. induction indices as [|i indices IH]; intros depth table ret; [apply bounded_ret|].
  cbn [PageTable.walk]. apply (bounded_bind _ 0 0); [apply bounded_lift|intros off].
  apply (bounded_bind _ 0 0); [apply bounded_lift|intros ptp].
  apply (bounded_bind _ 0 0); [apply bounded_read|intros ent].
  destruct (_ =? 0); [apply bounded_ret|]. destruct (_ || _); [|apply IH].
  destruct (_ =? 0)%nat; apply bounded_ret.
Qed.
Lemma bounded_components sz table v : bounded sz 0 (PageTable.components table v).
Proof.
  apply (bounded_bind _ 0 0); [apply bounded_lift|intros c].
  destruct (negb _); [apply bounded_throw|apply bounded_walk].
Qed.

(** Linking a new table to its parent. *)
Lemma bounded_count sz idx entries :
  bounded sz 0 (if (2 <=? idx)%nat then rc ← lift (PageTable.entry entries (idx - 2)); PageTable.add_ref rc
                else mret tt).
Proof.
  destruct (2 <=? idx)%nat; [|apply bounded_ret].
  apply (bounded_bind _ 0 0); [apply bounded_lift|intros rc; apply bounded_add_ref].
Qed.

Lemma bounded_create sz indices idx n entries : bounded sz n (PageTable.create_tables indices idx n entries).
Proof.
  revert idx entries. induction n as [|n IH]; intros idx entries; [apply bounded_ret|].
  cbn [PageTable.create_tables]. apply (bounded_bind _ 0 (1 + n)); [apply bounded_lift|intros [cur|]].
  { eapply bounded_weaken; [|apply IH]. lia. }
  apply bounded_bind; [apply bounded_zeroed|intros table].
  apply (bounded_bind _ 0 n); [apply bounded_lift|intros ptr].
  apply (bounded_bind _ 0 n); [apply bounded_count|intros _].
  apply (bounded_bind _ 0 n); [apply bounded_write|intros _].
  apply (bounded_bind _ 0 n); [apply bounded_lift|intros i].
  apply (bounded_bind _ 0 n); [apply bounded_lift|intros off].
  apply (bounded_bind _ 0 n); [apply bounded_lift|intros e].
  apply (bounded_bind _ 0 n); [apply bounded_lift|intros entries']. apply IH.
Qed.

(** [map_raw] takes a page for each missing table. *)
Lemma bounded_map_raw sz table v t raw : bounded sz 3 (PageTable.map_raw table v t raw).
Proof.
  unfold PageTable.map_raw. destruct (_ || _); [apply bounded_throw|].
  apply (bounded_bind _ 0 3); [apply bounded_components|intros mapping].
  destruct (page mapping); [apply bounded_throw|].
  destruct (Mapping.entries mapping !! PageTable.depth_of t) as [[o|]|]; [apply bounded_throw|..];
    (apply (bounded_bind _ 0 3); [apply bounded_lift|intros _];
     apply (bounded_bind _ 3 0);
       [eapply bounded_weaken; [|apply bounded_create]; destruct t; simpl; lia|intros entries];
     apply (bounded_bind _ 0 0); [apply bounded_lift|intros rc];
     apply (bounded_bind _ 0 0); [apply bounded_add_ref|intros _];
     apply (bounded_bind _ 0 0); [apply bounded_lift|intros ptr]; apply bounded_write).
Qed.
End after.
