(* ===== verification/PageMap.v ===== *)
(** Mapping pages: the tables of an address space as a tree, what a walk finds in
    it, and the effect of [map_raw] on every address. *)
From Stdlib Require Import ZArith Lia.
From stdpp Require Import prelude list numbers gmap.
From S2P Require Import Prelude Packet PageTable PageMem PageAlloc.

(** * Entries *)
Definition present (e : Z) : bool := negb (Z.land e PAGE_PRESENT =? 0).
Definition large (e : Z) : bool := negb (Z.land e PAGE_SIZE =? 0).
(** An entry at [depth] that ends the walk. *)
Definition leaf (depth : nat) (e : Z) : bool := (depth =? 3)%nat || large e.
Definition table_of (e : Z) : Z := Z.land e PageTable.ADDR_MASK.
Definition is_index (i : Z) : Prop := 0 ≤ i < 512.

Lemma testbit_and_bit e k : 0 ≤ k → negb (Z.land e (Z.shiftl 1 k) =? 0) = Z.testbit e k.
Proof.
  intros Hk. destruct (Z.eqb_spec (Z.land e (Z.shiftl 1 k)) 0) as [H|H]; symmetry; simpl.
  - apply (f_equal (λ x, Z.testbit x k)) in H. rewrite Z.land_spec, Z.bits_0 in H.
    rewrite Z.shiftl_spec, Z.sub_diag in H by done. simpl in H. by rewrite andb_true_r in H.
  - destruct (Z.testbit e k) eqn:E; [done|]. exfalso. apply H. apply Z.bits_inj_0. intros n.
    rewrite Z.land_spec. destruct (Z.lt_ge_cases n 0); [by rewrite !Z.testbit_neg_r|].
    rewrite Z.shiftl_spec by lia. destruct (Z.eq_dec n k) as [->|]; [by rewrite E|].
    destruct (Z.lt_ge_cases n k).
    + by rewrite (Z.testbit_neg_r 1), andb_false_r by lia.
    + change 1 with (2 ^ 0). rewrite Z.pow2_bits_false, andb_false_r by lia. done.
Qed.

Lemma present_bit e : present e = Z.testbit e 0.
Proof. apply testbit_and_bit. lia. Qed.
Lemma large_bit e : large e = Z.testbit e 7.
Proof. apply testbit_and_bit. lia. Qed.

Lemma table_of_bits e n : 0 ≤ n → Z.testbit (table_of e) n = (12 <=? n) && (n <? 52) && Z.testbit e n.
Proof.
  intros Hn. unfold table_of, PageTable.ADDR_MASK. rewrite Z.land_spec.
  change 0xffffffffff000 with (Z.shiftl (Z.ones 40) 12). rewrite Z.shiftl_spec by done.
  destruct (Z.leb_spec 12 n); simpl.
  - rewrite Z.testbit_ones by lia. rewrite andb_comm. f_equal.
    rewrite (proj2 (Z.leb_le 0 (n - 12))) by lia. simpl.
    destruct (Z.ltb_spec n 52), (Z.ltb_spec (n - 12) 40); (done || lia).
  - rewrite (Z.testbit_neg_r (Z.ones 40)) by lia. apply andb_false_r.
Qed.

(** The reference count of an entry leaves the rest of it alone. *)
Lemma bump_bits e n : u64 e → 0 ≤ n < 52 → Z.testbit (PageTable.bump_count e) n = Z.testbit e n.
Proof.
  intros He Hn. unfold PageTable.bump_count. rewrite Z.lor_spec, Z.land_spec.
  rewrite (Z.shiftl_spec _ 52 n), (Z.testbit_neg_r _ (n - 52)), orb_false_r by lia.
  replace (Z.testbit (unot 64 (Z.shiftl 1023 52)) n) with true; [apply andb_true_r|].
  unfold unot. change (umax 64 - Z.shiftl 1023 52) with (Z.lor (Z.ones 52) (Z.shiftl 3 62)).
  rewrite Z.lor_spec, Z.testbit_ones by lia.
  rewrite (proj2 (Z.leb_le 0 n)), (proj2 (Z.ltb_lt n 52)) by lia. done.
Qed.
Lemma bump_present e : u64 e → present (PageTable.bump_count e) = present e.
Proof. intros H. rewrite !present_bit. apply bump_bits; [done|lia]. Qed.
Lemma bump_large e : u64 e → large (PageTable.bump_count e) = large e.
Proof. intros H. rewrite !large_bit. apply bump_bits; [done|lia]. Qed.
Lemma bump_table e : u64 e → table_of (PageTable.bump_count e) = table_of e.
Proof.
  intros H. apply Z.bits_inj'. intros n Hn. rewrite !table_of_bits by done.
  destruct (Z.leb_spec 12 n), (Z.ltb_spec n 52); try done. simpl. apply bump_bits; [done|lia].
Qed.
Lemma bump_u64 e : u64 e → u64 (PageTable.bump_count e).
Proof.
  intros [H1 H2]. unfold PageTable.bump_count.
  set (c := Z.land (Z.shiftr e 52) 1023).
  assert (0 ≤ c < 1024) as Hc.
  { unfold c. change 1023 with (Z.ones 10). rewrite Z.land_ones by lia. apply Z.mod_pos_bound. lia. }
  assert (0 ≤ Z.land e (unot 64 (Z.shiftl 1023 52))) by (apply Z.land_nonneg; by left).
  rewrite (Z.shiftl_mul_pow2 (c + 1)) by lia.
  split; [apply Z.lor_nonneg; split; [done|lia]|].
  assert (∀ a b, 0 ≤ a < 2 ^ 64 → 0 ≤ b < 2 ^ 64 → Z.lor a b < 2 ^ 64) as Hlor.
  { intros a b [Ha1 Ha2] [Hb1 Hb2]. destruct (Z.eq_dec (Z.lor a b) 0) as [->|]; [lia|].
    assert (0 ≤ Z.lor a b) by (apply Z.lor_nonneg; lia).
    apply Z.log2_lt_cancel. rewrite Z.log2_lor, Z.log2_pow2 by lia. apply Z.max_lub_lt.
    - destruct (Z.eq_dec a 0) as [->|]; [simpl; lia|]. apply Z.log2_lt_pow2; lia.
    - destruct (Z.eq_dec b 0) as [->|]; [simpl; lia|]. apply Z.log2_lt_pow2; lia. }
  apply Hlor; [|lia]. split; [done|].
  destruct (Z.eq_dec (Z.land e (unot 64 (Z.shiftl 1023 52))) 0) as [->|Hne]; [lia|].
  apply Z.log2_lt_cancel. rewrite Z.log2_pow2 by lia.
  eapply Z.le_lt_trans; [apply Z.log2_land; [lia|done]|].
  apply Z.min_lt_iff. left. destruct (Z.eq_dec e 0) as [->|]; [simpl; lia|]. apply Z.log2_lt_pow2; lia.
Qed.

(** A new table's entry: present, not large, pointing at the table. *)
Lemma link_entry t :
  (4096 | t) → 0 ≤ t → t + 4096 ≤ 2 ^ 52 →
  let e := Z.lor (Z.lor (Z.lor t PAGE_USER) PAGE_WRITE) PAGE_PRESENT in
  present e = true ∧ large e = false ∧ table_of e = t ∧ u64 e.
Proof.
  intros [k Hk] H0 Hmax e.
  assert (∀ n, 0 ≤ n → Z.testbit e n = Z.testbit t n || Z.testbit 7 n) as Hb.
  { intros n Hn. unfold e. rewrite !Z.lor_spec, <-!orb_assoc. f_equal.
    change 7 with (Z.lor PAGE_USER (Z.lor PAGE_WRITE PAGE_PRESENT)). by rewrite !Z.lor_spec. }
  assert (∀ n, 0 ≤ n < 12 → Z.testbit t n = false) as Hlow.
  { intros n Hn. rewrite Hk. change 4096 with (2 ^ 12). apply Z.mul_pow2_bits_low. lia. }
  assert (∀ n, 52 ≤ n → Z.testbit t n = false) as Hhigh.
  { intros n Hn. destruct (Z.eq_dec t 0) as [->|]; [apply Z.bits_0|].
    apply Z.bits_above_log2; [done|]. apply Z.lt_le_trans with 52; [|done].
    apply Z.log2_lt_pow2; lia. }
  assert (∀ n, 3 ≤ n → Z.testbit 7 n = false) as H7.
  { intros n Hn. apply Z.bits_above_log2; [lia|]. simpl. lia. }
  split; [rewrite present_bit, Hb, Hlow by lia; done|].
  split; [rewrite large_bit, Hb, Hlow, H7 by lia; done|].
  split.
  - apply Z.bits_inj'. intros n Hn. rewrite table_of_bits, Hb by done.
    destruct (Z.leb_spec 12 n); [|by rewrite Hlow by lia].
    destruct (Z.ltb_spec n 52); [by rewrite H7, orb_false_r by lia|by rewrite Hhigh by lia].
  - assert (e = t + 7) as ->; [|unfold fits; lia].
    assert (Z.land t 7 = 0) as Hdis.
    { apply Z.bits_inj_0. intros n. rewrite Z.land_spec.
      destruct (Z.lt_ge_cases n 0); [by rewrite Z.testbit_neg_r|].
      destruct (Z.lt_ge_cases n 3); [by rewrite Hlow by lia|by rewrite H7, andb_false_r by lia]. }
    apply Z.bits_inj'. intros n Hn. rewrite Hb by done.
    rewrite <-Z.lor_spec. f_equal. symmetry. by apply Z.add_nocarry_lxor in Hdis as Hx; rewrite Hx, Z.lxor_lor.
Qed.

(** * The tree of tables *)
Section tree.
Context {S : Type} `{Hm : PhysMem S} {Hl : PhysMemLaws S}.
Implicit Types (s : S) (T : gmap (list Z) Z) (π ix : list Z) (a i e root : Z).

(** [T] names the table reached by each path of indices from the root: every
    table is a page of its own, an entry that points to a table points to the one
    [T] names, and [T] names nothing else. *)
Record tables (s : S) (root : Z) (T : gmap (list Z) Z) : Prop := {
  tb_root : T !! [] = Some root;
  tb_page π a : T !! π = Some a →
    (length π ≤ 3)%nat ∧ (a, 4096) ∈ owned s ∧ (4096 | a) ∧ 0 ≤ a ∧ a + 4096 ≤ 2 ^ 52 ∧
    usable s a 4096;
  tb_child π a i : T !! π = Some a → is_index i →
    present (word s (a + 8 * i)) = true → leaf (length π) (word s (a + 8 * i)) = false →
    T !! (π ++ [i]) = Some (table_of (word s (a + 8 * i)));
  tb_top a i : T !! [] = Some a → is_index i →
    present (word s (a + 8 * i)) = true → large (word s (a + 8 * i)) = false;
  tb_parent π i b : T !! (π ++ [i]) = Some b →
    is_index i ∧ ∃ a, T !! π = Some a ∧ present (word s (a + 8 * i)) = true ∧
      leaf (length π) (word s (a + 8 * i)) = false ∧ table_of (word s (a + 8 * i)) = b;
  tb_inj π π' a : T !! π = Some a → T !! π' = Some a → π = π';
}.

(** What the walk along [ix] ends at: the depth and the entry of the page. *)
Fixpoint lookup_path (s : S) (T : gmap (list Z) Z) (π ix : list Z) : option (nat * Z) :=
  match ix with
  | [] => None
  | i :: ix =>
      match T !! π with
      | None => None
      | Some a =>
          let e := word s (a + 8 * i) in
          if present e then
            if leaf (length π) e then
              (if (length π =? 0)%nat then None else Some (length π, e))
            else lookup_path s T (π ++ [i]) ix
          else None
      end
  end.

(** The address of the entry on the path at level [k]. *)
Definition entry_addr (T : gmap (list Z) Z) (ix : list Z) (k : nat) : option Z :=
  match T !! take k ix, ix !! k with
  | Some a, Some i => Some (a + 8 * i)
  | _, _ => None
  end.

Definition entries_of (T : gmap (list Z) Z) (ix : list Z) : list (option Z) :=
  entry_addr T ix <$> [0; 1; 2; 3]%nat.

Definition path_ok (ix : list Z) : Prop := length ix = 4%nat ∧ Forall is_index ix.

Lemma child_eq s root T π a i :
  tables s root T → T !! π = Some a → is_index i →
  T !! (π ++ [i]) = (if present (word s (a + 8 * i)) && negb (leaf (length π) (word s (a + 8 * i)))
                     then Some (table_of (word s (a + 8 * i))) else None).
Proof.
  intros Ht Ha Hi. destruct (T !! (π ++ [i])) as [b|] eqn:Eb.
  - apply (tb_parent _ _ _ Ht) in Eb as (_ & a' & Ha' & Hp & Hlf & <-).
    rewrite Ha in Ha'. injection Ha' as <-. by rewrite Hp, Hlf.
  - destruct (present _) eqn:Hp; [|done]. destruct (leaf _ _) eqn:Hlf; [done|].
    rewrite (tb_child _ _ _ Ht _ _ _ Ha Hi Hp Hlf) in Eb. done.
Qed.

Lemma table_in s root T π a i :
  tables s root T → T !! π = Some a → is_index i →
  usable s (a + 8 * i) 8 ∧ mul (E:=Error) 64 i 8 = Ok (i * 8) ∧
  add (E:=Error) 64 a (i * 8) = Ok (a + 8 * i).
Proof.
  intros Ht Ha [Hi1 Hi2]. destruct (tb_page _ _ _ Ht _ _ Ha) as (_ & _ & _ & H0 & Hmax & Hu).
  split; [eapply usable_word; [exact Hu|lia|lia]|].
  rewrite mul_Ok, add_Ok by lia. split; [done|]. do 2 f_equal. lia.
Qed.

(** One level of the walk. *)
Lemma walk_step s root T π a i ix v d ret :
  tables s root T → T !! π = Some a → is_index i →
  PageTable.walk v d (i :: ix) a ret s =
    (let e := word s (a + 8 * i) in
     let ret := Mapping.set_entry ret d (a + 8 * i) in
     if present e then
       if (d =? 3)%nat || large e then
         if (d =? 0)%nat then Ok (ret, s)
         else Ok (Mapping.set_page ret
           (Z.land (table_of e) (unot 64 (PageTable.page_mask d)),
            Z.land v (PageTable.page_mask d), e), s)
       else PageTable.walk v (Datatypes.S d) ix (table_of e) ret s
     else Ok (ret, s)).
Proof.
  intros Ht Ha Hi. destruct (table_in _ _ _ _ _ _ Ht Ha Hi) as (Hu & E1 & E2).
  cbn [PageTable.walk]. rewrite E1. unfold mbind at 1, M_bind at 1, lift at 1.
  rewrite E2. unfold mbind at 1, M_bind at 1, lift at 1.
  rewrite (M_bind_Ok _ _ _ _ _ (read_word s _ Hu)).
  unfold present, large, table_of. destruct (Z.land _ PAGE_PRESENT =? 0); [done|]. simpl negb.
  destruct ((d =? 3)%nat || _); [|done]. by destruct (d =? 0)%nat.
Qed.

(** The page a lookup describes, as the walk reports it. *)
Definition page_of (v : Z) (r : nat * Z) : Z * Z * Z :=
  let '(d, e) := r in
  (Z.land (table_of e) (unot 64 (PageTable.page_mask d)), Z.land v (PageTable.page_mask d), e).

Lemma walk_spec s root T ix v :
  tables s root T → path_ok ix →
  ∃ m, PageTable.walk v 0 ix root Mapping.default s = Ok (m, s) ∧
    page m = page_of v <$> lookup_path s T [] ix ∧ Mapping.entries m = entries_of T ix.
Proof.
  intros Ht [Hlen Hix]. destruct ix as [|i0 [|i1 [|i2 [|i3 [|]]]]]; try done. clear Hlen.
  apply Forall_cons_iff in Hix as [I0 Hix]. apply Forall_cons_iff in Hix as [I1 Hix].
  apply Forall_cons_iff in Hix as [I2 Hix]. apply Forall_cons_iff in Hix as [I3 _].
  pose proof (tb_root _ _ _ Ht) as R0.
  assert (∀ π i, T !! π = None → T !! (π ++ [i]) = None) as Hnone.
  { intros π i Hn. destruct (T !! (π ++ [i])) eqn:E; [|done].
    apply (tb_parent _ _ _ Ht) in E as (_ & a & Ha & _). congruence. }
  assert (T !! [i0] = None → T !! [i0; i1] = None) as N2 by apply (Hnone [i0] i1).
  assert (T !! [i0; i1] = None → T !! [i0; i1; i2] = None) as N3 by apply (Hnone [i0; i1] i2).
  unfold entries_of, entry_addr. cbn [fmap list_fmap take lookup list_lookup].
  rewrite (walk_step _ _ _ _ _ _ _ _ _ _ Ht R0 I0). cbn [lookup_path]. rewrite R0.
  pose proof (child_eq _ _ _ _ _ _ Ht R0 I0) as C1. cbn [app length] in C1.
  set (e0 := word s (root + 8 * i0)) in *. unfold leaf in *. cbn [Nat.eqb orb length app] in *.
  destruct (present e0) eqn:P0; cbn [andb] in C1.
  2:{ eexists. split; [done|]. split; [done|].
      by rewrite C1, (N2 C1), (N3 (N2 C1)). }
  pose proof (tb_top _ _ _ Ht _ _ R0 I0 P0) as L0. fold e0 in L0. rewrite L0 in *. cbn [negb andb] in C1.
  rewrite C1. rewrite (walk_step _ _ _ _ _ _ _ _ _ _ Ht C1 I1).
  pose proof (child_eq _ _ _ _ _ _ Ht C1 I1) as C2. cbn [app length] in C2.
  set (e1 := word s (table_of e0 + 8 * i1)) in *. unfold leaf in *. cbn [Nat.eqb orb length app] in *.
  destruct (present e1) eqn:P1; cbn [andb] in C2.
  2:{ eexists. split; [done|]. split; [done|]. by rewrite C2, (N3 C2). }
  destruct (large e1) eqn:L1; cbn [negb andb] in C2.
  { eexists. split; [done|]. split; [done|]. by rewrite C2, (N3 C2). }
  rewrite C2. rewrite (walk_step _ _ _ _ _ _ _ _ _ _ Ht C2 I2).
  pose proof (child_eq _ _ _ _ _ _ Ht C2 I2) as C3. cbn [app length] in C3.
  set (e2 := word s (table_of e1 + 8 * i2)) in *. unfold leaf in *. cbn [Nat.eqb orb length app] in *.
  destruct (present e2) eqn:P2; cbn [andb] in C3.
  2:{ eexists. split; [done|]. split; [done|]. by rewrite C3. }
  destruct (large e2) eqn:L2; cbn [negb andb] in C3.
  { eexists. split; [done|]. split; [done|]. by rewrite C3. }
  rewrite C3. rewrite (walk_step _ _ _ _ _ _ _ _ _ _ Ht C3 I3). cbn [Nat.eqb orb].
  destruct (present (word s (table_of e2 + 8 * i3)));
    (eexists; split; [reflexivity|]; split; reflexivity).
Qed.
End tree.

(** * Changing one entry *)
Section update.
Context {S : Type} `{Hm : PhysMem S} {Hl : PhysMemLaws S}.
Implicit Types (s : S) (T : gmap (list Z) Z) (π ix : list Z) (a i e root t : Z).

Lemma entry_apart s root T π a i π' a' i' :
  tables s root T → T !! π = Some a → T !! π' = Some a' → is_index i → is_index i' →
  (π', i') ≠ (π, i) → a' + 8 * i' + 8 ≤ a + 8 * i ∨ a + 8 * i + 8 ≤ a' + 8 * i'.
Proof.
  intros Ht Ha Ha' [Hi1 Hi2] [Hi1' Hi2'] Hne.
  destruct (tb_page _ _ _ Ht _ _ Ha) as (_ & Ho & _). destruct (tb_page _ _ _ Ht _ _ Ha') as (_ & Ho' & _).
  destruct (owned_apart _ _ _ Ho Ho') as [[= <-]|Hap].
  - rewrite (tb_inj _ _ _ Ht _ _ _ Ha Ha') in *. assert (i' ≠ i) by congruence. lia.
  - unfold apart in Hap. simpl in Hap. lia.
Qed.

Lemma word_update s root T π a i v π' a' i' :
  tables s root T → T !! π = Some a → T !! π' = Some a' → is_index i → is_index i' → u64 v →
  word (put_word s (a + 8 * i) v) (a' + 8 * i') =
    if decide ((π', i') = (π, i)) then v else word s (a' + 8 * i').
Proof.
  intros Ht Ha Ha' Hi Hi' Hv. destruct (decide _) as [[= -> ->]|Hne].
  - rewrite Ha in Ha'. injection Ha' as <-. by apply word_put_eq.
  - apply word_put_ne. destruct (entry_apart _ _ _ _ _ _ _ _ _ Ht Ha Ha' Hi Hi' Hne); lia.
Qed.

(** [s'] has the same pages: an entry is the same, or points to the same table. *)
Definition agree (s s' : S) (T : gmap (list Z) Z) : Prop := ∀ π a i,
  T !! π = Some a → is_index i →
  let e := word s (a + 8 * i) in
  let e' := word s' (a + 8 * i) in
  e' = e ∨ (present e = true ∧ leaf (length π) e = false ∧ present e' = true ∧
            leaf (length π) e' = false ∧ table_of e' = table_of e).

Lemma lookup_agree s s' T π ix :
  agree s s' T → Forall is_index ix → lookup_path s' T π ix = lookup_path s T π ix.
Proof.
  intros Hag Hix. revert π. induction Hix as [|i ix Hi _ IH]; intros π; [done|].
  cbn [lookup_path]. destruct (T !! π) as [a|] eqn:Ha; [|done].
  destruct (Hag π a i Ha Hi) as [->|(P & L & P' & L' & _)].
  - by rewrite IH.
  - by rewrite P, P', L, L', IH.
Qed.

Lemma tables_agree s s' root T :
  tables s root T → agree s s' T →
  (∀ b, b ∈ owned s → b ∈ owned s') → (∀ p n, usable s p n → usable s' p n) →
  tables s' root T.
Proof.
  intros Ht Hag Ho Hu. split.
  - apply Ht.
  - intros π a Ha. destruct (tb_page _ _ _ Ht _ _ Ha) as (? & ? & ? & ? & ? & ?).
    repeat split; auto.
  - intros π a i Ha Hi P L. destruct (Hag π a i Ha Hi) as [E|(P0 & L0 & _ & _ & ->)].
    + rewrite E in *. by apply Ht.
    + by apply Ht.
  - intros a i Ha Hi P. destruct (Hag [] a i Ha Hi) as [E|(P0 & L0 & _ & L' & _)].
    + rewrite E in *. by apply (tb_top _ _ _ Ht a i).
    + done.
  - intros π i b Hb. destruct (tb_parent _ _ _ Ht _ _ _ Hb) as (Hi & a & Ha & P & L & E).
    split; [done|]. exists a. split; [done|].
    destruct (Hag π a i Ha Hi) as [->|(_ & _ & P' & L' & ->)]; done.
  - apply Ht.
Qed.

(** A reference count on an entry that points to a table. *)
Lemma bump_step s root T π a i :
  tables s root T → T !! π = Some a → is_index i →
  present (word s (a + 8 * i)) = true → leaf (length π) (word s (a + 8 * i)) = false →
  let s' := put_word s (a + 8 * i) (PageTable.bump_count (word s (a + 8 * i))) in
  PageTable.add_ref (a + 8 * i) s = Ok (tt, s') ∧ tables s' root T ∧ agree s s' T.
Proof.
  intros Ht Ha Hi P L s'. destruct (table_in _ _ _ _ _ _ Ht Ha Hi) as (Hu & _).
  pose proof (word_u64 s (a + 8 * i)) as He. set (e := word s (a + 8 * i)) in *.
  assert (agree s s' T) as Hag.
  { intros π' a' i' Ha' Hi'. cbv zeta. unfold s'.
    rewrite (word_update _ _ _ _ _ _ _ _ _ _ Ht Ha Ha' Hi Hi' (bump_u64 _ He)).
    destruct (decide _) as [[= -> ->]|]; [|by left]. right.
    rewrite Ha in Ha'. injection Ha' as <-. fold e. unfold leaf in *.
    by rewrite bump_present, bump_large, bump_table. }
  split; [|split; [|done]].
  - unfold PageTable.add_ref. rewrite (M_bind_Ok _ _ _ _ _ (read_word s _ Hu)). by apply write_word.
  - apply (tables_agree _ _ _ _ Ht Hag); [intros b; unfold s'; by rewrite owned_put|]. intros p n. apply usable_put.
Qed.

(** The page of an allocation touches no table. *)
Lemma alloc_step s root T t s' :
  tables s root T → alloc_phys_zeroed 4096 4096 s = (Some t, s') →
  tables s' root T ∧ agree s s' T ∧ (∀ π a, T !! π = Some a → apart (t, 4096) (a, 4096)).
Proof.
  intros Ht Ea. destruct (alloc_zeroed_some _ _ _ Ea) as (_ & _ & _ & _ & Ho & Hap & _ & Hk & Hu).
  assert (agree s s' T) as Hag.
  { intros π a i Ha [Hi1 Hi2]. left. destruct (tb_page _ _ _ Ht _ _ Ha) as (_ & Hin & _).
    apply (word_kept _ _ _ (a, 4096)); simpl; [|lia..]. intros q Hq. by eapply Hk. }
  split; [|split; [done|]].
  - apply (tables_agree _ _ _ _ Ht Hag); [|done]. intros b Hb. rewrite Ho. by constructor.
  - intros π a Ha. destruct (tb_page _ _ _ Ht _ _ Ha) as (_ & Hin & _).
    rewrite Forall_forall in Hap. by apply Hap.
Qed.

(** A new empty table at an entry that is not present. *)
Lemma link_step s root T π a i t :
  tables s root T → T !! π = Some a → is_index i → (length π ≤ 2)%nat →
  present (word s (a + 8 * i)) = false →
  (4096 | t) → 0 ≤ t → t + 4096 ≤ 2 ^ 52 → usable s t 4096 → (t, 4096) ∈ owned s →
  (∀ j, is_index j → word s (t + 8 * j) = 0) →
  (∀ π' a', T !! π' = Some a' → apart (t, 4096) (a', 4096)) →
  let e := Z.lor (Z.lor (Z.lor t PAGE_USER) PAGE_WRITE) PAGE_PRESENT in
  let s' := put_word s (a + 8 * i) e in
  let T' := <[π ++ [i] := t]> T in
  tables s' root T' ∧
  (∀ π0 ix, Forall is_index ix → lookup_path s' T' π0 ix = lookup_path s T π0 ix).
Proof.
  intros Ht Ha Hi Hlen P Hal H0 Hmax Hu Hin Hzero Hap e s' T'.
  destruct (link_entry t Hal H0 Hmax) as (Pe & Le & Te & Ue). fold e in Pe, Le, Te, Ue.
  assert (T !! (π ++ [i]) = None) as Hnone by (by rewrite (child_eq _ _ _ _ _ _ Ht Ha Hi), P).
  assert (∀ π' a' i', T !! π' = Some a' → is_index i' →
    word s' (a' + 8 * i') = if decide ((π', i') = (π, i)) then e else word s (a' + 8 * i')) as Hw
    by (intros; by eapply word_update).
  assert (∀ j, is_index j → word s' (t + 8 * j) = 0) as Hz.
  { intros j [Hj1 Hj2]. unfold s'. rewrite word_put_ne; [by apply Hzero|].
    specialize (Hap _ _ Ha). unfold apart, is_index in *. simpl in Hap. lia. }
  assert (∀ π' a', T' !! π' = Some a' → (π' = π ++ [i] ∧ a' = t) ∨ (π' ≠ π ++ [i] ∧ T !! π' = Some a')) as HT.
  { intros π' a'. unfold T'. destruct (decide (π' = π ++ [i])) as [->|Hne].
    - rewrite lookup_insert_eq. intros [= <-]. by left.
    - rewrite lookup_insert_ne by done. by right. }
  assert (∀ π' a', T !! π' = Some a' → T' !! π' = Some a') as HT'.
  { intros π' a' H. unfold T'. rewrite lookup_insert_ne; [done|]. intros <-. congruence. }
  assert (leaf (length π) e = false) as Lf.
  { unfold leaf. rewrite Le. destruct (Nat.eqb_spec (length π) 3); [lia|done]. }
  assert (present 0 = false) as P0 by done.
  split; [split|].
  - apply HT', Ht.
  - intros π' a' [[-> ->]|[_ H]]%HT.
    + rewrite length_app. simpl. split; [lia|]. unfold s'. rewrite owned_put.
      repeat split; try done. by apply usable_put.
    + destruct (tb_page _ _ _ Ht _ _ H) as (? & ? & ? & ? & ? & ?).
      unfold s'. rewrite owned_put. repeat split; try done. by apply usable_put.
  - intros π' a' i' [[-> ->]|[Hne H]]%HT Hi' P' L'.
    + by rewrite Hz, P0 in P' by done.
    + rewrite (Hw _ _ _ H Hi') in *. destruct (decide _) as [[= -> ->]|Hne'].
      * unfold T'. by rewrite lookup_insert_eq, Te.
      * apply HT'. by apply Ht.
  - intros a' i' [[? ?]|[Hne H]]%HT Hi' P'; [by destruct π|].
    rewrite (Hw _ _ _ H Hi') in *. destruct (decide _); [done|]. by apply (tb_top _ _ _ Ht a' i').
  - intros π' i' b [[[-> ->]%app_inj_tail ->]|[Hne H]]%HT.
    + split; [done|]. exists a. split; [by apply HT'|]. rewrite (Hw _ _ _ Ha Hi).
      by rewrite decide_True.
    + destruct (tb_parent _ _ _ Ht _ _ _ H) as (Hi' & a' & Ha' & P' & L' & E').
      split; [done|]. exists a'. split; [by apply HT'|]. rewrite (Hw _ _ _ Ha' Hi').
      rewrite decide_False; [done|]. intros [= -> ->]. by apply Hne.
  - intros π1 π2 a' [[-> ->]|[Hn1 H1]]%HT [[-> H2]|[Hn2 H2]]%HT; [done| | |by eapply Ht].
    + specialize (Hap _ _ H2). unfold apart in Hap. simpl in Hap. lia.
    + subst a'. specialize (Hap _ _ H1). unfold apart in Hap. simpl in Hap. lia.
  - assert (∀ ix, Forall is_index ix → lookup_path s' T' (π ++ [i]) ix = None) as Hnew.
    { intros ix Hix. destruct Hix as [|j ix Hj _]; [done|]. cbn [lookup_path]. unfold T'.
      by rewrite lookup_insert_eq, Hz, P0. }
    intros π0 ix Hix. revert π0. induction Hix as [|j ix Hj Hix IH]; intros π0; [done|].
    destruct (decide (π0 = π ++ [i])) as [->|Hne].
    { rewrite Hnew by by constructor. cbn [lookup_path]. by rewrite Hnone. }
    cbn [lookup_path]. unfold T' at 1. rewrite lookup_insert_ne by done.
    destruct (T !! π0) as [a0|] eqn:E0; [|done]. rewrite (Hw _ _ _ E0 Hj).
    destruct (decide _) as [[= -> ->]|_].
    + rewrite Pe, Lf. rewrite Ha in E0. injection E0 as <-. rewrite P. by apply Hnew.
    + by rewrite IH.
Qed.
End update.

(** * A page at an entry that is not present *)
Section leaf_write.
Context {S : Type} `{Hm : PhysMem S} {Hl : PhysMemLaws S}.
Implicit Types (s : S) (T : gmap (list Z) Z) (π ix : list Z) (a i root raw : Z).

Lemma prefix_table s root T π i rest a :
  tables s root T → T !! (π ++ i :: rest) = Some a → ∃ b, T !! (π ++ [i]) = Some b.
Proof.
  intros Ht. revert a. induction rest as [|j rest IH] using rev_ind; intros a Ha; [eauto|].
  rewrite app_comm_cons, app_assoc in Ha.
  apply (tb_parent _ _ _ Ht) in Ha as (_ & a' & Ha' & _). by eapply IH.
Qed.

Lemma leaf_step s root T π a i raw :
  tables s root T → T !! π = Some a → is_index i → (1 ≤ length π)%nat → u64 raw →
  present (word s (a + 8 * i)) = false → present raw = true → leaf (length π) raw = true →
  let s' := put_word s (a + 8 * i) raw in
  tables s' root T ∧
  (∀ π0 ix, Forall is_index ix →
     lookup_path s' T π0 ix =
       if decide ((length π0 ≤ length π)%nat ∧ take (length π + 1) (π0 ++ ix) = π ++ [i])
       then Some (length π, raw) else lookup_path s T π0 ix).
Proof.
  intros Ht Ha Hi Hlen Hraw P Pr Lr s'.
  assert (∀ π' a' i', T !! π' = Some a' → is_index i' →
    word s' (a' + 8 * i') = if decide ((π', i') = (π, i)) then raw else word s (a' + 8 * i')) as Hw
    by (intros; by eapply word_update).
  assert (T !! (π ++ [i]) = None) as Hnone by (by rewrite (child_eq _ _ _ _ _ _ Ht Ha Hi), P).
  split; [split|].
  - apply Ht.
  - intros π' a' H. destruct (tb_page _ _ _ Ht _ _ H) as (? & ? & ? & ? & ? & ?).
    unfold s'. rewrite owned_put. repeat split; try done. by apply usable_put.
  - intros π' a' i' H Hi' P' L'. rewrite (Hw _ _ _ H Hi') in *.
    destruct (decide _) as [[= -> ->]|]; [congruence|by apply Ht].
  - intros a' i' H Hi' P'. rewrite (Hw _ _ _ H Hi') in *.
    destruct (decide _) as [[= <- ->]|]; [simpl in Hlen; lia|by apply (tb_top _ _ _ Ht a' i')].
  - intros π' i' b H. destruct (tb_parent _ _ _ Ht _ _ _ H) as (Hi' & a' & Ha' & P' & L' & E').
    split; [done|]. exists a'. rewrite (Hw _ _ _ Ha' Hi').
    destruct (decide _) as [[= -> ->]|]; [congruence|done].
  - apply Ht.
  - intros π0 ix Hix. revert π0. induction Hix as [|j ix Hj Hix IH]; intros π0.
    { rewrite app_nil_r. destruct (decide _) as [[Hl' Ht']|]; [|done].
      exfalso. apply (f_equal length) in Ht'. rewrite length_take, length_app in Ht'. simpl in Ht'. lia. }
    cbn [lookup_path].
    destruct (decide (π0 = π ∧ j = i)) as [[-> ->]|Hne].
    { rewrite Ha, (Hw _ _ _ Ha Hi), decide_True, Pr, Lr by done.
      destruct (Nat.eqb_spec (length π) 0); [lia|]. rewrite decide_True; [done|].
      split; [done|]. replace (π ++ i :: ix) with ((π ++ [i]) ++ ix) by (by rewrite <-app_assoc).
      rewrite take_app_le by (rewrite length_app; simpl; lia).
      apply take_ge. rewrite length_app. simpl. lia. }
    assert (∀ a0, T !! π0 = Some a0 → word s' (a0 + 8 * j) = word s (a0 + 8 * j)) as Hsame.
    { intros a0 H0. rewrite (Hw _ _ _ H0 Hj), decide_False; [done|]. intros [= -> ->]. by apply Hne. }
    destruct (decide _) as [[Hl' Ht']|Hno].
    + assert (length π0 ≠ length π) as Hll.
      { intros El. apply Hne.
        replace (π0 ++ j :: ix) with ((π0 ++ [j]) ++ ix) in Ht' by (by rewrite <-app_assoc).
        rewrite take_app_le in Ht' by (rewrite length_app; simpl; lia).
        rewrite take_ge in Ht' by (rewrite length_app; simpl; lia).
        by apply app_inj_tail in Ht'. }
      assert (∃ rest, π = π0 ++ j :: rest) as [rest ->].
      { assert (take (length π) (π0 ++ j :: ix) = π) as Hp.
        { apply (f_equal (take (length π))) in Ht'. rewrite take_take in Ht'.
          rewrite (take_app_length π) in Ht'. by replace (length π `min` (length π + 1))%nat with (length π) in Ht' by lia. }
        rewrite take_app_ge in Hp by lia.
        destruct (length π - length π0)%nat as [|n] eqn:En; [lia|].
        exists (take n ix). symmetry. exact Hp. }
      destruct (prefix_table _ _ _ _ _ _ _ Ht Ha) as [b Hb].
      destruct (tb_parent _ _ _ Ht _ _ _ Hb) as (_ & a0 & H0 & P0 & L0 & _).
      rewrite H0, (Hsame _ H0), P0, L0, IH. rewrite decide_True; [done|].
      rewrite <-app_assoc. split; [rewrite !length_app; simpl; lia|exact Ht'].
    + destruct (T !! π0) as [a0|] eqn:E0; [|done]. rewrite (Hsame _ eq_refl).
      destruct (present (word s (a0 + 8 * j))); [|done].
      destruct (leaf (length π0) (word s (a0 + 8 * j))); [done|].
      rewrite IH, decide_False; [done|]. intros [Hl' Ht']. apply Hno.
      rewrite <-app_assoc in Ht'. rewrite length_app in Hl'. split; [lia|exact Ht'].
Qed.
End leaf_write.

(** * Creating the missing tables *)
Section create.
Context {S : Type} `{Hm : PhysMem S} {Hl : PhysMemLaws S}.
Implicit Types (s : S) (T : gmap (list Z) Z) (π ix : list Z) (a i root t : Z).

(** [s'] with [T'] extends [s] with [T]: allocated blocks that hold no table keep
    their contents and do not become tables. *)
Definition grown (s : S) T (s' : S) T' : Prop :=
  (∀ b, b ∈ owned s → b ∈ owned s') ∧
  (∀ p n, usable s p n → usable s' p n) ∧
  (∀ b q, b ∈ owned s → in_block q b → (∀ π, T !! π ≠ Some b.1) →
     peek (q + offset) s' = peek (q + offset) s ∧ (∀ π, T' !! π ≠ Some b.1)).

Lemma grown_refl s T : grown s T s T.
Proof. by repeat split. Qed.
Lemma grown_trans s T s' T' s'' T'' : grown s T s' T' → grown s' T' s'' T'' → grown s T s'' T''.
Proof.
  intros (H1 & H2 & H3) (H1' & H2' & H3'). split; [auto|]. split; [auto|].
  intros b q Hb Hq Hn. destruct (H3 b q Hb Hq Hn) as [E Hn'].
  destruct (H3' b q (H1 _ Hb) Hq Hn') as [E' Hn'']. split; [congruence|done].
Qed.

Lemma grown_put s root T π a i v :
  tables s root T → T !! π = Some a → is_index i → grown s T (put_word s (a + 8 * i) v) T.
Proof.
  intros Ht Ha [Hi1 Hi2]. split; [by rewrite owned_put|]. split; [intros p n; apply usable_put|].
  intros b q Hb Hq Hn. split; [|done]. apply peek_put.
  destruct (tb_page _ _ _ Ht _ _ Ha) as (_ & Ho & _).
  destruct (owned_apart _ _ _ Hb Ho) as [->|Hap]; [by destruct (Hn π)|].
  unfold apart, in_block in *. simpl in *. lia.
Qed.

Lemma grown_alloc s root T t s' :
  tables s root T → alloc_phys_zeroed 4096 4096 s = (Some t, s') → grown s T s' T.
Proof.
  intros Ht Ea. destruct (alloc_zeroed_some _ _ _ Ea) as (_ & _ & _ & _ & Ho & _ & _ & Hk & Hu).
  split; [intros b Hb; rewrite Ho; by constructor|]. split; [done|].
  intros b q Hb Hq Hn. split; [by eapply Hk|done].
Qed.

Lemma take_S_index ix k i : ix !! k = Some i → take (Datatypes.S k) ix = take k ix ++ [i].
Proof. apply take_S_r. Qed.

Lemma lookup_descend s root T ix k a :
  tables s root T → path_ok ix → T !! take k ix = Some a → (k ≤ 3)%nat →
  lookup_path s T [] ix = lookup_path s T (take k ix) (drop k ix).
Proof.
  intros Ht [Hlen Hix]. revert a. induction k as [|k IH]; intros a Ha Hk; [done|].
  destruct (lookup_lt_is_Some_2 ix k) as [i Hi]; [lia|].
  rewrite (take_S_index _ _ _ Hi) in *.
  destruct (tb_parent _ _ _ Ht _ _ _ Ha) as (_ & a' & Ha' & P & L & _).
  rewrite (IH _ Ha') by lia. rewrite (drop_S _ _ _ Hi). cbn [lookup_path]. by rewrite Ha', P, L.
Qed.

Lemma absent_entry s root T ix k a i :
  tables s root T → path_ok ix → lookup_path s T [] ix = None →
  T !! take k ix = Some a → ix !! k = Some i → T !! take (Datatypes.S k) ix = None →
  present (word s (a + 8 * i)) = false.
Proof.
  intros Ht Hp Hno Ha Hi Hn. pose proof Hp as [Hlen Hix].
  assert (is_index i) as Hii by (by eapply Forall_lookup_1).
  pose proof (lookup_lt_Some _ _ _ Hi).
  rewrite (lookup_descend _ _ _ _ _ _ Ht Hp Ha), (drop_S _ _ _ Hi) in Hno by lia.
  rewrite (take_S_index _ _ _ Hi), (child_eq _ _ _ _ _ _ Ht Ha Hii) in Hn.
  cbn [lookup_path] in Hno. rewrite Ha in Hno.
  destruct (present (word s (a + 8 * i))) eqn:P; [|done].
  destruct (leaf (length (take k ix)) (word s (a + 8 * i))) eqn:L; [|done].
  rewrite length_take in *. replace (k `min` length ix)%nat with k in * by lia.
  destruct k; [|done]. exfalso. unfold leaf in L. simpl in L.
  pose proof (tb_top _ _ _ Ht _ _ Ha Hii P). congruence.
Qed.

Lemma entries_lookup T ix k a i :
  (k ≤ 3)%nat → T !! take k ix = Some a → ix !! k = Some i →
  entries_of T ix !! k = Some (Some (a + 8 * i)).
Proof.
  intros Hk Ha Hi. unfold entries_of. rewrite list_lookup_fmap.
  assert ([0; 1; 2; 3]%nat !! k = Some k) as -> by (by destruct k as [|[|[|[|]]]]; [..|lia]).
  simpl. unfold entry_addr. by rewrite Ha, Hi.
Qed.
Lemma entries_lookup_None T ix k :
  (k ≤ 3)%nat → T !! take k ix = None → entries_of T ix !! k = Some None.
Proof.
  intros Hk Ha. unfold entries_of. rewrite list_lookup_fmap.
  assert ([0; 1; 2; 3]%nat !! k = Some k) as -> by (by destruct k as [|[|[|[|]]]]; [..|lia]).
  simpl. unfold entry_addr. by rewrite Ha.
Qed.

Lemma entry_ok T ix k a i :
  (k ≤ 3)%nat → T !! take k ix = Some a → ix !! k = Some i →
  PageTable.entry (entries_of T ix) k = Ok (a + 8 * i).
Proof.
  intros Hk Ha Hi. unfold PageTable.entry. by rewrite (index_lookup _ _ _ (entries_lookup _ _ _ _ _ Hk Ha Hi)).
Qed.

Lemma entries_insert T ix k t i :
  path_ok ix → (k ≤ 3)%nat → ix !! k = Some i →
  store (E:=Error) (entries_of T ix) k (Some (t + 8 * i)) = Ok (entries_of (<[take k ix := t]> T) ix).
Proof.
  intros [Hlen _] Hk Hi. unfold store.
  assert (length (entries_of T ix) = 4%nat) as -> by done.
  rewrite (proj2 (Nat.ltb_lt _ _)) by lia. f_equal.
  assert (∀ j, (j ≤ 3)%nat → entry_addr (<[take k ix := t]> T) ix j =
    if decide (j = k) then Some (t + 8 * i) else entry_addr T ix j) as Hj.
  { intros j Hj. unfold entry_addr. destruct (decide (j = k)) as [->|Hne].
    - by rewrite lookup_insert_eq, Hi.
    - rewrite lookup_insert_ne; [done|]. intros Heq. apply (f_equal length) in Heq.
      rewrite !length_take in Heq. lia. }
  unfold entries_of. cbn [fmap list_fmap]. rewrite !Hj by lia.
  by destruct k as [|[|[|[|]]]]; [..|lia].
Qed.

(** One missing table: allocated, counted, linked. *)
Lemma add_table s root T ix k i s1 t :
  tables s root T → path_ok ix → lookup_path s T [] ix = None →
  (k ≤ 2)%nat → ix !! k = Some i → (∀ j, (j ≤ k)%nat → ∃ a, T !! take j ix = Some a) →
  T !! take (Datatypes.S k) ix = None → alloc_phys_zeroed 4096 4096 s = (Some t, s1) →
  ∃ a s2, T !! take k ix = Some a ∧
    (_ ← (if (2 <=? Datatypes.S k)%nat
          then rc ← lift (PageTable.entry (entries_of T ix) (Datatypes.S k - 2)); PageTable.add_ref rc
          else mret tt);
     write_u64 (a + 8 * i) (Z.lor (Z.lor (Z.lor t PAGE_USER) PAGE_WRITE) PAGE_PRESENT)) s1
      = Ok (tt, s2) ∧
    let T' := <[take (Datatypes.S k) ix := t]> T in
    tables s2 root T' ∧ grown s T s2 T' ∧ owned s2 = (t, 4096) :: owned s ∧
    (∀ ix', path_ok ix' → lookup_path s2 T' [] ix' = lookup_path s T [] ix').
Proof.
  intros Ht Hp Hno Hk Hi Hall Hn Ea. pose proof Hp as [Hlen Hix].
  assert (is_index i) as Hii by (by eapply Forall_lookup_1).
  destruct (Hall k ltac:(lia)) as [a Ha]. exists a.
  destruct (alloc_zeroed_some _ _ _ Ea) as (Hal & H0 & Hmax & Hut & Ho & Hap & Hzero & Hkp & Hu).
  destruct (alloc_step _ _ _ _ _ Ht Ea) as (Ht1 & Hag1 & Hapart).
  pose proof (grown_alloc _ _ _ _ _ Ht Ea) as Hg1.
  pose proof (absent_entry _ _ _ _ _ _ _ Ht Hp Hno Ha Hi Hn) as P.
  assert (present (word s1 (a + 8 * i)) = false) as P1.
  { destruct (Hag1 _ _ i Ha Hii) as [->|(P' & _)]; [done|congruence]. }
  (* the reference count *)
  assert (∃ s2, (if (2 <=? Datatypes.S k)%nat
      then rc ← lift (PageTable.entry (entries_of T ix) (Datatypes.S k - 2)); PageTable.add_ref rc
      else mret tt) s1 = Ok (tt, s2) ∧ tables s2 root T ∧ agree s1 s2 T ∧ grown s1 T s2 T ∧
      (∀ j, is_index j → word s2 (t + 8 * j) = 0) ∧ usable s2 t 4096 ∧ owned s2 = (t, 4096) :: owned s)
    as (s2 & E2 & Ht2 & Hag2 & Hg2 & Hz2 & Hut2 & Ho2).
  { destruct k as [|k].
    { exists s1. split; [done|]. split; [done|]. split; [intros ? ? ? ? ?; by left|].
      split; [apply grown_refl|]. done. }
    destruct (lookup_lt_is_Some_2 ix k) as [i' Hi']; [lia|].
    assert (is_index i') as Hii' by (by eapply Forall_lookup_1).
    pose proof Ha as Ha0. rewrite (take_S_index _ _ _ Hi') in Ha0.
    destruct (tb_parent _ _ _ Ht1 _ _ _ Ha0) as (_ & a' & Ha' & P' & L' & _).
    destruct (bump_step _ _ _ _ _ _ Ht1 Ha' Hii' P' L') as (E & Hts & Hags).
    eexists. split.
    { cbn [Nat.leb]. replace (Datatypes.S (Datatypes.S k) - 2)%nat with k by lia.
      rewrite (entry_ok T ix k a' i' ltac:(lia) Ha' Hi'). exact E. }
    split; [done|]. split; [done|]. split; [by eapply grown_put|].
    split; [|split].
    - intros j [Hj1 Hj2]. rewrite word_put_ne; [by apply Hzero|].
      specialize (Hapart _ _ Ha'). destruct Hii'. unfold apart in Hapart. simpl in Hapart. lia.
    - by apply usable_put.
    - by rewrite owned_put. }
  assert (present (word s2 (a + 8 * i)) = false) as P2.
  { destruct (Hag2 _ _ i Ha Hii) as [->|(P' & _)]; [done|congruence]. }
  destruct (table_in _ _ _ _ _ _ Ht2 Ha Hii) as (Hue & _).
  rewrite (take_S_index _ _ _ Hi) in *.
  destruct (link_step _ _ _ _ _ _ t Ht2 Ha Hii) as (Ht3 & Hlk); try done.
  { rewrite length_take. lia. }
  { rewrite Ho2. constructor. }
  eexists. split; [done|]. split; [rewrite (M_bind_Ok _ _ _ _ _ E2); by apply write_word|].
  split; [done|]. split.
  - pose proof (grown_put _ _ _ _ _ _ (Z.lor (Z.lor (Z.lor t PAGE_USER) PAGE_WRITE) PAGE_PRESENT)
      Ht2 Ha Hii) as Hg3.
    destruct (grown_trans _ _ _ _ _ _ (grown_trans _ _ _ _ _ _ Hg1 Hg2) Hg3) as (G1 & G2 & G3).
    split; [done|]. split; [done|]. intros b q Hb Hq Hnb. destruct (G3 b q Hb Hq Hnb) as [Hpk Hnt].
    split; [done|]. intros π. destruct (decide (π = take k ix ++ [i])) as [->|Hne].
    + rewrite lookup_insert_eq. intros [= ->]. rewrite Forall_forall in Hap.
      specialize (Hap _ Hb). unfold apart, in_block in *. simpl in *. lia.
    + by rewrite lookup_insert_ne.
  - split; [by rewrite owned_put|]. intros ix' [Hl' Hx']. rewrite Hlk by done. rewrite (lookup_agree _ _ _ _ _ Hag2 Hx').
    by apply lookup_agree.
Qed.

Lemma M_bind_seq {St E A B} (m1 : M St E A) (m2 : M St E unit) (f : M St E B) st st' :
  (m1 ≫= λ _, m2) st = Ok (tt, st') → (m1 ≫= λ _, m2 ≫= λ _, f) st = f st'.
Proof.
  unfold mbind, M_bind. destruct (m1 st) as [[a st1]| | |]; try done.
  intros E1. by rewrite E1.
Qed.

Lemma create_tables_ok n k s root T ix :
  tables s root T → path_ok ix → lookup_path s T [] ix = None → (k + n ≤ 3)%nat →
  (∀ j, (j ≤ k)%nat → ∃ a, T !! take j ix = Some a) →
  (∃ s' T', PageTable.create_tables ix (Datatypes.S k) n (entries_of T ix) s
      = Ok (entries_of T' ix, s') ∧
    tables s' root T' ∧ grown s T s' T' ∧
    (∀ ix', path_ok ix' → lookup_path s' T' [] ix' = lookup_path s T [] ix') ∧
    (∀ j, (j ≤ k + n)%nat → ∃ a, T' !! take j ix = Some a) ∧
    (∀ π, T' !! π = T !! π ∨ ∃ j, (j ≤ k + n)%nat ∧ π = take j ix)) ∨
  (short 4096 n s ∧ PageTable.create_tables ix (Datatypes.S k) n (entries_of T ix) s = Panic).
Proof.
  intros Ht Hp Hno Hk Hall. pose proof Hp as [Hlen Hix].
  revert k s T Ht Hno Hk Hall. induction n as [|n IH]; intros k s T Ht Hno Hk Hall.
  { left. exists s, T. split; [done|]. split; [done|]. split; [apply grown_refl|].
    split; [done|]. split; [intros j Hj; apply Hall; lia|]. by left. }
  destruct (lookup_lt_is_Some_2 ix k) as [i Hi]; [lia|].
  destruct (lookup_lt_is_Some_2 ix (Datatypes.S k)) as [i' Hi']; [lia|].
  assert (is_index i') as Hii' by (by eapply Forall_lookup_1).
  cbn [PageTable.create_tables]. destruct (T !! take (Datatypes.S k) ix) as [b|] eqn:Eb.
  - (* the table exists *)
    rewrite (index_lookup _ _ _ (entries_lookup T ix (Datatypes.S k) b i' ltac:(lia) Eb Hi')).
    unfold mbind at 1 3, M_bind at 1 3, lift at 1 2.
    destruct (IH (Datatypes.S k) s T Ht Hno) as [(s' & T' & E & Ht' & Hg & Hlk & Hall' & Hsame)|[Hsh E]];
      [lia|..].
    + intros j Hj. destruct (decide (j = Datatypes.S k)) as [->|]; [eauto|]. apply Hall. lia.
    + left. exists s', T'. split; [done|]. split; [done|]. split; [done|]. split; [done|].
      split; [intros j Hj; apply Hall'; lia|]. intros π.
      destruct (Hsame π) as [?|(j & ? & ?)]; [by left|]. right. exists j. split; [lia|done].
    + right. split; [|done]. eapply short_weaken; [|exact Hsh]. lia.
  - rewrite (index_lookup _ _ _ (entries_lookup_None T ix (Datatypes.S k) ltac:(lia) Eb)).
    rewrite (M_bind_Ok _ _ _ None s) by done.
    destruct (alloc_phys_zeroed 4096 4096 s) as [[t|] s1] eqn:Ea.
    2:{ right. split; [eapply (short_now _ _ s 4096); [by left|by apply zeroed_fails|lia]|]. unfold mbind at 1, M_bind at 1, must. by rewrite Ea. }
    rewrite (M_bind_Ok _ _ _ t s1) by (unfold must; by rewrite Ea).
    destruct (add_table s root T ix k i s1 t Ht Hp Hno ltac:(lia) Hi Hall Eb Ea)
      as (a & s2 & Ha & E2 & Ht2 & Hg2 & Ho2 & Hlk2).
    set (T2 := <[take (Datatypes.S k) ix := t]> T) in *.
    rewrite (M_bind_Ok _ _ _ (a + 8 * i) s1).
    2:{ replace (Datatypes.S k - 1)%nat with k by lia. unfold lift.
        by rewrite (entry_ok T ix k a i ltac:(lia) Ha Hi). }
    rewrite (M_bind_seq _ _ _ _ _ E2).
    rewrite (M_bind_Ok _ _ _ i' s2) by (unfold lift; by rewrite (index_lookup _ _ _ Hi')).
    assert (T2 !! take (Datatypes.S k) ix = Some t) as Ht2' by apply lookup_insert_eq.
    destruct (table_in _ _ _ _ _ _ Ht2 Ht2' Hii') as (_ & Em & Ead).
    rewrite (M_bind_Ok _ _ _ (i' * 8) s2) by (unfold lift; by rewrite Em).
    rewrite (M_bind_Ok _ _ _ (t + 8 * i') s2) by (unfold lift; by rewrite Ead).
    rewrite (M_bind_Ok _ _ _ (entries_of T2 ix) s2)
      by (unfold lift; by rewrite (entries_insert T ix (Datatypes.S k) t i' Hp ltac:(lia) Hi')).
    destruct (IH (Datatypes.S k) s2 T2 Ht2) as [(s' & T' & E & Ht' & Hg & Hlk & Hall' & Hsame)|[Hsh E]];
      [by rewrite Hlk2|lia|..].
    + intros j Hj. destruct (decide (j = Datatypes.S k)) as [->|]; [eauto|].
      destruct (Hall j ltac:(lia)) as [aj Haj]. exists aj. unfold T2.
      rewrite lookup_insert_ne; [done|]. intros Heq. apply (f_equal length) in Heq.
      rewrite !length_take in Heq. lia.
    + left. exists s', T'. split; [done|]. split; [done|]. split; [by eapply grown_trans|].
      split; [intros ix' Hx'; rewrite Hlk by done; by apply Hlk2|].
      split; [intros j Hj; apply Hall'; lia|]. intros π.
      destruct (decide (π = take (Datatypes.S k) ix)) as [->|Hne]; [right; eexists; split; [|done]; lia|].
      destruct (Hsame π) as [E'|(j & ? & ?)]; [left|right; exists j; split; [lia|done]].
      rewrite E'. unfold T2. by rewrite lookup_insert_ne.
    + right. split; [|done]. apply (short_later 4096 1 n s s2); [|done].
      pose proof (bounded_bind 4096 0 0 _ _ (bounded_count 4096 (Datatypes.S k) (entries_of T ix))
        (λ _, bounded_write 4096 0 (a + 8 * i)
          (Z.lor (Z.lor (Z.lor t PAGE_USER) PAGE_WRITE) PAGE_PRESENT)) s1) as Hw. rewrite E2 in Hw.
      apply (within_trans 4096 1 0 s s1 s2); [by eapply zeroed_within|exact Hw].
Qed.
End create.

(** * Addresses *)
Section addresses.
Implicit Types v : Z.

Definition canonical (v : Z) : Prop := u64 v ∧ canonicalize_address (E:=Error) 16 v = Ok v.

Lemma canonicalize_eq {E} v :
  u64 v →
  canonicalize_address (E:=E) 16 v =
    Ok (if v mod 2 ^ 48 <? 2 ^ 47 then v mod 2 ^ 48 else v mod 2 ^ 48 + 2 ^ 64 - 2 ^ 48).
Proof.
  intros [H0 H1]. unfold canonicalize_address. simpl assert. cbn [mbind res_bind]. f_equal.
  set (x := to_i64 v). rewrite Z.shiftl_mul_pow2 by lia.
  assert (x mod 2 ^ 48 = v mod 2 ^ 48) as Hx.
  { unfold x, to_i64. destruct (v <? 2 ^ 63); [done|].
    replace (v - 2 ^ 64) with (v + (- 2 ^ 16) * 2 ^ 48) by lia. by rewrite Z.mod_add by lia. }
  replace (2 ^ 64) with (2 ^ 48 * 2 ^ 16) at 1 by lia. rewrite Z.mul_mod_distr_r by lia. rewrite Hx.
  set (m := v mod 2 ^ 48). assert (0 ≤ m < 2 ^ 48) as Hm by (apply Z.mod_pos_bound; lia).
  unfold to_i64. rewrite Z.shiftr_div_pow2 by lia.
  destruct (Z.ltb_spec m (2 ^ 47)), (Z.ltb_spec (m * 2 ^ 16) (2 ^ 63)); try lia.
  - rewrite Z.div_mul by lia. apply Z.mod_small. lia.
  - replace (m * 2 ^ 16 - 2 ^ 64) with ((m - 2 ^ 48) * 2 ^ 16) by lia.
    rewrite Z.div_mul by lia. replace (m - 2 ^ 48) with (m + 2 ^ 64 - 2 ^ 48 + (-1) * 2 ^ 64) by lia.
    rewrite Z.mod_add by lia. apply Z.mod_small. lia.
Qed.

Lemma index_mod v k : 0 ≤ k → Z.land (Z.shiftr v k) 0x1FF = v / 2 ^ k mod 512.
Proof.
  intros Hk. change 0x1FF with (Z.ones 9). rewrite Z.land_ones, Z.shiftr_div_pow2 by lia. done.
Qed.

Lemma indices_ok v : path_ok (Mapping.get_indices v).
Proof.
  split; [done|]. unfold Mapping.get_indices. rewrite !index_mod by lia.
  repeat constructor; unfold is_index; apply Z.mod_pos_bound; lia.
Qed.

(** A canonical address is its indices and its offset in the page. *)
Lemma canonical_split v :
  canonical v →
  ∃ i0 i1 i2 i3 off, Mapping.get_indices v = [i0; i1; i2; i3] ∧
    is_index i0 ∧ is_index i1 ∧ is_index i2 ∧ is_index i3 ∧ 0 ≤ off < 4096 ∧
    v = (((i0 * 512 + i1) * 512 + i2) * 512 + i3) * 4096 + off
        + (if i0 <? 256 then 0 else 2 ^ 64 - 2 ^ 48).
Proof.
  intros [Hu Hc]. rewrite (canonicalize_eq v Hu) in Hc. injection Hc as Hc.
  unfold Mapping.get_indices. rewrite !index_mod by lia.
  eexists _, _, _, _, (v mod 4096). split; [reflexivity|].
  repeat (split; [unfold is_index; apply Z.mod_pos_bound; lia|]).
  set (m := v mod 2 ^ 48) in *. assert (0 ≤ m < 2 ^ 48) as Hm by (apply Z.mod_pos_bound; lia).
  assert (v mod 4096 + 4096 * (v / 2 ^ 12 mod 512 + 512 * (v / 2 ^ 21 mod 512
     + 512 * (v / 2 ^ 30 mod 512 + 512 * (v / 2 ^ 39 mod 512)))) = m) as Em.
  { unfold m. rewrite !Z.mod_eq by lia. rewrite !Z.div_div by lia.
    change (2 ^ 12 * 512) with (2 ^ 21). change (2 ^ 21 * 512) with (2 ^ 30).
    change (2 ^ 30 * 512) with (2 ^ 39). change (2 ^ 39 * 512) with (2 ^ 48).
    change 4096 with (2 ^ 12). lia. }
  assert ((v / 2 ^ 39 mod 512 <? 256) = (m <? 2 ^ 47)) as ->.
  { pose proof (Z.mod_pos_bound (v / 2 ^ 39) 512). pose proof (Z.mod_pos_bound (v / 2 ^ 30) 512).
    pose proof (Z.mod_pos_bound (v / 2 ^ 21) 512). pose proof (Z.mod_pos_bound (v / 2 ^ 12) 512).
    pose proof (Z.mod_pos_bound v 4096).
    destruct (Z.ltb_spec (v / 2 ^ 39 mod 512) 256), (Z.ltb_spec m (2 ^ 47)); (done || lia). }
  destruct (Z.ltb_spec m (2 ^ 47)); lia.
Qed.

Lemma same_page t v v' :
  canonical v → canonical v' →
  take (PageTable.depth_of t) (Mapping.get_indices v') = take (PageTable.depth_of t) (Mapping.get_indices v)
  ↔ v' / PageType.size t = v / PageType.size t.
Proof.
  intros (i0 & i1 & i2 & i3 & off & E & [] & [] & [] & [] & Ho & Hv)%canonical_split.
  intros (j0 & j1 & j2 & j3 & off' & E' & [] & [] & [] & [] & Ho' & Hv')%canonical_split.
  rewrite E, E'. split.
  - intros Heq. assert (j0 = i0 ∧ j1 = i1) as [-> ->] by (by destruct t; injection Heq).
    destruct t; cbn [PageTable.depth_of take PageType.size] in *.
    + injection Heq as -> ->. rewrite Hv, Hv'. destruct (i0 <? 256); Z.div_mod_to_equations; lia.
    + injection Heq as ->. rewrite Hv, Hv'. destruct (i0 <? 256); Z.div_mod_to_equations; lia.
    + rewrite Hv, Hv'. destruct (i0 <? 256); Z.div_mod_to_equations; lia.
  - intros Heq.
    assert (∀ n, (0 < n) → v' / n = v / n → v' - v < n ∧ v - v' < n ∧ n * (v / n) ≤ v' < n * (v / n) + n
      ∧ n * (v / n) ≤ v < n * (v / n) + n) as Hn
      by (intros n Hn0 HH; Z.div_mod_to_equations; lia).
    destruct (Hn (PageType.size t) ltac:(by destruct t) Heq) as (_ & _ & B1 & B2). clear Hn Heq E E'.
    set (q := v / PageType.size t) in *. clearbody q. subst v v'.
    destruct t; cbn [PageTable.depth_of take PageType.size] in *;
      destruct (Z.ltb_spec i0 256), (Z.ltb_spec j0 256);
      repeat match goal with |- _ :: _ = _ :: _ => f_equal end; lia.
Qed.
End addresses.

(** * Address spaces *)
Section spaces.
Context {S : Type} `{Hm : PhysMem S} {Hl : PhysMemLaws S}.
Implicit Types (s : S) (T : gmap (list Z) Z) (π ix : list Z) (a i root raw v : Z) (t : PageType).

Lemma tables_unique s root T T' : tables s root T → tables s root T' → T' = T.
Proof.
  assert (∀ T T' π a, tables s root T → tables s root T' → T !! π = Some a → T' !! π = Some a) as Hin.
  { intros T1 T2 π a H1 H2. revert a. induction π as [|i π IH] using rev_ind; intros a Ha.
    - rewrite (tb_root _ _ _ H1) in Ha. injection Ha as <-. apply H2.
    - destruct (tb_parent _ _ _ H1 _ _ _ Ha) as (Hi & b & Hb & P & L & <-).
      by apply H2; [apply IH|..]. }
  intros H H'. apply map_eq. intros π. apply option_eq. intros a. split; by apply Hin.
Qed.

Definition address_space (s : S) (root : Z) : Prop := ∃ T, tables s root T.
Definition is_table (s : S) (root a : Z) : Prop := ∃ T π, tables s root T ∧ T !! π = Some a.
(** The entry a page of type [t] at [v] would take points to a table. *)
Definition table_below (s : S) (root : Z) (t : PageType) (v : Z) : Prop := ∃ T a,
  tables s root T ∧ T !! take (PageTable.depth_of t) (Mapping.get_indices v) = Some a.

(** The page a walk finds at [v]. *)
Definition page_at (s : S) (root v : Z) : option (Z * Z * Z) :=
  match PageTable.components root v s with Ok (m, _) => page m | _ => None end.

(** An allocated block that holds no table: the memory of a page, for one. *)
Definition keeps_data (s s' : S) (root : Z) : Prop := ∀ b, b ∈ owned s → 0 < b.2 →
  ¬ is_table s root b.1 →
  b ∈ owned s' ∧ ¬ is_table s' root b.1 ∧ ∀ q, in_block q b → peek (q + offset) s' = peek (q + offset) s.

Lemma components_ok s root T v :
  tables s root T → canonical v →
  ∃ m, PageTable.components root v s = Ok (m, s) ∧
    page m = page_of v <$> lookup_path s T [] (Mapping.get_indices v) ∧
    Mapping.entries m = entries_of T (Mapping.get_indices v).
Proof.
  intros Ht [_ Hc]. destruct (walk_spec _ _ _ _ v Ht (indices_ok v)) as (m & E & Hp & He).
  exists m. split; [|done]. unfold PageTable.components.
  rewrite (M_bind_Ok _ _ _ v s) by (unfold lift; by rewrite Hc). by rewrite Z.eqb_refl.
Qed.
Lemma page_at_eq s root T v :
  tables s root T → canonical v →
  page_at s root v = page_of v <$> lookup_path s T [] (Mapping.get_indices v).
Proof. intros Ht Hc. unfold page_at. by destruct (components_ok _ _ _ _ Ht Hc) as (m & -> & -> & _). Qed.

(** What an entry for a page of type [t] must be, and the page it gives at [v]. *)
Definition valid_leaf (t : PageType) (raw : Z) : bool :=
  present raw && (bool_decide (t = Page4K) || large raw).
Definition leaf_page (t : PageType) (raw v : Z) : Z * Z * Z :=
  (table_of raw / PageType.size t * PageType.size t, v mod PageType.size t, raw).

Lemma land_unot_size a k : u64 a → 0 ≤ k ≤ 64 → Z.land a (unot 64 (2 ^ k - 1)) = a / 2 ^ k * 2 ^ k.
Proof.
  intros Ha Hk. rewrite <-Z.shiftr_div_pow2, <-Z.shiftl_mul_pow2 by lia.
  replace (2 ^ k - 1) with (Z.ones k) by (by rewrite Z.ones_equiv; lia).
  rewrite <-Z.ldiff_ones_r by lia. apply Z.bits_inj'. intros n Hn.
  rewrite Z.land_spec, Z.ldiff_spec. destruct (Z.testbit a n) eqn:Ea; [|done]. simpl.
  assert (n < 64) as Hn64.
  { destruct (Z.lt_ge_cases n 64); [done|]. destruct Ha as [Ha1 Ha2].
    destruct (Z.eq_dec a 0) as [->|]; [by rewrite Z.bits_0 in Ea|].
    rewrite Z.bits_above_log2 in Ea; [done|lia|].
    apply Z.lt_le_trans with 64; [apply Z.log2_lt_pow2; lia|done]. }
  unfold unot. replace (umax 64 - Z.ones k) with (Z.ldiff (Z.ones 64) (Z.ones k)).
  - rewrite Z.ldiff_spec, (Z.testbit_ones_nonneg 64), (proj2 (Z.ltb_lt n 64)) by lia. done.
  - rewrite <-Z.sub_nocarry_ldiff; [done|]. apply Z.bits_inj_0. intros m. rewrite Z.ldiff_spec.
    destruct (Z.lt_ge_cases m 0); [by rewrite Z.testbit_neg_r|]. rewrite !Z.testbit_ones_nonneg by lia.
    destruct (Z.ltb_spec m k), (Z.ltb_spec m 64); (done || lia).
Qed.

Lemma table_of_u64 e : u64 e → u64 (table_of e).
Proof.
  intros [H1 H2]. unfold table_of. split; [apply Z.land_nonneg; by left|].
  destruct (Z.eq_dec (Z.land e PageTable.ADDR_MASK) 0) as [->|]; [lia|].
  apply Z.log2_lt_cancel. rewrite Z.log2_pow2 by lia.
  eapply Z.le_lt_trans; [apply Z.log2_land; (lia || done)|].
  apply Z.min_lt_iff. by right.
Qed.

Lemma page_of_leaf t raw v :
  u64 raw → page_of v ((PageTable.depth_of t - 1)%nat, raw) = leaf_page t raw v.
Proof.
  intros Hr. pose proof (table_of_u64 _ Hr) as Ht. unfold page_of, leaf_page.
  assert (∃ k, 0 ≤ k ≤ 64 ∧ PageType.size t = 2 ^ k ∧
    PageTable.page_mask (PageTable.depth_of t - 1) = 2 ^ k - 1) as (k & Hk & -> & ->).
  { destruct t; [exists 12|exists 21|exists 30]; (split; [lia|done]). }
  rewrite land_unot_size by done. do 2 f_equal.
  replace (2 ^ k - 1) with (Z.ones k) by (by rewrite Z.ones_equiv; lia). apply Z.land_ones. lia.
Qed.
End spaces.

(** * Mapping one page *)
Section mapping.
Context {S : Type} `{Hm : PhysMem S} {Hl : PhysMemLaws S}.
Implicit Types (s : S) (T : gmap (list Z) Z) (π ix : list Z) (a i root raw v : Z) (t : PageType).

Lemma depth_bounds t : (2 ≤ PageTable.depth_of t ≤ 4)%nat.
Proof. destruct t; simpl; lia. Qed.

(** The last part of [map_raw]: the count of the last table and the page's entry. *)
Lemma write_leaf s root T ix n raw :
  tables s root T → path_ok ix → lookup_path s T [] ix = None → (2 ≤ n ≤ 4)%nat → u64 raw →
  (∀ j, (j < n)%nat → ∃ a, T !! take j ix = Some a) → T !! take n ix = None →
  present raw = true → leaf (n - 1) raw = true →
  ∃ s', (rc ← lift (PageTable.entry (entries_of T ix) (n - 2)); _ ← PageTable.add_ref rc;
         ptr ← lift (PageTable.entry (entries_of T ix) (n - 1)); write_u64 ptr raw) s = Ok (tt, s') ∧
    tables s' root T ∧ grown s T s' T ∧
    (∀ ix', path_ok ix' → lookup_path s' T [] ix' =
       if decide (take n ix' = take n ix) then Some ((n - 1)%nat, raw) else lookup_path s T [] ix').
Proof.
  intros Ht Hp Hno Hn Hraw Hall Hnone Pr Lr. pose proof Hp as [Hlen Hix].
  destruct (lookup_lt_is_Some_2 ix (n - 2)) as [i Hi]; [lia|].
  destruct (lookup_lt_is_Some_2 ix (n - 1)) as [j Hj]; [lia|].
  assert (is_index i) as Hii by (by eapply Forall_lookup_1).
  assert (is_index j) as Hjj by (by eapply Forall_lookup_1).
  destruct (Hall (n - 2)%nat ltac:(lia)) as [a Ha]. destruct (Hall (n - 1)%nat ltac:(lia)) as [b Hb].
  assert (take n ix = take (n - 1) ix ++ [j]) as Etake.
  { rewrite <-(take_S_index _ _ _ Hj). f_equal. lia. }
  assert (length (take (n - 1) ix) = n - 1)%nat as Eln by (rewrite length_take; lia).
  pose proof Hb as Hb'. replace (n - 1)%nat with (Datatypes.S (n - 2)) in Hb' by lia.
  rewrite (take_S_index _ _ _ Hi) in Hb'.
  destruct (tb_parent _ _ _ Ht _ _ _ Hb') as (_ & a' & Ha' & P & L & _).
  rewrite Ha in Ha'. injection Ha' as <-.
  destruct (bump_step _ _ _ _ _ _ Ht Ha Hii P L) as (E1 & Ht1 & Hag1).
  set (s1 := put_word _ _ _) in *.
  assert (present (word s (b + 8 * j)) = false) as Q.
  { eapply (absent_entry s root T ix (n - 1)); try done. by replace (Datatypes.S (n - 1)) with n by lia. }
  assert (present (word s1 (b + 8 * j)) = false) as Q1.
  { destruct (Hag1 _ _ j Hb Hjj) as [->|(P' & _)]; [done|congruence]. }
  rewrite <-Eln in Lr.
  destruct (leaf_step _ _ _ _ _ _ raw Ht1 Hb Hjj ltac:(lia) Hraw Q1 Pr Lr) as (Ht2 & Hlk).
  destruct (table_in _ _ _ _ _ _ Ht1 Hb Hjj) as (Hue & _).
  eexists. split.
  { rewrite (M_bind_Ok _ _ _ (a + 8 * i) s)
      by (unfold lift; by rewrite (entry_ok T ix (n - 2) a i ltac:(lia) Ha Hi)).
    rewrite (M_bind_Ok _ _ _ _ _ E1).
    rewrite (M_bind_Ok _ _ _ (b + 8 * j) s1)
      by (unfold lift; by rewrite (entry_ok T ix (n - 1) b j ltac:(lia) Hb Hj)).
    by apply write_word. }
  split; [done|]. split; [eapply grown_trans; by eapply grown_put|].
  intros ix' [Hl' Hx']. rewrite Hlk, (lookup_agree _ _ _ _ _ Hag1 Hx'), Eln, Etake by done.
  cbn [app]. replace (n - 1 + 1)%nat with n by lia.
  destruct (decide (take n ix' = take (n - 1) ix ++ [j])) as [E|E].
  - rewrite decide_True; [done|]. split; [simpl; lia|done].
  - rewrite decide_False; [done|]. by intros [_ E'].
Qed.

Lemma keeps_data_grown s T s' T' root :
  tables s root T → tables s' root T' → grown s T s' T' → keeps_data s s' root.
Proof.
  intros Ht Ht' (G1 & _ & G3) b Hb Hpos Hn.
  assert (∀ π, T !! π ≠ Some b.1) as Hn' by (intros π E; apply Hn; by exists T, π).
  split; [by apply G1|]. split.
  - intros (T0 & π & Ht0 & Hπ). rewrite (tables_unique _ _ _ _ Ht' Ht0) in Hπ.
    destruct (G3 b b.1 Hb) as [_ H]; [unfold in_block; lia|done|by apply (H π)].
  - intros q Hq. by apply (G3 b q Hb Hq Hn').
Qed.

(** [map_raw] once its checks have passed. *)
Lemma map_new_page s root T ix t raw :
  tables s root T → path_ok ix → lookup_path s T [] ix = None → u64 raw → valid_leaf t raw = true →
  let n := PageTable.depth_of t in
  T !! take n ix = None →
  match (entries ← PageTable.create_tables ix 1 (n - 1) (entries_of T ix);
         rc ← lift (PageTable.entry entries (n - 2)); _ ← PageTable.add_ref rc;
         ptr ← lift (PageTable.entry entries (n - 1)); write_u64 ptr raw) s with
  | Ok (_, s') =>
      ∃ T', tables s' root T' ∧ grown s T s' T' ∧
        (∀ π, T' !! π = T !! π ∨ ∃ j, π = take j ix) ∧
        ∀ ix', path_ok ix' → lookup_path s' T' [] ix' =
          if decide (take n ix' = take n ix) then Some ((n - 1)%nat, raw) else lookup_path s T [] ix'
  | Panic => short 4096 (n - 1) s
  | _ => False
  end.
Proof.
  intros Ht Hp Elk Hraw Hv n Hnone. pose proof (depth_bounds t) as Hn. fold n in Hn.
  assert (present raw = true ∧ leaf (n - 1) raw = true) as [Pr Lr].
  { unfold valid_leaf in Hv. apply andb_true_iff in Hv as [Pr Lr]. split; [done|]. unfold leaf, n.
    by destruct t. }
  destruct (create_tables_ok (n - 1) 0 s root T ix Ht Hp Elk ltac:(lia))
    as [(s1 & T1 & E1 & Ht1 & Hg1 & Hlk1 & Hall1 & Hsame1)|[Ho E1]].
  - intros j Hj. replace j with 0%nat by lia. exists root. apply Ht.
  - rewrite (M_bind_Ok _ _ _ _ _ E1).
    destruct (write_leaf s1 root T1 ix n raw) as (s2 & E2 & Ht2 & Hg2 & Hlk2); try done.
    + by rewrite Hlk1.
    + intros j Hj. apply Hall1. lia.
    + destruct (Hsame1 (take n ix)) as [->|(j & Hj & E)]; [done|]. destruct Hp as [Hlen _].
      apply (f_equal length) in E. rewrite !length_take in E. lia.
    + rewrite E2. exists T1. split; [done|]. split; [by eapply grown_trans|].
      split; [intros π; destruct (Hsame1 π) as [?|(j & _ & ?)]; eauto|].
      intros ix' Hx'. rewrite Hlk2 by done. destruct (decide _); [done|]. by apply Hlk1.
  - unfold mbind at 1, M_bind at 1. by rewrite E1.
Qed.

(** [map_raw] on the tree: what it checks, and the page it adds. *)
Lemma map_raw_tree s root T v t raw :
  tables s root T → canonical v → u64 raw →
  let ix := Mapping.get_indices v in
  let n := PageTable.depth_of t in
  match PageTable.map_raw root v t raw s with
  | Ok (_, s') =>
      valid_leaf t raw = true ∧ lookup_path s T [] ix = None ∧ T !! take n ix = None ∧
      ∃ T', tables s' root T' ∧ grown s T s' T' ∧
        (∀ π, T' !! π = T !! π ∨ ∃ j, π = take j ix) ∧
        ∀ ix', path_ok ix' → lookup_path s' T' [] ix' =
          if decide (take n ix' = take n ix) then Some ((n - 1)%nat, raw) else lookup_path s T [] ix'
  | Err (InvalidPage, s') => s' = s ∧ valid_leaf t raw = false
  | Err (MappedAlready, s') => s' = s ∧ lookup_path s T [] ix ≠ None
  | Err (SmallerPagesPresent, s') => s' = s ∧ is_Some (T !! take n ix)
  | Err _ => False
  | Panic => short 4096 (n - 1) s
  | Diverge => False
  end.
Proof.
  intros Ht Hc Hraw ix n. pose proof (depth_bounds t) as Hn. pose proof (indices_ok v) as Hp.
  assert ((Z.land raw PAGE_PRESENT =? 0)
     || (negb (bool_decide (t = Page4K)) && (Z.land raw PAGE_SIZE =? 0)) = negb (valid_leaf t raw)) as Ev.
  { unfold valid_leaf, present, large. destruct (_ =? 0), (bool_decide _), (_ =? 0); done. }
  unfold PageTable.map_raw. rewrite Ev. destruct (valid_leaf t raw) eqn:Hv; [|done]. cbn [negb].
  destruct (components_ok _ _ _ _ Ht Hc) as (m & Em & Hpg & Hen).
  rewrite (M_bind_Ok _ _ _ _ _ Em). fold ix n in Hpg, Hen, Hp, Hn |- *. rewrite Hpg, Hen.
  pose proof Hp as [Hlen _].
  destruct (lookup_path s T [] ix) as [r|] eqn:Elk; [done|]. cbn [fmap option_fmap option_map].
  assert (entries_of T ix !! n = if (n <? 4)%nat then Some (entry_addr T ix n) else None) as Een.
  { unfold n. by destruct t. }
  rewrite Een. destruct (T !! take n ix) as [b|] eqn:Eb.
  - destruct (tb_page _ _ _ Ht _ _ Eb) as (Hl4 & _). rewrite length_take in Hl4.
    rewrite (proj2 (Nat.ltb_lt n 4)) by lia. destruct (lookup_lt_is_Some_2 ix n) as [i Hi]; [lia|].
    unfold entry_addr. rewrite Eb, Hi. done.
  - assert (is_Some (pml4e m)) as Hpml.
    { destruct (lookup_lt_is_Some_2 ix 0) as [i Hi]; [lia|].
      pose proof (entries_lookup T ix 0 root i ltac:(lia) (tb_root _ _ _ Ht) Hi) as E0.
      rewrite <-Hen in E0. injection E0 as ->. by eexists. }
    assert (∀ A (x y : A), match (if (n <? 4)%nat then Some (entry_addr T ix n) else None) with
      | Some (Some _) => x | _ => y end = y) as ->.
    { intros A x y. unfold entry_addr. rewrite Eb. by destruct (n <? 4)%nat. }
    rewrite (M_bind_Ok _ _ _ tt s) by (unfold lift, assert; by rewrite bool_decide_true).
    pose proof (map_new_page _ _ _ _ _ _ Ht Hp Elk Hraw Hv Eb) as Hnew. fold n in Hnew.
    repeat case_match; naive_solver.
Qed.
End mapping.
