(* ===== verification/PageSpace.v ===== *)
(** Address spaces: what [map_raw] and [map_init] do to every virtual address, and
    a memory that satisfies the laws of [PhysMem]. *)
From Stdlib Require Import ZArith Lia.
From stdpp Require Import prelude list numbers gmap.
From S2P Require Import Prelude Packet PageTable PageMem PageAlloc PageMap.

(** * Canonical addresses *)
Lemma canonical_iff v : canonical v ↔ 0 ≤ v < 2 ^ 47 ∨ 2 ^ 64 - 2 ^ 47 ≤ v < 2 ^ 64.
Proof.
  unfold canonical. split.
  - intros [Hu Hc]. rewrite canonicalize_eq in Hc by done. injection Hc as Hc.
    pose proof (Z.mod_pos_bound v (2 ^ 48)). destruct Hu. destruct (Z.ltb_spec (v mod 2 ^ 48) (2 ^ 47)); lia.
  - intros Hv. assert (u64 v) as Hu by (unfold fits; lia). split; [done|].
    rewrite canonicalize_eq by done. f_equal. destruct Hv as [Hv|Hv].
    + rewrite Z.mod_small by lia. destruct (Z.ltb_spec v (2 ^ 47)); lia.
    + replace (v mod 2 ^ 48) with (v - (2 ^ 64 - 2 ^ 48)).
      * destruct (Z.ltb_spec (v - (2 ^ 64 - 2 ^ 48)) (2 ^ 47)); lia.
      * apply (Z.mod_unique_pos _ _ (2 ^ 16 - 1)); lia.
Qed.

(** [sz] bytes from [v] on in one half of the address space. *)
Definition canonical_range (v size : Z) : Prop :=
  (0 ≤ v ∧ v + size ≤ 2 ^ 47) ∨ (2 ^ 64 - 2 ^ 47 ≤ v ∧ v + size ≤ 2 ^ 64).
Lemma range_canonical v size x : canonical_range v size → v ≤ x < v + size → canonical x.
Proof. intros Hr Hx. apply canonical_iff. unfold canonical_range in Hr. lia. Qed.

Lemma size_pos t : 4096 ≤ PageType.size t.
Proof. by destruct t. Qed.
Lemma size_4k t : (4096 | PageType.size t).
Proof. destruct t; [by exists 1|by exists 512|by exists 262144]. Qed.

(** Whole pages stay in the half. *)
Lemma range_pages t v size :
  (PageType.size t | v) → 0 < size → canonical_range v size →
  canonical_range v (((size - 1) / PageType.size t + 1) * PageType.size t).
Proof.
  intros [k ->] Hs Hr. pose proof (size_pos t) as Hp. unfold canonical_range in *.
  assert (∃ q, 2 ^ 47 = q * PageType.size t) as [q Hq]
    by (destruct t; [exists (2 ^ 35)|exists (2 ^ 26)|exists (2 ^ 17)]; done).
  set (sz := PageType.size t) in *. clearbody sz.
  pose proof (Z.div_mod (size - 1) sz ltac:(lia)) as Hd. pose proof (Z.mod_pos_bound (size - 1) sz ltac:(lia)).
  set (d := (size - 1) / sz) in *. clearbody d. replace (2 ^ 64) with (2 ^ 47 * 2 ^ 17) in * by done.
  destruct Hr as [[Hr1 Hr2]|[Hr1 Hr2]]; [left|right]; (split; [lia|]).
  - assert (k + d < q) by nia. nia.
  - assert (k + d < q * 2 ^ 17) by nia. nia.
Qed.

(** * One page *)
Section one.
Context {S : Type} `{Hm : PhysMem S} {Hl : PhysMemLaws S}.
Implicit Types (s : S) (T : gmap (list Z) Z) (π ix : list Z) (a i root raw v : Z) (t : PageType).

Lemma page_at_mapped s root T s' T' t v raw v' :
  tables s root T → tables s' root T' → canonical v → canonical v' → u64 raw →
  (let n := PageTable.depth_of t in ∀ ix', path_ok ix' → lookup_path s' T' [] ix' =
     if decide (take n ix' = take n (Mapping.get_indices v)) then Some ((n - 1)%nat, raw)
     else lookup_path s T [] ix') →
  page_at s' root v' = if v' / PageType.size t =? v / PageType.size t
                       then Some (leaf_page t raw v') else page_at s root v'.
Proof.
  intros Ht Ht' Hc Hc' Hraw Hlk. rewrite (page_at_eq _ _ _ _ Ht' Hc'), (page_at_eq _ _ _ _ Ht Hc').
  rewrite Hlk by apply indices_ok. pose proof (same_page t v v' Hc Hc') as Hsame.
  destruct (Z.eqb_spec (v' / PageType.size t) (v / PageType.size t)) as [E|E].
  - rewrite decide_True by by apply Hsame. cbn [fmap option_fmap option_map]. by rewrite page_of_leaf.
  - rewrite decide_False; [done|]. intros E'. by apply E, Hsame.
Qed.

(** Every table leads to a page: none is left over. *)
Definition tables_used s root : Prop := ∀ T π a, tables s root T → T !! π = Some a → π ≠ [] →
  ∃ v, canonical v ∧ π = take (length π) (Mapping.get_indices v) ∧ page_at s root v ≠ None.

Lemma used_mono s s' root T T' :
  tables s root T → tables s' root T' →
  (∀ v, canonical v → page_at s root v ≠ None → page_at s' root v ≠ None) →
  (∀ π, T' !! π = T !! π ∨ ∃ v, canonical v ∧ π = take (length π) (Mapping.get_indices v) ∧
     page_at s' root v ≠ None) →
  tables_used s root → tables_used s' root.
Proof.
  intros Ht Ht' Hv HT Hu T0 π a Ht0 Ha Hne. rewrite (tables_unique _ _ _ _ Ht' Ht0) in Ha.
  destruct (HT π) as [E|?]; [|done]. rewrite E in Ha.
  destruct (Hu T π a Ht Ha Hne) as (v & ? & ? & ?). exists v. auto.
Qed.

Lemma take_own {A} j (l : list A) : take j l = take (length (take j l)) l.
Proof.
  rewrite length_take. destruct (Nat.le_ge_cases j (length l)); [by rewrite Nat.min_l|].
  by rewrite Nat.min_r, !take_ge.
Qed.

(** A table at the place of a page means a page in its range. *)
Lemma below_used s root t v :
  tables_used s root → canonical v → table_below s root t v →
  ∃ v', canonical v' ∧ v' / PageType.size t = v / PageType.size t ∧ page_at s root v' ≠ None.
Proof.
  intros Hu Hc (T & a & Ht & Ha). pose proof (indices_ok v) as [Hlen _].
  assert (length (take (PageTable.depth_of t) (Mapping.get_indices v)) = PageTable.depth_of t) as Hn
    by (rewrite length_take, Hlen; by destruct t).
  destruct (Hu T _ a Ht Ha) as (v' & Hc' & Hpre & Hp).
  { intros E. rewrite E in Hn. by destruct t. }
  exists v'. split; [done|]. split; [|done]. apply same_page; [done..|]. by rewrite Hn in Hpre.
Qed.

(** A page that [map_raw] added. *)
Record page_mapped s s' root t v raw : Prop := {
  pg_space : address_space s' root;
  pg_owned b : b ∈ owned s → b ∈ owned s';
  pg_data : keeps_data s s' root;
  pg_used : tables_used s root → tables_used s' root;
  pg_at v' : canonical v' → page_at s' root v' =
    if v' / PageType.size t =? v / PageType.size t
    then Some (leaf_page t raw v') else page_at s root v';
}.

Lemma map_raw_added s root T v t raw s' T' :
  tables s root T → canonical v → u64 raw → tables s' root T' → grown s T s' T' →
  (∀ π, T' !! π = T !! π ∨ ∃ j, π = take j (Mapping.get_indices v)) →
  (let n := PageTable.depth_of t in ∀ ix', path_ok ix' → lookup_path s' T' [] ix' =
     if decide (take n ix' = take n (Mapping.get_indices v)) then Some ((n - 1)%nat, raw)
     else lookup_path s T [] ix') →
  page_mapped s s' root t v raw.
Proof.
  intros Ht Hc Hraw Ht' Hg HT Hlk.
  assert (∀ v', canonical v' → page_at s' root v' =
    if v' / PageType.size t =? v / PageType.size t
    then Some (leaf_page t raw v') else page_at s root v') as Hat
    by (intros v' Hc'; by apply (page_at_mapped s root T s' T')).
  split; [by exists T'|apply Hg|by eapply keeps_data_grown| |done].
  apply (used_mono s s' root T T' Ht Ht').
  - intros v' Hc'. rewrite Hat by done. by destruct (_ =? _).
  - intros π. destruct (HT π) as [?|[j ->]]; [by left|]. right. exists v.
    split; [done|]. split; [apply take_own|]. by rewrite Hat, Z.eqb_refl.
Qed.

(** C1. [map_raw] of an entry [raw] at a canonical address, on a well-formed tree
    of tables, does one of three things.  It maps the page: nothing was mapped
    there, the tree stays well formed, the addresses of that page (its base is the
    entry's address, rounded to the page size) and no others change, and no
    allocated block other than the tables changes.  Or it returns an error, for
    the reason the error names, and changes nothing.  Or it panics, because the
    memory cannot give the pages of the missing tables.  It always ends. *)
Theorem map_raw_correct s root v t raw :
  address_space s root → canonical v → u64 raw →
  match PageTable.map_raw root v t raw s with
  | Ok (_, s') =>
      valid_leaf t raw = true ∧ page_at s root v = None ∧ ¬ table_below s root t v ∧
      address_space s' root ∧ keeps_data s s' root ∧
      ∀ v', canonical v' → page_at s' root v' =
        if v' / PageType.size t =? v / PageType.size t
        then Some (leaf_page t raw v') else page_at s root v'
  | Err (InvalidPage, s') => s' = s ∧ valid_leaf t raw = false
  | Err (MappedAlready, s') => s' = s ∧ page_at s root v ≠ None
  | Err (SmallerPagesPresent, s') => s' = s ∧ table_below s root t v
  | Err _ => False
  | Panic => short 4096 (PageTable.depth_of t - 1) s
  | Diverge => False
  end.
Proof.
  intros [T Ht] Hc Hraw. pose proof (map_raw_tree s root T v t raw Ht Hc Hraw) as Hmap.
  pose proof (page_at_eq _ _ _ _ Ht Hc) as Hpa. cbv zeta in Hmap.
  destruct (PageTable.map_raw root v t raw s) as [[u s']|[e s']| |]; [|destruct e| |]; try done.
  - destruct Hmap as (Hv & Hn & Hb & T' & Ht' & Hg & HT & Hlk).
    split; [done|]. split; [by rewrite Hpa, Hn|]. split.
    { intros (T0 & a & Ht0 & Ha). rewrite (tables_unique _ _ _ _ Ht Ht0) in Ha. congruence. }
    by destruct (map_raw_added s root T v t raw s' T' Ht Hc Hraw Ht' Hg HT Hlk).
  - destruct Hmap as [-> Hlk]. split; [done|]. rewrite Hpa. by destruct (lookup_path _ _ _ _).
  - destruct Hmap as [-> [a Ha]]. split; [done|]. by exists T, a.
Qed.
End one.

(** * The entry of a requested page *)
Definition request_entry (request : MapRequest) (p : Z) : Z :=
  Z.lor (Z.lor (Z.lor p PAGE_PRESENT) (Permissions.bits (permissions request)))
        (PageType.size_bit (page_type request)).

Lemma lor_u64 a b : u64 a → u64 b → u64 (Z.lor a b).
Proof.
  intros [Ha1 Ha2] [Hb1 Hb2]. split; [apply Z.lor_nonneg; lia|].
  destruct (Z.eq_dec (Z.lor a b) 0) as [->|]; [lia|].
  assert (0 ≤ Z.lor a b) by (apply Z.lor_nonneg; lia).
  apply Z.log2_lt_cancel. rewrite Z.log2_lor, Z.log2_pow2 by lia. apply Z.max_lub_lt.
  - destruct (Z.eq_dec a 0) as [->|]; [simpl; lia|]. apply Z.log2_lt_pow2; lia.
  - destruct (Z.eq_dec b 0) as [->|]; [simpl; lia|]. apply Z.log2_lt_pow2; lia.
Qed.

Lemma table_of_page p : (4096 | p) → 0 ≤ p < 2 ^ 52 → table_of p = p.
Proof.
  intros [k Hk] Hp. apply Z.bits_inj'. intros n Hn. rewrite table_of_bits by done.
  destruct (Z.leb_spec 12 n).
  - destruct (Z.ltb_spec n 52); [done|]. symmetry. destruct (Z.eq_dec p 0) as [->|]; [apply Z.bits_0|].
    apply Z.bits_above_log2; [lia|]. apply Z.lt_le_trans with 52; [apply Z.log2_lt_pow2; lia|done].
  - rewrite Hk. change 4096 with (2 ^ 12). by rewrite Z.mul_pow2_bits_low by lia.
Qed.

Lemma request_entry_ok request p v :
  let t := page_type request in
  (PageType.size t | p) → 0 ≤ p → p + PageType.size t ≤ 2 ^ 52 →
  let e := request_entry request p in
  u64 e ∧ valid_leaf t e = true ∧ leaf_page t e v = (p, v mod PageType.size t, e).
Proof.
  intros t Hd H0 Hmax e. pose proof (size_pos t) as Hsz.
  set (m := Z.lor (Z.lor PAGE_PRESENT (Permissions.bits (permissions request))) (PageType.size_bit t)).
  assert (e = Z.lor p m) as Ee by (unfold e, request_entry, m; by rewrite !Z.lor_assoc).
  assert (u64 m ∧ table_of m = 0 ∧ Z.testbit m 0 = true ∧ (bool_decide (t = Page4K) || Z.testbit m 7) = true)
    as (Hm & Ht & Hb & Hs).
  { unfold m, fits. destruct t, (permissions request) as [[] [] [] []]; by vm_compute. }
  clearbody m. split; [|split].
  - rewrite Ee. apply lor_u64; [unfold fits; lia|done].
  - unfold valid_leaf. rewrite present_bit, large_bit, Ee, !Z.lor_spec, Hb, orb_true_r. simpl.
    destruct (bool_decide _); [done|]. simpl in *. by rewrite Hs, orb_true_r.
  - unfold leaf_page. assert (table_of e = p) as ->.
    { rewrite Ee. unfold table_of in *. rewrite Z.land_lor_distr_l, Ht, Z.lor_0_r.
      apply table_of_page; [|lia]. by transitivity (PageType.size t); [apply size_4k|]. }
    destruct Hd as [k ->]. by rewrite Z.div_mul by lia.
Qed.

(** The rights of an entry, as the processor reads its bits: present, writable, for user mode,
    cache disabled, large, not executable.  The request's [cache] is documented to disable caching. *)
Definition rights (request : MapRequest) (raw : Z) : Prop :=
  Z.testbit raw 0 = true ∧ Z.testbit raw 1 = write (permissions request) ∧
  Z.testbit raw 2 = user (permissions request) ∧ Z.testbit raw 4 = negb (cache (permissions request)) ∧
  Z.testbit raw 7 = bool_decide (page_type request ≠ Page4K) ∧
  Z.testbit raw 63 = negb (execute (permissions request)).
Lemma request_rights request p : (4096 | p) → 0 ≤ p < 2 ^ 52 → rights request (request_entry request p).
Proof.
  intros Hd Hp. assert (∀ n, 0 ≤ n < 12 ∨ 52 ≤ n → Z.testbit p n = false) as Hbit.
  { intros n Hn. rewrite <-(table_of_page p Hd Hp), table_of_bits by lia.
    destruct (Z.leb_spec 12 n), (Z.ltb_spec n 52); (done || lia). }
  unfold rights, request_entry. rewrite !Z.lor_spec, !Hbit by lia.
  destruct (page_type request), (permissions request) as [[] [] [] []]; by vm_compute.
Qed.

(** * Mapping a range *)
Section range.
Context {S : Type} `{Hm : PhysMem S} {Hl : PhysMemLaws S}.
Implicit Types (s : S) (T : gmap (list Z) Z) (π ix : list Z) (a i root raw v p : Z) (t : PageType).
Implicit Types (request : MapRequest) (init : option (Z → Z)) (ps : list Z).

Definition fill init (p sz x : Z) (s : S) : S :=
  match init with
  | None => s
  | Some f => write_bytes (p + offset) ((λ off : nat, f (x + Z.of_nat off)) <$> seq 0 (Z.to_nat sz)) s
  end.
Definition bytes_init init : Prop := ∀ f x, init = Some f → u8 (f x).

(** A new frame, filled: no table and no allocated block changes. *)
Lemma new_frame s root T sz init x p s1 :
  tables s root T → 0 < sz → bytes_init init → alloc_phys sz sz s = (Some p, s1) →
  let s2 := fill init p sz x s1 in
  tables s2 root T ∧ agree s s2 T ∧ grown s T s2 T ∧ owned s2 = (p, sz) :: owned s ∧
  Forall (apart (p, sz)) (owned s) ∧ (∀ π, T !! π ≠ Some p) ∧
  (∀ f off, init = Some f → 0 ≤ off < sz → peek (p + off + offset) s2 = f (x + off)).
Proof.
  intros Ht Hsz Hf Ea s2.
  destruct (alloc_some sz sz s p s1 Hsz Ea) as (Hd & H0 & Hmax & Htr & Ho & Hap).
  assert (∀ f, init = Some f → bytes_ok ((λ off : nat, f (x + Z.of_nat off)) <$> seq 0 (Z.to_nat sz))) as Hok.
  { intros f Ef. apply Forall_fmap, Forall_true. intros k. by eapply Hf. }
  assert (∀ p' n, translate p' n s2 = translate p' n s) as Htr2.
  { intros p' n. rewrite <-(alloc_translate _ _ _ _ _ p' n Ea). unfold s2, fill.
    destruct init; [apply write_bytes_translate|done]. }
  assert (owned s2 = (p, sz) :: owned s) as Ho2.
  { rewrite <-Ho. unfold s2, fill. destruct init; [apply write_bytes_owned|done]. }
  assert (∀ q b, b ∈ owned s → in_block q b → peek (q + offset) s2 = peek (q + offset) s) as Hk.
  { intros q b Hb Hq. rewrite <-(alloc_keeps _ _ _ _ _ q b Ea Hb Hq). unfold s2, fill.
    destruct init as [f|]; [|done]. apply peek_write_out; [by apply Hok|].
    rewrite Forall_forall in Hap. specialize (Hap _ Hb).
    unfold apart, in_block, zlen in *. rewrite length_fmap, length_seq. simpl in *. lia. }
  assert (agree s s2 T) as Hag.
  { intros π a i Ha [Hi1 Hi2]. left. destruct (tb_page _ _ _ Ht _ _ Ha) as (_ & Hin & _).
    apply (word_kept _ _ _ (a, 4096)); simpl; [|lia..]. intros q Hq. by eapply Hk. }
  assert (∀ b, b ∈ owned s → b ∈ owned s2) as Hin by (intros b Hb; rewrite Ho2; by constructor).
  assert (∀ p' n, usable s p' n → usable s2 p' n) as Hus by (intros p' n Hu; unfold usable; by rewrite Htr2).
  split; [by apply (tables_agree s)|]. split; [done|]. split.
  { split; [done|]. split; [done|]. intros b q Hb Hq Hn. split; [by eapply Hk|done]. }
  split; [done|]. split; [done|]. split.
  - intros π Hπ. destruct (tb_page _ _ _ Ht _ _ Hπ) as (_ & Hb & _).
    rewrite Forall_forall in Hap. specialize (Hap _ Hb). unfold apart in Hap. simpl in Hap. lia.
  - intros f off Ef Hoff. unfold s2, fill. rewrite Ef.
    replace (p + off + offset) with (p + offset + Z.of_nat (Z.to_nat off)) by lia.
    apply peek_write_in; [by apply Hok|]. rewrite list_lookup_fmap, lookup_seq_lt by lia.
    simpl. do 2 f_equal. lia.
Qed.

(** The pages [ps] are the frames of the request from [v] on, and nothing else
    of the address space, nor of what was allocated, has changed. *)
Record pages_mapped s s' root request init v ps : Prop := {
  pm_space : address_space s' root;
  pm_owned b : b ∈ owned s → b ∈ owned s';
  pm_data : keeps_data s s' root;
  pm_used : tables_used s root → tables_used s' root;
  pm_distinct : NoDup ps;
  pm_page k p off : ps !! k = Some p → 0 ≤ off < PageType.size (page_type request) →
    page_at s' root (v + Z.of_nat k * PageType.size (page_type request) + off)
      = Some (p, off, request_entry request p);
  pm_frame k p : ps !! k = Some p →
    (p, PageType.size (page_type request)) ∈ owned s' ∧
    Forall (apart (p, PageType.size (page_type request))) (owned s) ∧ ¬ is_table s' root p;
  pm_place k p : ps !! k = Some p →
    (PageType.size (page_type request) | p) ∧ 0 ≤ p ∧ p + PageType.size (page_type request) ≤ 2 ^ 52;
  pm_init k p f off : ps !! k = Some p → init = Some f →
    0 ≤ off < PageType.size (page_type request) →
    peek (p + off + offset) s'
      = f (v - vaddr request + Z.of_nat k * PageType.size (page_type request) + off);
  pm_else v' : canonical v' →
    v' < v ∨ v + Z.of_nat (length ps) * PageType.size (page_type request) ≤ v' →
    page_at s' root v' = page_at s root v';
}.

Lemma page_at_agree s s' root T v :
  tables s root T → tables s' root T → agree s s' T → canonical v → page_at s' root v = page_at s root v.
Proof.
  intros Ht Ht' Hag Hc. rewrite (page_at_eq _ _ _ _ Ht' Hc), (page_at_eq _ _ _ _ Ht Hc).
  by rewrite (lookup_agree _ _ _ _ _ Hag (proj2 (indices_ok v))).
Qed.

Lemma pages_mapped_none s s' root T request init v :
  tables s root T → tables s' root T → agree s s' T → grown s T s' T →
  pages_mapped s s' root request init v [].
Proof.
  intros Ht Ht' Hag Hg. split; try done.
  - by exists T.
  - apply Hg.
  - by eapply keeps_data_grown.
  - apply (used_mono s s' root T T); [done..| |by left].
    intros v' Hc'. by rewrite (page_at_agree s s' root T) by done.
  - constructor.
  - intros v' Hc _. by eapply page_at_agree.
Qed.

Lemma pages_mapped_cons s s1 s' root request init v p ps :
  let sz := PageType.size (page_type request) in
  canonical_range v (Z.of_nat (Datatypes.S (length ps)) * sz) →
  pages_mapped s s1 root request init v [p] → pages_mapped s1 s' root request init (v + sz) ps →
  pages_mapped s s' root request init v (p :: ps).
Proof.
  intros sz Hr H1 H2. pose proof (size_pos (page_type request)) as Hsz. fold sz in Hsz.
  assert (0 ≤ Z.of_nat (length ps) * sz) as Hps by (apply Z.mul_nonneg_nonneg; lia).
  rewrite Nat2Z.inj_succ, Z.mul_succ_l in Hr.
  destruct (pm_frame _ _ _ _ _ _ _ H1 0%nat p eq_refl) as (Hin & Hap & Hnt).
  destruct (pm_data _ _ _ _ _ _ _ H2 _ Hin) as (Hin' & Hnt' & Hk); [simpl; lia|done|].
  split.
  - apply H2.
  - intros b Hb. by apply H2, H1.
  - intros b Hb Hpos Hn. destruct (pm_data _ _ _ _ _ _ _ H1 b Hb Hpos Hn) as (Hb1 & Hn1 & Hk1).
    destruct (pm_data _ _ _ _ _ _ _ H2 b Hb1 Hpos Hn1) as (Hb2 & Hn2 & Hk2).
    split; [done|]. split; [done|]. intros q Hq. by rewrite Hk2, Hk1.
  - intros Hu. by apply H2, H1.
  - constructor; [|apply H2]. intros [k Hp]%list_elem_of_lookup.
    destruct (pm_frame _ _ _ _ _ _ _ H2 k p Hp) as (_ & Hap2 & _).
    rewrite Forall_forall in Hap2. specialize (Hap2 _ Hin). unfold apart in Hap2. simpl in Hap2. lia.
  - intros [|k] p' off Hp Hoff.
    + injection Hp as <-. rewrite <-(pm_page _ _ _ _ _ _ _ H1 0%nat p off eq_refl Hoff).
      fold sz in Hoff |- *. apply (pm_else _ _ _ _ _ _ _ H2); fold sz; [|lia]. eapply range_canonical; [exact Hr|]. lia.
    + rewrite <-(pm_page _ _ _ _ _ _ _ H2 k p' off Hp Hoff). f_equal. fold sz. lia.
  - intros [|k] p' Hp; [by injection Hp as <-|].
    destruct (pm_frame _ _ _ _ _ _ _ H2 k p' Hp) as (Hin2 & Hap2 & Hnt2).
    split; [done|]. split; [|done]. rewrite Forall_forall in *. intros b Hb. by apply Hap2, H1.
  - intros [|k] p' Hp; [injection Hp as <-; by apply (pm_place _ _ _ _ _ _ _ H1 0%nat)|by apply (pm_place _ _ _ _ _ _ _ H2 k)].
  - intros [|k] p' f off Hp Hf Hoff.
    + injection Hp as <-. rewrite <-(pm_init _ _ _ _ _ _ _ H1 0%nat p f off eq_refl Hf Hoff).
      apply Hk. unfold in_block. simpl. fold sz in Hoff |- *. lia.
    + rewrite (pm_init _ _ _ _ _ _ _ H2 k p' f off Hp Hf Hoff). f_equal. fold sz. lia.
  - intros v' Hc Hv. cbn [length] in Hv. fold sz in Hv. rewrite Nat2Z.inj_succ, Z.mul_succ_l in Hv.
    rewrite (pm_else _ _ _ _ _ _ _ H2 v' Hc), (pm_else _ _ _ _ _ _ _ H1 v' Hc); [done|..];
      fold sz; simpl length; lia.
Qed.

(** Why a request stops after [k] pages: the memory was short of the pages and
    tables it takes, or the next page has a place already. *)
Definition stopped s s' root request v (k : nat) : Prop :=
  let sz := PageType.size (page_type request) in
  short sz (4 * Datatypes.S k) s ∨ page_at s root (v + Z.of_nat k * sz) ≠ None ∨
  table_below s' root (page_type request) (v + Z.of_nat k * sz).

(** One round of the loop of [map_init]. *)
Definition map_page root request init v : M S unit unit := λ s,
  let sz := PageType.size (page_type request) in
  match alloc_phys sz sz s with
  | (None, s1) => Err (tt, s1)
  | (Some p, s1) =>
      let s2 := fill init p sz (v - vaddr request) s1 in
      match PageTable.map_raw root v (page_type request) (request_entry request p) s2 with
      | Ok r => Ok r | Err (_, s3) => Err (tt, s3) | Panic => Panic | Diverge => Diverge
      end
  end.

Lemma map_pages_step root request init n v s :
  PageTable.map_pages root request init (Datatypes.S n) v s =
  (_ ← map_page root request init v;
   PageTable.map_pages root request init n (v + PageType.size (page_type request))) s.
Proof.
  cbn [PageTable.map_pages]. unfold map_page, mret, M_ret, mbind, M_bind. cbv zeta.
  pose proof (size_pos (page_type request)) as Hsz. set (sz := PageType.size (page_type request)) in *.
  destruct (alloc_phys sz sz s) as [[p|] s1] eqn:Ea; [|done]. fold (request_entry request p).
  destruct (alloc_some sz sz s p s1 ltac:(lia) Ea) as (_ & _ & _ & Ht & _).
  destruct init as [f|]; cbn [fill]; [rewrite Ht|];
    (destruct (PageTable.map_raw _ _ _ _ _) as [[? ?]|[? ?]| |]; done).
Qed.

Lemma fill_within init p sz x n s s1 : within sz n s s1 → within sz n s (fill init p sz x s1).
Proof. intros Hw. unfold fill. destruct init; [by apply within_write|done]. Qed.

(** A round takes at most a frame and three tables. *)
Lemma bounded_map_page root request init v :
  bounded (PageType.size (page_type request)) 4 (map_page root request init v).
Proof.
  intros s. unfold map_page. cbv zeta. set (sz := PageType.size (page_type request)).
  destruct (alloc_phys sz sz s) as [[p|] s1] eqn:Ea.
  2:{ eapply within_weaken; [|by eapply within_fail]. lia. }
  pose proof (bounded_map_raw sz root v (page_type request) (request_entry request p)
    (fill init p sz (v - vaddr request) s1)) as Hw.
  assert (within sz 1 s (fill init p sz (v - vaddr request) s1)) as H1
    by (apply fill_within; eapply within_alloc; [by right|done]).
  destruct (PageTable.map_raw _ _ _ _ _) as [[u s3]|[e s3]| |]; try done; by apply (within_trans sz 1 3 _ _ _ H1).
Qed.

Lemma bounded_map_pages root request init n v :
  bounded (PageType.size (page_type request)) (4 * n) (PageTable.map_pages root request init n v).
Proof.
  revert v. induction n as [|n IH]; intros v s; [apply within_refl|].
  rewrite map_pages_step. replace (4 * Datatypes.S n)%nat with (4 + 4 * n)%nat by lia.
  apply bounded_bind; [apply bounded_map_page|intros _; apply IH].
Qed.

(** The page a round adds. *)
Lemma page_added root request init v s s1 T p s3 T3 :
  let sz := PageType.size (page_type request) in
  let n := PageTable.depth_of (page_type request) in
  let s2 := fill init p sz (v - vaddr request) s1 in
  tables s root T → (sz | v) → canonical_range v sz → bytes_init init →
  alloc_phys sz sz s = (Some p, s1) → tables s3 root T3 → grown s2 T s3 T3 →
  (∀ π, T3 !! π = T !! π ∨ ∃ j, π = take j (Mapping.get_indices v)) →
  (∀ ix', path_ok ix' → lookup_path s3 T3 [] ix' =
     if decide (take n ix' = take n (Mapping.get_indices v))
     then Some ((n - 1)%nat, request_entry request p) else lookup_path s2 T [] ix') →
  pages_mapped s s3 root request init v [p].
Proof.
  intros sz n s2 Ht Hv Hr Hf Ea Ht3 Hg3 HT3 Hlk3.
  pose proof (size_pos (page_type request)) as Hsz. fold sz in Hsz.
  assert (canonical v) as Hc by (eapply range_canonical; [exact Hr|lia]).
  destruct (alloc_some sz sz s p s1 ltac:(lia) Ea) as (Hd & H0 & Hmax & _).
  destruct (new_frame s root T sz init (v - vaddr request) p s1 Ht ltac:(lia) Hf Ea)
    as (Ht2 & Hag2 & Hg2 & Ho2 & Hap & Hnp & Hini). fold s2 in Ht2, Hag2, Hg2, Ho2, Hini.
  destruct (request_entry_ok request p v Hd H0 Hmax) as (Hu & _).
  assert (is_table s3 root p → False) as Hnt.
  { intros (T0 & π & Ht0 & Hπ). rewrite (tables_unique _ _ _ _ Ht3 Ht0) in Hπ.
    destruct Hg3 as (_ & _ & G). destruct (G (p, sz) p) as [_ Hno]; simpl; [rewrite Ho2; constructor| |done|].
    - unfold in_block. simpl. lia.
    - by apply (Hno π). }
  destruct (map_raw_added s2 root T v (page_type request) (request_entry request p) s3 T3
    Ht2 Hc Hu Ht3 Hg3 HT3 Hlk3) as [_ _ _ Hused Hpa].
  fold sz in Hpa. destruct Hv as [kv ->].
  split.
  - by exists T3.
  - intros b Hb'. by apply Hg3, Hg2.
  - eapply keeps_data_grown; [exact Ht|exact Ht3|]. by eapply grown_trans.
  - intros Hus. apply Hused, (used_mono s s2 root T T); [done..| |by left|done].
    intros v' Hc'. by rewrite (page_at_agree s s2 root T) by done.
  - apply NoDup_singleton.
  - intros [|k] p' off Hp Hoff; [|done]. injection Hp as <-. fold sz in Hoff |- *.
    rewrite Hpa by (eapply range_canonical; [exact Hr|lia]).
    replace (kv * sz + Z.of_nat 0 * sz + off) with (off + kv * sz) by lia.
    rewrite Z.div_add, Z.div_mul, Z.div_small, Z.eqb_refl by lia.
    destruct (request_entry_ok request p (off + kv * sz) Hd H0 Hmax) as (_ & _ & ->).
    fold sz. by rewrite Z.mod_add, Z.mod_small by lia.
  - intros [|k] p' Hp; [|done]. injection Hp as <-. fold sz.
    split; [apply Hg3; rewrite Ho2; constructor|]. by split.
  - intros [|k] p' Hp; [|done]. injection Hp as <-. by fold sz.
  - intros [|k] p' f off Hp Ef Hoff; [|done]. injection Hp as <-. fold sz in Hoff.
    replace (kv * sz - vaddr request + Z.of_nat 0 * PageType.size (page_type request) + off)
      with (kv * sz - vaddr request + off) by lia. rewrite <-(Hini f off Ef Hoff).
    destruct Hg3 as (_ & _ & G). apply (G (p, sz) (p + off)); [rewrite Ho2; constructor| |done].
    unfold in_block. simpl. lia.
  - intros v' Hc' Hv'. fold sz in Hv'. simpl length in Hv'. rewrite Hpa by done.
    rewrite Z.div_mul by lia. destruct (Z.eqb_spec (v' / sz) kv) as [E|E].
    * exfalso. pose proof (Z.div_mod v' sz ltac:(lia)). pose proof (Z.mod_pos_bound v' sz ltac:(lia)). nia.
    * by apply (page_at_agree s s2 root T).
Qed.

Lemma map_page_ok root request init v s :
  let sz := PageType.size (page_type request) in
  address_space s root → (sz | v) → canonical_range v sz → bytes_init init →
  match map_page root request init v s with
  | Ok (_, s') => ∃ p, pages_mapped s s' root request init v [p]
  | Err (_, s') => pages_mapped s s' root request init v [] ∧ stopped s s' root request v 0
  | Panic => short sz 4 s
  | Diverge => False
  end.
Proof.
  intros sz [T Ht] Hv Hr Hf. unfold map_page. fold sz. cbv zeta.
  pose proof (size_pos (page_type request)) as Hsz. fold sz in Hsz.
  assert (canonical v) as Hc by (eapply range_canonical; [exact Hr|lia]).
  destruct (alloc_phys sz sz s) as [[p|] s1] eqn:Ea.
  2:{ assert (agree s s1 T) as Hag.
      { intros π a i Ha [Hi1 Hi2]. left. destruct (tb_page _ _ _ Ht _ _ Ha) as (_ & Hin & _).
        apply (word_kept _ _ _ (a, 4096)); simpl; [|lia..]. intros q Hq. by eapply alloc_keeps. }
      pose proof (alloc_none _ _ _ _ Ea) as Ho.
      assert (∀ p n, usable s p n → usable s1 p n) as Hu
        by (intros p n Hu; unfold usable; by rewrite (alloc_translate _ _ _ _ _ p n Ea)).
      assert (tables s1 root T) as Ht1 by (apply (tables_agree s); try done; by rewrite Ho).
      split; [apply (pages_mapped_none s s1 root T); try done|].
      - split; [by rewrite Ho|]. split; [done|]. intros b q Hb Hq Hn. split; [by eapply alloc_keeps|done].
      - left. fold sz. eapply short_now; [by right|done|lia]. }
  destruct (alloc_some sz sz s p s1 ltac:(lia) Ea) as (Hd & H0 & Hmax & _).
  destruct (new_frame s root T sz init (v - vaddr request) p s1 Ht ltac:(lia) Hf Ea)
    as (Ht2 & Hag2 & Hg2 & Ho2 & Hap & Hnp & Hini).
  set (s2 := fill init p sz (v - vaddr request) s1) in *.
  destruct (request_entry_ok request p v Hd H0 Hmax) as (Hu & Hvl & _).
  pose proof (map_raw_tree s2 root T v (page_type request) _ Ht2 Hc Hu) as Hmap. cbv zeta in Hmap.
  destruct (PageTable.map_raw root v (page_type request) (request_entry request p) s2)
    as [[u s3]|[e s3]| |].
  - destruct Hmap as (_ & Hnone & Hb & T3 & Ht3 & Hg3 & HT3 & Hlk3). exists p.
    by eapply page_added.
  - assert (s3 = s2) as -> by (by destruct e; try done; destruct Hmap).
    split; [by apply (pages_mapped_none s s2 root T)|]. right.
    replace (v + Z.of_nat 0 * PageType.size (page_type request)) with v by lia.
    destruct e; try done; destruct Hmap as [_ Hmap]; [congruence|left|right].
    + rewrite <-(page_at_agree s s2 root T) by done. rewrite (page_at_eq _ _ _ _ Ht2 Hc).
      by destruct (lookup_path _ _ _ _).
    + destruct Hmap as [a Ha]. by exists T, a.
  - apply (short_later sz 1 3 s s2).
    + apply fill_within. eapply within_alloc; [by right|done].
    + eapply short_weaken; [|by apply short_page]. destruct (page_type request); simpl; lia.
  - done.
Qed.

Lemma stopped_cons s s1 s' root request init v p k :
  let sz := PageType.size (page_type request) in
  canonical (v + sz + Z.of_nat k * sz) → pages_mapped s s1 root request init v [p] → within sz 4 s s1 →
  stopped s1 s' root request (v + sz) k → stopped s s' root request v (Datatypes.S k).
Proof.
  intros sz Hc H1 Hw Hst. pose proof (size_pos (page_type request)) as Hsz. fold sz in Hsz.
  assert (0 ≤ Z.of_nat k * sz) by (apply Z.mul_nonneg_nonneg; lia).
  unfold stopped in *. fold sz in Hst |- *. cbv zeta in *.
  rewrite Nat2Z.inj_succ, Z.mul_succ_l.
  replace (v + (Z.of_nat k * sz + sz)) with (v + sz + Z.of_nat k * sz) by lia.
  destruct Hst as [He|[Hp|Hb]]; [left|right; left|by right; right].
  - replace (4 * Datatypes.S (Datatypes.S k))%nat with (4 + 4 * Datatypes.S k)%nat by lia. by eapply short_later.
  - rewrite <-(pm_else _ _ _ _ _ _ _ H1); [done..|]. fold sz. simpl length. lia.
Qed.

Lemma map_pages_ok n root request init v s :
  let sz := PageType.size (page_type request) in
  address_space s root → (sz | v) → canonical_range v (Z.of_nat n * sz) → bytes_init init →
  match PageTable.map_pages root request init n v s with
  | Ok (_, s') => ∃ ps, length ps = n ∧ pages_mapped s s' root request init v ps
  | Err (_, s') => ∃ ps, (length ps < n)%nat ∧ pages_mapped s s' root request init v ps ∧
                     stopped s s' root request v (length ps)
  | Panic => short sz (4 * n) s
  | Diverge => False
  end.
Proof.
  intros sz. pose proof (size_pos (page_type request)) as Hsz. fold sz in Hsz.
  revert v s. induction n as [|n IH]; intros v s Hs Hv Hr Hf.
  { exists []. split; [done|]. destruct Hs as [T Ht]. apply (pages_mapped_none s s root T); [done|done| |].
    - intros π a i _ _. by left.
    - apply grown_refl. }
  assert (0 ≤ Z.of_nat n * sz) by (apply Z.mul_nonneg_nonneg; lia).
  assert (canonical_range v (Z.of_nat n * sz + sz)) as Hr'
    by (by rewrite Nat2Z.inj_succ, Z.mul_succ_l in Hr). clear Hr.
  rewrite map_pages_step. fold sz.
  pose proof (map_page_ok root request init v s Hs Hv) as H1. fold sz in H1.
  specialize (H1 ltac:(unfold canonical_range in *; lia) Hf).
  pose proof (bounded_map_page root request init v s) as Hw. fold sz in Hw. unfold mbind, M_bind.
  destruct (map_page root request init v s) as [[u s1]|[u s1]| |]; [|exists []; split; [simpl; lia|done]|eapply short_weaken; [|exact H1]; lia|done].
  destruct H1 as [p H1].
  specialize (IH (v + sz) s1 (pm_space _ _ _ _ _ _ _ H1) (Z.divide_add_r _ _ _ Hv (Z.divide_refl _))
    ltac:(unfold canonical_range in *; lia) Hf).
  destruct (PageTable.map_pages root request init n (v + sz) s1) as [[u2 s2]|[u2 s2]| |].
  - destruct IH as (ps & Hlen & H2). exists (p :: ps). split; [simpl; lia|].
    eapply pages_mapped_cons; [|done|done]. fold sz. rewrite Nat2Z.inj_succ, Z.mul_succ_l. by rewrite Hlen.
  - destruct IH as (ps & Hlen & H2 & Hst). exists (p :: ps). split; [simpl; lia|].
    assert (Z.of_nat (length ps) * sz + sz ≤ Z.of_nat n * sz).
    { replace (Z.of_nat (length ps) * sz + sz) with ((Z.of_nat (length ps) + 1) * sz) by lia.
      apply Z.mul_le_mono_nonneg_r; lia. }
    assert (0 ≤ Z.of_nat (length ps) * sz) by (apply Z.mul_nonneg_nonneg; lia).
    split.
    + eapply pages_mapped_cons; [|done|done]. fold sz. rewrite Nat2Z.inj_succ, Z.mul_succ_l.
      unfold canonical_range in *. lia.
    + apply (stopped_cons s s1 s2 root request init v p (length ps)); [|done|done|done]. fold sz.
      eapply range_canonical; [exact Hr'|]. lia.
  - replace (4 * Datatypes.S n)%nat with (4 + 4 * n)%nat by lia. by eapply short_later.
  - done.
Qed.

(** A request that [map_init] accepts is its pages. *)
Lemma map_init_pages root request init s :
  let sz := PageType.size (page_type request) in
  0 < size request → (sz | vaddr request) → canonical_range (vaddr request) (size request) →
  PageTable.map_init root request init s
  = PageTable.map_pages root request init (Z.to_nat ((size request + sz - 1) / sz)) (vaddr request) s.
Proof.
  intros sz Hz Hv Hr. pose proof (size_pos (page_type request)) as Hsz. fold sz in Hsz.
  unfold PageTable.map_init. fold sz.
  assert (Z.land (vaddr request) (sz - 1) = vaddr request mod sz) as ->.
  { assert (∃ k, 0 ≤ k ∧ sz = 2 ^ k) as (k & Hk & ->); [|by apply land_mask].
    unfold sz. destruct (page_type request); [exists 12|exists 21|exists 30]; (split; [lia|done]). }
  rewrite (proj2 (Z.leb_gt _ _)) by lia. rewrite (proj2 (Z.mod_divide (vaddr request) sz ltac:(lia)) Hv). cbn [orb negb Z.eqb].
  rewrite (M_bind_Ok _ _ _ (vaddr request + (size request - 1)) s).
  2:{ unfold lift, checked_add, ok_or. unfold canonical_range in Hr.
      by rewrite (proj2 (Z.ltb_lt _ _)) by lia. }
  do 2 f_equal. replace (size request + sz - 1) with (size request - 1 + 1 * sz) by lia.
  rewrite Z.div_add by lia. do 2 f_equal. lia.
Qed.
Lemma pages_round sz n : 0 < sz → 0 < n → (n + sz - 1) / sz = (n - 1) / sz + 1.
Proof.
  intros Hsz Hn. replace (n + sz - 1) with (n - 1 + 1 * sz) by lia. by rewrite Z.div_add by lia.
Qed.

(** Every address of the pages [ps] from [v] on has the rights of the request. *)
Definition all_rights s root request v ps : Prop :=
  ∀ k p off, ps !! k = Some p → 0 ≤ off < PageType.size (page_type request) →
    ∃ raw, page_at s root (v + Z.of_nat k * PageType.size (page_type request) + off) = Some (p, off, raw) ∧
      rights request raw.
Lemma mapped_rights s s' root request init v ps :
  pages_mapped s s' root request init v ps → all_rights s' root request v ps.
Proof.
  intros Hpm k p off Hk Hoff. eexists. split; [by apply (pm_page _ _ _ _ _ _ _ Hpm)|].
  destruct (pm_place _ _ _ _ _ _ _ Hpm k p Hk) as (Hd & H0 & Hmax). pose proof (size_pos (page_type request)).
  apply request_rights; [|lia]. by transitivity (PageType.size (page_type request)); [apply size_4k|].
Qed.

(** C7. [map_init] of a request whose addresses lie in one half of the address
    space.  On success the whole request is mapped, page after page, to distinct
    frames that were not allocated before and hold no table; the entries allow writing,
    user mode and execution exactly as the request says, but they disable caching exactly
    where the request does not ask for it, against its documentation; and the byte at
    offset [x] of the mapping is [init x]; every other address and every block allocated before keep what they
    had.  On failure either the request was rejected and nothing changed, or the
    pages before the first that had no frame or was mapped already are mapped in
    this way and nothing else changed.  A panic means the memory was short of the frames
    and tables of the request. *)
Theorem map_init_correct s root request init :
  let sz := PageType.size (page_type request) in
  let v := vaddr request in
  let n := (size request + sz - 1) / sz in
  address_space s root → canonical_range v (size request) → bytes_init init →
  match PageTable.map_init root request init s with
  | Ok (_, s') => 0 < size request ∧ (sz | v) ∧
      ∃ ps, Z.of_nat (length ps) = n ∧ pages_mapped s s' root request init v ps ∧ all_rights s' root request v ps
  | Err (_, s') =>
      (s' = s ∧ (size request ≤ 0 ∨ ¬ (sz | v))) ∨
      (∃ ps, Z.of_nat (length ps) < n ∧ pages_mapped s s' root request init v ps ∧ all_rights s' root request v ps ∧
         stopped s s' root request v (length ps))
  | Panic => short sz (4 * Z.to_nat n) s
  | Diverge => False
  end.
Proof.
  intros sz v n Hs Hr Hf. pose proof (size_pos (page_type request)) as Hsz. fold sz in Hsz.
  destruct (Z.le_gt_cases (size request) 0) as [Hz|Hz].
  { unfold PageTable.map_init. rewrite (proj2 (Z.leb_le _ _) Hz). left. split; [done|by left]. }
  destruct (decide (v mod sz = 0)) as [Hm0|Hm0].
  2:{ unfold PageTable.map_init. fold sz v. assert (Z.land v (sz - 1) ≠ 0) as Hm1.
      { assert (∃ k, 0 ≤ k ∧ sz = 2 ^ k) as (k & Hk & E); [|rewrite E in *; by rewrite land_mask].
        unfold sz. destruct (page_type request); [exists 12|exists 21|exists 30]; (split; [lia|done]). }
      rewrite (proj2 (Z.eqb_neq _ _) Hm1), orb_true_r. left. split; [done|].
      right. intros Hd. apply Hm0. by apply Z.mod_divide; [lia|]. }
  apply Z.mod_divide in Hm0; [|lia]. rewrite map_init_pages by done. fold sz v n.
  assert (n = (size request - 1) / sz + 1) as Hn by (apply pages_round; lia).
  pose proof (Z.div_pos (size request - 1) sz ltac:(lia) ltac:(lia)).
  pose proof (map_pages_ok (Z.to_nat n) root request init v s Hs Hm0) as H1. fold sz in H1.
  rewrite Z2Nat.id in H1 by lia. specialize (H1 ltac:(rewrite Hn; by apply range_pages) Hf).
  destruct (PageTable.map_pages root request init (Z.to_nat n) v s) as [[u s1]|[u s1]| |]; [| |done..].
  - destruct H1 as (ps & Hlen & H1). split; [done|]. split; [done|]. exists ps. split; [lia|]. split; [done|by eapply mapped_rights].
  - destruct H1 as (ps & Hlen & H1 & H2). right. exists ps. split; [lia|]. split; [done|]. split; [by eapply mapped_rights|done].
Qed.
End range.
