(* ===== verification/PageRam.v ===== *)
(** New address spaces, the round trip of [components] through [virt_base], and a
    memory with the laws of [PhysMem] on which the theorems run. *)
From Stdlib Require Import ZArith Lia.
From stdpp Require Import prelude list numbers gmap.
From S2P Require Import Prelude Packet PageTable PageMem PageMap PageSpace.

Section new.
Context {S : Type} `{Hm : PhysMem S} {Hl : PhysMemLaws S}.
Implicit Types (s : S) (T : gmap (list Z) Z) (π ix : list Z) (a i root v : Z).

(** A page of zeros is a table of an address space with nothing mapped. *)
Lemma zero_tables s root :
  (root, 4096) ∈ owned s → (4096 | root) → 0 ≤ root → root + 4096 ≤ 2 ^ 52 → usable s root 4096 →
  (∀ i, 0 ≤ i < 512 → word s (root + 8 * i) = 0) →
  tables s root {[ [] := root ]} ∧ ∀ v, canonical v → page_at s root v = None.
Proof.
  intros Ho Hd H0 Hmax Hu Hz.
  assert (∀ π a, ({[ [] := root ]} : gmap (list Z) Z) !! π = Some a → π = [] ∧ a = root) as HT
    by (intros π a [<- <-]%lookup_singleton_Some; done).
  assert (present 0 = false) as P0 by done.
  assert (tables s root {[ [] := root ]}) as Ht.
  { split.
    - apply lookup_singleton_eq.
    - intros π a [-> ->]%HT. split; [simpl; lia|]. done.
    - intros π a i [-> ->]%HT Hi. by rewrite Hz, P0.
    - intros a i [_ ->]%HT Hi. by rewrite Hz, P0.
    - intros π i b [Heq _]%HT. by destruct π.
    - by intros π π' a [-> _]%HT [-> _]%HT. }
  split; [done|]. intros v Hc. rewrite (page_at_eq _ _ _ _ Ht Hc).
  pose proof (indices_ok v) as [_ Hix]. unfold Mapping.get_indices in *. apply Forall_inv in Hix.
  cbn [lookup_path]. rewrite lookup_singleton_eq. by rewrite Hz by done.
Qed.

Lemma new_tables s root s' : PageTable.new s = (Some root, s') →
  tables s' root {[ [] := root ]} ∧ ∀ v, canonical v → page_at s' root v = None.
Proof.
  intros E. destruct (alloc_zeroed_some _ _ _ E) as (Hd & H0 & Hmax & Hu & Ho & Hap & Hz & _).
  apply zero_tables; try done. rewrite Ho. constructor.
Qed.

(** [PageTable::new] makes an address space with nothing mapped, out of a page
    that was not allocated, and changes no allocated memory. *)
Theorem new_empty s root s' :
  PageTable.new s = (Some root, s') →
  address_space s' root ∧ (∀ v, canonical v → page_at s' root v = None) ∧
  owned s' = (root, 4096) :: owned s ∧ Forall (apart (root, 4096)) (owned s) ∧
  (∀ q b, b ∈ owned s → in_block q b → peek (q + offset) s' = peek (q + offset) s).
Proof.
  intros E. destruct (new_tables _ _ _ E) as [Ht Hn].
  destruct (alloc_zeroed_some _ _ _ E) as (_ & _ & _ & _ & Ho & Hap & Hz & Hk & _).
  split; [by eexists|]. by split.
Qed.

(** A page at depth [d] has tables down to [d], and none below. *)
Lemma lookup_depth s root T ix d e :
  tables s root T → path_ok ix → lookup_path s T [] ix = Some (d, e) →
  (1 ≤ d ≤ 3)%nat ∧ ∀ k, (k ≤ 3)%nat → is_Some (T !! take k ix) ↔ (k ≤ d)%nat.
Proof.
  intros Ht Hp. pose proof Hp as [Hlen Hix].
  assert (∀ k i, ix !! k = Some i → is_Some (T !! take (Datatypes.S k) ix) → is_Some (T !! take k ix)) as Hup.
  { intros k i Hi [b Hb]. rewrite (take_S_index _ _ _ Hi) in Hb.
    destruct (tb_parent _ _ _ Ht _ _ _ Hb) as (_ & a & Ha & _). eauto. }
  assert (∀ n k, (k + n = 4)%nat → is_Some (T !! take k ix) →
    lookup_path s T (take k ix) (drop k ix) = Some (d, e) →
    (1 ≤ d ≤ 3)%nat ∧ (k ≤ d)%nat ∧ is_Some (T !! take d ix) ∧ T !! take (Datatypes.S d) ix = None) as Hgo.
  { induction n as [|n IH]; intros k Hk [a Ha].
    { rewrite drop_ge by lia. done. }
    destruct (lookup_lt_is_Some_2 ix k) as [i Hi]; [lia|].
    assert (is_index i) as Hii by (by eapply Forall_lookup_1).
    rewrite (drop_S _ _ _ Hi). cbn [lookup_path]. rewrite Ha.
    pose proof (child_eq _ _ _ _ _ _ Ht Ha Hii) as Hch. rewrite <-(take_S_index _ _ _ Hi) in Hch |- *.
    assert (length (take k ix) = k) as Elk by (rewrite length_take; lia). rewrite Elk in *.
    destruct (present (word s (a + 8 * i))) eqn:P; [|done].
    destruct (leaf k (word s (a + 8 * i))) eqn:L; cbn [negb andb] in Hch.
    - destruct (Nat.eqb_spec k 0); [done|]. intros [= <- <-]. split; [lia|]. split; [done|]. split; [by exists a|done].
    - intros Hlk. destruct (IH (Datatypes.S k)) as (H1 & H2 & H3 & H4); [lia|by rewrite Hch|done|].
      split; [done|]. split; [lia|done]. }
  intros Hlk. destruct (Hgo 4%nat 0%nat eq_refl) as (H1 & _ & H2 & H3); [|done|].
  { exists root. apply Ht. }
  split; [done|]. intros k Hk. destruct ix as [|i0 [|i1 [|i2 [|i3 [|]]]]]; try done.
  pose proof (Hup 0%nat i0 eq_refl). pose proof (Hup 1%nat i1 eq_refl). pose proof (Hup 2%nat i2 eq_refl).
  split; intros Hx.
  - destruct (decide (k ≤ d)%nat); [done|]. exfalso. apply (is_Some_None (A:=Z)). rewrite <-H3.
    destruct d as [|[|[|[|]]]], k as [|[|[|[|]]]]; try lia; naive_solver.
  - destruct d as [|[|[|[|]]]], k as [|[|[|[|]]]]; try lia; naive_solver.
Qed.

Lemma lor_disjoint a b k : 0 ≤ k → 0 ≤ b < 2 ^ k → Z.lor (a * 2 ^ k) b = a * 2 ^ k + b.
Proof.
  intros Hk Hb. assert (Z.land (a * 2 ^ k) b = 0) as Hd.
  { apply Z.bits_inj_0. intros n. rewrite Z.land_spec.
    destruct (Z.lt_ge_cases n 0); [by rewrite Z.testbit_neg_r|].
    destruct (Z.lt_ge_cases n k); [by rewrite Z.mul_pow2_bits_low by lia|].
    destruct (Z.eq_dec b 0) as [->|]; [by rewrite Z.bits_0, andb_false_r|].
    rewrite (Z.bits_above_log2 b), andb_false_r; [done|lia|].
    apply Z.lt_le_trans with k; [apply Z.log2_lt_pow2; lia|done]. }
  by rewrite (Z.add_nocarry_lxor _ _ Hd), Z.lxor_lor.
Qed.

(** The index of an entry is in its address. *)
Lemma entry_bits_index s root T π a i sh :
  tables s root T → T !! π = Some a → is_index i → 0 ≤ sh ≤ 39 →
  Mapping.entry_bits (Some (a + 8 * i)) sh = i * 2 ^ sh.
Proof.
  intros Ht Ha [Hi1 Hi2] Hsh. destruct (tb_page _ _ _ Ht _ _ Ha) as (_ & _ & [k ->] & _).
  unfold Mapping.entry_bits. cbn [from_option id]. change 0xFFF with (2 ^ 12 - 1). rewrite land_mask by lia.
  replace (k * 4096 + 8 * i) with (8 * i + k * 2 ^ 12) by lia.
  rewrite Z.mod_add by lia. rewrite (Z.mod_small (8 * i)) by lia. replace (8 * i / 8) with i by (by rewrite Z.mul_comm, Z.div_mul by lia).
  rewrite Z.shiftl_mul_pow2 by lia. apply Z.mod_small.
  assert (2 ^ sh ≤ 2 ^ 39) by (apply Z.pow_le_mono_r; lia). nia.
Qed.

Lemma join_indices {E} i0 i1 i2 i3 :
  is_index i0 → is_index i1 → is_index i2 → is_index i3 →
  canonicalize_address (E:=E) 16
    (Z.lor (Z.lor (Z.lor (i0 * 2 ^ 39) (i1 * 2 ^ 30)) (i2 * 2 ^ 21)) (i3 * 2 ^ 12))
  = Ok ((((i0 * 512 + i1) * 512 + i2) * 512 + i3) * 4096 + (if i0 <? 256 then 0 else 2 ^ 64 - 2 ^ 48)).
Proof.
  intros [A0 B0] [A1 B1] [A2 B2] [A3 B3].
  rewrite (lor_disjoint i0 (i1 * 2 ^ 30) 39) by lia.
  replace (i0 * 2 ^ 39 + i1 * 2 ^ 30) with ((i0 * 512 + i1) * 2 ^ 30) by lia.
  rewrite (lor_disjoint _ (i2 * 2 ^ 21) 30) by lia.
  replace ((i0 * 512 + i1) * 2 ^ 30 + i2 * 2 ^ 21) with (((i0 * 512 + i1) * 512 + i2) * 2 ^ 21) by lia.
  rewrite (lor_disjoint _ (i3 * 2 ^ 12) 21) by lia.
  rewrite canonicalize_eq by (unfold fits; lia). f_equal. rewrite Z.mod_small by lia.
  destruct (Z.ltb_spec (((i0 * 512 + i1) * 512 + i2) * 2 ^ 21 + i3 * 2 ^ 12) (2 ^ 47)),
    (Z.ltb_spec i0 256); lia.
Qed.

Lemma page_base v q r sz : v = q * sz + r → 0 ≤ r < sz → v - v mod sz = q * sz.
Proof.
  intros -> Hr. rewrite Z.add_comm, Z.mod_add, Z.mod_small by lia. lia.
Qed.

Definition type_at (d : nat) : PageType :=
  match d with 1%nat => Page1G | 2%nat => Page2M | _ => Page4K end.

(** Round trip: where [components] finds a page at [v], the mapping it returns
    names the page's type, the base address of that page, and the offset of [v]
    in it. *)
Theorem components_virt_base s root v m s' p off e :
  address_space s root → canonical v →
  PageTable.components root v s = Ok (m, s') → page m = Some (p, off, e) →
  s' = s ∧ ∃ t, Mapping.page_type m = Some t ∧ off = v mod PageType.size t ∧
    Mapping.virt_base (E:=Error) m = Ok (Some (v - v mod PageType.size t)).
Proof.
  intros [T Ht] Hc Em Hpg. destruct (components_ok _ _ _ _ Ht Hc) as (m' & Em' & Hpg' & Hen).
  rewrite Em in Em'. injection Em' as <- ->. split; [done|].
  rewrite Hpg in Hpg'. destruct (lookup_path s T [] (Mapping.get_indices v)) as [[d e']|] eqn:Elk; [|done].
  injection Hpg' as Hp Ho He. exists (type_at d).
  destruct (lookup_depth _ _ _ _ _ _ Ht (indices_ok v) Elk) as [Hd Hsome].
  destruct (canonical_split v Hc) as (i0 & i1 & i2 & i3 & o & Eix & I0 & I1 & I2 & I3 & Hoff & Hv).
  rewrite Eix in *. pose proof (proj2 (Hsome 0%nat ltac:(lia)) ltac:(lia)) as [a0 H0].
  pose proof (proj2 (Hsome 1%nat ltac:(lia)) ltac:(lia)) as [a1 H1].
  pose proof (Hsome 2%nat ltac:(lia)) as S2. pose proof (Hsome 3%nat ltac:(lia)) as S3.
  cbn [take] in H0, H1, S2, S3.
  unfold entries_of, entry_addr, Mapping.entries in Hen. cbn [fmap list_fmap take lookup list_lookup] in Hen.
  rewrite H0, H1 in Hen. injection Hen as P0 P1 P2 P3.
  unfold Mapping.page_type, Mapping.virt_base. rewrite Hpg, P0, P1, P2, P3.
  rewrite (entry_bits_index _ _ _ _ _ _ _ Ht H0 I0), (entry_bits_index _ _ _ _ _ _ _ Ht H1 I1) by lia.
  assert (∀ sh, Mapping.entry_bits None sh = 0 * 2 ^ sh) as Hnone
    by (intros sh; unfold Mapping.entry_bits; simpl; by rewrite Z.shiftl_0_l).
  assert (is_index 0) as Iz by (unfold is_index; lia).
  assert (∀ k, 0 ≤ k → Z.land v (2 ^ k - 1) = v mod 2 ^ k) as Hmask by (intros k Hk; by apply land_mask).
  set (h := if i0 <? 256 then 0 else 2 ^ 25 - 2 ^ 9).
  assert ((if i0 <? 256 then 0 else 2 ^ 64 - 2 ^ 48) = h * 2 ^ 39) as Eh by (unfold h; by destruct (i0 <? 256)).
  rewrite Eh in Hv. destruct I0 as [A0 B0], I1 as [A1 B1], I2 as [A2 B2], I3 as [A3 B3].
  destruct d as [|[|[|[|]]]]; try lia; cbn [type_at PageTable.page_mask PageType.size] in *.
  - assert (T !! [i0; i1] = None) as -> by (apply eq_None_not_Some; intros ?%S2; lia).
    assert (T !! [i0; i1; i2] = None) as -> by (apply eq_None_not_Some; intros ?%S3; lia).
    split; [done|]. split; [rewrite Ho; by apply (Hmask 30)|].
    rewrite !Hnone, join_indices, Eh by done. cbn [mbind res_bind]. do 2 f_equal.
    rewrite (page_base v (i0 * 512 + i1 + h * 2 ^ 9) ((i2 * 512 + i3) * 4096 + o)); lia.
  - destruct (proj2 S2 ltac:(lia)) as [a2 H2]. rewrite H2.
    assert (T !! [i0; i1; i2] = None) as -> by (apply eq_None_not_Some; intros ?%S3; lia).
    split; [done|]. split; [rewrite Ho; by apply (Hmask 21)|].
    rewrite (entry_bits_index _ _ _ _ _ i2 _ Ht H2), Hnone, join_indices, Eh by done.
    cbn [mbind res_bind]. do 2 f_equal.
    rewrite (page_base v ((i0 * 512 + i1) * 512 + i2 + h * 2 ^ 18) (i3 * 4096 + o)); lia.
  - destruct (proj2 S2 ltac:(lia)) as [a2 H2]. destruct (proj2 S3 ltac:(lia)) as [a3 H3]. rewrite H2, H3.
    split; [done|]. split; [rewrite Ho; by apply (Hmask 12)|].
    rewrite (entry_bits_index _ _ _ _ _ i2 _ Ht H2), (entry_bits_index _ _ _ _ _ i3 _ Ht H3), join_indices, Eh
      by done.
    cbn [mbind res_bind]. do 2 f_equal.
    rewrite (page_base v (((i0 * 512 + i1) * 512 + i2) * 512 + i3 + h * 2 ^ 27) o); lia.
Qed.
End new.

(** * A memory of 1 GiB that hands out pages from the bottom *)
Record ram := mkRam { bytes : gmap Z Z; history : list (N * positive) }.

Module Ram.
Definition top : Z := 2 ^ 30.

(** The allocations: each a gap after the one before, and a size. *)
Fixpoint blocks (h : list (N * positive)) : Z * list block :=
  match h with
  | [] => (0, [])
  | (gap, size) :: h =>
      let '(next, bs) := blocks h in
      let a := next + Z.of_N gap in (a + Z.pos size, (a, Z.pos size) :: bs)
  end.

Definition in_range (p n : Z) : bool := (0 <=? p) && (0 <? n) && (p + n <=? top).

Definition alloc (sz al : Z) (s : ram) : option Z * ram :=
  let next := (blocks (history s)).1 in
  let a := (next + al - 1) / al * al in
  if (0 <? sz) && (0 <? al) && (a + sz <=? top)
  then (Some a, mkRam (bytes s) ((Z.to_N (a - next), Z.to_pos sz) :: history s))
  else (None, s).

#[global] Instance phys : PhysMem ram := {
  translate p n _ := if in_range p n then Some p else None;
  alloc_phys := alloc;
  peek q s := from_option (λ b, b mod 256) 0 (bytes s !! q);
  poke q b s := mkRam (<[q := b]> (bytes s)) (history s);
}.

Lemma blocks_spec h :
  let '(next, bs) := blocks h in
  0 ≤ next ∧ (∀ b, b ∈ bs → 0 < b.2 ∧ b.1 + b.2 ≤ next) ∧
  (∀ b b', b ∈ bs → b' ∈ bs → b = b' ∨ apart b b').
Proof.
  induction h as [|[gap size] h IH]; cbn [blocks].
  { split; [lia|]. split; [intros b Hb|intros b b' Hb]; inversion Hb. }
  destruct (blocks h) as [next bs]. destruct IH as (H0 & Hb & Hap).
  split; [lia|]. split.
  - intros b [->|Hin]%elem_of_cons; simpl; [lia|]. destruct (Hb b Hin). lia.
  - unfold apart in *. intros b b' [->|Hin]%elem_of_cons [->|Hin']%elem_of_cons; simpl; [by left| | |by apply Hap].
    + destruct (Hb b' Hin'). lia.
    + destruct (Hb b Hin). lia.
Qed.

Lemma round_up n al : 0 < al → n ≤ (n + al - 1) / al * al.
Proof. intros Hal. Z.div_mod_to_equations. nia. Qed.

Lemma alloc_spec sz al s o s' :
  alloc sz al s = (o, s') →
  bytes s' = bytes s ∧
  match o with
  | None => s' = s
  | Some a => 0 < sz ∧ (al | a) ∧ 0 ≤ a ∧ a + sz ≤ top ∧
      (blocks (history s')).2 = (a, sz) :: (blocks (history s)).2 ∧
      Forall (apart (a, sz)) (blocks (history s)).2
  end.
Proof.
  unfold alloc. pose proof (blocks_spec (history s)) as Hb. destruct (blocks (history s)) as [next bs] eqn:Ebs.
  destruct Hb as (H0 & Hb & _). cbn [fst snd]. set (a := (next + al - 1) / al * al).
  destruct ((0 <? sz) && (0 <? al) && (a + sz <=? top)) eqn:Ec; intros [= <- <-]; [|done].
  split; [done|]. apply andb_true_iff in Ec as [[Hsz%Z.ltb_lt Hal%Z.ltb_lt]%andb_true_iff Htop%Z.leb_le].
  pose proof (round_up next al Hal) as Hr. fold a in Hr.
  split; [done|]. split; [by exists ((next + al - 1) / al)|]. split; [lia|]. split; [done|].
  cbn [history blocks]. rewrite Ebs. cbn [snd]. rewrite Z2N.id, Z2Pos.id by lia.
  replace (next + (a - next)) with a by lia. split; [done|].
  apply Forall_forall. intros b Hin. destruct (Hb b Hin). unfold apart. simpl. lia.
Qed.

#[global] Instance laws : PhysMemLaws ram.
Proof.
  refine {| offset := 0; owned s := (blocks (history s)).2 |}.
  - intros p n s v. cbn. destruct (in_range p n); [|done]. intros [= <-]. lia.
  - intros p n s v q m. cbn. unfold in_range. destruct (Z.leb_spec 0 p); [|done].
    destruct (Z.ltb_spec 0 n); [|done]. destruct (Z.leb_spec (p + n) top); [|done].
    intros _ Q1 Q2 Q3. rewrite (proj2 (Z.leb_le 0 q)), (proj2 (Z.ltb_lt 0 m)), (proj2 (Z.leb_le (q + m) top)) by lia.
    simpl. f_equal. lia.
  - intros q s. cbn. destruct (bytes s !! q); simpl; [|unfold fits; lia]. apply Z.mod_pos_bound. lia.
  - intros q p b s Hb. cbn. destruct (decide (q = p)) as [->|Hne].
    + rewrite lookup_insert_eq. simpl. by apply Z.mod_small.
    + by rewrite lookup_insert_ne by done.
  - done.
  - done.
  - intros s b b'. pose proof (blocks_spec (history s)) as Hb. destruct (blocks (history s)) as [next bs].
    apply Hb.
  - done.
  - intros sz al s o s' q b [Hby _]%alloc_spec _ _. cbn. by rewrite Hby.
  - intros sz al s s' [_ ->]%alloc_spec. done.
  - intros sz al s a s' Hsz (_ & _ & Hd & H0 & Htop & Ho & Hap)%alloc_spec.
    split; [done|]. split; [done|]. split; [unfold top in Htop; lia|]. split; [|done].
    cbn. unfold in_range. rewrite (proj2 (Z.leb_le 0 a)), (proj2 (Z.ltb_lt 0 sz)), (proj2 (Z.leb_le _ _)) by lia.
    simpl. f_equal. lia.
Defined.

Definition empty : ram := mkRam ∅ [].

(** The first address space of the empty memory. *)
Definition start : ram := (PageTable.new empty).2.
Lemma zeroed_pair s sz al a s1 v :
  alloc_phys sz al s = (Some a, s1) → translate a sz s1 = Some v →
  alloc_phys_zeroed sz al s = (Some a, (alloc_phys_zeroed sz al s).2).
Proof. intros E1 E2. unfold alloc_phys_zeroed. by rewrite E1, E2. Qed.
Lemma start_eq : PageTable.new empty = (Some 0, start).
Proof. exact (zeroed_pair empty 4096 4096 0 _ 0 eq_refl eq_refl). Qed.
Lemma start_space : address_space start 0.
Proof. exact (ex_intro _ _ (proj1 (new_tables empty 0 start start_eq))). Qed.
End Ram.

Lemma new_empty_witness :
  PageTable.new Ram.empty = (Some 0, Ram.start) ∧ address_space Ram.start 0.
Proof. split; [exact Ram.start_eq|]. exact (proj1 (new_empty _ _ _ Ram.start_eq)). Defined.

(** * A small address space: four tables, and one page at address 0 *)
Definition sample : ram := mkRam
  {[ 0x0 := 0x03; 0x1 := 0x10; 0x1000 := 0x03; 0x1001 := 0x20; 0x2000 := 0x03; 0x2001 := 0x30;
     0x3000 := 0x03; 0x3001 := 0x50 ]}
  (replicate 4 (0%N, 4096%positive)).
Definition sample_tables : gmap (list Z) Z :=
  {[ [] := 0; [0] := 0x1000; [0; 0] := 0x2000; [0; 0; 0] := 0x3000 ]}.

Lemma sample_tables_inv π a :
  sample_tables !! π = Some a →
  (π = [] ∧ a = 0) ∨ (π = [0] ∧ a = 0x1000) ∨ (π = [0; 0] ∧ a = 0x2000) ∨ (π = [0; 0; 0] ∧ a = 0x3000).
Proof.
  unfold sample_tables. rewrite !lookup_insert_Some, lookup_singleton_Some. naive_solver.
Qed.

Lemma sample_zero p :
  (p = 0 ∨ p = 0x1000 ∨ p = 0x2000 ∨ p = 0x3000) →
  ∀ i, 0 < i < 512 → word sample (p + 8 * i) = 0.
Proof.
  intros Hp i Hi. unfold word.
  assert (read_bytes (p + 8 * i + offset) 8 sample = replicate 8 0) as ->; [|done].
  unfold read_bytes. apply list_eq. intros k. rewrite list_lookup_fmap.
  destruct (decide (k < 8)%nat); 
    [|by rewrite lookup_seq_ge, (lookup_ge_None_2 (replicate 8 0)) by (rewrite ?length_replicate; lia)].
  rewrite lookup_seq_lt, lookup_replicate_2 by lia. cbn [fmap option_fmap option_map]. f_equal.
  set (q := p + 8 * i + offset + Z.of_nat (0 + k)).
  assert (q = p + 8 * i + Z.of_nat k) as Hq by (unfold q, offset; simpl; lia). clearbody q.
  cbn [peek Ram.phys]. unfold sample. cbn [bytes].
  rewrite !lookup_insert_ne by lia. by rewrite lookup_singleton_ne by lia.
Qed.

Lemma sample_ok : tables sample 0 sample_tables.
Proof.
  assert (∀ π a i, sample_tables !! π = Some a → is_index i → present (word sample (a + 8 * i)) = true →
    i = 0) as Hz.
  { intros π a i Ha [Hi1 Hi2] P. destruct (decide (i = 0)) as [|Hne]; [done|].
    rewrite sample_zero in P; [done| |lia]. destruct (sample_tables_inv _ _ Ha); naive_solver. }
  split.
  - done.
  - intros π a Ha. destruct (sample_tables_inv _ _ Ha) as [[-> ->]|[[-> ->]|[[-> ->]|[-> ->]]]];
      (split; [simpl; lia|]); (split; [apply list_elem_of_In; vm_compute; tauto|]);
      (split; [by apply Z.mod_divide|]); (split; [lia|]); (split; [lia|done]).
  - intros π a i Ha Hi P. rewrite (Hz _ _ _ Ha Hi P).
    by destruct (sample_tables_inv _ _ Ha) as [[-> ->]|[[-> ->]|[[-> ->]|[-> ->]]]].
  - intros a i Ha Hi P. rewrite (Hz _ _ _ Ha Hi P).
    by destruct (sample_tables_inv _ _ Ha) as [[? ->]|[[? ->]|[[? ->]|[? ->]]]].
  - intros π i b Hb. destruct (sample_tables_inv _ _ Hb) as [[E ->]|[[E ->]|[[E ->]|[E ->]]]].
    + by destruct π.
    + destruct π as [|j [|]]; try done. injection E as ->. split; [done|]. by exists 0.
    + destruct π as [|j [|j' [|]]]; try done. injection E as -> ->. split; [done|]. by exists 0x1000.
    + destruct π as [|j [|j' [|j'' [|]]]]; try done. injection E as -> -> ->. split; [done|]. by exists 0x2000.
  - intros π π' a Ha Hb. destruct (sample_tables_inv _ _ Ha), (sample_tables_inv _ _ Hb); naive_solver.
Qed.
Lemma sample_space : address_space sample 0.
Proof. exact (ex_intro _ _ sample_ok). Qed.

Lemma map_raw_correct_witness :
  ∃ s', PageTable.map_raw 0 0x1000 Page4K 0x6003 sample = Ok (tt, s') ∧
    address_space s' 0 ∧ page_at s' 0 0x1234 = Some (0x6000, 0x234, 0x6003) ∧
    page_at s' 0 0x234 = page_at sample 0 0x234.
Proof.
  assert (∀ v, 0 ≤ v < 2 ^ 47 → canonical v) as Hc by (intros v Hv; apply canonical_iff; lia).
  pose proof (map_raw_correct sample 0 0x1000 Page4K 0x6003 sample_space (Hc 0x1000 ltac:(lia))
    ltac:(unfold fits; lia)) as H.
  destruct (PageTable.map_raw 0 0x1000 Page4K 0x6003 sample) as [[[] s']|r| |] eqn:E;
    [|exfalso; vm_compute in E; discriminate..].
  destruct H as (_ & _ & _ & Hs & _ & Hp). exists s'. split; [done|]. split; [done|].
  split; [exact (Hp 0x1234 (Hc 0x1234 ltac:(lia)))|exact (Hp 0x234 (Hc 0x234 ltac:(lia)))].
Defined.

(** A request of two pages at 0x1000. *)
Definition request_example : MapRequest := mkMapRequest Page4K 0x1000 0x1800 (Permissions.new true false false).

Lemma map_init_correct_witness :
  ∃ s' ps, PageTable.map_init 0 request_example None sample = Ok (tt, s') ∧ length ps = 2%nat ∧
    pages_mapped sample s' 0 request_example None 0x1000 ps.
Proof.
  assert (canonical_range 0x1000 0x1800) as Hr by (left; lia).
  pose proof (map_init_correct sample 0 request_example None sample_space Hr ltac:(done)) as H. cbv zeta in H.
  destruct (PageTable.map_init 0 request_example None sample) as [[[] s']|r| |] eqn:E;
    [|exfalso; vm_compute in E; discriminate..].
  destruct H as (_ & _ & ps & Hn & Hp & _). exists s', ps. split; [done|]. split; [|done].
  change (Z.of_nat (length ps) = 2) in Hn. lia.
Defined.

Lemma components_virt_base_witness :
  ∃ m, PageTable.components 0 0x123 sample = Ok (m, sample) ∧
    page m = Some (0x5000, 0x123, 0x5003) ∧ Mapping.virt_base (E:=Error) m = Ok (Some 0).
Proof.
  assert (canonical 0x123) as Hc by (apply canonical_iff; lia).
  destruct (PageTable.components 0 0x123 sample) as [[m s']|r| |] eqn:E;
    [|exfalso; vm_compute in E; discriminate..].
  assert (page m = Some (0x5000, 0x123, 0x5003)) as Hp by (vm_compute in E; by injection E as <- _).
  destruct (components_virt_base _ _ _ _ _ _ _ _ sample_space Hc E Hp) as (-> & t & Ht & Ho & Hv).
  exists m. split; [done|]. split; [done|]. rewrite Hv. destruct t; done.
Defined.
