(* ===== verification/KernelMm.v ===== *)
(** The kernel's memory manager: kernel/src/mm.rs, the free lists a core keeps
    (kernel/src/core_locals.rs) and the address-space layout of
    shared/shared_data/src/constants.rs.

    A core's heap is one state: the bytes its pointers reach, the free physical
    memory, the 61 free lists and the next virtual address.  Each lock is held for
    the whole of an operation. *)
From Stdlib Require Import ZArith Lia.
From stdpp Require Import prelude list numbers gmap.
From S2P Require Import Prelude Packet Ranges PageTable.

(** * The address-space layout *)
Module Layout.
Definition KERNEL_CODE_BASE : Z := 0xFFFFFFFFCAFE0000.
Definition REGION_PADDING : Z := 8 * 0x1000.
Definition MAX_TRAMPOLINE_SIZE : Z := 0x10000.
Definition TRAMPOLINE_ADDR : Z := KERNEL_CODE_BASE - (REGION_PADDING + MAX_TRAMPOLINE_SIZE).
Definition floor_align (val align : Z) : Z := val / align * align.
Definition KERNEL_PHYS_WINDOW_SIZE : Z := 0x10000000000.
Definition KERNEL_PHYS_WINDOW_BASE : Z :=
  floor_align (TRAMPOLINE_ADDR - (KERNEL_PHYS_WINDOW_SIZE + REGION_PADDING)) 0x40000000.
Definition KERNEL_VMEM_SIZE : Z := 0x10000000000.
Definition KERNEL_VMEM_BASE : Z := KERNEL_PHYS_WINDOW_BASE - (KERNEL_VMEM_SIZE + REGION_PADDING).
Definition KERNEL_STACK_BASE : Z := KERNEL_VMEM_BASE - REGION_PADDING.
Definition KERNEL_STACK_SIZE : Z := 128 * 0x1000.
Definition KERNEL_STACK_SIZE_PADDED : Z := KERNEL_STACK_SIZE + REGION_PADDING.
End Layout.
Import Layout.

(** * The state *)
(** [head] is 0 in an empty list. *)
Record FreeList := mkFreeList { head : Z; block_size : Z }.

Record Mm := mkMm {
  bytes : gmap Z Z;
  free_memory : option RangeSet;
  free_lists : list FreeList;
  next_vaddr : Z;
  kernel_pt : option Z;
  apic_to_mem_range : option (list (option RangeSet));
  apic_id : option Z;
}.

Definition set_bytes b s := mkMm b (free_memory s) (free_lists s) (next_vaddr s) (kernel_pt s)
  (apic_to_mem_range s) (apic_id s).
Definition set_free_memory m s := mkMm (bytes s) m (free_lists s) (next_vaddr s) (kernel_pt s)
  (apic_to_mem_range s) (apic_id s).
Definition set_free_lists l s := mkMm (bytes s) (free_memory s) l (next_vaddr s) (kernel_pt s)
  (apic_to_mem_range s) (apic_id s).
Definition set_next_vaddr v s := mkMm (bytes s) (free_memory s) (free_lists s) v (kernel_pt s)
  (apic_to_mem_range s) (apic_id s).

(** Nothing here returns an error: what cannot be done panics. *)
Abbreviation K := (M Mm unit).

(** * Words behind a pointer *)
Definition byte_at (m : gmap Z Z) (a : Z) : Z := default 0 (m !! a).
Definition load (m : gmap Z Z) (a : Z) : Z :=
  le_val ((λ k : nat, byte_at m (a + Z.of_nat k)) <$> seq 0 8).
Fixpoint put_bytes (m : gmap Z Z) (a : Z) (l : list Z) : gmap Z Z :=
  match l with [] => m | b :: l => put_bytes (<[a := b]> m) (a + 1) l end.
Definition stor (m : gmap Z Z) (a v : Z) : gmap Z Z := put_bytes m a (le_bytes 8 v).

Definition read (a : Z) : K Z := λ s, Ok (load (bytes s) a, s).
Definition write (a v : Z) : K unit := λ s, Ok (tt, set_bytes (stor (bytes s) a v) s).

(** * NUMA preference *)
Definition mem_range : K (option RangeSet) := λ s,
  match apic_to_mem_range s with
  | None => Ok (None, s)
  | Some mapping =>
      match apic_id s with
      | None => Ok (None, s)
      | Some x => lift (index mapping (Z.to_nat x)) s
      end
  end.

(** [ad] in the order of the tree map's keys. *)
Fixpoint assign_domains (ad : list (Z * Z)) (md : gmap Z RangeSet) (mappings : list (option RangeSet))
    : res unit (list (option RangeSet)) :=
  match ad with
  | [] => Ok mappings
  | (apic, domain) :: ad =>
      mappings ← store mappings (Z.to_nat apic) (md !! domain);
      assign_domains ad (delete domain md) mappings
  end.
Definition register_numa (max_apic_id : Z) (ad : list (Z * Z)) (md : gmap Z RangeSet) : K unit := λ s,
  lift (_ ← assert (negb (max_apic_id =? 0));
        assign_domains ad md (replicate (Z.to_nat (max_apic_id + 1)) None)) s ≫=
  λ '(mappings, s),
    (* the once-lock panics when it is set again *)
    match apic_to_mem_range s with
    | None => Ok (tt, mkMm (bytes s) (free_memory s) (free_lists s) (next_vaddr s) (kernel_pt s)
                    (Some mappings) (apic_id s))
    | Some _ => Panic
    end.

(** * Addresses *)
Definition phys_ptr (addr : Z) : res unit Z := unwrap (checked_add 64 addr KERNEL_PHYS_WINDOW_BASE).

Definition receive_vaddr_4k (size : Z) : K Z :=
  _ ← lift (assert ((0 <? size) && (Z.land size 0xfff =? 0)));
  reserve ← lift (unwrap (checked_add 64 REGION_PADDING size));
  s ← get;
  let ret := next_vaddr s in
  _ ← put (set_next_vaddr ((ret + reserve) mod 2 ^ 64) s);
  _ ← lift (unwrap (checked_add 64 ret reserve));
  mret ret.

(** The pointer of the slice. *)
Definition slice_phys_mut (paddr size : Z) : res unit Z :=
  end_ ← unwrap (x ← checked_sub size 1; checked_add 64 x paddr);
  _ ← assert (end_ <? KERNEL_PHYS_WINDOW_SIZE);
  add 64 KERNEL_PHYS_WINDOW_BASE paddr.

Definition translate_mut (paddr size : Z) : option Z :=
  x ← checked_sub size 1;
  end_ ← checked_add 64 x paddr;
  if KERNEL_PHYS_WINDOW_SIZE <=? end_ then None else Some (paddr + KERNEL_PHYS_WINDOW_BASE).

(** * Free lists *)
(** A node: the next node, the number of unused slots, and the slots. *)
Definition NODE_SIZE : Z := 16.
Definition NEXT : Z := 0.
Definition FREE_SLOTS : Z := 8.
Definition FREE_ADDRS : Z := 16.

Definition FreeList_new (size : Z) : res unit FreeList :=
  _ ← assert (count_ones size =? 1)%nat;
  _ ← assert (8 <=? size);
  Ok (mkFreeList 0 size).

(** The lists of a new core: blocks of 8 bytes and every power of two above. *)
Definition free_lists_new : list FreeList := (λ k : nat, mkFreeList 0 (2 ^ (Z.of_nat k + 3))) <$> seq 0 61.

Definition get_list (i : nat) : K FreeList := λ s, lift (index (free_lists s) i) s.
Definition set_head (i : nat) (h : Z) : K unit := λ s,
  match free_lists s !! i with
  | Some l => Ok (tt, set_free_lists (<[i := mkFreeList h (block_size l)]> (free_lists s)) s)
  | None => Panic
  end.

Definition available_slots (size : Z) : res unit Z := sub (size / 8) (NODE_SIZE / 8).

Definition push (i : nat) (vaddr : Z) : K unit :=
  self ← get_list i;
  if block_size self <=? NODE_SIZE then
    _ ← write (vaddr + NEXT) (head self);
    set_head i vaddr
  else
    check ← (if head self =? 0 then mret true
             else n ← read (head self + FREE_SLOTS); mret (n =? 0));
    if (check : bool) then
      slots ← lift (available_slots (block_size self));
      _ ← write (vaddr + FREE_SLOTS) slots;
      _ ← write (vaddr + NEXT) (head self);
      set_head i vaddr
    else
      n ← read (head self + FREE_SLOTS);
      n ← lift (sub n 1);
      _ ← write (head self + FREE_SLOTS) n;
      write (head self + FREE_ADDRS + 8 * n) vaddr.

(** [phys_mem.allocate_prefer(..)] under the lock of the free memory. *)
Definition take_physical (size align : Z) (prefer : option RangeSet) (rs : RangeSet) : K (option Z) := λ s,
  match RangeSet.allocate_prefer size align prefer rs with
  | Ok (o, rs) => Ok (o, set_free_memory (Some rs) s)
  | Err (_, rs) => Ok (None, set_free_memory (Some rs) s)
  | Panic => Panic
  | Diverge => Diverge
  end.
Definition allocate_physical (size align : Z) : K (option Z) :=
  s ← get;
  match free_memory s with
  | None => mret None
  | Some rs => prefer ← mem_range; take_physical size align prefer rs
  end.

(** [n] blocks of the page, from [offset] on. *)
Fixpoint push_blocks (i : nat) (allocation size offset : Z) (n : nat) : K unit :=
  match n with
  | O => mret tt
  | S n =>
      a ← lift (add 64 allocation offset);
      vaddr ← lift (slice_phys_mut a size);
      _ ← push i vaddr;
      push_blocks i allocation size (offset + size) n
  end.

Definition allocate_page_for_blocks (i : nat) : K unit :=
  self ← get_list i;
  _ ← lift (assert (block_size self <=? 4096));
  o ← allocate_physical 4096 4096;
  allocation ← lift (unwrap o);
  (* (0..page_size).step_by(self.size) *)
  push_blocks i allocation (block_size self) 0
    (Z.to_nat ((4096 + block_size self - 1) / block_size self)).

(** A block of a list that is not empty. *)
Definition pop_block (i : nat) : K Z :=
  self ← get_list i;
  if block_size self <=? NODE_SIZE then
    next ← read (head self + NEXT);
    _ ← set_head i next;
    mret (head self)
  else
    slots ← lift (available_slots (block_size self));
    n ← read (head self + FREE_SLOTS);
    if n <? slots then
      allocation ← read (head self + FREE_ADDRS + 8 * n);
      n ← lift (add 64 n 1);
      _ ← write (head self + FREE_SLOTS) n;
      mret allocation
    else
      next ← read (head self + NEXT);
      _ ← set_head i next;
      mret (head self).

(** The physical memory page tables are made of; [pop] gives a page of the free
    list of pages.  A panic of [pop] is a [None] here: who asks for memory panics
    without it. *)
Definition PhysicalMemory (pop : K Z) : PhysMem Mm := {|
  translate p n _ := translate_mut p n;
  alloc_phys size align s :=
    match (if (size =? 4096) && (align =? 4096)
           then ptr ← pop; p ← lift (sub ptr KERNEL_PHYS_WINDOW_BASE); mret (Some p)
           else allocate_physical size align) s with
    | Ok r => r
    | _ => (None, s)
    end;
  peek a s := byte_at (bytes s) a;
  poke a b s := set_bytes (<[a := b]> (bytes s)) s;
|}.

(** The index of the list that serves a layout. *)
Definition leading_zeros (x : Z) : Z := if x =? 0 then 64 else 63 - Z.log2 x.
Definition free_list (size align : Z) : res unit nat :=
  let size := Z.max size 8 in
  idx ← sub 64 (leading_zeros (size - 1));
  _ ← assert (align <=? Z.shiftl 1 (Z.min idx 12));
  i ← sub idx 3;
  Ok (Z.to_nat i).

Definition allocate_virt_block (pop : K Z) (i : nat) : K Z :=
  self ← get_list i;
  vaddr ← receive_vaddr_4k (block_size self);
  request ← lift (unwrap_res (MapRequest_new vaddr Page4K (block_size self) (Permissions.new true false false)));
  s ← get;
  table ← lift (unwrap (kernel_pt s));
  _ ← unwrap_M (@PageTable.map Mm (PhysicalMemory pop) table request);
  mret vaddr.

(** A block of more than a page is mapped with pages of another list, whose blocks
    are pages: [fuel] is the number of such calls. *)
Fixpoint pop (fuel : nat) (i : nat) : K Z :=
  self ← get_list i;
  if head self =? 0 then
    if block_size self <=? 4096 then
      _ ← allocate_page_for_blocks i; pop_block i
    else
      match fuel with
      | O => diverge
      | S fuel => allocate_virt_block (j ← lift (free_list 4096 4096); pop fuel j) i
      end
  else pop_block i.

(** * The global allocator *)
Definition alloc (size align : Z) : K Z := i ← lift (free_list size align); pop 1 i.
Definition dealloc (ptr size align : Z) : K unit := i ← lift (free_list size align); push i ptr.

(** [ContigPageAligned::new]: virtual address, physical address and size. *)
Definition contig_new (val : list Z) : K (Z * Z * Z) :=
  let size := zlen val in
  _ ← lift (assert (0 <? size));
  up ← lift (x ← add 64 size 4096; sub x 1);
  let pages := up / 4096 in
  alloc_size ← lift (mul 64 pages 4096);
  ptr ← alloc alloc_size 4096;
  _ ← lift (assert (negb (ptr =? 0)));
  paddr ← lift (sub ptr KERNEL_PHYS_WINDOW_BASE);
  s ← get;
  _ ← put (set_bytes (put_bytes (bytes s) ptr val) s);
  mret (ptr, paddr, alloc_size).
Definition contig_drop (vaddr size : Z) : K unit := dealloc vaddr size 4096.
