(* ===== verification/KernelHeap.v ===== *)
(** The kernel heap hands out memory nobody else has: the free lists of
    KernelMm.v refine stacks of blocks, and allocation keeps every block handed
    out, free or not yet split apart from every other. *)
From Stdlib Require Import ZArith Lia.
From stdpp Require Import prelude list numbers gmap.
From S2P Require Import Prelude Packet Ranges RangeAlloc PageTable PageMem KernelMm.
Import Layout.

(** * Words *)
Section words.
Implicit Types (m : gmap Z Z) (a q v : Z) (l : list Z).

(** The bytes of a block. *)
Definition same_in (m m' : gmap Z Z) (b : block) : Prop :=
  ∀ q, in_block q b → byte_at m' q = byte_at m q.

Lemma put_bytes_out m a l q : q < a ∨ a + zlen l ≤ q → byte_at (put_bytes m a l) q = byte_at m q.
Proof.
  revert m a. induction l as [|b l IH]; intros m a Hq; [done|].
  cbn [put_bytes]. unfold zlen in *. cbn [length] in Hq. rewrite IH by lia.
  unfold byte_at. by rewrite lookup_insert_ne by lia.
Qed.
Lemma put_bytes_in m a l k b : l !! k = Some b → byte_at (put_bytes m a l) (a + Z.of_nat k) = b.
Proof.
  revert m a k. induction l as [|b' l IH]; intros m a k Hk; [done|]. cbn [put_bytes].
  destruct k as [|k].
  - injection Hk as ->. rewrite put_bytes_out by lia. unfold byte_at.
    by rewrite Z.add_0_r, lookup_insert_eq.
  - replace (a + Z.of_nat (S k)) with (a + 1 + Z.of_nat k) by lia. by apply IH.
Qed.

Lemma load_same m m' a : same_in m m' (a, 8) → load m' a = load m a.
Proof.
  intros H. unfold load. f_equal. apply list_fmap_ext. intros i k Hi.
  apply lookup_seq in Hi as [-> Hi]. apply H. unfold in_block. simpl. lia.
Qed.
Lemma stor_out m a v q : q < a ∨ a + 8 ≤ q → byte_at (stor m a v) q = byte_at m q.
Proof. intros Hq. apply put_bytes_out. unfold zlen. rewrite length_le_bytes. lia. Qed.
Lemma load_stor_ne m a v q : q + 8 ≤ a ∨ a + 8 ≤ q → load (stor m a v) q = load m q.
Proof. intros Hq. apply load_same. intros x Hx. apply stor_out. unfold in_block in Hx. simpl in Hx. lia. Qed.
Lemma load_stor_eq m a v : u64 v → load (stor m a v) a = v.
Proof.
  intros Hv. unfold load.
  assert ((λ k : nat, byte_at (stor m a v) (a + Z.of_nat k)) <$> seq 0 8 = le_bytes 8 v) as ->.
  { apply list_eq. intros k. rewrite list_lookup_fmap. destruct (decide (k < 8)%nat) as [Hk|Hk].
    - rewrite lookup_seq_lt by done. cbn [fmap option_fmap option_map].
      destruct (lookup_lt_is_Some_2 (le_bytes 8 v) k) as [b Hb]; [by rewrite length_le_bytes|].
      rewrite Hb. f_equal. apply put_bytes_in, Hb.
    - rewrite lookup_seq_ge by lia. symmetry. apply lookup_ge_None. rewrite length_le_bytes. lia. }
  rewrite le_val_bytes. by apply Z.mod_small.
Qed.
End words.

(** * Separated blocks *)
#[global] Instance apart_sym : Symmetric apart.
Proof. intros a b. unfold apart. tauto. Qed.

Fixpoint sep (l : list block) : Prop :=
  match l with [] => True | b :: l => Forall (apart b) l ∧ sep l end.

#[global] Instance sep_perm : Proper ((≡ₚ) ==> iff) sep.
Proof.
  intros l l' Hp. induction Hp as [|b l l' Hp IH|b b' l|l1 l2 l3 _ IH1 _ IH2]; simpl.
  - done.
  - by rewrite IH, Hp.
  - rewrite !Forall_cons. split; intros ((H1 & H2) & H3 & H4); (split; [split; [by symmetry|done]|done]).
  - by rewrite IH1.
Qed.

Lemma sep_app l l' : sep (l ++ l') ↔ sep l ∧ sep l' ∧ Forall (λ b, Forall (apart b) l') l.
Proof.
  induction l as [|b l IH]; simpl; [rewrite Forall_nil; tauto|].
  rewrite Forall_app, Forall_cons, IH. tauto.
Qed.

(** * Free lists as stacks *)
Section lists.
Implicit Types (m : gmap Z Z) (sz h a n : Z) (nodes : list (Z * list Z)) (slots bs : list Z).

Definition slots_of (sz : Z) : Z := sz / 8 - 2.
Definition size_ok (sz : Z) : Prop := 8 ≤ sz ∧ (8 | sz) ∧ sz < 2 ^ 64.

(** A node with its used slots. *)
Definition node_at m sz (n : Z) (slots : list Z) : Prop :=
  if sz <=? 16 then slots = []
  else zlen slots ≤ slots_of sz ∧ load m (n + 8) = slots_of sz - zlen slots ∧
       ∀ j a, slots !! j = Some a → load m (n + 16 + 8 * (slots_of sz - zlen slots + Z.of_nat j)) = a.

Fixpoint chain m sz (h : Z) (nodes : list (Z * list Z)) : Prop :=
  match nodes with
  | [] => h = 0
  | (n, slots) :: nodes => h = n ∧ node_at m sz n slots ∧ chain m sz (load m n) nodes
  end.

(** The free blocks, in the order they are handed out. *)
Fixpoint free nodes : list Z :=
  match nodes with [] => [] | (n, slots) :: nodes => slots ++ n :: free nodes end.

Definition as_block (sz a : Z) : block := (a, sz).
(** A block of at most a page lies in the physical window. *)
Definition block_ok (sz a : Z) : Prop :=
  0 < a ∧ a + sz ≤ 2 ^ 64 ∧ (Z.min sz 4096 | a) ∧
  (sz ≤ 4096 → KERNEL_PHYS_WINDOW_BASE ≤ a ∧ a + sz ≤ KERNEL_PHYS_WINDOW_BASE + KERNEL_PHYS_WINDOW_SIZE).

Lemma node_same m m' sz n slots :
  size_ok sz → same_in m m' (n, sz) → node_at m sz n slots → node_at m' sz n slots.
Proof.
  intros (H8 & [q Hq] & _) Hs. unfold node_at, slots_of. destruct (Z.leb_spec sz 16); [done|].
  intros (Hle & Hc & Hsl). split; [done|]. unfold zlen in *.
  assert (sz / 8 = q) as Eq by (rewrite Hq; by rewrite Z.div_mul by lia). rewrite Eq in *.
  assert (∀ k, 0 ≤ k → k + 8 ≤ sz → load m' (n + k) = load m (n + k)) as Hl.
  { intros k Hk Hk'. apply load_same. intros x Hx. apply Hs. unfold in_block in *. simpl in *. lia. }
  split; [by rewrite Hl by lia|]. intros j a Hj. rewrite <-(Hsl j a Hj).
  pose proof (lookup_lt_Some _ _ _ Hj). rewrite <-!Z.add_assoc. apply Hl; lia.
Qed.

Lemma chain_same m m' sz h nodes :
  size_ok sz → (∀ a, a ∈ free nodes → same_in m m' (a, sz)) → chain m sz h nodes → chain m' sz h nodes.
Proof.
  intros Hsz. revert h. induction nodes as [|[n slots] nodes IH]; intros h Hs; [done|]. cbn [chain free] in *.
  assert (same_in m m' (n, sz)) as Hn by (apply Hs, elem_of_app; right; constructor).
  intros (-> & Hnode & Hch). split; [done|]. split; [by eapply node_same|].
  rewrite (load_same m m' n).
  - apply IH; [|done]. intros a Ha. apply Hs, elem_of_app. right. by constructor.
  - intros q Hq. apply Hn. destruct Hsz. unfold in_block in *. simpl in *. lia.
Qed.

(** Writes inside one block. *)
Definition only_in m m' (b : block) : Prop := ∀ q, ¬ in_block q b → byte_at m' q = byte_at m q.

Lemma only_in_stor m b a v : b.1 ≤ a → a + 8 ≤ b.1 + b.2 → only_in m (stor m a v) b.
Proof. intros H1 H2 q Hq. apply stor_out. unfold in_block in Hq. lia. Qed.
Lemma only_in_trans m m' m'' b : only_in m m' b → only_in m' m'' b → only_in m m'' b.
Proof. intros H1 H2 q Hq. by rewrite H2, H1. Qed.
Lemma only_in_same m m' b b' : only_in m m' b → apart b b' → same_in m m' b'.
Proof. intros H Ha q Hq. apply H. unfold in_block, apart in *. lia. Qed.

Lemma chain_only_in m m' sz h nodes b :
  size_ok sz → only_in m m' b → Forall (apart b) (as_block sz <$> free nodes) →
  chain m sz h nodes → chain m' sz h nodes.
Proof.
  intros Hsz Ho Hap. apply chain_same; [done|]. intros a Ha. eapply only_in_same; [done|].
  rewrite Forall_forall in Hap. apply (Hap (as_block sz a)). by apply list_elem_of_fmap_2.
Qed.

Lemma chain_head_u64 m sz h nodes : Forall (block_ok sz) (free nodes) → size_ok sz → chain m sz h nodes → u64 h.
Proof.
  intros Hok (H8 & _) Hch. destruct nodes as [|[n slots] nodes]; cbn [chain free] in *.
  - subst h. unfold fits. lia.
  - destruct Hch as [-> _]. apply Forall_app in Hok as [_ Hok]. apply Forall_cons_iff in Hok as [[? ?] _].
    unfold fits. lia.
Qed.
Lemma chain_empty m sz h nodes :
  Forall (block_ok sz) (free nodes) → chain m sz h nodes → h = 0 ↔ nodes = [].
Proof.
  intros Hok Hch. destruct nodes as [|[n slots] nodes]; cbn [chain free] in *; [done|].
  destruct Hch as [-> _]. apply Forall_app in Hok as [_ Hok]. apply Forall_cons_iff in Hok as [[? ?] _].
  split; [lia|done].
Qed.

(** A new node on top. *)
Lemma chain_new_node m m' sz h nodes v :
  size_ok sz → block_ok sz v → chain m sz h nodes → only_in m m' (v, sz) →
  Forall (apart (v, sz)) (as_block sz <$> free nodes) → load m' v = h →
  (16 < sz → load m' (v + 8) = slots_of sz) → chain m' sz v ((v, []) :: nodes).
Proof.
  intros Hsz Hv Hch Ho Hap Hl Hc. cbn [chain]. split; [done|]. split.
  - unfold node_at. destruct (Z.leb_spec sz 16); [done|]. unfold zlen. simpl length.
    split; [|split; [rewrite Hc by lia; lia|done]]. unfold slots_of.
    destruct Hsz as (H8 & [q Hq] & _). rewrite Hq, Z.div_mul by lia. lia.
  - rewrite Hl. by eapply chain_only_in.
Qed.

(** A used slot more in the top node. *)
Lemma chain_new_slot m sz n slots nodes v :
  size_ok sz → 16 < sz → block_ok sz v → chain m sz n ((n, slots) :: nodes) →
  Forall (apart (n, sz)) (as_block sz <$> free nodes) →
  load m (n + 8) ≠ 0 →
  let k := load m (n + 8) - 1 in
  let m' := stor (stor m (n + 8) k) (n + 16 + 8 * k) v in
  only_in m m' (n, sz) ∧ chain m' sz n ((n, v :: slots) :: nodes).
Proof.
  intros Hsz H16 Hv (_ & Hnode & Hch) Hap Hne k m'. pose proof Hsz as (H8 & [q Hq] & Hmax).
  unfold node_at in Hnode. destruct (Z.leb_spec sz 16); [lia|]. destruct Hnode as (Hle & Hc & Hsl).
  assert (slots_of sz = q - 2) as Es by (unfold slots_of; rewrite Hq, Z.div_mul by lia; done).
  unfold zlen in *. rewrite Es in *.
  assert (0 ≤ k ∧ k = q - 2 - Z.of_nat (length slots) - 1) as [Hk0 Hk] by lia.
  assert (u64 k) as Hku by (unfold fits; lia). assert (u64 v) as Hvu by (destruct Hv; unfold fits; lia).
  assert (only_in m m' (n, sz)) as Ho.
  { eapply only_in_trans; apply only_in_stor; simpl; lia. }
  split; [done|]. cbn [chain]. split; [done|]. split.
  - unfold node_at. destruct (Z.leb_spec sz 16); [lia|]. unfold zlen. cbn [length]. rewrite Es.
    split; [lia|]. unfold m'. split.
    { rewrite load_stor_ne, load_stor_eq by (done || lia). lia. }
    intros [|j] a Hj.
    + injection Hj as ->. assert (q - 2 - Z.of_nat (S (length slots)) + Z.of_nat 0 = k) as -> by lia. by apply load_stor_eq.
    + cbn in Hj. pose proof (lookup_lt_Some _ _ _ Hj). rewrite !load_stor_ne by lia.
      rewrite <-(Hsl j a Hj). f_equal. lia.
  - assert (load m' n = load m n) as ->.
    { unfold m'. by rewrite !load_stor_ne by lia. }
    by eapply chain_only_in.
Qed.
End lists.

(** * Push and pop *)
Section ops.
Implicit Types (s : Mm) (sz h a v : Z) (nodes : list (Z * list Z)) (i : nat).

(** List [i] of the state holds the blocks of [nodes]. *)
Definition holds s i sz nodes : Prop := ∃ h,
  free_lists s !! i = Some (mkFreeList h sz) ∧ size_ok sz ∧ chain (bytes s) sz h nodes ∧
  Forall (block_ok sz) (free nodes) ∧ sep (as_block sz <$> free nodes).

(** [s'] differs from [s] in the head of list [i] and in bytes of [bs]. *)
Definition list_step s s' i sz (bs : list Z) : Prop := ∃ h m,
  s' = set_free_lists (<[i := mkFreeList h sz]> (free_lists s)) (set_bytes m s) ∧
  ∀ q, (∀ a, a ∈ bs → ¬ in_block q (a, sz)) → byte_at m q = byte_at (bytes s) q.

Lemma run_get_list s i l : free_lists s !! i = Some l → get_list i s = Ok (l, s).
Proof. intros H. unfold get_list, lift, index. by rewrite H. Qed.
Lemma run_set_head s i l h :
  free_lists s !! i = Some l →
  set_head i h s = Ok (tt, set_free_lists (<[i := mkFreeList h (block_size l)]> (free_lists s)) s).
Proof. intros H. unfold set_head. by rewrite H. Qed.

Lemma slots_run sz : size_ok sz → 16 < sz → available_slots sz = Ok (slots_of sz).
Proof.
  intros (H8 & [q Hq] & _) H16. unfold available_slots, slots_of. change (NODE_SIZE / 8) with 2.
  rewrite Hq, Z.div_mul by lia. by rewrite sub_Ok by lia.
Qed.

Lemma holds_intro s h m i sz nodes :
  (i < length (free_lists s))%nat → size_ok sz → chain m sz h nodes →
  Forall (block_ok sz) (free nodes) → sep (as_block sz <$> free nodes) →
  holds (set_free_lists (<[i := mkFreeList h sz]> (free_lists s)) (set_bytes m s)) i sz nodes.
Proof.
  intros Hi Hsz Hch Hok Hsep. exists h. split; [|done]. simpl. by apply list_lookup_insert_eq.
Qed.

(** A block that becomes the top node. *)
Lemma new_node_ok s i sz h nodes v :
  free_lists s !! i = Some (mkFreeList h sz) → size_ok sz → chain (bytes s) sz h nodes →
  Forall (block_ok sz) (v :: free nodes) → sep (as_block sz <$> v :: free nodes) →
  let m := if sz <=? 16 then stor (bytes s) v h else stor (stor (bytes s) (v + 8) (slots_of sz)) v h in
  let s' := set_free_lists (<[i := mkFreeList v sz]> (free_lists s)) (set_bytes m s) in
  set_head i v (set_bytes m s) = Ok (tt, s') ∧
  holds s' i sz ((v, []) :: nodes) ∧ list_step s s' i sz (v :: free nodes).
Proof.
  intros Hl Hsz Hch Hok Hsep m s'. pose proof Hsz as (H8 & [q Hq] & Hmax).
  pose proof (lookup_lt_Some _ _ _ Hl) as Hi.
  pose proof (chain_head_u64 _ _ _ _ (Forall_inv_tail Hok) Hsz Hch) as Hh.
  assert (only_in (bytes s) m (v, sz)) as Ho.
  { unfold m. destruct (Z.leb_spec sz 16); [|eapply only_in_trans]; apply only_in_stor; simpl; lia. }
  split; [exact (run_set_head (set_bytes m s) i _ v Hl)|]. split.
  - apply holds_intro; try done. apply (chain_new_node (bytes s) m sz h); try done.
    + by apply Forall_inv in Hok.
    + apply Hsep.
    + unfold m. destruct (sz <=? 16); by apply load_stor_eq.
    + intros H16. unfold m. destruct (Z.leb_spec sz 16); [lia|].
      rewrite load_stor_ne, load_stor_eq; [done| |lia].
      unfold fits, slots_of. rewrite Hq, Z.div_mul by lia. lia.
  - exists v, m. split; [done|]. intros x Hx. apply Ho, Hx. constructor.
Qed.

(** [push] puts a block on top of the stack. *)
Lemma push_ok s i sz nodes v :
  holds s i sz nodes → block_ok sz v → Forall (apart (v, sz)) (as_block sz <$> free nodes) →
  ∃ s' nodes', push i v s = Ok (tt, s') ∧ free nodes' = v :: free nodes ∧ holds s' i sz nodes' ∧
    list_step s s' i sz (v :: free nodes).
Proof.
  intros (h & Hl & Hsz & Hch & Hok & Hsep) Hv Hap. pose proof (lookup_lt_Some _ _ _ Hl) as Hi.
  assert (Forall (block_ok sz) (v :: free nodes)) as Hok' by (by constructor).
  assert (sep (as_block sz <$> v :: free nodes)) as Hsep' by (split; done).
  unfold push. rewrite (M_bind_Ok _ _ _ _ _ (run_get_list _ _ _ Hl)). cbn [head block_size].
  unfold NODE_SIZE, NEXT, FREE_SLOTS, FREE_ADDRS. rewrite Z.add_0_r.
  destruct (Z.leb_spec sz 16) as [H16|H16].
  - pose proof (new_node_ok s i sz h nodes v Hl Hsz Hch Hok' Hsep') as Hnew. cbv zeta in Hnew.
    rewrite (proj2 (Z.leb_le sz 16)) in Hnew by lia. destruct Hnew as (E & H1 & H2).
    eexists _, ((v, []) :: nodes). split; [|split; [done|split; [exact H1|exact H2]]].
    by rewrite (M_bind_Ok _ _ _ tt (set_bytes (stor (bytes s) v h) s)).
  - set (new := (slots ← lift (available_slots sz); _ ← write (v + 8) slots; _ ← write v h; set_head i v)).
    assert (∃ s' nodes', new s = Ok (tt, s') ∧ free nodes' = v :: free nodes ∧ holds s' i sz nodes' ∧
      list_step s s' i sz (v :: free nodes)) as Hnew.
    { pose proof (new_node_ok s i sz h nodes v Hl Hsz Hch Hok' Hsep') as Hnew. cbv zeta in Hnew.
      rewrite (proj2 (Z.leb_gt sz 16)) in Hnew by lia. destruct Hnew as (E & H1 & H2).
      eexists _, ((v, []) :: nodes). split; [|split; [done|split; [exact H1|exact H2]]].
      unfold new. by rewrite (M_bind_Ok _ _ _ (slots_of sz) s) by (unfold lift; by rewrite slots_run). }
    destruct nodes as [|[n slots] nodes].
    { cbn [chain] in Hch. subst h. exact Hnew. }
    pose proof Hch as (-> & _ & _).
    assert (n ≠ 0) as Hn0. { pose proof (chain_empty _ _ _ _ Hok Hch). naive_solver. }
    rewrite (proj2 (Z.eqb_neq n 0)) by done.
    rewrite (M_bind_Ok _ _ _ (load (bytes s) (n + 8) =? 0) s) by done.
    destruct (Z.eqb_spec (load (bytes s) (n + 8)) 0) as [Hz|Hz]; [exact Hnew|].
    cbn [free fmap list_fmap] in Hsep. rewrite fmap_app in Hsep. apply sep_app in Hsep as (_ & [Hap' _] & _).
    destruct (chain_new_slot (bytes s) sz n slots nodes v Hsz H16 Hv Hch Hap' Hz) as [Ho Hch'].
    set (k := load (bytes s) (n + 8) - 1) in *. set (m := stor (stor _ _ k) _ v) in *.
    exists (set_free_lists (<[i := mkFreeList n sz]> (free_lists s)) (set_bytes m s)), ((n, v :: slots) :: nodes).
    split; [|split; [done|split]].
    + rewrite (M_bind_Ok _ _ _ (load (bytes s) (n + 8)) s) by done.
      assert (0 < load (bytes s) (n + 8)) as Hpos.
      { destruct Hch as (_ & Hnode & _). unfold node_at in Hnode.
        destruct (Z.leb_spec sz 16); [lia|]. destruct Hnode as (? & ? & _). lia. }
      rewrite (M_bind_Ok _ _ _ k s) by (unfold lift; by rewrite sub_Ok by lia).
      rewrite (M_bind_Ok _ _ _ tt (set_bytes (stor (bytes s) (n + 8) k) s)) by done.
      unfold write. cbn [bytes set_bytes]. fold m. rewrite list_insert_id by done. by destruct s.
    + by apply holds_intro.
    + exists n, m. split; [done|]. intros x Hx. apply Ho, Hx. right. cbn [free].
      apply elem_of_app. right. constructor.
Qed.

(** [pop_block] takes the block on top. *)
Lemma pop_block_ok s i sz nodes a rest :
  holds s i sz nodes → free nodes = a :: rest →
  ∃ s' nodes', pop_block i s = Ok (a, s') ∧ free nodes' = rest ∧ holds s' i sz nodes' ∧
    list_step s s' i sz (free nodes).
Proof.
  intros (h & Hl & Hsz & Hch & Hok & Hsep) Hfr. pose proof Hsz as (H8 & [q Hq] & Hmax).
  pose proof (lookup_lt_Some _ _ _ Hl) as Hi.
  rewrite Hfr in Hok, Hsep. apply Forall_cons_iff in Hok as [Ha Hok]. destruct Hsep as [Hap Hsep].
  destruct nodes as [|[n slots] nodes]; [done|]. cbn [free] in *. pose proof Hch as (-> & Hnode & Hnext).
  unfold pop_block. rewrite (M_bind_Ok _ _ _ _ _ (run_get_list _ _ _ Hl)). cbn [head block_size].
  unfold NODE_SIZE, NEXT, FREE_SLOTS, FREE_ADDRS. rewrite Z.add_0_r.
  set (top := (next ← read n; _ ← set_head i next; mret n)).
  assert (slots = [] → ∃ s' nodes', top s = Ok (a, s') ∧ free nodes' = rest ∧ holds s' i sz nodes' ∧
    list_step s s' i sz (slots ++ n :: free nodes)) as Htop.
  { intros ->. injection Hfr as <- <-.
    exists (set_free_lists (<[i := mkFreeList (load (bytes s) n) sz]> (free_lists s)) (set_bytes (bytes s) s)),
      nodes. split; [|split; [done|split]].
    - unfold top. rewrite (M_bind_Ok _ _ _ (load (bytes s) n) s) by done.
      rewrite (M_bind_Ok _ _ _ _ _ (run_set_head s i _ _ Hl)). by destruct s.
    - by apply holds_intro.
    - eexists _, _. split; [done|]. done. }
  unfold node_at in Hnode. destruct (Z.leb_spec sz 16) as [H16|H16]; [by apply Htop|].
  destruct Hnode as (Hle & Hc & Hsl). unfold zlen in *.
  rewrite (M_bind_Ok _ _ _ (slots_of sz) s) by (unfold lift; by rewrite slots_run).
  rewrite (M_bind_Ok _ _ _ (load (bytes s) (n + 8)) s) by done. rewrite Hc.
  destruct slots as [|a' slots]; cbn [length] in *.
  { rewrite (proj2 (Z.ltb_ge _ _)) by lia. by apply Htop. }
  rewrite (proj2 (Z.ltb_lt _ _)) by lia. injection Hfr as -> <-.
  set (k := slots_of sz - Z.of_nat (S (length slots))) in *.
  assert (slots_of sz = q - 2) as Es by (unfold slots_of; rewrite Hq, Z.div_mul by lia; done).
  assert (load (bytes s) (n + 16 + 8 * k) = a) as Hla.
  { rewrite <-(Hsl 0%nat a eq_refl). f_equal. lia. }
  set (m := stor (bytes s) (n + 8) (k + 1)).
  assert (only_in (bytes s) m (n, sz)) as Ho by (apply only_in_stor; simpl; lia).
  assert (Forall (apart (n, sz)) (as_block sz <$> free nodes)) as Hapn.
  { rewrite fmap_app in Hsep. by apply sep_app in Hsep as (_ & [? _] & _). }
  exists (set_free_lists (<[i := mkFreeList n sz]> (free_lists s)) (set_bytes m s)), ((n, slots) :: nodes).
  split; [|split; [done|split]].
  - rewrite (M_bind_Ok _ _ _ a s) by (unfold read; by rewrite Hla).
    rewrite (M_bind_Ok _ _ _ (k + 1) s) by (unfold lift; by rewrite add_Ok by lia).
    rewrite (M_bind_Ok _ _ _ tt (set_bytes m s)) by done. rewrite list_insert_id by done. by destruct s.
  - apply holds_intro; try done. cbn [chain]. split; [done|]. split.
    + unfold node_at. destruct (Z.leb_spec sz 16); [lia|]. unfold zlen. split; [lia|]. unfold m. split.
      * rewrite load_stor_eq by (unfold fits; lia). lia.
      * intros j b Hj. pose proof (lookup_lt_Some _ _ _ Hj). rewrite load_stor_ne by lia.
        rewrite <-(Hsl (S j) b Hj). f_equal. lia.
    + unfold m at 2. rewrite load_stor_ne by lia. by eapply chain_only_in.
  - exists n, m. split; [done|]. intros x Hx. apply Ho, Hx.
    apply elem_of_app. right. constructor.
Qed.
End ops.

(** * The heap *)
Section heap.
Implicit Types (s : Mm) (a v p : Z) (nodes : list (Z * list Z)) (i j : nat) (ns : list (list (Z * list Z))).
Implicit Types (live : list block) (b : block).

(** The block size of list [i]. *)
Definition bsize (i : nat) : Z := 2 ^ (Z.of_nat i + 3).

(** The free blocks of the lists from [k] on. *)
Fixpoint all_free (k : nat) ns : list block :=
  match ns with [] => [] | nodes :: ns => (as_block (bsize k) <$> free nodes) ++ all_free (S k) ns end.

Definition numa_ok s : Prop := ∃ prefer, mem_range s = Ok (prefer, s) ∧ ∀ g, prefer = Some g → wf g.

(** [live]: the blocks handed out.  Free blocks, blocks handed out and free
    physical memory never overlap. *)
Record heap s ns live : Prop := {
  hp_len : length ns = 61%nat;
  hp_lists i nodes : ns !! i = Some nodes → holds s i (bsize i) nodes;
  hp_live : Forall (λ b, 0 < b.2 ∧ block_ok b.2 b.1) live;
  hp_sep : sep (live ++ all_free 0 ns);
  hp_mem : ∃ rs, free_memory s = Some rs ∧ wf rs ∧ (∀ x, has rs x → x < KERNEL_PHYS_WINDOW_SIZE) ∧
    ∀ b x, b ∈ live ++ all_free 0 ns → in_block x b → ¬ has rs (x - KERNEL_PHYS_WINDOW_BASE);
  hp_numa : numa_ok s;
}.
Definition heap_ok s live : Prop := ∃ ns, heap s ns live.

(** What an operation leaves alone. *)
Definition keeps s s' live : Prop := ∀ b, b ∈ live → same_in (bytes s) (bytes s') b.

Lemma bsize_ok i : (i < 61)%nat → size_ok (bsize i).
Proof.
  intros Hi. unfold bsize, size_ok. rewrite Z.pow_add_r by lia. change (2 ^ 3) with 8.
  pose proof (Z.pow_pos_nonneg 2 (Z.of_nat i) ltac:(lia) ltac:(lia)).
  assert (2 ^ Z.of_nat i ≤ 2 ^ 60) by (apply Z.pow_le_mono_r; lia).
  split; [lia|]. split; [by exists (2 ^ Z.of_nat i)|]. lia.
Qed.

(** The free blocks with list [i] singled out. *)
Lemma all_free_split k ns i nodes :
  ns !! i = Some nodes → ∃ others,
    (∀ nodes', all_free k (<[i := nodes']> ns) ≡ₚ (as_block (bsize (k + i)) <$> free nodes') ++ others) ∧
    (∀ j nodes', j ≠ i → ns !! j = Some nodes' → ∀ a, a ∈ free nodes' → as_block (bsize (k + j)) a ∈ others).
Proof.
  revert k i. induction ns as [|nodes0 ns IH]; intros k i Hi; [done|]. destruct i as [|i].
  - exists (all_free (S k) ns). rewrite Nat.add_0_r. split; [done|].
    intros [|j] nodes' Hj Hns a Ha; [done|]. clear IH Hi. revert k j Hj Hns.
    induction ns as [|nodes1 ns IH]; intros k j Hj Hns; [done|]. cbn [all_free].
    apply elem_of_app. destruct j as [|j].
    + left. injection Hns as ->. replace (k + 1)%nat with (S k) by lia. by apply list_elem_of_fmap_2.
    + right. replace (k + S (S j))%nat with (S k + S j)%nat by lia. by apply IH.
  - destruct (IH (S k) i Hi) as (others & Hp & Ho).
    exists ((as_block (bsize k) <$> free nodes0) ++ others). split.
    + intros nodes'. change (all_free k (<[S i := nodes']> (nodes0 :: ns)))
        with ((as_block (bsize k) <$> free nodes0) ++ all_free (S k) (<[i := nodes']> ns)). rewrite Hp.
      replace (k + S i)%nat with (S k + i)%nat by lia. by rewrite Permutation_app_swap_app.
    + intros [|j] nodes' Hj Hns a Ha; apply elem_of_app.
      * left. injection Hns as ->. rewrite Nat.add_0_r. by apply list_elem_of_fmap_2.
      * right. replace (k + S j)%nat with (S k + j)%nat by lia. apply (Ho j nodes'); [lia|done|done].
Qed.

Lemma holds_other s s' i sz bs j szj nodesj :
  list_step s s' i sz bs → j ≠ i → holds s j szj nodesj →
  (∀ a c, a ∈ bs → c ∈ free nodesj → apart (a, sz) (c, szj)) → holds s' j szj nodesj.
Proof.
  intros (h & m & -> & Hm) Hj (hj & Hl & Hsz & Hch & Hok & Hsep) Hap.
  exists hj. split; [simpl; by rewrite list_lookup_insert_ne|]. split; [done|]. split; [|done].
  apply (chain_same (bytes s)); [done| |done]. intros c Hc q Hq. apply Hm. intros a Ha Hq'.
  specialize (Hap a c Ha Hc). unfold apart, in_block in *. simpl in *. lia.
Qed.

Lemma numa_step s s' :
  apic_to_mem_range s' = apic_to_mem_range s → apic_id s' = apic_id s → numa_ok s → numa_ok s'.
Proof.
  intros E1 E2 (prefer & Hm & Hw). exists prefer. split; [|done]. revert Hm. unfold mem_range. rewrite E1, E2.
  destruct (apic_to_mem_range s) as [mp|]; [|by intros [= ->]].
  destruct (apic_id s) as [x|]; [|by intros [= ->]].
  unfold lift. destruct (index mp (Z.to_nat x)); try done. by intros [= ->].
Qed.

(** A step of one list on the heap: the blocks [bs] it touches are free or handed
    out before and after, and the blocks [L] are handed out all along. *)
Lemma heap_step s s' ns i nodes nodes' live live' bs L :
  let sz := bsize i in
  heap s ns live → ns !! i = Some nodes → holds s' i sz nodes' → list_step s s' i sz bs →
  live ++ (as_block sz <$> free nodes) ≡ₚ (as_block sz <$> bs) ++ L →
  live' ++ (as_block sz <$> free nodes') ≡ₚ (as_block sz <$> bs) ++ L →
  Forall (λ b, 0 < b.2 ∧ block_ok b.2 b.1) live' →
  heap s' (<[i := nodes']> ns) live' ∧ keeps s s' L.
Proof.
  intros sz Hh Hi Hh' Hst Hold Hnew Hlive.
  destruct (all_free_split 0 ns i nodes Hi) as (others & Hp & Hoth). cbn [Nat.add] in Hp, Hoth.
  pose proof (Hp nodes) as Hpn. rewrite list_insert_id in Hpn by done. fold sz in Hp, Hpn.
  assert (live ++ all_free 0 ns ≡ₚ (as_block sz <$> bs) ++ L ++ others) as P1.
  { rewrite Hpn, (app_assoc live), Hold. by rewrite <-app_assoc. }
  assert (live' ++ all_free 0 (<[i := nodes']> ns) ≡ₚ (as_block sz <$> bs) ++ L ++ others) as P2.
  { rewrite (Hp nodes'), (app_assoc live'), Hnew. by rewrite <-app_assoc. }
  pose proof (hp_sep _ _ _ Hh) as Hsep. rewrite P1 in Hsep.
  pose proof (proj1 (sep_app _ _) Hsep) as (_ & _ & Hcross). rewrite Forall_forall in Hcross.
  assert (∀ a b, a ∈ bs → b ∈ L ++ others → apart (a, sz) b) as Hap.
  { intros a b Ha Hb. specialize (Hcross _ (list_elem_of_fmap_2 (as_block sz) _ _ Ha)).
    rewrite Forall_forall in Hcross. by apply Hcross. }
  pose proof Hst as (h & m & Es & Hm).
  split.
  - split.
    + rewrite length_insert. apply Hh.
    + intros j nodesj Hj. destruct (decide (j = i)) as [->|Hne].
      * rewrite list_lookup_insert_eq in Hj by (by eapply lookup_lt_Some). by injection Hj as <-.
      * rewrite list_lookup_insert_ne in Hj by done.
        apply (holds_other s s' i sz bs); try done; [by apply (hp_lists _ _ _ Hh)|].
        intros a c Ha Hc. apply Hap; [done|]. apply elem_of_app. right. by apply (Hoth j nodesj).
    + done.
    + by rewrite P2.
    + destruct (hp_mem _ _ _ Hh) as (rs & Hrs & Hwf & Hwin & Hdis). exists rs. subst s'.
      split; [done|]. split; [done|]. split; [done|]. intros b x Hb. apply Hdis.
      rewrite P2 in Hb. by rewrite P1.
    + apply (numa_step s); [by subst s'..|]. apply Hh.
  - intros b Hb q Hq. subst s'. simpl. apply Hm. intros a Ha Hqa.
    specialize (Hap a b Ha ltac:(apply elem_of_app; by left)).
    unfold apart, in_block in *. simpl in *. lia.
Qed.

Lemma heap_push s ns live i nodes p :
  heap s ns ((p, bsize i) :: live) → ns !! i = Some nodes →
  ∃ s' nodes', push i p s = Ok (tt, s') ∧ free nodes' = p :: free nodes ∧
    heap s' (<[i := nodes']> ns) live ∧ keeps s s' live.
Proof.
  intros Hh Hi. pose proof (hp_live _ _ _ Hh) as Hlv. apply Forall_cons_iff in Hlv as [[Hpos Hpok] Hlv].
  simpl in Hpos, Hpok.
  destruct (all_free_split 0 ns i nodes Hi) as (others & Hp & _). cbn [Nat.add] in Hp.
  specialize (Hp nodes). rewrite list_insert_id in Hp by done.
  pose proof (hp_sep _ _ _ Hh) as Hsep. rewrite Hp in Hsep. destruct Hsep as [Hap _].
  apply Forall_app in Hap as [_ Hap]. apply Forall_app in Hap as [Hap _].
  destruct (push_ok s i (bsize i) nodes p (hp_lists _ _ _ Hh _ _ Hi) Hpok Hap)
    as (s' & nodes' & E & Hfr & Hh' & Hst).
  exists s', nodes'. split; [done|]. split; [done|].
  apply (heap_step s s' ns i nodes nodes' ((p, bsize i) :: live) live (p :: free nodes) live); try done.
  - cbn [fmap list_fmap app]. by rewrite Permutation_app_comm.
  - rewrite Hfr. by rewrite Permutation_app_comm.
Qed.

Lemma heap_pop s ns live i nodes a rest :
  heap s ns live → ns !! i = Some nodes → free nodes = a :: rest →
  ∃ s' nodes', pop_block i s = Ok (a, s') ∧ free nodes' = rest ∧
    heap s' (<[i := nodes']> ns) ((a, bsize i) :: live) ∧ keeps s s' live.
Proof.
  intros Hh Hi Hfr. pose proof (hp_lists _ _ _ Hh _ _ Hi) as Hhl.
  assert (size_ok (bsize i)) as [H8 _].
  { apply bsize_ok. rewrite <-(hp_len _ _ _ Hh). by eapply lookup_lt_Some. }
  assert (block_ok (bsize i) a) as Hok.
  { destruct Hhl as (h & _ & _ & _ & Hok & _). rewrite Hfr in Hok. by apply Forall_inv in Hok. }
  destruct (pop_block_ok s i (bsize i) nodes a rest Hhl Hfr) as (s' & nodes' & E & Hfr' & Hh' & Hst).
  exists s', nodes'. split; [done|]. split; [done|].
  apply (heap_step s s' ns i nodes nodes' live ((a, bsize i) :: live) (free nodes) live); try done.
  - by rewrite Permutation_app_comm.
  - rewrite Hfr, Hfr'. cbn [fmap list_fmap app]. by rewrite Permutation_app_comm.
  - constructor; [|apply Hh]. simpl. split; [lia|done].
Qed.

Lemma all_free_pos k ns b : b ∈ all_free k ns → 0 < b.2.
Proof.
  revert k. induction ns as [|nodes ns IH]; intros k Hb; [by apply elem_of_nil in Hb|].
  apply elem_of_app in Hb as [(a & -> & _)%list_elem_of_fmap|Hb]; [|by eapply IH].
  simpl. unfold bsize. apply Z.pow_pos_nonneg; lia.
Qed.
Lemma heap_pos s ns live b : heap s ns live → b ∈ live ++ all_free 0 ns → 0 < b.2.
Proof.
  intros Hh [Hb|Hb]%elem_of_app; [|by eapply all_free_pos].
  pose proof (hp_live _ _ _ Hh) as Hlv. rewrite Forall_forall in Hlv. by apply Hlv.
Qed.

(** Blocks with no common byte are apart. *)
Lemma apart_intro b b' : 0 < b.2 → 0 < b'.2 → (∀ x, in_block x b → in_block x b' → False) → apart b b'.
Proof.
  intros H1 H2 H. destruct (decide (apart b b')) as [|Hn]; [done|]. exfalso.
  apply (H (Z.max b.1 b'.1)); unfold apart, in_block in *; lia.
Qed.

(** Why no page can be had: no entry of the free memory holds an aligned page, or all 256
    entries are used and this core has a preferred memory, where a page from the middle of
    an entry takes one entry more. *)
Definition no_page s : Prop :=
  ∃ rs prefer, free_memory s = Some rs ∧ mem_range s = Ok (prefer, s) ∧
    ((∀ e p, e ∈ RangeSet.entries rs → (4096 | p) → start e ≤ p → ¬ p + 4096 - 1 ≤ end_ e) ∨
     (in_use rs = N_RANGES ∧ is_Some prefer)).

(** A page of free physical memory becomes a block of the window. *)
Lemma heap_physical s ns live :
  heap s ns live →
  match allocate_physical 4096 4096 s with
  | Ok (None, s') => no_page s
  | Ok (Some p, s') =>
      heap s' ns ((KERNEL_PHYS_WINDOW_BASE + p, 4096) :: live) ∧ bytes s' = bytes s ∧
      0 ≤ p ∧ p + 4096 ≤ KERNEL_PHYS_WINDOW_SIZE
  | Panic => no_page s
  | _ => False
  end.
Proof.
  intros Hh. destruct (hp_mem _ _ _ Hh) as (rs & Hrs & Hwf & Hwin & Hdis).
  destruct (hp_numa _ _ _ Hh) as (prefer & Hpr & Hprw).
  unfold allocate_physical. rewrite (M_bind_Ok _ _ _ s s) by done. rewrite Hrs.
  rewrite (M_bind_Ok _ _ _ _ _ Hpr). unfold take_physical.
  destruct (allocate_cases rs 4096 4096 12 prefer Hwf ltac:(lia) ltac:(lia) eq_refl Hprw)
    as [E|[(p & rs' & -> & Hwf' & Hal & Hblk & Hsub & _)|(-> & Hfull & Hsome)]].
  { rewrite E. exists rs, prefer. split; [done|]. split; [done|]. left.
    apply (allocate_prefer_none rs 4096 4096 12 prefer rs); try done. intros e He.
    pose proof (ordered_from_In _ _ _ (proj2 (proj2 Hwf)) He).
    assert (has rs (start e)) as Hx%Hwin
      by (apply Exists_exists; exists e; split; [first [done|by apply list_elem_of_In]|unfold addr_in; lia]).
    assert (KERNEL_PHYS_WINDOW_SIZE + 8192 < 2 ^ 64) by done. lia. }
  2:{ exists rs, prefer. split; [done|]. split; [done|]. by right. }
  assert (has rs p ∧ has rs (p + 4095)) as [Hp1 Hp2] by (split; apply Hblk; lia).
  pose proof (Hwin _ Hp2) as Hp3.
  assert (0 ≤ p) as Hp0. { destruct Hwf as (_ & _ & Ho). by apply (covers_ordered _ _ _ Ho Hp1). }
  split; [|split; [done|lia]].
  assert (∀ x, in_block x (KERNEL_PHYS_WINDOW_BASE + p, 4096) → has rs (x - KERNEL_PHYS_WINDOW_BASE) ∧
    ¬ has rs' (x - KERNEL_PHYS_WINDOW_BASE)) as Hx.
  { intros x Hx. apply Hblk. unfold in_block in Hx. simpl in Hx. lia. }
  split.
  - apply Hh.
  - intros i nodes Hi. destruct (hp_lists _ _ _ Hh i nodes Hi) as (h & ?). by exists h.
  - constructor; [|apply Hh]. cbn [fst snd]. split; [lia|].
    assert (0 < KERNEL_PHYS_WINDOW_BASE ∧ (4096 | KERNEL_PHYS_WINDOW_BASE) ∧
      KERNEL_PHYS_WINDOW_BASE + KERNEL_PHYS_WINDOW_SIZE ≤ 2 ^ 64) as (W1 & W2 & W3).
    { split; [done|]. split; [by apply Z.mod_divide|done]. }
    split; [lia|]. split; [lia|]. split; [by apply Z.divide_add_r|lia].
  - cbn [app sep]. split; [|apply Hh]. apply Forall_forall. intros c Hc.
    apply apart_intro; [done|by eapply heap_pos|]. intros x Hx1 Hx2. by apply (Hdis c x), Hx.
  - exists rs'. split; [done|]. split; [done|]. split; [intros x Hx'; by apply Hwin, Hsub|].
    intros c x [->|Hc]%elem_of_cons Hin; [by apply Hx|]. intros Hh'. by apply (Hdis c x Hc Hin), Hsub.
  - apply (numa_step s); try done. apply Hh.
Qed.

(** Cutting a block handed out into pieces. *)
Fixpoint pieces (a sz : Z) (n : nat) : list block :=
  match n with O => [] | S n => (a, sz) :: pieces (a + sz) sz n end.

Lemma pieces_in a sz n b :
  0 < sz → b ∈ pieces a sz n → b.2 = sz ∧ a ≤ b.1 ∧ b.1 + sz ≤ a + Z.of_nat n * sz ∧ (sz | b.1 - a).
Proof.
  intros Hsz. revert a. induction n as [|n IH]; intros a Hb; [by apply elem_of_nil in Hb|].
  assert (0 ≤ Z.of_nat n * sz) by (apply Z.mul_nonneg_nonneg; lia).
  rewrite Nat2Z.inj_succ, Z.mul_succ_l. apply elem_of_cons in Hb as [->|Hb]; simpl.
  - split; [done|]. split; [lia|]. split; [lia|]. exists 0. lia.
  - destruct (IH (a + sz) Hb) as (H1 & H2 & H3 & [k Hk]). split; [done|]. split; [lia|]. split; [lia|].
    exists (k + 1). lia.
Qed.
Lemma pieces_sep a sz n : 0 < sz → sep (pieces a sz n).
Proof.
  intros Hsz. revert a. induction n as [|n IH]; intros a; [done|]. split; [|apply IH].
  apply Forall_forall. intros b Hb. destruct (pieces_in _ _ _ _ Hsz Hb) as (_ & H2 & _).
  unfold apart. simpl. lia.
Qed.

Lemma heap_cut s ns live a len bs :
  heap s ns ((a, len) :: live) → sep bs →
  (∀ b, b ∈ bs → 0 < b.2 ∧ block_ok b.2 b.1 ∧ a ≤ b.1 ∧ b.1 + b.2 ≤ a + len) → heap s ns (bs ++ live).
Proof.
  intros Hh Hsep Hin. pose proof (hp_sep _ _ _ Hh) as [Hap Hsep']. fold (app live) in Hap, Hsep'.
  split.
  - apply Hh.
  - apply Hh.
  - apply Forall_app. pose proof (hp_live _ _ _ Hh) as Hlv. apply Forall_inv_tail in Hlv. split; [|done].
    apply Forall_forall. intros b Hb. by destruct (Hin b Hb) as (? & ? & _).
  - rewrite <-app_assoc. apply sep_app. split; [done|]. split; [done|].
    apply Forall_forall. intros b Hb. destruct (Hin b Hb) as (_ & _ & H1 & H2).
    eapply Forall_impl; [exact Hap|]. intros c Hc. unfold apart in *. simpl in Hc. lia.
  - destruct (hp_mem _ _ _ Hh) as (rs & Hrs & Hwf & Hwin & Hdis). exists rs.
    split; [done|]. split; [done|]. split; [done|]. intros b x Hb Hx.
    rewrite <-app_assoc in Hb. apply elem_of_app in Hb as [Hb|Hb].
    + destruct (Hin b Hb) as (_ & _ & H1 & H2). apply (Hdis (a, len)); [constructor|].
      unfold in_block in *. simpl. lia.
    + apply (Hdis b); [by constructor|done].
  - apply Hh.
Qed.

Lemma keeps_trans s s' s'' live : keeps s s' live → keeps s' s'' live → keeps s s'' live.
Proof. intros H1 H2 b Hb q Hq. by rewrite (H2 b Hb q Hq), (H1 b Hb q Hq). Qed.

Lemma slice_run p sz :
  0 ≤ p → 0 < sz → p + sz ≤ KERNEL_PHYS_WINDOW_SIZE → slice_phys_mut p sz = Ok (KERNEL_PHYS_WINDOW_BASE + p).
Proof.
  intros Hp Hsz Hw. unfold slice_phys_mut, checked_sub, checked_add.
  assert (KERNEL_PHYS_WINDOW_SIZE < 2 ^ 64 ∧ KERNEL_PHYS_WINDOW_BASE + KERNEL_PHYS_WINDOW_SIZE < 2 ^ 64)
    as [W1 W2] by done.
  rewrite (proj2 (Z.leb_le 1 sz)) by lia. cbn [mbind option_bind].
  rewrite (proj2 (Z.ltb_lt (sz - 1 + p) _)) by lia. cbn [unwrap mbind res_bind].
  rewrite (proj2 (Z.ltb_lt _ KERNEL_PHYS_WINDOW_SIZE)) by lia. cbn [assert mbind res_bind].
  by rewrite add_Ok by lia.
Qed.

Lemma push_blocks_ok n s ns live i nodes p off :
  let sz := bsize i in
  heap s ns (pieces (KERNEL_PHYS_WINDOW_BASE + p + off) sz n ++ live) → ns !! i = Some nodes →
  0 ≤ p → 0 ≤ off → p + off + Z.of_nat n * sz ≤ KERNEL_PHYS_WINDOW_SIZE →
  ∃ s' nodes', push_blocks i p sz off n s = Ok (tt, s') ∧
    length (free nodes') = (n + length (free nodes))%nat ∧
    heap s' (<[i := nodes']> ns) live ∧ keeps s s' live.
Proof.
  intros sz. assert (0 < sz) as Hsz by (apply Z.pow_pos_nonneg; lia).
  assert (KERNEL_PHYS_WINDOW_SIZE < 2 ^ 64) as W1 by done.
  revert s ns nodes off. induction n as [|n IH]; intros s ns nodes off Hh Hi Hp Hoff Hw.
  { exists s, nodes. split; [done|]. split; [done|]. rewrite list_insert_id by done. done. }
  rewrite Nat2Z.inj_succ, Z.mul_succ_l in Hw.
  assert (0 ≤ Z.of_nat n * sz) by (apply Z.mul_nonneg_nonneg; lia).
  destruct (heap_push s ns _ i nodes _ Hh Hi) as (s1 & nodes1 & E1 & Hfr1 & Hh1 & Hk1).
  cbn [push_blocks]. rewrite (M_bind_Ok _ _ _ (p + off) s) by (unfold lift; by rewrite add_Ok by lia).
  rewrite (M_bind_Ok _ _ _ (KERNEL_PHYS_WINDOW_BASE + p + off) s).
  2:{ unfold lift. rewrite slice_run by lia. by rewrite Z.add_assoc. }
  rewrite (M_bind_Ok _ _ _ _ _ E1).
  destruct (IH s1 (<[i := nodes1]> ns) nodes1 (off + sz)) as (s2 & nodes2 & E2 & Hfr2 & Hh2 & Hk2);
    try lia.
  { by rewrite Z.add_assoc. }
  { apply list_lookup_insert_eq. by eapply lookup_lt_Some. }
  exists s2, nodes2. split; [done|]. split; [rewrite Hfr2, Hfr1; simpl; lia|].
  rewrite list_insert_insert_eq in Hh2. split; [done|].
  eapply keeps_trans; [|done]. intros b Hb. apply Hk1, elem_of_app. by right.
Qed.

Lemma bsize_page i : (i < 10)%nat → bsize i ≤ 4096 ∧ Z.of_nat (Z.to_nat (4096 / bsize i)) * bsize i = 4096 ∧ 0 < 4096 / bsize i
  ∧ (4096 + bsize i - 1) / bsize i = 4096 / bsize i.
Proof. intros Hi. do 10 (destruct i as [|i]; [done|]). lia. Qed.

Lemma refill_ok s ns live i nodes :
  heap s ns live → ns !! i = Some nodes → (i < 10)%nat →
  match allocate_page_for_blocks i s with
  | Ok (_, s') => ∃ nodes', (length (free nodes) < length (free nodes'))%nat ∧
      heap s' (<[i := nodes']> ns) live ∧ keeps s s' live
  | Panic => no_page s
  | _ => False
  end.
Proof.
  intros Hh Hi H10. destruct (bsize_page i H10) as (Hle & Hmul & Hpos & Hdiv).
  assert (0 < bsize i) as Hsz by (apply Z.pow_pos_nonneg; lia).
  destruct (hp_lists _ _ _ Hh i nodes Hi) as (h & Hl & _).
  unfold allocate_page_for_blocks. rewrite (M_bind_Ok _ _ _ _ _ (run_get_list _ _ _ Hl)). cbn [block_size].
  rewrite (M_bind_Ok _ _ _ tt s) by (unfold lift, assert; by rewrite (proj2 (Z.leb_le _ _)) by lia).
  pose proof (heap_physical s ns live Hh) as Hphys. unfold mbind at 1, M_bind at 1.
  destruct (allocate_physical 4096 4096 s) as [[[p|] s1]|r| |] eqn:E; [|done..].
  destruct Hphys as (Hh1 & Hby & Hp0 & Hp1). rewrite (M_bind_Ok _ _ _ p s1) by done. rewrite Hdiv.
  destruct (push_blocks_ok (Z.to_nat (4096 / bsize i)) s1 ns live i nodes p 0) as (s2 & nodes2 & E2 & Hfr & Hh2 & Hk);
    [|done|done|done|lia|].
  { eapply heap_cut; [exact Hh1|by apply pieces_sep|]. intros b Hb. rewrite Z.add_0_r in Hb.
    destruct (pieces_in _ _ _ _ Hsz Hb) as (-> & B1 & B2 & B3). rewrite Hmul in B2.
    pose proof (hp_live _ _ _ Hh1) as Hlv. apply Forall_inv in Hlv. destruct Hlv as (_ & Hb1 & Hb2 & Hb3 & Hb4).
    cbn [fst snd] in *. split; [done|]. split; [|split; [done|lia]]. split; [lia|]. split; [lia|].
    split; [|specialize (Hb4 ltac:(lia)); lia]. rewrite Z.min_l by lia. rewrite Z.min_l in Hb3 by lia.
    replace b.1 with (b.1 - (KERNEL_PHYS_WINDOW_BASE + p) + (KERNEL_PHYS_WINDOW_BASE + p)) by lia.
    apply Z.divide_add_r; [done|]. transitivity 4096; [|done]. exists (4096 / bsize i). lia. }
  rewrite E2. exists nodes2. split; [lia|]. split; [done|]. intros b Hb. rewrite <-Hby. by apply Hk.
Qed.

Lemma pop_ok fuel s ns live i nodes :
  heap s ns live → ns !! i = Some nodes → (i < 10)%nat →
  match pop fuel i s with
  | Ok (p, s') => heap_ok s' ((p, bsize i) :: live) ∧ keeps s s' live ∧
      (∀ a rest, free nodes = a :: rest → p = a)
  | Panic => free nodes = [] ∧ no_page s
  | _ => False
  end.
Proof.
  intros Hh Hi H10. destruct (hp_lists _ _ _ Hh i nodes Hi) as (h & Hl & _ & Hch & Hok & _).
  assert (pop fuel i s = if h =? 0 then (_ ← allocate_page_for_blocks i; pop_block i) s else pop_block i s) as ->.
  { destruct (bsize_page i H10) as (Hle & _).
    destruct fuel; cbn [pop]; rewrite (M_bind_Ok _ _ _ _ _ (run_get_list _ _ _ Hl)); cbn [head block_size];
      (destruct (h =? 0); [by rewrite (proj2 (Z.leb_le _ _)) by lia|done]). }
  pose proof (chain_empty _ _ _ _ Hok Hch) as Hemp.
  assert (nodes = [] ↔ free nodes = []) as Hfe.
  { destruct nodes as [|[n slots] nodes0]; [done|]. split; [done|]. cbn [free]. by destruct slots. }
  destruct (Z.eqb_spec h 0) as [Hz|Hz].
  - pose proof (refill_ok s ns live i nodes Hh Hi H10) as Hre. unfold mbind, M_bind.
    destruct (allocate_page_for_blocks i s) as [[u s1]|r| |]; [|done| |done].
    2:{ split; [|done]. tauto. }
    destruct Hre as (nodes1 & Hlen & Hh1 & Hk1).
    assert (<[i := nodes1]> ns !! i = Some nodes1) as Hi1
      by (apply list_lookup_insert_eq; by eapply lookup_lt_Some).
    destruct (free nodes1) as [|a rest] eqn:Hfr1; [simpl in Hlen; lia|].
    destruct (heap_pop s1 _ live i nodes1 a rest Hh1 Hi1 Hfr1) as (s2 & nodes2 & E2 & _ & Hh2 & Hk2).
    rewrite E2. split; [by eexists|]. split; [by eapply keeps_trans|]. intros b rest' Hfr.
    assert (free nodes = []) as Hnil by tauto. congruence.
  - destruct (free nodes) as [|a rest] eqn:Hfr; [tauto|].
    destruct (heap_pop s ns live i nodes a rest Hh Hi Hfr) as (s2 & nodes2 & E2 & _ & Hh2 & Hk2).
    rewrite E2. split; [by eexists|]. split; [done|]. intros b rest' [= -> ->]. done.
Qed.

(** The class of a size: the least power of two, of 8 at least, that holds it. *)
Definition class (size : Z) : nat := Z.to_nat (Z.log2 (Z.max size 8 - 1) - 2).

Lemma class_spec size :
  size ≤ 2 ^ 63 →
  bsize (class size) = 2 ^ (Z.log2 (Z.max size 8 - 1) + 1) ∧ size ≤ bsize (class size) ∧ (class size < 61)%nat ∧
  (size ≤ 4096 → (class size < 10)%nat).
Proof.
  intros Hs. set (x := Z.max size 8 - 1). assert (7 ≤ x < 2 ^ 63) as Hx by lia.
  pose proof (Z.log2_spec x ltac:(lia)) as [H1 H2].
  assert (2 ≤ Z.log2 x) by (change 2 with (Z.log2 7); apply Z.log2_le_mono; lia).
  assert (Z.log2 x < 63) by (apply Z.log2_lt_pow2; lia).
  assert (bsize (class size) = 2 ^ (Z.log2 x + 1)) as E.
  { unfold bsize, class. fold x. f_equal. lia. }
  split; [done|]. split; [rewrite E; unfold x in *; lia|]. unfold class. fold x. split; [lia|].
  intros Hle. assert (Z.log2 x < 12) by (apply Z.log2_lt_pow2; lia). lia.
Qed.

Lemma free_list_run size align :
  size ≤ 2 ^ 63 → align ≤ Z.min (bsize (class size)) 4096 → free_list size align = Ok (class size).
Proof.
  intros Hs Hal. destruct (class_spec size Hs) as (E & _ & Hlt & _). unfold free_list, leading_zeros.
  set (x := Z.max size 8 - 1) in *. assert (7 ≤ x < 2 ^ 63) as Hx by lia.
  assert (2 ≤ Z.log2 x) by (change 2 with (Z.log2 7); apply Z.log2_le_mono; lia).
  rewrite (proj2 (Z.eqb_neq x 0)) by lia. rewrite sub_Ok by (pose proof (Z.log2_nonneg x); lia).
  cbn [mbind res_bind]. replace (64 - (63 - Z.log2 x)) with (Z.log2 x + 1) by lia.
  assert (Z.shiftl 1 (Z.min (Z.log2 x + 1) 12) = Z.min (bsize (class size)) 4096) as ->.
  { rewrite Z.shiftl_mul_pow2, Z.mul_1_l, E by lia. change 4096 with (2 ^ 12).
    destruct (Z.min_spec (Z.log2 x + 1) 12) as [[Hc ->]|[Hc ->]].
    - rewrite Z.min_l; [done|]. apply Z.pow_le_mono_r; lia.
    - rewrite Z.min_r; [done|]. apply Z.pow_le_mono_r; lia. }
  rewrite (proj2 (Z.leb_le _ _)) by done. cbn [assert mbind res_bind].
  rewrite sub_Ok by lia. cbn [mbind res_bind]. unfold class. fold x. do 2 f_equal. lia.
Qed.

(** A list with a free block gives the one on top. *)
Lemma pop_top fuel s ns live i nodes a rest :
  heap s ns live → ns !! i = Some nodes → free nodes = a :: rest →
  ∃ s', pop fuel i s = Ok (a, s') ∧ heap_ok s' ((a, bsize i) :: live).
Proof.
  intros Hh Hi Hfr. destruct (hp_lists _ _ _ Hh i nodes Hi) as (h & Hl & _ & Hch & Hok & _).
  destruct (heap_pop s ns live i nodes a rest Hh Hi Hfr) as (s2 & nodes2 & E2 & _ & Hh2 & _).
  exists s2. split; [|by eexists].
  assert (h ≠ 0) as Hz. { intros Hz. apply (chain_empty _ _ _ _ Hok Hch) in Hz. by subst nodes. }
  destruct fuel; cbn [pop]; rewrite (M_bind_Ok _ _ _ _ _ (run_get_list _ _ _ Hl)); cbn [head];
    by rewrite (proj2 (Z.eqb_neq h 0)).
Qed.

(** C2. An allocation of at most a page, with a power-of-two alignment no larger
    than its size class, either gets a block or panics, and then no entry of the free
    physical memory holds an aligned page, or all 256 of its entries are used while the
    core has a preferred memory.  The block holds [size] bytes, is aligned, and
    overlaps no block handed out before, no free block and no free physical
    memory; what the blocks handed out contain is unchanged. *)
Theorem alloc_correct s live size align k :
  heap_ok s live → size ≤ 4096 → 0 ≤ k → align = 2 ^ k → align ≤ bsize (class size) →
  match alloc size align s with
  | Ok (p, s') =>
      size ≤ bsize (class size) ∧ (align | p) ∧ Forall (apart (p, bsize (class size))) live ∧
      heap_ok s' ((p, bsize (class size)) :: live) ∧ keeps s s' live
  | Panic => no_page s
  | _ => False
  end.
Proof.
  intros [ns Hh] Hs Hk -> Hal. destruct (class_spec size ltac:(lia)) as (E & Hfit & _ & H10).
  specialize (H10 Hs). destruct (bsize_page _ H10) as (Hle & _).
  unfold alloc. rewrite (M_bind_Ok _ _ _ (class size) s) by (unfold lift; by rewrite free_list_run by lia).
  destruct (lookup_lt_is_Some_2 ns (class size)) as [nodes Hi]; [rewrite (hp_len _ _ _ Hh); lia|].
  pose proof (pop_ok 1 s ns live _ nodes Hh Hi H10) as Hpop.
  destruct (pop 1 (class size) s) as [[p s']|r| |]; [|done|by destruct Hpop|done].
  destruct Hpop as ([ns' Hh'] & Hkeep & _). split; [done|]. split; [|split; [|split; [by exists ns'|done]]].
  - pose proof (hp_live _ _ _ Hh') as Hlv. apply Forall_inv in Hlv. destruct Hlv as (_ & _ & _ & Hd & _).
    simpl in Hd. rewrite Z.min_l in Hd by lia. transitivity (bsize (class size)); [|done].
    rewrite E in *. assert (k ≤ Z.log2 (Z.max size 8 - 1) + 1).
    { apply (Z.pow_le_mono_r_iff 2); [lia| |done]. pose proof (Z.log2_nonneg (Z.max size 8 - 1)). lia. }
    exists (2 ^ (Z.log2 (Z.max size 8 - 1) + 1 - k)). rewrite <-Z.pow_add_r by lia. f_equal. lia.
  - pose proof (hp_sep _ _ _ Hh') as [Hap _]. by apply Forall_app in Hap as [Hap _].
Qed.

(** C18. Freeing a block that was handed out always works: it is no longer handed
    out, the blocks that still are keep their contents, and the next allocation of
    the same layout gets it back. *)
Theorem dealloc_correct s live p size align :
  heap_ok s ((p, bsize (class size)) :: live) → size ≤ 2 ^ 63 → align ≤ Z.min (bsize (class size)) 4096 →
  ∃ s', dealloc p size align s = Ok (tt, s') ∧ heap_ok s' live ∧ keeps s s' live ∧
    ∃ s'', alloc size align s' = Ok (p, s'') ∧ heap_ok s'' ((p, bsize (class size)) :: live).
Proof.
  intros [ns Hh] Hs Hal. destruct (class_spec size ltac:(lia)) as (_ & _ & H61 & _).
  unfold dealloc, alloc.
  destruct (lookup_lt_is_Some_2 ns (class size)) as [nodes Hi]; [rewrite (hp_len _ _ _ Hh); lia|].
  destruct (heap_push s ns live _ nodes p Hh Hi) as (s' & nodes' & E & Hfr & Hh' & Hk).
  exists s'. split.
  { rewrite (M_bind_Ok _ _ _ (class size) s) by (unfold lift; by rewrite free_list_run). done. }
  split; [by eexists|]. split; [done|].
  destruct (pop_top 1 s' (<[class size := nodes']> ns) live (class size) nodes' p (free nodes) Hh')
    as (s'' & E'' & Hh''); [|done|].
  { apply list_lookup_insert_eq. by eapply lookup_lt_Some. }
  exists s''. split; [|done].
  rewrite (M_bind_Ok _ _ _ (class size) s') by (unfold lift; by rewrite free_list_run). done.
Qed.
End heap.
