(* ===== verification/KernelAlloc.v ===== *)
(** What the kernel allocates on top of its heap: contiguous pages, virtual
    regions and stacks, in the regions of the address-space layout. *)
From Stdlib Require Import ZArith Lia.
From stdpp Require Import prelude list numbers gmap.
From S2P Require Import Prelude Packet Ranges RangeAlloc PageTable PageMem KernelMm KernelHeap.
Import Layout.

Section contig.
Implicit Types (s : Mm) (live : list block).

(** Writing into a block that was handed out. *)
Lemma heap_write s ns a n live m :
  heap s ns ((a, n) :: live) → only_in (bytes s) m (a, n) →
  heap (set_bytes m s) ns ((a, n) :: live) ∧ keeps s (set_bytes m s) live.
Proof.
  intros Hh Ho. pose proof (hp_sep _ _ _ Hh) as [Hap _]. fold (app live) in Hap.
  apply Forall_app in Hap as [Hap1 Hap2]. rewrite Forall_forall in Hap1. split.
  - split; try apply Hh.
    + intros i nodes Hi. destruct (hp_lists _ _ _ Hh i nodes Hi) as (h & Hl & Hsz & Hch & Hok & Hsep).
      exists h. split; [done|]. split; [done|]. split; [|done]. simpl.
      apply (chain_only_in (bytes s) m (bsize i) h nodes (a, n)); try done.
      destruct (all_free_split 0 ns i nodes Hi) as (others & Hp & _). specialize (Hp nodes).
      rewrite list_insert_id in Hp by done. rewrite Hp in Hap2. by apply Forall_app in Hap2 as [? _].
    + apply (numa_step s); try done. apply Hh.
  - intros b Hb. eapply only_in_same; [exact Ho|]. by apply Hap1.
Qed.

(** A contiguous allocation of at most a page is a page: its virtual address is
    its physical address in the window, it holds the value, it overlaps nothing
    handed out, and it fails only when no page is left. *)
Theorem contig_new_correct s live val :
  heap_ok s live → 0 < zlen val ≤ 4096 →
  match contig_new val s with
  | Ok ((vaddr, paddr, size), s') =>
      size = 4096 ∧ vaddr = KERNEL_PHYS_WINDOW_BASE + paddr ∧ (4096 | paddr) ∧
      0 ≤ paddr ∧ paddr + 4096 ≤ KERNEL_PHYS_WINDOW_SIZE ∧
      (∀ k b, val !! k = Some b → byte_at (bytes s') (vaddr + Z.of_nat k) = b) ∧
      Forall (apart (vaddr, 4096)) live ∧ heap_ok s' ((vaddr, 4096) :: live) ∧ keeps s s' live
  | Panic => no_page s
  | _ => False
  end.
Proof.
  intros [ns Hh] Hlen. unfold contig_new. cbv zeta.
  rewrite (M_bind_Ok _ _ _ tt s) by (unfold lift, assert; by rewrite (proj2 (Z.ltb_lt _ _)) by lia).
  assert ((zlen val + 4096 - 1) / 4096 = 1) as Ediv.
  { symmetry. apply (Z.div_unique_pos _ _ 1 (zlen val - 1)); lia. }
  rewrite (M_bind_Ok _ _ _ (zlen val + 4096 - 1) s).
  2:{ unfold lift. rewrite add_Ok by lia. cbn [mbind res_bind]. by rewrite sub_Ok by lia. }
  rewrite Ediv. rewrite (M_bind_Ok _ _ _ 4096 s) by done.
  assert (alloc 4096 4096 s = pop 1 9 s) as Ealloc
    by (unfold alloc; by rewrite (M_bind_Ok _ _ _ 9%nat s)).
  destruct (lookup_lt_is_Some_2 ns 9) as [nodes Hi]; [rewrite (hp_len _ _ _ Hh); lia|].
  pose proof (pop_ok 1 s ns live _ nodes Hh Hi ltac:(lia)) as Hpop. change (bsize 9) with 4096 in Hpop.
  unfold mbind at 1, M_bind at 1. rewrite Ealloc.
  destruct (pop 1 9 s) as [[p s1]|r| |]; [|done|by destruct Hpop|done].
  destruct Hpop as ([ns1 Hh1] & Hk1 & _).
  pose proof (hp_live _ _ _ Hh1) as Hlv. apply Forall_inv in Hlv.
  destruct Hlv as (_ & Hp0 & _ & Hd & Hwin). cbn [fst snd] in *. specialize (Hwin ltac:(lia)).
  rewrite (M_bind_Ok _ _ _ tt s1) by (unfold lift, assert; by rewrite (proj2 (Z.eqb_neq _ _)) by lia).
  rewrite (M_bind_Ok _ _ _ (p - KERNEL_PHYS_WINDOW_BASE) s1) by (unfold lift; by rewrite sub_Ok by lia).
  rewrite (M_bind_Ok _ _ _ s1 s1) by done. set (m := put_bytes (bytes s1) p val).
  rewrite (M_bind_Ok _ _ _ tt (set_bytes m s1)) by done. cbn [mret M_ret].
  destruct (heap_write s1 ns1 p 4096 live m Hh1) as [Hh2 Hk2].
  { intros q Hq. apply put_bytes_out. unfold in_block in Hq. simpl in Hq. lia. }
  pose proof (hp_sep _ _ _ Hh1) as [Hap _]. apply Forall_app in Hap as [Hap _].
  split; [done|]. split; [lia|]. split.
  { apply Z.divide_sub_r; [done|]. by apply Z.mod_divide. }
  split; [lia|]. split; [lia|]. split; [intros k b Hb; by apply put_bytes_in|].
  split; [done|]. split; [by exists ns1|]. by eapply keeps_trans.
Qed.
End contig.

(** * Virtual regions and stacks *)
(** Virtual regions for a sequence of sizes. *)
Fixpoint receive_all (sizes : list Z) : K (list Z) :=
  match sizes with
  | [] => mret []
  | size :: sizes => v ← receive_vaddr_4k size; vs ← receive_all sizes; mret (v :: vs)
  end.

Lemma receive_ok size s v s' :
  0 ≤ next_vaddr s → receive_vaddr_4k size s = Ok (v, s') →
  v = next_vaddr s ∧ 0 < size ∧ (4096 | size) ∧ next_vaddr s' = v + REGION_PADDING + size ∧ next_vaddr s' < 2 ^ 64.
Proof.
  intros H0. unfold receive_vaddr_4k, mbind, M_bind, lift, assert, get, put, mret, M_ret.
  destruct ((0 <? size) && (Z.land size 4095 =? 0)) eqn:Ea; [|done].
  apply andb_true_iff in Ea as [Hs%Z.ltb_lt Hm%Z.eqb_eq].
  change 4095 with (2 ^ 12 - 1) in Hm. rewrite land_mask in Hm by lia.
  destruct (checked_add 64 REGION_PADDING size) as [r|] eqn:Er; [|done]. cbn [unwrap].
  unfold checked_add in Er. destruct (Z.ltb_spec (REGION_PADDING + size) (2 ^ 64)); [|done]. injection Er as <-.
  unfold checked_add. destruct (Z.ltb_spec (next_vaddr s + (REGION_PADDING + size)) (2 ^ 64)); [|done].
  cbn [unwrap]. intros [= <- <-]. split; [done|]. split; [done|]. split; [by apply Z.mod_divide|].
  unfold REGION_PADDING in *. cbn [next_vaddr set_next_vaddr]. rewrite Z.mod_small by lia. lia.
Qed.

(** The regions handed out by [receive_vaddr_4k], one after the other, never
    overlap: each is page aligned if the first is, starts where the arena stands,
    and is followed by a guard of eight pages before the next. *)
Theorem receive_vaddr_disjoint sizes s vs s' :
  0 ≤ next_vaddr s → (4096 | next_vaddr s) → receive_all sizes s = Ok (vs, s') →
  length vs = length sizes ∧ Forall (λ v, next_vaddr s ≤ v ∧ (4096 | v)) vs ∧
  sep (zip_with (λ v size, (v, size + REGION_PADDING)) vs sizes) ∧
  Forall (λ b, b.1 + b.2 ≤ next_vaddr s') (zip_with (λ v size, (v, size + REGION_PADDING)) vs sizes).
Proof.
  revert s vs. induction sizes as [|size sizes IH]; intros s vs H0 Hd; cbn [receive_all].
  { intros [= <- <-]. by repeat split; constructor. }
  unfold mbind, M_bind. destruct (receive_vaddr_4k size s) as [[v s1]| | |] eqn:E; try done.
  destruct (receive_all sizes s1) as [[vs1 s2]| | |] eqn:E1; try done. intros [= <- <-].
  destruct (receive_ok size s v s1 H0 E) as (-> & Hs & Hsd & Hn & Hmax).
  assert ((4096 | REGION_PADDING)) as Hrd by (by exists 8).
  assert (0 ≤ REGION_PADDING) as Hr0 by done.
  destruct (IH s1 vs1) as (Hlen & Hall & Hsep & Hend); [lia| |done|].
  { rewrite Hn. repeat apply Z.divide_add_r; done. }
  split; [simpl; lia|]. split.
  { constructor; [split; [lia|done]|]. eapply Forall_impl; [exact Hall|]. intros x [? ?]. split; [lia|done]. }
  cbn [zip_with sep]. split; [split; [|done]|].
  - apply Forall_forall. intros b Hb. apply elem_of_lookup_zip_with in Hb as (k & x & y & -> & Hx & Hy).
    rewrite Forall_forall in Hall. destruct (Hall x ltac:(by eapply list_elem_of_lookup_2)) as [? _].
    unfold apart. simpl. lia.
  - constructor; [|done]. cbn [fst snd].
    destruct vs1 as [|v1 vs1], sizes as [|size1 sizes]; try done.
    + cbn in E1. injection E1 as <-. lia.
    + cbn [zip_with] in Hend. apply Forall_inv in Hend. apply Forall_inv in Hall. simpl in Hend.
      assert (0 < size1).
      { cbn [receive_all] in E1. unfold mbind, M_bind in E1.
        destruct (receive_vaddr_4k size1 s1) as [[v2 s3]| | |] eqn:E3; try done.
        apply (receive_ok size1 s1 v2 s3); [lia|done]. }
      lia.
Qed.

(** * The layout *)
(** The regions of the kernel's address space, from the bottom. *)
Definition regions : list block :=
  [(KERNEL_VMEM_BASE, KERNEL_VMEM_SIZE); (KERNEL_PHYS_WINDOW_BASE, KERNEL_PHYS_WINDOW_SIZE);
   (TRAMPOLINE_ADDR, MAX_TRAMPOLINE_SIZE); (KERNEL_CODE_BASE, 2 ^ 64 - KERNEL_CODE_BASE)].

(** The regions of the layout are page aligned, lie in the upper half of the
    address space and stay apart even with the padding in front of each; the
    physical window is aligned for 1 GiB pages; the stacks end a padding below
    the lowest region. *)
Theorem layout_correct :
  Forall (λ b, (4096 | b.1) ∧ 2 ^ 64 - 2 ^ 47 ≤ b.1 - REGION_PADDING ∧ b.1 + b.2 ≤ 2 ^ 64) regions ∧
  sep ((λ b : block, (b.1 - REGION_PADDING, b.2 + REGION_PADDING)) <$> regions) ∧
  (2 ^ 30 | KERNEL_PHYS_WINDOW_BASE) ∧
  (4096 | KERNEL_STACK_BASE) ∧ (4096 | KERNEL_STACK_SIZE_PADDED) ∧
  Forall (λ b, KERNEL_STACK_BASE + REGION_PADDING ≤ b.1) regions.
Proof.
  assert (∀ a b, 0 < a → b mod a = 0 → (a | b)) as Hdiv by (intros a b Ha; apply Z.mod_divide; lia).
  split; [|split; [|split; [by apply Hdiv|split; [by apply Hdiv|split; [by apply Hdiv|]]]]].
  - repeat apply Forall_cons_2; try apply Forall_nil_2; (split; [by apply Hdiv|by vm_compute]).
  - cbn [regions fmap list_fmap sep]. repeat split; repeat apply Forall_cons_2; try apply Forall_nil_2; left; by vm_compute.
  - repeat apply Forall_cons_2; try apply Forall_nil_2; by vm_compute.
Qed.

(** [Shared::reset_stack] and [Shared::get_next_stack] *)
Definition reset_stack (next_stack : Z) : Z := KERNEL_STACK_BASE.
Definition get_next_stack (next_stack : Z) : option Z * Z :=
  (checked_sub next_stack KERNEL_STACK_SIZE_PADDED, (next_stack - KERNEL_STACK_SIZE_PADDED) mod 2 ^ 64).
Fixpoint stacks (n : nat) (next_stack : Z) : list (option Z) :=
  match n with
  | O => []
  | S n => let '(o, next) := get_next_stack next_stack in o :: stacks n next
  end.

(** The first [n] stacks exist, lie below the base of the stacks, are page
    aligned and do not overlap, each with the padding that is mapped with it, as
    long as the space below the base lasts. *)
Theorem stacks_disjoint n :
  Z.of_nat n * KERNEL_STACK_SIZE_PADDED ≤ KERNEL_STACK_BASE →
  ∃ vs, stacks n KERNEL_STACK_BASE = Some <$> vs ∧
    Forall (λ v, 0 ≤ v ∧ v + KERNEL_STACK_SIZE_PADDED ≤ KERNEL_STACK_BASE ∧ (4096 | v)) vs ∧
    sep ((λ v, (v, KERNEL_STACK_SIZE_PADDED)) <$> vs).
Proof.
  assert (∀ base, (4096 | base) → base < 2 ^ 64 → Z.of_nat n * KERNEL_STACK_SIZE_PADDED ≤ base →
    ∃ vs, stacks n base = Some <$> vs ∧
      Forall (λ v, 0 ≤ v ∧ v + KERNEL_STACK_SIZE_PADDED ≤ base ∧ (4096 | v)) vs ∧
      sep ((λ v, (v, KERNEL_STACK_SIZE_PADDED)) <$> vs)) as H.
  { set (P := KERNEL_STACK_SIZE_PADDED). assert (0 < P ∧ (4096 | P)) as [HP HPd] by (split; [done|by exists 136]).
    induction n as [|n IH]; intros base Hd Hmax Hn.
    { exists []. by repeat constructor. }
    rewrite Nat2Z.inj_succ, Z.mul_succ_l in Hn. assert (0 ≤ Z.of_nat n * P) by lia.
    cbn [stacks]. unfold get_next_stack, checked_sub. fold P. rewrite (proj2 (Z.leb_le P base)) by lia.
    rewrite Z.mod_small by lia.
    destruct (IH (base - P)) as (vs & -> & Hall & Hsep); [by apply Z.divide_sub_r|lia|lia|].
    exists ((base - P) :: vs). split; [done|]. split.
    - constructor; [split; [lia|]; split; [lia|by apply Z.divide_sub_r]|].
      eapply Forall_impl; [exact Hall|]. intros v (? & ? & ?). split; [lia|]. split; [lia|done].
    - split; [|done]. apply Forall_fmap. eapply Forall_impl; [exact Hall|]. intros v (? & ? & _).
      unfold apart. simpl. lia. }
  intros Hn. apply H; [by apply Z.mod_divide|done|done].
Qed.
Lemma stacks_disjoint_witness :
  ∃ vs, stacks 1024 KERNEL_STACK_BASE = Some <$> vs ∧
    sep ((λ v, (v, KERNEL_STACK_SIZE_PADDED)) <$> vs).
Proof.
  destruct (stacks_disjoint 1024) as (vs & E & _ & Hsep); [by vm_compute|]. by exists vs.
Defined.

(** * A first heap *)
(** 64 KiB of free memory at 1 MiB, nothing allocated. *)
Definition boot_memory : RangeSet := mkRangeSet (mkRange 0x100000 0x10FFFF :: replicate 255 (mkRange 0 0)) 1.
Definition boot : Mm := mkMm ∅ (Some boot_memory) free_lists_new KERNEL_VMEM_BASE None None None.

Lemma boot_heap : heap_ok boot [].
Proof.
  exists (replicate 61 []). split.
  - done.
  - intros i nodes Hi. apply lookup_replicate in Hi as [-> Hi]. exists 0.
    split; [|split; [by apply bsize_ok|done]]. simpl. unfold free_lists_new.
    rewrite list_lookup_fmap, lookup_seq_lt by done. done.
  - constructor.
  - assert (∀ k n, all_free k (replicate n []) = []) as -> by (intros k n; revert k; induction n; simpl; auto).
    done.
  - exists boot_memory. split; [done|]. split; [|split].
    + unfold wf. vm_compute. repeat split; try done; lia.
    + intros x Hx. unfold has, covers in Hx. cbn in Hx. apply Exists_cons in Hx as [Hx|Hx]; [|by apply Exists_nil in Hx].
      unfold addr_in in Hx. simpl in Hx. unfold KERNEL_PHYS_WINDOW_SIZE. lia.
    + assert (∀ k n, all_free k (replicate n []) = []) as -> by (intros k n; revert k; induction n; simpl; auto).
      intros b x Hb. by apply elem_of_nil in Hb.
  - exists None. by split.
Qed.

Lemma alloc_correct_witness :
  ∃ p s', alloc 2000 8 boot = Ok (p, s') ∧ (8 | p) ∧ heap_ok s' [(p, 2048)].
Proof.
  pose proof (alloc_correct boot [] 2000 8 3 boot_heap ltac:(lia) ltac:(lia) eq_refl ltac:(by vm_compute)) as H.
  destruct (alloc 2000 8 boot) as [[p s']|r| |] eqn:E; [|destruct H| |destruct H].
  - destruct H as (_ & Hd & _ & Hh & _). exists p, s'. exact (conj eq_refl (conj Hd Hh)).
  - exfalso. clear H. vm_compute in E. discriminate E.
Defined.

Lemma dealloc_correct_witness :
  ∃ p s s', alloc 2000 8 boot = Ok (p, s) ∧ dealloc p 2000 8 s = Ok (tt, s') ∧ heap_ok s' [].
Proof.
  pose proof (alloc_correct boot [] 2000 8 3 boot_heap ltac:(lia) ltac:(lia) eq_refl ltac:(by vm_compute)) as H.
  destruct (alloc 2000 8 boot) as [[p s]|r| |] eqn:E; [|destruct H| |destruct H].
  - destruct H as (_ & _ & _ & Hh & _).
    destruct (dealloc_correct s [] p 2000 8 Hh ltac:(lia) ltac:(by vm_compute)) as (s' & E' & Hh' & _).
    exists p, s, s'. exact (conj eq_refl (conj E' Hh')).
  - exfalso. clear H. vm_compute in E. discriminate E.
Defined.

Lemma contig_new_correct_witness :
  ∃ v p s', contig_new [1; 2; 3] boot = Ok ((v, p, 4096), s') ∧ v = KERNEL_PHYS_WINDOW_BASE + p ∧
    heap_ok s' [(v, 4096)].
Proof.
  pose proof (contig_new_correct boot [] [1; 2; 3] boot_heap ltac:(unfold zlen; simpl; lia)) as H.
  destruct (contig_new [1; 2; 3] boot) as [[[[v p] n] s']|r| |] eqn:E; [|destruct H| |destruct H].
  - destruct H as (-> & Hv & _ & _ & _ & _ & _ & Hh & _). exists v, p, s'. exact (conj eq_refl (conj Hv Hh)).
  - exfalso. clear H. vm_compute in E. discriminate E.
Defined.

Lemma receive_vaddr_disjoint_witness :
  ∃ vs s', receive_all [0x1000; 0x3000] boot = Ok (vs, s') ∧
    sep (zip_with (λ v size, (v, size + REGION_PADDING)) vs [0x1000; 0x3000]).
Proof.
  destruct (receive_all [0x1000; 0x3000] boot) as [[vs s']|r| |] eqn:E;
    [|exfalso; vm_compute in E; discriminate E..].
  assert ((4096 | next_vaddr boot)) as Hd by (by apply Z.mod_divide).
  assert (0 ≤ next_vaddr boot) as H0 by done.
  destruct (receive_vaddr_disjoint [0x1000; 0x3000] boot vs s' H0 Hd E) as (_ & _ & Hsep & _).
  exists vs, s'. exact (conj eq_refl Hsep).
Defined.

(** * NUMA *)
Lemma assign_other ad md ms ms' x :
  assign_domains ad md ms = Ok ms' → x ∉ (Z.to_nat <$> ad.*1) → ms' !! x = ms !! x.
Proof.
  revert md ms. induction ad as [|[apic dom] ad IH]; intros md ms; cbn [assign_domains].
  { by intros [= ->]. }
  intros E Hx. cbn [fmap list_fmap fst] in Hx. apply not_elem_of_cons in Hx as [Hne Hx].
  unfold store in E. destruct (Z.to_nat apic <? length ms)%nat; [|done]. cbn [mbind res_bind] in E.
  rewrite (IH _ _ E Hx). by apply list_lookup_insert_ne.
Qed.

(** [register_numa] gives a core the memory ranges of its domain only if no core
    before it is of the same domain: the others get none. *)
Theorem register_numa_first ad md n ms k apic dom :
  NoDup (Z.to_nat <$> ad.*1) → assign_domains ad md (replicate n None) = Ok ms →
  ad !! k = Some (apic, dom) →
  ms !! Z.to_nat apic = Some (if bool_decide (dom ∈ (take k ad).*2) then None else md !! dom).
Proof.
  generalize (replicate n (@None RangeSet)). revert md k.
  induction ad as [|[a d] ad IH]; intros md k ms0 Hnd E Hk; [done|].
  cbn [fmap list_fmap fst] in Hnd. apply NoDup_cons in Hnd as [Hni Hnd].
  cbn [assign_domains] in E. unfold store in E.
  destruct (Nat.ltb_spec (Z.to_nat a) (length ms0)) as [Hlt|]; [|done]. cbn [mbind res_bind] in E.
  destruct k as [|k].
  - injection Hk as -> ->. rewrite (assign_other _ _ _ _ _ E Hni). cbn [take fmap list_fmap].
    rewrite bool_decide_false by apply not_elem_of_nil. by apply list_lookup_insert_eq.
  - rewrite (IH (delete d md) k _ Hnd E Hk). f_equal. cbn [take fmap list_fmap snd].
    destruct (decide (dom = d)) as [->|Hne].
    + rewrite lookup_delete_eq, (bool_decide_true (d ∈ d :: _)) by constructor. by destruct (bool_decide _).
    + rewrite lookup_delete_ne by done. erewrite (bool_decide_ext (dom ∈ d :: _)); [done|].
      rewrite elem_of_cons. naive_solver.
Qed.
Lemma register_numa_first_witness :
  ∃ ms, assign_domains [(0, 7); (1, 7)] {[ 7 := boot_memory ]} (replicate 2 None) = Ok ms ∧
    ms !! 0%nat = Some (Some boot_memory) ∧ ms !! 1%nat = Some None.
Proof.
  eexists. split; [reflexivity|].
  assert (NoDup (Z.to_nat <$> [(0, 7); (1, 7)].*1)) as Hnd by (repeat constructor; set_solver).
  split.
  - exact (register_numa_first [(0, 7); (1, 7)] {[ 7 := boot_memory ]} 2 _ 0 0 7 Hnd eq_refl eq_refl).
  - exact (register_numa_first [(0, 7); (1, 7)] {[ 7 := boot_memory ]} 2 _ 1 1 7 Hnd eq_refl eq_refl).
Defined.
