(* ===== verification/Sync.v ===== *)
(** Synchronisation: shared/spinlock, shared/oncelock, shared/autorefcount and the
    nesting of interrupt masks of kernel/src/core_locals.rs.

    An atomic operation is one step; the threads (a core, or an interrupt handler
    on it) interleave their steps in any order.  Masking is modelled instruction by
    instruction, with the stack of handlers on a core. *)
From Stdlib Require Import ZArith Lia.
From stdpp Require Import prelude list numbers relations.
From S2P Require Import Prelude.

(** [AtomicUsize::fetch_add] and [fetch_sub]: the old value, and the new one wrapped. *)
Definition fetch_add (x n : Z) : Z * Z := (x, (x + n) mod 2 ^ 64).
Definition fetch_sub (x n : Z) : Z * Z := (x, (x - n) mod 2 ^ 64).

(** * The ticket lock *)
Module SpinLock.
Section spinlock.
Context {A : Type}.

Record SpinLock := mkSpinLock { ticket : Z; release : Z; disable_interrupts : bool; value : A }.

Definition new (v : A) : SpinLock := mkSpinLock 0 0 false v.
Definition new_no_preempt (v : A) : SpinLock := mkSpinLock 0 0 true v.

(** The atomic steps of [lock]: the assertion, the ticket, one turn of the loop. *)
Definition may_lock (self : SpinLock) (in_interrupt : bool) : res unit unit :=
  assert (disable_interrupts self || negb in_interrupt).
Definition take_ticket (self : SpinLock) : Z * SpinLock :=
  let '(t, next) := fetch_add (ticket self) 1 in
  (t, mkSpinLock next (release self) (disable_interrupts self) (value self)).
Definition is_turn (self : SpinLock) (t : Z) : bool := t =? release self.

(** The guard: access to the value, and the drop. *)
Definition deref_mut (self : SpinLock) (f : A → A) : SpinLock :=
  mkSpinLock (ticket self) (release self) (disable_interrupts self) (f (value self)).
Definition drop_guard (self : SpinLock) : SpinLock :=
  mkSpinLock (ticket self) (fetch_add (release self) 1).2 (disable_interrupts self) (value self).

(** Where a thread is: outside, in the loop of [lock], or with the guard. *)
Inductive phase := Idle | Spinning (t : Z) | Holding.
Definition state : Type := SpinLock * list phase.

Inductive event := Take (i : nat) | Spin (i : nat) | Acquire (i : nat) | Access (i : nat) | Release (i : nat).

Inductive step : event → state → state → Prop :=
  | step_ticket lk ps i t lk' :
      ps !! i = Some Idle → take_ticket lk = (t, lk') → step (Take i) (lk, ps) (lk', <[i := Spinning t]> ps)
  | step_spin lk ps i t :
      ps !! i = Some (Spinning t) → is_turn lk t = false → step (Spin i) (lk, ps) (lk, ps)
  | step_acquire lk ps i t :
      ps !! i = Some (Spinning t) → is_turn lk t = true → step (Acquire i) (lk, ps) (lk, <[i := Holding]> ps)
  | step_access lk ps i f :
      ps !! i = Some Holding → step (Access i) (lk, ps) (deref_mut lk f, ps)
  | step_drop lk ps i :
      ps !! i = Some Holding → step (Release i) (lk, ps) (drop_guard lk, <[i := Idle]> ps).

Inductive run : state → list event → state → Prop :=
  | run_nil st : run st [] st
  | run_snoc st evs st1 e st2 : run st evs st1 → step e st1 st2 → run st (evs ++ [e]) st2.

Definition start (lk : SpinLock) (n : nat) : state := (lk, replicate n Idle).

(** ** The lock as a queue *)
(** [q]: the threads that wait or hold, in the order of their tickets; only the
    first may hold. *)
Record queue (st : state) (q : list nat) : Prop := {
  q_nodup : NoDup q;
  q_release : 0 ≤ release st.1 < 2 ^ 64;
  q_ticket : ticket st.1 = (release st.1 + zlen q) mod 2 ^ 64;
  q_in j i : q !! j = Some i →
    st.2 !! i = Some (Spinning ((release st.1 + Z.of_nat j) mod 2 ^ 64)) ∨
    (j = 0%nat ∧ st.2 !! i = Some Holding);
  q_out i p : st.2 !! i = Some p → p ≠ Idle → i ∈ q;
}.

Lemma queue_length st q : queue st q → zlen q ≤ zlen st.2.
Proof.
  intros Hq. unfold zlen.
  assert (q ⊆+ seq 0 (length st.2)) as Hsub.
  { apply NoDup_submseteq; [apply Hq|]. intros i [j Hj]%list_elem_of_lookup. apply elem_of_seq.
    destruct (q_in _ _ Hq j i Hj) as [H|[_ H]]; apply lookup_lt_Some in H; lia. }
  apply submseteq_length in Hsub. rewrite length_seq in Hsub. lia.
Qed.

Lemma turn_mod r j : 0 ≤ r < 2 ^ 64 → 0 ≤ j < 2 ^ 64 → (r + j) mod 2 ^ 64 = r → j = 0.
Proof.
  intros Hr Hj E. destruct (decide (r + j < 2 ^ 64)).
  - rewrite Z.mod_small in E by lia. lia.
  - assert ((r + j) mod 2 ^ 64 = r + j - 2 ^ 64); [|lia].
    symmetry. apply (Z.mod_unique_pos _ _ 1); lia.
Qed.

Lemma queue_start lk n : ticket lk = 0 → release lk = 0 → queue (start lk n) [].
Proof.
  intros Et Er. split; simpl.
  - constructor.
  - rewrite Er. lia.
  - by rewrite Et, Er.
  - done.
  - intros i p Hp. apply lookup_replicate in Hp as [-> _]. done.
Qed.

(** A thread in the queue is at one place of it. *)
Lemma queue_holding st q i : queue st q → st.2 !! i = Some Holding → ∃ q', q = i :: q'.
Proof.
  intros Hq Hi. destruct (list_elem_of_lookup_1 q i) as [j Hj]; [by eapply q_out|].
  destruct (q_in _ _ Hq j i Hj) as [H|[-> _]]; [congruence|].
  destruct q as [|i' q]; [done|]. injection Hj as ->. by exists q.
Qed.

Lemma queue_turn st q i t :
  queue st q → zlen st.2 ≤ 2 ^ 64 → st.2 !! i = Some (Spinning t) → is_turn st.1 t = true → ∃ q', q = i :: q'.
Proof.
  intros Hq Hn Hi Ht. apply Z.eqb_eq in Ht. pose proof (queue_length _ _ Hq) as Hlen.
  destruct (list_elem_of_lookup_1 q i) as [j Hj]; [by eapply q_out|].
  pose proof (lookup_lt_Some _ _ _ Hj) as Hlt. unfold zlen in *.
  destruct (q_in _ _ Hq j i Hj) as [H|[-> H]]; [|congruence].
  rewrite Hi in H. injection H as H. rewrite Ht in H. pose proof (q_release _ _ Hq).
  assert (Z.of_nat j = 0) as Hj0 by (apply (turn_mod (release st.1)); [done|lia|done]).
  destruct j; [|lia]. destruct q as [|i' q]; [done|]. injection Hj as ->. by exists q.
Qed.

Lemma queue_spinning_ne st q i t j :
  queue st q → st.2 !! i = Some Idle → q !! j = Some t → t ≠ i.
Proof.
  intros Hq Hi Hj ->. destruct (q_in _ _ Hq j i Hj) as [H|[_ H]]; congruence.
Qed.

(** The steps on the queue: a ticket is a place at the end, a release takes the
    first out, nothing else changes it. *)
Lemma queue_take lk ps q i t lk' :
  queue (lk, ps) q → ps !! i = Some Idle → take_ticket lk = (t, lk') →
  queue (lk', <[i := Spinning t]> ps) (q ++ [i]).
Proof.
  intros Hq Hi E. injection E as <- <-. pose proof (lookup_lt_Some _ _ _ Hi) as Hlt.
  pose proof (q_ticket _ _ Hq) as Et. simpl in Et. split; simpl.
  - apply NoDup_app. split; [apply Hq|]. split; [|apply NoDup_singleton].
    intros x [j Hj]%list_elem_of_lookup Hx%list_elem_of_singleton. by eapply (queue_spinning_ne _ q i x j Hq Hi).
  - apply Hq.
  - rewrite Et. unfold zlen. rewrite length_app. simpl length.
    rewrite Nat2Z.inj_add, Z.add_mod_idemp_l by lia. f_equal. lia.
  - intros j x Hj. apply lookup_app_Some in Hj as [Hj|[Hge Hj]].
    + pose proof (queue_spinning_ne _ q i x j Hq Hi Hj) as Hne.
      rewrite list_lookup_insert_ne by done. by apply (q_in _ _ Hq).
    + apply list_lookup_singleton_Some in Hj as [Hj0 ->]. left. rewrite list_lookup_insert_eq by done.
      rewrite Et. unfold zlen. do 4 f_equal. lia.
  - intros x p Hx Hp. apply elem_of_app. destruct (decide (x = i)) as [->|Hne]; [right; constructor|].
    rewrite list_lookup_insert_ne in Hx by done. left. by eapply (q_out _ _ Hq).
Qed.

Lemma queue_acquire lk ps q i :
  queue (lk, ps) (i :: q) → ps !! i ≠ None → queue (lk, <[i := Holding]> ps) (i :: q).
Proof.
  intros Hq Hi. assert (i < length ps)%nat as Hlt by (by apply lookup_lt_is_Some, not_eq_None_Some).
  split; simpl; try apply Hq.
  - intros j x Hj. destruct (decide (x = i)) as [->|Hne].
    + right. assert (j = 0%nat) as -> by (eapply NoDup_lookup; [apply Hq|done|done]).
      by rewrite list_lookup_insert_eq.
    + rewrite list_lookup_insert_ne by done. by apply (q_in _ _ Hq).
  - intros x p Hx Hp. destruct (decide (x = i)) as [->|Hne]; [constructor|].
    rewrite list_lookup_insert_ne in Hx by done. by eapply (q_out _ _ Hq).
Qed.

Lemma queue_drop lk ps q i :
  queue (lk, ps) (i :: q) → ps !! i = Some Holding → queue (drop_guard lk, <[i := Idle]> ps) q.
Proof.
  intros Hq Hi. pose proof (lookup_lt_Some _ _ _ Hi) as Hlt.
  pose proof (q_nodup _ _ Hq) as [Hni Hnd]%NoDup_cons. pose proof (q_ticket _ _ Hq) as Et. simpl in Et.
  split; simpl.
  - done.
  - apply Z.mod_pos_bound. lia.
  - rewrite Et. unfold zlen. rewrite Z.add_mod_idemp_l by lia. f_equal. simpl length. lia.
  - intros j x Hj. assert (x ≠ i) as Hne by (intros ->; apply Hni; by eapply list_elem_of_lookup_2).
    rewrite list_lookup_insert_ne by done. left.
    destruct (q_in _ _ Hq (S j) x Hj) as [H|[? _]]; [|done]. simpl in H. rewrite H. do 2 f_equal.
    rewrite Z.add_mod_idemp_l by lia. f_equal. lia.
  - intros x p Hx Hp. destruct (decide (x = i)) as [->|Hne].
    + rewrite list_lookup_insert_eq in Hx by done. congruence.
    + rewrite list_lookup_insert_ne in Hx by done.
      pose proof (q_out _ _ Hq x p Hx Hp) as Hin. by apply elem_of_cons in Hin as [->|Hin].
Qed.

(** ** Runs *)
Definition taken (evs : list event) : list nat := omap (λ e, match e with Take i => Some i | _ => None end) evs.
Definition acquired (evs : list event) : list nat :=
  omap (λ e, match e with Acquire i => Some i | _ => None end) evs.
Definition released (evs : list event) : list nat :=
  omap (λ e, match e with Release i => Some i | _ => None end) evs.

#[global] Instance phase_eq_dec : EqDecision phase.
Proof. solve_decision. Defined.

(** The thread at the front, if it has the guard, and the others. *)
Definition holders (st : state) (q : list nat) : list nat :=
  match q with i :: _ => if decide (st.2 !! i = Some Holding) then [i] else [] | [] => [] end.

Definition traced (n : nat) (evs : list event) (st : state) : Prop := ∃ q,
  queue st q ∧ length st.2 = n ∧ taken evs = released evs ++ q ∧ acquired evs = released evs ++ holders st q.

Lemma traced_step n evs st e st' :
  Z.of_nat n ≤ 2 ^ 64 → traced n evs st → step e st st' → traced n (evs ++ [e]) st'.
Proof.
  intros Hn (q & Hq & Hlen & Ht & Ha) Hs. unfold traced, taken, acquired, released in *.
  rewrite !omap_app. inversion Hs as [lk ps i t lk' Hi E|lk ps i t Hi E|lk ps i t Hi E|lk ps i f Hi|lk ps i Hi];
    subst; cbn [omap list_omap]; rewrite ?app_nil_r; simpl in Hn.
  - exists (q ++ [i]). split; [by eapply queue_take|]. split; [apply length_insert|].
    split; [by rewrite Ht, app_assoc|]. rewrite Ha. f_equal.
    destruct q as [|j q]; simpl.
    + rewrite decide_False; [done|]. rewrite list_lookup_insert_eq by (by eapply lookup_lt_Some). done.
    + rewrite list_lookup_insert_ne; [done|]. intros <-. by apply (queue_spinning_ne _ _ i i 0%nat Hq).
  - by exists q.
  - destruct (queue_turn (lk, ps) q i t Hq) as [q' ->]; [unfold zlen; simpl; lia|done|done|].
    exists (i :: q'). split; [apply queue_acquire; [done|by rewrite Hi]|]. split; [apply length_insert|].
    split; [done|]. rewrite Ha. rewrite <-app_assoc. f_equal. simpl. simpl in Hi.
    rewrite decide_False by (by rewrite Hi). rewrite decide_True; [done|].
    apply list_lookup_insert_eq. by eapply lookup_lt_Some.
  - exists q. split; [|done]. by destruct Hq.
  - destruct (queue_holding (lk, ps) q i Hq Hi) as [q' ->]. exists q'. split; [by apply queue_drop|]. split; [apply length_insert|].
    split; [by rewrite Ht, <-app_assoc|].
    rewrite Ha. simpl. rewrite decide_True by done.
    pose proof (q_nodup _ _ Hq) as [Hni _]%NoDup_cons.
    assert (holders (drop_guard lk, <[i := Idle]> ps) q' = []) as ->; [|by rewrite app_nil_r].
    destruct q' as [|j q']; [done|]. simpl. rewrite list_lookup_insert_ne by (intros ->; apply Hni; constructor).
    destruct (q_in _ _ Hq 1%nat j eq_refl) as [H|[? _]]; [|done]. simpl in H. by rewrite H.
Qed.

Lemma run_traced lk n evs st :
  ticket lk = 0 → release lk = 0 → Z.of_nat n ≤ 2 ^ 64 → run (start lk n) evs st → traced n evs st.
Proof.
  intros Et Er Hn Hr. remember (start lk n) as st0 eqn:E0. induction Hr as [st0|st0 evs st1 e st2 _ IH Hs].
  - subst st0. exists []. split; [by apply queue_start|]. split; [apply length_replicate|done].
  - eapply traced_step; [done|by apply IH|done].
Qed.

(** C8. Any run of any number of threads (fewer than 2^64) on a new lock: the guard
    is given in the order the tickets were taken, and given back in that order; at
    most one thread has it, namely the next one after those that gave it back; the
    threads in the loop of [lock] are those behind it. *)
Theorem spinlock_fifo v lk n evs st :
  lk = new v ∨ lk = new_no_preempt v → Z.of_nat n ≤ 2 ^ 64 → run (start lk n) evs st →
  ∃ hs waiting, taken evs = released evs ++ hs ++ waiting ∧ acquired evs = released evs ++ hs ∧
    (length hs ≤ 1)%nat ∧ (∀ i, st.2 !! i = Some Holding ↔ i ∈ hs) ∧
    (∀ i, (∃ t, st.2 !! i = Some (Spinning t)) ↔ i ∈ waiting).
Proof.
  intros Hlk Hn Hr.
  destruct (run_traced lk n evs st) as (q & Hq & _ & Ht & Ha); try done; [by destruct Hlk as [->| ->]..|].
  exists (holders st q), (drop (length (holders st q)) q).
  assert (q = holders st q ++ drop (length (holders st q)) q) as Eq.
  { destruct q as [|i q]; [done|]. simpl. by destruct (decide _). }
  split; [by rewrite <-Eq|]. split; [done|]. split.
  { destruct q as [|i q]; simpl; [lia|]. destruct (decide _); simpl; lia. }
  split.
  - intros i. split.
    + intros Hi. destruct (queue_holding st q i Hq Hi) as [q' ->]. simpl. rewrite decide_True by done. constructor.
    + destruct q as [|j q]; simpl; [by intros ?%elem_of_nil|]. destruct (decide _); [|by intros ?%elem_of_nil].
      by intros ->%list_elem_of_singleton.
  - intros i. split.
    + intros [t Hi]. assert (i ∈ q) as Hin by (by eapply q_out). rewrite Eq in Hin.
      apply elem_of_app in Hin as [Hin|Hin]; [|done].
      destruct q as [|j q]; simpl in Hin; [by apply elem_of_nil in Hin|].
      destruct (decide _); [|by apply elem_of_nil in Hin]. apply list_elem_of_singleton in Hin. congruence.
    + intros [j Hj]%list_elem_of_lookup. rewrite lookup_drop in Hj.
      destruct (q_in _ _ Hq _ _ Hj) as [H|[H0 H]]; [by eexists|]. exfalso.
      destruct q as [|j0 q]; [done|]. simpl in H0, Hj.
      destruct (decide (st.2 !! j0 = Some Holding)) as [|Hno]; [done|]. simpl in Hj.
      assert (j = 0%nat) as -> by done. injection Hj as ->. done.
Qed.

(** The lock never gets stuck: while a thread waits or holds, one thread can get
    the guard or give it back (so a wait ends once every guard is given back). *)
Theorem spinlock_progress v lk n evs st i p :
  lk = new v ∨ lk = new_no_preempt v → Z.of_nat n ≤ 2 ^ 64 → run (start lk n) evs st →
  st.2 !! i = Some p → p ≠ Idle →
  ∃ j st', step (Acquire j) st st' ∨ step (Release j) st st'.
Proof.
  intros Hlk Hn Hr Hi Hp.
  destruct (run_traced lk n evs st) as (q & Hq & _ & _ & _); try done; [by destruct Hlk as [->| ->]..|].
  pose proof (q_out _ _ Hq i p Hi Hp) as Hin. destruct q as [|j q]; [by apply elem_of_nil in Hin|].
  destruct st as [lk' ps]. destruct (q_in _ _ Hq 0%nat j eq_refl) as [Hj|[_ Hj]]; simpl in Hj.
  - exists j, (lk', <[j := Holding]> ps). left. econstructor; [exact Hj|]. unfold is_turn.
    apply Z.eqb_eq. rewrite Z.add_0_r. apply Z.mod_small. apply Hq.
  - exists j, (drop_guard lk', <[j := Idle]> ps). right. by constructor.
Qed.
End spinlock.
End SpinLock.

(** * Counted references *)
Module AutoRefCount.
Definition increment (self : Z) : res unit Z :=
  let '(count, self) := fetch_add self 1 in
  _ ← unwrap (checked_add 64 count 1); Ok self.
(** The drop of the guard. *)
Definition decrement (self : Z) : res unit Z :=
  let '(count, self) := fetch_sub self 1 in
  _ ← unwrap (checked_sub count 1); Ok self.
End AutoRefCount.

(** * Masking interrupts *)
Module CoreLocals.
(** A core: the requests to mask, the depths of interrupts and exceptions, and the processor's
    interrupt flag *)
Record Core := mkCore { requests : Z; depth : Z; exceptions : Z; flag : bool }.

Definition in_interrupt (self : Core) : bool := negb (depth self =? 0).
Definition set_flag (f : bool) (self : Core) : Core := mkCore (requests self) (depth self) (exceptions self) f.

(** [disable_interrupts]: the atomic request, then the instruction that masks *)
Definition request (self : Core) : res unit Core :=
  let '(x, r) := fetch_add (requests self) 1 in
  _ ← unwrap (checked_add 64 x 1);
  Ok (mkCore r (depth self) (exceptions self) (flag self)).
Definition disable_interrupts (self : Core) : res unit Core := c ← request self; Ok (set_flag false c).

(** [enable_interrupts]: the request is withdrawn; the last one unmasks, outside of interrupts *)
Definition withdraw (self : Core) : res unit (Z * Core) :=
  let '(x, r) := fetch_sub (requests self) 1 in
  _ ← unwrap (checked_sub x 1);
  Ok (x, mkCore r (depth self) (exceptions self) (flag self)).
Definition resume (x : Z) (self : Core) : Core :=
  if negb (in_interrupt self) && (x =? 1) then set_flag true self else self.
Definition enable_interrupts (self : Core) : res unit Core := '(x, c) ← withdraw self; Ok (resume x c).

(** A handler counts itself in, and out when its guard is dropped. *)
Definition enter_interrupt (self : Core) : res unit Core :=
  d ← AutoRefCount.increment (depth self); Ok (mkCore (requests self) d (exceptions self) (flag self)).
Definition leave_interrupt (self : Core) : res unit Core :=
  d ← AutoRefCount.decrement (depth self); Ok (mkCore (requests self) d (exceptions self) (flag self)).
Definition enter_exception (self : Core) : res unit Core :=
  d ← AutoRefCount.increment (exceptions self); Ok (mkCore (requests self) (depth self) d (flag self)).
Definition leave_exception (self : Core) : res unit Core :=
  d ← AutoRefCount.decrement (exceptions self); Ok (mkCore (requests self) (depth self) d (flag self)).

(** ** What runs on a core *)
(** The kernel's thread, or a handler on top of it: the flag the processor saved when it was
    entered, the locks it holds that mask interrupts, and where it is: behind the gate, in its
    code, in the midst of [disable_interrupts] or [enable_interrupts], or counted out *)
Inductive Kind := Thread | Interrupt | Exception.
Inductive Pc := Entering | Running | Disabling | Enabling (x : Z) | Leaving.
Record Activity := mkActivity { kind : Kind; saved : bool; held : nat; pc : Pc }.
#[global] Instance Kind_eq_dec : EqDecision Kind.
Proof. solve_decision. Defined.
(** The innermost activity first *)
Record Sys := mkSys { core : Core; stack : list Activity }.

Definition count_in (k : Kind) (c : Core) : res unit Core :=
  match k with Thread => Ok c | Interrupt => enter_interrupt c | Exception => enter_exception c end.
Definition count_out (k : Kind) (c : Core) : res unit Core :=
  match k with Thread => Ok c | Interrupt => leave_interrupt c | Exception => leave_exception c end.

(** One instruction of the innermost activity, or an interrupt or exception between two.  The
    processor enters a handler with the flag cleared, an interrupt only while it is set, an
    exception (or NMI) anywhere, and restores it when the handler returns; a handler gives back
    the locks it took. *)
Inductive step : Sys → res unit Sys → Prop :=
| st_request c k f h rest : step (mkSys c (mkActivity k f h Running :: rest))
    (c' ← request c; Ok (mkSys c' (mkActivity k f h Disabling :: rest)))
| st_cli c k f h rest : step (mkSys c (mkActivity k f h Disabling :: rest))
    (Ok (mkSys (set_flag false c) (mkActivity k f (S h) Running :: rest)))
| st_withdraw c k f h rest : step (mkSys c (mkActivity k f (S h) Running :: rest))
    ('(x, c') ← withdraw c; Ok (mkSys c' (mkActivity k f h (Enabling x) :: rest)))
| st_resume c k f h x rest : step (mkSys c (mkActivity k f h (Enabling x) :: rest))
    (Ok (mkSys (resume x c) (mkActivity k f h Running :: rest)))
| st_interrupt c stk : flag c = true →
    step (mkSys c stk) (Ok (mkSys (set_flag false c) (mkActivity Interrupt (flag c) 0 Entering :: stk)))
| st_exception c stk :
    step (mkSys c stk) (Ok (mkSys (set_flag false c) (mkActivity Exception (flag c) 0 Entering :: stk)))
| st_count_in c k f h rest : step (mkSys c (mkActivity k f h Entering :: rest))
    (c' ← count_in k c; Ok (mkSys c' (mkActivity k f h Running :: rest)))
| st_count_out c k f rest : k ≠ Thread → step (mkSys c (mkActivity k f 0 Running :: rest))
    (c' ← count_out k c; Ok (mkSys c' (mkActivity k f 0 Leaving :: rest)))
| st_iret c k f h rest : step (mkSys c (mkActivity k f h Leaving :: rest)) (Ok (mkSys (set_flag f c) rest)).

(** With nothing in between, the steps of an activity are the calls. *)
Lemma disable_interrupts_steps c c' k f h rest : disable_interrupts c = Ok c' →
  ∃ s, step (mkSys c (mkActivity k f h Running :: rest)) (Ok s) ∧
       step s (Ok (mkSys c' (mkActivity k f (S h) Running :: rest))).
Proof.
  unfold disable_interrupts. intros E. destruct (request c) as [c1| | |] eqn:E1; try done. injection E as <-.
  exists (mkSys c1 (mkActivity k f h Disabling :: rest)). split; [|constructor].
  pose proof (st_request c k f h rest) as Hst. by rewrite E1 in Hst.
Qed.
Lemma enable_interrupts_steps c c' k f h rest : enable_interrupts c = Ok c' →
  ∃ s, step (mkSys c (mkActivity k f (S h) Running :: rest)) (Ok s) ∧
       step s (Ok (mkSys c' (mkActivity k f h Running :: rest))).
Proof.
  unfold enable_interrupts. intros E. destruct (withdraw c) as [[x c1]| | |] eqn:E1; try done. injection E as <-.
  exists (mkSys c1 (mkActivity k f h (Enabling x) :: rest)). split; [|constructor].
  pose proof (st_withdraw c k f h rest) as Hst. by rewrite E1 in Hst.
Qed.

(** The kernel's main function asks first for interrupts to be disabled. *)
Definition main : Sys := mkSys (mkCore 1 0 0 false) [mkActivity Thread false 1 Running].
Inductive reachable : Sys → Prop :=
| reach_main : reachable main
| reach_step s s' : reachable s → step s (Ok s') → reachable s'.

(** ** The invariant *)
Definition pending (a : Activity) : nat := match pc a with Disabling => 1 | _ => 0 end.
Fixpoint total (stk : list Activity) : Z :=
  match stk with [] => 0 | a :: stk => Z.of_nat (held a + pending a) + total stk end.
Definition counted (a : Activity) : bool := match pc a with Entering | Leaving => false | _ => true end.
Definition one (k : Kind) (a : Activity) : Z := if bool_decide (kind a = k) && counted a then 1 else 0.
Fixpoint handlers (k : Kind) (stk : list Activity) : Z :=
  match stk with [] => 0 | a :: stk => one k a + handlers k stk end.

(** No lock that masks is held, and no interrupt is being handled. *)
Definition quiet (a : Activity) : Prop := held a = 0%nat ∧ ¬ (kind a = Interrupt ∧ counted a = true).
(** Whether the thread, at this point, wants interrupts *)
Definition open (a : Activity) : bool :=
  match pc a with Running | Disabling => bool_decide (held a = 0%nat) | _ => false end.

(** [f]: the flag that is set or will be restored for the innermost activity of the stack *)
Fixpoint frames (f : bool) (stk : list Activity) : Prop :=
  match stk with
  | [] => False
  | a :: rest =>
      (f = true → Forall quiet stk) ∧ (∀ x, pc a = Enabling x → x = total stk + 1) ∧ (counted a = false → held a = 0%nat) ∧
      match rest with
      | [] => kind a = Thread ∧ counted a = true ∧ f = open a
      | _ => kind a ≠ Thread ∧ (kind a = Interrupt → f = false) ∧ frames (saved a) rest
      end
  end.
Record sound (s : Sys) : Prop := {
  so_requests : requests (core s) = total (stack s) ∧ requests (core s) < 2 ^ 64;
  so_depth : depth (core s) = handlers Interrupt (stack s) ∧ depth (core s) < 2 ^ 64;
  so_exceptions : exceptions (core s) = handlers Exception (stack s) ∧ exceptions (core s) < 2 ^ 64;
  so_frames : frames (flag (core s)) (stack s);
}.

Lemma fetch_add_in x : 0 ≤ x < 2 ^ 64 - 1 → fetch_add x 1 = (x, x + 1) ∧ checked_add 64 x 1 = Some (x + 1).
Proof.
  intros Hx. unfold fetch_add, checked_add. rewrite Z.mod_small, (proj2 (Z.ltb_lt _ _)) by lia. done.
Qed.
Lemma fetch_sub_in x : 0 < x < 2 ^ 64 → fetch_sub x 1 = (x, x - 1) ∧ checked_sub x 1 = Some (x - 1).
Proof.
  intros Hx. unfold fetch_sub, checked_sub. rewrite Z.mod_small, (proj2 (Z.leb_le _ _)) by lia. done.
Qed.
Lemma fetch_add_over x : 2 ^ 64 - 1 ≤ x → unwrap (E := unit) (checked_add 64 x 1) = Panic.
Proof. intros Hx. unfold checked_add. by rewrite (proj2 (Z.ltb_ge _ _)) by lia. Qed.
Lemma increment_spec d : 0 ≤ d → AutoRefCount.increment d = if d <? 2 ^ 64 - 1 then Ok (d + 1) else Panic.
Proof.
  intros Hd. unfold AutoRefCount.increment. destruct (Z.ltb_spec d (2 ^ 64 - 1)) as [Hlt|Hge].
  - destruct (fetch_add_in d) as [-> ->]; [lia|done].
  - unfold fetch_add. by rewrite fetch_add_over.
Qed.
Lemma decrement_spec d : 0 < d < 2 ^ 64 → AutoRefCount.decrement d = Ok (d - 1).
Proof. intros Hd. unfold AutoRefCount.decrement. by destruct (fetch_sub_in d) as [-> ->]. Qed.

Lemma total_nonneg stk : 0 ≤ total stk.
Proof. induction stk; cbn [total]; lia. Qed.
Lemma handlers_nonneg k stk : 0 ≤ handlers k stk.
Proof. induction stk as [|a stk IH]; cbn [handlers]; [lia|]. unfold one. destruct (_ && _); lia. Qed.
Lemma total_zero stk : total stk = 0 → Forall (λ a, held a = 0%nat) stk.
Proof.
  induction stk as [|a stk IH]; cbn [total]; intros Ht; [constructor|]. pose proof (total_nonneg stk). constructor; [lia|].
  apply IH. lia.
Qed.
Lemma handlers_zero stk : handlers Interrupt stk = 0 → Forall (λ a, ¬ (kind a = Interrupt ∧ counted a = true)) stk.
Proof.
  induction stk as [|a stk IH]; cbn [handlers]; intros Ht; [constructor|]. pose proof (handlers_nonneg Interrupt stk).
  unfold one in Ht. constructor.
  - intros [Hk Hc]. rewrite (bool_decide_true _ Hk), Hc in Ht. cbn [andb] in Ht. lia.
  - apply IH. destruct (_ && _); lia.
Qed.
Lemma quiet_zero stk : total stk = 0 → handlers Interrupt stk = 0 → Forall quiet stk.
Proof. intros H1%total_zero H2%handlers_zero. apply Forall_and. by split. Qed.

(** Steps that leave the frame quiet or not, and the rest alone *)
Lemma quiet_same a a' rest : held a' = held a → kind a' = kind a → counted a' = counted a → Forall quiet (a :: rest) → Forall quiet (a' :: rest).
Proof.
  intros Hh Hk Hc [Ha Hr]%Forall_cons_iff. constructor; [|done]. unfold quiet in *. by rewrite Hh, Hk, Hc.
Qed.

(** A step gives a sound state, or panics because a counter is full. *)
Definition full (s : Sys) : Prop :=
  requests (core s) = 2 ^ 64 - 1 ∨ depth (core s) = 2 ^ 64 - 1 ∨ exceptions (core s) = 2 ^ 64 - 1.
Definition next_ok (s : Sys) (r : res unit Sys) : Prop :=
  match r with Ok s' => sound s' | Panic => full s | _ => False end.

Lemma one_eq k f h p : one k (mkActivity k f h p) = if counted (mkActivity k f h p) then 1 else 0.
Proof. unfold one. cbn [kind]. by rewrite bool_decide_true. Qed.
Lemma one_neq k k' f h p : k ≠ k' → one k' (mkActivity k f h p) = 0.
Proof. intros Hk. unfold one. cbn [kind]. by rewrite bool_decide_false. Qed.

Ltac open_sound := intros [[Hr Hr'] [Hd Hd'] [Hx Hx'] Hf]; cbn [core stack requests depth exceptions flag set_flag] in *;
  cbn [total handlers held pending pc] in Hr, Hd, Hx; unfold one in Hd, Hx; cbn [kind counted pc] in Hd, Hx.

Lemma sound_request c k f h rest : sound (mkSys c (mkActivity k f h Running :: rest)) →
  next_ok (mkSys c (mkActivity k f h Running :: rest)) (c' ← request c; Ok (mkSys c' (mkActivity k f h Disabling :: rest))).
Proof.
  open_sound. pose proof (total_nonneg rest). unfold request. destruct (Z.lt_ge_cases (requests c) (2 ^ 64 - 1)) as [Hlt|Hge].
  - destruct (fetch_add_in (requests c)) as [-> ->]; [lia|]. cbn [unwrap mbind res_bind next_ok].
    split; cbn [core stack requests depth exceptions flag]; try done; [cbn [total held pending pc]; lia|].
    destruct Hf as (F1 & _ & F3 & F4). split; [intros Ht; by eapply quiet_same; [..|exact (F1 Ht)]|]. split; [done|]. split; [done|].
    by destruct rest.
  - unfold fetch_add. rewrite fetch_add_over by done. left. cbn [core]. lia.
Qed.
Lemma sound_cli c k f h rest : sound (mkSys c (mkActivity k f h Disabling :: rest)) →
  sound (mkSys (set_flag false c) (mkActivity k f (S h) Running :: rest)).
Proof.
  open_sound. split; cbn [core stack requests depth exceptions flag set_flag]; try done; [cbn [total held pending pc]; lia|].
  destruct Hf as (F1 & _ & F3 & F4). split; [done|]. split; [done|]. split; [done|]. destruct rest; [|by destruct F4 as (? & _ & ?)].
  by destruct F4 as (? & ? & ?).
Qed.
Lemma sound_withdraw c k f h rest : sound (mkSys c (mkActivity k f (S h) Running :: rest)) →
  next_ok (mkSys c (mkActivity k f (S h) Running :: rest)) ('(x, c') ← withdraw c; Ok (mkSys c' (mkActivity k f h (Enabling x) :: rest))).
Proof.
  open_sound. pose proof (total_nonneg rest). unfold withdraw. destruct (fetch_sub_in (requests c)) as [-> ->]; [lia|].
  cbn [unwrap mbind res_bind next_ok]. destruct Hf as (F1 & _ & F3 & F4).
  assert (flag c = false) as Hfl.
  { destruct (flag c); [|done]. specialize (F1 eq_refl). apply Forall_cons_iff in F1 as [[F1 _] _]. done. }
  split; cbn [core stack requests depth exceptions flag]; try done; [cbn [total held pending pc]; lia|].
  rewrite Hfl in F4 |- *.
  split; [done|]. split; [intros x [= <-]; cbn [total held pending pc]; lia|]. split; [done|].
  destruct rest; [|done]. by destruct F4 as (? & ? & ?).
Qed.
Lemma sound_resume c k f h x rest : sound (mkSys c (mkActivity k f h (Enabling x) :: rest)) →
  sound (mkSys (resume x c) (mkActivity k f h Running :: rest)).
Proof.
  open_sound. pose proof (total_nonneg rest) as Htn. destruct Hf as (F1 & F2 & F3 & F4). specialize (F2 x eq_refl).
  cbn [total held pending pc] in F2. unfold resume.
  assert (∀ b, requests (if b : bool then set_flag true c else c) = requests c ∧ depth (if b then set_flag true c else c) = depth c ∧
    exceptions (if b then set_flag true c else c) = exceptions c) as Hsame by (by destruct b).
  destruct (Hsame (negb (in_interrupt c) && (x =? 1))) as (E1 & E2 & E3).
  split; cbn [core stack]; rewrite ?E1, ?E2, ?E3; try done.
  destruct (negb (in_interrupt c) && (x =? 1)) eqn:Eb.
  - apply andb_true_iff in Eb as [Eb1%negb_true_iff%negb_false_iff%Z.eqb_eq Eb2%Z.eqb_eq]. cbn [flag set_flag].
    assert (Forall quiet (mkActivity k f h (Enabling x) :: rest)) as Hq.
    { apply quiet_zero; [cbn [total held pending pc]; lia|]. cbn [handlers]. unfold one. cbn [kind counted pc]. lia. }
    split; [intros _; by eapply quiet_same; [..|exact Hq]|]. split; [done|]. split; [done|].
    apply Forall_cons_iff in Hq as [[Hh Hk] _]. cbn [held kind counted pc] in Hh, Hk. destruct rest.
    + destruct F4 as (? & ? & _). split; [done|]. split; [done|]. unfold open. cbn [pc held]. by rewrite bool_decide_true.
    + destruct F4 as (? & _ & ?). split; [done|]. split; [|done]. intros Hki. exfalso. by apply Hk.
  - split; [intros Ht; by eapply quiet_same; [..|exact (F1 Ht)]|]. split; [done|]. split; [done|]. destruct rest; [|done].
    destruct F4 as (Hk & Hc & Ho). split; [done|]. split; [done|]. rewrite Ho. unfold open. cbn [pc held]. symmetry.
    apply bool_decide_false. intros Hh. subst h. cbn [total] in F2. apply andb_false_iff in Eb as [Eb|Eb].
    + cbn [kind] in Hk. subst k. cbn [handlers bool_decide andb] in Hd. apply negb_false_iff, negb_true_iff, Z.eqb_neq in Eb.
      apply Eb. rewrite Hd. done.
    + apply Z.eqb_neq in Eb. lia.
Qed.
Lemma sound_gate c k stk : sound (mkSys c stk) → k ≠ Thread →
  sound (mkSys (set_flag false c) (mkActivity k (flag c) 0 Entering :: stk)).
Proof.
  open_sound. intros Hk. split; cbn [core stack requests depth exceptions flag set_flag];
    cbn [total handlers held pending pc]; unfold one; cbn [counted pc]; rewrite ?andb_false_r; try done.
  split; [done|]. split; [done|]. split; [done|]. by destruct stk.
Qed.
Lemma frames_pc f k sv h p p' rest : k ≠ Thread → (∀ x, p' ≠ Enabling x) → (k = Interrupt → f = false) →
  (p' = Leaving ∨ p' = Entering → h = 0%nat) →
  frames f (mkActivity k sv h p :: rest) → frames f (mkActivity k sv h p' :: rest).
Proof.
  intros Hk Hp Hi Hh (F1 & F2 & F3 & F4). split.
  - intros Hf. specialize (F1 Hf). apply Forall_cons_iff in F1 as [[Q1 Q2] Q]. constructor; [|done]. split; [done|].
    cbn [kind]. intros [Hki _]. specialize (Hi Hki). congruence.
  - split; [intros x Hx; by destruct (Hp x)|]. split; [cbn [counted pc held]; intros Hc; apply Hh; destruct p'; auto; done|].
    destruct rest; [by destruct F4 as (? & _)|done].
Qed.
Lemma frames_interrupt f k sv h p rest : frames f (mkActivity k sv h p :: rest) → k ≠ Thread →
  (k = Interrupt → f = false) ∧ (rest ≠ [] ∧ frames sv rest).
Proof. intros (_ & _ & _ & F4) Hk. destruct rest; [by destruct F4 as (? & _)|]. by destruct F4 as (_ & ? & ?). Qed.

Lemma sound_count_in c k f h rest : sound (mkSys c (mkActivity k f h Entering :: rest)) →
  next_ok (mkSys c (mkActivity k f h Entering :: rest)) (c' ← count_in k c; Ok (mkSys c' (mkActivity k f h Running :: rest))).
Proof.
  open_sound. rewrite andb_false_r in Hd, Hx. pose proof (handlers_nonneg Interrupt rest). pose proof (handlers_nonneg Exception rest).
  assert (k ≠ Thread) as Hk.
  { destruct Hf as (_ & _ & _ & F4). destruct rest; [by destruct F4 as (_ & ? & _)|by destruct F4 as (? & _)]. }
  destruct (frames_interrupt _ _ _ _ _ _ Hf Hk) as [Hi _].
  assert (frames (flag c) (mkActivity k f h Running :: rest)) as Hf'.
  { eapply frames_pc; [done|done|done| |exact Hf]. by intros [?|?]. }
  destruct k; [done| |]; cbn [count_in enter_interrupt enter_exception].
  - unfold enter_interrupt. rewrite increment_spec by lia. destruct (Z.ltb_spec (depth c) (2 ^ 64 - 1)); cbn [mbind res_bind next_ok];
      [|right; left; cbn [core]; lia].
    split; cbn [core stack requests depth exceptions flag]; cbn [total handlers held pending pc]; rewrite ?one_eq, ?one_neq by done; cbn [counted pc]; try done; lia.
  - unfold enter_exception. rewrite increment_spec by lia. destruct (Z.ltb_spec (exceptions c) (2 ^ 64 - 1)); cbn [mbind res_bind next_ok];
      [|right; right; cbn [core]; lia].
    split; cbn [core stack requests depth exceptions flag]; cbn [total handlers held pending pc]; rewrite ?one_eq, ?one_neq by done; cbn [counted pc]; try done; lia.
Qed.
Lemma sound_count_out c k f rest : k ≠ Thread → sound (mkSys c (mkActivity k f 0 Running :: rest)) →
  next_ok (mkSys c (mkActivity k f 0 Running :: rest)) (c' ← count_out k c; Ok (mkSys c' (mkActivity k f 0 Leaving :: rest))).
Proof.
  intros Hk. open_sound. rewrite andb_true_r in Hd, Hx. pose proof (handlers_nonneg Interrupt rest). pose proof (handlers_nonneg Exception rest).
  destruct (frames_interrupt _ _ _ _ _ _ Hf Hk) as [Hi _].
  assert (frames (flag c) (mkActivity k f 0 Leaving :: rest)) as Hf' by (by eapply frames_pc; [done|done|done|done|exact Hf]).
  destruct k; [done| |]; cbn [count_out].
  - rewrite (bool_decide_true (Interrupt = Interrupt)) in Hd by done. rewrite (bool_decide_false (Interrupt = Exception)) in Hx by done.
    unfold leave_interrupt. rewrite decrement_spec by lia. cbn [mbind res_bind next_ok].
    split; cbn [core stack requests depth exceptions flag]; cbn [total handlers held pending pc]; rewrite ?one_eq, ?one_neq by done; cbn [counted pc]; try done; lia.
  - rewrite (bool_decide_true (Exception = Exception)) in Hx by done. rewrite (bool_decide_false (Exception = Interrupt)) in Hd by done.
    unfold leave_exception. rewrite decrement_spec by lia. cbn [mbind res_bind next_ok].
    split; cbn [core stack requests depth exceptions flag]; cbn [total handlers held pending pc]; rewrite ?one_eq, ?one_neq by done; cbn [counted pc]; try done; lia.
Qed.
Lemma sound_iret c k f h rest : sound (mkSys c (mkActivity k f h Leaving :: rest)) → sound (mkSys (set_flag f c) rest).
Proof.
  open_sound. rewrite andb_false_r in Hd, Hx. destruct Hf as (_ & _ & F3 & F4). specialize (F3 eq_refl). cbn [held] in F3. subst h.
  split; cbn [core stack requests depth exceptions flag set_flag]; try done.
  destruct rest; [by destruct F4 as (_ & ? & _)|by destruct F4 as (_ & _ & ?)].
Qed.

Lemma sound_step s r : sound s → step s r → next_ok s r.
Proof.
  intros Hs Hst. destruct Hst; cbn [next_ok].
  - by apply sound_request.
  - by apply sound_cli.
  - by apply sound_withdraw.
  - by eapply sound_resume.
  - by apply sound_gate.
  - by apply sound_gate.
  - by apply sound_count_in.
  - by apply sound_count_out.
  - by eapply sound_iret.
Qed.
Lemma reachable_sound s : reachable s → sound s.
Proof.
  induction 1 as [|s s' _ IH Hst]; [|exact (sound_step _ _ IH Hst)].
  split; cbn; try done.
Qed.

(** C40. Masking nests, at the grain of single instructions, with interrupts where the flag lets
    them in and exceptions and NMIs anywhere (from the first call of the kernel's main on, until
    the APIC is reset for a reboot).  An interrupt can come only while no masking lock is held by
    anything on the core's stack and no interrupt is counted as being handled; and when only the
    thread runs, interrupts are let in exactly when it holds no masking lock and is not about to
    unmask.  The counts are those of the locks held or being taken, of the interrupts and of the
    exceptions being handled, and a step panics only when one of them is full, with 2^64 - 1 locks
    or handlers. *)
Theorem interrupts_masked s :
  reachable s →
  (flag (core s) = true → Forall quiet (stack s)) ∧
  (∀ t, stack s = [t] → flag (core s) = open t) ∧
  requests (core s) = total (stack s) ∧ depth (core s) = handlers Interrupt (stack s) ∧
  exceptions (core s) = handlers Exception (stack s) ∧
  (∀ r, step s r → match r with Ok s' => reachable s' | Panic => full s | _ => False end).
Proof.
  intros Hr. pose proof (reachable_sound s Hr) as Hs. split; [|split; [|split; [apply Hs|split; [apply Hs|split; [apply Hs|]]]]].
  - pose proof (so_frames _ Hs) as Hf. destruct (stack s); [done|apply Hf].
  - intros t E. pose proof (so_frames _ Hs) as Hf. rewrite E in Hf. by destruct Hf as (_ & _ & _ & _ & _ & ?).
  - intros r Hst. pose proof (sound_step s r Hs Hst) as Hn. destruct r; try done. by eapply reach_step.
Qed.
End CoreLocals.

(** * Values that are set once *)
Module OnceLock.
Section oncelock.
Context {A : Type}.

(** The memory of the value holds nothing before it is written. *)
Record OnceLock := mkOnceLock { initialized : bool; value : option A }.
Definition new : OnceLock := mkOnceLock false None.

(** The two steps of [set]. *)
Definition claim (self : OnceLock) : res unit OnceLock :=
  _ ← assert (negb (initialized self)); Ok (mkOnceLock true (value self)).
Definition publish (self : OnceLock) (v : A) : OnceLock := mkOnceLock (initialized self) (Some v).
Definition set (self : OnceLock) (v : A) : res unit OnceLock :=
  self ← claim self; Ok (publish self v).

(** The memory [get] reads: [None] when it was never written. *)
Definition get (self : OnceLock) : res unit (option A) :=
  if initialized self then Ok (value self) else Panic.
Definition try_get (self : OnceLock) : res unit (option (option A)) :=
  if initialized self then v ← get self; Ok (Some v) else Ok None.

(** A value set once is the value every later [get] returns, and [set] panics
    from then on; before, [get] panics.  Between the two steps of [set] a [get] by
    another core does not panic but reads memory that was never written. *)
Theorem oncelock_correct (v w : A) :
  get new = Panic ∧ try_get new = Ok None ∧
  (∃ l, set new v = Ok l ∧ get l = Ok (Some v) ∧ try_get l = Ok (Some (Some v)) ∧ set l w = Panic) ∧
  (∃ l, claim new = Ok l ∧ get l = Ok None ∧ set l w = Panic).
Proof.
  split; [done|]. split; [done|]. split; [by exists (mkOnceLock true (Some v))|by exists (mkOnceLock true None)].
Qed.
End oncelock.
End OnceLock.

(** * Witnesses *)
Module Examples.
Import SpinLock.

(** Two threads: the first gets the guard while the second waits. *)
Definition contended : list (@event) := [Take 0; Take 1; Spin 1; Acquire 0].
Definition contended_end : @state Z :=
  (mkSpinLock 2 0 false 7, [Holding; Spinning 1]).
Lemma contended_run : run (start (new 7) 2) contended contended_end.
Proof.
  apply (run_snoc _ [Take 0; Take 1; Spin 1] (mkSpinLock 2 0 false 7, [Spinning 0; Spinning 1])).
  - apply (run_snoc _ [Take 0; Take 1] (mkSpinLock 2 0 false 7, [Spinning 0; Spinning 1])).
    + apply (run_snoc _ [Take 0] (mkSpinLock 1 0 false 7, [Spinning 0; Idle])).
      * apply (run_snoc _ [] (start (new 7) 2)); [constructor|].
        by apply (step_ticket (new 7) [Idle; Idle] 0 0).
      * by apply (step_ticket (mkSpinLock 1 0 false 7) [Spinning 0; Idle] 1 1).
    + by apply (step_spin _ _ 1 1).
  - by apply (step_acquire (mkSpinLock 2 0 false 7) [Spinning 0; Spinning 1] 0 0).
Qed.
End Examples.

Lemma spinlock_fifo_witness :
  ∃ hs waiting, [0; 1]%nat = hs ++ waiting ∧ [0]%nat = hs ∧ (length hs ≤ 1)%nat.
Proof.
  destruct (SpinLock.spinlock_fifo 7 (SpinLock.new 7) 2 Examples.contended Examples.contended_end
    (or_introl eq_refl) ltac:(lia) Examples.contended_run) as (hs & w & Ht & Ha & Hl & _).
  exists hs, w. exact (conj Ht (conj Ha Hl)).
Defined.

Lemma spinlock_progress_witness :
  ∃ j st', SpinLock.step (SpinLock.Acquire j) Examples.contended_end st' ∨
           SpinLock.step (SpinLock.Release j) Examples.contended_end st'.
Proof.
  apply (SpinLock.spinlock_progress 7 (SpinLock.new 7) 2 Examples.contended Examples.contended_end
    1 (SpinLock.Spinning 1) (or_introl eq_refl) ltac:(lia) Examples.contended_run eq_refl).
  discriminate.
Defined.

(** An interrupt that comes while the thread asks for interrupts to be masked: the request is
    counted, the flag not yet cleared. *)
Definition between : CoreLocals.Sys :=
  CoreLocals.mkSys (CoreLocals.mkCore 1 1 0 false)
    [CoreLocals.mkActivity CoreLocals.Interrupt true 0 CoreLocals.Running;
     CoreLocals.mkActivity CoreLocals.Thread false 0 CoreLocals.Disabling].
Lemma between_reachable : CoreLocals.reachable between.
Proof.
  unfold between. eapply CoreLocals.reach_step; [|apply (CoreLocals.st_count_in (CoreLocals.mkCore 1 0 0 false) CoreLocals.Interrupt)].
  eapply CoreLocals.reach_step; [|by apply (CoreLocals.st_interrupt (CoreLocals.mkCore 1 0 0 true))].
  eapply CoreLocals.reach_step; [|apply (CoreLocals.st_request (CoreLocals.mkCore 0 0 0 true))].
  eapply CoreLocals.reach_step; [|apply (CoreLocals.st_resume (CoreLocals.mkCore 0 0 0 false) CoreLocals.Thread false 0 1)].
  eapply CoreLocals.reach_step; [|apply (CoreLocals.st_withdraw (CoreLocals.mkCore 1 0 0 false))].
  apply CoreLocals.reach_main.
Qed.
Lemma interrupts_masked_witness :
  CoreLocals.requests (CoreLocals.core between) = 1 ∧
  ∃ s', CoreLocals.request (CoreLocals.core between) = Ok s' ∧
    CoreLocals.reachable (CoreLocals.mkSys s'
      [CoreLocals.mkActivity CoreLocals.Interrupt true 0 CoreLocals.Disabling;
       CoreLocals.mkActivity CoreLocals.Thread false 0 CoreLocals.Disabling]).
Proof.
  destruct (CoreLocals.interrupts_masked between between_reachable) as (_ & _ & H1 & _ & _ & H2).
  split; [exact H1|]. eexists. split; [reflexivity|].
  exact (H2 _ (CoreLocals.st_request (CoreLocals.mkCore 1 1 0 false) CoreLocals.Interrupt true 0 _)).
Defined.
