(* ===== verification/Elf.v ===== *)
(** The ELF parser: shared/elf_parser/src/lib.rs.

    An iterator is a state: [next] is a call on [ElfSegments] whose [None] is the
    error arm, so an early [?] and the end of the iteration are the same outcome,
    as in the code.  The recursion that skips segments that are not loadable runs
    on the number of headers left. *)
From Stdlib Require Import ZArith Lia.
From stdpp Require Import prelude list numbers.
From S2P Require Import Prelude Packet.

Module Elf.

Inductive Error :=
| ParseFailure | NotEnoughBytes | WrongMagic (magic : list Z) | WrongBitness | WrongEndian
| WrongVersion (v : Z) | WrongType (t : Z) | WrongMachine (m : Z) | WrongAlignment
| RawSizeTooLarge | SegmentsClosureFailed.

Record Permissions := mkPermissions { read : bool; write : bool; execute : bool }.

Definition from_flags (flags : Z) : Permissions :=
  let execute := negb (Z.land flags (Z.shiftl 1 0) =? 0) in
  let write := negb (Z.land flags (Z.shiftl 1 1) =? 0) in
  let read := negb (Z.land flags (Z.shiftl 1 2) =? 0) in
  mkPermissions read write execute.

Record Segment := mkSegment {
  vaddr : Z; offset : Z; vsize : Z; bytes : list Z; permissions : Permissions }.

Record Elf := mkElf {
  elf_bytes : list Z; ph_offset : Z; ph_entry_size : Z; ph_num : Z; entry : Z }.

Record ElfSegments := mkElfSegments { elf : Elf; index : Z }.

(** The two macros: [n] bytes at [offset], little endian. *)
Definition get_bytes {E} (e : E) (bytes : list Z) (offset n : Z) : res E Z :=
  stop ← ok_or (checked_add 64 offset n) e;
  b ← ok_or (get_range bytes offset stop) e;
  Ok (le_val b).
Definition get_bytes_no_err : list Z → Z → Z → res unit Z := get_bytes tt.

(** A field of the program header at [offset]. *)
Definition field (bytes : list Z) (offset at_ n : Z) : res unit Z :=
  o ← add 64 offset at_; get_bytes_no_err bytes o n.

(** The loadable segment of the program header at [offset]. *)
Definition load_segment (bytes : list Z) (offset : Z) : res unit (Error + Segment) :=
  flags ← field bytes offset 0x04 4;
  let perms := from_flags flags in
  raw_offset ← field bytes offset 0x08 8;
  vaddr ← field bytes offset 0x10 8;
  raw_size ← field bytes offset 0x20 8;
  vsize ← field bytes offset 0x28 8;
  if vsize <? raw_size then Ok (inl RawSizeTooLarge) else
  raw_end ← ok_or (checked_add 64 raw_offset raw_size) tt;
  if zlen bytes <? raw_end then Ok (inl NotEnoughBytes) else
  align ← field bytes offset 0x30 8;
  align_mask ← sub align 1;
  if negb (align_mask =? 0xFFF) then Ok (inl WrongAlignment) else
  let aligned_vaddr := Z.land vaddr (unot 64 align_mask) in
  virtual_offset ← sub vaddr aligned_vaddr;
  raw_end ← ok_or (checked_add 64 raw_offset raw_size) tt;
  segment_bytes ← ok_or (get_range bytes raw_offset raw_end) tt;
  Ok (inr (mkSegment aligned_vaddr virtual_offset vsize segment_bytes perms)).

Fixpoint next_fuel (fuel : nat) : M ElfSegments unit (Error + Segment) :=
  match fuel with
  | O => diverge
  | S fuel =>
      self ← get;
      let bytes := elf_bytes (elf self) in
      if ph_num (elf self) <=? index self then throw tt else
      m ← lift (mul 64 (index self) (ph_entry_size (elf self)));
      offset ← lift (add 64 (ph_offset (elf self)) m);
      i ← lift (add 64 (index self) 1);
      _ ← put (mkElfSegments (elf self) i);
      ty ← lift (field bytes offset 0x00 4);
      if negb (ty =? 0x00000001) then next_fuel fuel
      else lift (load_segment bytes offset)
  end.
Definition next : M ElfSegments unit (Error + Segment) := λ self,
  next_fuel (S (Z.to_nat (ph_num (elf self) - index self))) self.

Definition magic : list Z := [0x7F; 0x45; 0x4C; 0x46].

Definition parse (bytes : list Z) : res Error Elf :=
  if negb (bool_decide (get_range bytes 0x00 0x04 = Some magic))
  then m ← slice bytes 0x00 0x04; Err (WrongMagic m) else
  class ← get_bytes ParseFailure bytes 0x04 1;
  if negb (class =? 2) then Err WrongBitness else
  endian ← get_bytes ParseFailure bytes 0x05 1;
  if negb (endian =? 1) then Err WrongEndian else
  version ← get_bytes ParseFailure bytes 0x06 1;
  if negb (version =? 1) then v ← Prelude.index bytes 0x06; Err (WrongVersion v) else
  ty ← get_bytes ParseFailure bytes 0x10 2;
  if negb (ty =? 2) then t ← slice bytes 0x10 0x12; Err (WrongType (le_val t)) else
  machine ← get_bytes ParseFailure bytes 0x12 2;
  if negb (machine =? 0x3E) then m ← slice bytes 0x12 0x14; Err (WrongMachine (le_val m)) else
  entry ← get_bytes ParseFailure bytes 0x18 8;
  ph_offset ← get_bytes ParseFailure bytes 0x20 8;
  ph_entry_size ← get_bytes ParseFailure bytes 0x36 2;
  ph_num ← get_bytes ParseFailure bytes 0x38 2;
  t ← ok_or (checked_mul 64 ph_num ph_entry_size) ParseFailure;
  table_size ← ok_or (checked_add 64 ph_offset t) ParseFailure;
  if zlen bytes <? table_size then Err NotEnoughBytes else
  Ok (mkElf bytes ph_offset ph_entry_size ph_num entry).

Definition segments (self : Elf) : ElfSegments := mkElfSegments self 0.

(** What a [for] loop sees of the iterator: the items up to the first [None]. *)
Fixpoint items_fuel (fuel : nat) (self : ElfSegments) : res unit (list (Error + Segment)) :=
  match fuel with
  | O => Diverge
  | S fuel =>
      match next self with
      | Ok (x, self) => l ← items_fuel fuel self; Ok (x :: l)
      | Err _ => Ok []
      | Panic => Panic
      | Diverge => Diverge
      end
  end.
Definition items (self : ElfSegments) : res unit (list (Error + Segment)) :=
  items_fuel (S (Z.to_nat (ph_num (elf self) - index self))) self.

End Elf.

(** * The file format *)

(** The little-endian integer of [n] bytes at [o]. *)
Definition le_at (l : list Z) (o n : Z) : Z := le_val (take (Z.to_nat n) (drop (Z.to_nat o) l)).

Record Phdr := mkPhdr {
  p_type : Z; p_flags : Z; p_offset : Z; p_vaddr : Z; p_filesz : Z; p_memsz : Z; p_align : Z }.
Definition phdr_at (l : list Z) (o : Z) : Phdr :=
  mkPhdr (le_at l o 4) (le_at l (o + 0x04) 4) (le_at l (o + 0x08) 8) (le_at l (o + 0x10) 8)
    (le_at l (o + 0x20) 8) (le_at l (o + 0x28) 8) (le_at l (o + 0x30) 8).
Definition PT_LOAD : Z := 1.

(** An executable for this machine whose program headers lie in the file. *)
Record accepted (l : list Z) (e : Elf.Elf) : Prop := {
  acc_magic : take 4 l = Elf.magic;
  acc_header : 0x3A ≤ zlen l;
  acc_class : le_at l 0x04 1 = 2;
  acc_endian : le_at l 0x05 1 = 1;
  acc_version : le_at l 0x06 1 = 1;
  acc_type : le_at l 0x10 2 = 2;
  acc_machine : le_at l 0x12 2 = 0x3E;
  acc_elf : e = Elf.mkElf l (le_at l 0x20 8) (le_at l 0x36 2) (le_at l 0x38 2) (le_at l 0x18 8);
  acc_table : Elf.ph_offset e + Elf.ph_num e * Elf.ph_entry_size e ≤ zlen l;
}.

(** The headers from the [i]th on. *)
Definition header_off (e : Elf.Elf) (i : Z) : Z := Elf.ph_offset e + i * Elf.ph_entry_size e.
Definition headers_from (e : Elf.Elf) (i : Z) : list Phdr :=
  (λ k, phdr_at (Elf.elf_bytes e) (header_off e (i + Z.of_nat k)))
    <$> seq 0 (Z.to_nat (Elf.ph_num e - i)).
Definition headers (e : Elf.Elf) : list Phdr := headers_from e 0.

(** What the header of a loadable segment says. *)
Definition segment_of (l : list Z) (ph : Phdr) : Elf.Error + Elf.Segment :=
  if p_memsz ph <? p_filesz ph then inl Elf.RawSizeTooLarge
  else if zlen l <? p_offset ph + p_filesz ph then inl Elf.NotEnoughBytes
  else if negb (p_align ph =? 4096) then inl Elf.WrongAlignment
  else inr (Elf.mkSegment (p_vaddr ph - p_vaddr ph mod 4096) (p_vaddr ph mod 4096) (p_memsz ph)
    (take (Z.to_nat (p_filesz ph)) (drop (Z.to_nat (p_offset ph)) l)) (Elf.from_flags (p_flags ph))).

(** * Lemmas *)
Section reads.
Context (l : list Z) (Hok : bytes_ok l) (Hlen : zlen l < 2 ^ 63).

Lemma get_bytes_spec {E} (e : E) o n :
  0 ≤ o → 0 ≤ n ≤ 8 →
  Elf.get_bytes e l o n = if o + n <=? zlen l then Ok (le_at l o n) else Err e.
Proof using Hlen.
  intros Ho Hn. unfold Elf.get_bytes, checked_add, get_range.
  destruct (Z.leb_spec (o + n) (zlen l)).
  - rewrite (proj2 (Z.ltb_lt _ _)) by lia. cbn [ok_or mbind res_bind].
    rewrite !(proj2 (Z.leb_le _ _)) by lia. cbn [andb ok_or mbind res_bind].
    unfold le_at. by replace (o + n - o) with n by lia.
  - destruct (_ <? _); [|done]. cbn [ok_or mbind res_bind].
    rewrite (proj2 (Z.leb_gt (o + n) _)) by lia. by rewrite andb_false_r.
Qed.

Lemma le_at_bound o n : 0 ≤ n → 0 ≤ le_at l o n < 2 ^ (8 * n).
Proof using Hok.
  intros Hn. unfold le_at.
  assert (bytes_ok (take (Z.to_nat n) (drop (Z.to_nat o) l))) as Hb by (by apply Forall_take, Forall_drop).
  destruct (le_val_bound _ Hb) as [H1 H2]. split; [exact H1|]. eapply Z.lt_le_trans; [exact H2|].
  apply Z.pow_le_mono_r; [lia|]. unfold zlen. rewrite length_take. lia.
Qed.

Lemma field_spec o a n :
  0 ≤ o ≤ zlen l → 0 ≤ a ≤ 64 → 0 ≤ n ≤ 8 →
  Elf.field l o a n = if o + a + n <=? zlen l then Ok (le_at l (o + a) n) else Err tt.
Proof using Hlen.
  intros Ho Ha Hn. unfold Elf.field. rewrite add_Ok by lia. cbn [mbind res_bind].
  apply get_bytes_spec; lia.
Qed.
Lemma field_in o a n :
  0 ≤ o → 0 ≤ a ≤ 64 → 0 ≤ n ≤ 8 → o + a + n ≤ zlen l → Elf.field l o a n = Ok (le_at l (o + a) n).
Proof using Hlen. intros. rewrite field_spec by lia. by rewrite (proj2 (Z.leb_le _ _)). Qed.
End reads.

Lemma get_range_prefix (l : list Z) n : 0 ≤ n → get_range l 0 n = if n <=? zlen l then Some (take (Z.to_nat n) l) else None.
Proof.
  intros Hn. unfold get_range. rewrite (proj2 (Z.leb_le 0 n)) by done. simpl.
  rewrite Z.sub_0_r. by destruct (_ <=? _).
Qed.
Lemma slice_in {E} (l : list Z) a b :
  0 ≤ a → a ≤ b → b ≤ zlen l → ∃ r, slice (E:=E) l a b = Ok r.
Proof. intros. unfold slice. destruct (get_range_in l a b) as [r ->]; [done..|]. by exists r. Qed.

(** The parser, condition by condition. *)
Definition parse_spec (l : list Z) (r : res Elf.Error Elf.Elf) : Prop :=
  match r with
  | Ok e => accepted l e
  | Err _ => ∀ e, ¬ accepted l e
  | Panic => zlen l < 4
  | Diverge => False
  end.

(** A refused file: any error that is not accepted. *)
Lemma refused l {A} (r : res Elf.Error A) (f : A → Elf.Error) :
  (∀ e, ¬ accepted l e) → (∃ a, r = Ok a) → parse_spec l (a ← r; Err (f a)).
Proof. by intros Hn [a ->]. Qed.

(** A field that is read, and one that is compared with a constant. *)
Lemma parse_read l o n (k : Z → res Elf.Error Elf.Elf) :
  zlen l < 2 ^ 63 → 0 ≤ o → 0 ≤ n ≤ 8 → o + n ≤ 0x3A →
  (o + n ≤ zlen l → parse_spec l (k (le_at l o n))) →
  parse_spec l (x ← Elf.get_bytes Elf.ParseFailure l o n; k x).
Proof.
  intros Hlen Ho Hn Hh Hk. rewrite get_bytes_spec by done.
  destruct (Z.leb_spec (o + n) (zlen l)); [by apply Hk|]. intros e []. lia.
Qed.
Lemma parse_check l o n v (r k : res Elf.Error Elf.Elf) :
  zlen l < 2 ^ 63 → 0 ≤ o → 0 ≤ n ≤ 8 → o + n ≤ 0x3A → (∀ e, accepted l e → le_at l o n = v) →
  (o + n ≤ zlen l → (∀ e, ¬ accepted l e) → parse_spec l r) →
  (o + n ≤ zlen l → le_at l o n = v → parse_spec l k) →
  parse_spec l (x ← Elf.get_bytes Elf.ParseFailure l o n; if negb (x =? v) then r else k).
Proof.
  intros Hlen Ho Hn Hh Ha Hr Hk. apply parse_read; [done..|]. intros Hin.
  destruct (Z.eqb_spec (le_at l o n) v) as [Hv|Hv]; [by apply Hk|].
  apply Hr; [done|]. intros e He. by apply Hv, (Ha e).
Qed.

Lemma parse_ok l : bytes_ok l → zlen l < 2 ^ 63 → parse_spec l (Elf.parse l).
Proof.
  intros Hok Hlen. unfold Elf.parse. rewrite get_range_prefix by lia.
  destruct (Z.leb_spec 4 (zlen l)) as [H4|H4].
  2:{ simpl. unfold slice. rewrite get_range_prefix by lia.
      rewrite (proj2 (Z.leb_gt _ _)) by lia. simpl. lia. }
  change (Z.to_nat 4) with 4%nat. destruct (bool_decide _) eqn:Hmagic; cbn [negb].
  2:{ apply bool_decide_eq_false in Hmagic. apply refused; [|by apply slice_in; lia].
      intros e He. by rewrite (acc_magic _ _ He) in Hmagic. }
  apply bool_decide_eq_true in Hmagic. injection Hmagic as Hmagic.
  apply parse_check; [done|lia..|apply acc_class|intros _ Hn; exact Hn|intros _ Hc].
  apply parse_check; [done|lia..|apply acc_endian|intros _ Hn; exact Hn|intros _ He].
  apply parse_check; [done|lia..|apply acc_version|intros Hin Hn|intros _ Hv].
  { apply refused; [done|]. unfold index.
    destruct (lookup_lt_is_Some_2 l 6) as [x ->]; [unfold zlen in Hin; lia|]. by exists x. }
  apply parse_check; [done|lia..|apply acc_type|intros Hin Hn|intros _ Ht].
  { apply refused; [done|]. apply slice_in; lia. }
  apply parse_check; [done|lia..|apply acc_machine|intros Hin Hn|intros _ Hm].
  { apply refused; [done|]. apply slice_in; lia. }
  do 3 (apply parse_read; [done|lia..|intros _]).
  apply parse_read; [done|lia..|intros Hin].
  pose proof (le_at_bound l Hok 0x36 2 ltac:(lia)) as Hs.
  pose proof (le_at_bound l Hok 0x38 2 ltac:(lia)) as Hn.
  assert (0 ≤ le_at l 0x38 2 * le_at l 0x36 2 < 2 ^ 16 * 2 ^ 16) as Hp by nia.
  assert (∀ e, accepted l e → le_at l 0x20 8 + le_at l 0x38 2 * le_at l 0x36 2 ≤ zlen l) as Hacc.
  { intros e [??????? -> Htab]. exact Htab. }
  unfold checked_mul. rewrite (proj2 (Z.ltb_lt _ _)) by lia. cbn [ok_or mbind res_bind].
  unfold checked_add. destruct (Z.ltb_spec (le_at l 0x20 8 + le_at l 0x38 2 * le_at l 0x36 2) (2 ^ 64));
    cbn [ok_or mbind res_bind]; [|intros e Hlim%Hacc; lia].
  destruct (Z.ltb_spec (zlen l) (le_at l 0x20 8 + le_at l 0x38 2 * le_at l 0x36 2));
    [intros e Hlim%Hacc; lia|].
  by constructor; try lia.
Qed.

(** ** Segments *)
Record elf_ok (e : Elf.Elf) : Prop := {
  ok_bytes : bytes_ok (Elf.elf_bytes e);
  ok_len : zlen (Elf.elf_bytes e) < 2 ^ 63;
  ok_offset : 0 ≤ Elf.ph_offset e;
  ok_size : 0 ≤ Elf.ph_entry_size e < 2 ^ 16;
  ok_num : 0 ≤ Elf.ph_num e < 2 ^ 16;
  ok_table : header_off e (Elf.ph_num e) ≤ zlen (Elf.elf_bytes e);
}.
Lemma accepted_ok l e : bytes_ok l → zlen l < 2 ^ 63 → accepted l e → elf_ok e.
Proof.
  intros Hok Hlen [??????? -> Htab].
  pose proof (le_at_bound l Hok 0x20 8 ltac:(lia)). pose proof (le_at_bound l Hok 0x36 2 ltac:(lia)).
  pose proof (le_at_bound l Hok 0x38 2 ltac:(lia)).
  constructor; cbn -[Z.pow] in *; try done; lia.
Qed.

Section iteration.
Context (e : Elf.Elf) (He : elf_ok e).
Let l : list Z := Elf.elf_bytes e.
Implicit Types (i : Z).

Lemma header_off_in i : 0 ≤ i ≤ Elf.ph_num e → 0 ≤ header_off e i ≤ zlen l.
Proof using He.
  intros Hi. destruct He as [_ _ Ho Hs Hn Ht]. unfold header_off in *. fold l in Ht. split; [nia|].
  assert (i * Elf.ph_entry_size e ≤ Elf.ph_num e * Elf.ph_entry_size e) by nia. lia.
Qed.

Lemma next_fuel_step fuel i :
  0 ≤ i < Elf.ph_num e →
  Elf.next_fuel (S fuel) (Elf.mkElfSegments e i)
  = (ty ← lift (Elf.field l (header_off e i) 0x00 4);
     if negb (ty =? 1) then Elf.next_fuel fuel
     else lift (Elf.load_segment l (header_off e i))) (Elf.mkElfSegments e (i + 1)).
Proof using He.
  intros Hi. pose proof (header_off_in i ltac:(lia)) as Hin. pose proof (ok_len e He) as Hlen.
  pose proof (ok_num e He). pose proof (ok_offset e He). pose proof (ok_size e He). fold l in Hlen.
  cbn [Elf.next_fuel]. rewrite (M_bind_Ok get _ _ _ _ eq_refl). cbn [Elf.elf Elf.index].
  rewrite (proj2 (Z.leb_gt _ _)) by lia. unfold header_off in *.
  rewrite mul_Ok, (M_bind_Ok (lift (Ok _)) _ _ _ _ eq_refl) by lia.
  rewrite (add_Ok 64 (Elf.ph_offset e)), (M_bind_Ok (lift (Ok _)) _ _ _ _ eq_refl) by lia.
  rewrite add_Ok, (M_bind_Ok (lift (Ok _)) _ _ _ _ eq_refl) by lia.
  by rewrite (M_bind_Ok (put _) _ _ _ _ eq_refl).
Qed.

(** The header of a loadable segment, read in full. *)
Definition decode (l : list Z) (ph : Phdr) : res unit (Elf.Error + Elf.Segment) :=
  if p_memsz ph <? p_filesz ph then Ok (inl Elf.RawSizeTooLarge)
  else if 2 ^ 64 <=? p_offset ph + p_filesz ph then Err tt
  else if zlen l <? p_offset ph + p_filesz ph then Ok (inl Elf.NotEnoughBytes)
  else if p_align ph =? 0 then Panic
  else Ok (segment_of l ph).

Lemma decode_cases file ph :
  match decode file ph with
  | Ok x => ∀ seg, x = inr seg → segment_of file ph = inr seg
  | Err _ => True
  | Panic => p_align ph = 0
  | Diverge => False
  end.
Proof.
  unfold decode. destruct (_ <? _); [done|]. destruct (_ <=? _); [done|]. destruct (_ <? _); [done|].
  destruct (Z.eqb_spec (p_align ph) 0); [done|]. intros seg Hs. exact Hs.
Qed.

Lemma load_segment_full o :
  0 ≤ o → o + 56 ≤ zlen l → Elf.load_segment l o = decode l (phdr_at l o).
Proof using He.
  intros Ho Hin. pose proof (ok_len e He) as Hlen. pose proof (ok_bytes e He) as Hok. fold l in Hlen, Hok.
  unfold Elf.load_segment.
  rewrite !field_in by (done || lia). cbn [mbind res_bind].
  unfold decode, segment_of. cbn [p_memsz p_filesz p_offset p_align p_vaddr p_flags phdr_at].
  pose proof (le_at_bound l Hok (o + 0x20) 8 ltac:(lia)) as Hfs.
  pose proof (le_at_bound l Hok (o + 0x08) 8 ltac:(lia)) as Hfo.
  pose proof (le_at_bound l Hok (o + 0x10) 8 ltac:(lia)) as Hva.
  pose proof (le_at_bound l Hok (o + 0x30) 8 ltac:(lia)) as Hal.
  destruct (le_at l (o + 0x28) 8 <? le_at l (o + 0x20) 8); [done|].
  unfold checked_add. rewrite Z.leb_antisym.
  destruct (Z.ltb_spec (le_at l (o + 0x08) 8 + le_at l (o + 0x20) 8) (2 ^ 64)); [|done].
  cbn [negb ok_or mbind res_bind]. destruct (Z.ltb_spec (zlen l) (le_at l (o + 8) 8 + le_at l (o + 32) 8)); [done|].
  destruct (Z.eqb_spec (le_at l (o + 48) 8) 0) as [->|Hnz]; [done|].
  rewrite (sub_Ok (le_at l (o + 48) 8) 1) by lia. cbn [mbind res_bind].
  destruct (Z.eqb_spec (le_at l (o + 48) 8) 4096) as [->|H4]; cbn [negb].
  2:{ rewrite (proj2 (Z.eqb_neq _ _)) by lia. done. }
  change (negb (4096 - 1 =? 0xFFF)) with false. cbn iota.
  change (4096 - 1) with (2 ^ 12 - 1). rewrite (land_unot_mask 64 _ 12 Hva) by lia.
  change (2 ^ 12) with 4096.
  pose proof (Z.mod_pos_bound (le_at l (o + 0x10) 8) 4096 ltac:(lia)).
  rewrite sub_Ok by (pose proof (Z.mod_le (le_at l (o + 16) 8) 4096); lia). cbn [mbind res_bind].
  unfold get_range. rewrite !(proj2 (Z.leb_le _ _)) by lia. cbn [andb ok_or mbind res_bind].
  do 4 f_equal; [lia|]. f_equal. lia.
Qed.

(** A header cut off by the end of the file gives no segment. *)
Lemma load_segment_short o :
  0 ≤ o ≤ zlen l → zlen l < o + 56 →
  Elf.load_segment l o = Err tt ∨ ∃ err, Elf.load_segment l o = Ok (inl err).
Proof using He.
  intros Ho Hout. pose proof (ok_len e He) as Hlen. fold l in Hlen.
  unfold Elf.load_segment. rewrite !field_spec by (done || lia).
  rewrite (proj2 (Z.leb_gt (o + 0x30 + 8) _)) by lia.
  unfold checked_add.
  repeat (match goal with |- context [if ?b then _ else _] => destruct b end;
          cbn [ok_or mbind res_bind]; eauto).
Qed.

Lemma headers_from_cons i :
  0 ≤ i < Elf.ph_num e → headers_from e i = phdr_at l (header_off e i) :: headers_from e (i + 1).
Proof.
  intros Hi. unfold headers_from. replace (Z.to_nat (Elf.ph_num e - i))
    with (S (Z.to_nat (Elf.ph_num e - (i + 1)))) by lia.
  cbn [seq fmap list_fmap]. rewrite Z.add_0_r. f_equal.
  rewrite <-fmap_S_seq, <-list_fmap_compose. apply list_fmap_ext. intros _ k _. simpl.
  do 2 f_equal. lia.
Qed.
Lemma headers_from_nil i : Elf.ph_num e ≤ i → headers_from e i = [].
Proof. intros Hi. unfold headers_from. by replace (Z.to_nat (Elf.ph_num e - i)) with 0%nat by lia. Qed.

(** Every way a call of [next] can end. *)
Definition from_header (i : Z) (x : Elf.Error + Elf.Segment) : Prop :=
  ∀ seg, x = inr seg → ∃ ph, ph ∈ headers_from e i ∧ p_type ph = PT_LOAD ∧ segment_of l ph = inr seg.
Definition zero_align (i : Z) : Prop :=
  ∃ ph, ph ∈ headers_from e i ∧ p_type ph = PT_LOAD ∧ p_align ph = 0.
Lemma later_header i (P : Phdr → Prop) :
  0 ≤ i < Elf.ph_num e →
  (∃ ph, ph ∈ headers_from e (i + 1) ∧ P ph) → ∃ ph, ph ∈ headers_from e i ∧ P ph.
Proof. intros Hi (ph & ? & ?). exists ph. rewrite headers_from_cons by done. split; [by right|done]. Qed.

Lemma next_fuel_spec fuel i :
  0 ≤ i → (Z.to_nat (Elf.ph_num e - i) < fuel)%nat →
  match Elf.next_fuel fuel (Elf.mkElfSegments e i) with
  | Ok (x, s) => ∃ j, s = Elf.mkElfSegments e j ∧ i < j ≤ Elf.ph_num e ∧ from_header i x
  | Err _ => True
  | Panic => zero_align i
  | Diverge => False
  end.
Proof using He.
  revert i. induction fuel as [|fuel IH]; intros i Hi Hf; [lia|].
  destruct (Z.le_gt_cases (Elf.ph_num e) i) as [Hend|Hin].
  { cbn [Elf.next_fuel]. rewrite (M_bind_Ok get _ _ _ _ eq_refl). cbn [Elf.elf Elf.index].
    by rewrite (proj2 (Z.leb_le _ _)) by lia. }
  rewrite next_fuel_step by lia. pose proof (header_off_in i ltac:(lia)) as Ho.
  rewrite field_spec by (try apply He; lia).
  destruct (_ <=? _); [|done]. rewrite (M_bind_Ok (lift (Ok _)) _ _ _ _ eq_refl), Z.add_0_r.
  destruct (Z.eqb_spec (le_at l (header_off e i) 4) 1) as [Hty|Hty]; cbn [negb].
  - destruct (Z.le_gt_cases (header_off e i + 56) (zlen l)) as [Hfull|Hshort].
    + unfold lift. rewrite load_segment_full by lia.
      assert (phdr_at l (header_off e i) ∈ headers_from e i) as Hph
        by (rewrite headers_from_cons by lia; left).
      pose proof (decode_cases l (phdr_at l (header_off e i))) as Hd.
      destruct (decode l _); try done; [|by exists (phdr_at l (header_off e i))].
      exists (i + 1). split_and!; [done|lia..|]. intros seg Hseg.
      exists (phdr_at l (header_off e i)). split_and!; [done|done|by apply Hd].
    + destruct (load_segment_short _ Ho Hshort) as [E|[err E]]; unfold lift; rewrite E; [done|].
      exists (i + 1). by split_and!; try lia.
  - specialize (IH (i + 1) ltac:(lia) ltac:(lia)).
    destruct (Elf.next_fuel fuel _) as [[x s]| | |]; try done.
    + destruct IH as (j & ? & ? & Hx). exists j. split_and!; [done|lia..|].
      intros seg Hseg. apply later_header; [lia|]. by apply Hx.
    + apply later_header; [lia|]. exact IH.
Qed.

Lemma items_fuel_spec fuel i :
  0 ≤ i → (Z.to_nat (Elf.ph_num e - i) < fuel)%nat →
  match Elf.items_fuel fuel (Elf.mkElfSegments e i) with
  | Ok its => Forall (from_header i) its
  | Err _ | Diverge => False
  | Panic => zero_align i
  end.
Proof using He.
  revert i. induction fuel as [|fuel IH]; intros i Hi Hf; [lia|]. cbn [Elf.items_fuel].
  pose proof (next_fuel_spec (S (Z.to_nat (Elf.ph_num e - i))) i Hi ltac:(lia)) as Hn.
  unfold Elf.next at 1. cbn [Elf.elf Elf.index].
  destruct (Elf.next_fuel _ _) as [[x s]| | |]; try done.
  destruct Hn as (j & -> & Hj & Hx). specialize (IH j ltac:(lia) ltac:(lia)).
  assert (∀ ph, ph ∈ headers_from e j → ph ∈ headers_from e i) as Hsub.
  { intros ph (k & -> & Hk%elem_of_seq)%list_elem_of_fmap. apply list_elem_of_fmap.
    exists (k + Z.to_nat (j - i))%nat. split; [do 2 f_equal; lia|]. apply elem_of_seq. lia. }
  destruct (Elf.items_fuel _ _) as [its| | |]; cbn [mbind res_bind]; try done.
  - constructor; [done|]. eapply Forall_impl; [|exact IH]. intros y Hy seg ->.
    destruct (Hy seg eq_refl) as (ph & ? & ?). exists ph. auto.
  - destruct IH as (ph & ? & ?). exists ph. auto.
Qed.

(** The headers of a well-formed table: whole, and sane where loadable. *)
Definition sane (ph : Phdr) : Prop :=
  p_type ph = PT_LOAD → p_align ph ≠ 0 ∧ p_offset ph + p_filesz ph < 2 ^ 64.
Definition is_load (ph : Phdr) : Prop := p_type ph = PT_LOAD.
#[local] Instance is_load_dec ph : Decision (is_load ph).
Proof. unfold is_load. apply _. Defined.

Lemma decode_sane file ph : is_load ph → sane ph → decode file ph = Ok (segment_of file ph).
Proof.
  intros Hl Hs. destruct (Hs Hl) as [Ha Ho]. unfold decode, segment_of.
  destruct (_ <? _); [done|]. rewrite (proj2 (Z.leb_gt _ _)) by lia.
  destruct (_ <? _); [done|]. by rewrite (proj2 (Z.eqb_neq _ _)).
Qed.

Context (Hsize : 56 ≤ Elf.ph_entry_size e).

Lemma header_full i : 0 ≤ i < Elf.ph_num e → header_off e i + 56 ≤ zlen l.
Proof using He Hsize.
  intros Hi. pose proof (header_off_in (i + 1) ltac:(lia)) as H. unfold header_off in *. lia.
Qed.

Lemma next_fuel_equiv fuel i :
  0 ≤ i → (Z.to_nat (Elf.ph_num e - i) < fuel)%nat → Forall sane (headers_from e i) →
  match filter is_load (headers_from e i) with
  | [] => ∃ s, Elf.next_fuel fuel (Elf.mkElfSegments e i) = Err (tt, s)
  | ph :: phs => ∃ j,
      Elf.next_fuel fuel (Elf.mkElfSegments e i) = Ok (segment_of l ph, Elf.mkElfSegments e j) ∧
      i < j ∧ phs = filter is_load (headers_from e j) ∧ Forall sane (headers_from e j)
  end.
Proof using He Hsize.
  revert i. induction fuel as [|fuel IH]; intros i Hi Hf Hs; [lia|].
  destruct (Z.le_gt_cases (Elf.ph_num e) i) as [Hend|Hin].
  { rewrite headers_from_nil by done. cbn [Elf.next_fuel].
    rewrite (M_bind_Ok get _ _ _ _ eq_refl). cbn [Elf.elf Elf.index].
    rewrite (proj2 (Z.leb_le _ _)) by lia. by eexists. }
  rewrite next_fuel_step by lia. pose proof (header_full i ltac:(lia)) as Hfull.
  pose proof (header_off_in i ltac:(lia)) as Ho.
  rewrite headers_from_cons in * by lia. apply Forall_cons_iff in Hs as [Hph Hs].
  rewrite field_in, (M_bind_Ok (lift (Ok _)) _ _ _ _ eq_refl), Z.add_0_r by (try apply He; lia).
  rewrite filter_cons. destruct (decide _) as [Hl|Hl].
  - pose proof Hl as Hl'. unfold is_load in Hl'. simpl in Hl'. rewrite Hl'.
    change (negb (PT_LOAD =? 1)) with false. cbn iota. unfold lift.
    rewrite load_segment_full, decode_sane by (done || lia). exists (i + 1). by split_and!; try lia.
  - rewrite (proj2 (Z.eqb_neq _ _)) by done. cbn [negb].
    specialize (IH (i + 1) ltac:(lia) ltac:(lia) Hs).
    destruct (filter is_load _); [done|]. destruct IH as (j & ? & ? & ?). exists j. split_and!; naive_solver lia.
Qed.

Lemma items_fuel_equiv fuel i :
  0 ≤ i → (Z.to_nat (Elf.ph_num e - i) < fuel)%nat → Forall sane (headers_from e i) →
  Elf.items_fuel fuel (Elf.mkElfSegments e i)
  = Ok (segment_of l <$> filter is_load (headers_from e i)).
Proof using He Hsize.
  revert i. induction fuel as [|fuel IH]; intros i Hi Hf Hs; [lia|]. cbn [Elf.items_fuel].
  pose proof (next_fuel_equiv (S (Z.to_nat (Elf.ph_num e - i))) i Hi ltac:(lia) Hs) as Hn.
  unfold Elf.next at 1. cbn [Elf.elf Elf.index].
  destruct (filter is_load (headers_from e i)) as [|ph phs] eqn:Hfl.
  - destruct Hn as [s ->]. done.
  - destruct Hn as (j & -> & Hj & -> & Hs'). destruct (Z.lt_ge_cases i (Elf.ph_num e)).
    + rewrite IH by (done || lia). done.
    + rewrite headers_from_nil in Hfl by lia. done.
Qed.
End iteration.

(** A segment as its header describes it. *)
Record segment_ok (file : list Z) (ph : Phdr) (seg : Elf.Segment) : Prop := {
  seg_page : (4096 | Elf.vaddr seg);
  seg_offset : 0 ≤ Elf.offset seg < 4096;
  seg_addr : Elf.vaddr seg + Elf.offset seg = p_vaddr ph;
  seg_size : Elf.vsize seg = p_memsz ph;
  seg_fits : zlen (Elf.bytes seg) = p_filesz ph ∧ p_filesz ph ≤ p_memsz ph;
  seg_bytes : ∀ k, (k < length (Elf.bytes seg))%nat →
    Elf.bytes seg !! k = file !! (Z.to_nat (p_offset ph) + k)%nat;
}.

Lemma segment_of_ok file ph seg :
  0 ≤ p_filesz ph → 0 ≤ p_offset ph → segment_of file ph = inr seg → segment_ok file ph seg.
Proof.
  intros Hf Ho. unfold segment_of.
  destruct (Z.ltb_spec (p_memsz ph) (p_filesz ph)); [done|].
  destruct (Z.ltb_spec (zlen file) (p_offset ph + p_filesz ph)); [done|].
  destruct (Z.eqb_spec (p_align ph) 4096); [|done]. intros [= <-].
  pose proof (Z.mod_pos_bound (p_vaddr ph) 4096 ltac:(lia)).
  unfold zlen in *. constructor; cbn [Elf.vaddr Elf.offset Elf.vsize Elf.bytes]; try lia.
  - rewrite Z.mod_eq by lia. exists (p_vaddr ph / 4096). lia.
  - unfold zlen. rewrite length_take, length_drop. lia.
  - intros k. rewrite length_take. intros Hk. rewrite lookup_take_lt by lia. by rewrite lookup_drop.
Qed.

(** C20. [Elf::parse] decides, for every file shorter than 2^63 bytes, whether it is
    a little-endian x86-64 executable whose program header table lies in the file:
    it accepts exactly those and returns the fields of the header, refuses the
    others with an error, and panics only on files of less than four bytes. *)
Theorem elf_parse_correct file :
  bytes_ok file → zlen file < 2 ^ 63 →
  (∀ e, Elf.parse file = Ok e ↔ accepted file e) ∧
  (Elf.parse file = Panic ↔ zlen file < 4) ∧ Elf.parse file ≠ Diverge.
Proof.
  intros Hok Hlen. pose proof (parse_ok file Hok Hlen) as Hp. split_and!.
  - intros e. split; [by intros E; rewrite E in Hp|]. intros He.
    destruct (Elf.parse file) as [e'| | |]; simpl in Hp.
    + f_equal. by rewrite (acc_elf _ _ He), (acc_elf _ _ Hp).
    + by destruct (Hp e).
    + pose proof (acc_header _ _ He). lia.
    + done.
  - split; [by intros E; rewrite E in Hp|]. intros Hs. unfold Elf.parse.
    rewrite get_range_prefix, (proj2 (Z.leb_gt _ _)) by lia. simpl. unfold slice.
    by rewrite get_range_prefix, (proj2 (Z.leb_gt _ _)) by lia.
  - intros E. by rewrite E in Hp.
Qed.

(** Whatever the program headers of an accepted file hold, the iteration over its
    segments ends, and every segment it yields is the page-aligned image of a
    loadable header of the table, with its bytes inside the file; it panics only on
    a loadable header with alignment 0. *)
Theorem elf_segments_sound file e :
  bytes_ok file → zlen file < 2 ^ 63 → Elf.parse file = Ok e →
  match Elf.items (Elf.segments e) with
  | Ok its => ∀ seg, inr seg ∈ its →
      ∃ ph, ph ∈ headers e ∧ p_type ph = PT_LOAD ∧ segment_ok file ph seg
  | Err _ | Diverge => False
  | Panic => ∃ ph, ph ∈ headers e ∧ p_type ph = PT_LOAD ∧ p_align ph = 0
  end.
Proof.
  intros Hok Hlen Hp. pose proof (parse_ok file Hok Hlen) as Ha. rewrite Hp in Ha. simpl in Ha.
  pose proof (accepted_ok _ _ Hok Hlen Ha) as He. assert (Elf.elf_bytes e = file) as Hb
    by (rewrite (acc_elf _ _ Ha); done).
  pose proof (items_fuel_spec e He (S (Z.to_nat (Elf.ph_num e - 0))) 0 ltac:(lia) ltac:(lia)) as Hi.
  unfold Elf.items, Elf.segments. cbn [Elf.elf Elf.index].
  destruct (Elf.items_fuel _ _) as [its| | |]; [|done..]. intros seg Hseg.
  rewrite Forall_forall in Hi. destruct (Hi _ (proj1 (list_elem_of_In _ _) Hseg) seg eq_refl) as (ph & Hph & Hty & Hof).
  exists ph. split_and!; [done..|]. rewrite Hb in Hof. apply list_elem_of_fmap in Hph as (k & -> & _).
  apply segment_of_ok; [apply (le_at_bound _ (ok_bytes e He)); lia..|]. by rewrite Hb in *.
Qed.

(** C19. On a table of whole headers (entries of at least 56 bytes) whose loadable
    ones have a non-zero alignment and an end that does not overflow, the iterator
    yields exactly the loadable headers, in order, each decoded as the format says. *)
Theorem elf_segments_equiv file e :
  bytes_ok file → zlen file < 2 ^ 63 → Elf.parse file = Ok e →
  56 ≤ Elf.ph_entry_size e → Forall sane (headers e) →
  Elf.items (Elf.segments e) = Ok (segment_of file <$> filter is_load (headers e)).
Proof.
  intros Hok Hlen Hp Hs Hh. pose proof (parse_ok file Hok Hlen) as Ha. rewrite Hp in Ha. simpl in Ha.
  pose proof (accepted_ok _ _ Hok Hlen Ha) as He.
  assert (Elf.elf_bytes e = file) as <- by (rewrite (acc_elf _ _ Ha); done).
  unfold Elf.items, Elf.segments. apply items_fuel_equiv; (done || simpl; lia).
Qed.

(** * A small executable *)
Definition sample_phdr (ty flags offset vaddr filesz memsz align : Z) : list Z :=
  le_bytes 4 ty ++ le_bytes 4 flags ++ le_bytes 8 offset ++ le_bytes 8 vaddr ++ le_bytes 8 vaddr ++
  le_bytes 8 filesz ++ le_bytes 8 memsz ++ le_bytes 8 align.
Definition sample_elf : list Z :=
  Elf.magic ++ [2; 1; 1] ++ replicate 9 0 ++ le_bytes 2 2 ++ le_bytes 2 0x3E ++ le_bytes 4 1 ++
  le_bytes 8 0x401010 ++ le_bytes 8 0x40 ++ le_bytes 8 0 ++ le_bytes 4 0 ++ le_bytes 2 0x40 ++
  le_bytes 2 56 ++ le_bytes 2 2 ++ replicate 6 0 ++
  sample_phdr 6 4 0x40 0x400040 0x70 0x70 8 ++ sample_phdr 1 5 0xB0 0x4010B0 4 0x20 0x1000 ++
  [0xF4; 0xEB; 0xFD; 0x90].
Definition sample_parsed : Elf.Elf := Elf.mkElf sample_elf 0x40 56 2 0x401010.
Definition sample_segment : Elf.Segment :=
  Elf.mkSegment 0x401000 0xB0 0x20 [0xF4; 0xEB; 0xFD; 0x90] (Elf.mkPermissions true false true).

Lemma Forall_bool_bytes l : forallb (λ b, (0 <=? b) && (b <? 256)) l = true ↔ bytes_ok l.
Proof.
  rewrite forallb_forall, Forall_forall. split; intros H x Hx; specialize (H x Hx).
  - apply andb_true_iff in H as [H1%Z.leb_le H2%Z.ltb_lt]. by split.
  - destruct H as [H1 H2]. apply andb_true_iff. by rewrite Z.leb_le, Z.ltb_lt.
Qed.
Lemma sample_elf_bytes : bytes_ok sample_elf.
Proof. rewrite <-Forall_bool_bytes. vm_compute. reflexivity. Qed.
Lemma sample_elf_parses : Elf.parse sample_elf = Ok sample_parsed.
Proof. vm_compute. reflexivity. Qed.

Lemma elf_parse_correct_witness :
  bytes_ok sample_elf ∧ zlen sample_elf < 2 ^ 63 ∧ accepted sample_elf sample_parsed.
Proof.
  split; [exact sample_elf_bytes|]. split; [reflexivity|].
  apply (proj1 (elf_parse_correct sample_elf sample_elf_bytes eq_refl)).
  exact sample_elf_parses.
Defined.

Lemma elf_segments_sound_witness :
  ∃ ph, ph ∈ headers sample_parsed ∧ p_type ph = PT_LOAD ∧ segment_ok sample_elf ph sample_segment.
Proof.
  pose proof (elf_segments_sound sample_elf sample_parsed sample_elf_bytes eq_refl sample_elf_parses) as H.
  assert (Elf.items (Elf.segments sample_parsed) = Ok [inr sample_segment]) as E
    by (vm_compute; reflexivity).
  rewrite E in H. apply H. left.
Defined.

Lemma elf_segments_equiv_witness :
  Forall sane (headers sample_parsed) ∧
  Elf.items (Elf.segments sample_parsed)
  = Ok (segment_of sample_elf <$> filter is_load (headers sample_parsed)).
Proof.
  assert (Forall sane (headers sample_parsed)) as Hs.
  { repeat constructor; vm_compute; discriminate. }
  split; [exact Hs|].
  apply (elf_segments_equiv sample_elf sample_parsed sample_elf_bytes eq_refl sample_elf_parses);
    [vm_compute; discriminate|exact Hs].
Defined.
