(* ===== verification/BootMm.v ===== *)
(** The bootloader's memory: bootloader/src/efi/memory.rs, efi/status.rs and
    bootloader/src/mm.rs.

    The firmware is not part of the sources: what its two services return is an
    argument of [memory_map_exit].  The physical memory the bootloader builds page
    tables in keeps the invariant of its range set, and satisfies the laws page
    tables ask of a memory. *)
From Stdlib Require Import ZArith Lia.
From stdpp Require Import prelude list numbers gmap.
From S2P Require Import Prelude Ranges RangeAlloc RangePages PageTable PageMem PageAlloc.

(** * Status codes of the firmware *)
Module Efi.
Inductive Warning :=
| UnknownGlyph | DeleteFailure | WriteFailure | WarnBufferTooSmall | StaleData | FileSystem
| ResetRequired | UndefinedWarning.
Definition warning_from (val : Z) : Warning :=
  match val with
  | 1 => UnknownGlyph | 2 => DeleteFailure | 3 => WriteFailure | 4 => WarnBufferTooSmall
  | 5 => StaleData | 6 => FileSystem | 7 => ResetRequired | _ => UndefinedWarning
  end.

Inductive Error :=
| LoadError | InvalidParameter | Unsupported | BadBufferSize | BufferTooSmall | NotReady
| DeviceError | WriteProtected | OutOfResources | VolumeCorrupted | VolumeFull | NoMedia
| MediaChanged | NotFound | AccessDenied | NoResponse | NoMapping | Timeout | NotStarted
| AlreadyStarted | Aborted | IcmpError | TftpError | ProtocolError | IncompatibleVersion
| SecurityViolation | CrcError | EndOfMedia | EndOfFile | InvalidLanguage | CompromisedData
| IpAddressConflict | HttpError | UndefinedError.
Definition error_from (val : Z) : Error :=
  match val with
  | 1 => LoadError | 2 => InvalidParameter | 3 => Unsupported | 4 => BadBufferSize
  | 5 => BufferTooSmall | 6 => NotReady | 7 => DeviceError | 8 => WriteProtected
  | 9 => OutOfResources | 10 => VolumeCorrupted | 11 => VolumeFull | 12 => NoMedia
  | 13 => MediaChanged | 14 => NotFound | 15 => AccessDenied | 16 => NoResponse
  | 17 => NoMapping | 18 => Timeout | 19 => NotStarted | 20 => AlreadyStarted
  | 21 => Aborted | 22 => IcmpError | 23 => TftpError | 24 => ProtocolError
  | 25 => IncompatibleVersion | 26 => SecurityViolation | 27 => CrcError | 28 => EndOfMedia
  | 31 => EndOfFile | 32 => InvalidLanguage | 33 => CompromisedData | 34 => IpAddressConflict
  | 35 => HttpError | _ => UndefinedError
  end.

Inductive Status := Success | Warn (w : Warning) | Fail (e : Error).
#[global] Instance Status_eq_dec : EqDecision Status.
Proof. intros ??. unfold Decision. repeat decide equality. Defined.
(** [val] is a signed word; [code] is its bits without the highest. *)
Definition status_from (val : Z) : Status :=
  let code := Z.shiftr (Z.shiftl (cast 64 val) 1 mod 2 ^ 64) 1 in
  if val =? 0 then Success
  else if val <? 0 then Warn (warning_from code)
  else Fail (error_from code).
End Efi.

(** * The memory map *)
Module Memory.
Inductive Error := WrongMemoryMapSize (size : Z) | ExitBootSvcFailed | MemoryMapOverflow.

Inductive MemoryType :=
| Reserved | LoaderCode | LoaderData | BootServicesCode | BootServicesData
| RuntimeServicesCode | RuntimeServicesData | ConventionalMemory | UnusableMemory
| ACPIReclaimMemory | ACPIMemoryNVS | MemoryMappedIO | MemoryMappedIOPortSpace | PalCode
| PersistentMemory | Unsupported.

Definition type_from (val : Z) : MemoryType :=
  match val with
  | 0 => Reserved | 1 => LoaderCode | 2 => LoaderData | 3 => BootServicesCode
  | 4 => BootServicesData | 5 => RuntimeServicesCode | 6 => RuntimeServicesData
  | 7 => ConventionalMemory | 8 => UnusableMemory | 9 => ACPIReclaimMemory
  | 10 => ACPIMemoryNVS | 11 => MemoryMappedIO | 12 => MemoryMappedIOPortSpace
  | 13 => PalCode | 14 => PersistentMemory | _ => Unsupported
  end.

Definition available_post_boot_svc_exit (self : MemoryType) : bool :=
  match self with
  | BootServicesCode | BootServicesData | PersistentMemory | ConventionalMemory => true
  | _ => false
  end.

Record MemoryDescriptor := mkMemoryDescriptor {
  mem_type : MemoryType; phys_addr : Z; virt_addr : Z; n_pages : Z; attribute : Z }.
Definition empty : MemoryDescriptor := mkMemoryDescriptor Reserved 0 0 0 0.
Definition DESCRIPTOR_SIZE : Z := 48.
Definition N_MEM_DESC : nat := 2048.

(** The call [free_memory.insert(..).unwrap()] or [.remove(..).unwrap()]. *)
Definition unwrapped {A} (m : M RangeSet Ranges.Error A) : M RangeSet Error A := unwrap_M m.
Definition new_range (a b : Z) : res Error Range := unwrap_res (Range.new a b).

Fixpoint collect (descs : list MemoryDescriptor) : M RangeSet Error unit :=
  match descs with
  | [] => mret tt
  | desc :: descs =>
      if negb (available_post_boot_svc_exit (mem_type desc)) then collect descs else
      offset ← lift (ok_or (checked_mul 64 (n_pages desc) 4096) MemoryMapOverflow);
      last ← lift (sub offset 1);
      end_ ← lift (ok_or (checked_add 64 (phys_addr desc) last) MemoryMapOverflow);
      r ← lift (new_range (phys_addr desc) end_);
      _ ← unwrapped (RangeSet.insert r);
      collect descs
  end.

(** [ret], [size] and [memory_map] are what [get_memory_map] returned and wrote,
    [ret_exit] is what [exit_boot_services] returned. *)
Definition memory_map_exit (ret size : Z) (memory_map : list MemoryDescriptor) (ret_exit : Z)
    : res Error RangeSet :=
  if negb (bool_decide (Efi.status_from ret = Efi.Success)) then Err (WrongMemoryMapSize size) else
  let memory_map := take (Z.to_nat (size / DESCRIPTOR_SIZE)) memory_map in
  if negb (bool_decide (Efi.status_from ret_exit = Efi.Success)) then Err ExitBootSvcFailed else
  match (_ ← collect memory_map;
         low ← lift (new_range 0x0000 0xFFFF);
         _ ← unwrapped (RangeSet.remove low);
         hole ← lift (new_range 0xA0000 0xFFFFF);
         _ ← unwrapped (RangeSet.remove hole);
         mret tt) RangeSet.new with
  | Ok (_, free_memory) => Ok free_memory
  | Err (e, _) => Err e
  | Panic => Panic
  | Diverge => Diverge
  end.
End Memory.

(** * The memory manager *)
Module Mm.
(** [SHARED.free_memory]. *)
Abbreviation FreeMemory := (option RangeSet).

Definition init (memory : RangeSet) (free : FreeMemory) : FreeMemory :=
  match free with Some _ => free | None => Some memory end.

(** [GlobalAlloc::alloc]: the null pointer is the failure. *)
Definition alloc (size align : Z) (free : FreeMemory) : res unit (Z * FreeMemory) :=
  match free with
  | None => Ok (0, None)
  | Some x =>
      match RangeSet.allocate size align x with
      | Ok (Some p, x) => Ok (p, Some x)
      | Ok (None, x) | Err (_, x) => Ok (0, Some x)
      | Panic => Panic
      | Diverge => Diverge
      end
  end.

Definition dealloc (ptr size : Z) (free : FreeMemory) : res unit FreeMemory :=
  x ← unwrap free;
  last ← unwrap (checked_sub size 1);
  end_ ← unwrap (checked_add 64 ptr last);
  r ← unwrap_res (Range.new ptr end_);
  match RangeSet.insert r x with
  | Ok (_, x) => Ok (Some x)
  | Err _ | Panic => Panic
  | Diverge => Diverge
  end.

(** [PhysicalMemory]: the bootloader runs on the identity map of the firmware. *)
Definition translate_mut (paddr size : Z) : option Z :=
  if size <=? 0 then None
  else match checked_add 64 paddr (size - 1) with Some _ => Some paddr | None => None end.
Definition alloc_phys (size align : Z) (x : RangeSet) : res unit (option Z * RangeSet) :=
  unwrap_res (RangeSet.allocate size align x).
End Mm.

(** * What the memory map says *)
Section map.
Import Memory.
Implicit Types (d : MemoryDescriptor) (ds : list MemoryDescriptor) (rs : RangeSet) (x : Z).

Definition usable_desc d : Prop := available_post_boot_svc_exit (mem_type d) = true.
#[global] Instance usable_desc_dec d : Decision (usable_desc d).
Proof. unfold usable_desc. apply _. Defined.
Definition desc_has d x : Prop := usable_desc d ∧ phys_addr d ≤ x < phys_addr d + n_pages d * 4096.
Definition desc_ok d : Prop := u64 (phys_addr d) ∧ u64 (n_pages d).
(** A region that reaches the top of the address space, or has no page. *)
Definition reaches_top d : Prop := usable_desc d ∧ 2 ^ 64 ≤ phys_addr d + n_pages d * 4096.
Definition no_page d : Prop := usable_desc d ∧ n_pages d = 0.
Definition regions ds : nat := length (filter usable_desc ds).

Lemma top_entry rs : wf rs → (∃ e, e ∈ RangeSet.entries rs ∧ end_ e = U64_MAX) → has rs U64_MAX.
Proof.
  intros Hwf (e & He & Hend). apply Exists_exists. exists e. split; [done|].
  destruct (ordered_from_In 0 e _ (proj2 (proj2 Hwf)) He). unfold addr_in. lia.
Qed.

(** One region of the loop. *)
Lemma collect_cons d ds rs :
  wf rs → desc_ok d → usable_desc d →
  (∃ rs', collect (d :: ds) rs = collect ds rs' ∧ wf rs' ∧ (in_use rs' ≤ S (in_use rs))%nat ∧
     ∀ x, has rs' x ↔ has rs x ∨ desc_has d x) ∨
  (collect (d :: ds) rs = Err (MemoryMapOverflow, rs) ∧ reaches_top d) ∨
  (collect (d :: ds) rs = Panic ∧ (no_page d ∨ in_use rs = N_RANGES ∨ has rs U64_MAX)).
Proof.
  intros Hwf [[Hp1 Hp2] [Hn1 Hn2]] Hu. cbn [collect]. rewrite Hu. cbn [negb].
  unfold checked_mul. destruct (Z.ltb_spec (n_pages d * 4096) (2 ^ 64)) as [Hm|Hm].
  2:{ right. left. split; [done|]. split; [done|lia]. }
  rewrite (M_bind_Ok (lift (ok_or (Some _) _)) _ _ _ _ eq_refl).
  destruct (Z.eq_dec (n_pages d) 0) as [E|Hnz].
  { right. right. rewrite E. split; [done|]. left. by split. }
  rewrite sub_Ok, (M_bind_Ok (lift (Ok _)) _ _ _ _ eq_refl) by lia.
  unfold checked_add. destruct (Z.ltb_spec (phys_addr d + (n_pages d * 4096 - 1)) (2 ^ 64)) as [Ha|Ha].
  2:{ right. left. split; [done|]. split; [done|lia]. }
  rewrite (M_bind_Ok (lift (ok_or (Some _) _)) _ _ _ _ eq_refl).
  unfold new_range, Range.new, Range.new_unchecked. rewrite (proj2 (Z.leb_le _ _)) by lia.
  set (r := mkRange (phys_addr d) (phys_addr d + (n_pages d * 4096 - 1))).
  rewrite (M_bind_Ok (lift (unwrap_res (Ok r))) _ _ r rs eq_refl).
  assert (valid r) as Hr by (unfold valid; simpl; lia).
  destruct (insert_returns rs r Hwf Hr) as [(rs' & E & Hi)|(rs' & E & Hwhy)].
  - left. exists rs'. destruct (insert_Ok rs r tt rs' Hwf Hr E) as [Hwf' Hhas].
    split; [by rewrite (M_bind_Ok _ _ _ tt rs') by (unfold unwrapped, unwrap_M; by rewrite E)|].
    split; [done|]. split; [done|]. intros x. rewrite Hhas. unfold addr_in, desc_has. simpl.
    split; (intros [?|?]; [by left|right]); [split; [done|lia]|lia].
  - right. right. split; [unfold mbind, M_bind, unwrapped, unwrap_M; by rewrite E|].
    right. destruct Hwhy as [?|?]; [by left|]. right. by apply top_entry.
Qed.

Lemma collect_spec ds rs :
  wf rs → Forall desc_ok ds →
  match collect ds rs with
  | Ok (_, rs') => wf rs' ∧ (in_use rs' ≤ in_use rs + regions ds)%nat ∧
      ∀ x, has rs' x ↔ has rs x ∨ ∃ d, d ∈ ds ∧ desc_has d x
  | Err (MemoryMapOverflow, _) => ∃ d, d ∈ ds ∧ reaches_top d
  | Err _ => False
  | Panic => has rs U64_MAX ∨ (N_RANGES < in_use rs + regions ds)%nat ∨
      ∃ d, d ∈ ds ∧ (no_page d ∨ reaches_top d)
  | Diverge => False
  end.
Proof.
  revert rs. induction ds as [|d ds IH]; intros rs Hwf Hok.
  { split; [done|]. split; [lia|]. intros x. split; [by left|]. intros [?|(d & Hd & _)]; [done|]. inversion Hd. }
  apply Forall_cons_iff in Hok as [Hd Hok]. unfold regions. rewrite filter_cons.
  destruct (decide (usable_desc d)) as [Hu|Hu].
  2:{ assert (collect (d :: ds) rs = collect ds rs) as ->.
      { cbn [collect]. unfold usable_desc in Hu. by destruct (available_post_boot_svc_exit (mem_type d)). }
      specialize (IH rs Hwf Hok). fold (regions ds).
      destruct (collect ds rs) as [[u rs']|[e rs']| |]; [| | |done].
      - destruct IH as (? & ? & Hhas). split_and!; [done..|]. intros x. rewrite Hhas.
        split; (intros [?|(d' & Hin & Hh)]; [by left|right]); [exists d'; by split; [right|]|].
        apply elem_of_cons in Hin as [->|Hin]; [|by exists d']. by destruct Hu, Hh.
      - destruct e; try done. destruct IH as (d' & ? & ?). exists d'. by split; [right|].
      - destruct IH as [?|[?|(d' & ? & ?)]]; [by left|by right; left|]. right. right. exists d'. by split; [right|]. }
  cbn [length]. fold (regions ds).
  destruct (collect_cons d ds rs Hwf Hd Hu) as [(rs1 & -> & Hwf1 & Hi & Hhas1)|[[-> Ht]|[-> Hwhy]]].
  - specialize (IH rs1 Hwf1 Hok). destruct (collect ds rs1) as [[u rs']|[e rs']| |]; [| | |done].
    + destruct IH as (? & ? & Hhas). split_and!; [done|lia|]. intros x. rewrite Hhas, Hhas1.
      split.
      * intros [[?|?]|(d' & ? & ?)]; [by left|right; exists d; by split; [left|]|right; exists d'; by split; [right|]].
      * intros [?|(d' & [->|Hin]%elem_of_cons & ?)]; [by left; left|by left; right|right; by exists d'].
    + destruct e; try done. destruct IH as (d' & Hin & Hr). exists d'. by split; [right|].
    + destruct IH as [Htop|[?|(d' & ? & ?)]]; [|right; left; lia|right; right; exists d'; by split; [right|]].
      destruct (proj1 (Hhas1 _) Htop) as [Hh|[_ Hh]]; [by left|]. right. right. exists d. split; [left|].
      right. split; [done|]. unfold umax in Hh. lia.
  - exists d. by split; [left|].
  - destruct Hwhy as [?|[?|?]]; [|right; left; lia|by left].
    right. right. exists d. split; [left|by left].
Qed.
End map.

Lemma status_success val : Efi.status_from val = Efi.Success ↔ val = 0.
Proof.
  unfold Efi.status_from. destruct (Z.eqb_spec val 0) as [->|Hn]; [done|].
  split; [by destruct (val <? 0)|done].
Qed.

(** The status codes of the firmware have their highest bit set for errors; the
    conversion takes those for warnings and the others for errors. *)
Lemma status_inverted code :
  0 < code < 2 ^ 63 →
  Efi.status_from (code - 2 ^ 63) = Efi.Warn (Efi.warning_from code) ∧
  Efi.status_from code = Efi.Fail (Efi.error_from code).
Proof.
  intros Hc. unfold Efi.status_from, cast.
  rewrite !(proj2 (Z.eqb_neq _ _)), (proj2 (Z.ltb_lt _ _)), (proj2 (Z.ltb_ge _ _)) by lia.
  assert (∀ b, b = 0 ∨ b = 2 ^ 63 → Z.shiftr (Z.shiftl (code + b) 1 mod 2 ^ 64) 1 = code) as Hsh.
  { intros b Hb. rewrite Z.shiftl_mul_pow2, Z.shiftr_div_pow2 by lia. change (2 ^ 1) with 2.
    assert ((code + b) * 2 mod 2 ^ 64 = code * 2) as ->; [|by rewrite Z.div_mul by lia].
    destruct Hb as [->| ->]; [rewrite Z.add_0_r; apply Z.mod_small; lia|].
    rewrite Z.mul_add_distr_r. change (2 ^ 63 * 2) with (1 * 2 ^ 64).
    rewrite Z.mod_add, Z.mod_small by lia. done. }
  split.
  - replace ((code - 2 ^ 63) mod 2 ^ 64) with (code + 2 ^ 63); [by rewrite Hsh by auto|].
    apply (Z.mod_unique_pos _ _ (-1)); lia.
  - rewrite (Z.mod_small code) by lia. pose proof (Hsh 0 (or_introl eq_refl)) as H0.
    rewrite Z.add_0_r in H0. by rewrite H0.
Qed.

Section map_theorem.
Import Memory.

(** The reserved parts of a collected map are taken out of it. *)
Lemma reserve_low rs :
  wf rs →
  match (low ← lift (new_range 0x0000 0xFFFF); _ ← unwrapped (RangeSet.remove low);
         hole ← lift (new_range 0xA0000 0xFFFFF); _ ← unwrapped (RangeSet.remove hole);
         mret tt) rs with
  | Ok (_, rs') => wf rs' ∧
      ∀ x, has rs' x ↔ has rs x ∧ ¬ 0 ≤ x ≤ 0xFFFF ∧ ¬ 0xA0000 ≤ x ≤ 0xFFFFF
  | Panic => (N_RANGES ≤ in_use rs)%nat
  | _ => False
  end.
Proof.
  intros Hwf. set (low := mkRange 0x0000 0xFFFF). set (hole := mkRange 0xA0000 0xFFFFF).
  assert (valid low) as Hl by (unfold valid; simpl; lia).
  assert (valid hole) as Hh by (unfold valid; simpl; lia).
  rewrite (M_bind_Ok (lift (new_range 0x0000 0xFFFF)) _ _ low rs eq_refl).
  destruct (remove_bottom rs low Hwf Hl eq_refl) as (any & rs1 & E1 & Hi).
  destruct (remove_Ok rs low any rs1 Hwf Hl E1) as (Hwf1 & Hhas1 & _).
  rewrite (M_bind_Ok (unwrapped (RangeSet.remove low)) _ _ any rs1)
    by (unfold unwrapped, unwrap_M; by rewrite E1).
  rewrite (M_bind_Ok (lift (new_range 0xA0000 0xFFFFF)) _ _ hole rs1 eq_refl).
  destruct (remove_returns rs1 hole Hwf1 Hh) as [(any2 & rs2 & E2)|(rs2 & E2 & _ & Hfull & _)].
  - rewrite (M_bind_Ok (unwrapped (RangeSet.remove hole)) _ _ any2 rs2)
      by (unfold unwrapped, unwrap_M; by rewrite E2).
    destruct (remove_Ok rs1 hole any2 rs2 Hwf1 Hh E2) as (Hwf2 & Hhas2 & _).
    split; [done|]. intros x. rewrite Hhas2, Hhas1. unfold addr_in, low, hole. simpl. tauto.
  - unfold mbind, M_bind, unwrapped, unwrap_M. rewrite E2. simpl. lia.
Qed.

(** C21. The memory map of the bootloader.  When the firmware's calls succeed and no
    usable region is empty, reaches the top of the address space, or is one of 256
    or more, [memory_map_exit] returns a well-formed set that holds exactly the
    addresses of the usable regions outside the first 64 KiB and the BIOS hole;
    every error and panic has its named reason. *)
Theorem memory_map_correct ret size memory_map ret_exit :
  Forall desc_ok memory_map →
  let ds := take (Z.to_nat (size / DESCRIPTOR_SIZE)) memory_map in
  match memory_map_exit ret size memory_map ret_exit with
  | Ok rs => ret = 0 ∧ ret_exit = 0 ∧ wf rs ∧
      ∀ x, has rs x ↔
        (∃ d, d ∈ ds ∧ desc_has d x) ∧ ¬ 0 ≤ x ≤ 0xFFFF ∧ ¬ 0xA0000 ≤ x ≤ 0xFFFFF
  | Err (WrongMemoryMapSize n) => ret ≠ 0 ∧ n = size
  | Err ExitBootSvcFailed => ret_exit ≠ 0
  | Err MemoryMapOverflow => ∃ d, d ∈ ds ∧ reaches_top d
  | Panic => (N_RANGES ≤ regions ds)%nat ∨ ∃ d, d ∈ ds ∧ (no_page d ∨ reaches_top d)
  | Diverge => False
  end.
Proof.
  intros Hok ds. unfold memory_map_exit.
  destruct (bool_decide (Efi.status_from ret = _)) eqn:E1; cbn [negb].
  2:{ apply bool_decide_eq_false in E1. split; [by rewrite status_success in E1|done]. }
  destruct (bool_decide (Efi.status_from ret_exit = _)) eqn:E2; cbn [negb].
  2:{ apply bool_decide_eq_false in E2. by rewrite status_success in E2. }
  apply bool_decide_eq_true, status_success in E1. apply bool_decide_eq_true, status_success in E2.
  fold ds. assert (wf RangeSet.new) as Hnew by (split_and!; [done|simpl; lia|done]).
  pose proof (collect_spec ds RangeSet.new Hnew (Forall_take _ _ _ Hok)) as Hc.
  assert (∀ x, has RangeSet.new x ↔ False) as Hempty by (intros x; apply covers_nil).
  unfold mbind at 1, M_bind at 1.
  destruct (collect ds RangeSet.new) as [[u rs]|[e rs]| |]; [|by destruct e| |done].
  - destruct Hc as (Hwf & Hi & Hhas). pose proof (reserve_low rs Hwf) as Hr. simpl in Hi.
    match type of Hr with match ?m with _ => _ end =>
      destruct m as [[u' rs']|?| |]; [|done| |done] end.
    + destruct Hr as [Hwf' Hhas']. split_and!; [done..|]. intros x. rewrite Hhas', Hhas, Hempty. tauto.
    + left. lia.
  - rewrite Hempty in Hc. destruct Hc as [?|[?|?]]; [done| |by right]. left. simpl in *. lia.
Qed.
End map_theorem.

(** * The heap of the bootloader *)
Section heap.
Implicit Types (x : RangeSet).

Lemma allocate_none_prefer x size align k :
  wf x → 0 < size < 2 ^ 64 → 0 ≤ k < 64 → align = 2 ^ k →
  RangeSet.allocate size align x = Ok (None, x) ∨
  ∃ p x', RangeSet.allocate size align x = Ok (Some p, x') ∧ block_taken x x' size align p.
Proof.
  intros Hwf Hs Hk Ha. unfold RangeSet.allocate.
  destruct (allocate_cases x size align k None Hwf Hs Hk Ha) as [?|[?|(_ & _ & [? ?])]]; try done; auto.
Qed.

Lemma block_bounds x x' size align p : wf x → 0 < size → block_taken x x' size align p → 0 ≤ p ∧ p + size ≤ 2 ^ 64.
Proof.
  intros (_ & _ & Ho) Hs (_ & _ & Hb & _).
  pose proof (covers_ordered 0 _ _ Ho (proj1 (Hb p ltac:(lia)))).
  pose proof (covers_ordered 0 _ _ Ho (proj1 (Hb (p + size - 1) ltac:(lia)))). lia.
Qed.

(** The bootloader's heap.  An allocation returns a null pointer and leaves the
    free memory alone, or an aligned block that was free and is no longer; freeing
    that block makes exactly its addresses free again, as long as the set has a
    free entry and none at the top of the address space. *)
Theorem boot_heap_correct x size align k :
  wf x → 0 < size < 2 ^ 64 → 0 ≤ k < 64 → align = 2 ^ k →
  ∃ p x', Mm.alloc size align (Some x) = Ok (p, Some x') ∧
    (p = 0 ∧ x' = x ∨
     block_taken x x' size align p ∧
     ((in_use x' < N_RANGES)%nat → ¬ has x' U64_MAX →
      ∃ x'', Mm.dealloc p size (Some x') = Ok (Some x'') ∧ wf x'' ∧
        ∀ a, has x'' a ↔ has x' a ∨ p ≤ a < p + size)).
Proof.
  intros Hwf Hs Hk Ha. unfold Mm.alloc.
  destruct (allocate_none_prefer x size align k Hwf Hs Hk Ha) as [->|(p & x' & -> & Hb)].
  { exists 0, x. split; [done|]. by left. }
  exists p, x'. split; [done|]. right. split; [done|]. intros Hroom Htop.
  destruct (block_bounds _ _ _ _ _ Hwf (proj1 Hs) Hb) as [Hp Hend]. pose proof (proj1 Hb) as Hwf'.
  set (r := mkRange p (p + (size - 1))).
  assert (valid r) as Hr by (unfold valid; simpl; lia).
  unfold Mm.dealloc, checked_sub, checked_add, Range.new, Range.new_unchecked. cbn [unwrap mbind res_bind].
  rewrite (proj2 (Z.leb_le 1 size)) by lia. cbn [unwrap mbind res_bind].
  rewrite (proj2 (Z.ltb_lt (p + (size - 1)) (2 ^ 64))) by lia. cbn [unwrap mbind res_bind].
  rewrite (proj2 (Z.leb_le p (p + (size - 1)))) by lia. cbn [unwrap_res mbind res_bind]. fold r.
  destruct (insert_returns x' r Hwf' Hr) as [(x2 & E & _)|(x2 & _ & [?|?])]; [|lia|].
  - destruct (insert_Ok x' r tt x2 Hwf' Hr E) as [Hwf2 Hhas]. rewrite E. exists x2.
    split; [done|]. split; [done|]. intros a. rewrite Hhas. unfold addr_in, r. simpl.
    split; (intros [?|?]; [by left|right; lia]).
  - by destruct Htop; apply top_entry.
Qed.
End heap.

(** * Physical memory for page tables *)

(** The free memory and the blocks handed out, which it does not hold. *)
Record pmem_inv (free : RangeSet) (bs : list block) : Prop := {
  inv_wf : wf free;
  inv_top a : has free a → a < 2 ^ 52;
  inv_size b : b ∈ bs → 0 < b.2;
  inv_free b a : b ∈ bs → in_block a b → ¬ has free a;
  inv_apart b b' : b ∈ bs → b' ∈ bs → b = b' ∨ apart b b';
}.

(** The memory behind [mm::PhysicalMemory]: its range set, its bytes, and the
    blocks it has handed out. *)
Record Pmem := mkPmem {
  pmem_free : RangeSet; pmem_bytes : gmap Z Z; pmem_blocks : list block;
  pmem_ok : pmem_inv pmem_free pmem_blocks }.

(** A layout is two machine words; a panic of the call is a [None], on which the
    callers panic. *)
Definition pmem_take (size align : Z) (free : RangeSet) (bs : list block)
    : option Z * RangeSet * list block :=
  if (0 <? size) && (size <? 2 ^ 64) && (align <? 2 ^ 64) then
    match Mm.alloc_phys size align free with
    | Ok (Some p, free) => (Some p, free, (p, size) :: bs)
    | Ok (None, free) => (None, free, bs)
    | _ => (None, free, bs)
    end
  else (None, free, bs).

Lemma taken_apart free free' size align p b :
  0 < size → 0 < b.2 → block_taken free free' size align p →
  (∀ a, in_block a b → ¬ has free a) → apart (p, size) b.
Proof.
  intros Hs Hb (_ & _ & Ht & _) Hf. destruct b as [q n]. unfold apart, in_block in *. simpl in *.
  destruct (Z.le_gt_cases (p + size) q); [by left|]. destruct (Z.le_gt_cases (q + n) p); [by right|].
  destruct (Hf (Z.max p q)); [lia|]. apply Ht. lia.
Qed.

Lemma pmem_take_spec size align free bs :
  pmem_inv free bs →
  let '(o, free', bs') := pmem_take size align free bs in
  match o with
  | None => free' = free ∧ bs' = bs
  | Some p => 0 < size ∧ (align | p) ∧ 0 ≤ p ∧ p + size ≤ 2 ^ 52 ∧ bs' = (p, size) :: bs ∧
      Forall (apart (p, size)) bs ∧ block_taken free free' size align p
  end.
Proof.
  intros Hinv. unfold pmem_take. destruct (Z.ltb_spec 0 size) as [Hs|]; [|done].
  destruct (Z.ltb_spec size (2 ^ 64)); [|done]. destruct (Z.ltb_spec align (2 ^ 64)); [|done]. cbn [andb].
  unfold Mm.alloc_phys. destruct (decide (count_ones align = 1%nat)) as [H1|H1].
  2:{ unfold RangeSet.allocate, RangeSet.allocate_prefer. rewrite (proj2 (Z.eqb_neq size 0)) by lia.
      by rewrite (proj2 (Nat.eqb_neq _ _) H1). }
  destruct (count_ones_one _ H1) as (k & Hk & Ha).
  assert (k < 64) by (apply (Z.pow_lt_mono_r_iff 2); lia).
  destruct (allocate_none_prefer free size align k (inv_wf _ _ Hinv)) as [E|(p & free' & E & Hb)];
    [lia|lia|done|by rewrite E|]. rewrite E. cbn [unwrap_res].
  destruct (block_bounds _ _ _ _ _ (inv_wf _ _ Hinv) Hs Hb) as [Hp _].
  pose proof (inv_top _ _ Hinv (p + size - 1)) as Htop.
  pose proof Hb as (_ & Hal & Ht & _).
  split; [done|]. split; [done|]. split; [done|]. split; [specialize (Htop (proj1 (Ht (p + size - 1) ltac:(lia)))); lia|].
  split; [done|]. split; [|done]. apply Forall_forall. intros b Hin.
  eapply taken_apart; [done|exact (inv_size _ _ Hinv b Hin)|exact Hb|]. intros a. exact (inv_free _ _ Hinv b a Hin).
Qed.

Lemma pmem_take_inv size align free bs :
  pmem_inv free bs → let r := pmem_take size align free bs in pmem_inv r.1.2 r.2.
Proof.
  intros Hinv. pose proof (pmem_take_spec size align free bs Hinv) as H. cbv zeta.
  destruct (pmem_take size align free bs) as [[[p|] free'] bs']; cbn [fst snd]; [|by destruct H as [-> ->]].
  destruct H as (Hs & _ & _ & _ & -> & Hap & Hwf & _ & Ht & Hsub & _). split.
  - done.
  - intros a Ha. by apply (inv_top _ _ Hinv), Hsub.
  - intros b [->|Hb]%elem_of_cons; [done|exact (inv_size _ _ Hinv b Hb)].
  - intros b a [->|Hb]%elem_of_cons Ha Hh; [by apply (Ht a Ha)|].
    by apply (inv_free _ _ Hinv b a Hb Ha), Hsub.
  - rewrite Forall_forall in Hap.
    assert (∀ b, b ∈ bs → apart (p, size) b) as Hap' by (intros b Hb; by apply Hap).
    intros b b' [->|Hb]%elem_of_cons [->|Hb']%elem_of_cons; [by left| | |exact (inv_apart _ _ Hinv b b' Hb Hb')].
    + right. by apply Hap'.
    + right. specialize (Hap' b Hb). unfold apart in *. simpl in *. lia.
Qed.

#[global] Instance pmem_phys : PhysMem Pmem := {
  translate p n _ := Mm.translate_mut p n;
  alloc_phys size align s :=
    let r := pmem_take size align (pmem_free s) (pmem_blocks s) in
    (r.1.1, mkPmem r.1.2 (pmem_bytes s) r.2 (pmem_take_inv size align _ _ (pmem_ok s)));
  peek q s := from_option (λ b, b mod 256) 0 (pmem_bytes s !! q);
  poke q b s := mkPmem (pmem_free s) (<[q := b]> (pmem_bytes s)) (pmem_blocks s) (pmem_ok s);
}.

Lemma translate_mut_Some p n v : Mm.translate_mut p n = Some v ↔ v = p ∧ 0 < n ∧ p + (n - 1) < 2 ^ 64.
Proof.
  unfold Mm.translate_mut, checked_add. destruct (Z.leb_spec n 0); [naive_solver lia|].
  destruct (Z.ltb_spec (p + (n - 1)) (2 ^ 64)); naive_solver lia.
Qed.

(** The bootloader's memory keeps what page tables ask of it. *)
#[global] Instance pmem_laws : PhysMemLaws Pmem.
Proof.
  refine {| offset := 0; owned := pmem_blocks |}.
  - intros p n s v. cbn. intros [-> _]%translate_mut_Some. lia.
  - intros p n s v q m. cbn. intros (-> & ? & ?)%translate_mut_Some ???.
    apply translate_mut_Some. lia.
  - intros q s. cbn. destruct (pmem_bytes s !! q); simpl; [|unfold fits; lia]. apply Z.mod_pos_bound. lia.
  - intros q p b s Hb. cbn. destruct (decide (q = p)) as [->|Hne].
    + rewrite lookup_insert_eq. simpl. by apply Z.mod_small.
    + by rewrite lookup_insert_ne by done.
  - done.
  - done.
  - intros s b b'. apply (inv_apart _ _ (pmem_ok s)).
  - done.
  - intros size align s o s' q b E _ _. cbn in E |- *. by injection E as <- <-.
  - intros size align s s' E. cbn in E. injection E as E1 <-. cbn.
    pose proof (pmem_take_spec size align _ _ (pmem_ok s)) as H.
    destruct (pmem_take _ _ _ _) as [[o free'] bs']. simpl in *. subst o. by destruct H.
  - intros size align s a s' Hs E. cbn in E. injection E as E1 <-. cbn.
    pose proof (pmem_take_spec size align _ _ (pmem_ok s)) as H.
    destruct (pmem_take _ _ _ _) as [[o free'] bs']. simpl in *. subst o.
    destruct H as (_ & ? & ? & ? & ? & ? & _). split_and!; try done.
    apply translate_mut_Some. lia.
Defined.

(** ** Enough memory *)
Definition pmem_pages (s : Pmem) : Z := capacity (RangeSet.entries (pmem_free s)).

Lemma pmem_take_page free bs :
  pmem_inv free bs →
  let '(o, free', _) := pmem_take 4096 4096 free bs in
  match o with
  | None => capacity (RangeSet.entries free) = 0 ∧ free' = free
  | Some _ => capacity (RangeSet.entries free) - 1 ≤ capacity (RangeSet.entries free')
  end.
Proof.
  intros Hinv. unfold pmem_take, Mm.alloc_phys. change (_ && _ && _) with true. cbn iota.
  destruct (allocate_none_prefer free 4096 4096 12 (inv_wf _ _ Hinv)) as [E|(p & free' & E & _)];
    [lia|lia|done|..]; rewrite E; cbn [unwrap_res].
  - split; [|done]. eapply allocate_page_none; [apply Hinv|apply Hinv|exact E].
  - eapply allocate_page; [apply Hinv|exact E].
Qed.

Lemma after_pages l s s' :
  Forall (λ x, x = 4096) l → after l s s' → pmem_pages s - zlen l ≤ pmem_pages s'.
Proof.
  intros Hl H. unfold zlen. induction H as [s|l s s1 q b H IH|l s s1 sz a s2 H IH Ha|l s s1 sz s2 H IH Ha].
  - simpl. lia.
  - specialize (IH Hl). unfold pmem_pages in *. simpl. lia.
  - apply Forall_cons_iff in Hl as [-> Hl]. specialize (IH Hl).
    cbn in Ha. injection Ha as Ha1 <-. unfold pmem_pages in *. cbn [pmem_free length].
    pose proof (pmem_take_page _ _ (pmem_ok s1)) as Ht.
    destruct (pmem_take 4096 4096 _ _) as [[o free'] bs']. simpl in *. subst o. lia.
  - specialize (IH Hl). cbn in Ha. injection Ha as Ha1 <-. unfold pmem_pages in *. cbn [pmem_free].
    pose proof (pmem_take_spec sz sz _ _ (pmem_ok s1)) as Ht.
    destruct (pmem_take sz sz _ _) as [[o free'] bs']. simpl in *. subst o. destruct Ht as [-> _]. lia.
Qed.

(** A memory of [n] pages is not short of [n] pages. *)
Lemma pmem_enough n s : Z.of_nat n ≤ pmem_pages s → ¬ short 4096 n s.
Proof.
  intros Hn (k & s1 & s2 & z & Hk & (l & Hlen & Hf & Haf) & Hz & Ha).
  assert (z = 4096) as -> by (by destruct Hz).
  pose proof (after_pages l s s1) as Hp. specialize (Hp ltac:(eapply Forall_impl; [exact Hf|]; by intros x [?|?]) Haf).
  cbn in Ha. injection Ha as Ha1 _. pose proof (pmem_take_page _ _ (pmem_ok s1)) as Ht.
  destruct (pmem_take 4096 4096 _ _) as [[o free'] bs']. simpl in *. subst o. destruct Ht as [Ht _].
  unfold pmem_pages, zlen in *. lia.
Qed.

(** * Witnesses *)
Definition sample_map : list Memory.MemoryDescriptor :=
  [Memory.mkMemoryDescriptor Memory.ConventionalMemory 0 0 0xA0 0;
   Memory.mkMemoryDescriptor Memory.RuntimeServicesData 0x100000 0 0x10 0;
   Memory.mkMemoryDescriptor Memory.BootServicesData 0x110000 0 0x100 0].
Lemma sample_map_ok : Forall desc_ok sample_map.
Proof. repeat constructor; simpl; lia. Qed.

Lemma memory_map_correct_witness :
  ∃ rs, Memory.memory_map_exit 0 144 sample_map 0 = Ok rs ∧ wf rs ∧
    ∀ x, has rs x ↔ (∃ d, d ∈ sample_map ∧ desc_has d x) ∧ ¬ 0 ≤ x ≤ 0xFFFF ∧ ¬ 0xA0000 ≤ x ≤ 0xFFFFF.
Proof.
  pose proof (memory_map_correct 0 144 sample_map 0 sample_map_ok) as H.
  destruct (Memory.memory_map_exit 0 144 sample_map 0) as [rs| | |] eqn:E;
    [|vm_compute in E; discriminate E..].
  destruct H as (_ & _ & Hwf & Hx). exists rs. split; [reflexivity|]. split; [exact Hwf|exact Hx].
Defined.

Lemma boot_heap_correct_witness :
  ∃ p x', Mm.alloc 0x1000 0x1000 (Some Ranges.sample) = Ok (p, Some x') ∧
    (p = 0 ∧ x' = Ranges.sample ∨
     block_taken Ranges.sample x' 0x1000 0x1000 p ∧
     ((in_use x' < N_RANGES)%nat → ¬ has x' U64_MAX →
      ∃ x'', Mm.dealloc p 0x1000 (Some x') = Ok (Some x'') ∧ wf x'' ∧
        ∀ a, has x'' a ↔ has x' a ∨ p ≤ a < p + 0x1000)).
Proof. apply (boot_heap_correct Ranges.sample 0x1000 0x1000 12); [apply sample_wf|lia|lia|reflexivity]. Defined.
