(* ===== verification/Boot.v ===== *)
(** Loading the kernel: bootloader/src/main.rs and bootloader/src/trampoline.rs.

    The page tables are built in a memory with the laws of PageMem.v (BootMm.v shows
    that the bootloader's has them); the embedded images are arguments, and so is
    what the processor says of its features. *)
From Stdlib Require Import ZArith Lia.
From stdpp Require Import prelude list numbers gmap.
From S2P Require Import Prelude Packet Ranges PageTable PageMem PageMap PageSpace PageRam.
From S2P Require Import KernelMm KernelAlloc Elf BootMm.
Import Layout.

Section model.
Context {S : Type} `{PhysMem S}.

(** The part of [SHARED] the loader changes, with the physical memory, and the
    entry that maps the trampoline. *)
Record Boot := mkBoot {
  kernel_image : option Elf.Elf; kernel_pt : option Z; next_stack : Z; pmem : S; RAW_PT_ENTRY : Z }.

(** ** trampoline.rs: the trampoline's page in the firmware's table, once *)
Definition trampoline_init (trampoline : list Z) (offset : Z) : Z :=
  from_option id 0 (trampoline !! Z.to_nat offset).
Definition map_trampoline (table : Z) (trampoline : list Z) : M S unit Z :=
  request ← lift (unwrap_res (MapRequest_new TRAMPOLINE_ADDR Page4K (zlen trampoline)
    (Permissions.new false true false)));
  _ ← unwrap_M (PageTable.map_init table request (Some (trampoline_init trampoline)));
  mapping ← unwrap_M (PageTable.components table TRAMPOLINE_ADDR);
  page ← lift (unwrap (page mapping));
  mret page.2.
Definition map_once (table : Z) (trampoline : list Z) (self : Boot) : res unit Boot :=
  if negb (RAW_PT_ENTRY self =? 0) then Ok self else
  match map_trampoline table trampoline (pmem self) with
  | Ok (raw, s) => Ok (mkBoot (kernel_image self) (kernel_pt self) (next_stack self) s raw)
  | Err _ | Panic => Panic
  | Diverge => Diverge
  end.

(** ** main.rs: the segments of the kernel *)
Definition segment_init (segment : Elf.Segment) (mem_offset : Z) : Z :=
  if Elf.offset segment <=? mem_offset
  then from_option id 0 (Elf.bytes segment !! Z.to_nat (mem_offset - Elf.offset segment))
  else 0.
Definition segment_perms (segment : Elf.Segment) : Permissions :=
  Permissions.new (Elf.write (Elf.permissions segment)) (Elf.execute (Elf.permissions segment)) false.

(** The outcome of [map_init] is not looked at. *)
Definition ignored (m : M S unit unit) : M S unit unit := λ s,
  match m s with
  | Ok (_, s) | Err (_, s) => Ok (tt, s)
  | Panic => Panic
  | Diverge => Diverge
  end.
Definition map_segment (table : Z) (segment : Elf.Segment) : M S unit unit :=
  size ← lift (add 64 (Elf.offset segment) (Elf.vsize segment));
  request ← lift (unwrap_res (MapRequest_new (Elf.vaddr segment) Page4K size (segment_perms segment)));
  ignored (PageTable.map_init table request (Some (segment_init segment))).

Fixpoint map_segments (fuel : nat) (table : Z) (it : Elf.ElfSegments) : M S unit unit :=
  match fuel with
  | O => diverge
  | Datatypes.S fuel =>
      match Elf.next it with
      | Ok (inr segment, it) => _ ← map_segment table segment; map_segments fuel table it
      | Ok (inl _, _) => panic
      | Err _ => mret tt
      | Panic => panic
      | Diverge => diverge
      end
  end.

(** ** The window onto physical memory *)
Definition window_type (gbyte_pages pse : bool) : PageType :=
  if gbyte_pages then Page1G else if pse then Page2M else Page4K.
Definition window_mask (t : PageType) : Z :=
  Z.lor (Z.lor (Z.lor 0 PAGE_WRITE) PAGE_PRESENT) (match t with Page4K => 0 | _ => PAGE_SIZE end).
(** [n] pages from [paddr] on. *)
Fixpoint map_window (table : Z) (t : PageType) (n : nat) (paddr : Z) : M S unit unit :=
  match n with
  | O => mret tt
  | Datatypes.S n =>
      virt ← lift (add 64 KERNEL_PHYS_WINDOW_BASE paddr);
      _ ← unwrap_M (PageTable.map_raw table virt t (Z.lor paddr (window_mask t)));
      map_window table t n (paddr + PageType.size t)
  end.

(** ** load_kernel *)
Definition load_tables (kernel : Elf.Elf) (trampoline_raw : Z) (gbyte_pages pse : bool) : M S unit Z :=
  table ← must PageTable.new;
  _ ← map_segments (Datatypes.S (Z.to_nat (Elf.ph_num kernel))) table (Elf.segments kernel);
  _ ← lift (assert (negb (trampoline_raw =? 0)));
  _ ← unwrap_M (PageTable.map_raw table TRAMPOLINE_ADDR Page4K trampoline_raw);
  let page_type := window_type gbyte_pages pse in
  _ ← map_window table page_type (Z.to_nat (KERNEL_PHYS_WINDOW_SIZE / PageType.size page_type)) 0;
  mret table.

Definition load_kernel (initial_kernel_image : list Z) (gbyte_pages pse : bool) (self : Boot)
    : res unit Boot :=
  kernel ← match kernel_image self with
           | Some kernel => Ok kernel
           | None => unwrap_res (Elf.parse initial_kernel_image)
           end;
  match load_tables kernel (RAW_PT_ENTRY self) gbyte_pages pse (pmem self) with
  | Ok (table, s) =>
      Ok (mkBoot (Some kernel) (Some table) (reset_stack (next_stack self)) s (RAW_PT_ENTRY self))
  | Err _ | Panic => Panic
  | Diverge => Diverge
  end.

(** ** map_kernel_stack: the value for the stack pointer *)
Definition map_stack (table stack_base : Z) : M S unit unit :=
  request ← lift (unwrap_res (MapRequest_new stack_base Page4K KERNEL_STACK_SIZE_PADDED
    (Permissions.new true false false)));
  unwrap_M (PageTable.map table request).
Definition map_kernel_stack (self : Boot) : res unit (Z * Boot) :=
  table ← unwrap (kernel_pt self);
  let '(o, next) := get_next_stack (next_stack self) in
  stack_base ← unwrap o;
  match map_stack table stack_base (pmem self) with
  | Ok (_, s) =>
      top ← unwrap (checked_add 64 stack_base KERNEL_STACK_SIZE_PADDED);
      Ok (top, mkBoot (kernel_image self) (kernel_pt self) next s (RAW_PT_ENTRY self))
  | Err _ | Panic => Panic
  | Diverge => Diverge
  end.
End model.
Arguments Boot S : clear implicits.

(** ** efi_main: the run of one core, from the state that initialisation left *)
Record Machine := mkMachine { boot : Boot Pmem; rebooting : bool; MEMORY_SNAPSHOT : Pmem }.

(** The free memory of the snapshot; the bytes stay as they are. *)
Definition restore_physical_memory (snapshot s : Pmem) : Pmem :=
  mkPmem (pmem_free snapshot) (pmem_bytes s) (pmem_blocks snapshot) (pmem_ok snapshot).
Definition set_pmem (b : Boot Pmem) (s : Pmem) : Boot Pmem :=
  mkBoot (kernel_image b) (kernel_pt b) (next_stack b) s (RAW_PT_ENTRY b).

(** [jump_to_kernel]: the entry point, the stack and the table the core takes. *)
Definition jump_to_kernel (stack : Z) (b : Boot Pmem) : res unit (Z * Z * Z) :=
  kernel ← unwrap (kernel_image b);
  table ← unwrap (kernel_pt b);
  Ok (Elf.entry kernel, stack, table).

Definition efi_main (image : list Z) (gbyte_pages pse : bool) (self : Machine)
    : res unit (Z * Z * Z * Machine) :=
  b ← (if rebooting self
       then load_kernel image gbyte_pages pse
              (set_pmem (boot self) (restore_physical_memory (MEMORY_SNAPSHOT self) (pmem (boot self))))
       else Ok (boot self));
  r ← map_kernel_stack b;
  jump ← jump_to_kernel r.1 r.2;
  Ok (jump, mkMachine r.2 false (MEMORY_SNAPSHOT self)).

(** The cores come up one after the other. *)
Fixpoint boot_cores (n : nat) (image : list Z) (gbyte_pages pse : bool) (self : Machine)
    : res unit (list (Z * Z * Z) * Machine) :=
  match n with
  | O => Ok ([], self)
  | S n =>
      r ← efi_main image gbyte_pages pse self;
      l ← boot_cores n image gbyte_pages pse r.2;
      Ok (r.1 :: l.1, l.2)
  end.
