(* ===== verification/BootLoad.v ===== *)
(** The address space the bootloader hands to the kernel: what [load_kernel] and
    [map_kernel_stack] of Boot.v map, and that they disturb nothing else. *)
From Stdlib Require Import ZArith Lia.
From stdpp Require Import prelude list numbers gmap.
From S2P Require Import Prelude Packet Ranges PageTable PageMem PageAlloc PageMap PageSpace PageRam.
From S2P Require Import KernelMm KernelAlloc Elf BootMm Boot.
Import Layout.

Section spaces.
Context {S : Type} `{Hm : PhysMem S} {Hl : PhysMemLaws S}.
Implicit Types (s : S) (root v p : Z) (R : Z → Prop) (seg : Elf.Segment).

(** * Address spaces that grow *)

(** Only addresses of [R] change, and no allocated memory but the tables does. *)
Record extends s s' root R : Prop := {
  ext_space : address_space s' root;
  ext_used : tables_used s' root;
  ext_owned b : b ∈ owned s → b ∈ owned s';
  ext_data : keeps_data s s' root;
  ext_else v : canonical v → ¬ R v → page_at s' root v = page_at s root v;
}.

Lemma extends_refl s root R : address_space s root → tables_used s root → extends s s root R.
Proof. by intros Ha Hu. Qed.

Lemma extends_trans s s1 s' root R R' :
  extends s s1 root R → extends s1 s' root R' → extends s s' root (λ v, R v ∨ R' v).
Proof.
  intros H1 H2. split; [apply H2|apply H2|..].
  - intros b Hb. by apply (ext_owned _ _ _ _ H2), (ext_owned _ _ _ _ H1).
  - intros b Hb Hpos Hn. destruct (ext_data _ _ _ _ H1 b Hb Hpos Hn) as (Hb1 & Hn1 & Hk1).
    destruct (ext_data _ _ _ _ H2 b Hb1 Hpos Hn1) as (Hb2 & Hn2 & Hk2).
    split; [done|]. split; [done|]. intros q Hq. by rewrite Hk2, Hk1.
  - intros v Hc Hn. rewrite (ext_else _ _ _ _ H2), (ext_else _ _ _ _ H1) by naive_solver. done.
Qed.

Lemma extends_weaken s s' root R R' :
  (∀ v, R v → R' v) → extends s s' root R → extends s s' root R'.
Proof. intros HR H. split; try apply H. intros v Hc Hn. apply H; [done|]. by intros ?%HR. Qed.

Lemma extends_pages s s' root request init v ps n :
  tables_used s root → pages_mapped s s' root request init v ps → (length ps ≤ n)%nat →
  let sz := PageType.size (page_type request) in
  extends s s' root (λ x, v ≤ x < v + Z.of_nat n * sz).
Proof.
  intros Hu H Hn sz. pose proof (size_pos (page_type request)) as Hsz. fold sz in Hsz. split.
  - apply (pm_space _ _ _ _ _ _ _ H).
  - by apply (pm_used _ _ _ _ _ _ _ H).
  - apply (pm_owned _ _ _ _ _ _ _ H).
  - apply (pm_data _ _ _ _ _ _ _ H).
  - intros x Hc Hx. apply (pm_else _ _ _ _ _ _ _ H); [done|]. fold sz.
    assert (Z.of_nat (length ps) * sz ≤ Z.of_nat n * sz) by (apply Z.mul_le_mono_nonneg_r; lia). lia.
Qed.

(** Every block allocated in [s] is untouched, and no table of [root]. *)
Definition spared s s' root : Prop := ∀ b, b ∈ owned s → 0 < b.2 →
  b ∈ owned s' ∧ ¬ is_table s' root b.1 ∧ ∀ q, in_block q b → peek (q + offset) s' = peek (q + offset) s.

Lemma spared_extends s s1 s' root R : spared s s1 root → extends s1 s' root R → spared s s' root.
Proof.
  intros H1 He b Hb Hpos. destruct (H1 b Hb Hpos) as (Hb1 & Hn1 & Hk1).
  destruct (ext_data _ _ _ _ He b Hb1 Hpos Hn1) as (Hb2 & Hn2 & Hk2).
  split; [done|]. split; [done|]. intros q Hq. by rewrite Hk2, Hk1.
Qed.

(** * A byte of the address space *)
(** [v] is mapped with [perms], to memory that holds [b] and is no table. *)
Definition holds_byte s root (perms : Permissions) v (b : Z) : Prop := ∃ p off,
  page_at s root v = Some (p, off, Z.lor (Z.lor p PAGE_PRESENT) (Permissions.bits perms)) ∧
  0 ≤ off < 4096 ∧ (p, 4096) ∈ owned s ∧ ¬ is_table s root p ∧ peek (p + off + offset) s = b.

Lemma holds_byte_kept s s' root R perms v b :
  extends s s' root R → canonical v → ¬ R v →
  holds_byte s root perms v b → holds_byte s' root perms v b.
Proof.
  intros He Hc Hn (p & off & Hp & Hoff & Hin & Hnt & Hb). exists p, off.
  destruct (ext_data _ _ _ _ He (p, 4096) Hin) as (Hin' & Hnt' & Hk); [simpl; lia|done|].
  split; [by rewrite (ext_else _ _ _ _ He)|]. split; [done|]. split; [done|]. split; [done|].
  rewrite Hk; [done|]. unfold in_block. simpl. lia.
Qed.

(** A request for small pages that went through. *)
Lemma pages_hold s s' root v size perms f ps k :
  let request := mkMapRequest Page4K v size perms in
  pages_mapped s s' root request (Some f) v ps → 0 ≤ k < Z.of_nat (length ps) * 4096 →
  holds_byte s' root perms (v + k) (f k).
Proof.
  intros request H Hk. set (i := Z.to_nat (k / 4096)).
  pose proof (Z.div_mod k 4096 ltac:(lia)) as Hd. pose proof (Z.mod_pos_bound k 4096 ltac:(lia)) as Hr.
  assert (k / 4096 < Z.of_nat (length ps)) by (apply Z.div_lt_upper_bound; lia).
  assert (0 ≤ k / 4096) by (apply Z.div_pos; lia).
  destruct (lookup_lt_is_Some_2 ps i) as [p Hp]; [lia|].
  exists p, (k mod 4096). pose proof (pm_page _ _ _ _ _ _ _ H i p (k mod 4096) Hp Hr) as Hpg.
  cbn [page_type request PageType.size] in Hpg. unfold request_entry in Hpg. cbn [permissions request page_type PageType.size_bit] in Hpg.
  rewrite Z.lor_0_r in Hpg.
  replace (v + Z.of_nat i * 4096 + k mod 4096) with (v + k) in Hpg by lia.
  destruct (pm_frame _ _ _ _ _ _ _ H i p Hp) as (Hin & _ & Hnt).
  split; [done|]. split; [done|]. split; [done|]. split; [done|].
  rewrite (pm_init _ _ _ _ _ _ _ H i p f (k mod 4096) Hp eq_refl Hr). f_equal. simpl. lia.
Qed.

Lemma table_below_4k s root v : table_below s root Page4K v → False.
Proof.
  intros (T & a & Ht & Ha). destruct (tb_page _ _ _ Ht _ _ Ha) as (Hlen & _).
  rewrite length_take, (proj1 (indices_ok v)) in Hlen. simpl in Hlen. lia.
Qed.

(** * Segments *)
Definition seg_pages seg : Z := (Elf.offset seg + Elf.vsize seg + 4096 - 1) / 4096.
Definition seg_range seg v : Prop := Elf.vaddr seg ≤ v < Elf.vaddr seg + seg_pages seg * 4096.

(** What the ELF parser says of a segment, and where it lies. *)
Record loadable seg : Prop := {
  ld_page : (4096 | Elf.vaddr seg);
  ld_offset : 0 ≤ Elf.offset seg;
  ld_size : 0 < Elf.offset seg + Elf.vsize seg;
  ld_fits : zlen (Elf.bytes seg) ≤ Elf.vsize seg;
  ld_half : canonical_range (Elf.vaddr seg) (Elf.offset seg + Elf.vsize seg);
  ld_bytes : bytes_ok (Elf.bytes seg);
}.

(** The bytes of the file are where the kernel was linked, the rest is zero. *)
Record loaded s root seg : Prop := {
  lo_bytes i b : Elf.bytes seg !! i = Some b →
    holds_byte s root (segment_perms seg) (Elf.vaddr seg + Elf.offset seg + Z.of_nat i) b;
  lo_zero k : 0 ≤ k < seg_pages seg * 4096 →
    k < Elf.offset seg ∨ Elf.offset seg + zlen (Elf.bytes seg) ≤ k →
    holds_byte s root (segment_perms seg) (Elf.vaddr seg + k) 0;
}.

Lemma seg_pages_cover seg :
  loadable seg → Elf.offset seg + Elf.vsize seg ≤ seg_pages seg * 4096.
Proof. intros Hs. unfold seg_pages. Z.div_mod_to_equations. lia. Qed.

Lemma seg_canonical seg v : loadable seg → seg_range seg v → canonical v.
Proof.
  intros Hs Hv. eapply range_canonical; [|exact Hv]. unfold seg_pages.
  rewrite pages_round by (lia || apply (ld_size _ Hs)).
  apply (range_pages Page4K); [apply Hs..].
Qed.

Lemma loaded_kept s s' root R seg :
  loadable seg → extends s s' root R → (∀ v, seg_range seg v → ¬ R v) →
  loaded s root seg → loaded s' root seg.
Proof.
  intros Hs He HR [Hb Hz]. pose proof (seg_pages_cover seg Hs) as Hc.
  pose proof (ld_offset _ Hs) as Ho. pose proof (ld_fits _ Hs) as Hf. unfold zlen in Hf. split.
  - intros i b Hi. pose proof (lookup_lt_Some _ _ _ Hi) as Hlt.
    assert (seg_range seg (Elf.vaddr seg + Elf.offset seg + Z.of_nat i)) as Hin
      by (unfold seg_range; lia).
    eapply holds_byte_kept; [done|by eapply seg_canonical|by apply HR|by apply Hb].
  - intros k Hk Hout. assert (seg_range seg (Elf.vaddr seg + k)) as Hin by (unfold seg_range; lia).
    eapply holds_byte_kept; [done|by eapply seg_canonical|by apply HR|by apply Hz].
Qed.

Lemma segment_init_byte seg x : bytes_ok (Elf.bytes seg) → u8 (segment_init seg x).
Proof.
  intros Hok. unfold segment_init. destruct (_ <=? _); [|unfold fits; lia].
  destruct (Elf.bytes seg !! Z.to_nat (x - Elf.offset seg)) eqn:E; [|simpl; unfold fits; lia].
  by eapply Forall_lookup_1 in E.
Qed.

Lemma pages_loaded s s' root seg ps :
  loadable seg → Z.of_nat (length ps) = seg_pages seg →
  pages_mapped s s' root (mkMapRequest Page4K (Elf.vaddr seg) (Elf.offset seg + Elf.vsize seg) (segment_perms seg))
    (Some (segment_init seg)) (Elf.vaddr seg) ps →
  loaded s' root seg.
Proof.
  intros Hs Hlen H. pose proof (seg_pages_cover seg Hs) as Hc.
  pose proof (ld_offset _ Hs) as Ho. pose proof (ld_fits _ Hs) as Hf. unfold zlen in Hf. split.
  - intros i b Hi. pose proof (lookup_lt_Some _ _ _ Hi) as Hlt.
    assert (segment_init seg (Elf.offset seg + Z.of_nat i) = b) as <-.
    { unfold segment_init. rewrite (proj2 (Z.leb_le _ _)) by lia.
      replace (Z.to_nat (Elf.offset seg + Z.of_nat i - Elf.offset seg)) with i by lia. by rewrite Hi. }
    rewrite <-Z.add_assoc. eapply pages_hold; [exact H|lia].
  - intros k Hk Hout. assert (segment_init seg k = 0) as <-.
    { unfold segment_init. destruct (Z.leb_spec (Elf.offset seg) k); [|done].
      rewrite lookup_ge_None_2; [done|]. unfold zlen in Hout. lia. }
    eapply pages_hold; [exact H|lia].
Qed.

(** Pages for a segment and the tables of its pages. *)
Definition seg_cost seg : nat := 4 * Z.to_nat (seg_pages seg).
Definition segs_cost (segs : list Elf.Segment) : nat := sum_list_with seg_cost segs.
Abbreviation short4 := (short (S:=S) 4096).

Lemma map_request_ok v size perms :
  u64 v → (4096 | v) → MapRequest_new v Page4K size perms = Ok (mkMapRequest Page4K v size perms).
Proof.
  intros Hv Hd. unfold MapRequest_new, is_aligned. cbn [PageType.size]. rewrite sub_Ok by lia.
  cbn [mbind res_bind]. change (4096 - 1) with (2 ^ 12 - 1). rewrite (land_unot_mask 64) by (done || lia).
  apply Z.mod_divide in Hd; [|lia]. change (2 ^ 12) with 4096. by rewrite Hd, Z.sub_0_r, Z.eqb_refl.
Qed.

Lemma map_segment_ok s root seg :
  address_space s root → tables_used s root → loadable seg →
  (∀ v, seg_range seg v → page_at s root v = None) →
  match map_segment root seg s with
  | Ok (_, s') => extends s s' root (seg_range seg) ∧ within 4096 (seg_cost seg) s s' ∧
      (short4 (seg_cost seg) s ∨ loaded s' root seg)
  | Panic => short4 (seg_cost seg) s
  | _ => False
  end.
Proof.
  intros Ha Hu Hs Hfree. pose proof Hs as [Hpg Ho Hsz Hfit Hhalf Hok].
  pose proof (seg_canonical seg (Elf.vaddr seg) Hs) as Hcv.
  pose proof (seg_pages_cover seg Hs) as Hcov.
  destruct (proj1 (Hcv ltac:(unfold seg_range; lia))) as [Hv1 Hv2].
  unfold map_segment. rewrite add_Ok by (unfold canonical_range in Hhalf; lia).
  rewrite (M_bind_Ok (lift (Ok _)) _ _ _ _ eq_refl). rewrite map_request_ok by done.
  set (request := mkMapRequest _ _ _ _).
  rewrite (M_bind_Ok (lift (unwrap_res (Ok _))) _ _ request s eq_refl).
  unfold ignored. rewrite (map_init_pages root request) by done. cbn [page_type request size vaddr PageType.size].
  fold (seg_pages seg).
  assert (bytes_init (Some (segment_init seg))) as Hbi
    by (intros f x [= <-]; by apply segment_init_byte).
  pose proof (map_pages_ok (Z.to_nat (seg_pages seg)) root request (Some (segment_init seg)) (Elf.vaddr seg) s
    Ha Hpg) as H. cbn [page_type request PageType.size] in H. rewrite Z2Nat.id in H by lia.
  assert (canonical_range (Elf.vaddr seg) (seg_pages seg * 4096)) as Hcr.
  { unfold seg_pages. rewrite pages_round by lia. by apply (range_pages Page4K). }
  specialize (H Hcr Hbi).
  pose proof (bounded_map_pages root request (Some (segment_init seg)) (Z.to_nat (seg_pages seg)) (Elf.vaddr seg) s) as Hw.
  destruct (PageTable.map_pages _ _ _ _ _ _) as [[u s']|[u s']| |]; [| |done..].
  - destruct H as (ps & Hlen & H). split; [|split; [exact Hw|]].
    + pose proof (extends_pages _ _ _ _ _ _ ps (Z.to_nat (seg_pages seg)) Hu H ltac:(lia)) as He.
      eapply extends_weaken; [|exact He]. intros v. cbn [page_type request PageType.size]. unfold seg_range. lia.
    + right. eapply pages_loaded; [done| |exact H]. lia.
  - destruct H as (ps & Hlen & H & Hst). split; [|split; [exact Hw|]].
    + pose proof (extends_pages _ _ _ _ _ _ ps (Z.to_nat (seg_pages seg)) Hu H ltac:(lia)) as He.
      eapply extends_weaken; [|exact He]. intros v. cbn [page_type request PageType.size]. unfold seg_range. lia.
    + left. destruct Hst as [He|[Hp|Hb]]; [eapply short_weaken; [|exact He]; unfold seg_cost; lia| |by apply table_below_4k in Hb].
      destruct Hp. apply Hfree. unfold seg_range. cbn [page_type request PageType.size]. lia.
Qed.

(** The loop over the iterator is a loop over its items. *)
Fixpoint map_list root (segs : list Elf.Segment) : M S unit unit :=
  match segs with
  | [] => mret tt
  | seg :: segs => _ ← map_segment root seg; map_list root segs
  end.
Lemma map_segments_list fuel root it segs s :
  Elf.items_fuel fuel it = Ok (inr <$> segs) →
  map_segments fuel root it s = map_list root segs s.
Proof.
  revert it segs s. induction fuel as [|fuel IH]; intros it segs s Hit; [done|].
  cbn [Elf.items_fuel map_segments] in *.
  destruct (Elf.next it) as [[[err|seg] it']|[]| |]; try done.
  - destruct (Elf.items_fuel fuel it'); try done. by destruct segs.
  - destruct (Elf.items_fuel fuel it') as [l| | |] eqn:E; try done. cbn [mbind res_bind] in Hit.
    destruct segs as [|seg' segs]; [done|]. injection Hit as [= -> ->]. cbn [map_list].
    unfold mbind, M_bind. destruct (map_segment root seg' s) as [[u s']| | |]; [|done..]. by apply IH.
  - destruct segs; [done|discriminate Hit].
Qed.

(** No two segments share a page. *)
Definition seg_apart (seg seg' : Elf.Segment) : Prop := ∀ v, seg_range seg v → ¬ seg_range seg' v.
Fixpoint segs_apart (segs : list Elf.Segment) : Prop :=
  match segs with [] => True | seg :: segs => Forall (seg_apart seg) segs ∧ segs_apart segs end.
Definition in_segs (segs : list Elf.Segment) v : Prop := ∃ seg, seg ∈ segs ∧ seg_range seg v.

Lemma map_list_ok s root segs :
  address_space s root → tables_used s root → Forall loadable segs → segs_apart segs →
  (∀ v, in_segs segs v → page_at s root v = None) →
  match map_list root segs s with
  | Ok (_, s') => extends s s' root (in_segs segs) ∧ within 4096 (segs_cost segs) s s' ∧
      (short4 (segs_cost segs) s ∨ Forall (loaded s' root) segs)
  | Panic => short4 (segs_cost segs) s
  | _ => False
  end.
Proof.
  revert s. induction segs as [|seg segs IH]; intros s Ha Hu Hld Hap Hfree.
  { split; [by apply extends_refl|]. split; [apply within_refl|by right]. }
  apply Forall_cons_iff in Hld as [Hs Hld]. destruct Hap as [Hap1 Hap]. cbn [map_list].
  assert (∀ v, in_segs segs v → ¬ seg_range seg v) as Hdis.
  { intros v (seg' & Hin & Hv') Hv. rewrite Forall_forall in Hap1. by apply (Hap1 seg' Hin v). }
  pose proof (map_segment_ok s root seg Ha Hu Hs) as H1.
  specialize (H1 ltac:(intros v Hv; apply Hfree; exists seg; by split; [left|])).
  change (segs_cost (seg :: segs)) with (seg_cost seg + segs_cost segs)%nat.
  unfold mbind, M_bind.
  destruct (map_segment root seg s) as [[u s1]| | |]; [|done|by eapply short_weaken; [|exact H1]; lia|done].
  destruct H1 as (He1 & Hw1 & Hl1). specialize (IH s1 (ext_space _ _ _ _ He1) (ext_used _ _ _ _ He1) Hld Hap).
  assert (∀ v, in_segs segs v → page_at s1 root v = None) as Hfree1.
  { intros v Hv. pose proof Hv as (seg' & Hin & Hr).
    rewrite (ext_else _ _ _ _ He1); [apply Hfree; exists seg'; by split; [right|]| |by apply Hdis].
    rewrite Forall_forall in Hld. eapply seg_canonical; [by apply Hld|done]. }
  specialize (IH Hfree1). destruct (map_list root segs s1) as [[u2 s2]| | |]; [|done| |done].
  - destruct IH as (He2 & Hw2 & Hl2). split; [|split; [by eapply within_trans|]].
    + eapply extends_weaken; [|exact (extends_trans _ _ _ _ _ _ He1 He2)].
      intros v [Hv|(seg' & Hin & Hv)]; [exists seg; by split; [left|]|exists seg'; by split; [right|]].
    + destruct Hl1 as [Hx|Hl1]; [left; eapply short_weaken; [|exact Hx]; lia|].
      destruct Hl2 as [Hx|Hl2]; [left; by eapply short_later|right].
      constructor; [|done]. eapply loaded_kept; [done|exact He2| |done]. intros v Hv Hv'. by apply (Hdis v).
  - by eapply short_later.
Qed.

(** * Raw entries *)
Lemma map_raw_fresh s root v t raw :
  address_space s root → tables_used s root → canonical v → u64 raw → valid_leaf t raw = true →
  (∀ v', canonical v' → v' / PageType.size t = v / PageType.size t → page_at s root v' = None) →
  match PageTable.map_raw root v t raw s with
  | Ok (_, s') => page_mapped s s' root t v raw ∧ within 4096 3 s s'
  | Panic => short4 3 s
  | _ => False
  end.
Proof.
  intros [T Ht] Hu Hc Hraw Hvl Hfree. pose proof (map_raw_tree s root T v t raw Ht Hc Hraw) as Hmap.
  cbv zeta in Hmap. pose proof (page_at_eq _ _ _ _ Ht Hc) as Hpa.
  pose proof (bounded_map_raw 4096 root v t raw s) as Hw.
  destruct (PageTable.map_raw root v t raw s) as [[u s']|[e s']| |]; [|destruct e| |]; try done.
  - destruct Hmap as (_ & _ & _ & T' & Ht' & Hg & HT & Hlk). split; [|exact Hw]. by eapply map_raw_added.
  - destruct Hmap as [_ Hv]. congruence.
  - destruct Hmap as [_ Hlk]. rewrite Hfree in Hpa by done. by destruct (lookup_path _ _ _ _).
  - destruct Hmap as [_ [a Hb]]. destruct (below_used s root t v Hu Hc) as (v' & Hc' & Hsame & Hn).
    { by exists T, a. }
    by destruct Hn; apply Hfree.
  - eapply short_weaken; [|exact Hmap]. destruct t; simpl; lia.
Qed.

Lemma extends_page s s' root t v raw :
  tables_used s root → page_mapped s s' root t v raw →
  extends s s' root (λ x, x / PageType.size t = v / PageType.size t).
Proof.
  intros Hu H. split; [apply H|by apply H|apply H|apply H|].
  intros x Hc Hx. rewrite (pg_at _ _ _ _ _ _ H) by done. by rewrite (proj2 (Z.eqb_neq _ _)).
Qed.

(** * The window *)
Lemma window_place :
  KERNEL_PHYS_WINDOW_SIZE = 2 ^ 40 ∧ (∀ t, (PageType.size t | KERNEL_PHYS_WINDOW_BASE)) ∧
  2 ^ 64 - 2 ^ 47 ≤ KERNEL_PHYS_WINDOW_BASE ∧ KERNEL_PHYS_WINDOW_BASE + 2 ^ 40 ≤ 2 ^ 64.
Proof.
  split; [done|]. split; [|split; (apply Z.leb_le; vm_compute; reflexivity)].
  intros t. apply Z.mod_divide; [by destruct t|]. destruct t; vm_compute; reflexivity.
Qed.

Lemma window_entry t paddr v :
  (PageType.size t | paddr) → 0 ≤ paddr → paddr + PageType.size t ≤ 2 ^ 52 →
  let e := Z.lor paddr (window_mask t) in
  u64 e ∧ valid_leaf t e = true ∧ leaf_page t e v = (paddr, v mod PageType.size t, e).
Proof.
  intros Hd H0 Hmax e.
  set (r := mkMapRequest t 0 0 (mkPermissions true true false true)).
  assert (e = request_entry r paddr) as ->.
  { unfold e, request_entry, r, window_mask. cbn [permissions page_type].
    rewrite <-!Z.lor_assoc. f_equal. by destruct t. }
  by apply (request_entry_ok r).
Qed.

Lemma same_page_range sz v x : 0 < sz → (sz | v) → x / sz = v / sz ↔ v ≤ x < v + sz.
Proof.
  intros Hsz [k ->]. rewrite Z.div_mul by lia. split.
  - intros E. pose proof (Z.div_mod x sz ltac:(lia)). pose proof (Z.mod_pos_bound x sz ltac:(lia)). nia.
  - intros Hx. symmetry. apply (Z.div_unique_pos x sz k (x - k * sz)); lia.
Qed.

Definition window_range (paddr len v : Z) : Prop :=
  KERNEL_PHYS_WINDOW_BASE + paddr ≤ v < KERNEL_PHYS_WINDOW_BASE + paddr + len.
(** [v] shows the byte of physical memory at its distance from the window's base. *)
Definition shows_phys s root t v : Prop := ∃ p off,
  page_at s root v = Some (p, off, Z.lor p (window_mask t)) ∧ 0 ≤ off < PageType.size t ∧
  p + off = v - KERNEL_PHYS_WINDOW_BASE.

Lemma map_window_ok t n : ∀ paddr s root,
  address_space s root → tables_used s root → (PageType.size t | paddr) → 0 ≤ paddr →
  paddr + Z.of_nat n * PageType.size t ≤ 2 ^ 40 →
  (∀ v, window_range paddr (Z.of_nat n * PageType.size t) v → page_at s root v = None) →
  match map_window root t n paddr s with
  | Ok (_, s') =>
      extends s s' root (window_range paddr (Z.of_nat n * PageType.size t)) ∧
      within 4096 (3 * n) s s' ∧
      ∀ v, window_range paddr (Z.of_nat n * PageType.size t) v → shows_phys s' root t v
  | Panic => short4 (3 * n) s
  | _ => False
  end.
Proof.
  destruct window_place as (_ & HdW & HW1 & HW2). specialize (HdW t). unfold window_range.
  pose proof (size_pos t) as Hsz. pose proof (window_entry t) as Hent.
  assert (∀ m, 0 ≤ Z.of_nat m * PageType.size t) as Hpos by (intros m; apply Z.mul_nonneg_nonneg; lia).
  induction n as [|n IH]; intros paddr s root Ha Hu Hd H0 Hmax Hfree.
  { cbn [map_window]. split; [by apply extends_refl|]. split; [apply within_refl|]. intros v Hv. lia. }
  rewrite Nat2Z.inj_succ, Z.mul_succ_l in *. specialize (Hpos n). cbn [map_window].
  destruct (Hent paddr 0 Hd H0 ltac:(lia)) as (He & Hvl & _).
  assert (PageType.size t | KERNEL_PHYS_WINDOW_BASE + paddr) as Hdv by (by apply Z.divide_add_r).
  set (v0 := KERNEL_PHYS_WINDOW_BASE + paddr) in *.
  assert (∀ x, v0 ≤ x < v0 + (Z.of_nat n * PageType.size t + PageType.size t) → canonical x) as Hcan
    by (intros x Hx; apply canonical_iff; lia).
  rewrite add_Ok by lia. fold v0. rewrite (M_bind_Ok (lift (Ok _)) _ _ v0 s eq_refl).
  pose proof (map_raw_fresh s root v0 t _ Ha Hu (Hcan v0 ltac:(lia)) He Hvl) as H1.
  specialize (H1 ltac:(intros v' _ Hv'; apply Hfree; apply same_page_range in Hv'; [lia|lia|done])).
  unfold mbind, M_bind, unwrap_M.
  replace (3 * Datatypes.S n)%nat with (3 + 3 * n)%nat by lia.
  destruct (PageTable.map_raw root v0 t _ s) as [[u s1]| | |]; cbn [unwrap_res];
    [|done|by eapply short_weaken; [|exact H1]; lia|done].
  destruct H1 as [H1 Hw1].
  pose proof (extends_page _ _ _ _ _ _ Hu H1) as He1.
  specialize (IH (paddr + PageType.size t) s1 root (ext_space _ _ _ _ He1) (ext_used _ _ _ _ He1)
    ltac:(by apply Z.divide_add_r) ltac:(lia) ltac:(lia)).
  assert (∀ x, v0 + PageType.size t ≤ x < v0 + PageType.size t + Z.of_nat n * PageType.size t →
    x / PageType.size t ≠ v0 / PageType.size t) as Hoff.
  { intros x Hx Hv'. apply same_page_range in Hv'; [lia|lia|done]. }
  specialize (IH ltac:(intros v Hv; rewrite (ext_else _ _ _ _ He1);
    [apply Hfree; lia|apply Hcan; lia|apply Hoff; lia])).
  destruct (map_window root t n _ s1) as [[u2 s2]| | |]; [|done| |done].
  2:{ by eapply short_later. }
  destruct IH as (He2 & Hw2 & Hsh). split; [|split; [by eapply within_trans|]].
  - eapply extends_weaken; [|exact (extends_trans _ _ _ _ _ _ He1 He2)]. cbv beta. intros v [Hv|Hv]; [|lia].
    apply same_page_range in Hv; [lia|lia|done].
  - intros v Hv. destruct (Z.lt_ge_cases v (v0 + PageType.size t)) as [Hlt|Hge]; [|apply Hsh; lia].
    assert (v / PageType.size t = v0 / PageType.size t) as Hsame by (apply same_page_range; [lia|done|lia]).
    destruct (Hent paddr v Hd H0 ltac:(lia)) as (_ & _ & Hlp).
    exists paddr, (v mod PageType.size t). rewrite (ext_else _ _ _ _ He2) by (try apply Hcan; lia).
    rewrite (pg_at _ _ _ _ _ _ H1), Hsame, Z.eqb_refl, Hlp by (apply Hcan; lia).
    split; [done|]. split; [apply Z.mod_pos_bound; lia|]. destruct Hdv as [k Hk].
    replace v with (v - v0 + k * PageType.size t) at 1 by lia.
    rewrite Z.mod_add, Z.mod_small by lia. lia.
Qed.

(** * The kernel's address space *)
Definition tramp_range v : Prop := TRAMPOLINE_ADDR ≤ v < TRAMPOLINE_ADDR + 4096.
Lemma tramp_place :
  (4096 | TRAMPOLINE_ADDR) ∧ 2 ^ 64 - 2 ^ 47 ≤ TRAMPOLINE_ADDR ∧ TRAMPOLINE_ADDR + 4096 ≤ 2 ^ 64 ∧
  KERNEL_PHYS_WINDOW_BASE + 2 ^ 40 ≤ TRAMPOLINE_ADDR ∧ TRAMPOLINE_ADDR + 4096 ≤ KERNEL_CODE_BASE.
Proof.
  split; [apply Z.mod_divide; [lia|vm_compute; reflexivity]|].
  split_and!; (apply Z.leb_le; vm_compute; reflexivity).
Qed.

(** A page of stack: its own frame, with [perms]. *)
Definition stack_page s root v : Prop := ∃ p off,
  page_at s root v = Some (p, off, Z.lor (Z.lor p PAGE_PRESENT) (Permissions.bits (Permissions.new true false false))) ∧
  (p, 4096) ∈ owned s ∧ ¬ is_table s root p.

(** The segments, one page of trampoline, the window, the stacks from [low] on up
    to their base, and nothing else; no two pages of stack share a frame. *)
Record kernel_space s root (segs : list Elf.Segment) (raw : Z) (t : PageType) (low : Z) : Prop := {
  ks_space : address_space s root;
  ks_used : tables_used s root;
  ks_segments : Forall (loaded s root) segs;
  ks_tramp v : tramp_range v → page_at s root v = Some (leaf_page Page4K raw v);
  ks_window v : window_range 0 KERNEL_PHYS_WINDOW_SIZE v → shows_phys s root t v;
  ks_stacks v : low ≤ v < KERNEL_STACK_BASE → stack_page s root v;
  ks_frames v v' p off off' e e' : low ≤ v < KERNEL_STACK_BASE → low ≤ v' < KERNEL_STACK_BASE →
    page_at s root v = Some (p, off, e) → page_at s root v' = Some (p, off', e') → v / 4096 = v' / 4096;
  ks_else v : canonical v → ¬ in_segs segs v → ¬ tramp_range v →
    ¬ window_range 0 KERNEL_PHYS_WINDOW_SIZE v → ¬ low ≤ v < KERNEL_STACK_BASE →
    page_at s root v = None;
}.

(** A kernel linked above the base of its code, no two segments on one page. *)
Record linked (segs : list Elf.Segment) : Prop := {
  lk_loadable : Forall loadable segs;
  lk_apart : segs_apart segs;
  lk_above v : in_segs segs v → KERNEL_CODE_BASE ≤ v;
}.

Lemma new_space s root s' :
  PageTable.new s = (Some root, s') →
  address_space s' root ∧ tables_used s' root ∧ (∀ v, canonical v → page_at s' root v = None) ∧
  (∀ b, b ∈ owned s → b ∈ owned s') ∧
  (∀ b q, b ∈ owned s → in_block q b → ¬ is_table s' root b.1 ∧ peek (q + offset) s' = peek (q + offset) s).
Proof.
  intros E. destruct (new_tables _ _ _ E) as [Ht Hn].
  destruct (alloc_zeroed_some _ _ _ E) as (_ & _ & _ & _ & Ho & Hap & Hz & Hk & _).
  split; [by eexists|]. split; [|split; [exact Hn|split]].
  - intros T π a Ht' Ha Hne. rewrite (tables_unique _ _ _ _ Ht Ht') in Ha.
    by apply lookup_singleton_Some in Ha as [<- _].
  - intros b Hb. rewrite Ho. by right.
  - intros b q Hb Hq. split; [|by eapply Hk]. intros (T & π & Ht' & Ha).
    rewrite (tables_unique _ _ _ _ Ht Ht') in Ha. apply lookup_singleton_Some in Ha as [_ Ha].
    rewrite Forall_forall in Hap. specialize (Hap b Hb). unfold apart, in_block in *. simpl in *. lia.
Qed.

(** The trampoline and the window on top of the segments. *)
Lemma load_rest s s1 root segs raw t :
  linked segs → u64 raw → valid_leaf Page4K raw = true → extends s s1 root (in_segs segs) →
  (∀ v, canonical v → page_at s root v = None) →
  match (_ ← unwrap_M (PageTable.map_raw root TRAMPOLINE_ADDR Page4K raw);
         map_window root t (Z.to_nat (KERNEL_PHYS_WINDOW_SIZE / PageType.size t)) 0) s1 : res (unit * S) (unit * S) with
  | Ok (_, s') => extends s1 s' root (λ v, tramp_range v ∨ window_range 0 KERNEL_PHYS_WINDOW_SIZE v) ∧
      within 4096 (3 + 3 * Z.to_nat (KERNEL_PHYS_WINDOW_SIZE / PageType.size t)) s1 s' ∧
      (Forall (loaded s1 root) segs → kernel_space s' root segs raw t KERNEL_STACK_BASE)
  | Panic => short4 (3 + 3 * Z.to_nat (KERNEL_PHYS_WINDOW_SIZE / PageType.size t)) s1
  | _ => False
  end.
Proof.
  intros [Hld Hap Habove] Hraw Hvl He Hempty.
  destruct tramp_place as (Hd & HT1 & HT2 & HT3 & HT4). destruct window_place as (HWs & HdW & HW1 & HW2).
  rewrite HWs in *.
  assert (∀ v, in_segs segs v → ¬ tramp_range v) as Htr
    by (intros v Hv%Habove; unfold tramp_range; lia).
  assert (∀ v, in_segs segs v → ¬ window_range 0 (2 ^ 40) v) as Hwin
    by (intros v Hv%Habove; unfold window_range; lia). pose proof (size_pos t) as Hsz.
  assert (Z.of_nat (Z.to_nat (2 ^ 40 / PageType.size t)) * PageType.size t = 2 ^ 40) as Hn
    by (rewrite Z2Nat.id by (apply Z.div_pos; lia); destruct t; reflexivity).
  set (n := Z.to_nat (2 ^ 40 / PageType.size t)) in *. clearbody n.
  assert (∀ v, tramp_range v → canonical v) as Hct
    by (intros v Hv; apply canonical_iff; unfold tramp_range in Hv; lia).
  assert (∀ v, window_range 0 (2 ^ 40) v → canonical v) as Hcw
    by (intros v Hv; apply canonical_iff; unfold window_range in Hv; lia).
  assert (∀ v, canonical v → v / PageType.size Page4K = TRAMPOLINE_ADDR / PageType.size Page4K ↔ tramp_range v) as Hpg
    by (intros v _; apply same_page_range; [done|done]).
  assert (∀ v, tramp_range v → ¬ window_range 0 (2 ^ 40) v) as Hdis
    by (unfold tramp_range, window_range; lia).
  assert (∀ v, canonical v → ¬ in_segs segs v → page_at s1 root v = None) as Hnone
    by (intros v Hc Hv; rewrite (ext_else _ _ _ _ He); auto).
  pose proof (map_raw_fresh s1 root TRAMPOLINE_ADDR Page4K raw (ext_space _ _ _ _ He) (ext_used _ _ _ _ He)
    (Hct TRAMPOLINE_ADDR ltac:(unfold tramp_range; lia)) Hraw Hvl) as H1.
  specialize (H1 ltac:(intros v Hc Hv%(Hpg v Hc); apply Hnone; [done|]; intros Hs; by apply (Htr v))).
  unfold mbind, M_bind, unwrap_M.
  destruct (PageTable.map_raw root TRAMPOLINE_ADDR Page4K raw s1) as [[u s2]| | |]; cbn [unwrap_res];
    [|done|eapply short_weaken; [|exact H1]; lia|done].
  destruct H1 as [H1 Hw1].
  pose proof (extends_page _ _ _ _ _ _ (ext_used _ _ _ _ He) H1) as He2.
  pose proof (map_window_ok t n 0 s2 root
    (ext_space _ _ _ _ He2) (ext_used _ _ _ _ He2) (Z.divide_0_r _) ltac:(lia)) as H2.
  rewrite Hn in H2. specialize (H2 ltac:(lia)).
  assert (∀ v, window_range 0 (2 ^ 40) v → page_at s2 root v = None) as Hfw.
  { intros v Hv. rewrite (ext_else _ _ _ _ He2 v (Hcw v Hv)).
    - apply Hnone; [exact (Hcw v Hv)|]. intros Hs. exact (Hwin v Hs Hv).
    - intros Hx. exact (Hdis v (proj1 (Hpg v (Hcw v Hv)) Hx) Hv). }
  specialize (H2 Hfw).
  destruct (map_window root t n 0 s2) as [[u2 s3]| | |]; [|done| |done].
  2:{ by eapply short_later. }
  destruct H2 as (He3 & Hw3 & Hsh).
  assert (extends s1 s3 root (λ v, tramp_range v ∨ window_range 0 (2 ^ 40) v)) as He13.
  { pose proof (extends_trans _ _ _ _ _ _ He2 He3) as Ht. split; try apply Ht.
    intros v Hc Hv. apply (ext_else _ _ _ _ Ht v Hc). rewrite Hpg by done. exact Hv. }
  split; [exact He13|]. split; [by eapply within_trans|]. intros Hall. split; rewrite ?HWs.
  - apply He13.
  - apply He13.
  - rewrite Forall_forall in *. intros seg Hin. eapply loaded_kept; [by apply Hld|exact He13| |by apply Hall].
    intros v Hv. assert (in_segs segs v) as Hi by (by exists seg).
    intros [Hx|Hx]; [exact (Htr v Hi Hx)|exact (Hwin v Hi Hx)].
  - intros v Hv. rewrite (ext_else _ _ _ _ He3 v (Hct v Hv) (Hdis v Hv)), (pg_at _ _ _ _ _ _ H1 v (Hct v Hv)).
    by rewrite (proj2 (Z.eqb_eq _ _) (proj2 (Hpg v (Hct v Hv)) Hv)).
  - exact Hsh.
  - intros v Hv. lia.
  - intros v v' p off off' e e' Hv. lia.
  - intros v Hc Hs Ht Hw _. rewrite (ext_else _ _ _ _ He13 v Hc); [exact (Hnone v Hc Hs)|].
    intros [Hx|Hx]; [exact (Ht Hx)|exact (Hw Hx)].
Qed.

(** The pages [load_kernel] can take: the root, the segments, the tables of the
    trampoline and of the window. *)
Definition load_cost (segs : list Elf.Segment) (t : PageType) : nat :=
  1 + (segs_cost segs + (3 + 3 * Z.to_nat (KERNEL_PHYS_WINDOW_SIZE / PageType.size t))).

Lemma load_tables_ok s kernel segs raw gbyte_pages pse :
  Elf.items (Elf.segments kernel) = Ok (inr <$> segs) → linked segs →
  u64 raw → valid_leaf Page4K raw = true →
  match load_tables kernel raw gbyte_pages pse s with
  | Ok (root, s') =>
      (short4 (load_cost segs (window_type gbyte_pages pse)) s ∨
       kernel_space s' root segs raw (window_type gbyte_pages pse) KERNEL_STACK_BASE) ∧
      within 4096 (load_cost segs (window_type gbyte_pages pse)) s s' ∧
      spared s s' root
  | Panic => short4 (load_cost segs (window_type gbyte_pages pse)) s
  | _ => False
  end.
Proof.
  intros Hit Hlk Hraw Hvl. unfold load_tables, load_cost.
  set (t := window_type gbyte_pages pse). set (nw := Z.to_nat (KERNEL_PHYS_WINDOW_SIZE / PageType.size t)). unfold mbind at 1, M_bind at 1, must.
  destruct (PageTable.new s) as [[root|] s0] eqn:Enew.
  2:{ eapply (short_now _ _ s 4096); [by left|by apply zeroed_fails|lia]. }
  pose proof (zeroed_within 4096 _ _ _ Enew) as Hw0.
  destruct (new_space _ _ _ Enew) as (Ha & Hu & Hempty & Ho & Hkeep).
  assert (Elf.items_fuel (Datatypes.S (Z.to_nat (Elf.ph_num kernel))) (Elf.segments kernel) = Ok (inr <$> segs)) as Hit'
    by (rewrite <-Hit; unfold Elf.items; simpl; by rewrite Z.sub_0_r).
  assert (∀ v, in_segs segs v → page_at s0 root v = None) as Hfree.
  { intros v (seg & Hin & Hv). apply Hempty. pose proof (lk_loadable _ Hlk) as Hld. rewrite Forall_forall in Hld.
    eapply seg_canonical; [by apply Hld|done]. }
  pose proof (map_list_ok s0 root segs Ha Hu (lk_loadable _ Hlk) (lk_apart _ Hlk) Hfree) as H1.
  unfold mbind at 1, M_bind at 1. rewrite (map_segments_list _ _ _ _ _ Hit').
  destruct (map_list root segs s0) as [[u s1]| | |]; [|done| |done].
  2:{ eapply short_later; [exact Hw0|]. eapply short_weaken; [|exact H1]. lia. }
  destruct H1 as (He1 & Hw1 & Hl1).
  assert (raw ≠ 0) as Hnz by (intros ->; by vm_compute in Hvl).
  rewrite (M_bind_Ok _ _ _ tt s1) by (unfold lift, assert; by rewrite (proj2 (Z.eqb_neq _ _) Hnz)).
  pose proof (load_rest s0 s1 root segs raw t Hlk Hraw Hvl He1 Hempty) as H2. fold nw in H2. clearbody nw.
  revert H2. unfold mbind, M_bind.
  destruct (unwrap_M _ s1) as [[u2 s2]| | |]; [|done| |done].
  2:{ intros H2. eapply short_later; [exact Hw0|]. by eapply short_later. }
  destruct (map_window _ _ _ _ s2) as [[u3 s3]| | |]; [|done| |done].
  2:{ intros H2. eapply short_later; [exact Hw0|]. by eapply short_later. }
  intros (He2 & Hw2 & Hks). split; [|split].
  - destruct Hl1 as [Hx|Hl1]; [left|right; by apply Hks].
    eapply short_later; [exact Hw0|]. eapply short_weaken; [|exact Hx]. lia.
  - eapply within_trans; [exact Hw0|]. by eapply within_trans.
  - eapply spared_extends; [|exact (extends_trans _ _ _ _ _ _ He1 He2)]. intros b Hb Hpos.
    split; [by apply Ho|]. split; [by apply (Hkeep b b.1 Hb); unfold in_block; lia|].
    intros q Hq. by apply (Hkeep b q Hb).
Qed.

(** [load_kernel] with an image whose segments are sound, lie above the base of the
    kernel's code and share no page.  It panics only when the memory cannot give a
    page table.  Otherwise, unless the memory ran out of frames, the new page table
    maps exactly: every segment at the address it was linked for, with its
    permissions, the bytes of the file in place and zeros around them; the page of
    the trampoline; and the window, in which the address at distance [x] from its
    base is physical address [x].  No memory allocated before has changed, and the
    stacks start over. *)
Theorem load_kernel_correct (self : Boot S) image gbyte_pages pse kernel segs :
  kernel_image self = Some kernel ∨ kernel_image self = None ∧ Elf.parse image = Ok kernel →
  Elf.items (Elf.segments kernel) = Ok (inr <$> segs) → linked segs →
  u64 (RAW_PT_ENTRY self) → valid_leaf Page4K (RAW_PT_ENTRY self) = true →
  match load_kernel image gbyte_pages pse self with
  | Ok self' => ∃ root,
      kernel_image self' = Some kernel ∧ Boot.kernel_pt self' = Some root ∧
      next_stack self' = KERNEL_STACK_BASE ∧ RAW_PT_ENTRY self' = RAW_PT_ENTRY self ∧
      (short4 (load_cost segs (window_type gbyte_pages pse)) (pmem self) ∨
       kernel_space (pmem self') root segs (RAW_PT_ENTRY self) (window_type gbyte_pages pse) KERNEL_STACK_BASE) ∧
      spared (pmem self) (pmem self') root
  | Panic => short4 (load_cost segs (window_type gbyte_pages pse)) (pmem self)
  | _ => False
  end.
Proof.
  intros Himg Hit Hlk Hraw Hvl. unfold load_kernel.
  assert (match kernel_image self with Some kernel => Ok kernel | None => unwrap_res (Elf.parse image) end
    = Ok kernel :> res unit Elf.Elf) as ->.
  { destruct Himg as [->|[-> ->]]; done. }
  cbn [mbind res_bind].
  pose proof (load_tables_ok (pmem self) kernel segs (RAW_PT_ENTRY self) gbyte_pages pse Hit Hlk Hraw Hvl) as H.
  destruct (load_tables _ _ _ _ _) as [[root s']| | |]; [|done..].
  destruct H as (H1 & _ & H2). exists root. by split_and!.
Qed.

(** * Stacks *)
Lemma stack_place :
  KERNEL_STACK_SIZE_PADDED = 136 * 4096 ∧ (4096 | KERNEL_STACK_BASE) ∧
  KERNEL_STACK_BASE ≤ KERNEL_PHYS_WINDOW_BASE ∧ 0 ≤ KERNEL_STACK_BASE < 2 ^ 64.
Proof.
  split; [done|]. split; [apply Z.mod_divide; [lia|vm_compute; reflexivity]|].
  split; [apply Z.leb_le; vm_compute; reflexivity|].
  split; [apply Z.leb_le|apply Z.ltb_lt]; vm_compute; reflexivity.
Qed.

Definition stack_request (base : Z) : MapRequest :=
  mkMapRequest Page4K base KERNEL_STACK_SIZE_PADDED (Permissions.new true false false).

(** The page of an address in a range that was mapped. *)
Lemma stack_mapped s s' root base ps v :
  pages_mapped s s' root (stack_request base) None base ps → length ps = 136%nat →
  base ≤ v < base + 136 * 4096 →
  ∃ p, ps !! Z.to_nat ((v - base) / 4096) = Some p ∧
    page_at s' root v = Some (p, (v - base) mod 4096,
      Z.lor (Z.lor p PAGE_PRESENT) (Permissions.bits (Permissions.new true false false))) ∧
    (p, 4096) ∈ owned s' ∧ Forall (apart (p, 4096)) (owned s) ∧ ¬ is_table s' root p.
Proof.
  intros H Hlen Hv. set (k := v - base) in *.
  pose proof (Z.div_mod k 4096 ltac:(lia)) as Hd. pose proof (Z.mod_pos_bound k 4096 ltac:(lia)) as Hr.
  assert (0 ≤ k / 4096) by (apply Z.div_pos; lia).
  assert (k / 4096 < 136) by (apply Z.div_lt_upper_bound; lia).
  destruct (lookup_lt_is_Some_2 ps (Z.to_nat (k / 4096))) as [p Hp]; [lia|].
  exists p. split; [done|]. pose proof (pm_page _ _ _ _ _ _ _ H _ p (k mod 4096) Hp Hr) as Hpg.
  cbn [page_type stack_request PageType.size] in Hpg. unfold request_entry in Hpg.
  cbn [permissions page_type stack_request PageType.size_bit] in Hpg. rewrite Z.lor_0_r in Hpg.
  replace (base + Z.of_nat (Z.to_nat (k / 4096)) * 4096 + k mod 4096) with v in Hpg by lia.
  split; [done|]. exact (pm_frame _ _ _ _ _ _ _ H _ p Hp).
Qed.

Lemma stack_page_kept s s' root R v :
  extends s s' root R → canonical v → ¬ R v → stack_page s root v → stack_page s' root v.
Proof.
  intros He Hc Hn (p & off & Hp & Hin & Hnt). exists p, off.
  destruct (ext_data _ _ _ _ He (p, 4096) Hin) as (Hin' & Hnt' & _); [simpl; lia|done|].
  by rewrite (ext_else _ _ _ _ He).
Qed.

(** The frames of a new stack are not those of the stacks above it. *)
Lemma frames_distinct s s' root base low ps :
  low = base + 136 * 4096 → (4096 | low) →
  pages_mapped s s' root (stack_request base) None base ps → length ps = 136%nat →
  (∀ v v' p off off' e e', low ≤ v < KERNEL_STACK_BASE → low ≤ v' < KERNEL_STACK_BASE →
     page_at s' root v = Some (p, off, e) → page_at s' root v' = Some (p, off', e') → v / 4096 = v' / 4096) →
  (∀ v, low ≤ v < KERNEL_STACK_BASE → ∃ p off e, page_at s' root v = Some (p, off, e) ∧ (p, 4096) ∈ owned s) →
  ∀ v v' p off off' e e', base ≤ v < KERNEL_STACK_BASE → base ≤ v' < KERNEL_STACK_BASE →
    page_at s' root v = Some (p, off, e) → page_at s' root v' = Some (p, off', e') → v / 4096 = v' / 4096.
Proof.
  intros Hlow [kl Hd] H Hlen Hinj Hold v v' p off off' e e' Hv Hv' Hp Hp'.
  assert (∀ x y q o o' f f', base ≤ x < low → low ≤ y < KERNEL_STACK_BASE →
    page_at s' root x = Some (q, o, f) → page_at s' root y = Some (q, o', f') → False) as Hcross.
  { intros x y q o o' f f' Hx Hy Hqx Hqy.
    destruct (stack_mapped _ _ _ _ _ x H Hlen ltac:(lia)) as (q1 & _ & E1 & _ & Hap & _).
    destruct (Hold y Hy) as (q2 & o2 & f2 & E2 & Hin). rewrite Hqx in E1. rewrite Hqy in E2. simplify_eq.
    rewrite Forall_forall in Hap. specialize (Hap _ Hin). unfold apart in Hap. simpl in Hap. lia. }
  destruct (Z.lt_ge_cases v low) as [Hlt|Hge], (Z.lt_ge_cases v' low) as [Hlt'|Hge'].
  - destruct (stack_mapped _ _ _ _ _ v H Hlen ltac:(lia)) as (q & Hk & E & _).
    destruct (stack_mapped _ _ _ _ _ v' H Hlen ltac:(lia)) as (q' & Hk' & E' & _).
    rewrite Hp in E. rewrite Hp' in E'. simplify_eq.
    pose proof (NoDup_lookup _ _ _ _ (pm_distinct _ _ _ _ _ _ _ H) Hk Hk') as Hidx.
    assert ((v - base) / 4096 = (v' - base) / 4096) as Hq.
    { apply Z2Nat.inj in Hidx; [done|apply Z.div_pos; lia..]. }
    assert (base = (kl - 136) * 4096) as -> by lia.
    replace v with (v - (kl - 136) * 4096 + (kl - 136) * 4096) by lia.
    replace v' with (v' - (kl - 136) * 4096 + (kl - 136) * 4096) by lia.
    rewrite !Z.div_add by lia. lia.
  - exfalso. apply (Hcross v v' p off off' e e'); [lia|lia|exact Hp|exact Hp'].
  - exfalso. apply (Hcross v' v p off' off e' e); [lia|lia|exact Hp'|exact Hp].
  - apply (Hinj v v' p off off' e e'); [lia|lia|exact Hp|exact Hp'].
Qed.

(** The stack below the others. *)
Lemma space_with_stack s s' root segs raw t low ps :
  let base := low - 136 * 4096 in
  linked segs → kernel_space s root segs raw t low → low ≤ KERNEL_STACK_BASE → (4096 | low) →
  2 ^ 64 - 2 ^ 47 ≤ base →
  pages_mapped s s' root (stack_request base) None base ps → length ps = 136%nat →
  kernel_space s' root segs raw t base.
Proof.
  intros base Hlk Hks Hlow Hd Hbase H Hlen. destruct stack_place as (_ & HdB & HB1 & HB2).
  destruct tramp_place as (_ & HT1 & HT2 & HT3 & HT4). destruct window_place as (HWs & _ & _ & HW2).
  pose proof (extends_pages _ _ _ _ _ _ ps 136 (ks_used _ _ _ _ _ _ Hks) H (Nat.eq_le_incl _ _ Hlen)) as He.
  cbn [page_type stack_request PageType.size] in He. change (Z.of_nat 136 * 4096) with (136 * 4096) in He.
  assert (∀ v, low ≤ v → canonical v → page_at s' root v = page_at s root v) as Hold
    by (intros v Hv Hc; apply (ext_else _ _ _ _ He v Hc); cbv beta; lia).
  assert (∀ v, base ≤ v < 2 ^ 64 → canonical v) as Hcan by (intros v Hv; apply canonical_iff; lia).
  split.
  - apply He.
  - apply He.
  - pose proof (ks_segments _ _ _ _ _ _ Hks) as Hall. pose proof (lk_loadable _ Hlk) as Hld.
    rewrite Forall_forall in *. intros seg Hin. eapply loaded_kept; [by apply Hld|exact He| |by apply Hall].
    intros v Hv. pose proof (lk_above _ Hlk v) as Hab. specialize (Hab ltac:(by exists seg)). cbv beta. lia.
  - intros v Hv. unfold tramp_range in Hv. rewrite Hold; [|lia|apply Hcan; lia].
    by apply (ks_tramp _ _ _ _ _ _ Hks).
  - intros v Hv. destruct (ks_window _ _ _ _ _ _ Hks v Hv) as (p & off & Hp & Hrest).
    rewrite HWs in Hv. unfold window_range in Hv. exists p, off. rewrite Hold; [done|lia|apply Hcan; lia].
  - intros v Hv. destruct (Z.lt_ge_cases v low) as [Hlt|Hge].
    + destruct (stack_mapped _ _ _ _ _ v H Hlen ltac:(lia)) as (p & _ & Hp & Hin & _ & Hnt). by exists p, ((v - base) mod 4096).
    + eapply stack_page_kept; [exact He|apply Hcan; lia|cbv beta; lia|]. apply (ks_stacks _ _ _ _ _ _ Hks). lia.
  - apply (frames_distinct s s' root base low ps); [lia|done|done|done|..].
    + intros v v' p off off' e e' Hv Hv'. rewrite !Hold by (try apply Hcan; lia).
      apply (ks_frames _ _ _ _ _ _ Hks); lia.
    + intros v Hv. destruct (ks_stacks _ _ _ _ _ _ Hks v ltac:(lia)) as (p & off & Hp & Hin & _).
      exists p, off. eexists. rewrite Hold by (try apply Hcan; lia). done.
  - intros v Hc Hs Ht Hw Hst. rewrite (ext_else _ _ _ _ He v Hc) by (cbv beta; lia).
    refine (ks_else _ _ _ _ _ _ Hks v Hc Hs Ht Hw _). lia.
Qed.

Lemma map_stack_ok s root segs raw t low :
  linked segs → kernel_space s root segs raw t low → low ≤ KERNEL_STACK_BASE → (4096 | low) →
  2 ^ 64 - 2 ^ 47 ≤ low - KERNEL_STACK_SIZE_PADDED →
  match map_stack root (low - KERNEL_STACK_SIZE_PADDED) s with
  | Ok (_, s') => kernel_space s' root segs raw t (low - KERNEL_STACK_SIZE_PADDED) ∧ within 4096 (4 * 136) s s' ∧
      ∃ R, extends s s' root R
  | Panic => short4 (4 * 136) s
  | _ => False
  end.
Proof.
  intros Hlk Hks Hlow Hd Hbase. pose proof stack_place as (HP & HdB & HB1 & HB2).
  pose proof window_place as (HWs & _ & _ & HW2). pose proof tramp_place as (_ & _ & _ & HT3 & HT4).
  unfold map_stack. rewrite map_request_ok.
  2:{ unfold fits. lia. }
  2:{ rewrite HP. apply Z.divide_sub_r; [done|by exists 136]. }
  fold (stack_request (low - KERNEL_STACK_SIZE_PADDED)). rewrite HP in *.
  set (base := low - 136 * 4096) in *. set (request := stack_request base).
  rewrite (M_bind_Ok (lift (unwrap_res (Ok _))) _ _ request s eq_refl). unfold unwrap_M, PageTable.map.
  assert (4096 | base) as Hdb by (apply Z.divide_sub_r; [done|by exists 136]).
  rewrite map_init_pages; [|done|done|right; change (size request) with (136 * 4096); simpl vaddr; lia].
  change (Z.to_nat ((size request + _ - 1) / _)) with 136%nat. change (vaddr request) with base.
  pose proof (map_pages_ok 136 root request None base s (ks_space _ _ _ _ _ _ Hks) Hdb) as H.
  specialize (H ltac:(right; change (Z.of_nat 136 * PageType.size (page_type request)) with (136 * 4096); lia)
    ltac:(intros f x Hf; discriminate Hf)).
  pose proof (bounded_map_pages root request None 136 base s) as Hw.
  destruct (PageTable.map_pages root request None 136 base s) as [[u s']|[u s']| |]; cbn [unwrap_res]; [| |exact H|done].
  - destruct H as (ps & Hlen & H).
    split; [exact (space_with_stack s s' root segs raw t low ps Hlk Hks Hlow Hd Hbase H Hlen)|]. split; [exact Hw|].
    eexists. exact (extends_pages _ _ _ _ _ _ ps 136 (ks_used _ _ _ _ _ _ Hks) H (Nat.eq_le_incl _ _ Hlen)).
  - destruct H as (ps & Hlen & H & [Hst|[Hst|Hst]]); [eapply short_weaken; [|exact Hst]; lia| |by apply table_below_4k in Hst].
    destruct Hst. change (PageType.size (page_type request)) with 4096.
    assert (base ≤ base + Z.of_nat (length ps) * 4096 < low) as Hin by lia.
    refine (ks_else _ _ _ _ _ _ Hks _ _ _ _ _ _).
    + apply canonical_iff. lia.
    + intros Hs%(lk_above _ Hlk). lia.
    + unfold tramp_range. lia.
    + rewrite HWs. unfold window_range. lia.
    + lia.
Qed.
End spaces.

(** * The boot of the whole machine *)
Section machine.
Implicit Types (b : Boot Pmem) (segs : list Elf.Segment).
Abbreviation STACK := KERNEL_STACK_SIZE_PADDED.

(** The state between two cores, with [low] the lowest stack handed out. *)
Record booted (s0 : Pmem) b kernel root segs raw t low : Prop := {
  bt_image : kernel_image b = Some kernel;
  bt_table : Boot.kernel_pt b = Some root;
  bt_next : next_stack b = low;
  bt_raw : RAW_PT_ENTRY b = raw;
  bt_space : kernel_space (pmem b) root segs raw t low;
  bt_spared : spared s0 (pmem b) root;
}.

Lemma within_pages n (s s' : Pmem) : within 4096 n s s' → pmem_pages s - Z.of_nat n ≤ pmem_pages s'.
Proof.
  intros (l & Hlen & Hf & Ha). pose proof (after_pages l s s') as Hp.
  specialize (Hp ltac:(eapply Forall_impl; [exact Hf|]; by intros x [?|?]) Ha). unfold zlen in Hp. lia.
Qed.

Lemma next_core s0 b kernel root segs raw t low :
  linked segs → booted s0 b kernel root segs raw t low → low ≤ KERNEL_STACK_BASE → (4096 | low) →
  2 ^ 64 - 2 ^ 47 ≤ low - STACK → 4 * 136 ≤ pmem_pages (pmem b) →
  ∃ b', map_kernel_stack b = Ok (low, b') ∧ booted s0 b' kernel root segs raw t (low - STACK) ∧
    pmem_pages (pmem b) - 4 * 136 ≤ pmem_pages (pmem b').
Proof.
  intros Hlk [Hi Ht Hn Hr Hks Hsp] Hlow Hd Hbase Hmem. unfold map_kernel_stack. rewrite Ht. cbn [unwrap mbind res_bind].
  pose proof stack_place as (HP & _ & _ & HB2). unfold get_next_stack, checked_sub. rewrite Hn.
  rewrite (proj2 (Z.leb_le STACK low)) by lia. cbn [unwrap mbind res_bind]. rewrite Z.mod_small by lia.
  pose proof (map_stack_ok (pmem b) root segs raw t low Hlk Hks Hlow Hd Hbase) as H.
  destruct (map_stack root (low - STACK) (pmem b)) as [[u s']| | |]; [|done| |done].
  2:{ destruct (pmem_enough (4 * 136) (pmem b)); [exact Hmem|exact H]. }
  destruct H as (Hks' & Hw & R & He). unfold checked_add. replace (low - STACK + STACK) with low by lia.
  rewrite (proj2 (Z.ltb_lt low (2 ^ 64))) by lia. cbn [unwrap mbind res_bind].
  eexists. split; [done|]. split; [|apply within_pages in Hw; exact Hw].
  constructor; try done. cbn [pmem]. by eapply spared_extends.
Qed.

Lemma boot_later n image gbyte_pages pse s0 kernel root segs raw t : ∀ b snapshot low,
  linked segs → booted s0 b kernel root segs raw t low → low ≤ KERNEL_STACK_BASE → (4096 | low) →
  2 ^ 64 - 2 ^ 47 ≤ low - Z.of_nat n * STACK → Z.of_nat n * (4 * 136) ≤ pmem_pages (pmem b) →
  ∃ b', boot_cores n image gbyte_pages pse (mkMachine b false snapshot)
      = Ok ((λ i : nat, (Elf.entry kernel, low - Z.of_nat i * STACK, root)) <$> seq 0 n,
            mkMachine b' false snapshot) ∧
    booted s0 b' kernel root segs raw t (low - Z.of_nat n * STACK).
Proof.
  pose proof stack_place as (HP & _).
  induction n as [|n IH]; intros b snapshot low Hlk Hb Hlow Hd Hbase Hmem.
  { exists b. split; [done|]. by rewrite Z.mul_0_l, Z.sub_0_r. }
  rewrite Nat2Z.inj_succ, Z.mul_succ_l in Hbase, Hmem.
  destruct (next_core s0 b kernel root segs raw t low Hlk Hb Hlow Hd) as (b1 & E1 & Hb1 & Hm1); [lia|lia|].
  cbn [boot_cores]. unfold efi_main. cbn [rebooting boot mbind res_bind]. rewrite E1. cbn [mbind res_bind fst snd].
  unfold jump_to_kernel. rewrite (bt_image _ _ _ _ _ _ _ _ Hb1), (bt_table _ _ _ _ _ _ _ _ Hb1).
  cbn [unwrap mbind res_bind fst snd MEMORY_SNAPSHOT].
  destruct (IH b1 snapshot (low - STACK) Hlk Hb1) as (b' & E & Hb'); [lia| |lia|lia|].
  { rewrite HP. apply Z.divide_sub_r; [done|by exists 136]. }
  exists b'. rewrite E. cbn [mbind res_bind fst snd]. split.
  - do 2 f_equal. cbn [seq fmap list_fmap]. rewrite Z.mul_0_l, Z.sub_0_r. f_equal.
    rewrite <-fmap_S_seq, <-list_fmap_compose. apply list_fmap_ext. intros _ k _. simpl.
    do 2 f_equal. lia.
  - replace (low - Z.of_nat (S n) * STACK) with (low - STACK - Z.of_nat n * STACK); [done|].
    rewrite Nat2Z.inj_succ, Z.mul_succ_l. lia.
Qed.

(** The first core of a (re)boot loads the kernel. *)
Lemma reload (self : Boot Pmem) image gbyte_pages pse kernel segs :
  let t := window_type gbyte_pages pse in
  kernel_image self = Some kernel ∨ kernel_image self = None ∧ Elf.parse image = Ok kernel →
  Elf.items (Elf.segments kernel) = Ok (inr <$> segs) → linked segs →
  u64 (RAW_PT_ENTRY self) → valid_leaf Page4K (RAW_PT_ENTRY self) = true →
  Z.of_nat (load_cost segs t) ≤ pmem_pages (pmem self) →
  ∃ root b, load_kernel image gbyte_pages pse self = Ok b ∧
    booted (pmem self) b kernel root segs (RAW_PT_ENTRY self) t KERNEL_STACK_BASE ∧
    pmem_pages (pmem self) - Z.of_nat (load_cost segs t) ≤ pmem_pages (pmem b).
Proof.
  intros t Himg Hit Hlk Hraw Hvl Hmem. unfold load_kernel.
  assert (match kernel_image self with Some kernel => Ok kernel | None => unwrap_res (Elf.parse image) end
    = Ok kernel :> res unit Elf.Elf) as -> by (by destruct Himg as [->|[-> ->]]).
  cbn [mbind res_bind].
  pose proof (load_tables_ok (pmem self) kernel segs (RAW_PT_ENTRY self) gbyte_pages pse Hit Hlk Hraw Hvl) as H. fold t in H.
  assert (¬ short 4096 (load_cost segs t) (pmem self)) as Hns by (apply pmem_enough; lia).
  destruct (load_tables _ _ _ _ _) as [[root s']| | |]; [|done|by destruct Hns|done].
  destruct H as ([?|Hks] & Hw & Hsp); [by destruct Hns|]. exists root. eexists. split; [done|].
  split; [by constructor|]. by apply within_pages in Hw.
Qed.

Lemma boot_run (self : Machine) image gbyte_pages pse kernel segs n :
  let t := window_type gbyte_pages pse in
  let raw := RAW_PT_ENTRY (boot self) in
  let mem := restore_physical_memory (MEMORY_SNAPSHOT self) (pmem (boot self)) in
  rebooting self = true →
  kernel_image (boot self) = Some kernel ∨ kernel_image (boot self) = None ∧ Elf.parse image = Ok kernel →
  Elf.items (Elf.segments kernel) = Ok (inr <$> segs) → linked segs →
  u64 raw → valid_leaf Page4K raw = true →
  2 ^ 64 - 2 ^ 47 ≤ KERNEL_STACK_BASE - Z.of_nat (S n) * STACK →
  Z.of_nat (load_cost segs t) + Z.of_nat (S n) * (4 * 136) ≤ pmem_pages (MEMORY_SNAPSHOT self) →
  ∃ root b,
    boot_cores (S n) image gbyte_pages pse self
      = Ok ((λ i : nat, (Elf.entry kernel, KERNEL_STACK_BASE - Z.of_nat i * STACK, root)) <$> seq 0 (S n),
            mkMachine b false (MEMORY_SNAPSHOT self)) ∧
    booted mem b kernel root segs raw t (KERNEL_STACK_BASE - Z.of_nat (S n) * STACK).
Proof.
  intros t raw mem Hre Himg Hit Hlk Hraw Hvl Hbase Hmem. pose proof stack_place as (HP & HdB & _ & HB2).
  assert (pmem_pages mem = pmem_pages (MEMORY_SNAPSHOT self)) as Hpages by done.
  rewrite Nat2Z.inj_succ, Z.mul_succ_l in Hbase, Hmem.
  destruct (reload (set_pmem (boot self) mem) image gbyte_pages pse kernel segs Himg Hit Hlk Hraw Hvl)
    as (root & b & Eload & Hb & Hpg); [cbn [pmem set_pmem]; fold t; lia|]. cbn [pmem set_pmem] in Hb, Hpg. fold t in Hb, Hpg.
  destruct (boot_later (S n) image gbyte_pages pse mem kernel root segs raw t b (MEMORY_SNAPSHOT self)
    KERNEL_STACK_BASE Hlk Hb) as (b' & E & Hb'); [lia|done|rewrite Nat2Z.inj_succ, Z.mul_succ_l; lia..|].
  exists root, b'. split; [|exact Hb'].
  rewrite <-E. cbn [boot_cores]. unfold efi_main. rewrite Hre. fold mem. rewrite Eload. done.
Qed.

(** C17. The boot of a machine.  After a (re)boot request, with memory for the pages the
    kernel's image, tables and stacks can take, every core gets through the
    bootloader: the first loads the kernel, each maps a stack of its own below the
    others and jumps to the entry point of the image with the kernel's page table,
    and at the end the address space holds the kernel, the trampoline, the window
    and the stacks, on distinct frames, and nothing else.  The memory that was in use
    when the snapshot was taken is as it was. *)
Theorem boot_cores_correct (self : Machine) image gbyte_pages pse kernel segs n :
  let t := window_type gbyte_pages pse in
  let raw := RAW_PT_ENTRY (boot self) in
  rebooting self = true →
  kernel_image (boot self) = Some kernel ∨ kernel_image (boot self) = None ∧ Elf.parse image = Ok kernel →
  Elf.items (Elf.segments kernel) = Ok (inr <$> segs) → linked segs →
  u64 raw → valid_leaf Page4K raw = true →
  2 ^ 64 - 2 ^ 47 ≤ KERNEL_STACK_BASE - Z.of_nat (S n) * STACK →
  Z.of_nat (load_cost segs t) + Z.of_nat (S n) * (4 * 136) ≤ pmem_pages (MEMORY_SNAPSHOT self) →
  ∃ root self',
    boot_cores (S n) image gbyte_pages pse self
      = Ok ((λ i : nat, (Elf.entry kernel, KERNEL_STACK_BASE - Z.of_nat i * STACK, root)) <$> seq 0 (S n),
            self') ∧
    rebooting self' = false ∧ Boot.kernel_pt (boot self') = Some root ∧
    kernel_space (pmem (boot self')) root segs raw t (KERNEL_STACK_BASE - Z.of_nat (S n) * STACK) ∧
    ∀ (bl : block) q, bl ∈ owned (MEMORY_SNAPSHOT self) → in_block q bl →
      peek q (pmem (boot self')) = peek q (pmem (boot self)).
Proof.
  intros t raw Hre Himg Hit Hlk Hraw Hvl Hbase Hmem.
  destruct (boot_run self image gbyte_pages pse kernel segs n Hre Himg Hit Hlk Hraw Hvl Hbase Hmem) as (root & b & E & Hb).
  exists root, (mkMachine b false (MEMORY_SNAPSHOT self)). split; [exact E|]. split; [done|].
  split; [apply Hb|]. split; [apply Hb|]. intros bl q Hbl Hq.
  destruct (bt_spared _ _ _ _ _ _ _ _ Hb bl Hbl) as (_ & _ & Hk); [by eapply inv_size; [apply pmem_ok|]|].
  specialize (Hk q Hq). change (q + offset) with (q + 0) in Hk. by rewrite Z.add_0_r in Hk.
Qed.
End machine.

(** * A machine *)
Definition sample_kernel : list Z :=
  Elf.magic ++ [2; 1; 1] ++ replicate 9 0 ++ le_bytes 2 2 ++ le_bytes 2 0x3E ++ le_bytes 4 1 ++
  le_bytes 8 0xFFFFFFFFCAFE0010 ++ le_bytes 8 0x40 ++ le_bytes 8 0 ++ le_bytes 4 0 ++ le_bytes 2 0x40 ++
  le_bytes 2 56 ++ le_bytes 2 2 ++ replicate 6 0 ++
  sample_phdr 1 5 0xB0 0xFFFFFFFFCAFE0010 4 0x20 0x1000 ++
  sample_phdr 1 6 0xB2 0xFFFFFFFFCAFE1000 2 0x1800 0x1000 ++
  [0xF4; 0xEB; 0xFD; 0x90].
Definition sample_image : Elf.Elf := Elf.mkElf sample_kernel 0x40 56 2 0xFFFFFFFFCAFE0010.
Definition sample_segs : list Elf.Segment :=
  [Elf.mkSegment 0xFFFFFFFFCAFE0000 0x10 0x20 [0xF4; 0xEB; 0xFD; 0x90] (Elf.mkPermissions true false true);
   Elf.mkSegment 0xFFFFFFFFCAFE1000 0 0x1800 [0xFD; 0x90] (Elf.mkPermissions true true false)].

Definition sample_free : RangeSet :=
  mkRangeSet (mkRange 0x100000 0xFFFFFFF :: replicate 255 (mkRange 0 0)) 1.
Lemma sample_free_entries : RangeSet.entries sample_free = [mkRange 0x100000 0xFFFFFFF].
Proof. reflexivity. Qed.
Lemma sample_free_inv : pmem_inv sample_free [].
Proof.
  assert (∀ a, has sample_free a → a < 2 ^ 52) as Htop.
  { intros a. unfold has. rewrite sample_free_entries, covers_cons, covers_nil. unfold addr_in. simpl. lia. }
  split; [split_and!|exact Htop|..].
  - reflexivity.
  - apply Nat.leb_le. reflexivity.
  - rewrite sample_free_entries. simpl. split; [lia|]. split; [lia|exact I].
  - intros b Hb. by apply elem_of_nil in Hb.
  - intros b a Hb. by apply elem_of_nil in Hb.
  - intros b b' Hb. by apply elem_of_nil in Hb.
Qed.
Definition sample_pmem : Pmem := mkPmem sample_free ∅ [] sample_free_inv.
Definition sample_boot : Boot Pmem := mkBoot None None 0 sample_pmem 0x5001.
Definition sample_machine : Machine := mkMachine sample_boot true sample_pmem.

Lemma sample_items : Elf.items (Elf.segments sample_image) = Ok (inr <$> sample_segs).
Proof. vm_compute. reflexivity. Qed.
Lemma sample_parse : Elf.parse sample_kernel = Ok sample_image.
Proof. vm_compute. reflexivity. Qed.
Lemma sample_linked : linked sample_segs.
Proof.
  assert (∀ seg v, seg ∈ sample_segs → seg_range seg v →
    (Elf.vaddr seg = 0xFFFFFFFFCAFE0000 ∧ 0xFFFFFFFFCAFE0000 ≤ v < 0xFFFFFFFFCAFE1000) ∨
    (Elf.vaddr seg = 0xFFFFFFFFCAFE1000 ∧ 0xFFFFFFFFCAFE1000 ≤ v < 0xFFFFFFFFCAFE3000)) as Hr.
  { intros seg v Hin. apply list_elem_of_In in Hin as [<-|[<-|[]]]; intros [H1 H2]; [left|right].
    - split; [reflexivity|]. split; [exact H1|exact H2].
    - split; [reflexivity|]. split; [exact H1|exact H2]. }
  split.
  - constructor; [|constructor; [|constructor]]; split;
      cbn [Elf.vaddr Elf.offset Elf.vsize Elf.bytes];
      try (unfold zlen; simpl; lia); try (right; lia);
      try (apply Z.mod_divide; [lia|reflexivity]); apply Forall_bool_bytes; reflexivity.
  - split; [|split; [constructor|exact I]]. constructor; [|constructor].
    intros v H1 H2. destruct (Hr _ v (list_elem_of_here _ _) H1) as [[_ ?]|[E _]]; [|discriminate E].
    destruct (Hr _ v (list_elem_of_further _ _ _ (list_elem_of_here _ _)) H2) as [[E _]|[_ ?]]; [discriminate E|lia].
  - intros v (seg & Hin & Hv). change KERNEL_CODE_BASE with 0xFFFFFFFFCAFE0000.
    destruct (Hr seg v Hin Hv) as [[_ ?]|[_ ?]]; lia.
Qed.

Lemma boot_cores_correct_witness :
  ∃ root self',
    boot_cores 2 sample_kernel true true sample_machine
      = Ok ([(0xFFFFFFFFCAFE0010, KERNEL_STACK_BASE, root);
             (0xFFFFFFFFCAFE0010, KERNEL_STACK_BASE - KERNEL_STACK_SIZE_PADDED, root)], self') ∧
    kernel_space (pmem (boot self')) root sample_segs 0x5001 Page1G
      (KERNEL_STACK_BASE - 2 * KERNEL_STACK_SIZE_PADDED).
Proof.
  destruct (boot_cores_correct sample_machine sample_kernel true true sample_image sample_segs 1
    eq_refl (or_intror (conj eq_refl sample_parse)) sample_items sample_linked)
    as (root & self' & E & _ & _ & Hks & _).
  - split; [vm_compute; discriminate|reflexivity].
  - reflexivity.
  - apply Z.leb_le. vm_compute. reflexivity.
  - apply Z.leb_le. vm_compute. reflexivity.
  - exists root, self'. split; [|exact Hks]. exact E.
Defined.

Lemma load_kernel_correct_witness :
  kernel_image sample_boot = None ∧ Elf.parse sample_kernel = Ok sample_image ∧
  match load_kernel sample_kernel true true sample_boot with
  | Ok self' => ∃ root, kernel_image self' = Some sample_image ∧ Boot.kernel_pt self' = Some root ∧
      (short 4096 (load_cost sample_segs Page1G) sample_pmem ∨
       kernel_space (pmem self') root sample_segs 0x5001 Page1G KERNEL_STACK_BASE)
  | Panic => short 4096 (load_cost sample_segs Page1G) sample_pmem
  | _ => False
  end.
Proof.
  split; [reflexivity|]. split; [exact sample_parse|].
  pose proof (load_kernel_correct sample_boot sample_kernel true true sample_image sample_segs
    (or_intror (conj eq_refl sample_parse)) sample_items sample_linked) as H.
  specialize (H ltac:(split; [vm_compute; discriminate|reflexivity]) eq_refl).
  destruct (load_kernel sample_kernel true true sample_boot) as [self'| | |]; [|exact H..].
  destruct H as (root & H1 & H2 & _ & _ & H3 & _). exists root. split; [exact H1|]. split; [exact H2|exact H3].
Defined.
