(* ===== verification/Pci.v ===== *)
(** PCI enumeration: kernel/src/pci/pci.rs.

    The configuration space is reached through two I/O ports, whose behaviour is a
    type class; the drivers' probes act on a state of their own, apart from the
    ports, and are an argument, as the [.pci_probes] section is in the source. *)
From Stdlib Require Import ZArith Lia.
From stdpp Require Import prelude list numbers.
From S2P Require Import Prelude Packet.

Module Pci.

Definition PCI_CONFIG_ADDRESS : Z := 0xCF8.
Definition PCI_CONFIG_DATA : Z := 0xCFC.

Record Header := mkHeader {
  vendor_id : Z; device_id : Z; command : Z; status : Z;
  revision : Z; prog_if : Z; subclass : Z; class : Z;
  cache_line_size : Z; latency_timer : Z; header_type : Z; bist : Z }.

Record DeviceConfig := mkDeviceConfig {
  header : Header; bar0 : Z; bar1 : Z; bar2 : Z; bar3 : Z; bar4 : Z; bar5 : Z;
  cardbus_cis_pointer : Z; subsystem_vendor_id : Z; subsystem_device_id : Z;
  expansion_rom_address : Z; capabilities : Z; reserved : list Z;
  interrupt_line : Z; interrupt_pin : Z; min_grant : Z; max_latency : Z }.

(** ** BARs *)
Inductive BarBits := Bit32 | Bit64.
Inductive BarType := IO | Memory.
#[global] Instance BarType_eq_dec : EqDecision BarType.
Proof. solve_decision. Defined.

Definition BarBits_from_bar (bar : Z) : BarBits :=
  if Z.land (Z.shiftr bar 1) 3 =? 2 then Bit64 else Bit32.
Definition BarBits_u64 (bar0 bar1 : Z) : Z :=
  let lower := Z.land bar0 (unot 32 15) in
  let higher := Z.land bar1 (unot 32 15) in
  match BarBits_from_bar bar0 with
  | Bit32 => lower
  | Bit64 => Z.lor (cast 64 (Z.shiftl higher 32)) lower
  end.
Definition BarType_from_bar (bar : Z) : BarType := if Z.land bar 1 =? 0 then Memory else IO.

(** ** Structures in registers *)
(** The [n]-byte little-endian field at [off]. *)
Definition field (b : list Z) (off n : nat) : Z := le_val (take n (drop off b)).
(** The bytes of the registers, in memory order. *)
Definition raw_bytes (data : list Z) : list Z := data ≫= le_bytes 4.

Definition Header_of (b : list Z) : Header :=
  mkHeader (field b 0 2) (field b 2 2) (field b 4 2) (field b 6 2)
    (field b 8 1) (field b 9 1) (field b 10 1) (field b 11 1)
    (field b 12 1) (field b 13 1) (field b 14 1) (field b 15 1).
Definition DeviceConfig_of (b : list Z) : DeviceConfig :=
  mkDeviceConfig (Header_of b)
    (field b 16 4) (field b 20 4) (field b 24 4) (field b 28 4) (field b 32 4) (field b 36 4)
    (field b 40 4) (field b 44 2) (field b 46 2) (field b 48 4) (field b 52 1)
    (take 7 (drop 53 b)) (field b 60 1) (field b 61 1) (field b 62 1) (field b 63 1).

End Pci.

(** The machine's ports: [cpu::out32] and [cpu::in32]. *)
Class Ports (P : Type) := { out32 : Z → Z → P → P; in32 : Z → P → Z * P }.

Definition bdf_ok (bdf : Z * Z * Z) : Prop :=
  0 ≤ bdf.1.1 < 256 ∧ 0 ≤ bdf.1.2 < 32 ∧ 0 ≤ bdf.2 < 8.
(** Configuration mechanism 1: the dword that selects register [i] of a function.  Bit 31
    enables the access, and bus, device, function and register follow at bits 16, 11, 8 and 2. *)
Definition config_address (bdf : Z * Z * Z) (i : Z) : Z :=
  2 ^ 31 + 2 ^ 16 * bdf.1.1 + 2 ^ 11 * bdf.1.2 + 2 ^ 8 * bdf.2 + 4 * i.
(** The address port (0xCF8) selects, the data port (0xCFC) shows the register that is
    selected; nothing is known about any other dword.  [config p bdf i]: the register. *)
Class PciPorts (P : Type) `{Ports P} := {
  config : P → Z * Z * Z → Z → Z;
  selected : P → Z;
  select_law p a : selected (out32 0xCF8 a p) = a ∧ config (out32 0xCF8 a p) = config p;
  data_law p v p' : in32 0xCFC p = (v, p') → config p' = config p ∧
    ∀ bdf i, bdf_ok bdf → 0 ≤ i < 64 → selected p = config_address bdf i → v = config p bdf i;
}.

Module Enum.
Import Pci.
Section ops.
(** [R]: what the drivers' probes work on; [Dev]: [Arc<dyn Device>]. *)
Context {P R Dev : Type} `{Ports P}.
Abbreviation Probe := (DeviceConfig → M R unit (option Dev)).
Record St := mkSt { ports : P; rest : R; DEVICES : list Dev }.

Definition set_ports (p : P) (s : St) : St := mkSt p (rest s) (DEVICES s).
Definition port_out (port v : Z) : M St unit unit := λ s,
  Ok (tt, set_ports (out32 port v (ports s)) s).
Definition port_in (port : Z) : M St unit Z := λ s,
  let '(v, p) := in32 port (ports s) in Ok (v, set_ports p s).
Definition on_rest {A} (m : M R unit A) : M St unit A := λ s,
  match m (rest s) with
  | Ok (a, r) => Ok (a, mkSt (ports s) r (DEVICES s))
  | Err (e, r) => Err (e, mkSt (ports s) r (DEVICES s))
  | Panic => Panic
  | Diverge => Diverge
  end.

(** The [n] registers from [idx] on. *)
Fixpoint read_from (select_addr : Z) (idx : Z) (n : nat) : M St unit (list Z) :=
  match n with
  | O => mret []
  | S n =>
      _ ← port_out PCI_CONFIG_ADDRESS (Z.lor select_addr (idx * 4));
      register ← port_in PCI_CONFIG_DATA;
      data ← read_from select_addr (idx + 1) n;
      mret (register :: data)
  end.
(** [size] is the size of the structure in bytes. *)
Definition read_pci_registers (size : nat) (select_addr : Z) : M St unit (list Z) :=
  data ← read_from select_addr 0 (size / 4); mret (raw_bytes data).

Definition select_addr (bdf : Z * Z * Z) : Z :=
  let '(bus, device, function) := bdf in
  let pci_addr := Z.lor (Z.lor (Z.shiftl bus 8) (Z.shiftl device 3)) function in
  Z.lor (Z.shiftl 1 31) (Z.shiftl pci_addr 8).

Fixpoint try_drivers (drivers : list Probe) (dev_cfg : DeviceConfig) : M St unit unit :=
  match drivers with
  | [] => mret tt
  | probe :: drivers =>
      o ← on_rest (probe dev_cfg);
      _ ← match o with
          | Some device => s ← get; put (mkSt (ports s) (rest s) (DEVICES s ++ [device]))
          | None => mret tt
          end;
      try_drivers drivers dev_cfg
  end.

Definition probe_function (drivers : list Probe) (bdf : Z * Z * Z) : M St unit unit :=
  let select_addr := select_addr bdf in
  _ ← port_out PCI_CONFIG_ADDRESS select_addr;
  did_vid ← port_in PCI_CONFIG_DATA;
  if did_vid =? umax 32 then mret tt
  else
    hdr ← read_pci_registers 16 select_addr;
    if negb (Z.land (header_type (Header_of hdr)) 0x7F =? 0) then mret tt
    else
      cfg ← read_pci_registers 64 select_addr;
      try_drivers drivers (DeviceConfig_of cfg).

Fixpoint for_each {A} (f : A → M St unit unit) (l : list A) : M St unit unit :=
  match l with [] => mret tt | x :: l => _ ← f x; for_each f l end.

Definition functions : list (Z * Z * Z) :=
  seqZ 0 256 ≫= λ bus, seqZ 0 32 ≫= λ device, (λ function, (bus, device, function)) <$> seqZ 0 8.

(** [lock_in]: what the post-probe hook does to the drivers' state. *)
Definition init (drivers : list Probe) (lock_in : M R unit unit) : M St unit unit :=
  _ ← for_each (probe_function drivers) functions; on_rest lock_in.

Fixpoint purge_all (purge : Dev → M R unit unit) (devs : list Dev) : M R unit unit :=
  match devs with [] => mret tt | d :: devs => _ ← purge d; purge_all purge devs end.
Definition reset_devices (purge : Dev → M R unit unit) : M St unit unit :=
  s ← get; on_rest (purge_all purge (DEVICES s)).

End ops.
End Enum.

(** * The configuration space as data *)
Module Reference.
Import Pci.
Section reference.
Context {R Dev : Type}.
Implicit Types (cfg : Z * Z * Z → Z → Z) (bdf : Z * Z * Z).

(** [n] bytes of a register, from byte [k] on *)
Definition part (v k n : Z) : Z := v / 256 ^ k mod 256 ^ n.
(** The configuration header of type 0, register by register *)
Definition config_of cfg bdf : DeviceConfig :=
  let r := cfg bdf in
  mkDeviceConfig
    (mkHeader (part (r 0) 0 2) (part (r 0) 2 2) (part (r 1) 0 2) (part (r 1) 2 2)
       (part (r 2) 0 1) (part (r 2) 1 1) (part (r 2) 2 1) (part (r 2) 3 1)
       (part (r 3) 0 1) (part (r 3) 1 1) (part (r 3) 2 1) (part (r 3) 3 1))
    (part (r 4) 0 4) (part (r 5) 0 4) (part (r 6) 0 4) (part (r 7) 0 4) (part (r 8) 0 4) (part (r 9) 0 4)
    (part (r 10) 0 4) (part (r 11) 0 2) (part (r 11) 2 2) (part (r 12) 0 4) (part (r 13) 0 1)
    [part (r 13) 1 1; part (r 13) 2 1; part (r 13) 3 1;
     part (r 14) 0 1; part (r 14) 1 1; part (r 14) 2 1; part (r 14) 3 1]
    (part (r 15) 0 1) (part (r 15) 1 1) (part (r 15) 2 1) (part (r 15) 3 1).
(** A function answers, and is a device rather than a bridge: bits 0 to 6 of the third byte of
    register 3 are zero. *)
Definition present cfg bdf : bool :=
  negb (cfg bdf 0 =? 2 ^ 32 - 1) && (part (cfg bdf 3) 2 1 mod 128 =? 0).
(** All functions in the order of bus, device and function *)
Definition all_functions : list (Z * Z * Z) := (λ n, (n / 256, n / 8 mod 32, n mod 8)) <$> seqZ 0 65536.
Definition devices_of cfg : list DeviceConfig :=
  config_of cfg <$> filter (λ bdf, Is_true (present cfg bdf)) all_functions.

Abbreviation Probe := (DeviceConfig → M R unit (option Dev)).
Fixpoint offer (drivers : list Probe) (c : DeviceConfig) : M R unit (list Dev) :=
  match drivers with
  | [] => mret []
  | probe :: drivers => o ← probe c; devs ← offer drivers c; mret (option_list o ++ devs)
  end.
Fixpoint offer_all (drivers : list Probe) (cs : list DeviceConfig) : M R unit (list Dev) :=
  match cs with
  | [] => mret []
  | c :: cs => devs ← offer drivers c; more ← offer_all drivers cs; mret (devs ++ more)
  end.
End reference.
End Reference.

(** * Enumeration *)
Section enumeration.
Import Pci Enum Reference.
Context {P R Dev : Type} `{PciPorts P}.
Implicit Types (s : St (P := P) (R := R) (Dev := Dev)).

(** [m] at [s] does to the drivers' state and the list of devices what [r] does,
    and leaves the configuration space alone. *)
Definition simulates s (m : M (St (P := P) (R := R) (Dev := Dev)) unit unit) (r : M R unit (list Dev)) : Prop :=
  match r (rest s) with
  | Ok (devs, r') => ∃ p', m s = Ok (tt, mkSt p' r' (DEVICES s ++ devs)) ∧ config p' = config (ports s)
  | Err (e, r') => ∃ s', m s = Err (e, s') ∧ rest s' = r'
  | Panic => m s = Panic
  | Diverge => m s = Diverge
  end.

Lemma simulates_ret s : simulates s (mret tt) (mret []).
Proof. exists (ports s). rewrite app_nil_r. by destruct s. Qed.

Lemma simulates_bind s m1 m2 (r1 r2 : M R unit (list Dev)) :
  simulates s m1 r1 →
  (∀ s', config (ports s') = config (ports s) → simulates s' m2 r2) →
  simulates s (_ ← m1; m2) (a ← r1; b ← r2; mret (a ++ b)).
Proof.
  unfold simulates, mbind, M_bind. intros H1 H2.
  destruct (r1 (rest s)) as [[a r']|[e r']| |] eqn:E1.
  - destruct H1 as (p' & -> & Hc). specialize (H2 (mkSt p' r' (DEVICES s ++ a)) Hc). cbn [rest DEVICES ports] in H2.
    destruct (r2 r') as [[b r'']|[e r'']| |]; [|done..].
    destruct H2 as (p'' & -> & Hc'). exists p''. rewrite Hc', <-Hc, app_assoc. done.
  - destruct H1 as (s' & -> & Hr). by exists s'.
  - by rewrite H1.
  - by rewrite H1.
Qed.

(** What only touches the ports comes before what simulates. *)
Lemma simulates_moved s p' m m' r :
  m s = m' (set_ports p' s) → config p' = config (ports s) →
  simulates (set_ports p' s) m' r → simulates s m r.
Proof.
  intros E Hc Hs. unfold simulates in *. rewrite E. cbn [rest DEVICES ports set_ports] in Hs.
  destruct (r (rest s)) as [[b r']|[e r']| |]; [|done..].
  destruct Hs as (p'' & -> & Hc'). exists p''. by rewrite Hc', Hc.
Qed.

Lemma read_register s a bdf i :
  bdf_ok bdf → 0 ≤ i < 64 → a = config_address bdf i →
  ∃ p', config p' = config (ports s) ∧ ∀ B (f : Z → M _ unit B),
    (_ ← port_out PCI_CONFIG_ADDRESS a; v ← port_in PCI_CONFIG_DATA; f v) s
    = f (config (ports s) bdf i) (set_ports p' s).
Proof.
  intros Hb Hi Ha. destruct (select_law (ports s) a) as [Hsel Hcfg].
  destruct (in32 PCI_CONFIG_DATA (out32 PCI_CONFIG_ADDRESS a (ports s))) as [v p'] eqn:E.
  destruct (data_law _ _ _ E) as [Hc Hv]. exists p'. split; [by rewrite Hc|]. intros B f.
  unfold port_out, port_in, mbind, M_bind. cbn [ports set_ports]. rewrite E.
  rewrite (Hv bdf i) by (try done; unfold PCI_CONFIG_ADDRESS; by rewrite Hsel). by rewrite <-Hcfg.
Qed.

(** ** Addresses *)
Lemma select_addr_val bus device function :
  bdf_ok (bus, device, function) →
  select_addr (bus, device, function) = 2 ^ 31 + 2 ^ 16 * bus + 2 ^ 11 * device + 2 ^ 8 * function.
Proof.
  intros (Hb & Hd & Hf). cbn [fst snd] in *. unfold select_addr. rewrite !Z.shiftl_mul_pow2 by lia.
  replace (bus * 2 ^ 8) with (bus * 2 ^ 5 * 2 ^ 3) by lia.
  replace (Z.lor (bus * 2 ^ 5 * 2 ^ 3) (device * 2 ^ 3)) with ((bus * 2 ^ 5 + device) * 2 ^ 3).
  2:{ rewrite <-!(Z.shiftl_mul_pow2 _ 3) by lia. rewrite <-Z.shiftl_lor. f_equal. rewrite lor_low; lia. }
  rewrite (lor_low _ 3) by lia.
  replace (1 * 2 ^ 31) with (2 ^ 23 * 2 ^ 8) by lia.
  rewrite <-!(Z.shiftl_mul_pow2 _ 8) by lia. rewrite <-Z.shiftl_lor.
  replace (2 ^ 23) with (2 ^ 7 * 2 ^ 16) by lia. rewrite (lor_low (2 ^ 7) 16) by lia.
  rewrite Z.shiftl_mul_pow2 by lia. lia.
Qed.

Lemma functions_ok bdf : bdf ∈ functions ↔ bdf_ok bdf.
Proof.
  unfold functions, bdf_ok. destruct bdf as [[b d] f]. cbn [fst snd].
  rewrite list_elem_of_bind. split.
  - intros (x & Hx & Hb%elem_of_seqZ). apply list_elem_of_bind in Hx as (y & Hy & Hd%elem_of_seqZ).
    apply list_elem_of_fmap in Hy as (z & [= -> -> ->] & Hf%elem_of_seqZ). lia.
  - intros (? & ? & ?). exists b. split; [|apply elem_of_seqZ; lia].
    apply list_elem_of_bind. exists d. split; [|apply elem_of_seqZ; lia].
    apply list_elem_of_fmap. exists f. split; [done|apply elem_of_seqZ; lia].
Qed.

Lemma select_register bdf i :
  bdf_ok bdf → 0 ≤ i < 16 → Z.lor (select_addr bdf) (i * 4) = config_address bdf i.
Proof.
  destruct bdf as [[b d] f]. intros Hok Hi. rewrite (select_addr_val b d f Hok). unfold config_address. cbn [fst snd].
  replace (2 ^ 31 + 2 ^ 16 * b + 2 ^ 11 * d + 2 ^ 8 * f)
    with ((2 ^ 23 + 2 ^ 8 * b + 2 ^ 3 * d + f) * 2 ^ 8) by lia.
  rewrite lor_low by lia. lia.
Qed.
Lemma seqZ_grid {A} (f : Z → A) (n m : nat) :
  f <$> seqZ 0 (Z.of_nat n * Z.of_nat m) =
  seqZ 0 (Z.of_nat n) ≫= λ b, (λ c, f (Z.of_nat m * b + c)) <$> seqZ 0 (Z.of_nat m).
Proof.
  induction n as [|n IH]; [done|].
  replace (Z.of_nat (S n)) with (Z.of_nat n + 1) by lia. rewrite Z.mul_add_distr_r, Z.mul_1_l.
  rewrite !seqZ_app by lia. rewrite fmap_app, bind_app, IH. f_equal.
  rewrite Z.add_0_l. rewrite (seqZ_cons (Z.of_nat n)) by lia. change (seqZ (Z.succ (Z.of_nat n)) (Z.pred 1)) with (@nil Z). cbn [mbind list_bind].
  rewrite app_nil_r. pose proof (fmap_add_seqZ (Z.of_nat n * Z.of_nat m) 0 (Z.of_nat m)) as E.
  rewrite Z.add_0_r in E. rewrite <-E, <-list_fmap_compose.
  apply list_fmap_ext. intros _ x _. cbn. f_equal. lia.
Qed.
Lemma bind_ext_in {A B} (f g : A → list B) l : (∀ x, x ∈ l → f x = g x) → l ≫= f = l ≫= g.
Proof. induction l as [|x l IH]; intros Hx; [done|]. cbn [mbind list_bind]. rewrite (Hx x) by left. f_equal. apply IH. intros y Hy. apply Hx. by right. Qed.
Lemma functions_ordered : functions = all_functions.
Proof.
  unfold functions, all_functions. symmetry. rewrite (seqZ_grid _ 256 256). apply bind_ext_in. intros b Hb%elem_of_seqZ.
  rewrite (seqZ_grid _ 32 8). apply bind_ext_in. intros d Hd%elem_of_seqZ.
  apply list_fmap_ext. intros i f Hf%lookup_seqZ. cbn [Z.of_nat Pos.of_succ_nat]. f_equal; [f_equal|]; Z.div_mod_to_equations; lia.
Qed.

Lemma read_from_ok n bdf : ∀ idx s, bdf_ok bdf → 0 ≤ idx → idx + Z.of_nat n ≤ 16 →
  ∃ p', config p' = config (ports s) ∧
    read_from (select_addr bdf) idx n s = Ok (config (ports s) bdf <$> seqZ idx (Z.of_nat n), set_ports p' s).
Proof.
  induction n as [|n IH]; intros idx s Hb Hi0 Hn.
  { exists (ports s). split; [done|]. by destruct s. }
  cbn [read_from].
  destruct (read_register s (Z.lor (select_addr bdf) (idx * 4)) bdf idx Hb) as (p1 & Hc1 & ->);
    [lia|by apply select_register; [|lia]|].
  destruct (IH (idx + 1) (set_ports p1 s) Hb) as (p2 & Hc2 & E); [lia..|]. cbn [ports set_ports] in Hc2, E.
  exists p2. split; [congruence|]. rewrite (M_bind_Ok _ _ _ _ _ E). unfold mret, M_ret.
  rewrite Hc1. rewrite (seqZ_cons idx) by lia. cbn [fmap list_fmap].
  replace (Z.pred (Z.of_nat (S n))) with (Z.of_nat n) by lia. done.
Qed.

Lemma try_drivers_ok drivers c : ∀ s, simulates s (try_drivers drivers c) (offer drivers c).
Proof.
  induction drivers as [|probe drivers IH]; intros s; [apply simulates_ret|].
  cbn [try_drivers offer]. unfold simulates, on_rest, mbind, M_bind, mret, M_ret.
  destruct (probe c (rest s)) as [[o r1]|[e r1]| |]; [|by eexists|done..].
  set (s1 := mkSt (ports s) r1 (DEVICES s ++ option_list o)).
  assert (∀ B (k : unit → M _ unit B), match match o with
      | Some device => s0 ← get; put (mkSt (ports s0) (rest s0) (DEVICES s0 ++ [device]))
      | None => mret tt
      end (mkSt (ports s) r1 (DEVICES s)) with
    | Ok (a, s') => k a s' | Err e => Err e | Panic => Panic | Diverge => Diverge end = k tt s1) as Hk.
  { intros B k. subst s1. destruct o; [done|]. unfold mret, M_ret. simpl. by rewrite app_nil_r. }
  specialize (IH s1). unfold simulates in IH. cbn [rest ports DEVICES s1] in IH.
  unfold mbind, M_bind, mret, M_ret in Hk. rewrite (Hk _ (λ _, try_drivers drivers c)).
  destruct (offer drivers c r1) as [[devs r']|[e r']| |]; [|done..].
  destruct IH as (p' & -> & Hc). exists p'. by rewrite app_assoc.
Qed.

(** ** Structures *)
Lemma part_val v k n : 0 ≤ k → 0 ≤ n → part v k n = v / 2 ^ (8 * k) mod 2 ^ (8 * n).
Proof. intros. unfold part. change 256 with (2 ^ 8). by rewrite <-!Z.pow_mul_r by lia. Qed.
Lemma part_byte v k : part v k 1 = v / 256 ^ k mod 256.
Proof. done. Qed.
Lemma le_2 v : le_val [v mod 256; v / 256 mod 256] = v mod 2 ^ 16.
Proof. exact (le_val_bytes 2 v). Qed.
Lemma le_4 v : le_val [v mod 256; v / 256 mod 256; v / 256 / 256 mod 256; v / 256 / 256 / 256 mod 256] = v mod 2 ^ 32.
Proof. exact (le_val_bytes 4 v). Qed.

Ltac decode_registers :=
  unfold Header_of, field, raw_bytes; cbn [fmap list_fmap mbind list_bind app take drop le_bytes];
  rewrite !part_val by lia; cbn [Z.mul Pos.mul Pos.add]; rewrite !Z.div_1_r;
  rewrite ?le_4, ?le_2, ?Z.div_div by lia; cbn [le_val]; rewrite ?Z.mul_0_r, ?Z.add_0_r; unfold part.
Lemma header_decoded (r : Z → Z) bdf :
  Header_of (raw_bytes (r <$> seqZ 0 4)) = header (config_of (λ _, r) bdf).
Proof. change (seqZ 0 4) with [0; 1; 2; 3]. unfold config_of. cbn [header]. decode_registers. f_equal. Qed.
Lemma config_decoded cfg bdf : DeviceConfig_of (raw_bytes (cfg bdf <$> seqZ 0 16)) = config_of cfg bdf.
Proof.
  unfold DeviceConfig_of, config_of.
  change (seqZ 0 16) with [0; 1; 2; 3; 4; 5; 6; 7; 8; 9; 10; 11; 12; 13; 14; 15].
  decode_registers. f_equal.
Qed.

Lemma read_registers_ok n bdf s :
  bdf_ok bdf → (n ≤ 16)%nat →
  ∃ p', config p' = config (ports s) ∧
    read_pci_registers (4 * n) (select_addr bdf) s
    = Ok (raw_bytes (config (ports s) bdf <$> seqZ 0 (Z.of_nat n)), set_ports p' s).
Proof.
  intros Hok Hn. unfold read_pci_registers. rewrite Nat.mul_comm, Nat.div_mul by done.
  destruct (read_from_ok n bdf 0 s Hok) as (p' & Hc & E); [lia..|]. exists p'. split; [done|].
  by rewrite (M_bind_Ok _ _ _ _ _ E).
Qed.

Lemma probe_function_ok drivers bdf s :
  bdf_ok bdf →
  simulates s (probe_function drivers bdf)
    (if present (config (ports s)) bdf then offer drivers (config_of (config (ports s)) bdf) else mret []).
Proof.
  intros Hok. set (cfg := config (ports s)).
  destruct (read_register s (select_addr bdf) bdf 0 Hok) as (p1 & Hc1 & E1);
    [lia|by rewrite <-(select_register bdf 0) by (done || lia); rewrite Z.lor_0_r|].
  eapply simulates_moved; [exact (E1 _ _)|done|]. cbv beta. fold cfg. unfold present. change (umax 32) with (2 ^ 32 - 1).
  destruct (cfg bdf 0 =? 2 ^ 32 - 1); [apply simulates_ret|]. cbn [negb andb].
  destruct (read_registers_ok 4 bdf (set_ports p1 s) Hok ltac:(lia)) as (p2 & Hc2 & E2).
  eapply (simulates_moved _ p2); [exact (M_bind_Ok _ _ _ _ _ E2)|done|].
  cbn [ports set_ports] in *. rewrite Hc1 in E2 |- *. fold cfg.
  change (Z.of_nat 4) with 4. rewrite (header_decoded (cfg bdf) bdf).
  change (header_type (header (config_of (λ _, cfg bdf) bdf))) with (part (cfg bdf 3) 2 1).
  change 0x7F with (2 ^ 7 - 1). rewrite land_mask by lia. change (2 ^ 7) with 128.
  destruct (_ mod 128 =? 0); [|apply simulates_ret]. cbn [negb].
  destruct (read_registers_ok 16 bdf (set_ports p2 (set_ports p1 s)) Hok ltac:(lia)) as (p3 & Hc3 & E3).
  eapply (simulates_moved _ p3); [exact (M_bind_Ok _ _ _ _ _ E3)|done|].
  cbn [ports set_ports] in *. rewrite Hc2, Hc1. change (Z.of_nat 16) with 16. fold cfg. rewrite config_decoded. apply try_drivers_ok.
Qed.

Lemma for_each_ok drivers bdfs : ∀ s, Forall bdf_ok bdfs →
  simulates s (for_each (probe_function drivers) bdfs)
    (offer_all drivers (config_of (config (ports s)) <$>
       filter (λ bdf, Is_true (present (config (ports s)) bdf)) bdfs)).
Proof.
  induction bdfs as [|bdf bdfs IH]; intros s Hok; [apply simulates_ret|].
  apply Forall_cons_iff in Hok as [Hb Hok]. cbn [for_each].
  pose proof (simulates_bind s _ (for_each (probe_function drivers) bdfs) _ _
    (probe_function_ok drivers bdf s Hb) (λ s' Hc, eq_rect _ (λ c, simulates s' _ (offer_all drivers
      (config_of c <$> filter (λ bdf, Is_true (present c bdf)) bdfs))) (IH s' Hok) _ Hc)) as Hs.
  rewrite filter_cons. destruct (present (config (ports s)) bdf) eqn:E.
  - rewrite decide_True by done. exact Hs.
  - rewrite decide_False by (intros []). unfold simulates in Hs |- *.
    unfold mbind at 1, M_bind at 1 in Hs. unfold mret at 1, M_ret at 1 in Hs. unfold mbind at 1, M_bind at 1 in Hs.
    unfold mret, M_ret in Hs.
    destruct (offer_all drivers _ (rest s)) as [[? ?]|[? ?]| |]; exact Hs.
Qed.

Lemma functions_nodup : NoDup functions.
Proof.
  unfold functions. apply NoDup_bind; [| |apply NoDup_seqZ].
  - intros b b' [[x y] z] _ _ Hx Hx'.
    apply list_elem_of_bind in Hx as (d & Hd & _), Hx' as (d' & Hd' & _).
    apply list_elem_of_fmap in Hd as (? & E & _), Hd' as (? & E' & _). congruence.
  - intros b _. apply NoDup_bind; [| |apply NoDup_seqZ].
    + intros d d' [[x y] z] _ _ Hd Hd'.
      apply list_elem_of_fmap in Hd as (? & E & _), Hd' as (? & E' & _). congruence.
    + intros d _. apply NoDup_fmap_2; [by intros ? ? [= ->]|apply NoDup_seqZ].
Qed.

#[local] Opaque functions all_functions.
Lemma devices_listed cfg :
  config_of cfg <$> filter (λ bdf, Is_true (present cfg bdf)) functions = devices_of cfg.
Proof. unfold devices_of. by rewrite functions_ordered. Qed.

(** C24. [init] is the reference enumeration: every function of the machine, in the
    order of bus, device and function, each once, is addressed as configuration mechanism 1
    has it; the drivers' probes see exactly the configuration headers of the devices that
    answer and are no bridges, register by register, and the devices they take are
    listed in that order. *)
Theorem pci_init_correct (drivers : list (DeviceConfig → M R unit (option Dev))) lock_in s :
  (∀ bdf, bdf ∈ functions ↔ bdf_ok bdf) ∧ NoDup functions ∧
  match (devs ← offer_all drivers (devices_of (config (ports s))); _ ← lock_in; mret devs) (rest s) with
  | Ok (devs, r') => ∃ p', init drivers lock_in s = Ok (tt, mkSt p' r' (DEVICES s ++ devs)) ∧
      config p' = config (ports s)
  | Err (e, r') => ∃ s', init drivers lock_in s = Err (e, s') ∧ rest s' = r'
  | Panic => init drivers lock_in s = Panic
  | Diverge => init drivers lock_in s = Diverge
  end.
Proof.
  split; [apply functions_ok|]. split; [apply functions_nodup|].
  - assert (Forall bdf_ok functions) as Hall by (apply Forall_forall; intros b Hb; by apply functions_ok, list_elem_of_In).
    pose proof (for_each_ok drivers functions s Hall) as Hs.
    rewrite devices_listed in Hs. unfold simulates in Hs. unfold init, mbind, M_bind, on_rest, mret, M_ret.
    destruct (offer_all drivers (devices_of (config (ports s))) (rest s)) as [[devs r']|[e r']| |].
    + destruct Hs as (p' & -> & Hc). cbn [rest ports DEVICES].
      destruct (lock_in r') as [[[] r'']|[e r'']| |]; [by exists p'|by eexists|done..].
    + destruct Hs as (s' & -> & Hr). by exists s'.
    + by rewrite Hs.
    + by rewrite Hs.
Qed.

End enumeration.

(** * BARs *)
(** A 32-bit memory BAR shows its base.  Of a 64-bit one the lowest four bits of the
    high half are lost with the type bits, although only the low half has them: a
    region above 4 GiB is found only where those bits are zero. *)
Theorem bar_u64_correct base flags bar1 :
  0 ≤ base < 2 ^ 64 → (16 | base) → 0 ≤ flags < 16 → flags mod 2 = 0 →
  let bar0 := base mod 2 ^ 32 + flags in
  Pci.BarType_from_bar bar0 = Pci.Memory ∧
  (flags / 2 mod 4 ≠ 2 → base < 2 ^ 32 → Pci.BarBits_u64 bar0 bar1 = base) ∧
  (flags / 2 mod 4 = 2 → bar1 = base / 2 ^ 32 →
    Pci.BarBits_u64 bar0 bar1 = base - 2 ^ 32 * (bar1 mod 16)).
Proof.
  intros Hb [q Hq] Hf Hm bar0.
  assert (base mod 2 ^ 32 = 16 * (q mod 2 ^ 28)) as Hlo.
  { rewrite Hq, Z.mul_comm. change (2 ^ 32) with (16 * 2 ^ 28). by rewrite Z.mul_mod_distr_l by lia. }
  assert (0 ≤ q mod 2 ^ 28 < 2 ^ 28) as Hq28 by (apply Z.mod_pos_bound; lia).
  assert (Z.land bar0 (unot 32 15) = base mod 2 ^ 32) as El.
  { change 15 with (2 ^ 4 - 1). rewrite land_unot_mask by (unfold fits, bar0; lia). unfold bar0. rewrite Hlo.
    change (2 ^ 4) with 16. rewrite Z.add_comm, Z.mul_comm, Z.mod_add, (Z.mod_small flags) by lia. lia. }
  assert (Z.land (Z.shiftr bar0 1) 3 = flags / 2 mod 4) as Et.
  { change 3 with (2 ^ 2 - 1). rewrite land_mask, Z.shiftr_div_pow2 by lia. unfold bar0. rewrite Hlo.
    change (2 ^ 2) with 4. change (2 ^ 1) with 2.
    replace (16 * (q mod 2 ^ 28) + flags) with (flags + (8 * (q mod 2 ^ 28)) * 2) by lia.
    rewrite Z.div_add by lia.
    replace (flags / 2 + 8 * (q mod 2 ^ 28)) with (flags / 2 + (2 * (q mod 2 ^ 28)) * 4) by lia.
    by rewrite Z.mod_add by lia. }
  assert (Z.land bar0 1 = 0) as E1.
  { change 1 with (2 ^ 1 - 1). rewrite land_mask by lia. unfold bar0. rewrite Hlo. change (2 ^ 1) with 2.
    replace (16 * (q mod 2 ^ 28) + flags) with (flags + (8 * (q mod 2 ^ 28)) * 2) by lia.
    rewrite Z.mod_add by lia. done. }
  unfold Pci.BarType_from_bar, Pci.BarBits_u64, Pci.BarBits_from_bar. rewrite E1, Et, El.
  split; [done|]. split.
  - intros Hne Hlt. rewrite (proj2 (Z.eqb_neq _ _) Hne). apply Z.mod_small. lia.
  - intros Heq ->. rewrite Heq. cbn [Z.eqb Pos.eqb].
    assert (0 ≤ base / 2 ^ 32 < 2 ^ 32) as Hhi.
    { split; [apply Z.div_pos; lia|]. apply Z.div_lt_upper_bound; lia. }
    change 15 with (2 ^ 4 - 1). rewrite land_unot_mask by (unfold fits; lia). change (2 ^ 4) with 16.
    set (hi := base / 2 ^ 32) in *. pose proof (Z.mod_pos_bound hi 16 ltac:(lia)).
    pose proof (Z.mod_le hi 16 ltac:(lia) ltac:(lia)).
    unfold cast. rewrite Z.shiftl_mul_pow2, Z.mod_small by lia.
    rewrite (lor_low _ 32) by (try apply Z.mod_pos_bound; lia).
    pose proof (Z.div_mod base (2 ^ 32) ltac:(lia)). fold hi in H1. lia.
Qed.
Lemma bar_u64_correct_witness :
  Pci.BarBits_u64 0xFEB00000 0 = 0xFEB00000 ∧ Pci.BarBits_u64 0x00000004 0x10 = 0x1000000000 ∧
  Pci.BarBits_u64 0x80000004 0x8 = 0x80000000.
Proof.
  split; [|split].
  - destruct (bar_u64_correct 0xFEB00000 0 0) as (_ & H & _); [lia|by exists 0xFEB0000|lia|done|].
    exact (H ltac:(done) ltac:(lia)).
  - destruct (bar_u64_correct 0x1000000000 4 0x10) as (_ & _ & H); [lia|by exists 0x100000000|lia|done|].
    exact (H eq_refl eq_refl).
  - destruct (bar_u64_correct 0x880000000 4 0x8) as (_ & _ & H); [lia|by exists 0x88000000|lia|done|].
    exact (H eq_refl eq_refl).
Defined.

(** * A machine with one device *)
Module Sample.
Import Pci.
(** An e1000 at 00:03.0, its registers; everything else is absent. *)
Definition nic_registers : list Z :=
  [0x100E8086; 0; 0x02000000; 0; 0xFEB00000; 0; 0; 0; 0; 0; 0; 0x11001AF4; 0; 0; 0; 0x10B].
Definition space (a : Z) : Z :=
  if (0x80001800 <=? a) && (a <? 0x80001840)
  then default 0 (nic_registers !! Z.to_nat ((a - 0x80001800) / 4)) else umax 32.
Definition registers (bdf : Z * Z * Z) (i : Z) : Z := space (config_address bdf i).
(** The value of the address port. *)
#[global] Instance ports : Ports Z := {
  out32 port v p := if port =? PCI_CONFIG_ADDRESS then v else p;
  in32 port p := (if port =? PCI_CONFIG_DATA then space p else 0, p) }.
#[global] Program Instance pci_ports : PciPorts Z := { config _ := registers; selected p := p }.
Next Obligation. done. Qed.
Next Obligation. intros p v p' [= <- <-]. split; [done|]. by intros bdf i _ _ ->. Qed.

Definition take_all (c : DeviceConfig) : M unit unit (option (Z * Z * Z)) :=
  mret (Some (vendor_id (header c), device_id (header c), bar0 c)).
End Sample.

Lemma filter_single {A} `{EqDecision A} (f : A → bool) (l : list A) a :
  NoDup l → a ∈ l → (∀ x, x ∈ l → f x = true ↔ x = a) → filter (λ x, Is_true (f x)) l = [a].
Proof.
  intros Hnd Ha Hf. apply Permutation_singleton_r.
  apply NoDup_Permutation; [by apply list.NoDup_filter|apply NoDup_singleton|].
  intros x. rewrite list_elem_of_filter, list_elem_of_singleton. split.
  - intros [Hx Hl]. apply Hf; [done|]. by apply Is_true_true.
  - intros ->. split; [|done]. apply Is_true_true. by apply Hf.
Qed.

Lemma pci_init_correct_witness :
  ∃ p', Enum.init [Sample.take_all] (mret tt) (Enum.mkSt 0 tt []) =
    Ok (tt, Enum.mkSt p' tt [(0x8086, 0x100E, 0xFEB00000)]).
Proof.
  assert (Reference.devices_of Sample.registers = [Reference.config_of Sample.registers (0, 3, 0)]) as Hd.
  { unfold Reference.devices_of. rewrite <-functions_ordered.
    rewrite (filter_single _ _ (0, 3, 0)); [done|apply functions_nodup|by apply functions_ok; repeat split|].
    intros x Hx%functions_ok. split; [|by intros ->].
    unfold Reference.present. rewrite andb_true_iff. intros [Hs _]. destruct x as [[b d] f].
    apply negb_true_iff, Z.eqb_neq in Hs. unfold Sample.registers, Sample.space, config_address in Hs. cbn [fst snd] in Hs.
    destruct Hx as (? & ? & ?). cbn [fst snd] in *.
    destruct (Z.leb_spec 0x80001800 (2 ^ 31 + 2 ^ 16 * b + 2 ^ 11 * d + 2 ^ 8 * f + 4 * 0));
      destruct (Z.ltb_spec (2 ^ 31 + 2 ^ 16 * b + 2 ^ 11 * d + 2 ^ 8 * f + 4 * 0) 0x80001840); cbn [andb] in Hs; try done.
    repeat f_equal; lia. }
  destruct (pci_init_correct [Sample.take_all] (mret tt) (Enum.mkSt 0 tt [])) as (_ & _ & Hi).
  change (config (Enum.ports _)) with Sample.registers in Hi. rewrite Hd in Hi.
  destruct Hi as (p' & E & _). exists p'. exact E.
Defined.
