(* ===== verification/Intel.v ===== *)
(** The Intel e1000 driver: kernel/src/net/drivers/intel.rs.

    The NIC is a parameter ([Hardware]): its registers, and what it does on its own
    to the memory it shares with the driver, the descriptor rings and the packet
    buffers lent to it.  It acts between any two accesses of the driver ([poll]).
    The kernel's memory is the other parameter ([KernelMem]). *)
From Stdlib Require Import ZArith Lia.
From stdpp Require Import prelude list numbers gmap.
From S2P Require Import Prelude Cursor Packet PageTable Pci.

Module Intel.

Definition MMIO_SIZE : Z := 128 * 1024.
Definition RX_DESCS_N : Z := 256.
Definition TX_DESCS_N : Z := 256.

Record NicRegisters := mkNicRegisters {
  ctrl : Z; imc : Z; rctl : Z; ral : Z; rah : Z; rdbal : Z; rdbah : Z; rdlen : Z; rdh : Z; rdt : Z;
  tctl : Z; tdbal : Z; tdbah : Z; tdlen : Z; tdh : Z; tdt : Z }.
Definition NicRegisters_default : NicRegisters := {|
  ctrl := 0x0000; imc := 0x00D8; rctl := 0x0100; ral := 0x5400; rah := 0x5404;
  rdbal := 0x2800; rdbah := 0x2804; rdlen := 0x2808; rdh := 0x2810; rdt := 0x2818;
  tctl := 0x0400; tdbal := 0x3800; tdbah := 0x3804; tdlen := 0x3808; tdh := 0x3810; tdt := 0x3818 |}.

Record RxDescriptor := mkRx {
  rx_addr : Z; rx_len : Z; rx_checksum : Z; rx_status : Z; rx_errors : Z; rx_special : Z }.
(** [RxDescriptor { addr, ..Default::default() }] *)
Definition rx_default (addr : Z) : RxDescriptor := mkRx addr 0 0 0 0 0.

Record LegacyTxDescriptor := mkTx {
  tx_addr : Z; tx_len : Z; tx_cso : Z; tx_cmd : Z; tx_status : Z; tx_css : Z; tx_special : Z }.
Definition tx_default : LegacyTxDescriptor := mkTx 0 0 0 0 0 0 0.

(** [descs] with the physical address of the table; a packet in a ring is lent to
    the NIC. *)
Record RxState := mkRxState {
  rx_base : Z; rx_descs : list RxDescriptor; rx_packets : list Packet; rx_head : Z }.
Record TxState := mkTxState {
  tx_base : Z; tx_descs : list LegacyTxDescriptor; tx_packets : list (option Packet);
  tx_head : Z; tx_tail : Z }.

(** The free list is a stack, its top first, with the room of its [Vec]. *)
Record IntelNic := mkIntelNic {
  regs : NicRegisters; mmio : Z; mac : Mac; rx_state : RxState; tx_state : TxState;
  packets : list Packet; packets_cap : nat }.

(** What the NIC reaches by DMA. *)
Record Dma := mkDma {
  rxd : list RxDescriptor; txd : list LegacyTxDescriptor; ram : gmap Z (list Z) }.

End Intel.

(** Registers are numbered by words of the MMIO space. *)
Class Hardware (H : Type) := {
  mmio_read : Z → H → Z * H;
  mmio_write : Z → Z → H → H;
  dma : H → Intel.Dma → H * Intel.Dma;
  tsc : H → Z * H;
  hw_mhz : H → Z;
}.

(** [page_new]: [ContigPageAligned::new] of a page of zeros, its physical address;
    [page_drop]: dropping it. *)
Class KernelMem (K : Type) := {
  page_new : M K unit Z;
  page_drop : Z → M K unit unit;
}.
(** [vaddr_4k]: [mm::receive_vaddr_4k]; [kernel_table]: the kernel's page table. *)
Class KernelSpace (K : Type) := {
  vaddr_4k : Z → M K unit Z;
  kernel_table : K → option Z;
}.

Module IntelOps.
Import Intel.
Section ops.
Context {H K : Type} `{Hardware H} `{KernelMem K} `{KernelSpace K} `{PhysMem K}.

(** The machine around the driver; [lent] holds the bytes of the lent buffers. *)
Record Env := mkEnv { hw : H; mem : K; lent : gmap Z (list Z) }.
Record St := mkSt { env : Env; nic : IntelNic }.

Definition set_hw (h : H) (e : Env) : Env := mkEnv h (mem e) (lent e).
Definition set_lent (r : gmap Z (list Z)) (e : Env) : Env := mkEnv (hw e) (mem e) r.

(** ** Calls to the machine *)
Definition on_mem {A} (m : M K unit A) : M Env unit A := λ e,
  match m (mem e) with
  | Ok (a, k) => Ok (a, mkEnv (hw e) k (lent e))
  | Err (x, k) => Err (x, mkEnv (hw e) k (lent e))
  | Panic => Panic
  | Diverge => Diverge
  end.
Definition on_env {A} (m : M Env unit A) : M St unit A := λ s,
  match m (env s) with
  | Ok (a, e) => Ok (a, mkSt e (nic s))
  | Err (x, e) => Err (x, mkSt e (nic s))
  | Panic => Panic
  | Diverge => Diverge
  end.
Definition read (reg_offset : Z) : M Env unit Z := λ e,
  let '(v, h) := mmio_read (reg_offset / 4) (hw e) in Ok (v, set_hw h e).
Definition write (reg_offset val : Z) : M Env unit unit := λ e,
  Ok (tt, set_hw (mmio_write (reg_offset / 4) val (hw e)) e).
Definition rdtsc : M Env unit Z := λ e,
  let '(t, h) := tsc (hw e) in Ok (t, set_hw h e).

(** The NIC acts. *)
Definition poll : M St unit unit := λ s,
  let rx := rx_state (nic s) in
  let tx := tx_state (nic s) in
  let '(h, d) := dma (hw (env s)) (mkDma (rx_descs rx) (tx_descs tx) (lent (env s))) in
  Ok (tt, mkSt (mkEnv h (mem (env s)) (ram d))
    (mkIntelNic (regs (nic s)) (mmio (nic s)) (mac (nic s))
       (mkRxState (rx_base rx) (rxd d) (rx_packets rx) (rx_head rx))
       (mkTxState (tx_base tx) (txd d) (tx_packets tx) (tx_head tx) (tx_tail tx))
       (packets (nic s)) (packets_cap (nic s)))).

Definition set_rx (rx : RxState) : M St unit unit := λ s,
  let n := nic s in
  Ok (tt, mkSt (env s) (mkIntelNic (regs n) (mmio n) (mac n) rx (tx_state n) (packets n) (packets_cap n))).
Definition set_tx (tx : TxState) : M St unit unit := λ s,
  let n := nic s in
  Ok (tt, mkSt (env s) (mkIntelNic (regs n) (mmio n) (mac n) (rx_state n) tx (packets n) (packets_cap n))).
Definition set_packets (ps : list Packet) : M St unit unit := λ s,
  let n := nic s in
  Ok (tt, mkSt (env s) (mkIntelNic (regs n) (mmio n) (mac n) (rx_state n) (tx_state n) ps (packets_cap n))).

(** A packet's bytes pass to the memory shared with the NIC, and back. *)
Definition lend (p : Packet) : M Env unit unit := λ e,
  Ok (tt, set_lent (<[paddr p := buffer p]> (lent e)) e).
Definition reclaim (p : Packet) : M Env unit Packet := λ e,
  Ok (mkPacket (default (buffer p) (lent e !! paddr p)) (len p) (paddr p),
      set_lent (delete (paddr p) (lent e)) e).

(** ** Registers *)
Definition read_high_low (reg_high reg_low : Z) : M Env unit Z :=
  hi ← read reg_high; lo ← read reg_low; mret (Z.lor (cast 64 (Z.shiftl hi 32)) lo).
Definition write_high_low (reg_high reg_low val : Z) : M Env unit unit :=
  _ ← write reg_high (cast 32 (Z.shiftr val 32)); write reg_low (cast 32 val).

Definition init_receive (n : IntelNic) : M Env unit unit :=
  let r := regs n in
  _ ← write_high_low (rdbah r) (rdbal r) (rx_base (rx_state n));
  _ ← write (rdlen r) (cast 32 (16 * zlen (rx_descs (rx_state n))));
  _ ← write (rdh r) 0;
  last ← lift (sub (cast 32 (zlen (rx_descs (rx_state n)))) 1);
  _ ← write (rdt r) last;
  let bits := Z.lor (Z.lor (Z.lor (Z.shiftl 1 1) (Z.shiftl 1 15)) (Z.shiftl 3 16)) (Z.shiftl 1 25) in
  write (rctl r) bits.

Definition init_transmit (n : IntelNic) : M Env unit unit :=
  let r := regs n in
  _ ← write_high_low (tdbah r) (tdbal r) (tx_base (tx_state n));
  _ ← write (tdlen r) (cast 32 (16 * zlen (tx_descs (tx_state n))));
  _ ← write (tdh r) 0;
  _ ← write (tdt r) 0;
  write (tctl r) (Z.shiftl 1 1).

Definition read_mac (n : IntelNic) : M Env unit Mac :=
  lo ← read (ral (regs n));
  hi ← read (rah (regs n));
  _ ← lift (assert (negb (Z.land hi (Z.shiftl 1 31) =? 0)));
  mret [Z.land lo 0xFF; Z.land (Z.shiftr lo 8) 0xFF; Z.land (Z.shiftr lo 16) 0xFF;
        Z.land (Z.shiftr lo 24) 0xFF; Z.land hi 0xFF; Z.land (Z.shiftr hi 8) 0xFF].

Definition disable_interrupts (n : IntelNic) : M Env unit unit := write (imc (regs n)) (unot 32 0).

(** time.rs: [future] and [sleep] *)
Definition future (us : Z) : M Env unit Z :=
  now ← rdtsc; e ← get; d ← lift (mul 64 us (hw_mhz (hw e))); lift (add 64 now d).
Fixpoint sleep_until (fuel : nat) (wait : Z) : M Env unit unit :=
  match fuel with
  | O => diverge
  | S fuel => t ← rdtsc; if t <? wait then sleep_until fuel wait else mret tt
  end.
Definition sleep (fuel : nat) (us : Z) : M Env unit unit := wait ← future us; sleep_until fuel wait.

(** The reset bit clears. *)
Fixpoint await_reset (fuel : nat) (reg : Z) : M Env unit unit :=
  match fuel with
  | O => diverge
  | S fuel =>
      v ← read reg;
      if negb (Z.land v (Z.shiftl 1 26) =? 0) then await_reset fuel reg else mret tt
  end.
Definition reset (fuel : nat) (n : IntelNic) : M Env unit unit :=
  _ ← disable_interrupts n;
  _ ← write (ctrl (regs n)) (Z.shiftl 1 26);
  _ ← await_reset fuel (ctrl (regs n));
  _ ← sleep fuel 20000;
  disable_interrupts n.
Definition purge (fuel : nat) : M St unit unit := s ← get; on_env (reset fuel (nic s)).

(** ** Construction *)
Fixpoint map_pages (table vaddr base : Z) (n : nat) (paddr : Z) : M K unit unit :=
  match n with
  | O => mret tt
  | S n =>
      offset ← lift (sub paddr base);
      v ← lift (add 64 vaddr offset);
      _ ← unwrap_M (PageTable.map_raw table v Page4K
            (Z.lor (Z.lor (Z.lor (Z.lor paddr PAGE_NXE) PAGE_WRITE) PAGE_CACHE_DISABLE) PAGE_PRESENT));
      map_pages table vaddr base n (paddr + 4096)
  end.
Definition map_mmio (phys_addr : Z) : M K unit Z :=
  vaddr ← vaddr_4k MMIO_SIZE;
  k ← get;
  table ← lift (unwrap (kernel_table k));
  end_addr ← lift (unwrap (checked_add 64 phys_addr MMIO_SIZE));
  _ ← map_pages table vaddr phys_addr (Z.to_nat ((end_addr - phys_addr + 4095) / 4096)) phys_addr;
  mret vaddr.

Definition packet_new : M Env unit Packet := a ← on_mem page_new; mret (Packet.new a).

(** The receive buffers, lent at once, with their descriptors. *)
Fixpoint fill_rx (n : nat) : M Env unit (list RxDescriptor * list Packet) :=
  match n with
  | O => mret ([], [])
  | S n =>
      rx_buf ← packet_new;
      _ ← lend rx_buf;
      '(ds, ps) ← fill_rx n;
      mret (rx_default (Packet.phys_addr rx_buf) :: ds, rx_buf :: ps)
  end.

Definition new (fuel : nat) (device : Pci.DeviceConfig) : M Env unit IntelNic :=
  _ ← lift (assert (bool_decide (Pci.BarType_from_bar (Pci.bar0 device) = Pci.Memory)));
  let phys_addr := Pci.BarBits_u64 (Pci.bar0 device) (Pci.bar1 device) in
  _ ← lift (assert (Z.land phys_addr (unot 64 (4096 - 1)) =? phys_addr));
  mmio ← on_mem (map_mmio phys_addr);
  rx_descs_addr ← on_mem page_new;
  '(rx_descs, rx_bufs) ← fill_rx (Z.to_nat RX_DESCS_N);
  tx_descs_addr ← on_mem page_new;
  let n := mkIntelNic NicRegisters_default mmio (replicate 6 0)
    (mkRxState rx_descs_addr rx_descs rx_bufs 0)
    (mkTxState tx_descs_addr (replicate (Z.to_nat TX_DESCS_N) tx_default)
       (replicate (Z.to_nat TX_DESCS_N) None) 0 0)
    [] (Z.to_nat (TX_DESCS_N + RX_DESCS_N)) in
  _ ← reset fuel n;
  _ ← init_receive n;
  _ ← init_transmit n;
  m ← read_mac n;
  mret (mkIntelNic (regs n) (Intel.mmio n) m (rx_state n) (tx_state n) (packets n) (packets_cap n)).

(** A driver for the device this one can handle; the caller of the source also
    registers it (Dhcp.v). *)
Definition probe (fuel : nat) (cfg : Pci.DeviceConfig) : M Env unit (option IntelNic) :=
  if (0x8086 =? Pci.vendor_id (Pci.header cfg)) && (0x100E =? Pci.device_id (Pci.header cfg))
  then n ← new fuel cfg; mret (Some n) else mret None.

(** ** The free list *)
Definition allocate_packet : M St unit Packet :=
  s ← get;
  match packets (nic s) with
  | p :: ps => _ ← set_packets ps; mret p
  | [] => on_env packet_new
  end.
Definition release_packet (packet : Packet) : M St unit unit :=
  s ← get;
  if (length (packets (nic s)) <? packets_cap (nic s))%nat
  then set_packets (Packet.clear packet :: packets (nic s))
  else on_env (on_mem (page_drop (paddr packet))).

(** ** Receive *)
Definition rx_desc (i : Z) : M St unit RxDescriptor :=
  s ← get; lift (index (rx_descs (rx_state (nic s))) (Z.to_nat i)).

Definition recv : M St unit (option Packet) :=
  s ← get;
  let head := rx_head (rx_state (nic s)) in
  _ ← poll;
  desc ← rx_desc head;
  if Z.land (rx_status desc) 1 =? 0 then mret None
  else
    _ ← poll;
    desc ← rx_desc head;
    _ ← lift (assert (rx_errors desc =? 0));
    _ ← poll;
    desc ← rx_desc head;
    let len := rx_len desc in
    new_packet ← allocate_packet;
    let phys_addr := Packet.phys_addr new_packet in
    s ← get;
    let rx := rx_state (nic s) in
    old ← lift (index (rx_packets rx) (Z.to_nat head));
    ps ← lift (store (rx_packets rx) (Z.to_nat head) new_packet);
    old ← on_env (reclaim old);
    _ ← on_env (lend new_packet);
    ds ← lift (store (rx_descs rx) (Z.to_nat head) (rx_default phys_addr));
    _ ← on_env (write (rdt (regs (nic s))) (cast 32 head));
    _ ← set_rx (mkRxState (rx_base rx) ds ps ((head + 1) mod zlen ds));
    mret (Some (Packet.set_len len old)).

(** ** Transmit *)
Definition PACKET_MIN_SIZE : Z := 64.

(** The padding: bytes behind the packet, which the split counts to its length. *)
Definition pad (packet : Packet) : res unit Packet :=
  if len packet <? PACKET_MIN_SIZE then
    needed ← sub PACKET_MIN_SIZE (len packet);
    cursor ← PacketCursor.new packet;
    '(buf, (p, _)) ← unwrap_res ((_ ← PacketCursor.split_at_current; PacketCursor.split_at needed) (packet, cursor));
    Ok (mkPacket (splice (buffer p) (off buf) (replicate (slen buf) 0)) (len p) (paddr p))
  else Ok packet.

(** The loop over the queue from its end: [head + n] downwards. *)
Fixpoint scan (n : nat) (head : Z) : M St unit unit :=
  match n with
  | O => mret tt
  | S n =>
      let end_ := head + Z.of_nat n in
      _ ← poll;
      s ← get;
      let tx := tx_state (nic s) in
      desc ← lift (index (tx_descs tx) (Z.to_nat (end_ mod zlen (tx_descs tx))));
      if negb (Z.land (tx_status desc) 1 =? 0)
      then set_tx (mkTxState (tx_base tx) (tx_descs tx) (tx_packets tx) (end_ + 1) (tx_tail tx))
      else scan n head
  end.
Fixpoint await_room (fuel : nat) : M St unit unit :=
  match fuel with
  | O => diverge
  | S fuel =>
      s ← get;
      let tx := tx_state (nic s) in
      used ← lift (sub (tx_tail tx) (tx_head tx));
      room ← lift (sub (zlen (tx_descs tx)) 1);
      if room <=? used
      then _ ← scan (Z.to_nat (tx_tail tx - tx_head tx)) (tx_head tx); await_room fuel
      else mret tt
  end.

Definition send (fuel : nat) (packet : Packet) (flush : bool) : M St unit unit :=
  packet ← lift (pad packet);
  _ ← await_room fuel;
  s ← get;
  let tx := tx_state (nic s) in
  let n := zlen (tx_descs tx) in
  let idx := Z.to_nat (tx_tail tx mod n) in
  let cmd := Z.lor (Z.lor (Z.shiftl 1 3) (Z.shiftl 1 1)) (Z.shiftl 1 0) in
  ds ← lift (store (tx_descs tx) idx
    (mkTx (Packet.phys_addr packet) (cast 16 (len packet)) 0 cmd 0 0 0));
  old_packet ← lift (index (tx_packets tx) idx);
  ps ← lift (store (tx_packets tx) idx (Some packet));
  _ ← on_env (lend packet);
  _ ← set_tx (mkTxState (tx_base tx) ds ps (tx_head tx) (tx_tail tx));
  _ ← match old_packet with
      | Some old => old ← on_env (reclaim old); release_packet old
      | None => mret tt
      end;
  let tail := wrapping_add 64 (tx_tail tx) 1 in
  _ ← set_tx (mkTxState (tx_base tx) ds ps (tx_head tx) tail);
  full ← (if flush then mret true
          else used ← lift (sub tail (tx_head tx)); room ← lift (sub n 1); mret (used =? room));
  if (full : bool) then on_env (write (tdt (regs (nic s))) (cast 32 (tail mod n))) else mret tt.

End ops.
End IntelOps.
