(* ===== verification/IoApic.v ===== *)
(** The I/O APICs: kernel/src/apic/ioapic.rs.

    An I/O APIC is reached through a page of MMIO that the driver maps itself: a
    volatile access goes to the physical address that the kernel's page table gives
    for its pointer.  The chips on the bus are a parameter ([IoBus]). *)
From Stdlib Require Import ZArith Lia.
From stdpp Require Import prelude list numbers gmap sorting.
From S2P Require Import Prelude Packet Ranges Sync PageTable PageMem PageAlloc PageMap PageSpace PageRam Pci Intel.

(** 32-bit accesses at a physical address *)
Class IoBus (W : Type) := {
  bus_read : Z → W → Z;
  bus_write : Z → Z → W → W;
}.

Module IoApic.

Inductive Register := Id | Ver | Arb.
Definition code (r : Register) : Z := match r with Id => 0x00 | Ver => 0x01 | Arb => 0x02 end.

Record Uninitialized := mkUninitialized { u_id : Z; u_addr : Z; u_gsi_base : Z }.
(** [mmio]: the virtual address of 1024 words *)
Record IoApic := mkIoApic { id : Z; mmio : Z; gsi : Range }.

Definition REG_SEL : Z := 0x00.
Definition REG_WIN : Z := 0x10.

Section ops.
Context {W K : Type} `{IoBus W} `{KernelSpace K} `{PhysMem K}.

(** The machine, and the statics of the driver *)
Record Env := mkEnv {
  hw : W; mem : K;
  IOAPICS : OnceLock.OnceLock (A := list IoApic);
  GSI_TO_IOAPIC : OnceLock.OnceLock (A := list nat) }.

Definition set_hw (w : W) (e : Env) : Env := mkEnv w (mem e) (IOAPICS e) (GSI_TO_IOAPIC e).
Definition set_mem (k : K) (e : Env) : Env := mkEnv (hw e) k (IOAPICS e) (GSI_TO_IOAPIC e).
Definition on_mem {A} (m : M K unit A) : M Env unit A := λ e,
  match m (mem e) with
  | Ok (a, k) => Ok (a, set_mem k e)
  | Err (x, k) => Err (x, set_mem k e)
  | Panic => Panic
  | Diverge => Diverge
  end.

(** The physical address behind a pointer; without one the access faults. *)
Definition reach (k : K) (ptr : Z) : option Z :=
  root ← kernel_table k;
  '(base, offset, _) ← page_at k root ptr;
  Some (base + offset).
Definition read_volatile (ptr : Z) : M Env unit Z := λ e,
  match reach (mem e) ptr with Some p => Ok (bus_read p (hw e), e) | None => Panic end.
Definition write_volatile (ptr val : Z) : M Env unit unit := λ e,
  match reach (mem e) ptr with Some p => Ok (tt, set_hw (bus_write p val (hw e)) e) | None => Panic end.

(** ** Registers, through the selector and the window *)
Definition sel (self : IoApic) : Z := mmio self + REG_SEL.
Definition win (self : IoApic) : Z := mmio self + REG_WIN.

Definition read_raw (self : IoApic) (offset : Z) : M Env unit Z :=
  _ ← write_volatile (sel self) offset;
  read_volatile (win self).
Definition write_raw (self : IoApic) (offset val : Z) : M Env unit unit :=
  _ ← write_volatile (sel self) offset;
  write_volatile (win self) val.
Definition read (self : IoApic) (register : Register) : M Env unit Z := read_raw self (code register).
Definition write (self : IoApic) (register : Register) (val : Z) : M Env unit unit :=
  write_raw self (code register) val.

(** [0x10 + half + 2 * entry] in [u8] *)
Definition redir_offset (half entry : Z) : res unit Z :=
  twice ← mul 8 2 entry; add 8 (0x10 + half) twice.

Definition read_redir (self : IoApic) (entry : Z) : M Env unit Z :=
  o ← lift (redir_offset 0 entry);
  lower ← read_raw self o;
  o ← lift (redir_offset 1 entry);
  upper ← read_raw self o;
  lift (add 64 (Z.shiftl upper 32) lower).
Definition write_redir (self : IoApic) (entry val : Z) : M Env unit unit :=
  o ← lift (redir_offset 0 entry);
  _ ← write_raw self o (cast 32 (Z.land val 0xFFFF));
  o ← lift (redir_offset 1 entry);
  write_raw self o (cast 32 (Z.shiftr val 32)).

(** ** Initialization *)
Definition map_mmio (addr : Z) : M K unit Z :=
  vaddr ← vaddr_4k (PageType.size Page4K);
  k ← get;
  table ← lift (unwrap (kernel_table k));
  _ ← unwrap_M (PageTable.map_raw table vaddr Page4K
        (Z.lor (Z.lor (Z.lor (Z.lor addr PAGE_NXE) PAGE_WRITE) PAGE_CACHE_DISABLE) PAGE_PRESENT));
  mret vaddr.

Definition new_init (i addr gsi_base : Z) : M Env unit IoApic :=
  mapping ← on_mem (map_mmio addr);
  placeholder ← lift (unwrap_res (Range.new 0 0));
  let ioapic := mkIoApic i mapping placeholder in
  v ← read ioapic Ver;
  let gsi_n := Z.land (Z.shiftr v 16) 0xFF in
  gsi_max ← lift (unwrap (checked_add 32 gsi_base gsi_n));
  gsi ← lift (unwrap_res (Range.new gsi_base gsi_max));
  mret (mkIoApic i mapping gsi).
(** [Uninitialized::init] *)
Definition uninit_init (self : Uninitialized) : M Env unit IoApic :=
  new_init (u_id self) (u_addr self) (u_gsi_base self).

(** The chips in the order of the list, and the greatest end of their ranges *)
Fixpoint init_all (io_apics : list Uninitialized) (max_gsi : Z) (ioapics : list IoApic) : M Env unit (Z * list IoApic) :=
  match io_apics with
  | [] => mret (max_gsi, ioapics)
  | uninit :: io_apics =>
      ioapic ← uninit_init uninit;
      init_all io_apics (Z.max max_gsi (end_ (gsi ioapic))) (ioapics ++ [ioapic])
  end.

(** [sort_unstable_by_key]: the order of equal keys is not specified. *)
Definition by_start (a b : IoApic) : Prop := start (gsi a) ≤ start (gsi b).
#[global] Instance by_start_dec : RelDecision by_start.
Proof. intros a b. unfold by_start. apply _. Defined.
Definition sort_by_start (ioapics : list IoApic) : list IoApic := merge_sort by_start ioapics.

(** The pairs of [windows(2)] *)
Fixpoint check_overlaps (ioapics : list IoApic) : res unit unit :=
  match ioapics with
  | a :: (b :: _) as rest =>
      match Range.overlaps (gsi a) (gsi b) with Some _ => Panic | None => check_overlaps rest end
  | _ => Ok tt
  end.

(** [for gsi in start..end] *)
Fixpoint fill_gsis (idx n : nat) (g : Z) (map : list (option nat)) : res unit (list (option nat)) :=
  match n with
  | O => Ok map
  | S n => map ← store map (Z.to_nat g) (Some idx); fill_gsis idx n (g + 1) map
  end.
Fixpoint fill_map (idx : nat) (ioapics : list IoApic) (map : list (option nat)) : res unit (list (option nat)) :=
  match ioapics with
  | [] => Ok map
  | ioapic :: ioapics =>
      map ← fill_gsis idx (Z.to_nat (end_ (gsi ioapic) - start (gsi ioapic))) (start (gsi ioapic)) map;
      fill_map (S idx) ioapics map
  end.
Definition unhandled_gsi (map : list (option nat)) : option nat := fst <$> list_find (λ v, v = None) map.
Fixpoint unwrap_all {A} (l : list (option A)) : res unit (list A) :=
  match l with [] => Ok [] | o :: l => a ← unwrap o; l ← unwrap_all l; Ok (a :: l) end.

Definition gsi_map (max_gsi : Z) (ioapics : list IoApic) : res unit (list nat) :=
  _ ← check_overlaps ioapics;
  map ← fill_map 0 ioapics (replicate (Z.to_nat max_gsi) None);
  match unhandled_gsi map with Some _ => Panic | None => unwrap_all map end.

(** [overrides] and the vectors of the IDT mapping are not used. *)
Definition init (io_apics : list Uninitialized) : M Env unit unit :=
  '(max_gsi, ioapics) ← init_all io_apics 0 [];
  let ioapics := sort_by_start ioapics in
  gsi_to_ioapic ← lift (gsi_map max_gsi ioapics);
  e ← get;
  m ← lift (OnceLock.set (GSI_TO_IOAPIC e) gsi_to_ioapic);
  i ← lift (OnceLock.set (IOAPICS e) ioapics);
  put (mkEnv (hw e) (mem e) i m).

End ops.
End IoApic.

(** * The chips *)

(** The bits of a redirection register that software can set: in the low half not the
    delivery status, the remote IRR and the reserved bits, in the high half the destination. *)
Definition settable (half n : Z) : bool :=
  if half =? 0 then (0 <=? n) && (n <=? 16) && negb (n =? 12) && negb (n =? 14) else (24 <=? n) && (n <=? 31).

(** [chip base]: an I/O APIC answers in the page at [base]; [selected] and [reg] are its
    selector and its registers.  The window reads and writes the selected register. *)
Class IoApicLaws (W : Type) `{IoBus W} := {
  chip : Z → Prop;
  selected : Z → W → Z;
  reg : Z → Z → W → Z;
  chip_page b : chip b → (4096 | b) ∧ 0 ≤ b ∧ b + 4096 ≤ 2 ^ 52;
  reg_fits b i w : fits 32 (reg b i w);
  select_self b v w : chip b → fits 8 v → selected b (bus_write (b + IoApic.REG_SEL) v w) = v;
  select_regs b v w b' i : chip b → chip b' → reg b' i (bus_write (b + IoApic.REG_SEL) v w) = reg b' i w;
  window_read b w : chip b → bus_read (b + IoApic.REG_WIN) w = reg b (selected b w) w;
  window_write b v w half entry n : chip b → fits 32 v → half = 0 ∨ half = 1 →
    0 ≤ entry ≤ Z.land (Z.shiftr (reg b 1 w) 16) 0xFF → selected b w = 0x10 + half + 2 * entry →
    settable half n = true → Z.testbit (reg b (selected b w) (bus_write (b + IoApic.REG_WIN) v w)) n = Z.testbit v n;
  window_other b v w b' i : chip b → chip b' → b' ≠ b ∨ i ≠ selected b w →
    reg b' i (bus_write (b + IoApic.REG_WIN) v w) = reg b' i w;
}.

(** Virtual addresses: [space k root n], the kernel's table is [root] and [n] more pages of
    virtual addresses can be handed out.  Those are new, and handing them out leaves the
    memory alone; mapping what was handed out leaves the rest. *)
Class KernelVirt (K : Type) `{KernelSpace K} `{PhysMemLaws K} := {
  space : K → Z → nat → Prop;
  space_table k root n : space k root n → kernel_table k = Some root;
  space_take k root n : space k root (S n) → ∃ v k', vaddr_4k 4096 k = Ok (v, k') ∧
    (4096 | v) ∧ canonical_range v 4096 ∧ kernel_table k' = Some root ∧ address_space k' root ∧
    (∀ a, v ≤ a < v + 4096 → page_at k root a = None) ∧ (∀ a, canonical a → page_at k' root a = page_at k root a) ∧
    (∀ m, short 4096 m k' → short 4096 m k) ∧
    ∀ raw k2, u64 raw → PageTable.map_raw root v Page4K raw k' = Ok (tt, k2) → space k2 root n;
}.

Module IoApicFacts.
Import IoApic.
Section facts.
Context {W K : Type} `{Hbus : IoBus W} `{Hsp : KernelSpace K} `{Hm : PhysMem K}.
Context {Hio : IoApicLaws W} {Hl : PhysMemLaws K} {Hv : KernelVirt K}.
Implicit Types (e : Env (W := W) (K := K)) (w : W) (k : K) (a : IoApic).

(** The number of the last redirection entry *)
Definition max_entry (b : Z) w : Z := Z.land (Z.shiftr (reg b 1 w) 16) 0xFF.
(** The page of [a] is the page of the chip at [b]. *)
Definition mapped k a b : Prop := reach k (sel a) = Some (b + REG_SEL) ∧ reach k (win a) = Some (b + REG_WIN).
Definition same_regs w w' : Prop := ∀ b i, chip b → reg b i w' = reg b i w.

Lemma max_entry_bound b w : 0 ≤ max_entry b w ≤ 255.
Proof.
  unfold max_entry. pose proof (Z.land_ones (Z.shiftr (reg b 1 w) 16) 8 ltac:(lia)) as E.
  change (Z.ones 8) with 0xFF in E. rewrite E. change (2 ^ 8) with 256.
  pose proof (Z.mod_pos_bound (Z.shiftr (reg b 1 w) 16) 256 ltac:(lia)). lia.
Qed.

(** ** Register accesses *)
Lemma read_raw_ok e a b o : mapped (mem e) a b → chip b → fits 8 o →
  ∃ w', read_raw a o e = Ok (reg b o (hw e), set_hw w' e) ∧ same_regs (hw e) w'.
Proof.
  intros [Hs Hw] Hc Ho. exists (bus_write (b + REG_SEL) o (hw e)). split; [|intros b' i Hc'; by apply select_regs].
  unfold read_raw, mbind, M_bind, write_volatile, read_volatile. rewrite Hs. cbn [set_hw mem hw]. rewrite Hw.
  rewrite window_read, select_self, select_regs by done. done.
Qed.

Lemma write_raw_ok e a b half entry v : mapped (mem e) a b → chip b → fits 32 v →
  half = 0 ∨ half = 1 → 0 ≤ entry ≤ max_entry b (hw e) → 0x10 + half + 2 * entry < 256 →
  ∃ w', write_raw a (0x10 + half + 2 * entry) v e = Ok (tt, set_hw w' e) ∧
    (∀ n, settable half n = true → Z.testbit (reg b (0x10 + half + 2 * entry) w') n = Z.testbit v n) ∧
    (∀ b' i, chip b' → b' ≠ b ∨ i ≠ 0x10 + half + 2 * entry → reg b' i w' = reg b' i (hw e)).
Proof.
  intros [Hs Hw] Hc Hf32 Hh He Ho. set (o := 0x10 + half + 2 * entry) in *.
  set (w1 := bus_write (b + REG_SEL) o (hw e)).
  assert (fits 8 o) as Hf by (unfold fits, o; lia).
  assert (selected b w1 = o) as Hsel by by apply select_self.
  exists (bus_write (b + REG_WIN) v w1). split; [|split].
  - unfold write_raw, mbind, M_bind, write_volatile. rewrite Hs. cbn [set_hw mem hw]. by rewrite Hw.
  - intros n Hn. rewrite <-Hsel at 1. apply (window_write _ _ _ half entry); try done.
    unfold w1. by rewrite select_regs.
  - intros b' i Hc' Hne. rewrite window_other by (try done; by rewrite Hsel). by apply select_regs.
Qed.

Lemma redir_offset_ok half entry : half = 0 ∨ half = 1 → 0 ≤ entry →
  redir_offset half entry = if entry <=? 119 then Ok (0x10 + half + 2 * entry) else Panic.
Proof.
  intros Hh He. unfold redir_offset, mul, checked_mul, add, checked_add, unwrap. change (2 ^ 8) with 256.
  destruct (Z.leb_spec entry 119).
  - rewrite (proj2 (Z.ltb_lt (2 * entry) _)) by lia. cbn [mbind res_bind]. rewrite (proj2 (Z.ltb_lt _ _)) by lia. done.
  - destruct (Z.ltb_spec (2 * entry) 256) as [Hu|Hu]; [|done]. cbn [mbind res_bind].
    rewrite (proj2 (Z.ltb_ge _ _)) by lia. done.
Qed.

(** ** Redirection entries *)

(** What [write_redir] can set of an entry: not the mask bit 16 *)
Definition programmable (n : Z) : bool :=
  (0 <=? n) && (n <=? 15) && negb (n =? 12) && negb (n =? 14) || (56 <=? n) && (n <=? 63).

Lemma entry_bits upper lower n : fits 32 upper → fits 32 lower → 0 ≤ n →
  Z.testbit (Z.shiftl upper 32 + lower) n = if n <? 32 then Z.testbit lower n else Z.testbit upper (n - 32).
Proof.
  intros Hu [Hl0 Hl1] Hn. rewrite Z.shiftl_mul_pow2, <-lor_low, Z.lor_spec by lia.
  destruct (Z.ltb_spec n 32).
  - by rewrite Z.mul_pow2_bits_low by lia.
  - rewrite Z.mul_pow2_bits by lia.
    assert (Z.testbit lower n = false) as ->; [|apply orb_false_r].
    destruct (Z.eq_dec lower 0) as [->|]; [apply Z.bits_0|]. apply Z.bits_above_log2; [lia|].
    apply Z.lt_le_trans with 32; [apply Z.log2_lt_pow2; lia|lia].
Qed.

Lemma read_redir_ok e a b entry : mapped (mem e) a b → chip b → 0 ≤ entry ≤ 119 →
  ∃ w', read_redir a entry e =
    Ok (Z.shiftl (reg b (0x10 + 1 + 2 * entry) (hw e)) 32 + reg b (0x10 + 0 + 2 * entry) (hw e), set_hw w' e) ∧
    same_regs (hw e) w'.
Proof.
  intros Hm' Hc He. unfold read_redir. rewrite !redir_offset_ok by lia. rewrite (proj2 (Z.leb_le entry 119)) by lia.
  destruct (read_raw_ok e a b (0x10 + 0 + 2 * entry) Hm' Hc) as (w1 & E1 & S1); [unfold fits; lia|].
  destruct (read_raw_ok (set_hw w1 e) a b (0x10 + 1 + 2 * entry) Hm' Hc) as (w2 & E2 & S2); [unfold fits; lia|].
  exists w2. split; [|intros b' i Hc'; by rewrite S2, S1].
  unfold mbind at 1, M_bind at 1, lift at 1. rewrite (M_bind_Ok _ _ _ _ _ E1).
  unfold mbind at 1, M_bind at 1, lift at 1. rewrite (M_bind_Ok _ _ _ _ _ E2). cbn [hw set_hw].
  rewrite S1 by done. unfold lift. rewrite add_Ok; [done|].
  pose proof (reg_fits b (0x10 + 1 + 2 * entry) (hw e)). pose proof (reg_fits b (0x10 + 0 + 2 * entry) (hw e)).
  unfold fits in *. rewrite Z.shiftl_mul_pow2 by lia. lia.
Qed.

Lemma write_redir_ok e a b entry val : mapped (mem e) a b → chip b → 0 ≤ entry ≤ max_entry b (hw e) → entry ≤ 119 →
  u64 val →
  ∃ w', write_redir a entry val e = Ok (tt, set_hw w' e) ∧
    (∀ n, settable 0 n = true → Z.testbit (reg b (0x10 + 0 + 2 * entry) w') n = (n <? 16) && Z.testbit val n) ∧
    (∀ n, settable 1 n = true → Z.testbit (reg b (0x10 + 1 + 2 * entry) w') n = Z.testbit val (n + 32)) ∧
    (∀ b' i, chip b' → b' ≠ b ∨ (i ≠ 0x10 + 2 * entry ∧ i ≠ 0x11 + 2 * entry) → reg b' i w' = reg b' i (hw e)).
Proof.
  intros Hm' Hc He Hmax [Hv0 Hv1]. unfold write_redir. rewrite !redir_offset_ok by lia.
  rewrite (proj2 (Z.leb_le entry 119)) by lia.
  destruct (write_raw_ok e a b 0 entry (cast 32 (Z.land val 0xFFFF)) Hm' Hc) as (w1 & E1 & B1 & O1);
    [apply Z.mod_pos_bound; lia|lia..|].
  assert (max_entry b w1 = max_entry b (hw e)) as Hmx by (unfold max_entry; rewrite O1 by (done || lia); done).
  destruct (write_raw_ok (set_hw w1 e) a b 1 entry (cast 32 (Z.shiftr val 32)) Hm' Hc) as (w2 & E2 & B2 & O2);
    [apply Z.mod_pos_bound; lia|lia|cbn [hw set_hw]; lia|lia|]. cbn [hw set_hw] in O2.
  exists w2. split; [|split; [|split]].
  - unfold mbind at 1, M_bind at 1, lift at 1. rewrite (M_bind_Ok _ _ _ _ _ E1).
    unfold mbind at 1, M_bind at 1, lift at 1. exact E2.
  - intros n Hn. rewrite O2 by (done || lia). rewrite B1 by done. unfold settable in Hn. cbn [Z.eqb] in Hn.
    unfold cast. rewrite Z.mod_pow2_bits_low by lia. change 0xFFFF with (Z.ones 16).
    rewrite Z.land_spec, Z.testbit_ones by lia. rewrite (proj2 (Z.leb_le 0 n)) by lia. cbn [andb].
    by destruct (n <? 16), (Z.testbit val n).
  - intros n Hn. rewrite B2 by done. unfold settable in Hn. cbn [Z.eqb] in Hn.
    unfold cast. rewrite Z.mod_pow2_bits_low by lia. by rewrite Z.shiftr_spec by lia.
  - intros b' i Hc' Hne. rewrite O2 by (try done; lia). apply O1; [done|lia].
Qed.

(** C37. Programming a redirection entry: [write_redir] and then [read_redir] give back every
    bit of the value that the entry holds, the vector, the modes and the destination, except
    the mask bit, which reads 0 whatever was written; every other entry, of this and of
    every other chip, reads as before.  The selector is 8 bits wide: from entry 120 on both
    panic before they touch the chip. *)
Theorem redir_write_read e a b entry val :
  mapped (mem e) a b → chip b → 0 ≤ entry ≤ max_entry b (hw e) → u64 val →
  if entry <=? 119 then
    ∃ w1 w2 r, write_redir a entry val e = Ok (tt, set_hw w1 e) ∧ read_redir a entry (set_hw w1 e) = Ok (r, set_hw w2 e) ∧
      (∀ n, programmable n = true → Z.testbit r n = Z.testbit val n) ∧ Z.testbit r 16 = false ∧
      ∀ a' b' entry', mapped (mem e) a' b' → chip b' → 0 ≤ entry' ≤ 119 → b' ≠ b ∨ entry' ≠ entry →
        ∃ v w3 w4, read_redir a' entry' e = Ok (v, set_hw w3 e) ∧ read_redir a' entry' (set_hw w1 e) = Ok (v, set_hw w4 e)
  else write_redir a entry val e = Panic ∧ read_redir a entry e = Panic.
Proof.
  intros Hm' Hc He Hval. destruct (Z.leb_spec entry 119) as [Hlt|Hge].
  - destruct (write_redir_ok e a b entry val Hm' Hc He Hlt Hval) as (w1 & E1 & B0 & B1 & O).
    destruct (read_redir_ok (set_hw w1 e) a b entry Hm' Hc ltac:(lia)) as (w2 & E2 & _).
    eexists w1, w2, _. split; [exact E1|]. split; [exact E2|]. cbn [hw set_hw].
    split; [|split].
    + intros n Hn. unfold programmable in Hn. rewrite entry_bits by (try apply reg_fits; lia).
      destruct (Z.ltb_spec n 32).
      * rewrite B0 by (unfold settable; cbn [Z.eqb]; lia). rewrite (proj2 (Z.ltb_lt _ _)) by lia. done.
      * rewrite B1 by (unfold settable; cbn [Z.eqb]; lia). f_equal. lia.
    + rewrite entry_bits by (try apply reg_fits; lia). exact (B0 16 eq_refl).
    + intros a' b' entry' Hma' Hc' He' Hne.
      destruct (read_redir_ok e a' b' entry' Hma' Hc' He') as (w3 & E3 & _).
      destruct (read_redir_ok (set_hw w1 e) a' b' entry' Hma' Hc' He') as (w4 & E4 & _).
      eexists _, w3, w4. split; [exact E3|]. rewrite E4. cbn [hw set_hw]. by rewrite !O by (try done; lia).
  - unfold write_redir, read_redir. rewrite !redir_offset_ok by lia. by rewrite (proj2 (Z.leb_gt _ _)) by lia.
Qed.

(** ** The map of interrupts *)
Definition covers (a : IoApic) (g : Z) : Prop := start (gsi a) ≤ g < end_ (gsi a).

Lemma fill_gsis_spec idx n : ∀ g map, 0 ≤ g →
  fill_gsis idx n g map = Panic ∨
  ∃ map', fill_gsis idx n g map = Ok map' ∧ length map' = length map ∧
    ∀ i : nat, Z.of_nat i < g ∨ g + Z.of_nat n ≤ Z.of_nat i → map' !! i = map !! i.
Proof.
  induction n as [|n IH]; intros g map Hg; cbn [fill_gsis]; [by right; exists map|].
  unfold store. destruct (Nat.ltb _ _); [|by left]. cbn [mbind res_bind].
  destruct (IH (g + 1) (<[Z.to_nat g := Some idx]> map) ltac:(lia)) as [->|(map' & -> & Hl' & Hk)]; [by left|right].
  exists map'. split; [done|]. rewrite length_insert in Hl'. split; [done|].
  intros i Hi. rewrite Hk by lia. apply list_lookup_insert_ne. lia.
Qed.
Lemma fill_map_spec l : ∀ idx map, Forall (λ a, 0 ≤ start (gsi a) ≤ end_ (gsi a)) l →
  fill_map idx l map = Panic ∨
  ∃ map', fill_map idx l map = Ok map' ∧ length map' = length map ∧
    ∀ i : nat, Forall (λ a, ¬ covers a (Z.of_nat i)) l → map' !! i = map !! i.
Proof.
  induction l as [|a l IH]; intros idx map Hf; cbn [fill_map]; [by right; exists map|].
  inversion_clear Hf as [|? ? Ha Hf'].
  destruct (fill_gsis_spec idx (Z.to_nat (end_ (gsi a) - start (gsi a))) (start (gsi a)) map ltac:(lia))
    as [->|(m1 & -> & L1 & K1)]; [by left|]. cbn [mbind res_bind].
  destruct (IH (S idx) m1 Hf') as [->|(m2 & -> & L2 & K2)]; [by left|right].
  exists m2. split; [done|]. split; [by rewrite L2|]. intros i Hi. inversion_clear Hi as [|? ? Hia Hil].
  rewrite K2 by done. apply K1. unfold covers in Hia. lia.
Qed.

Lemma unhandled_none map i : map !! i = Some None → ∃ j, unhandled_gsi map = Some j.
Proof.
  intros Hi. unfold unhandled_gsi. destruct (list_find_elem_of (λ v : option nat, v = None) map None) as [[j v] E];
    [by eapply list_elem_of_lookup_2|done|]. rewrite E. by exists j.
Qed.

(** Ranges whose ends are included leave, between two of them, the end of the first out. *)
Lemma gsi_map_two a b l max : StronglySorted by_start (a :: b :: l) →
  Forall (λ a, 0 ≤ start (gsi a) ≤ end_ (gsi a) ∧ end_ (gsi a) ≤ max) (a :: b :: l) →
  gsi_map max (a :: b :: l) = Panic.
Proof.
  intros Hs Hf. unfold gsi_map.
  destruct (check_overlaps (a :: b :: l)) as [[]| | |] eqn:Ec; cbn [mbind res_bind]; [|exfalso|done|exfalso].
  2,3: revert Ec; generalize (a :: b :: l); intros l'; induction l' as [|x [|y l'] IH]; try done;
    cbn [check_overlaps]; destruct (Range.overlaps _ _); [done|exact IH].
  assert (end_ (gsi a) < start (gsi b)) as Hgap.
  { cbn [check_overlaps] in Ec. destruct (Range.overlaps (gsi a) (gsi b)) eqn:Eo; [done|].
    unfold Range.overlaps in Eo. destruct (_ && _) eqn:Eb; [done|]. inversion_clear Hs as [|? ? _ Hab].
    inversion_clear Hab as [|? ? Hab' _]. inversion_clear Hf as [|? ? Ha Hf']. inversion_clear Hf' as [|? ? Hb _].
    unfold by_start in Hab'. lia. }
  assert (Forall (λ a, 0 ≤ start (gsi a) ≤ end_ (gsi a)) (a :: b :: l)) as Hf0
    by (eapply Forall_impl; [exact Hf|]; intros ? [? ?]; done).
  destruct (fill_map_spec _ 0 (replicate (Z.to_nat max) None) Hf0) as [->|(map & -> & Hlen & Hk)]; [done|].
  cbn [mbind res_bind]. destruct (unhandled_none map (Z.to_nat (end_ (gsi a)))) as [j ->]; [|done].
  inversion_clear Hf as [|? ? Ha Hf']. inversion_clear Hf' as [|? ? Hb Hl'].
  rewrite Hk; [apply lookup_replicate_2; lia|]. rewrite Z2Nat.id by lia.
  constructor; [unfold covers; lia|]. inversion_clear Hs as [|? ? Hs' _]. inversion_clear Hs' as [|? ? _ Hb'].
  constructor; [unfold covers; lia|]. eapply Forall_impl; [exact Hb'|]. intros c Hc. unfold by_start, covers in *. lia.
Qed.

Lemma fill_gsis_all idx n : ∀ pre : list (option nat),
  fill_gsis idx n (zlen pre) (pre ++ replicate n None) = Ok (pre ++ replicate n (Some idx)).
Proof.
  induction n as [|n IH]; intros pre; [done|]. cbn [fill_gsis replicate]. unfold zlen. rewrite Nat2Z.id, store_middle.
  cbn [mbind res_bind]. specialize (IH (pre ++ [Some idx])). unfold zlen in IH. rewrite length_app in IH.
  cbn [length] in IH. rewrite Nat2Z.inj_add in IH. rewrite <-!app_assoc in IH. exact IH.
Qed.
Lemma unwrap_all_some n (x : nat) : unwrap_all (replicate n (Some x)) = Ok (replicate n x).
Proof. induction n as [|n IH]; [done|]. cbn [replicate unwrap_all unwrap mbind res_bind]. by rewrite IH. Qed.
Lemma handled_some n (x : nat) : unhandled_gsi (replicate n (Some x)) = None.
Proof.
  unfold unhandled_gsi. rewrite (proj2 (list_find_None _ _)); [done|]. by apply Forall_replicate.
Qed.
Lemma gsi_map_one a : start (gsi a) = 0 → gsi_map (end_ (gsi a)) [a] = Ok (replicate (Z.to_nat (end_ (gsi a))) 0%nat).
Proof.
  intros Hs. unfold gsi_map. cbn [check_overlaps fill_map mbind res_bind]. rewrite Hs, Z.sub_0_r.
  pose proof (fill_gsis_all 0 (Z.to_nat (end_ (gsi a))) []) as E. unfold zlen in E. cbn [length app] in E.
  change (Z.of_nat 0) with 0 in E. rewrite E. cbn [mbind res_bind]. by rewrite handled_some, unwrap_all_some.
Qed.
Lemma gsi_map_base a : 0 < start (gsi a) ≤ end_ (gsi a) → gsi_map (end_ (gsi a)) [a] = Panic.
Proof.
  intros Hs. unfold gsi_map. cbn [check_overlaps mbind res_bind].
  destruct (fill_map_spec [a] 0 (replicate (Z.to_nat (end_ (gsi a))) None)) as [->|(map & -> & Hlen & Hk)];
    [constructor; [lia|done]|done|].
  cbn [mbind res_bind]. destruct (unhandled_none map 0) as [j ->]; [|done].
  rewrite Hk; [apply lookup_replicate_2; lia|]. constructor; [unfold covers; lia|done].
Qed.

(** ** Mapping a chip *)
Definition mmio_entry (addr : Z) : Z :=
  Z.lor (Z.lor (Z.lor (Z.lor addr PAGE_NXE) PAGE_WRITE) PAGE_CACHE_DISABLE) PAGE_PRESENT.

Lemma mmio_entry_ok addr : (4096 | addr) → 0 ≤ addr → addr + 4096 ≤ 2 ^ 52 →
  u64 (mmio_entry addr) ∧ valid_leaf Page4K (mmio_entry addr) = true ∧
  ∀ v, leaf_page Page4K (mmio_entry addr) v = (addr, v mod 4096, mmio_entry addr).
Proof.
  intros [q ->] H0 Hmax.
  assert (mmio_entry (q * 4096) = q * 4096 + 2 ^ 63 + 0x13) as E.
  { unfold mmio_entry. rewrite <-!Z.lor_assoc.
    change (Z.lor PAGE_NXE (Z.lor PAGE_WRITE (Z.lor PAGE_CACHE_DISABLE PAGE_PRESENT))) with (Z.lor (2 ^ 63) 0x13).
    rewrite Z.lor_comm, <-Z.lor_assoc, (Z.lor_comm 0x13). change 4096 with (2 ^ 12).
    rewrite (lor_low q 12 0x13) by lia. change (2 ^ 63) with (1 * 2 ^ 63). rewrite lor_low by lia. lia. }
  split; [rewrite E; unfold fits; lia|]. split.
  - unfold valid_leaf. rewrite present_bit. unfold mmio_entry. rewrite !Z.lor_spec. change (Z.testbit PAGE_PRESENT 0) with true.
    by rewrite !orb_true_r.
  - intros v. unfold leaf_page. cbn [PageType.size].
    assert (table_of (mmio_entry (q * 4096)) = q * 4096) as ->; [|by rewrite Z.div_mul by lia].
    unfold table_of, PageTable.ADDR_MASK. change 0xffffffffff000 with (Z.shiftl (Z.ones 40) 12).
    rewrite E. apply Z.bits_inj'. intros n Hn. rewrite Z.land_spec.
    destruct (Z.lt_ge_cases n 12).
    { rewrite Z.shiftl_spec, (Z.testbit_neg_r (Z.ones 40)), andb_false_r by lia.
      change 4096 with (2 ^ 12). by rewrite Z.mul_pow2_bits_low by lia. }
    rewrite Z.shiftl_spec, Z.testbit_ones by lia.
    destruct (Z.lt_ge_cases n 52).
    + rewrite (proj2 (Z.leb_le 0 (n - 12))), (proj2 (Z.ltb_lt _ _)) by lia. cbn [andb]. rewrite andb_true_r.
      replace n with ((n - 12) + 12) by lia. rewrite <-!Z.div_pow2_bits by lia.
      replace ((q * 4096 + 2 ^ 63 + 19) / 2 ^ 12) with (q + 2 ^ 51) by (apply (Z.div_unique _ _ _ 19); lia).
      change 4096 with (2 ^ 12). rewrite Z.div_mul by lia.
      replace (q + 2 ^ 51) with (Z.lor (1 * 2 ^ 51) q) by (rewrite lor_low by lia; lia).
      rewrite Z.lor_spec, Z.mul_pow2_bits_low by lia. done.
    + rewrite (proj2 (Z.ltb_ge (n - 12) 40)), andb_false_r, andb_false_r by lia. symmetry.
      destruct (Z.eq_dec q 0) as [->|]; [apply Z.bits_0|].
      apply Z.bits_above_log2; [lia|]. apply Z.lt_le_trans with 52; [apply Z.log2_lt_pow2; lia|lia].
Qed.

(** A small page at a free address *)
Lemma map_fresh k root v raw : address_space k root → canonical v → u64 raw → valid_leaf Page4K raw = true →
  page_at k root v = None → ¬ short 4096 3 k →
  ∃ k', PageTable.map_raw root v Page4K raw k = Ok (tt, k') ∧ page_mapped k k' root Page4K v raw ∧ within 4096 3 k k'.
Proof.
  intros [T Ht] Hc Hraw Hvl Hfree Hsh. pose proof (map_raw_tree k root T v Page4K raw Ht Hc Hraw) as Hmap.
  cbv zeta in Hmap. pose proof (page_at_eq _ _ _ _ Ht Hc) as Hpa. pose proof (bounded_map_raw 4096 root v Page4K raw k) as Hw.
  destruct (PageTable.map_raw root v Page4K raw k) as [[[] k']|[er k']| |]; [|destruct er| |]; try done.
  - destruct Hmap as (_ & _ & _ & T' & Ht' & Hg & HT & Hlk). exists k'. split; [done|]. split; [by eapply map_raw_added|exact Hw].
  - destruct Hmap as [_ Hx]. congruence.
  - destruct Hmap as [_ Hlk]. rewrite Hfree in Hpa. by destruct (lookup_path _ _ _ _).
  - destruct Hmap as [_ [x Hx]]. destruct (tb_page _ _ _ Ht _ _ Hx) as [Hlen _]. pose proof (indices_ok v) as [Hi _].
    rewrite length_take, Hi in Hlen. simpl in Hlen. lia.
Qed.

(** [room k root n]: [n] more pages can be mapped. *)
Definition room k (root : Z) (n : nat) : Prop := space k root n ∧ ¬ short 4096 (3 * n) k.
(** What was mapped stays mapped. *)
Definition kept k k' : Prop := ∀ v p, canonical v → reach k v = Some p → reach k' v = Some p.

Lemma map_mmio_ok k root n addr : room k root (S n) → (4096 | addr) → 0 ≤ addr → addr + 4096 ≤ 2 ^ 52 →
  ∃ v k', map_mmio addr k = Ok (v, k') ∧ room k' root n ∧ kept k k' ∧ canonical_range v 4096 ∧
    ∀ off, 0 ≤ off < 4096 → reach k' (v + off) = Some (addr + off).
Proof.
  intros [Hs Hsh] Ha H0 Hmax. pose proof (space_table _ _ _ Hs) as Hkt.
  destruct (space_take _ _ _ Hs) as (v & k1 & E1 & Hal & Hcr & Hkt1 & Has & Hfree & Hpa & Hs1 & Hsp').
  destruct (mmio_entry_ok addr Ha H0 Hmax) as (Hu & Hvl & Hleaf).
  assert (canonical v) as Hc by (apply (range_canonical v 4096); [done|lia]).
  destruct (map_fresh k1 root v (mmio_entry addr)) as (k2 & E2 & Hpm & Hw); try done.
  { rewrite Hpa by done. apply Hfree. lia. }
  { intros Hx. apply Hsh. eapply short_weaken; [|apply Hs1; exact Hx]. lia. }
  exists v, k2. pose proof (Hsp' _ _ Hu E2) as Hs2. pose proof (space_table _ _ _ Hs2) as Hkt2.
  split; [|split; [split; [done|]|split; [|split; [done|]]]].
  - unfold map_mmio. change (PageType.size Page4K) with 4096. rewrite (M_bind_Ok _ _ _ _ _ E1).
    unfold mbind, M_bind, get, lift, unwrap, unwrap_M. rewrite Hkt1. fold (mmio_entry addr). by rewrite E2.
  - intros Hx. apply Hsh, Hs1. replace (3 * S n)%nat with (3 + 3 * n)%nat by lia. by eapply short_later.
  - intros a p Hca. unfold reach. rewrite Hkt, Hkt2. cbn [mbind option_bind].
    rewrite (pg_at _ _ _ _ _ _ Hpm) by done. rewrite Hpa by done. cbn [PageType.size].
    destruct (Z.eqb_spec (a / 4096) (v / 4096)) as [Eq|]; [|done]. rewrite Hfree; [done|].
    destruct Hal as [q ->]. rewrite Z.div_mul in Eq by lia. Z.div_mod_to_equations. lia.
  - intros off Hoff. unfold reach. rewrite Hkt2. cbn [mbind option_bind].
    rewrite (pg_at _ _ _ _ _ _ Hpm) by (apply (range_canonical v 4096); [done|lia]). cbn [PageType.size].
    destruct Hal as [q ->]. rewrite Z.div_mul by lia.
    replace ((q * 4096 + off) / 4096) with q by (apply (Z.div_unique _ _ _ off); lia). rewrite Z.eqb_refl, Hleaf.
    cbn. do 2 f_equal. symmetry. apply (Z.mod_unique _ _ q); lia.
Qed.

Lemma new_init_ok e root n i addr base : room (mem e) root (S n) → chip addr → 0 ≤ base →
  ∃ v k' w', room k' root n ∧ kept (mem e) k' ∧ canonical_range v 4096 ∧ same_regs (hw e) w' ∧
    let r := mkRange base (base + max_entry addr (hw e)) in
    mapped k' (mkIoApic i v r) addr ∧
    new_init i addr base e =
      if base + max_entry addr (hw e) <? 2 ^ 32 then Ok (mkIoApic i v r, set_hw w' (set_mem k' e)) else Panic.
Proof.
  intros Hr Hc Hb. destruct (chip_page _ Hc) as (Ha & H0 & Hmax).
  destruct (map_mmio_ok _ _ _ addr Hr Ha H0 Hmax) as (v & k' & E & Hr' & Hk & Hcr & Hre).
  set (p := mkIoApic i v (mkRange 0 0)). set (e1 := set_mem k' e).
  assert (mapped (mem e1) p addr) as Hmap by (split; apply Hre; unfold REG_SEL, REG_WIN; lia).
  destruct (read_raw_ok e1 p addr (code Ver) Hmap Hc) as (w' & E2 & Hs); [done|].
  exists v, k', w'. split; [done|]. split; [done|]. split; [done|]. split; [done|]. split; [done|].
  unfold new_init, on_mem, mbind, M_bind. rewrite E. fold e1. unfold lift at 1. cbn [unwrap_res Range.new Z.leb].
  change (Range.new 0 0) with (@Ok Ranges.Error _ (mkRange 0 0)). cbn [unwrap_res]. fold p. unfold read.
  rewrite E2. cbn [code]. change (hw e1) with (hw e). fold (max_entry addr (hw e)).
  pose proof (max_entry_bound addr (hw e)). unfold lift, unwrap, checked_add.
  destruct (_ <? 2 ^ 32); [|done]. unfold Range.new. by rewrite (proj2 (Z.leb_le _ _)) by lia.
Qed.

Definition bounded_by (m : Z) a : Prop := 0 ≤ start (gsi a) ≤ end_ (gsi a) ∧ end_ (gsi a) ≤ m.
Lemma init_all_ok us : ∀ e root m acc, room (mem e) root (length us) →
  Forall (λ u, chip (u_addr u) ∧ 0 ≤ u_gsi_base u) us → Forall (bounded_by m) acc →
  init_all us m acc e = Panic ∨
  ∃ m' l e', init_all us m acc e = Ok ((m', acc ++ l), e') ∧ length l = length us ∧ Forall (bounded_by m') (acc ++ l).
Proof.
  induction us as [|u us IH]; intros e root m acc Hr Hu Hacc; cbn [init_all].
  { right. exists m, [], e. rewrite app_nil_r. done. }
  inversion_clear Hu as [|? ? [Hc Hb] Hus]. unfold uninit_init.
  destruct (new_init_ok e root _ (u_id u) _ _ Hr Hc Hb) as (v & k' & w' & Hr' & _ & _ & _ & _ & E).
  cbv zeta in E. pose proof (max_entry_bound (u_addr u) (hw e)) as Hmx.
  destruct (_ <? 2 ^ 32); [|left; unfold mbind, M_bind; by rewrite E]. rewrite (M_bind_Ok _ _ _ _ _ E). clear E.
  set (a := mkIoApic _ _ _). set (m1 := Z.max m _).
  destruct (IH (set_hw w' (set_mem k' e)) root m1 (acc ++ [a]) Hr' Hus) as [->|(m' & l & e' & -> & Hlen & Hf)].
  - apply Forall_app. split; [|constructor; [|done]]; [eapply Forall_impl; [exact Hacc|]|];
      unfold bounded_by, m1, a; intros; cbn [gsi start end_] in *; lia.
  - by left.
  - right. exists m', (a :: l), e'. rewrite <-app_assoc in *. split; [done|]. cbn [length]. by rewrite Hlen.
Qed.

#[local] Instance by_start_total : Total by_start.
Proof. intros x y. unfold by_start. lia. Qed.
#[local] Instance by_start_trans : Transitive by_start.
Proof. intros x y z. unfold by_start. lia. Qed.

Definition once {A} (v : A) : OnceLock.OnceLock := OnceLock.mkOnceLock true (Some v).

(** [init] once the chips are mapped *)
Lemma init_tail e us m l e1 : init_all us 0 [] e = Ok ((m, l), e1) →
  init us e = match gsi_map m (sort_by_start l) with
              | Ok g => match OnceLock.set (GSI_TO_IOAPIC e1) g, OnceLock.set (IOAPICS e1) (sort_by_start l) with
                        | Ok m', Ok i => Ok (tt, mkEnv (hw e1) (mem e1) i m')
                        | _, _ => Panic
                        end
              | Panic => Panic | Diverge => Diverge | Err x => Err (x, e1)
              end.
Proof.
  intros E. unfold init. rewrite (M_bind_Ok _ _ _ _ _ E). unfold mbind, M_bind, lift, get, put.
  destruct (gsi_map m (sort_by_start l)); try done.
  unfold OnceLock.set, OnceLock.claim, OnceLock.publish, assert.
  by destruct (OnceLock.initialized (GSI_TO_IOAPIC e1)), (OnceLock.initialized (IOAPICS e1)).
Qed.

Lemma init_several e root u u' us : room (mem e) root (length (u :: u' :: us)) →
  Forall (λ u, chip (u_addr u) ∧ 0 ≤ u_gsi_base u) (u :: u' :: us) → init (u :: u' :: us) e = Panic.
Proof.
  intros Hr Hu. destruct (init_all_ok (u :: u' :: us) e root 0 [] Hr Hu) as [E|(m & l & e' & E & Hlen & Hf)]; [constructor| |].
  { unfold init, mbind, M_bind. by rewrite E. }
  rewrite (init_tail _ _ _ _ _ E). cbn [app] in Hf.
  pose proof (StronglySorted_merge_sort by_start l) as Hs. pose proof (merge_sort_Permutation by_start l) as Hp.
  fold (sort_by_start l) in Hs, Hp. rewrite <-Hp in Hf, Hlen. cbn [app].
  destruct (sort_by_start l) as [|a [|b l']]; [done..|]. by rewrite gsi_map_two.
Qed.

(** C34. [init] of the I/O APICs that the firmware lists.  Without any, the maps are empty.
    One whose interrupts start at 0 is mapped, where its selector and window are its
    chip's, and every interrupt below the number of its last entry is routed to it; the last
    entry itself is left out.  One that starts elsewhere panics, and so do any two or more:
    ranges that do not overlap leave the last interrupt of the first without a chip. *)
Theorem ioapic_init_outcome e root us :
  room (mem e) root (length us) → Forall (λ u, chip (u_addr u) ∧ 0 ≤ u_gsi_base u) us →
  IOAPICS e = OnceLock.new → GSI_TO_IOAPIC e = OnceLock.new →
  match us with
  | [] => init us e = Ok (tt, mkEnv (hw e) (mem e) (once []) (once []))
  | [u] =>
      if u_gsi_base u =? 0 then
        ∃ v k' w', let n := max_entry (u_addr u) (hw e) in let a := mkIoApic (u_id u) v (mkRange 0 n) in
          init us e = Ok (tt, mkEnv w' k' (once [a]) (once (replicate (Z.to_nat n) 0%nat))) ∧
          mapped k' a (u_addr u) ∧ kept (mem e) k' ∧ same_regs (hw e) w'
      else init us e = Panic
  | _ => init us e = Panic
  end.
Proof.
  intros Hr Hu Hi Hg. destruct us as [|u [|u' us]].
  - rewrite (init_tail e [] 0 [] e eq_refl). by rewrite Hi, Hg.
  - inversion_clear Hu as [|? ? [Hc Hb] _].
    destruct (new_init_ok e root _ (u_id u) _ _ Hr Hc Hb) as (v & k' & w' & _ & Hk & _ & Hs & Hmap & E).
    pose proof (max_entry_bound (u_addr u) (hw e)) as Hmx. set (n := max_entry (u_addr u) (hw e)) in *.
    set (a := mkIoApic (u_id u) v _) in *.
    assert (init_all [u] 0 [] e = if u_gsi_base u + n <? 2 ^ 32
      then Ok ((end_ (gsi a), [a]), set_hw w' (set_mem k' e)) else Panic) as Ea.
    { cbn [init_all]. unfold mbind, M_bind, uninit_init. rewrite E. destruct (_ <? 2 ^ 32); [|done].
      unfold mret, M_ret. do 3 f_equal. unfold a. cbn [gsi end_]. lia. }
    destruct (Z.eqb_spec (u_gsi_base u) 0) as [E0|Hne].
    + rewrite E0, Z.add_0_l, (proj2 (Z.ltb_lt _ _)) in Ea by lia. exists v, k', w'. cbv zeta.
      rewrite (init_tail _ _ _ _ _ Ea). change (sort_by_start [a]) with [a].
      rewrite gsi_map_one by exact E0. cbn [GSI_TO_IOAPIC IOAPICS set_hw set_mem hw mem]. rewrite Hi, Hg.
      unfold a in *. rewrite E0 in *. cbn [gsi end_]. rewrite Z.add_0_l in *. done.
    + destruct (_ <? 2 ^ 32); [|unfold init, mbind, M_bind; by rewrite Ea].
      rewrite (init_tail _ _ _ _ _ Ea). change (sort_by_start [a]) with [a].
      rewrite gsi_map_base; [done|]. unfold a. cbn [gsi start end_]. lia.
  - by eapply init_several.
Qed.
End facts.
End IoApicFacts.

(** * Two chips of 24 entries, and the memory of PageRam.v with virtual addresses from 4 GiB on *)
Module IoApicSample.
Import IoApic IoApicFacts.

Record Chips := mkChips { sels : gmap Z Z; regs : gmap (Z * Z) Z }.
Definition page_of_addr (p : Z) : Z := p / 4096 * 4096.
Definition selector (b : Z) (w : Chips) : Z := default 0 (sels w !! b).
Definition register (b i : Z) (w : Chips) : Z := if i =? 1 then 0x170011 else default 0 (regs w !! (b, i)) mod 2 ^ 32.
#[global] Instance chips_bus : IoBus Chips := {
  bus_read p w := register (page_of_addr p) (selector (page_of_addr p) w) w;
  bus_write p v w :=
    let b := page_of_addr p in
    if p mod 4096 =? 0 then mkChips (<[b := v mod 256]> (sels w)) (regs w)
    else mkChips (sels w) (<[(b, selector b w) := v]> (regs w)) }.

Lemma page_split b off : (4096 | b) → 0 ≤ off < 4096 → page_of_addr (b + off) = b ∧ (b + off) mod 4096 = off.
Proof.
  intros [q ->] Ho. unfold page_of_addr.
  replace ((q * 4096 + off) / 4096) with q by (apply (Z.div_unique _ _ _ off); lia).
  split; [done|]. symmetry. apply (Z.mod_unique _ _ q); lia.
Qed.
Lemma chips_sel b v w : (4096 | b) → bus_write (b + REG_SEL) v w = mkChips (<[b := v mod 256]> (sels w)) (regs w).
Proof. intros Hb. destruct (page_split b REG_SEL Hb ltac:(unfold REG_SEL; lia)) as [E1 E2]. cbn [bus_write chips_bus]. by rewrite E1, E2. Qed.
Lemma chips_win b v w : (4096 | b) → bus_write (b + REG_WIN) v w = mkChips (sels w) (<[(b, selector b w) := v]> (regs w)).
Proof. intros Hb. destruct (page_split b REG_WIN Hb ltac:(unfold REG_WIN; lia)) as [E1 E2]. cbn [bus_write chips_bus]. by rewrite E1, E2. Qed.

#[global] Program Instance chips_laws : IoApicLaws Chips := {
  chip b := b = 0xFEC00000 ∨ b = 0xFEC01000; selected := selector; reg := register }.
Next Obligation. intros b [-> | ->]; (split; [by apply Z.mod_divide|lia]). Qed.
Next Obligation. intros b i w. unfold register. destruct (_ =? 1); [done|]. apply Z.mod_pos_bound. lia. Qed.
Next Obligation.
  intros b v w Hc [Hv0 Hv1]. rewrite chips_sel by (destruct Hc as [-> | ->]; by apply Z.mod_divide).
  unfold selector. cbn [sels]. rewrite lookup_insert_eq. cbn [default from_option]. by apply Z.mod_small.
Qed.
Next Obligation. intros b v w b' i Hc _. by rewrite chips_sel by (destruct Hc as [-> | ->]; by apply Z.mod_divide). Qed.
Next Obligation.
  intros b w Hc. cbn [bus_read chips_bus].
  by rewrite (proj1 (page_split b REG_WIN ltac:(destruct Hc as [-> | ->]; by apply Z.mod_divide) ltac:(unfold REG_WIN; lia))).
Qed.
Next Obligation.
  intros b v w half entry n Hc [Hv0 Hv1] Hh He Hs _.
  rewrite chips_win by (destruct Hc as [-> | ->]; by apply Z.mod_divide). unfold register. cbn [regs].
  rewrite (proj2 (Z.eqb_neq _ _)) by lia. rewrite lookup_insert_eq. cbn [default from_option]. by rewrite Z.mod_small.
Qed.
Next Obligation.
  intros b v w b' i Hc _ Hne. rewrite chips_win by (destruct Hc as [-> | ->]; by apply Z.mod_divide).
  unfold register. cbn [regs]. rewrite lookup_insert_ne; [done|]. naive_solver.
Qed.

Record Vm := mkVm { vm_ram : ram; vm_next : Z }.
#[global] Instance vm_phys : PhysMem Vm := {
  translate p n s := translate p n (vm_ram s);
  alloc_phys sz al s := let '(o, r) := alloc_phys sz al (vm_ram s) in (o, mkVm r (vm_next s));
  peek q s := peek q (vm_ram s);
  poke q b s := mkVm (poke q b (vm_ram s)) (vm_next s) }.
#[global] Instance vm_space : KernelSpace Vm := {
  vaddr_4k size s := Ok (vm_next s, mkVm (vm_ram s) (vm_next s + size));
  kernel_table _ := Some 0 }.

Lemma vm_alloc sz al s o s' : alloc_phys sz al s = (o, s') →
  alloc_phys sz al (vm_ram s) = (o, vm_ram s') ∧ vm_next s' = vm_next s.
Proof. cbn [alloc_phys vm_phys]. destruct (alloc_phys sz al (vm_ram s)) as [o' r]. by intros [= <- <-]. Qed.
#[global] Instance vm_laws : PhysMemLaws Vm.
Proof.
  refine {| offset := @offset ram _ _; owned s := owned (vm_ram s) |}.
  - intros p n s v. apply (translate_ptr (S := ram)).
  - intros p n s v q m. apply (translate_sub (S := ram)).
  - intros q s. apply (peek_byte (S := ram)).
  - intros q p b s. apply (peek_poke (S := ram)).
  - intros p n q b s. apply (translate_poke (S := ram)).
  - intros q b s. apply (owned_poke (S := ram)).
  - intros s. apply (owned_apart (S := ram)).
  - intros sz al s o s' p n [E _]%vm_alloc. exact (alloc_translate (S := ram) _ _ _ _ _ _ _ E).
  - intros sz al s o s' q b [E _]%vm_alloc. exact (alloc_keeps (S := ram) _ _ _ _ _ _ _ E).
  - intros sz al s s' [E _]%vm_alloc. exact (alloc_none (S := ram) _ _ _ _ E).
  - intros sz al s a s' Hsz [E _]%vm_alloc. exact (alloc_some (S := ram) _ _ _ _ _ Hsz E).
Defined.

(** The next virtual address plays no part in the physical memory. *)
Lemma vm_tables r n n' root T : tables (mkVm r n) root T → tables (mkVm r n') root T.
Proof. intros [H1 H2 H3 H4 H5 H6]. split; [exact H1|exact H2|exact H3|exact H4|exact H5|exact H6]. Qed.
Lemma vm_page_at r n n' root T v : tables (mkVm r n) root T → canonical v → page_at (mkVm r n') root v = page_at (mkVm r n) root v.
Proof.
  intros Ht Hc. rewrite (page_at_eq _ _ _ _ Ht Hc), (page_at_eq _ _ _ _ (vm_tables r n n' root T Ht) Hc).
  exact eq_refl.
Qed.
Lemma vm_after l s s1 : after l s s1 → vm_next s1 = vm_next s ∧ ∀ n, after l (mkVm (vm_ram s) n) (mkVm (vm_ram s1) n).
Proof.
  intros Ha. induction Ha as [s|l s s1 q b _ [E IH]|l s s1 sz a s2 _ [E IH] Hal|l s s1 sz s2 _ [E IH] Hal].
  - split; [done|]. intros n. apply after_refl.
  - split; [done|]. intros n. change (mkVm (vm_ram (poke q b s1)) n) with (poke q b (mkVm (vm_ram s1) n)).
    apply after_poke, IH.
  - destruct (vm_alloc _ _ _ _ _ Hal) as [Ea En]. split; [by rewrite En|]. intros n.
    eapply after_alloc; [apply IH|]. cbn [alloc_phys vm_phys vm_ram]. by rewrite Ea.
  - destruct (vm_alloc _ _ _ _ _ Hal) as [Ea En]. split; [by rewrite En|]. intros n.
    eapply after_fail; [apply IH|]. cbn [alloc_phys vm_phys vm_ram]. by rewrite Ea.
Qed.
Lemma vm_short m r n n' : short 4096 m (mkVm r n) → short 4096 m (mkVm r n').
Proof.
  intros (j & s1 & s2 & z & Hj & (l & Hl & Hf & Ha) & Hz & Hal). destruct (vm_after _ _ _ Ha) as [_ Ha'].
  destruct (vm_alloc _ _ _ _ _ Hal) as [Ea _].
  exists j, (mkVm (vm_ram s1) n'), (mkVm (vm_ram s2) n'), z. split; [done|]. split.
  { exists l. split; [done|]. split; [done|]. exact (Ha' n'). }
  split; [done|]. cbn [alloc_phys vm_phys vm_ram]. by rewrite Ea.
Qed.

#[global] Program Instance vm_virt : KernelVirt Vm := {
  space k root n := root = 0 ∧ address_space k 0 ∧ (4096 | vm_next k) ∧ 0 ≤ vm_next k ∧
    vm_next k + 4096 * Z.of_nat n ≤ 2 ^ 47 ∧ ∀ a, vm_next k ≤ a < 2 ^ 47 → page_at k 0 a = None }.
Next Obligation. intros k root n (-> & _). done. Qed.
Next Obligation.
  intros [r next] root n (-> & [T Ht] & Hal & H0 & Hmax & Hfree). cbn [vm_next vm_ram] in *.
  exists next, (mkVm r (next + 4096)). split; [done|]. split; [done|].
  assert (canonical_range next 4096) as Hcr by (left; lia). split; [done|]. split; [done|].
  pose proof (vm_tables r next (next + 4096) 0 T Ht) as Ht'. split; [by exists T|].
  assert (∀ a, canonical a → page_at (mkVm r (next + 4096)) 0 a = page_at (mkVm r next) 0 a) as Hpa
    by (intros a Ha; by apply (vm_page_at r next _ 0 T)).
  split; [intros a Ha; apply Hfree; lia|]. split; [exact Hpa|].
  split; [intros m; apply vm_short|]. intros raw k2 Hraw E.
  assert (canonical next) as Hc by (apply (range_canonical next 4096); [done|lia]).
  pose proof (map_raw_tree _ 0 T next Page4K raw Ht' Hc Hraw) as Hmap. cbv zeta in Hmap.
  pose proof (bounded_map_raw 4096 0 next Page4K raw (mkVm r (next + 4096))) as Hw.
  rewrite E in Hmap, Hw.
  destruct Hmap as (_ & _ & _ & T' & Ht2 & Hg & HT & Hlk).
  destruct Hw as (l & _ & _ & Ha). destruct (vm_after _ _ _ Ha) as [En _]. cbn [vm_next] in En.
  pose proof (map_raw_added _ 0 T next Page4K raw k2 T' Ht' Hc Hraw Ht2 Hg HT Hlk) as Hpm.
  split; [done|]. split; [by exists T'|]. rewrite En.
  split; [destruct Hal as [q ->]; exists (q + 1); lia|]. split; [lia|]. split; [lia|].
  intros a Ha'. assert (canonical a) as Hca by (apply canonical_iff; lia).
  rewrite (pg_at _ _ _ _ _ _ Hpm) by done. cbn [PageType.size]. rewrite (proj2 (Z.eqb_neq _ _)), Hpa by (done || (Z.div_mod_to_equations; lia)).
  apply Hfree. lia.
Qed.

Lemma vm_of_ram r n root T : tables r root T →
  tables (mkVm r n) root T ∧ ∀ v, canonical v → page_at (mkVm r n) root v = page_at r root v.
Proof.
  intros Ht. assert (tables (mkVm r n) root T) as Ht'.
  { destruct Ht as [H1 H2 H3 H4 H5 H6]. split; [exact H1|exact H2|exact H3|exact H4|exact H5|exact H6]. }
  split; [done|]. intros v Hc. rewrite (page_at_eq _ _ _ _ Ht Hc), (page_at_eq _ _ _ _ Ht' Hc). exact eq_refl.
Qed.

Definition vm0 : Vm := mkVm Ram.start (2 ^ 32).

Lemma after_next l s s1 : after l s s1 → Forall (λ x, x = 4096 ∨ x = 4096) l →
  (Ram.blocks (history (vm_ram s1))).1 ≤ (Ram.blocks (history (vm_ram s))).1 + 8192 * zlen l.
Proof.
  intros Ha. induction Ha as [s|l s s1 q b _ IH|l s s1 sz a s2 _ IH Hal|l s s1 sz s2 _ IH Hal]; intros Hf; unfold zlen in *.
  - cbn. lia.
  - by apply IH.
  - inversion_clear Hf as [|? ? Hsz Hf']. specialize (IH Hf'). cbn [length].
    destruct (vm_alloc _ _ _ _ _ Hal) as [Ea _]. cbn [alloc_phys Ram.phys] in Ea. unfold Ram.alloc in Ea.
    assert (sz = 4096) as -> by tauto. destruct (_ && _); [|done]. injection Ea as _ <-. cbn [history Ram.blocks].
    destruct (Ram.blocks (history (vm_ram s1))) as [next bs]. cbn [fst] in *.
    assert (next ≤ (next + 4096 - 1) / 4096 * 4096 < next + 4096) by (Z.div_mod_to_equations; lia). lia.
  - destruct (vm_alloc _ _ _ _ _ Hal) as [Ea _]. cbn [alloc_phys Ram.phys] in Ea. unfold Ram.alloc in Ea.
    destruct (_ && _); [done|]. injection Ea as <-. by apply IH.
Qed.

Lemma vm0_not_short m : (m ≤ 1000)%nat → ¬ short 4096 m vm0.
Proof.
  intros Hm (j & s1 & s2 & z & Hj & (l & Hl & Hf & Ha) & Hz & Hal).
  pose proof (after_next _ _ _ Ha Hf) as Hn. destruct (vm_alloc _ _ _ _ _ Hal) as [Ea _].
  change (Ram.blocks (history (vm_ram vm0))).1 with 4096 in Hn. unfold zlen in Hn.
  cbn [alloc_phys Ram.phys] in Ea. unfold Ram.alloc in Ea. assert (z = 4096) as -> by tauto.
  set (next := (Ram.blocks (history (vm_ram s1))).1) in *. clearbody next.
  rewrite (proj2 (Z.leb_le ((next + 4096 - 1) / 4096 * 4096 + 4096) Ram.top)) in Ea; [done|].
  unfold Ram.top. Z.div_mod_to_equations. lia.
Qed.
Lemma vm0_room n : (n ≤ 300)%nat → room vm0 0 n.
Proof.
  intros Hn. split; [|apply vm0_not_short; lia].
  destruct (new_tables Ram.empty 0 Ram.start Ram.start_eq) as [Ht Hp].
  destruct (vm_of_ram _ (2 ^ 32) _ _ Ht) as [Ht' Hp'].
  split; [done|]. split; [by eexists|]. split; [by exists (2 ^ 20)|]. unfold vm0. cbn [vm_next].
  split; [lia|]. split; [lia|]. intros a Ha. assert (canonical a) as Hc by (apply canonical_iff; lia).
  rewrite Hp' by done. by apply Hp.
Qed.

Definition env0 : Env (W := Chips) (K := Vm) := mkEnv (mkChips ∅ ∅) vm0 OnceLock.new OnceLock.new.
Definition first : Uninitialized := mkUninitialized 2 0xFEC00000 0.
Definition second : Uninitialized := mkUninitialized 3 0xFEC01000 24.
Lemma firmware_ok : Forall (λ u, chip (u_addr u) ∧ 0 ≤ u_gsi_base u) [first; second].
Proof. constructor; [split; [by left|done]|]. constructor; [split; [by right|done]|constructor]. Qed.

(** One chip of 24 entries, of which 23 are routed; the next 24 entries on a second chip are too much. *)
Lemma ioapic_init_outcome_witness :
  (∃ v k' w', init [first] env0 =
     Ok (tt, mkEnv w' k' (once [mkIoApic 2 v (mkRange 0 23)]) (once (replicate 23 0%nat))) ∧
     mapped k' (mkIoApic 2 v (mkRange 0 23)) 0xFEC00000) ∧
  init [first; second] env0 = Panic.
Proof.
  pose proof firmware_ok as Hf. split.
  - inversion_clear Hf as [|? ? H1 _].
    destruct (ioapic_init_outcome env0 0 [first] (vm0_room 1 ltac:(lia)) (Forall_cons_2 _ _ _ H1 (Forall_nil_2 _))
      eq_refl eq_refl) as (v & k' & w' & E & Hmap & _). exists v, k', w'. by split.
  - exact (ioapic_init_outcome env0 0 [first; second] (vm0_room 2 ltac:(lia)) Hf eq_refl eq_refl).
Defined.

(** A masked entry is written, and reads unmasked. *)
Lemma redir_write_read_witness :
  ∃ e a w1 w2 r, mapped (mem e) a 0xFEC00000 ∧ write_redir a 3 0x0100000000010023 e = Ok (tt, set_hw w1 e) ∧
    read_redir a 3 (set_hw w1 e) = Ok (r, set_hw w2 e) ∧ Z.testbit r 56 = true ∧ Z.testbit r 0 = true ∧ Z.testbit r 16 = false.
Proof.
  assert (chip 0xFEC00000) as Hc by by left.
  destruct (new_init_ok env0 0 0 2 0xFEC00000 0 (vm0_room 1 ltac:(lia)) Hc ltac:(lia))
    as (v & k' & w' & _ & _ & _ & _ & Hmap & _).
  set (a := mkIoApic _ _ _) in Hmap. exists (set_mem k' env0), a.
  destruct (redir_write_read (set_mem k' env0) a 0xFEC00000 3 0x0100000000010023 Hmap Hc
    ltac:(split; [lia|apply Z.leb_le; reflexivity]) ltac:(unfold fits; lia)) as (w1 & w2 & r & E1 & E2 & Hb & H16 & _).
  exists w1, w2, r. split; [done|]. split; [done|]. split; [done|].
  split; [exact (Hb 56 eq_refl)|]. split; [exact (Hb 0 eq_refl)|done].
Defined.
End IoApicSample.
