(* ===== verification/IntelRing.v ===== *)
(** The rings of the e1000 driver: what the driver relies on of the NIC and of the
    kernel's memory, the invariant of the driver's state, and its operations. *)
From Stdlib Require Import ZArith Lia.
From stdpp Require Import prelude list numbers gmap.
From S2P Require Import Prelude Cursor Packet Net NetBuild NetParse NetDevice PageTable Pci Intel.
Import Intel IntelOps.

(** * The NIC as the manual describes it *)
(** Descriptors are counted from the start of the NIC; [k] is in slot [k mod 256]. *)
Definition slot (k : Z) : nat := Z.to_nat (k mod 256).

(** Frames sent so far and descriptors handed over for sending; frames stored so
    far and descriptors available for storing. *)
Record View := mkView { wire : list (list Z); given : Z; arrived : list (list Z); avail : Z }.

(** The bytes behind transmit descriptor [k]. *)
Definition fetch (d : Dma) (k : Z) : option (list Z) :=
  desc ← txd d !! slot k; bytes ← ram d !! tx_addr desc; Some (take (Z.to_nat (tx_len desc)) bytes).
Definition marked (desc : LegacyTxDescriptor) : LegacyTxDescriptor :=
  mkTx (tx_addr desc) (tx_len desc) (tx_cso desc) (tx_cmd desc) (Z.lor (tx_status desc) 1)
    (tx_css desc) (tx_special desc).
(** Long frames are refused and damaged ones are not stored ([rctl]'s bits). *)
Definition frame_ok (f : list Z) : Prop := bytes_ok f ∧ zlen f ≤ 1522.
Definition page_ok (b : list Z) : Prop := length b = Packet.BUF_LEN ∧ bytes_ok b.
Definition stored (f : list Z) (desc : RxDescriptor) : Prop :=
  Z.land (rx_status desc) 1 = 1 ∧ rx_errors desc = 0 ∧ rx_len desc = zlen f.

(** What the driver must have set up for the NIC to act on its memory. *)
Record rings_ok (v : View) (d : Dma) : Prop := {
  ro_rx : length (rxd d) = 256%nat;
  ro_tx : length (txd d) = 256%nat;
  ro_given : zlen (wire v) ≤ given v ≤ zlen (wire v) + 255;
  ro_avail : zlen (arrived v) ≤ avail v ≤ zlen (arrived v) + 255;
  ro_fetch k : zlen (wire v) ≤ k < given v → is_Some (fetch d k);
  ro_buf k desc : zlen (arrived v) ≤ k < avail v → rxd d !! slot k = Some desc →
    ∃ b, ram d !! rx_addr desc = Some b ∧ page_ok b;
}.

Record tx_step (v : View) (d : Dma) (v' : View) (d' : Dma) : Prop := {
  txs_given : given v' = given v;
  txs_wire : ∃ out, wire v' = wire v ++ out ∧
    ∀ i f, out !! i = Some f → fetch d (zlen (wire v) + Z.of_nat i) = Some f;
  txs_max : zlen (wire v') ≤ given v;
  txs_len : length (txd d') = length (txd d);
  txs_done k : zlen (wire v) ≤ k < zlen (wire v') → txd d' !! slot k = marked <$> txd d !! slot k;
  txs_else j : (∀ k, zlen (wire v) ≤ k < zlen (wire v') → slot k ≠ j) → txd d' !! j = txd d !! j;
}.

Record rx_step (v : View) (d : Dma) (v' : View) (d' : Dma) : Prop := {
  rxs_avail : avail v' = avail v;
  rxs_arrived : ∃ inc, arrived v' = arrived v ++ inc ∧ Forall frame_ok inc ∧
    ∀ i f, inc !! i = Some f → ∃ desc desc' b,
      rxd d !! slot (zlen (arrived v) + Z.of_nat i) = Some desc ∧
      rxd d' !! slot (zlen (arrived v) + Z.of_nat i) = Some desc' ∧
      rx_addr desc' = rx_addr desc ∧ stored f desc' ∧
      ram d' !! rx_addr desc = Some b ∧ take (length f) b = f;
  rxs_max : zlen (arrived v') ≤ avail v;
  rxs_len : length (rxd d') = length (rxd d);
  rxs_else j : (∀ k, zlen (arrived v) ≤ k < zlen (arrived v') → slot k ≠ j) → rxd d' !! j = rxd d !! j;
  (** only the buffers available for storing are written *)
  rxs_ram a : (∀ k desc, zlen (arrived v) ≤ k < avail v → rxd d !! slot k = Some desc → rx_addr desc ≠ a) →
    ram d' !! a = ram d !! a;
  rxs_pages a b : ram d !! a = Some b → page_ok b → ∃ b', ram d' !! a = Some b' ∧ page_ok b';
}.

(** Writing [x] to a tail register moves the count up to the next descriptor whose
    slot is [x]. *)
Definition next_at (from x : Z) : Z := from + (x - from) mod 256.

(** The driver's start of the NIC: registers and values, in order. *)
Definition rx_start (base : Z) : list (Z * Z) :=
  [(0x2804 / 4, cast 32 (Z.shiftr base 32)); (0x2800 / 4, cast 32 base); (0x2808 / 4, 4096);
   (0x2810 / 4, 0); (0x2818 / 4, 255); (0x0100 / 4, 0x2038002)].
Definition tx_start (base : Z) : list (Z * Z) :=
  [(0x3804 / 4, cast 32 (Z.shiftr base 32)); (0x3800 / 4, cast 32 base); (0x3808 / 4, 4096);
   (0x3810 / 4, 0); (0x3818 / 4, 0); (0x0400 / 4, 2)].
Definition writes {H} `{Hardware H} (l : list (Z * Z)) (h : H) : H :=
  foldl (λ h w, mmio_write w.1 w.2 h) h l.
Fixpoint acts {H} `{Hardware H} (n : nat) (h : H) (d : Dma) : H * Dma :=
  match n with O => (h, d) | S n => let '(h, d) := dma h d in acts n h d end.

(** [patience] bounds what the driver waits for: a frame leaves within that many
    steps of the NIC, and the reset bit clears within that many reads.  [rate]: the
    counter's; [now]: what it showed last. *)
Class E1000 (H : Type) `{Hardware H} := {
  view : H → View;
  patience : nat;
  resetting : H → nat;
  station : Mac;
  now : H → Z;
  rate : Z;
  dma_law h d h' d' : rings_ok (view h) d → dma h d = (h', d') →
    tx_step (view h) d (view h') d' ∧ rx_step (view h) d (view h') d';
  patience_law h d : rings_ok (view h) d → zlen (wire (view h)) < given (view h) →
    zlen (wire (view h)) < zlen (wire (view (acts patience h d).1));
  tdt_law h x : view (mmio_write (0x3818 / 4) x h) =
    mkView (wire (view h)) (next_at (zlen (wire (view h))) x) (arrived (view h)) (avail (view h));
  rdt_law h x : view (mmio_write (0x2818 / 4) x h) =
    mkView (wire (view h)) (given (view h)) (arrived (view h)) (next_at (zlen (arrived (view h))) x);
  start_law h rx_base tx_base :
    view (writes (tx_start tx_base) (writes (rx_start rx_base) h)) = mkView [] 0 [] 255;
  reset_bound h : (resetting h ≤ patience)%nat;
  reset_law h v h' : mmio_read 0 h = (v, h') → Z.testbit v 26 = true → (resetting h' < resetting h)%nat;
  read_law r h v h' : mmio_read r h = (v, h') → view h' = view h;
  station_law : length station = 6%nat ∧ bytes_ok station;
  mac_law h : (mmio_read (0x5400 / 4) h).1 = le_val (take 4 station) ∧
    (mmio_read (0x5404 / 4) h).1 = le_val (drop 4 station) + 2 ^ 31;
  rate_law h : hw_mhz h = rate ∧ 0 ≤ rate;
  tsc_law h t h' : tsc h = (t, h') →
    view h' = view h ∧ 0 ≤ t ∧ now h < t ∧ now h' = t;
}.

(** * The kernel's memory: pages have one owner *)
Class KernelPages (K : Type) `{KernelMem K} := {
  pages : K → list Z → Prop;
  no_pages : K → Prop;
  pages_perm k l l' : l ≡ₚ l' → pages k l → pages k l';
  pages_nodup k l : pages k l → NoDup l;
  page_new_law k l : pages k l →
    match page_new k with
    | Ok (a, k') => pages k' (a :: l)
    | Panic => no_pages k
    | _ => False
    end;
  page_drop_law k l a : pages k (a :: l) → ∃ k', page_drop a k = Ok (tt, k') ∧ pages k' l;
}.

(** * Slots *)
Lemma slot_lt k : (slot k < 256)%nat.
Proof. unfold slot. pose proof (Z.mod_pos_bound k 256). lia. Qed.
Lemma slot_inj j k : slot j = slot k → Z.abs (j - k) < 256 → j = k.
Proof.
  unfold slot. intros E Hd. pose proof (Z.mod_pos_bound j 256). pose proof (Z.mod_pos_bound k 256).
  assert (j mod 256 = k mod 256) by lia.
  pose proof (Z.div_mod j 256). pose proof (Z.div_mod k 256). lia.
Qed.
Lemma slot_cover base j : (j < 256)%nat → ∃ k, base ≤ k < base + 256 ∧ slot k = j.
Proof.
  intros Hj. exists (base + (Z.of_nat j - base) mod 256).
  pose proof (Z.mod_pos_bound (Z.of_nat j - base) 256 ltac:(lia)). split; [lia|]. unfold slot.
  rewrite Z.add_mod_idemp_r by lia. replace (base + (Z.of_nat j - base)) with (Z.of_nat j) by lia.
  rewrite Z.mod_small; lia.
Qed.
Lemma mod_next k : (k + 256) mod 256 = k mod 256.
Proof. rewrite <-(Z.mod_add k 1 256) by lia. f_equal. Qed.
Lemma next_at_eq from k : from ≤ k < from + 256 → next_at from (k mod 256) = k.
Proof.
  intros Hk. unfold next_at. rewrite Zminus_mod_idemp_l, Z.mod_small by lia. lia.
Qed.

Lemma prefix_lookup_all {A} (l l' : list A) :
  (∀ i x, l !! i = Some x → l' !! i = Some x) → l `prefix_of` l'.
Proof.
  intros Hl. exists (drop (length l) l'). rewrite <-(take_drop (length l) l') at 1. f_equal.
  apply list_eq. intros i. destruct (decide (i < length l)%nat) as [Hi|Hi].
  - rewrite lookup_take_lt by done. destruct (lookup_lt_is_Some_2 l i Hi) as [x Hx].
    by rewrite Hx, (Hl _ _ Hx).
  - rewrite lookup_take_ge, lookup_ge_None_2 by lia. done.
Qed.

Lemma insert_perm {A} (l : list A) i x y : l !! i = Some x → x :: <[i := y]> l ≡ₚ y :: l.
Proof.
  intros Hx. pose proof (lookup_lt_Some _ _ _ Hx) as Hlt.
  rewrite insert_take_drop by done. rewrite <-(take_drop_middle l i x Hx) at 3. solve_Permutation.
Qed.

Lemma omap_insert_perm {A} (l : list (option A)) i x p :
  l !! i = Some x →
  option_list x ++ omap (λ o, o) (<[i := Some p]> l) ≡ₚ p :: omap (λ o, o) l.
Proof.
  intros Hx. pose proof (lookup_lt_Some _ _ _ Hx) as Hlt.
  rewrite insert_take_drop by done. rewrite <-(take_drop_middle l i x Hx) at 3.
  rewrite !omap_app. destruct x; cbn [omap list_omap option_list]; solve_Permutation.
Qed.

(** * The driver's invariant *)
Abbreviation the_view s := (view (hw (env s))).
Abbreviation rx s := (rx_state (nic s)).
Abbreviation tx s := (tx_state (nic s)).

Section driver.
Context {H K : Type} `{HHw : Hardware H} `{Hnic : !E1000 H} `{HKm : KernelMem K} `{Hpg : !KernelPages K}.
Implicit Types (s : St (H := H) (K := K)) (e : Env (H := H) (K := K)) (hs : list Packet) (out : list (list Z)).

Definition bus s : Dma := mkDma (rx_descs (rx s)) (tx_descs (tx s)) (lent (env s)).

(** A packet a client can hold. *)
Definition buf_ok (p : Packet) : Prop := page_ok (buffer p) ∧ 0 ≤ len p ≤ 4096.
Definition fresh (p : Packet) : Prop := page_ok (buffer p) ∧ len p = 0.

(** Descriptor [k] of the transmit ring, of the frames [out] passed to [send]. *)
Definition tx_slot s out (k : Z) : Prop := ∃ p desc b,
  tx_packets (tx s) !! slot k = Some (Some p) ∧ tx_descs (tx s) !! slot k = Some desc ∧
  tx_addr desc = paddr p ∧ lent (env s) !! paddr p = Some b ∧ page_ok b ∧
  0 ≤ len p ≤ 4096 ∧ out !! Z.to_nat k = Some (take (Z.to_nat (tx_len desc)) b) ∧
  Z.land (tx_status desc) 1 = (if k <? zlen (wire (the_view s)) then 1 else 0).
(** Descriptor [k] of the receive ring. *)
Definition rx_slot s (k : Z) : Prop := ∃ p desc b,
  rx_packets (rx s) !! slot k = Some p ∧ rx_descs (rx s) !! slot k = Some desc ∧
  rx_addr desc = paddr p ∧ lent (env s) !! paddr p = Some b ∧ page_ok b ∧
  match arrived (the_view s) !! Z.to_nat k with
  | Some f => stored f desc ∧ take (length f) b = f
  | None => Z.land (rx_status desc) 1 = 0
  end.

(** The packets with the driver and its clients, by owner. *)
Definition owned s hs : list Packet :=
  rx_packets (rx s) ++ omap (λ o, o) (tx_packets (tx s)) ++ packets (nic s) ++ hs.

(** [hs]: the packets clients hold; [out]: the frames passed to [send]; [r]: the
    frames returned by [recv]. *)
Record inv s hs out (r : Z) (others : list Z) : Prop := {
  i_regs : regs (nic s) = NicRegisters_default;
  i_tail : tx_tail (tx s) = zlen out;
  i_max : zlen out < 2 ^ 64;
  i_given : zlen (wire (the_view s)) ≤ given (the_view s) ≤ zlen out;
  i_head : 0 ≤ tx_head (tx s) ≤ zlen (wire (the_view s));
  i_room : zlen out - tx_head (tx s) ≤ 255;
  i_full : zlen out - tx_head (tx s) = 255 → given (the_view s) = zlen out;
  i_wire : wire (the_view s) `prefix_of` out;
  i_txd : length (tx_descs (tx s)) = 256%nat;
  i_txp : length (tx_packets (tx s)) = 256%nat;
  i_tx k : 0 ≤ k → zlen out - 256 ≤ k < zlen out → tx_slot s out k;
  i_none k : zlen out ≤ k < 256 → tx_packets (tx s) !! slot k = Some None;
  i_rxd : length (rx_descs (rx s)) = 256%nat;
  i_rxp : length (rx_packets (rx s)) = 256%nat;
  i_pos : 0 ≤ r;
  i_rhead : rx_head (rx s) = r mod 256;
  i_avail : avail (the_view s) = r + 255;
  i_arrived : r ≤ zlen (arrived (the_view s)) ≤ r + 255;
  i_frames : Forall frame_ok (arrived (the_view s));
  i_rx k : r ≤ k < r + 256 → rx_slot s k;
  i_pool : Forall fresh (packets (nic s));
  i_held : Forall buf_ok hs;
  i_pages : pages (mem (env s)) (others ++ (paddr <$> owned s hs));
}.

(** ** Distinct buffers *)
Lemma owned_nodup s hs out r others : inv s hs out r others → NoDup (paddr <$> owned s hs).
Proof. intros Hi. pose proof (pages_nodup _ _ (i_pages _ _ _ _ _ Hi)) as Hn. by apply NoDup_app in Hn as (_ & _ & ?). Qed.

Lemma rx_tx_apart s hs out r others i j p q : inv s hs out r others →
  rx_packets (rx s) !! i = Some p → tx_packets (tx s) !! j = Some (Some q) → paddr p ≠ paddr q.
Proof.
  intros Hi Hp Hq E. pose proof (owned_nodup _ _ _ _ _ Hi) as Hn. unfold owned in Hn.
  rewrite fmap_app in Hn. apply NoDup_app in Hn as (_ & Hd & _).
  apply (Hd (paddr p)); [by eapply list_elem_of_fmap_2, list_elem_of_lookup_2|].
  rewrite fmap_app. apply elem_of_app. left. rewrite E. apply list_elem_of_fmap_2.
  apply list_elem_of_omap. exists (Some q). split; [by eapply list_elem_of_lookup_2|done].
Qed.
Lemma rx_inj s hs out r others i j p q : inv s hs out r others →
  rx_packets (rx s) !! i = Some p → rx_packets (rx s) !! j = Some q → paddr p = paddr q → i = j.
Proof.
  intros Hi Hp Hq E. pose proof (owned_nodup _ _ _ _ _ Hi) as Hn. unfold owned in Hn.
  rewrite fmap_app in Hn. apply NoDup_app in Hn as (Hn & _ & _).
  eapply (NoDup_lookup _ _ _ (paddr p) Hn); rewrite list_lookup_fmap; [by rewrite Hp|rewrite Hq; simpl; by rewrite E].
Qed.

(** ** What the NIC does keeps the invariant *)
Lemma inv_rings s hs out r others : inv s hs out r others → rings_ok (the_view s) (bus s).
Proof.
  intros Hi. split; cbn [bus rxd txd ram].
  - apply Hi.
  - apply Hi.
  - pose proof (i_given _ _ _ _ _ Hi). pose proof (i_head _ _ _ _ _ Hi). pose proof (i_room _ _ _ _ _ Hi). lia.
  - pose proof (i_avail _ _ _ _ _ Hi). pose proof (i_arrived _ _ _ _ _ Hi). lia.
  - intros k Hk. pose proof (i_given _ _ _ _ _ Hi). pose proof (i_head _ _ _ _ _ Hi). pose proof (i_room _ _ _ _ _ Hi).
    destruct (i_tx _ _ _ _ _ Hi k) as (p & desc & b & _ & Hd & Ha & Hb & _); [lia|lia|].
    unfold fetch, bus; cbn [txd ram]. rewrite Hd. cbn. rewrite Ha, Hb. by eexists.
  - intros k desc Hk Hd. pose proof (i_avail _ _ _ _ _ Hi). pose proof (i_arrived _ _ _ _ _ Hi).
    destruct (i_rx _ _ _ _ _ Hi k) as (p & desc' & b & _ & Hd' & Ha & Hb & Hok & _); [lia|].
    simplify_eq. exists b. by rewrite Ha.
Qed.

Definition after s (h : H) (d : Dma) : St :=
  mkSt (mkEnv h (mem (env s)) (ram d))
    (mkIntelNic (regs (nic s)) (mmio (nic s)) (mac (nic s))
       (mkRxState (rx_base (rx s)) (rxd d) (rx_packets (rx s)) (rx_head (rx s)))
       (mkTxState (tx_base (tx s)) (txd d) (tx_packets (tx s)) (tx_head (tx s)) (tx_tail (tx s)))
       (packets (nic s)) (packets_cap (nic s))).

Lemma land_lor_1 x : Z.land (Z.lor x 1) 1 = 1.
Proof. rewrite Z.land_lor_distr_l. change (Z.land 1 1) with 1.
  apply Z.bits_inj'. intros i Hi. rewrite Z.lor_spec, Z.land_spec.
  destruct (decide (i = 0)) as [->|]; [by rewrite orb_true_r|].
  assert (Z.testbit 1 i = false) as -> by (apply (Z.testbit_false 1 i Hi); rewrite Z.div_small; [done|];
    split; [lia|]; apply Z.pow_gt_1; lia).
  by rewrite andb_false_r.
Qed.

(** The buffer of a packet that is not in the receive ring stays. *)
Lemma ram_kept s hs out r others h' d' p :
  inv s hs out r others → rx_step (the_view s) (bus s) (view h') d' →
  (∀ k q, zlen (arrived (the_view s)) ≤ k < r + 255 → rx_packets (rx s) !! slot k = Some q → paddr q ≠ paddr p) →
  ram d' !! paddr p = lent (env s) !! paddr p.
Proof.
  intros Hi Hs Hne. rewrite (rxs_ram _ _ _ _ Hs); [done|]. intros k desc Hk Hd.
  rewrite (i_avail _ _ _ _ _ Hi) in Hk. pose proof (i_arrived _ _ _ _ _ Hi).
  destruct (i_rx _ _ _ _ _ Hi k) as (q & desc' & b & Hq & Hd' & Ha & _); [lia|].
  cbn [bus rxd] in Hd. simplify_eq. rewrite Ha. by eapply Hne.
Qed.

Lemma dma_tx_slot s hs out r others h' d' k :
  inv s hs out r others → tx_step (the_view s) (bus s) (view h') d' → rx_step (the_view s) (bus s) (view h') d' →
  0 ≤ k → zlen out - 256 ≤ k < zlen out → tx_slot (after s h' d') out k.
Proof.
  intros Hi Ht Hr H0 Hk. destruct (i_tx _ _ _ _ _ Hi k H0 Hk) as (p & desc & b & Hp & Hd & Ha & Hb & Hlb & Hl & Ho & Hst).
  pose proof (i_given _ _ _ _ _ Hi) as Hg. pose proof (i_head _ _ _ _ _ Hi). pose proof (i_room _ _ _ _ _ Hi).
  pose proof (txs_max _ _ _ _ Ht) as Hmax. destruct (txs_wire _ _ _ _ Ht) as (o & Hw & _).
  assert (zlen (wire (the_view s)) ≤ zlen (wire (view h'))) as Hle by (rewrite Hw; unfold zlen; rewrite length_app; lia).
  assert (ram d' !! paddr p = Some b) as Hb'.
  { rewrite (ram_kept s hs out r others h' d' p Hi Hr); [done|]. intros k' q _ Hq. by eapply rx_tx_apart. }
  destruct (decide (zlen (wire (the_view s)) ≤ k < zlen (wire (view h')))) as [Hin|Hout].
  - exists p, (marked desc), b. cbn [after env hw lent nic tx_state tx_packets tx_descs marked tx_addr tx_len tx_status].
    rewrite (txs_done _ _ _ _ Ht k Hin). cbn [bus txd]. rewrite Hd, land_lor_1.
    destruct (Z.ltb_spec k (zlen (wire (view h')))); [|lia]. split_and!; done || lia.
  - exists p, desc, b. cbn [after env hw lent nic tx_state tx_packets tx_descs].
    rewrite (txs_else _ _ _ _ Ht (slot k)).
    2:{ intros k' Hk' E. apply slot_inj in E; lia. }
    replace (k <? zlen (wire (view h'))) with (k <? zlen (wire (the_view s))).
    2:{ destruct (Z.ltb_spec k (zlen (wire (the_view s)))), (Z.ltb_spec k (zlen (wire (view h')))); lia || done. }
    split_and!; done || lia.
Qed.

Lemma dma_rx_slot s hs out r others h' d' k :
  inv s hs out r others → rx_step (the_view s) (bus s) (view h') d' →
  r ≤ k < r + 256 → rx_slot (after s h' d') k.
Proof.
  intros Hi Hr Hk. destruct (i_rx _ _ _ _ _ Hi k Hk) as (p & desc & b & Hp & Hd & Ha & Hb & Hok & Hf).
  pose proof (i_arrived _ _ _ _ _ Hi) as Harr. pose proof (i_pos _ _ _ _ _ Hi) as H0.
  destruct (rxs_arrived _ _ _ _ Hr) as (inc & Hinc & _ & Hst).
  pose proof (rxs_max _ _ _ _ Hr) as Hmax. rewrite (i_avail _ _ _ _ _ Hi) in Hmax.
  assert (zlen (arrived (view h')) = zlen (arrived (the_view s)) + zlen inc) as Hlen
    by (rewrite Hinc; unfold zlen; rewrite length_app; lia).
  assert (0 ≤ zlen inc) by (unfold zlen; lia).
  unfold rx_slot. cbn [after env hw lent nic rx_state rx_packets rx_descs].
  assert (¬ zlen (arrived (the_view s)) ≤ k < zlen (arrived (view h')) → rxd d' !! slot k = Some desc) as Helse.
  { intros Hout. rewrite (rxs_else _ _ _ _ Hr (slot k)); [done|].
    intros k' Hk' E. apply slot_inj in E; lia. }
  destruct (Z.lt_ge_cases k (zlen (arrived (the_view s)))) as [Hlt|Hge].
  - exists p, desc, b. rewrite Helse by lia.
    rewrite (ram_kept s hs out r others h' d' p Hi Hr).
    2:{ intros k' q Hk' Hq E. pose proof (rx_inj _ _ _ _ _ _ _ _ _ Hi Hq Hp E) as Es. apply slot_inj in Es; lia. }
    rewrite Hinc, lookup_app_l by (unfold zlen in *; lia). done.
  - destruct (rxs_pages _ _ _ _ Hr _ _ Hb Hok) as (b' & Hb' & Hok').
    destruct (Z.lt_ge_cases k (zlen (arrived (view h')))) as [Hlt'|Hge'].
    + destruct (lookup_lt_is_Some_2 inc (Z.to_nat (k - zlen (arrived (the_view s))))) as [f Hfi]; [unfold zlen in *; lia|].
      destruct (Hst _ _ Hfi) as (desc0 & desc' & b0 & Hd0 & Hd' & Ha' & Hsf & Hb0 & Htk).
      replace (zlen (arrived (the_view s)) + _) with k in Hd0, Hd' by lia.
      cbn [bus rxd] in Hd0. rewrite Hd in Hd0. injection Hd0 as <-. rewrite Ha, Hb' in Hb0. injection Hb0 as <-.
      exists p, desc', b'. rewrite Ha', Hinc.
      rewrite lookup_app_r by (unfold zlen in *; lia).
      replace (Z.to_nat k - length (arrived (the_view s)))%nat
        with (Z.to_nat (k - zlen (arrived (the_view s)))) by (unfold zlen; lia).
      rewrite Hfi. done.
    + exists p, desc, b'. rewrite Helse by lia. rewrite (lookup_ge_None_2 (arrived (view h'))) by (unfold zlen in *; lia).
      rewrite lookup_ge_None_2 in Hf by (unfold zlen in *; lia). done.
Qed.

Lemma dma_wire s hs out r others h' d' :
  inv s hs out r others → tx_step (the_view s) (bus s) (view h') d' → wire (view h') `prefix_of` out.
Proof.
  intros Hi Ht. pose proof (i_given _ _ _ _ _ Hi) as Hg. pose proof (i_head _ _ _ _ _ Hi). pose proof (i_room _ _ _ _ _ Hi).
  pose proof (txs_max _ _ _ _ Ht) as Hmax. destruct (txs_wire _ _ _ _ Ht) as (o & Hw & Hf).
  apply prefix_lookup_all. intros i x Hx. pose proof (lookup_lt_Some _ _ _ Hx) as Hlt. rewrite Hw in Hx.
  apply lookup_app_Some in Hx as [Hx|[Hge Hx]].
  - by eapply prefix_lookup_Some; [|apply Hi].
  - pose proof (Hf _ _ Hx) as Hfe.
    replace (zlen (wire (the_view s)) + _) with (Z.of_nat i) in Hfe by (unfold zlen; lia).
    unfold zlen in *. destruct (i_tx _ _ _ _ _ Hi (Z.of_nat i)) as (p & desc & b & _ & Hd & Ha & Hb & _ & _ & Ho & _);
      [lia|unfold zlen; lia|].
    unfold fetch, bus in Hfe. cbn [txd ram] in Hfe. rewrite Hd in Hfe. cbn in Hfe. rewrite Ha, Hb in Hfe.
    cbn in Hfe. rewrite Nat2Z.id in Ho. congruence.
Qed.

Lemma inv_dma s hs out r others h' d' :
  inv s hs out r others → dma (hw (env s)) (bus s) = (h', d') → inv (after s h' d') hs out r others.
Proof.
  intros Hi E. destruct (dma_law _ _ _ _ (inv_rings _ _ _ _ _ Hi) E) as [Ht Hr].
  destruct (txs_wire _ _ _ _ Ht) as (o & Hw & _). destruct (rxs_arrived _ _ _ _ Hr) as (inc & Hinc & Hok & _).
  assert (zlen (wire (the_view s)) ≤ zlen (wire (view h'))) as Hle by (rewrite Hw; unfold zlen; rewrite length_app; lia).
  assert (zlen (arrived (the_view s)) ≤ zlen (arrived (view h'))) as Hle' by (rewrite Hinc; unfold zlen; rewrite length_app; lia).
  pose proof (txs_max _ _ _ _ Ht). pose proof (rxs_max _ _ _ _ Hr) as Hmax. rewrite (i_avail _ _ _ _ _ Hi) in Hmax.
  pose proof (i_given _ _ _ _ _ Hi). pose proof (i_head _ _ _ _ _ Hi). pose proof (i_arrived _ _ _ _ _ Hi).
  split; cbn [after env hw mem nic regs rx_state tx_state rx_descs rx_packets rx_head tx_descs tx_packets
              tx_head tx_tail packets]; try apply Hi.
  - rewrite (txs_given _ _ _ _ Ht). lia.
  - lia.
  - rewrite (txs_given _ _ _ _ Ht). apply Hi.
  - by eapply dma_wire.
  - rewrite (txs_len _ _ _ _ Ht). apply Hi.
  - intros k Hk0 Hk. by eapply dma_tx_slot.
  - rewrite (rxs_len _ _ _ _ Hr). apply Hi.
  - rewrite (rxs_avail _ _ _ _ Hr). apply Hi.
  - lia.
  - rewrite Hinc. apply Forall_app. split; [apply Hi|done].
  - intros k Hk. by eapply dma_rx_slot.
Qed.

Lemma poll_ok s hs out r others :
  inv s hs out r others → ∃ h' d', dma (hw (env s)) (bus s) = (h', d') ∧
    poll s = Ok (tt, after s h' d') ∧ inv (after s h' d') hs out r others ∧
    arrived (the_view s) `prefix_of` arrived (view h').
Proof.
  intros Hi. destruct (dma (hw (env s)) (bus s)) as [h' d'] eqn:E. exists h', d'. split; [done|].
  destruct (dma_law _ _ _ _ (inv_rings _ _ _ _ _ Hi) E) as [_ Hr].
  destruct (rxs_arrived _ _ _ _ Hr) as (inc & Hinc & _).
  split; [|split; [by eapply inv_dma|by exists inc]]. unfold poll. fold (bus s). by rewrite E.
Qed.

(** ** The free list *)
Definition with_pool s (k : K) (ps : list Packet) : St :=
  mkSt (mkEnv (hw (env s)) k (lent (env s)))
    (mkIntelNic (regs (nic s)) (mmio (nic s)) (mac (nic s)) (rx s) (tx s) ps (packets_cap (nic s))).

Lemma inv_pool s hs out r others k ps hs' :
  inv s hs out r others → Forall fresh ps → Forall buf_ok hs' →
  pages k (others ++ (paddr <$> owned (with_pool s k ps) hs')) → inv (with_pool s k ps) hs' out r others.
Proof. intros Hi Hps Hhs Hpg'. split; try apply Hi; done. Qed.

Lemma new_fresh a : fresh (Packet.new a).
Proof.
  split; [|done]. split; [apply length_replicate|]. apply Forall_replicate. by unfold fits.
Qed.
Lemma fresh_buf p : fresh p → buf_ok p.
Proof. intros [? ?]. split; [done|lia]. Qed.

Lemma allocate_ok s hs out r others :
  inv s hs out r others →
  match allocate_packet s with
  | Ok (p, s') => fresh p ∧ inv s' (p :: hs) out r others ∧ ∃ k ps, s' = with_pool s k ps
  | Panic => packets (nic s) = [] ∧ no_pages (mem (env s))
  | _ => False
  end.
Proof.
  intros Hi. pose proof (i_pages _ _ _ _ _ Hi) as Hp. pose proof (i_pool _ _ _ _ _ Hi) as Hpool.
  unfold allocate_packet. rewrite (M_bind_Ok _ _ _ s s) by done. unfold owned in Hp.
  destruct (packets (nic s)) as [|p ps] eqn:Eps.
  - unfold on_env, packet_new, on_mem, mbind, M_bind.
    pose proof (page_new_law _ _ Hp) as Hl.
    destruct (page_new (mem (env s))) as [[a k]| | |]; [|done|by split|done].
    split; [apply new_fresh|].
    assert (mkSt (mkEnv (hw (env s)) k (lent (env s))) (nic s) = with_pool s k []) as ->.
    { unfold with_pool. rewrite <-Eps. destruct s as [e n]. by destruct n. }
    split; [|by eexists _, _]. apply inv_pool with hs; [done|done| |].
    + constructor; [apply fresh_buf, new_fresh|apply Hi].
    + eapply pages_perm; [|exact Hl]. unfold owned. cbn [with_pool nic rx_state tx_state packets app].
      rewrite !fmap_app. cbn [fmap list_fmap Packet.new paddr]. solve_Permutation.
  - apply Forall_cons_iff in Hpool as [Hf Hpool]. split; [done|].
    unfold set_packets, mbind, M_bind, mret, M_ret.
    assert (∀ n ps', mkSt (env s) (mkIntelNic (regs (nic s)) (mmio (nic s)) (mac (nic s)) (rx s) (tx s) ps' n)
      = mkSt (mkEnv (hw (env s)) (mem (env s)) (lent (env s)))
        (mkIntelNic (regs (nic s)) (mmio (nic s)) (mac (nic s)) (rx s) (tx s) ps' n)) as ->.
    { intros. by destruct s as [[]]. }
    split; [|by eexists _, _]. apply (inv_pool s hs _ _ _ (mem (env s)) ps (p :: hs)); [done|done| |].
    + constructor; [by apply fresh_buf|apply Hi].
    + eapply pages_perm; [|exact Hp]. unfold owned. cbn [with_pool nic rx_state tx_state packets].
      rewrite !fmap_app. cbn [fmap list_fmap app]. solve_Permutation.
Qed.

(** [l]: the pages that neither the packet nor the free list holds. *)
Lemma release_run s p l :
  pages (mem (env s)) (l ++ paddr p :: (paddr <$> packets (nic s))) → page_ok (buffer p) → Forall fresh (packets (nic s)) →
  ∃ k ps, release_packet p s = Ok (tt, with_pool s k ps) ∧ Forall fresh ps ∧ pages k (l ++ (paddr <$> ps)).
Proof.
  intros Hp Hb Hpool. unfold release_packet. rewrite (M_bind_Ok _ _ _ s s) by done.
  destruct (Nat.ltb (length (packets (nic s))) (packets_cap (nic s))).
  - exists (mem (env s)), (Packet.clear p :: packets (nic s)). split; [by destruct s as [[]]|].
    split; [by constructor|done].
  - destruct (page_drop_law (mem (env s)) (l ++ (paddr <$> packets (nic s))) (paddr p)) as (k & E & Hp').
    { eapply pages_perm; [|exact Hp]. solve_Permutation. }
    exists k, (packets (nic s)). split; [|done]. unfold on_env, on_mem. rewrite E. destruct s as [e n]. by destruct n.
Qed.

Lemma release_ok s p hs out r others :
  inv s (p :: hs) out r others →
  ∃ s', release_packet p s = Ok (tt, s') ∧ inv s' hs out r others ∧ ∃ k ps, s' = with_pool s k ps.
Proof.
  intros Hi. pose proof (i_pages _ _ _ _ _ Hi) as Hp. pose proof (i_held _ _ _ _ _ Hi) as Hh.
  apply Forall_cons_iff in Hh as [[Hb _] Hh].
  destruct (release_run s p (others ++ (paddr <$> rx_packets (rx s) ++ omap (λ o, o) (tx_packets (tx s)) ++ hs)))
    as (k & ps & E & Hf & Hpg').
  - eapply pages_perm; [|exact Hp]. unfold owned. rewrite !fmap_app. cbn [fmap list_fmap]. solve_Permutation.
  - done.
  - apply Hi.
  - exists (with_pool s k ps). split; [done|]. split; [|by eexists _, _]. apply inv_pool with (p :: hs); try done.
    eapply pages_perm; [|exact Hpg']. unfold owned. cbn [with_pool nic rx_state tx_state packets].
    rewrite !fmap_app. solve_Permutation.
Qed.

(** ** Receive *)
Lemma held_apart s hs out r others p q :
  inv s (p :: hs) out r others →
  q ∈ rx_packets (rx s) ∨ q ∈ omap (λ o, o) (tx_packets (tx s)) → paddr q ≠ paddr p.
Proof.
  intros Hi Hq E. pose proof (owned_nodup _ _ _ _ _ Hi) as Hn. unfold owned in Hn.
  assert (rx_packets (rx s) ++ omap (λ o, o) (tx_packets (tx s)) ++ packets (nic s) ++ p :: hs
    ≡ₚ p :: (rx_packets (rx s) ++ omap (λ o, o) (tx_packets (tx s))) ++ packets (nic s) ++ hs) as Hp by solve_Permutation.
  rewrite Hp in Hn. cbn [fmap list_fmap] in Hn. apply NoDup_cons in Hn as [Hn _]. apply Hn.
  rewrite <-E. apply list_elem_of_fmap_2. rewrite !elem_of_app. tauto.
Qed.
Lemma tx_elem s j q : tx_packets (tx s) !! j = Some (Some q) → q ∈ omap (λ o, o) (tx_packets (tx s)).
Proof. intros Hq. apply list_elem_of_omap. exists (Some q). split; [by eapply list_elem_of_lookup_2|done]. Qed.

(** The state after a receive: [np] takes the place of [old]. *)
Definition swapped s (r : Z) (np old : Packet) : St :=
  mkSt (mkEnv (mmio_write (0x2818 / 4) (r mod 256) (hw (env s))) (mem (env s))
         (<[paddr np := buffer np]> (delete (paddr old) (lent (env s)))))
    (mkIntelNic (regs (nic s)) (mmio (nic s)) (mac (nic s))
       (mkRxState (rx_base (rx s)) (<[slot r := rx_default (paddr np)]> (rx_descs (rx s)))
          (<[slot r := np]> (rx_packets (rx s))) ((r mod 256 + 1) mod 256))
       (tx s) (packets (nic s)) (packets_cap (nic s))).

Lemma swapped_ok s hs out r others np old b n :
  inv s (np :: hs) out r others → fresh np → r < zlen (arrived (the_view s)) →
  rx_packets (rx s) !! slot r = Some old → page_ok b → 0 ≤ n ≤ 4096 →
  inv (swapped s r np old) (mkPacket b n (paddr old) :: hs) out (r + 1) others.
Proof.
  intros Hi Hf Hr Hold Hb Hn. pose proof (i_arrived _ _ _ _ _ Hi) as Harr. pose proof (i_pos _ _ _ _ _ Hi) as H0.
  assert (∀ k p, r < k < r + 256 → rx_packets (rx s) !! slot k = Some p → paddr p ≠ paddr old) as Hne.
  { intros k p Hk Hp E. pose proof (rx_inj _ _ _ _ _ _ _ _ _ Hi Hp Hold E) as Es. apply slot_inj in Es; lia. }
  assert (∀ a, a ≠ paddr np → a ≠ paddr old → (<[paddr np := buffer np]> (delete (paddr old) (lent (env s)))) !! a
    = lent (env s) !! a) as Hlent.
  { intros a Ha1 Ha2. by rewrite lookup_insert_ne, lookup_delete_ne by done. }
  assert (the_view (swapped s r np old) = mkView (wire (the_view s)) (given (the_view s)) (arrived (the_view s)) (r + 256)) as Hv.
  { cbn [swapped env hw]. rewrite rdt_law. f_equal. rewrite <-(next_at_eq (zlen (arrived (the_view s))) (r + 256)) by lia.
    by rewrite mod_next. }
  pose proof (slot_lt r) as Hsl.
  split; try rewrite Hv; cbn [wire given arrived avail swapped nic regs tx_state rx_state tx_tail tx_head tx_descs tx_packets
      rx_descs rx_packets rx_head packets env mem]; try apply Hi; try done.
  - intros k Hk0 Hk. destruct (i_tx _ _ _ _ _ Hi k Hk0 Hk) as (p & desc & b' & Hp & Hd & Ha & Hl & Hrest).
    unfold tx_slot. rewrite Hv. cbn [swapped env lent nic tx_state wire]. exists p, desc, b'.
    rewrite Hlent; [by split_and!; try apply Hrest| |].
    + eapply held_apart; [exact Hi|]. right. by eapply tx_elem.
    + intros E. by eapply (rx_tx_apart _ _ _ _ _ _ _ _ _ Hi Hold Hp).
  - rewrite length_insert. apply Hi.
  - rewrite length_insert. apply Hi.
  - lia.
  - by rewrite Z.add_mod_idemp_l by lia.
  - lia.
  - lia.
  - intros k Hk. unfold rx_slot. rewrite Hv. cbn [swapped env lent nic rx_state rx_packets rx_descs arrived].
    destruct (decide (k = r + 256)) as [->|Hkr].
    + replace (slot (r + 256)) with (slot r).
      2:{ unfold slot. by rewrite mod_next. }
      exists np, (rx_default (paddr np)), (buffer np).
      rewrite !list_lookup_insert_eq, lookup_insert_eq by (rewrite ?(i_rxd _ _ _ _ _ Hi), ?(i_rxp _ _ _ _ _ Hi); done).
      rewrite lookup_ge_None_2 by (unfold zlen in *; lia). split_and!; try done. apply Hf.
    + destruct (i_rx _ _ _ _ _ Hi k ltac:(lia)) as (p & desc & b' & Hp & Hd & Ha & Hl & Hrest).
      exists p, desc, b'. assert (slot r ≠ slot k) by (intros E; apply slot_inj in E; lia).
      rewrite !list_lookup_insert_ne by done.
      rewrite Hlent; [done| |].
      * eapply held_apart; [exact Hi|]. left. by eapply list_elem_of_lookup_2.
      * apply (Hne k); [lia|done].
  - constructor; [done|]. pose proof (i_held _ _ _ _ _ Hi) as Hh. by apply Forall_cons_iff in Hh as [_ ?].
  - eapply pages_perm; [|exact (i_pages _ _ _ _ _ Hi)]. unfold owned. cbn [swapped nic rx_state tx_state rx_packets packets].
    apply Permutation_app; [done|].
    pose proof (fmap_Permutation paddr _ _ (insert_perm _ _ _ np Hold)) as Hp.
    change (paddr <$> old :: <[slot r := np]> (rx_packets (rx s)))
      with (paddr old :: (paddr <$> <[slot r := np]> (rx_packets (rx s)))) in Hp.
    rewrite !fmap_app. cbn [fmap list_fmap paddr] in Hp |- *.
    change (list_fmap _ _ ?f ?l) with (f <$> l) in Hp |- *.
    transitivity ((paddr np :: (paddr <$> rx_packets (rx s))) ++ (paddr <$> omap (λ o, o) (tx_packets (tx s)))
      ++ (paddr <$> packets (nic s)) ++ (paddr <$> hs)); [solve_Permutation|].
    rewrite <-Hp. solve_Permutation.
Qed.

Lemma rx_desc_ok s hs out r others :
  inv s hs out r others → ∃ p desc b,
    rx_packets (rx s) !! slot r = Some p ∧ lent (env s) !! paddr p = Some b ∧ page_ok b ∧
    rx_desc (r mod 256) s = Ok (desc, s) ∧
    match arrived (the_view s) !! Z.to_nat r with
    | Some f => stored f desc ∧ take (length f) b = f
    | None => Z.land (rx_status desc) 1 = 0
    end.
Proof.
  intros Hi. destruct (i_rx _ _ _ _ _ Hi r ltac:(lia)) as (p & desc & b & Hp & Hd & Ha & Hl & Hok & Hf).
  exists p, desc, b. split_and!; try done.
  unfold rx_desc. rewrite (M_bind_Ok _ _ _ s s) by done. fold (slot r). unfold lift. by rewrite (index_lookup _ _ _ Hd).
Qed.

(** The last part of [recv], from the allocation on. *)
Lemma recv_frame s hs out r others f :
  inv s hs out r others → arrived (the_view s) !! Z.to_nat r = Some f →
  match (new_packet ← allocate_packet;
    s ← get;
    old ← lift (index (rx_packets (rx s)) (Z.to_nat (r mod 256)));
    ps ← lift (store (rx_packets (rx s)) (Z.to_nat (r mod 256)) new_packet);
    old ← on_env (reclaim old);
    _ ← on_env (lend new_packet);
    ds ← lift (store (rx_descs (rx s)) (Z.to_nat (r mod 256)) (rx_default (Packet.phys_addr new_packet)));
    _ ← on_env (write (rdt (regs (nic s))) (cast 32 (r mod 256)));
    _ ← set_rx (mkRxState (rx_base (rx s)) ds ps ((r mod 256 + 1) mod zlen ds));
    mret (Some (Packet.set_len (zlen f) old))) s with
  | Ok (Some p, s') => inv s' (p :: hs) out (r + 1) others ∧ wf_packet p ∧ Packet.raw (E := unit) p = Ok f ∧
      arrived (the_view s') = arrived (the_view s)
  | Panic => no_pages (mem (env s))
  | _ => False
  end.
Proof.
  intros Hi Hf. pose proof (allocate_ok _ _ _ _ _ Hi) as Ha. unfold mbind at 1, M_bind at 1.
  destruct (allocate_packet s) as [[np s1]| | |]; [|done|by destruct Ha|done].
  destruct Ha as (Hnp & Hi1 & (k & ps0 & Es1)).
  assert (the_view s1 = the_view s) as Hv by (by rewrite Es1). rewrite <-Hv in Hf |- *. clear Es1 Hv.
  rewrite (M_bind_Ok _ _ _ s1 s1) by done. fold (slot r).
  destruct (rx_desc_ok _ _ _ _ _ Hi1) as (old & desc & b & Hold & Hb & Hok & _ & Hst). rewrite Hf in Hst.
  destruct Hst as [_ Htk].
  assert (Forall frame_ok (arrived (the_view s1))) as Hfr by apply Hi1.
  rewrite Forall_forall in Hfr. destruct (Hfr f) as [Hfb Hfl]; [by eapply list_elem_of_lookup_2|].
  pose proof (slot_lt r) as Hs. pose proof (Z.mod_pos_bound r 256 ltac:(lia)) as Hm.
  assert (∀ A (l : list A) x, length l = 256%nat → store (E := unit) l (slot r) x = Ok (<[slot r := x]> l)) as Hstore.
  { intros A l x Hl. unfold store. by rewrite Hl, (proj2 (Nat.ltb_lt _ _) Hs). }
  rewrite (M_bind_Ok _ _ s1 old s1) by (unfold lift; by rewrite (index_lookup _ _ _ Hold)).
  rewrite (M_bind_Ok _ _ s1 (<[slot r := np]> (rx_packets (rx s1))) s1) by (unfold lift; by rewrite Hstore by apply Hi1).
  set (e2 := set_lent (delete (paddr old) (lent (env s1))) (env s1)).
  rewrite (M_bind_Ok _ _ s1 (mkPacket b (len old) (paddr old)) (mkSt e2 (nic s1)))
    by (unfold on_env, reclaim; by rewrite Hb).
  set (e3 := set_lent (<[paddr np := buffer np]> (lent e2)) e2).
  rewrite (M_bind_Ok _ _ _ tt (mkSt e3 (nic s1))) by done.
  rewrite (M_bind_Ok _ _ _ (<[slot r := rx_default (Packet.phys_addr np)]> (rx_descs (rx s1))) (mkSt e3 (nic s1)))
    by (unfold lift; by rewrite Hstore by apply Hi1).
  unfold on_env, write, mbind, M_bind, set_rx, mret, M_ret. cbn [env nic].
  rewrite (i_regs _ _ _ _ _ Hi1). change (rdt NicRegisters_default) with 0x2818. unfold cast.
  rewrite (Z.mod_small (r mod 256)) by lia.
  assert (zlen (<[slot r := rx_default (Packet.phys_addr np)]> (rx_descs (rx s1))) = 256) as ->.
  { unfold zlen. by rewrite length_insert, (i_rxd _ _ _ _ _ Hi1). }
  match goal with |- inv ?st _ _ _ _ ∧ _ => assert (st = swapped s1 r np old) as -> end.
  { unfold swapped, e3, e2, set_lent, set_hw. cbn [hw mem lent]. by rewrite (i_regs _ _ _ _ _ Hi1). }
  assert (r < zlen (arrived (the_view s1))) as Hlt.
  { apply lookup_lt_Some in Hf. pose proof (i_pos _ _ _ _ _ Hi1). unfold zlen. lia. }
  assert (0 ≤ zlen f ≤ 4096) as Hlen by (unfold zlen in *; lia).
  split; [|split; [|split]].
  - unfold Packet.set_len. cbn [buffer paddr]. by eapply swapped_ok.
  - split; cbn [Packet.set_len buffer len]; [apply Hok|apply Hok|done].
  - unfold Packet.raw, Packet.set_len, slice, get_range. cbn [buffer len].
    assert (zlen b = 4096) as -> by (unfold zlen; by rewrite (proj1 Hok)).
    rewrite (proj2 (Z.leb_le 0 (zlen f))), (proj2 (Z.leb_le _ 4096)) by lia.
    cbn [Z.leb andb Z.compare unwrap]. rewrite Z.sub_0_r. unfold zlen. rewrite Nat2Z.id. change (Z.to_nat 0) with 0%nat. rewrite drop_0. by rewrite Htk.
  - cbn [env hw set_hw]. by rewrite rdt_law.
Qed.

Lemma recv_ok s hs out r others :
  inv s hs out r others →
  match recv s with
  | Ok (None, s') => inv s' hs out r others ∧ zlen (arrived (the_view s')) = r ∧
      arrived (the_view s) `prefix_of` arrived (the_view s')
  | Ok (Some p, s') => inv s' (p :: hs) out (r + 1) others ∧ wf_packet p ∧
      arrived (the_view s) `prefix_of` arrived (the_view s') ∧
      ∃ f, arrived (the_view s') !! Z.to_nat r = Some f ∧ Packet.raw (E := unit) p = Ok f
  | Panic => no_pages (mem (env s))
  | _ => False
  end.
Proof.
  intros Hi. unfold recv. rewrite (M_bind_Ok _ _ _ s s) by done. cbv zeta. rewrite (i_rhead _ _ _ _ _ Hi).
  destruct (poll_ok _ _ _ _ _ Hi) as (h1 & d1 & _ & E1 & Hi1 & Hpre1). rewrite (M_bind_Ok _ _ _ _ _ E1).
  set (s1 := after s h1 d1) in *. assert (mem (env s1) = mem (env s)) as Hm1 by done.
  change (view h1) with (the_view s1) in Hpre1. clearbody s1. clear E1.
  destruct (rx_desc_ok _ _ _ _ _ Hi1) as (p1 & desc1 & b1 & _ & _ & _ & Ed1 & Hst1).
  rewrite (M_bind_Ok _ _ _ _ _ Ed1).
  destruct (arrived (the_view s1) !! Z.to_nat r) as [f|] eqn:Ef.
  2:{ rewrite Hst1. cbn [Z.eqb mret M_ret]. split; [done|]. split; [|done].
      apply lookup_ge_None in Ef. pose proof (i_arrived _ _ _ _ _ Hi1). pose proof (i_pos _ _ _ _ _ Hi1). unfold zlen in *. lia. }
  destruct Hst1 as ((Hs1 & _) & _). rewrite Hs1. cbn [Z.eqb].
  destruct (poll_ok _ _ _ _ _ Hi1) as (h2 & d2 & _ & E2 & Hi2 & Hpre2). rewrite (M_bind_Ok _ _ _ _ _ E2).
  set (s2 := after s1 h2 d2) in *. assert (mem (env s2) = mem (env s)) as Hm2 by done.
  change (view h2) with (the_view s2) in Hpre2. clearbody s2. clear E2.
  pose proof (prefix_lookup_Some _ _ _ _ Ef Hpre2) as Ef2.
  destruct (rx_desc_ok _ _ _ _ _ Hi2) as (p2 & desc2 & b2 & _ & _ & _ & Ed2 & Hst2).
  rewrite Ef2 in Hst2. destruct Hst2 as ((_ & He2 & _) & _). rewrite (M_bind_Ok _ _ _ _ _ Ed2).
  rewrite (M_bind_Ok _ _ _ tt s2) by (unfold lift, assert; by rewrite He2).
  destruct (poll_ok _ _ _ _ _ Hi2) as (h3 & d3 & _ & E3 & Hi3 & Hpre3). rewrite (M_bind_Ok _ _ _ _ _ E3).
  set (s3 := after s2 h3 d3) in *. assert (mem (env s3) = mem (env s)) as Hm3 by done.
  change (view h3) with (the_view s3) in Hpre3. clearbody s3. clear E3.
  pose proof (prefix_lookup_Some _ _ _ _ Ef2 Hpre3) as Ef3.
  destruct (rx_desc_ok _ _ _ _ _ Hi3) as (p3 & desc3 & b3 & _ & _ & _ & Ed3 & Hst3).
  rewrite Ef3 in Hst3. destruct Hst3 as ((_ & _ & Hl3) & _). rewrite (M_bind_Ok _ _ _ _ _ Ed3), Hl3.
  pose proof (recv_frame _ _ _ _ _ _ Hi3 Ef3) as Hfr. rewrite Hm3 in Hfr.
  match type of Hfr with match ?x with _ => _ end =>
    match goal with |- match ?y with _ => _ end => change y with x; destruct x as [[[p|] s']| | |] end end; try done.
  destruct Hfr as (Hi' & Hwf & Hraw & Harr). split; [done|]. split; [done|]. rewrite Harr.
  split; [by do 2 (etrans; [eassumption|])|]. by exists f.
Qed.

(** ** Padding *)
Definition frame_of (p : Packet) : list Z :=
  take (Z.to_nat (len p)) (buffer p) ++ replicate (Z.to_nat (64 - len p)) 0.

Lemma pad_ok p : buf_ok p →
  ∃ b n, pad p = Ok (mkPacket b n (paddr p)) ∧ page_ok b ∧ 64 ≤ n ≤ 4096 ∧ take (Z.to_nat n) b = frame_of p.
Proof.
  intros [[Hlen Hb] Hl]. unfold pad, PACKET_MIN_SIZE, frame_of. destruct (Z.ltb_spec (len p) 64) as [Hlt|Hge].
  2:{ exists (buffer p), (len p). split; [by destruct p|]. split; [done|]. split; [lia|].
      replace (Z.to_nat (64 - len p)) with 0%nat by lia. by rewrite app_nil_r. }
  set (n := Z.to_nat (len p)). set (m := Z.to_nat (64 - len p)).
  rewrite sub_Ok by lia. cbn [mbind res_bind].
  assert (PacketCursor.new p = Ok (mkCursor (mkSlice 0 4096) 1514 (len p) (len p))) as ->.
  { unfold PacketCursor.new, Cursor.set_position, Cursor.new_with_limit. rewrite Hlen.
    pose proof (try_set_position_advance (mkCursor (mkSlice 0 Packet.BUF_LEN) Packet.MAX_PACKET_LEN 0 0) (len p)
      ltac:(lia) ltac:(done) ltac:(cbn; lia)) as E. cbn [pos total_pos limit] in E. rewrite !Z.add_0_l in E.
    unfold unwrap_M, mbind, M_bind, res_bind, unwrap_res. rewrite E.
    rewrite (proj2 (Z.ltb_ge _ _)) by (unfold Packet.MAX_PACKET_LEN; lia). unfold advance. cbn [inner limit pos total_pos].
    by rewrite !Z.add_0_l. }
  cbn [mbind res_bind].
  assert (Cursor.split_at_checked (len p) (mkCursor (mkSlice 0 4096) 1514 (len p) (len p))
    = Some (mkSlice 0 n, mkCursor (mkSlice n (4096 - n)) 1514 0 (len p))) as E1.
  { unfold Cursor.split_at_checked. cbn [inner slen off pos total_pos limit].
    rewrite (proj2 (Z.ltb_ge (Z.of_nat 4096) (len p))), Z.ltb_irrefl by lia. cbn [mbind option_bind].
    rewrite (proj2 (Z.ltb_ge 1514 (len p))) by lia. by rewrite Z.sub_diag. }
  assert (Cursor.split_at_checked (64 - len p) (mkCursor (mkSlice n (4096 - n)) 1514 0 (len p))
    = Some (mkSlice n m, mkCursor (mkSlice (n + m) (4096 - n - m)) 1514 0 64)) as E2.
  { unfold Cursor.split_at_checked. cbn [inner slen off pos total_pos limit].
    rewrite (proj2 (Z.ltb_ge (Z.of_nat (4096 - n)) (64 - len p))) by lia.
    rewrite (proj2 (Z.ltb_lt 0 (64 - len p))) by lia. unfold checked_add.
    replace (len p + (64 - len p - 0)) with 64 by lia. cbn [Z.ltb Z.compare]. by cbn. }
  exists (splice (buffer p) n (replicate m 0)), 64. split; [|split; [|split; [lia|]]].
  - unfold PacketCursor.split_at_current, PacketCursor.split_at, PacketCursor.split_at_checked, PacketCursor.update_len.
    unfold unwrap_M, mbind, M_bind, Prelude.get, put, lift, mret, M_ret, Cursor.split_at_current, Cursor.split_at.
    cbn [pos]. rewrite E1. cbn [unwrap]. rewrite E2. reflexivity.
  - unfold splice. rewrite length_replicate. split.
    + rewrite !length_app, length_replicate, length_take, length_drop, Hlen. unfold Packet.BUF_LEN. lia.
    + rewrite !Forall_app. split; [by apply Forall_take|]. split; [|by apply Forall_drop].
      apply Forall_replicate. by unfold fits.
  - unfold splice. change (Z.to_nat 64) with 64%nat. rewrite app_assoc.
    rewrite take_app_le by (rewrite length_app, length_replicate, length_take, Hlen; unfold Packet.BUF_LEN; lia).
    apply take_ge. rewrite length_app, length_replicate, length_take, Hlen. unfold Packet.BUF_LEN. lia.
Qed.

(** ** Waiting for room *)
Definition polled (n : nat) s : St := let '(h, d) := acts n (hw (env s)) (bus s) in after s h d.
Definition with_head s (head : Z) : St :=
  mkSt (env s) (mkIntelNic (regs (nic s)) (mmio (nic s)) (mac (nic s)) (rx s)
    (mkTxState (tx_base (tx s)) (tx_descs (tx s)) (tx_packets (tx s)) head (tx_tail (tx s)))
    (packets (nic s)) (packets_cap (nic s))).

Lemma acts_S n (h : H) d : acts (S n) h d = let '(h', d') := acts n h d in dma h' d'.
Proof.
  revert h d. induction n as [|n IH]; intros h d.
  { cbn [acts]. by destruct (dma h d). }
  change (acts (S (S n)) h d) with (let '(h', d') := dma h d in acts (S n) h' d').
  change (acts (S n) h d) with (let '(h', d') := dma h d in acts n h' d').
  destruct (dma h d) as [h1 d1]. apply IH.
Qed.
Lemma polled_0 s : polled 0 s = s.
Proof. destruct s as [[] [? ? ? [] [] ? ?]]. done. Qed.
Lemma polled_S n s hs out r others :
  inv (polled n s) hs out r others →
  poll (polled n s) = Ok (tt, polled (S n) s) ∧ inv (polled (S n) s) hs out r others ∧
  zlen (wire (the_view (polled n s))) ≤ zlen (wire (the_view (polled (S n) s))).
Proof.
  intros Hi. destruct (dma (hw (env (polled n s))) (bus (polled n s))) as [h' d'] eqn:E.
  assert (polled (S n) s = after (polled n s) h' d') as ->.
  { unfold polled at 1. rewrite acts_S. unfold polled in E |- *. destruct (acts n (hw (env s)) (bus s)) as [h d].
    unfold bus in E. cbn [after env hw lent nic rx_state tx_state rx_descs tx_descs] in E.
    assert (mkDma (rxd d) (txd d) (ram d) = d) as Ed by (by destruct d). rewrite Ed in E. by rewrite E. }
  split; [|split].
  - unfold poll. fold (bus (polled n s)). by rewrite E.
  - by eapply inv_dma.
  - destruct (dma_law _ _ _ _ (inv_rings _ _ _ _ _ Hi) E) as [Ht _].
    destruct (txs_wire _ _ _ _ Ht) as (o & Hw & _). cbn [after env hw]. rewrite Hw. unfold zlen. rewrite length_app. lia.
Qed.
Lemma polled_inv n s hs out r others : inv s hs out r others → inv (polled n s) hs out r others.
Proof. intros Hi. induction n as [|n IH]; [by rewrite polled_0|]. by apply (polled_S n s) in IH as (_ & ? & _). Qed.
Lemma polled_wire m n s hs out r others : inv s hs out r others → (m ≤ n)%nat →
  zlen (wire (the_view (polled m s))) ≤ zlen (wire (the_view (polled n s))).
Proof.
  intros Hi. induction 1 as [|n Hle IH]; [lia|].
  destruct (polled_S n s hs out r others (polled_inv _ _ _ _ _ _ Hi)) as (_ & _ & ?). lia.
Qed.

Lemma polled_arrived n s hs out r others : inv s hs out r others →
  arrived (the_view s) `prefix_of` arrived (the_view (polled n s)).
Proof.
  intros Hi. induction n as [|n IH]; [by rewrite polled_0|]. etrans; [exact IH|].
  pose proof (polled_inv n _ _ _ _ _ Hi) as Hn. destruct (polled_S n s hs out r others Hn) as (E & _).
  destruct (poll_ok _ _ _ _ _ Hn) as (h & d & _ & E' & _ & Hpre). rewrite E in E'. injection E' as ->. done.
Qed.

Lemma inv_with_head s hs out r others head :
  inv s hs out r others → tx_head (tx s) < head ≤ zlen (wire (the_view s)) → inv (with_head s head) hs out r others.
Proof.
  intros Hi Hh. pose proof (i_head _ _ _ _ _ Hi). pose proof (i_room _ _ _ _ _ Hi).
  split; cbn [with_head nic env regs tx_state rx_state tx_head tx_tail tx_descs tx_packets packets]; try apply Hi; lia.
Qed.

(** A scan of the queue moves the head, if it finds a frame sent; it finds one if
    one was sent when it starts. *)
Lemma scan_ok n : ∀ m s hs out r others,
  inv s hs out r others → Z.of_nat n ≤ zlen out - tx_head (tx s) →
  scan n (tx_head (tx s)) (polled m s) = Ok (tt, polled (m + n) s) ∧
    (zlen (wire (the_view (polled m s))) ≤ tx_head (tx s) ∨ n = 0%nat) ∨
  ∃ i head, scan n (tx_head (tx s)) (polled m s) = Ok (tt, with_head (polled i s) head) ∧
    tx_head (tx s) < head ≤ zlen (wire (the_view (polled i s))).
Proof.
  induction n as [|n IH]; intros m s hs out r others Hi Hn.
  { left. rewrite Nat.add_0_r. split; [done|by right]. }
  cbn [scan]. cbv zeta.
  destruct (polled_S m s hs out r others (polled_inv _ _ _ _ _ _ Hi)) as (Ep & Hi1 & Hw).
  rewrite (M_bind_Ok _ _ _ _ _ Ep). set (s1 := polled (S m) s) in *.
  rewrite (M_bind_Ok _ _ _ s1 s1) by done.
  pose proof (i_head _ _ _ _ _ Hi) as Hh. pose proof (i_given _ _ _ _ _ Hi). pose proof (i_room _ _ _ _ _ Hi).
  assert (zlen (tx_descs (tx s1)) = 256) as -> by (unfold zlen; by rewrite (i_txd _ _ _ _ _ Hi1)).
  destruct (i_tx _ _ _ _ _ Hi1 (tx_head (tx s) + Z.of_nat n)) as (p & desc & b & _ & Hd & _ & _ & _ & _ & _ & Hst); [lia|lia|].
  fold (slot (tx_head (tx s) + Z.of_nat n)).
  rewrite (M_bind_Ok _ _ _ desc s1) by (unfold lift; by rewrite (index_lookup _ _ _ Hd)). rewrite Hst.
  destruct (Z.ltb_spec (tx_head (tx s) + Z.of_nat n) (zlen (wire (the_view s1)))) as [Hlt|Hge]; cbn [Z.eqb negb].
  - right. exists (S m), (tx_head (tx s) + Z.of_nat n + 1). split; [done|]. fold s1. lia.
  - destruct (IH (S m) s hs out r others Hi ltac:(lia)) as [[E Hno]|(i & head & E & Hhd)].
    + left. rewrite Nat.add_succ_r. split; [exact E|]. left. fold s1 in Hno.
      destruct Hno as [Hno| ->]; [|lia]. lia.
    + right. exists i, head. split; [exact E|done].
Qed.

Lemma progress s hs out r others :
  inv s hs out r others → zlen out - tx_head (tx s) = 255 →
  tx_head (tx s) < zlen (wire (the_view (polled patience s))).
Proof.
  intros Hi Hfull. pose proof (i_full _ _ _ _ _ Hi Hfull) as Hg. pose proof (i_head _ _ _ _ _ Hi).
  pose proof (polled_wire 0 patience _ _ _ _ _ Hi ltac:(lia)) as Hw. rewrite polled_0 in Hw.
  destruct (Z.lt_ge_cases (tx_head (tx s)) (zlen (wire (the_view s)))); [lia|].
  pose proof (patience_law (hw (env s)) (bus s) (inv_rings _ _ _ _ _ Hi) ltac:(lia)) as Hp.
  unfold polled. destruct (acts patience (hw (env s)) (bus s)) as [h d]. cbn [after env hw]. cbn in Hp. lia.
Qed.

Lemma await_room_ok fuel : ∀ m s hs out r others,
  inv s hs out r others → (2 ≤ fuel)%nat → (patience + 2 ≤ fuel + m)%nat →
  ∃ s', await_room fuel (polled m s) = Ok (tt, s') ∧ inv s' hs out r others ∧ zlen out - tx_head (tx s') < 255 ∧
    arrived (the_view s) `prefix_of` arrived (the_view s').
Proof.
  assert (∀ fuel s hs out r others, inv s hs out r others → (1 ≤ fuel)%nat → zlen out - tx_head (tx s) < 255 →
    await_room fuel s = Ok (tt, s)) as Hdone.
  { intros [|f] s hs out r others Hi Hf Hr; [lia|]. cbn [await_room]. rewrite (M_bind_Ok _ _ _ s s) by done.
    assert (zlen (tx_descs (tx s)) = 256) as -> by (unfold zlen; by rewrite (i_txd _ _ _ _ _ Hi)).
    pose proof (i_head _ _ _ _ _ Hi). pose proof (i_given _ _ _ _ _ Hi). rewrite (i_tail _ _ _ _ _ Hi).
    rewrite (sub_Ok (zlen out) (tx_head (tx s))) by lia. rewrite (M_bind_Ok _ _ _ (zlen out - tx_head (tx s)) s) by done.
    rewrite (M_bind_Ok _ _ _ 255 s) by done. by rewrite (proj2 (Z.leb_gt _ _)) by lia. }
  induction fuel as [|f IH]; intros m s hs out r others Hi Hf Hp; [lia|].
  pose proof (polled_inv m _ _ _ _ _ Hi) as Him.
  assert (tx_head (tx (polled m s)) = tx_head (tx s) ∧ tx_tail (tx (polled m s)) = tx_tail (tx s)) as (Eh & Et).
  { unfold polled. by destruct (acts m _ _). }
  destruct (Z.lt_ge_cases (zlen out - tx_head (tx s)) 255) as [Hlt|Hge].
  { exists (polled m s). split; [|by rewrite Eh; split_and!; try done; eapply polled_arrived]. apply (Hdone _ _ hs out r others); [done|lia|by rewrite Eh]. }
  pose proof (i_room _ _ _ _ _ Hi) as Hroom. cbn [await_room].
  rewrite (M_bind_Ok _ _ _ (polled m s) (polled m s)) by done.
  assert (zlen (tx_descs (tx (polled m s))) = 256) as -> by (unfold zlen; by rewrite (i_txd _ _ _ _ _ Him)).
  rewrite Eh, Et, (i_tail _ _ _ _ _ Hi). replace (zlen out - tx_head (tx s)) with 255 by lia.
  rewrite (sub_Ok (zlen out) (tx_head (tx s))) by lia. replace (zlen out - tx_head (tx s)) with 255 by lia.
  rewrite (M_bind_Ok _ _ _ 255 (polled m s)) by done. rewrite (M_bind_Ok _ _ _ 255 (polled m s)) by done.
  rewrite Z.leb_refl. change (Z.to_nat 255) with 255%nat.
  destruct (scan_ok 255 m s hs out r others Hi ltac:(lia)) as [[E Hno]|(i & head & E & Hhd)].
  - rewrite (M_bind_Ok _ _ _ _ _ E). destruct Hno as [Hno|]; [|done].
    assert (m < patience)%nat.
    { apply Nat.nle_gt. intros Hle. pose proof (polled_wire _ _ _ _ _ _ _ Hi Hle).
      pose proof (progress _ _ _ _ _ Hi ltac:(lia)). lia. }
    apply (IH (m + 255)%nat s hs out r others Hi); lia.
  - rewrite (M_bind_Ok _ _ _ _ _ E). pose proof (polled_inv i _ _ _ _ _ Hi) as Hii.
    assert (tx_head (tx (polled i s)) = tx_head (tx s)) as Ehi
      by (unfold polled; by destruct (acts i _ _)).
    exists (with_head (polled i s) head).
    assert (inv (with_head (polled i s) head) hs out r others) as Hi' by (apply inv_with_head; [done|lia]).
    assert (zlen out - tx_head (tx (with_head (polled i s) head)) < 255) by (cbn; lia).
    split; [|split_and!; try done; by eapply polled_arrived].
    apply (Hdone _ _ hs out r others); [done|lia|done].
Qed.

(** ** Send *)
Definition tx_entry (p : Packet) : LegacyTxDescriptor := mkTx (paddr p) (len p) 0 11 0 0 0.
(** [p] in the slot behind the queue; [old] was there. *)
Definition queued s (p : Packet) (old : option Packet) (tail : Z) (h : H) (k : K) (ps : list Packet) : St :=
  mkSt (mkEnv h k (let l := <[paddr p := buffer p]> (lent (env s)) in
                   match old with Some o => delete (paddr o) l | None => l end))
    (mkIntelNic (regs (nic s)) (mmio (nic s)) (mac (nic s)) (rx s)
       (mkTxState (tx_base (tx s)) (<[slot (tx_tail (tx s)) := tx_entry p]> (tx_descs (tx s)))
          (<[slot (tx_tail (tx s)) := Some p]> (tx_packets (tx s))) (tx_head (tx s)) tail)
       ps (packets_cap (nic s))).

Lemma tx_inj s hs out r others i j p q : inv s hs out r others →
  tx_packets (tx s) !! i = Some (Some p) → tx_packets (tx s) !! j = Some (Some q) → paddr p = paddr q → i = j.
Proof.
  intros Hi Hp Hq E. destruct (decide (i = j)) as [|Hne]; [done|]. exfalso.
  pose proof (owned_nodup _ _ _ _ _ Hi) as Hn. unfold owned in Hn.
  assert (NoDup (paddr <$> omap (λ o, o) (tx_packets (tx s)))) as Hnt.
  { rewrite fmap_app in Hn. apply NoDup_app in Hn as (_ & _ & Hn). rewrite fmap_app in Hn. by apply NoDup_app in Hn as (? & _ & _). }
  rewrite <-(take_drop_middle _ _ _ Hp) in Hnt, Hq. rewrite omap_app, fmap_app in Hnt. cbn [omap list_omap fmap list_fmap] in Hnt.
  apply NoDup_app in Hnt as (_ & Hd & Hc). apply NoDup_cons in Hc as [Hc _].
  pose proof (lookup_lt_Some _ _ _ Hp) as Hlt.
  apply lookup_app_Some in Hq as [Hq|[Hge Hq]].
  - apply (Hd (paddr q)); [|rewrite E; by left].
    apply list_elem_of_fmap_2. apply list_elem_of_omap. exists (Some q). split; [by eapply list_elem_of_lookup_2|done].
  - rewrite length_take_le in Hge, Hq by lia. destruct (j - i)%nat as [|x] eqn:Ex; [lia|]. cbn in Hq.
    apply Hc. rewrite E. apply list_elem_of_fmap_2. apply list_elem_of_omap. exists (Some q).
    split; [by eapply list_elem_of_lookup_2|done].
Qed.

(** The slot behind the queue is empty, or its frame was sent. *)
Lemma next_slot s hs out r others :
  inv s hs out r others → zlen out - tx_head (tx s) < 255 →
  ∃ old, tx_packets (tx s) !! slot (zlen out) = Some old ∧
    ∀ o, old = Some o → ∃ b, lent (env s) !! paddr o = Some b ∧ page_ok b ∧ 256 ≤ zlen out ∧
      zlen out - 256 < zlen (wire (the_view s)).
Proof.
  intros Hi Hr. pose proof (i_head _ _ _ _ _ Hi). pose proof (i_given _ _ _ _ _ Hi).
  destruct (Z.lt_ge_cases (zlen out) 256) as [Hlt|Hge].
  - exists None. split; [by apply (i_none _ _ _ _ _ Hi)|done].
  - destruct (i_tx _ _ _ _ _ Hi (zlen out - 256)) as (p & desc & b & Hp & _ & _ & Hb & Hok & _); [lia|lia|].
    exists (Some p). rewrite <-Hp. split.
    + f_equal. unfold slot. rewrite <-(mod_next (zlen out - 256)). do 2 f_equal. lia.
    + intros o [= <-]. exists b. split_and!; try done; lia.
Qed.

Lemma queued_ok s p hs out r others old h k ps :
  inv s (p :: hs) out r others → zlen out - tx_head (tx s) < 255 → zlen out + 1 < 2 ^ 64 →
  tx_packets (tx s) !! slot (zlen out) = Some old → page_ok (buffer p) → 0 ≤ len p ≤ 4096 →
  wire (view h) = wire (the_view s) → arrived (view h) = arrived (the_view s) → avail (view h) = avail (the_view s) →
  zlen (wire (the_view s)) ≤ given (view h) ≤ zlen out + 1 →
  (zlen out + 1 - tx_head (tx s) = 255 → given (view h) = zlen out + 1) →
  Forall fresh ps →
  pages k (others ++ (paddr <$> rx_packets (rx s) ++
    omap (λ o, o) (<[slot (zlen out) := Some p]> (tx_packets (tx s))) ++ ps ++ hs)) →
  inv (queued s p old (zlen out + 1) h k ps) hs (out ++ [take (Z.to_nat (len p)) (buffer p)]) r others.
Proof.
  intros Hi Hroom Hmax Hold Hb Hl Hw Harr Hav Hg Hfull Hps Hpages.
  pose proof (i_head _ _ _ _ _ Hi) as Hh. pose proof (i_given _ _ _ _ _ Hi) as Hgi.
  assert (zlen (out ++ [take (Z.to_nat (len p)) (buffer p)]) = zlen out + 1) as Hlen
    by (unfold zlen; rewrite length_app; simpl; lia).
  pose proof (slot_lt (zlen out)) as Hs.
  assert (∀ q, (q ∈ rx_packets (rx s) ∨ ∃ j, j ≠ slot (zlen out) ∧ tx_packets (tx s) !! j = Some (Some q)) →
    (let l := <[paddr p := buffer p]> (lent (env s)) in match old with Some o => delete (paddr o) l | None => l end) !! paddr q
    = lent (env s) !! paddr q) as Hlent.
  { intros q Hq. assert (paddr q ≠ paddr p) as Hqp.
    { eapply held_apart; [exact Hi|]. destruct Hq as [|(j & _ & Hj)]; [by left|right; by eapply tx_elem]. }
    cbv zeta. destruct old as [o|]; [|by rewrite lookup_insert_ne by done].
    assert (paddr o ≠ paddr q) as Hoq.
    { intros E. destruct Hq as [Hq|(j & Hj & Hq)].
      - apply list_elem_of_lookup in Hq as [i Hq]. by eapply (rx_tx_apart _ _ _ _ _ _ _ _ _ Hi Hq Hold).
      - apply Hj. symmetry. by eapply tx_inj. }
    by rewrite lookup_delete_ne, lookup_insert_ne by done. }
  split; rewrite ?Hlen; cbn [queued env hw mem nic regs rx_state tx_state tx_head tx_tail tx_descs tx_packets packets];
    rewrite ?Hw, ?Harr, ?Hav; try apply Hi; try done; try lia.
  - by apply prefix_app_r, Hi.
  - rewrite length_insert. apply Hi.
  - rewrite length_insert. apply Hi.
  - intros k' Hk0 Hk. unfold tx_slot. cbn [queued env hw lent nic tx_state tx_packets tx_descs].
    rewrite (i_tail _ _ _ _ _ Hi), Hw. destruct (decide (k' = zlen out)) as [->|Hne].
    + exists p, (tx_entry p), (buffer p).
      rewrite !list_lookup_insert_eq by (rewrite ?(i_txd _ _ _ _ _ Hi), ?(i_txp _ _ _ _ _ Hi); done).
      split_and!; try done; try lia.
      * destruct old as [o|]; [|apply lookup_insert_eq]. rewrite lookup_delete_ne; [apply lookup_insert_eq|].
        eapply held_apart; [exact Hi|]. right. by eapply tx_elem.
      * unfold zlen. rewrite Nat2Z.id. by rewrite list_lookup_middle.
      * by rewrite (proj2 (Z.ltb_ge _ _)) by lia.
    + destruct (i_tx _ _ _ _ _ Hi k') as (q & desc & b & Hq & Hd & Ha & Hbq & Hok & Hlq & Ho & Hst); [lia|lia|].
      assert (slot (zlen out) ≠ slot k') by (intros E; apply slot_inj in E; lia).
      exists q, desc, b. rewrite !list_lookup_insert_ne by done.
      split_and!; try done; try lia.
      * etrans; [|exact Hbq]. apply Hlent. right. by exists (slot k').
      * by apply lookup_app_l_Some.
  - intros k' Hk'. rewrite (i_tail _ _ _ _ _ Hi), list_lookup_insert_ne; [apply (i_none _ _ _ _ _ Hi); lia|].
    intros E. apply slot_inj in E; unfold zlen in *; lia.
  - intros k' Hk'. destruct (i_rx _ _ _ _ _ Hi k' Hk') as (q & desc & b & Hq & Hd & Ha & Hbq & Hok & Hf).
    exists q, desc, b. cbn [queued env hw lent nic rx_state]. rewrite Harr. split_and!; try done.
    etrans; [|exact Hbq]. apply Hlent. left. by eapply list_elem_of_lookup_2.
  - pose proof (i_held _ _ _ _ _ Hi) as Hh'. by apply Forall_cons_iff in Hh' as [_ ?].
  - unfold owned. cbn [queued nic rx_state tx_state tx_packets packets]. by rewrite (i_tail _ _ _ _ _ Hi).
Qed.

(** Handing over what is queued: [tail] is written, or left for later. *)
Lemma flush_ok s p hs out r others old k ps (flush : bool) :
  inv s (p :: hs) out r others → zlen out - tx_head (tx s) < 255 → zlen out + 1 < 2 ^ 64 →
  ∃ h, (full ← (if flush then mret true
          else used ← lift (sub (zlen out + 1) (tx_head (tx s))); room ← lift (sub 256 1); mret (used =? room));
        if (full : bool) then on_env (write (tdt (regs (nic s))) (cast 32 ((zlen out + 1) mod 256))) else mret tt)
       (queued s p old (zlen out + 1) (hw (env s)) k ps) = Ok (tt, queued s p old (zlen out + 1) h k ps) ∧
    wire (view h) = wire (the_view s) ∧ arrived (view h) = arrived (the_view s) ∧ avail (view h) = avail (the_view s) ∧
    zlen (wire (the_view s)) ≤ given (view h) ≤ zlen out + 1 ∧
    (flush = true ∨ zlen out + 1 - tx_head (tx s) = 255 → given (view h) = zlen out + 1).
Proof.
  intros Hi Hroom Hmax. pose proof (i_head _ _ _ _ _ Hi). pose proof (i_given _ _ _ _ _ Hi).
  set (s' := queued s p old (zlen out + 1) (hw (env s)) k ps).
  set (h := mmio_write (0x3818 / 4) ((zlen out + 1) mod 256) (hw (env s))).
  assert (on_env (write (tdt (regs (nic s))) (cast 32 ((zlen out + 1) mod 256))) s'
    = Ok (tt, queued s p old (zlen out + 1) h k ps)) as Ew.
  { unfold on_env, write. rewrite (i_regs _ _ _ _ _ Hi). change (tdt NicRegisters_default) with 0x3818.
    unfold cast. pose proof (Z.mod_pos_bound (zlen out + 1) 256 ltac:(lia)). rewrite (Z.mod_small (_ mod 256)) by lia. done. }
  assert (view h = mkView (wire (the_view s)) (zlen out + 1) (arrived (the_view s)) (avail (the_view s))) as Hv.
  { unfold h. rewrite tdt_law, next_at_eq by lia. done. }
  destruct flush.
  { exists h. rewrite (M_bind_Ok _ _ _ true s') by done. split; [exact Ew|]. rewrite Hv. cbn. split_and!; try done; lia. }
  rewrite (sub_Ok (zlen out + 1)) by lia.
  rewrite (M_bind_Ok _ _ s' (zlen out + 1 - tx_head (tx s) =? 255) s') by done.
  destruct (Z.eqb_spec (zlen out + 1 - tx_head (tx s)) 255) as [He|He].
  - exists h. split; [exact Ew|]. rewrite Hv. cbn. split_and!; try done; lia.
  - exists (hw (env s)). split_and!; try done; try lia.
Qed.

Lemma send_ok fuel p flush s hs out r others :
  inv s (p :: hs) out r others → zlen out + 1 < 2 ^ 64 → (patience + 2 ≤ fuel)%nat →
  ∃ s', send fuel p flush s = Ok (tt, s') ∧ inv s' hs (out ++ [frame_of p]) r others ∧
    arrived (the_view s) `prefix_of` arrived (the_view s') ∧ (flush = true → given (the_view s') = zlen out + 1).
Proof.
  intros Hi Hmax Hfuel. pose proof (i_held _ _ _ _ _ Hi) as Hh. apply Forall_cons_iff in Hh as [Hbp Hh].
  destruct (pad_ok p Hbp) as (b & n & Epad & Hpok & Hn & Hframe).
  unfold send. rewrite Epad. set (p' := mkPacket b n (paddr p)) in *.
  rewrite (M_bind_Ok _ _ _ p' s) by done.
  assert (inv s (p' :: hs) out r others) as Hi'.
  { split; try apply Hi; [constructor; [split; [done|cbn; lia]|done]|].
    pose proof (i_pages _ _ _ _ _ Hi) as Hpgs. unfold owned in *. rewrite !fmap_app in *. exact Hpgs. }
  destruct (await_room_ok fuel 0 s (p' :: hs) out r others Hi' ltac:(lia) ltac:(lia)) as (s1 & E1 & Hi1 & Hroom & Hpre).
  rewrite polled_0 in E1. rewrite (M_bind_Ok _ _ _ _ _ E1). rewrite (M_bind_Ok _ _ _ s1 s1) by done.
  cbv zeta. assert (zlen (tx_descs (tx s1)) = 256) as -> by (unfold zlen; by rewrite (i_txd _ _ _ _ _ Hi1)).
  fold (slot (tx_tail (tx s1))). rewrite (i_tail _ _ _ _ _ Hi1). pose proof (slot_lt (zlen out)) as Hs.
  assert (∀ A (l : list A) x, length l = 256%nat → store (E := unit) l (slot (zlen out)) x = Ok (<[slot (zlen out) := x]> l)) as Hstore.
  { intros A l x Hl. unfold store. by rewrite Hl, (proj2 (Nat.ltb_lt _ _) Hs). }
  destruct (next_slot _ _ _ _ _ Hi1 Hroom) as (old & Hold & Hob).
  set (tr := take (Z.to_nat n) b) in *. rewrite <-Hframe.
  rewrite (M_bind_Ok _ _ _ (<[slot (zlen out) := tx_entry p']> (tx_descs (tx s1))) s1).
  2:{ unfold lift. rewrite Hstore by apply Hi1. unfold tx_entry. do 4 f_equal. unfold cast. apply Z.mod_small. cbn; lia. }
  rewrite (M_bind_Ok _ _ _ old s1) by (unfold lift; by rewrite (index_lookup _ _ _ Hold)).
  rewrite (M_bind_Ok _ _ _ (<[slot (zlen out) := Some p']> (tx_packets (tx s1))) s1) by (unfold lift; by rewrite Hstore by apply Hi1).
  rewrite (M_bind_Ok _ _ _ tt (mkSt (set_lent (<[paddr p' := buffer p']> (lent (env s1))) (env s1)) (nic s1))) by done.
  set (s2 := queued s1 p' None (zlen out) (hw (env s1)) (mem (env s1)) (packets (nic s1))).
  rewrite (M_bind_Ok _ _ _ tt s2).
  2:{ unfold set_tx, s2, queued, set_lent. cbn [env nic hw mem lent]. by rewrite (i_tail _ _ _ _ _ Hi1). }
  pose proof (i_pages _ _ _ _ _ Hi1) as Hpgs. unfold owned in Hpgs.
  pose proof (omap_insert_perm _ _ _ p' Hold) as Hperm.
  assert (∃ k ps, (match old with Some o => o' ← on_env (reclaim o); release_packet o' | None => mret tt end) s2
      = Ok (tt, queued s1 p' old (zlen out) (hw (env s1)) k ps) ∧ Forall fresh ps ∧
      pages k (others ++ (paddr <$> rx_packets (rx s1) ++
        omap (λ o, o) (<[slot (zlen out) := Some p']> (tx_packets (tx s1))) ++ ps ++ hs))) as (k & ps & Er & Hps & Hpages).
  { destruct old as [o|].
    - destruct (Hob o eq_refl) as (bo & Hbo & Hbok & _).
      set (s3 := queued s1 p' (Some o) (zlen out) (hw (env s1)) (mem (env s1)) (packets (nic s1))).
      assert (paddr o ≠ paddr p') as Hop by (eapply held_apart; [exact Hi1|]; right; by eapply tx_elem).
      rewrite (M_bind_Ok _ _ _ (mkPacket bo (len o) (paddr o)) s3).
      2:{ unfold on_env, reclaim, s2, queued. cbn [env lent]. by rewrite lookup_insert_ne, Hbo by done. }
      destruct (release_run s3 (mkPacket bo (len o) (paddr o)) (others ++ (paddr <$> rx_packets (rx s1) ++
          omap (λ o, o) (<[slot (zlen out) := Some p']> (tx_packets (tx s1))) ++ hs))) as (k & ps & E & Hf & Hp').
      + eapply pages_perm; [|exact Hpgs]. cbn [s3 queued nic packets paddr]. rewrite !fmap_app. cbn [fmap list_fmap].
        pose proof (fmap_Permutation paddr _ _ Hperm) as Hq. cbn [option_list app fmap list_fmap] in Hq.
        change (list_fmap _ _ ?f ?l) with (f <$> l) in Hq |- *.
        transitivity ((paddr p' :: (paddr <$> omap (λ o, o) (tx_packets (tx s1)))) ++ others ++ (paddr <$> rx_packets (rx s1))
          ++ (paddr <$> packets (nic s1)) ++ (paddr <$> hs)); [solve_Permutation|]. rewrite <-Hq. solve_Permutation.
      + done.
      + apply Hi1.
      + exists k, ps. split; [exact E|]. split; [done|]. eapply pages_perm; [|exact Hp']. rewrite !fmap_app. solve_Permutation.
    - exists (mem (env s1)), (packets (nic s1)). split; [done|]. split; [apply Hi1|].
      eapply pages_perm; [|exact Hpgs]. rewrite !fmap_app. cbn [fmap list_fmap].
      pose proof (fmap_Permutation paddr _ _ Hperm) as Hq. cbn [option_list app fmap list_fmap] in Hq.
      change (list_fmap _ _ ?f ?l) with (f <$> l) in Hq |- *.
      transitivity ((paddr p' :: (paddr <$> omap (λ o, o) (tx_packets (tx s1)))) ++ others ++ (paddr <$> rx_packets (rx s1))
        ++ (paddr <$> packets (nic s1)) ++ (paddr <$> hs)); [solve_Permutation|]. rewrite <-Hq. solve_Permutation. }
  rewrite (M_bind_Ok _ _ _ _ _ Er).
  assert (wrapping_add 64 (zlen out) 1 = zlen out + 1) as ->.
  { unfold wrapping_add. apply Z.mod_small. unfold zlen in *; lia. }
  rewrite (M_bind_Ok _ _ _ tt (queued s1 p' old (zlen out + 1) (hw (env s1)) k ps)).
  2:{ unfold set_tx, queued. cbn [env nic]. by rewrite (i_tail _ _ _ _ _ Hi1). }
  destruct (flush_ok s1 p' hs out r others old k ps flush Hi1 Hroom Hmax) as (h & Eh & Hw & Harr & Hav & Hg & Hfull).
  exists (queued s1 p' old (zlen out + 1) h k ps). split; [exact Eh|]. split.
  - apply queued_ok; try done; [cbn; lia|]. intros ?. apply Hfull. by right.
  - split; [cbn [queued env hw]; by rewrite Harr|]. intros ->. cbn [queued env hw]. apply Hfull. by left.
Qed.
End driver.
