(* ===== verification/IntelNic.v ===== *)
(** The e1000 driver as a whole: its construction, the states its operations reach,
    and what holds in all of them. *)
From Stdlib Require Import ZArith Lia.
From stdpp Require Import prelude list numbers gmap.
From S2P Require Import Prelude Cursor Packet Net NetBuild NetParse PageTable PageMap Pci Intel IntelRing.
Import Intel IntelOps.

Section construction.
Context {H K : Type} `{HHw : Hardware H} `{Hnic : !E1000 H} `{HKm : KernelMem K} `{Hpg : !KernelPages K}.
Context `{HKs : KernelSpace K} `{Hph : PhysMem K}.
Implicit Types (s : St (H := H) (K := K)) (e : Env (H := H) (K := K)).

(** The memory after [n] pages were taken, and memory that runs out within [n] of them *)
Inductive takes : nat → K → K → Prop :=
| takes_none k : takes 0 k k
| takes_one n k a k1 k2 : page_new k = Ok (a, k1) → takes n k1 k2 → takes (S n) k k2.
Definition out_of_pages (n : nat) (k : K) : Prop := ∃ j k', (j < n)%nat ∧ takes j k k' ∧ no_pages k'.

Lemma takes_app n m k1 k2 k3 : takes n k1 k2 → takes m k2 k3 → takes (n + m) k1 k3.
Proof. induction 1; [done|]. intros. cbn [Nat.add]. by econstructor; [|apply IHtakes]. Qed.
Lemma out_of_pages_after j n k k' : takes j k k' → out_of_pages n k' → out_of_pages (j + n) k.
Proof. intros Ht (i & k2 & Hi & Ht' & Hn). exists (j + i)%nat, k2. split; [lia|]. split; [by eapply takes_app|done]. Qed.
Lemma out_of_pages_le n m k : (n ≤ m)%nat → out_of_pages n k → out_of_pages m k.
Proof. intros Hle (i & k2 & Hi & Ht & Hn). exists i, k2. split; [lia|done]. Qed.

(** The control register (offset 0) is read until its reset bit 26 is clear. *)
Inductive reset_polled : H → H → Prop :=
| polled_clear h v h' : mmio_read 0 h = (v, h') → Z.testbit v 26 = false → reset_polled h h'
| polled_set h v h1 h' : mmio_read 0 h = (v, h1) → Z.testbit v 26 = true → reset_polled h1 h' → reset_polled h h'.
(** The counter is read until it shows [wait] or more. *)
Inductive slept (wait : Z) : H → H → Prop :=
| slept_over h t h' : tsc h = (t, h') → wait ≤ t → slept wait h h'
| slept_on h t h1 h' : tsc h = (t, h1) → t < wait → slept wait h1 h' → slept wait h h'.

(** All interrupts are masked (register 0xD8), the reset bit is set and has cleared. *)
Definition reset_started (h h' : H) : Prop :=
  reset_polled (writes [(0x00D8 / 4, 2 ^ 32 - 1); (0x0000 / 4, 2 ^ 26)] h) h'.
(** ... 20 ms have passed, and all interrupts are masked again. *)
Definition was_reset (h h' : H) : Prop :=
  ∃ h1 t h2 h3, reset_started h h1 ∧ tsc h1 = (t, h2) ∧ slept (t + 20000 * rate) h2 h3 ∧
    h' = writes [(0x00D8 / 4, 2 ^ 32 - 1)] h3.
(** After the reset the rings are set up and started, and the address is read. *)
Definition launched (h : H) (n : IntelNic) (h' : H) : Prop :=
  ∃ h1 lo h2 hi, was_reset h h1 ∧
    mmio_read (0x5400 / 4) (writes (tx_start (tx_base (tx_state n))) (writes (rx_start (rx_base (rx_state n))) h1)) = (lo, h2) ∧
    mmio_read (0x5404 / 4) h2 = (hi, h').
(** The counter is so late after the reset that the deadline overflows. *)
Definition late (h : H) : Prop :=
  ∃ h1 t h2, reset_started h h1 ∧ tsc h1 = (t, h2) ∧ 2 ^ 64 ≤ t + 20000 * rate.

Lemma page_new_ok e l :
  pages (mem e) l →
  match on_mem page_new e with
  | Ok (a, e') => ∃ k, e' = mkEnv (hw e) k (lent e) ∧ pages k (a :: l) ∧ takes 1 (mem e) k
  | Panic => no_pages (mem e)
  | _ => False
  end.
Proof.
  intros Hp. pose proof (page_new_law _ _ Hp) as Hl. unfold on_mem.
  destruct (page_new (mem e)) as [[a k]| | |] eqn:E; [|done..].
  exists k. split; [done|]. split; [done|]. by econstructor; [|constructor].
Qed.

Lemma fill_rx_ok n : ∀ e l, pages (mem e) l →
  match fill_rx n e with
  | Ok ((ds, ps), e') =>
      length ds = n ∧ length ps = n ∧ hw e' = hw e ∧ takes n (mem e) (mem e') ∧ pages (mem e') ((paddr <$> ps) ++ l) ∧
      (∀ i p, ps !! i = Some p → ds !! i = Some (rx_default (paddr p)) ∧ lent e' !! paddr p = Some (buffer p) ∧ fresh p) ∧
      (∀ a, a ∉ paddr <$> ps → lent e' !! a = lent e !! a)
  | Panic => out_of_pages n (mem e)
  | _ => False
  end.
Proof.
  induction n as [|n IH]; intros e l Hp; [split_and!; try done; constructor|]. cbn [fill_rx].
  pose proof (page_new_ok e l Hp) as Ha. unfold mbind at 1, M_bind at 1.
  destruct (packet_new e) as [[np e1]| | |] eqn:Enp.
  2-4: unfold packet_new, mbind, M_bind in Enp; destruct (on_mem page_new e) as [[? ?]| | |]; try done;
    (exists 0%nat, (mem e); split; [lia|]; split; [constructor|done]).
  assert (∃ k a, np = Packet.new a ∧ e1 = mkEnv (hw e) k (lent e) ∧ pages k (a :: l) ∧ takes 1 (mem e) k)
    as (k & a & -> & -> & Hk & Htk).
  { unfold packet_new, mbind, M_bind in Enp. destruct (on_mem page_new e) as [[a e2]| | |]; try done.
    injection Enp as <- <-. destruct Ha as (k & -> & Hk & Htk). by exists k, a. }
  set (e2 := mkEnv (hw e) k (<[a := replicate Packet.BUF_LEN 0]> (lent e))).
  rewrite (M_bind_Ok _ _ _ tt e2) by done.
  specialize (IH e2 (a :: l) Hk). unfold mbind, M_bind, mret, M_ret.
  destruct (fill_rx n e2) as [[[ds ps] e3]| | |]; [|done|exact (out_of_pages_after 1 n _ _ Htk IH)|done].
  destruct IH as (Hd & Hps & Hh & Htn & Hpages & Hall & Helse). cbn [length].
  assert (a ∉ paddr <$> ps) as Hna.
  { intros Hin. apply pages_nodup in Hpages. apply NoDup_app in Hpages as (_ & Hdis & _).
    by apply (Hdis a Hin); left. }
  split; [by f_equal|]. split; [by f_equal|]. split; [done|]. split; [exact (takes_app 1 n _ _ _ Htk Htn)|]. split.
  { eapply pages_perm; [|exact Hpages]. cbn [fmap list_fmap Packet.new paddr]. solve_Permutation. }
  split.
  - intros [|i] p Hp'; [|by apply Hall]. injection Hp' as <-. split; [done|]. split; [|apply new_fresh].
    cbn [Packet.new paddr buffer]. rewrite Helse by done. apply lookup_insert_eq.
  - intros b Hb. cbn [fmap list_fmap Packet.new paddr] in Hb. apply not_elem_of_cons in Hb as [Hba Hb].
    rewrite Helse by done. by apply lookup_insert_ne.
Qed.

Lemma sleep_until_ok fuel wait : ∀ e,
  wait - now (hw e) < Z.of_nat fuel → (1 ≤ fuel)%nat → ∃ h, sleep_until fuel wait e = Ok (tt, set_hw h e) ∧ slept wait (hw e) h.
Proof.
  induction fuel as [|fuel IH]; intros e Hf H1; [lia|]. cbn [sleep_until].
  destruct (tsc (hw e)) as [t h] eqn:Et. destruct (tsc_law _ _ _ Et) as (_ & _ & Hlt & Hnow).
  rewrite (M_bind_Ok _ _ _ t (set_hw h e)) by (unfold rdtsc; by rewrite Et).
  destruct (Z.ltb_spec t wait) as [Hw|Hw]; [|exists h; split; [done|by econstructor]].
  destruct (IH (set_hw h e)) as (h' & E & Hs); [cbn [set_hw hw]; lia|lia|]. exists h'. split; [done|by eapply slept_on].
Qed.
Lemma future_eq e t h : tsc (hw e) = (t, h) →
  future 20000 e = if t + 20000 * rate <? 2 ^ 64 then Ok (t + 20000 * rate, set_hw h e) else Panic.
Proof.
  intros Et. destruct (tsc_law _ _ _ Et) as (_ & H0 & _ & _). destruct (rate_law h) as [Hrate Hr].
  unfold future. rewrite (M_bind_Ok _ _ _ t (set_hw h e)) by (unfold rdtsc; by rewrite Et).
  rewrite (M_bind_Ok _ _ _ (set_hw h e) (set_hw h e)) by done. cbn [set_hw hw]. rewrite Hrate.
  destruct (Z.ltb_spec (t + 20000 * rate) (2 ^ 64)) as [Hlt|Hge].
  - rewrite mul_Ok by lia. rewrite (M_bind_Ok _ _ _ (20000 * rate) (set_hw h e)) by done. by rewrite add_Ok by lia.
  - unfold mul, checked_mul, mbind, M_bind.
    destruct (Z.ltb_spec (20000 * rate) (2 ^ 64)); [|done]. cbn [unwrap lift].
    unfold add, checked_add. by rewrite (proj2 (Z.ltb_ge _ _)) by lia.
Qed.
Lemma sleep_ok fuel e :
  20000 * rate < Z.of_nat fuel →
  ∃ t h, tsc (hw e) = (t, h) ∧
    ((∃ h', sleep fuel 20000 e = Ok (tt, set_hw h' e) ∧ slept (t + 20000 * rate) h h') ∨
     sleep fuel 20000 e = Panic ∧ 2 ^ 64 ≤ t + 20000 * rate).
Proof.
  intros Hf. destruct (tsc (hw e)) as [t h] eqn:Et. exists t, h. split; [done|]. destruct (tsc_law _ _ _ Et) as (_ & _ & _ & Hnow).
  pose proof (rate_law h). unfold sleep, mbind, M_bind. rewrite (future_eq e t h Et).
  destruct (Z.ltb_spec (t + 20000 * rate) (2 ^ 64)) as [Hlt|Hge].
  - left. destruct (sleep_until_ok fuel (t + 20000 * rate) (set_hw h e)) as (h' & E & Hs); [cbn [set_hw hw]; lia|lia|]. by exists h'.
  - by right.
Qed.

Lemma await_reset_ok fuel : ∀ e, (resetting (hw e) < fuel)%nat →
  ∃ h, await_reset fuel 0 e = Ok (tt, set_hw h e) ∧ reset_polled (hw e) h.
Proof.
  induction fuel as [|fuel IH]; intros e Hf; [lia|]. cbn [await_reset].
  destruct (mmio_read 0 (hw e)) as [v h] eqn:Ev.
  rewrite (M_bind_Ok _ _ _ v (set_hw h e)) by (unfold read; change (0 / 4) with 0; by rewrite Ev).
  rewrite PageMap.testbit_and_bit by lia. destruct (Z.testbit v 26) eqn:Et; [|exists h; split; [done|by econstructor]].
  pose proof (reset_law _ _ _ Ev Et). destruct (IH (set_hw h e)) as (h' & E & Hs); [cbn [set_hw hw]; lia|].
  exists h'. split; [done|by eapply polled_set].
Qed.

Lemma reset_ok fuel n e :
  regs n = NicRegisters_default → (patience < fuel)%nat → 20000 * rate < Z.of_nat fuel →
  (∃ h, reset fuel n e = Ok (tt, set_hw h e) ∧ was_reset (hw e) h) ∨ reset fuel n e = Panic ∧ late (hw e).
Proof.
  intros Hr Hp Hf. unfold reset, disable_interrupts. rewrite Hr.
  set (h1 := mmio_write (imc NicRegisters_default / 4) (unot 32 0) (hw e)).
  rewrite (M_bind_Ok _ _ _ tt (set_hw h1 e)) by done.
  set (h2 := mmio_write (ctrl NicRegisters_default / 4) (Z.shiftl 1 26) h1).
  rewrite (M_bind_Ok _ _ _ tt (set_hw h2 e)) by done.
  destruct (await_reset_ok fuel (set_hw h2 e)) as (h3 & E3 & Hpoll); [pose proof (reset_bound h2); cbn [set_hw hw]; lia|].
  rewrite (M_bind_Ok _ _ _ _ _ E3).
  assert (reset_started (hw e) h3) as Hst by exact Hpoll.
  destruct (sleep_ok fuel (set_hw h3 (set_hw h2 e)) Hf) as (t & h & Et & [(h4 & E4 & Hsl)|[E4 Hlate]]).
  - left. rewrite (M_bind_Ok _ _ _ _ _ E4). eexists. split; [done|]. by exists h3, t, h, h4.
  - right. split; [unfold mbind, M_bind; by rewrite E4|]. by exists h3, t, h.
Qed.

Lemma init_receive_ok n e :
  regs n = NicRegisters_default → length (rx_descs (rx_state n)) = 256%nat →
  init_receive n e = Ok (tt, set_hw (writes (rx_start (rx_base (rx_state n))) (hw e)) e).
Proof. intros Hr Hl. unfold init_receive, zlen. rewrite Hr, Hl. reflexivity. Qed.
Lemma init_transmit_ok n e :
  regs n = NicRegisters_default → length (tx_descs (tx_state n)) = 256%nat →
  init_transmit n e = Ok (tt, set_hw (writes (tx_start (tx_base (tx_state n))) (hw e)) e).
Proof. intros Hr Hl. unfold init_transmit, zlen. rewrite Hr, Hl. reflexivity. Qed.

Lemma byte_of x k : 0 ≤ k → Z.land (Z.shiftr x k) 0xFF = x / 2 ^ k mod 256.
Proof. intros Hk. change 0xFF with (2 ^ 8 - 1). by rewrite land_mask, Z.shiftr_div_pow2 by lia. Qed.
Lemma le_digits a l : u8 a → le_val (a :: l) mod 256 = a ∧ le_val (a :: l) / 256 = le_val l.
Proof.
  intros [? ?]. cbn [le_val]. rewrite Z.mul_comm. rewrite Z.mod_add, Z.div_add by lia.
  rewrite Z.mod_small, Z.div_small by lia. lia.
Qed.

Lemma read_mac_ok n e : regs n = NicRegisters_default →
  ∃ lo h1 hi h, mmio_read (0x5400 / 4) (hw e) = (lo, h1) ∧ mmio_read (0x5404 / 4) h1 = (hi, h) ∧
    read_mac n e = Ok (station, set_hw h e) ∧ view h = view (hw e).
Proof.
  intros Hr. destruct station_law as [Hl Hb]. destruct station as [|a [|b [|c [|d [|x [|y []]]]]]] eqn:Est; try done.
  unfold read_mac. rewrite Hr. cbn [ral rah NicRegisters_default].
  destruct (mmio_read (0x5400 / 4) (hw e)) as [lo h1] eqn:E1. destruct (mmio_read (0x5404 / 4) h1) as [hi h2] eqn:E2.
  rewrite (M_bind_Ok _ _ _ lo (set_hw h1 e)) by (unfold read; by rewrite E1).
  rewrite (M_bind_Ok _ _ _ hi (set_hw h2 e)) by (unfold read; cbn [set_hw hw]; by rewrite E2).
  destruct (mac_law (hw e)) as [Hlo _], (mac_law h1) as [_ Hhi]. rewrite E1 in Hlo. rewrite E2 in Hhi.
  rewrite Est in Hlo, Hhi. cbn [fst take drop] in Hlo, Hhi.
  repeat match goal with H : bytes_ok (_ :: _) |- _ => apply Forall_cons_iff in H as [? H] end.
  assert (0 ≤ le_val [x; y] < 2 ^ 16) as Hxy by (unfold fits in *; cbn [le_val]; lia).
  rewrite (M_bind_Ok _ _ _ tt (set_hw h2 e)).
  2:{ unfold lift, assert. rewrite testbit_and_bit, Hhi by lia.
      rewrite Z.add_comm, <-(Z.mul_1_l (2 ^ 31)), <-(lor_low 1 31) by lia.
      by rewrite Z.lor_spec. }
  exists lo, h1, hi, h2. split; [done|]. split; [done|]. split; [|by rewrite (read_law _ _ _ _ E2), (read_law _ _ _ _ E1)].
  unfold mret, M_ret. do 2 f_equal.
  rewrite <-(Z.shiftr_0_r lo) at 1. rewrite <-(Z.shiftr_0_r hi) at 1. rewrite !byte_of by lia.
  rewrite Hlo, Hhi. change (2 ^ 0) with 1. rewrite !Z.div_1_r.
  change (2 ^ 24) with (256 * 256 * 256). change (2 ^ 16) with (256 * 256). change (2 ^ 8) with 256.
  rewrite <-!Z.div_div by lia.
  destruct (le_digits a [b; c; d]) as [-> ->]; [done|]. destruct (le_digits b [c; d]) as [-> ->]; [done|].
  destruct (le_digits c [d]) as [-> ->]; [done|]. destruct (le_digits d []) as [-> _]; [done|].
  replace (le_val [x; y] + 2 ^ 31) with (le_val [x; y] + 2 ^ 23 * 256) by lia.
  rewrite Z.mod_add, Z.div_add by lia. destruct (le_digits x [y]) as [-> ->]; [done|].
  replace (2 ^ 23) with (2 ^ 15 * 256) by lia. rewrite Z.mod_add by lia. destruct (le_digits y []) as [-> _]; [done|]. done.
Qed.

Lemma started_inv e mm m a b ds ps cap others :
  view (hw e) = mkView [] 0 [] 255 → length ds = 256%nat → length ps = 256%nat →
  (∀ i p, ps !! i = Some p → ds !! i = Some (rx_default (paddr p)) ∧ lent e !! paddr p = Some (buffer p) ∧ fresh p) →
  pages (mem e) (others ++ (paddr <$> ps)) →
  inv (mkSt e (mkIntelNic NicRegisters_default mm m (mkRxState a ds ps 0)
    (mkTxState b (replicate 256 tx_default) (replicate 256 None) 0 0) [] cap)) [] [] 0 others.
Proof.
  intros Hv Hd Hps Hall Hp.
  split; cbn [env nic hw mem regs rx_state tx_state rx_descs rx_packets rx_head tx_descs tx_packets tx_head tx_tail packets];
    rewrite ?Hv; cbn [wire given arrived avail zlen length]; try done; try (unfold zlen; simpl; lia).
  - intros k Hk. apply lookup_replicate_2, slot_lt.
  - intros k Hk. destruct (lookup_lt_is_Some_2 ps (slot k)) as [p Hpk]; [rewrite Hps; apply slot_lt|].
    destruct (Hall _ _ Hpk) as (Hdk & Hl & Hf). exists p, (rx_default (paddr p)), (buffer p).
    cbn [env hw lent nic rx_state rx_packets rx_descs]. rewrite Hv. split_and!; try done. apply Hf.
  - unfold owned. cbn [nic rx_state tx_state rx_packets tx_packets packets].
    assert (∀ n, omap (λ o : option Packet, o) (replicate n None) = []) as -> by (induction n; done).
    by rewrite !app_nil_r.
Qed.

Lemma new_ok fuel device e l mm k1 :
  let phys := Pci.BarBits_u64 (Pci.bar0 device) (Pci.bar1 device) in
  map_mmio phys (mem e) = Ok (mm, k1) → pages k1 l → (patience < fuel)%nat → 20000 * rate < Z.of_nat fuel →
  match new fuel device e with
  | Ok (n, e') => ∃ a b, inv (mkSt e' n) [] [] 0 (a :: b :: l) ∧ mac n = station ∧ mmio n = mm ∧ launched (hw e) n (hw e')
  | Panic => Pci.BarType_from_bar (Pci.bar0 device) = Pci.IO ∨ Z.land phys (unot 64 4095) ≠ phys ∨ out_of_pages 258 k1 ∨ late (hw e)
  | _ => False
  end.
Proof.
  intros phys Em Hp1 Hpat Hrate. unfold new. fold phys.
  unfold mbind at 1, M_bind at 1, lift, assert.
  case_bool_decide as Hbar; [|left; by destruct (Pci.BarType_from_bar _)].
  unfold mbind at 1, M_bind at 1. change (4096 - 1) with 4095.
  destruct (Z.eqb_spec (Z.land phys (unot 64 4095)) phys) as [Hal|Hal]; [|by right; left].
  unfold mbind at 1, M_bind at 1, on_mem at 1. rewrite Em.
  set (e1 := mkEnv (hw e) k1 (lent e)). pose proof (page_new_ok e1 l Hp1) as Hn1. unfold mbind at 1, M_bind at 1.
  destruct (on_mem page_new e1) as [[a e2]| | |]; [|done|right; right; left; by exists 0%nat, k1; split; [lia|split; [constructor|]]|done]. destruct Hn1 as (k2 & -> & Hp2 & Ht2).
  set (e2 := mkEnv (hw e1) k2 (lent e1)). pose proof (fill_rx_ok (Z.to_nat RX_DESCS_N) e2 (a :: l) Hp2) as Hfill.
  unfold mbind at 1, M_bind at 1. change (Z.to_nat RX_DESCS_N) with 256%nat in *.
  destruct (fill_rx 256 e2) as [[[ds ps] e3]| | |]; [|done|right; right; left; eapply out_of_pages_le; [|exact (out_of_pages_after 1 256 _ _ Ht2 Hfill)]; lia|done].
  destruct Hfill as (Hds & Hps & Hh3 & Ht3 & Hp3 & Hall & _).
  pose proof (page_new_ok e3 _ Hp3) as Hn4. unfold mbind at 1, M_bind at 1.
  destruct (on_mem page_new e3) as [[b e4]| | |]; [|done| |done].
  2:{ right; right; left. exists 257%nat, (mem e3). split; [lia|]. split; [exact (takes_app 1 256 _ _ _ Ht2 Ht3)|done]. }
  destruct Hn4 as (k4 & -> & Hp4 & Ht4).
  cbv zeta. change (Z.to_nat TX_DESCS_N) with 256%nat. set (cap := Z.to_nat (TX_DESCS_N + RX_DESCS_N)).
  set (e4 := mkEnv (hw e3) k4 (lent e3)).
  set (n := mkIntelNic _ _ _ _ _ _ _).
  destruct (reset_ok fuel n e4 eq_refl Hpat Hrate) as [(h5 & E5 & Hreset)|[E5 Hlate]].
  2:{ unfold mbind at 1, M_bind at 1. rewrite E5. do 3 right. cbn [e4 hw] in Hlate. by rewrite Hh3 in Hlate. }
  rewrite (M_bind_Ok _ _ _ _ _ E5).
  rewrite (M_bind_Ok _ _ _ _ _ (init_receive_ok n (set_hw h5 e4) eq_refl Hds)).
  set (e6 := set_hw _ (set_hw h5 e4)).
  assert (length (tx_descs (tx_state n)) = 256%nat) as Htd by apply length_replicate.
  rewrite (M_bind_Ok _ _ _ _ _ (init_transmit_ok n e6 eq_refl Htd)). set (e7 := set_hw _ e6).
  destruct (read_mac_ok n e7 eq_refl) as (lo & h7 & hi & h8 & El & Eh & E8 & Hv8). rewrite (M_bind_Ok _ _ _ _ _ E8).
  unfold mret, M_ret. exists a, b. split; [|split; [done|]; split; [done|]; exists h5, lo, h7, hi; cbn [e4 hw] in Hreset; by rewrite Hh3 in Hreset].
  apply (started_inv (set_hw h8 e7)); try done.
  - cbn [set_hw hw]. rewrite Hv8. unfold e7, e6. cbn [set_hw hw]. apply start_law.
  - cbn [set_hw mem e7 e6 e4]. eapply pages_perm; [|exact Hp4]. cbn [app]. solve_Permutation.
Qed.

(** * The states of a driver *)
Definition contents (p : Packet) : list Z := take (Z.to_nat (len p)) (buffer p).

(** [hs]: the packets the clients hold; [out]: the frames they sent; [inp]: the
    frames they received.  Clients write into the packets they hold. *)
Inductive reach (fuel : nat) : St (H := H) (K := K) → list Packet → list (list Z) → list (list Z) → Prop :=
| reach_start s others : inv s [] [] 0 others → reach fuel s [] [] []
| reach_recv s hs out inp o s' : reach fuel s hs out inp → recv s = Ok (o, s') →
    reach fuel s' (option_list o ++ hs) out (inp ++ (contents <$> option_list o))
| reach_send s p hs hs' out inp flush s' : reach fuel s hs out inp → hs ≡ₚ p :: hs' →
    send fuel p flush s = Ok (tt, s') → reach fuel s' hs' (out ++ [frame_of p]) inp
| reach_allocate s hs out inp p s' : reach fuel s hs out inp → allocate_packet s = Ok (p, s') →
    reach fuel s' (p :: hs) out inp
| reach_release s p hs hs' out inp s' : reach fuel s hs out inp → hs ≡ₚ p :: hs' →
    release_packet p s = Ok (tt, s') → reach fuel s' hs' out inp
| reach_fill s p p' hs hs' out inp : reach fuel s hs out inp → hs ≡ₚ p :: hs' →
    paddr p' = paddr p → buf_ok p' → reach fuel s (p' :: hs') out inp.

Lemma inv_held s hs hs' out r others :
  inv s hs out r others → paddr <$> hs ≡ₚ paddr <$> hs' → Forall buf_ok hs' → inv s hs' out r others.
Proof.
  intros Hi Hp Hok. split; try apply Hi; [done|]. eapply pages_perm; [|exact (i_pages _ _ _ _ _ Hi)].
  unfold owned. rewrite !fmap_app, Hp. done.
Qed.
Lemma inv_perm s hs hs' out r others : inv s hs out r others → hs ≡ₚ hs' → inv s hs' out r others.
Proof. intros Hi Hp. eapply inv_held; [done|by rewrite Hp|]. rewrite <-Hp. apply Hi. Qed.

Lemma raw_contents p f : Packet.raw (E := unit) p = Ok f → contents p = f.
Proof.
  unfold Packet.raw, slice, get_range, contents. destruct (_ && _); [|done]. cbn [unwrap]. intros [= <-].
  by rewrite Z.sub_0_r, drop_0.
Qed.

Lemma reach_inv fuel s hs out inp :
  reach fuel s hs out inp → zlen out < 2 ^ 64 → (patience + 2 ≤ fuel)%nat →
  ∃ others, inv s hs out (zlen inp) others ∧ inp `prefix_of` arrived (the_view s).
Proof.
  intros Hr Hmax Hf. revert Hmax.
  induction Hr as [s others Hi|s hs out inp o s' _ IH E|s p hs hs' out inp flush s' _ IH Hp E
    |s hs out inp p s' _ IH E|s p hs hs' out inp s' _ IH Hp E|s p p' hs hs' out inp _ IH Hp Ha Hok]; intros Hmax.
  - exists others. split; [done|]. apply prefix_nil.
  - destruct (IH Hmax) as (others & Hi & Hpre). exists others. pose proof (recv_ok _ _ _ _ _ Hi) as Hrecv. rewrite E in Hrecv.
    destruct o as [p|].
    + change (option_list (Some p) ++ hs) with (p :: hs). change (contents <$> option_list (Some p)) with [contents p].
      destruct Hrecv as (Hi' & _ & Hpre' & f & Hf' & Hraw). apply raw_contents in Hraw. rewrite Hraw. split.
      * replace (zlen (inp ++ [f])) with (zlen inp + 1) by (unfold zlen; rewrite length_app; simpl; lia). done.
      * apply prefix_lookup_all. intros i x Hx. apply lookup_app_Some in Hx as [Hx|[Hge Hx]].
        -- eapply prefix_lookup_Some; [|exact Hpre']. by eapply prefix_lookup_Some.
        -- apply list_lookup_singleton_Some in Hx as [Hi0 <-]. rewrite <-Hf'. f_equal. unfold zlen. lia.
    + destruct Hrecv as (Hi' & _ & Hpre'). change (contents <$> option_list None) with (@nil (list Z)).
      rewrite app_nil_r. split; [done|]. by etrans.
  - assert (zlen out + 1 < 2 ^ 64) as Hmax' by (unfold zlen in *; rewrite length_app in Hmax; simpl in Hmax; lia).
    destruct (IH ltac:(lia)) as (others & Hi & Hpre). exists others. apply (inv_perm _ _ _ _ _ _ Hi) in Hp as Hi1.
    destruct (send_ok fuel p flush s hs' out _ others Hi1 Hmax' Hf) as (s1 & E1 & Hi2 & Hpre' & _).
    rewrite E in E1. injection E1 as <-. split; [done|]. by etrans.
  - destruct (IH Hmax) as (others & Hi & Hpre). exists others. pose proof (allocate_ok _ _ _ _ _ Hi) as Hal. rewrite E in Hal.
    destruct Hal as (_ & Hi' & k & ps & ->). done.
  - destruct (IH Hmax) as (others & Hi & Hpre). exists others. apply (inv_perm _ _ _ _ _ _ Hi) in Hp as Hi1.
    destruct (release_ok _ _ _ _ _ _ Hi1) as (s1 & E1 & Hi2 & k & ps & Es). rewrite E in E1. injection E1 as <-.
    by rewrite Es in Hi2 |- *.
  - destruct (IH Hmax) as (others & Hi & Hpre). exists others. split; [|done].
    apply (inv_perm _ _ _ _ _ _ Hi) in Hp as Hi1. eapply inv_held; [exact Hi1|by cbn; rewrite Ha|].
    constructor; [done|]. pose proof (i_held _ _ _ _ _ Hi1) as Hh. by apply Forall_cons_iff in Hh as [_ ?].
Qed.

(** ** What is handed over is sent *)
Lemma acts_add a b (h : H) d : acts (a + b) h d = let '(h', d') := acts a h d in acts b h' d'.
Proof.
  revert h d. induction a as [|a IH]; intros h d; [done|]. cbn [Nat.add acts]. destruct (dma h d). apply IH.
Qed.
Lemma polled_add a b s : polled (a + b) s = polled b (polled a s).
Proof.
  unfold polled at 1. rewrite acts_add. unfold polled. destruct (acts a (hw (env s)) (bus s)) as [h d].
  unfold bus. cbn [after env hw lent nic rx_state tx_state rx_descs tx_descs].
  assert (mkDma (rxd d) (txd d) (ram d) = d) as -> by (by destruct d). by destruct (acts b h d).
Qed.
Lemma polled_given n s hs out r others : inv s hs out r others → given (the_view (polled n s)) = given (the_view s).
Proof.
  intros Hi. induction n as [|n IH]; [by rewrite polled_0|]. rewrite <-IH.
  pose proof (polled_inv n _ _ _ _ _ Hi) as Hn. destruct (polled_S n s hs out r others Hn) as (E & _).
  destruct (poll_ok _ _ _ _ _ Hn) as (h & d & Ed & E' & _). rewrite E in E'. injection E' as ->.
  destruct (dma_law _ _ _ _ (inv_rings _ _ _ _ _ Hn) Ed) as [Ht _]. apply (txs_given _ _ _ _ Ht).
Qed.
Lemma drain n : ∀ s hs out r others, inv s hs out r others →
  given (the_view s) - zlen (wire (the_view s)) ≤ Z.of_nat n →
  zlen (wire (the_view (polled (n * patience) s))) = given (the_view s).
Proof.
  induction n as [|n IH]; intros s hs out r others Hi Hn; pose proof (i_given _ _ _ _ _ Hi).
  { cbn [Nat.mul]. rewrite polled_0. lia. }
  cbn [Nat.mul]. rewrite polled_add. pose proof (polled_inv patience _ _ _ _ _ Hi) as Hi'.
  rewrite <-(polled_given patience _ _ _ _ _ Hi). apply (IH _ hs out r others Hi').
  rewrite (polled_given patience _ _ _ _ _ Hi).
  pose proof (polled_wire 0 patience _ _ _ _ _ Hi ltac:(lia)) as Hw. rewrite polled_0 in Hw.
  destruct (Z.lt_ge_cases (zlen (wire (the_view s))) (given (the_view s))) as [Hlt|Hge]; [|lia].
  pose proof (patience_law (hw (env s)) (bus s) (inv_rings _ _ _ _ _ Hi) Hlt) as Hp.
  assert (the_view (polled patience s) = view (acts patience (hw (env s)) (bus s)).1) as ->; [|lia].
  unfold polled. by destruct (acts patience _ _).
Qed.
End construction.

(** * The driver's contract *)
Section contract.
Context {H K : Type} `{HHw : Hardware H} `{Hnic : !E1000 H} `{HKm : KernelMem K} `{Hpg : !KernelPages K}.
Context `{HKs : KernelSpace K} `{Hph : PhysMem K}.

(** C3. The driver is two queues.  In every state its clients can bring it to, what
    the NIC put on the wire is the beginning of what they sent, each frame padded
    to the minimum size, and what they received is the beginning of what arrived;
    every buffer has one owner; and every operation returns: [recv] gives the next
    frame that arrived or nothing if there is none, [send] waits no longer than
    the NIC needs, and only memory can run out. *)
Theorem intel_driver_correct fuel (s : St (H := H) (K := K)) hs out inp :
  reach fuel s hs out inp → zlen out + 1 < 2 ^ 64 → (patience + 2 ≤ fuel)%nat →
  wire (the_view s) `prefix_of` out ∧ inp `prefix_of` arrived (the_view s) ∧
  NoDup (paddr <$> owned s hs) ∧
  (∀ p hs' flush, hs ≡ₚ p :: hs' → ∃ s', send fuel p flush s = Ok (tt, s')) ∧
  (∀ p hs', hs ≡ₚ p :: hs' → ∃ s', release_packet p s = Ok (tt, s')) ∧
  match allocate_packet s with
  | Ok (p, s') => fresh p
  | Panic => no_pages (mem (env s))
  | _ => False
  end ∧
  match recv s with
  | Ok (None, s') => arrived (the_view s') = inp
  | Ok (Some p, s') => wf_packet p ∧ inp ++ [contents p] `prefix_of` arrived (the_view s')
  | Panic => no_pages (mem (env s))
  | _ => False
  end.
Proof.
  intros Hr Hmax Hf. destruct (reach_inv _ _ _ _ _ Hr ltac:(lia) Hf) as (others & Hi & Hpre).
  split; [apply Hi|]. split; [done|]. split; [by eapply owned_nodup|]. split; [|split; [|split]].
  - intros p hs' flush Hp. destruct (send_ok fuel p flush s hs' out _ others (inv_perm _ _ _ _ _ _ Hi Hp) Hmax Hf)
      as (s' & E & _). by exists s'.
  - intros p hs' Hp. destruct (release_ok _ _ _ _ _ _ (inv_perm _ _ _ _ _ _ Hi Hp)) as (s' & E & _). by exists s'.
  - pose proof (allocate_ok _ _ _ _ _ Hi) as Ha. destruct (allocate_packet s) as [[p s']| | |]; [by destruct Ha|done|by destruct Ha|done].
  - pose proof (recv_ok _ _ _ _ _ Hi) as Hrecv. destruct (recv s) as [[[p|] s']| | |]; try done.
    + destruct Hrecv as (_ & Hwf & Hpre' & f & Hf' & Hraw%raw_contents). split; [done|]. rewrite Hraw.
      apply prefix_lookup_all. intros i x Hx. apply lookup_app_Some in Hx as [Hx|[Hge Hx]].
      * eapply prefix_lookup_Some; [|exact Hpre']. by eapply prefix_lookup_Some.
      * apply list_lookup_singleton_Some in Hx as [Hi0 <-]. rewrite <-Hf'. f_equal. unfold zlen. lia.
    + destruct Hrecv as (_ & Hlen & Hpre'). symmetry. apply prefix_length_eq; [by etrans|]. unfold zlen in Hlen. lia.
Qed.

(** C22. A frame sent with [flush], and every one before it, is on the wire, in order
    and padded, after a bounded number of steps of the NIC. *)
Theorem intel_send_delivers fuel (s s' : St (H := H) (K := K)) p hs hs' out inp :
  reach fuel s hs out inp → hs ≡ₚ p :: hs' → zlen out + 1 < 2 ^ 64 → (patience + 2 ≤ fuel)%nat →
  send fuel p true s = Ok (tt, s') →
  wire (the_view (polled (255 * patience) s')) = out ++ [frame_of p].
Proof.
  intros Hr Hp Hmax Hf E. destruct (reach_inv _ _ _ _ _ Hr ltac:(lia) Hf) as (others & Hi & _).
  destruct (send_ok fuel p true s hs' out _ others (inv_perm _ _ _ _ _ _ Hi Hp) Hmax Hf) as (s1 & E1 & Hi1 & _ & Hg).
  rewrite E in E1. injection E1 as <-. specialize (Hg eq_refl).
  assert (zlen (out ++ [frame_of p]) = zlen out + 1) as Hlen by (unfold zlen; rewrite length_app; simpl; lia).
  pose proof (i_head _ _ _ _ _ Hi1). pose proof (i_room _ _ _ _ _ Hi1).
  pose proof (drain 255 _ _ _ _ _ Hi1 ltac:(lia)) as Hd.
  apply prefix_length_eq; [apply (polled_inv _ _ _ _ _ _ Hi1)|]. rewrite Hg, <-Hlen in Hd. unfold zlen in Hd. lia.
Qed.

(** C23. The driver's construction, where the registers can be mapped.  It returns with the
    NIC reset (its interrupts are masked, the reset bit is set and read until it is clear,
    20 ms pass), its rings set up and started and its address read, and with the driver
    in its initial state, with 256 buffers and nothing sent; or it panics, because the BAR is an
    I/O BAR or not on a page, because one of the 258 pages it takes cannot be had, or because the
    counter, read after this reset, is so late that the deadline overflows. *)
Theorem intel_new_correct fuel device (e : Env (H := H) (K := K)) l mm k1 :
  let phys := Pci.BarBits_u64 (Pci.bar0 device) (Pci.bar1 device) in
  map_mmio phys (mem e) = Ok (mm, k1) → pages k1 l → (patience < fuel)%nat → 20000 * rate < Z.of_nat fuel →
  match new fuel device e with
  | Ok (n, e') => reach fuel (mkSt e' n) [] [] [] ∧ mac n = station ∧ wire (view (hw e')) = [] ∧ length (rx_packets (rx_state n)) = 256%nat ∧
      mmio n = mm ∧ launched (hw e) n (hw e')
  | Panic => Pci.BarType_from_bar (Pci.bar0 device) = Pci.IO ∨ Z.land phys (unot 64 4095) ≠ phys ∨
      out_of_pages 258 k1 ∨ late (hw e)
  | _ => False
  end.
Proof.
  intros phys Em Hp Hpat Hrate. pose proof (new_ok fuel device e l mm k1 Em Hp Hpat Hrate) as Hn.
  destruct (new fuel device e) as [[n e']| | |]; try done. destruct Hn as (a & b & Hi & Hm & Hmm & Hl).
  split; [by eapply reach_start|]. split; [done|]. split; [|split; [apply Hi|done]].
  apply nil_length_inv. pose proof (i_given _ _ _ _ _ Hi) as Hg. unfold zlen in Hg. simpl in Hg. lia.
Qed.
End contract.
