(* ===== verification/IntelHeap.v ===== *)
(** The kernel's heap gives the e1000 driver its pages: the interface [KernelPages]
    of IntelRing.v, discharged by the contiguous allocations of KernelAlloc.v. *)
From Stdlib Require Import ZArith Lia.
From stdpp Require Import prelude list numbers gmap.
From S2P Require Import Prelude Packet PageMem KernelMm KernelHeap KernelAlloc.
From S2P Require Import PageTable Pci Intel IntelRing.

Module HeapPages.
(** [ContigPageAligned]: the page behind a physical address. *)
Definition page_block (a : Z) : PageMem.block := (Layout.KERNEL_PHYS_WINDOW_BASE + a, 4096).
#[global] Instance heap_mem : KernelMem Mm := {
  page_new := '(_, a, _) ← contig_new (replicate 4096 0); mret a;
  page_drop a := contig_drop (Layout.KERNEL_PHYS_WINDOW_BASE + a) 4096 }.

Lemma heap_perm s ns live live' : heap s ns live → live ≡ₚ live' → heap s ns live'.
Proof.
  intros Hh Hp. split; try apply Hh.
  - rewrite <-Hp. apply Hh.
  - rewrite <-Hp. apply Hh.
  - destruct (hp_mem _ _ _ Hh) as (rs & Hm & Hwf & Hlt & Hd). exists rs. split_and!; try done.
    intros b x Hb. apply Hd. by rewrite Hp.
Qed.
Lemma sep_nodup l : sep (page_block <$> l) → NoDup l.
Proof.
  induction l as [|a l IH]; [constructor|]. cbn [fmap list_fmap sep]. intros [Ha Hs]. constructor; [|by apply IH].
  intros Hin. rewrite Forall_forall in Ha. specialize (Ha (page_block a)).
  assert (PageMem.apart (page_block a) (page_block a)) as Hap.
  { apply Ha. by apply list_elem_of_fmap_2. }
  unfold PageMem.apart, page_block in Hap. cbn [fst snd] in Hap. lia.
Qed.
Lemma sep_app_l l l' : sep (l ++ l') → sep l.
Proof.
  induction l as [|b l IH]; [done|]. cbn [app sep]. intros [Hb Hs]. split; [|by apply IH].
  by apply Forall_app in Hb as [? _].
Qed.

#[global] Program Instance heap_pages : KernelPages Mm := {
  pages s l := ∃ live, heap_ok s ((page_block <$> l) ++ live); no_pages := no_page }.
Next Obligation.
  intros s l l' Hp [live [ns Hh]]. exists live, ns. eapply heap_perm; [exact Hh|]. by rewrite Hp.
Qed.
Next Obligation.
  intros s l [live [ns Hh]]. pose proof (hp_sep _ _ _ Hh) as Hs. by apply sep_app_l, sep_app_l, sep_nodup in Hs.
Qed.
Next Obligation.
  intros s l [live Hh]. cbn [page_new heap_mem].
  pose proof (contig_new_correct s _ (replicate 4096 0) Hh ltac:(unfold zlen; rewrite length_replicate; lia)) as Hc.
  unfold mbind, M_bind. destruct (contig_new (replicate 4096 0) s) as [[[[v a] n] s']| | |]; [|done..].
  destruct Hc as (_ & -> & _ & _ & _ & _ & _ & Hh' & _). exists live. exact Hh'.
Qed.
Next Obligation.
  intros s l a [live [ns Hh]]. cbn [page_drop heap_mem]. unfold contig_drop, dealloc.
  rewrite (M_bind_Ok _ _ _ 9%nat s) by done.
  destruct (lookup_lt_is_Some_2 ns 9) as [nodes Hi]; [rewrite (hp_len _ _ _ Hh); lia|].
  destruct (heap_push s ns _ 9 nodes _ Hh Hi) as (s' & nodes' & E & _ & Hh' & _).
  exists s'. split; [exact E|]. exists live. by eexists.
Qed.
End HeapPages.
