(* ===== verification/IntelSample.v ===== *)
(** A machine for the e1000 driver: a NIC that sends one frame and stores one frame
    per step, and a memory; they behave as the driver's theorems assume. *)
From Stdlib Require Import ZArith Lia.
From stdpp Require Import prelude list numbers gmap.
From S2P Require Import Prelude Cursor Packet Net NetBuild NetParse PageTable Pci Intel IntelRing IntelNic.
Import Intel IntelOps.

(** * A NIC *)
Module SampleNic.

(** [inbox]: the frames on their way to the machine. *)
Record Hw := mkHw { seen : View; inbox : list (list Z); clock : Z; busy : bool }.

Definition good (f : list Z) : bool :=
  forallb (λ b, (0 <=? b) && (b <? 256)) f && (zlen f <=? 1522).

Definition send_one (v : View) (d : Dma) : View * Dma :=
  match (if zlen (wire v) <? given v then fetch d (zlen (wire v)) else None) with
  | Some f => (mkView (wire v ++ [f]) (given v) (arrived v) (avail v),
               mkDma (rxd d) (alter marked (slot (zlen (wire v))) (txd d)) (ram d))
  | None => (v, d)
  end.
Definition store_one (v : View) (d : Dma) (f : list Z) : View * Dma :=
  match (if (zlen (arrived v) <? avail v) && good f then rxd d !! slot (zlen (arrived v)) else None) with
  | Some desc =>
      match ram d !! rx_addr desc with
      | Some b => (mkView (wire v) (given v) (arrived v ++ [f]) (avail v),
                   mkDma (<[slot (zlen (arrived v)) := mkRx (rx_addr desc) (zlen f) 0 1 0 0]> (rxd d)) (txd d)
                     (<[rx_addr desc := f ++ drop (length f) b]> (ram d)))
      | None => (v, d)
      end
  | None => (v, d)
  end.

Definition dma (h : Hw) (d : Dma) : Hw * Dma :=
  let '(v, d) := send_one (seen h) d in
  match inbox h with
  | [] => (mkHw v [] (clock h) (busy h), d)
  | f :: rest => let '(v, d) := store_one v d f in (mkHw v rest (clock h) (busy h), d)
  end.
Definition mmio_write (r x : Z) (h : Hw) : Hw :=
  let v := seen h in
  let v := if r =? 0x3818 / 4 then mkView (wire v) (next_at (zlen (wire v)) x) (arrived v) (avail v)
    else if r =? 0x2818 / 4 then mkView (wire v) (given v) (arrived v) (next_at (zlen (arrived v)) x)
    else if r =? 0x3810 / 4 then mkView [] (given v) (arrived v) (avail v)
    else if r =? 0x2810 / 4 then mkView (wire v) (given v) [] (avail v)
    else v in
  mkHw v (inbox h) (clock h) (if r =? 0 then Z.testbit x 26 else busy h).
Definition mmio_read (r : Z) (h : Hw) : Z * Hw :=
  (if r =? 0 then (if busy h then 2 ^ 26 else 0)
   else if r =? 0x5400 / 4 then le_val [0x52; 0x54; 0x00; 0x12]
   else if r =? 0x5404 / 4 then le_val [0x34; 0x56] + 2 ^ 31 else 0,
   mkHw (seen h) (inbox h) (clock h) (if r =? 0 then false else busy h)).
Definition tsc (h : Hw) : Z * Hw :=
  (Z.max 0 (clock h) + 100000, mkHw (seen h) (inbox h) (Z.max 0 (clock h) + 100000) (busy h)).

#[global] Instance hardware : Hardware Hw := {
  Intel.mmio_read := mmio_read; Intel.mmio_write := mmio_write; Intel.dma := dma;
  Intel.tsc := tsc; hw_mhz := λ _, 3 }.

Lemma good_ok f : good f = true → frame_ok f.
Proof.
  unfold good. rewrite andb_true_iff, Z.leb_le. intros [Hf Hl]. split; [|done].
  apply Forall_forall. intros x Hx. rewrite forallb_forall in Hf.
  specialize (Hf x). rewrite andb_true_iff, Z.leb_le, Z.ltb_lt in Hf. unfold fits. 
  first [specialize (Hf Hx)|specialize (Hf (proj1 (list_elem_of_In _ _) Hx))]; lia.
Qed.

Lemma send_one_ok v d v' d' : rings_ok v d → send_one v d = (v', d') →
  tx_step v d v' d' ∧ arrived v' = arrived v ∧ avail v' = avail v ∧ rxd d' = rxd d ∧ ram d' = ram d ∧
  (zlen (wire v) < given v → zlen (wire v') = zlen (wire v) + 1).
Proof.
  intros Hr. unfold send_one. destruct (Z.ltb_spec (zlen (wire v)) (given v)) as [Hlt|Hge].
  - destruct (ro_fetch _ _ Hr (zlen (wire v))) as [f Hf]; [lia|]. rewrite Hf. intros [= <- <-].
    assert (zlen (wire v ++ [f]) = zlen (wire v) + 1) as Hl by (unfold zlen; rewrite length_app; simpl; lia).
    split; [|by cbn [wire]]. split; cbn [wire given txd]; try done.
    + exists [f]. split; [done|]. intros i x Hx. apply list_lookup_singleton_Some in Hx as [-> <-].
      by rewrite Z.add_0_r.
    + lia.
    + apply length_alter.
    + intros k Hk. rewrite Hl in Hk. replace k with (zlen (wire v)) by lia. apply list_lookup_alter_eq.
    + intros j Hj. apply list_lookup_alter_ne. apply Hj. rewrite Hl. lia.
  - intros [= <- <-]. split; [|split_and!; try done; lia]. split; try done.
    + exists []. split; [by rewrite app_nil_r|]. by intros i x Hx.
    + apply (ro_given _ _ Hr).
    + intros k Hk. lia.
Qed.

Lemma rx_same v d v' d' : arrived v' = arrived v → avail v' = avail v → rxd d' = rxd d → ram d' = ram d →
  zlen (arrived v) ≤ avail v → rx_step v d v' d'.
Proof.
  intros Ha Hv Hr Hm Hle. split; rewrite ?Ha, ?Hr, ?Hm; try done.
  - exists []. split; [by rewrite app_nil_r|]. split; [constructor|]. by intros i x Hx.
  - intros a b Hb Hok. by exists b.
Qed.
Lemma store_one_ok v d f v' d' : rings_ok v d → store_one v d f = (v', d') →
  rx_step v d v' d' ∧ wire v' = wire v ∧ given v' = given v ∧ txd d' = txd d.
Proof.
  intros Hr. unfold store_one. pose proof (ro_avail _ _ Hr) as Hav.
  assert (∀ v0 d0, (v, d) = (v0, d0) → rx_step v d v0 d0 ∧ wire v0 = wire v ∧ given v0 = given v ∧ txd d0 = txd d) as Hsame.
  { intros v0 d0 [= <- <-]. split; [|done]. apply rx_same; done || lia. }
  destruct (Z.ltb_spec (zlen (arrived v)) (avail v)) as [Hlt|Hge]; [|exact (Hsame v' d')].
  destruct (good f) eqn:Hg; [|exact (Hsame v' d')]. cbn [andb]. apply good_ok in Hg.
  destruct (rxd d !! slot (zlen (arrived v))) as [desc|] eqn:Hd; [|exact (Hsame v' d')].
  destruct (ro_buf _ _ Hr (zlen (arrived v)) desc ltac:(lia) Hd) as (b & Hb & Hok). rewrite Hb. intros [= <- <-]. split; [|done].
  assert (zlen (arrived v ++ [f]) = zlen (arrived v) + 1) as Hl by (unfold zlen; rewrite length_app; simpl; lia).
  destruct Hg as [Hfb Hfl]. destruct Hok as [Hlb Hbb].
  assert (length f ≤ 4096)%nat as Hf4 by (unfold zlen in Hfl; lia).
  assert (page_ok (f ++ drop (length f) b)) as Hpage.
  { split; [rewrite length_app, length_drop, Hlb; unfold Packet.BUF_LEN; lia|]. apply Forall_app. split; [done|by apply Forall_drop]. }
  split; cbn [arrived avail rxd ram]; try done.
  - exists [f]. split; [done|]. split; [by repeat constructor|]. intros i x Hx.
    apply list_lookup_singleton_Some in Hx as [-> <-]. rewrite Z.add_0_r.
    exists desc, (mkRx (rx_addr desc) (zlen f) 0 1 0 0), (f ++ drop (length f) b).
    rewrite list_lookup_insert_eq, lookup_insert_eq by (by eapply lookup_lt_Some).
    split_and!; try done. apply take_app_length.
  - lia.
  - apply length_insert.
  - intros j Hj. apply list_lookup_insert_ne. apply Hj. rewrite Hl. lia.
  - intros a Ha. apply lookup_insert_ne. apply (Ha (zlen (arrived v))); [lia|done].
  - intros a c Hc Hcok. destruct (decide (a = rx_addr desc)) as [->|Hne].
    + exists (f ++ drop (length f) b). by rewrite lookup_insert_eq.
    + exists c. by rewrite lookup_insert_ne by done.
Qed.

Lemma rings_after v d v' d' : rings_ok v d → tx_step v d v' d' → arrived v' = arrived v → avail v' = avail v →
  rxd d' = rxd d → ram d' = ram d → rings_ok v' d'.
Proof.
  intros Hr Ht Ha Hv Hrx Hm. destruct (txs_wire _ _ _ _ Ht) as (o & Hw & _).
  pose proof (txs_max _ _ _ _ Ht). pose proof (txs_given _ _ _ _ Ht) as Hg. pose proof (ro_given _ _ Hr).
  assert (zlen (wire v) ≤ zlen (wire v')) by (rewrite Hw; unfold zlen; rewrite length_app; lia).
  split; rewrite ?Ha, ?Hv, ?Hrx, ?Hm, ?Hg; try apply Hr; [by rewrite (txs_len _ _ _ _ Ht); apply Hr|lia|].
  intros k Hk. destruct (ro_fetch _ _ Hr k ltac:(lia)) as [f Hf]. exists f. unfold fetch in *.
  rewrite (txs_else _ _ _ _ Ht), Hm; [done|]. intros k' Hk' E. apply slot_inj in E; lia.
Qed.

Lemma dma_ok h d h' d' : rings_ok (seen h) d → dma h d = (h', d') →
  tx_step (seen h) d (seen h') d' ∧ rx_step (seen h) d (seen h') d' ∧
  (zlen (wire (seen h)) < given (seen h) → zlen (wire (seen h')) = zlen (wire (seen h)) + 1).
Proof.
  intros Hr. unfold dma. destruct (send_one (seen h) d) as [v1 d1] eqn:E1.
  destruct (send_one_ok _ _ _ _ Hr E1) as (Ht & Ha & Hv & Hrx & Hm & Hinc).
  destruct (inbox h) as [|f rest].
  { intros [= <- <-]. split; [done|]. split; [|done]. apply rx_same; try done. apply (ro_avail _ _ Hr). }
  destruct (store_one v1 d1 f) as [v2 d2] eqn:E2. intros [= <- <-]. cbn [seen].
  destruct (store_one_ok _ _ _ _ _ (rings_after _ _ _ _ Hr Ht Ha Hv Hrx Hm) E2) as (Hs & Hw & Hg & Htx).
  split; [|split].
  - destruct Ht as [T1 T2 T3 T4 T5 T6]. split; rewrite ?Hw, ?Hg, ?Htx; done.
  - destruct Hs as [S1 S2 S3 S4 S5 S6 S7]. rewrite Ha, Hv, Hrx, Hm in *. split; done.
  - by rewrite Hw.
Qed.

#[global] Program Instance e1000 : E1000 Hw := {
  view := seen; patience := 1; resetting h := if busy h then 1%nat else 0%nat;
  station := [0x52; 0x54; 0x00; 0x12; 0x34; 0x56]; now h := Z.max 0 (clock h); rate := 3 }.
Next Obligation. intros h d h' d' Hr E. by destruct (dma_ok _ _ _ _ Hr E) as (? & ? & _). Qed.
Next Obligation.
  intros h d Hr Hlt. cbn [acts]. change (Intel.dma h d) with (dma h d). destruct (dma h d) as [h' d'] eqn:E.
  destruct (dma_ok _ _ _ _ Hr E) as (_ & _ & Hinc). cbn [fst]. rewrite Hinc by done. lia.
Qed.
Next Obligation. done. Qed.
Next Obligation. done. Qed.
Next Obligation. done. Qed.
Next Obligation. intros h. cbv beta. destruct (busy h); lia. Qed.
Next Obligation. intros h v h' [= <- <-] Hb. cbn [busy]. cbv beta. destruct (busy h); [lia|done]. Qed.
Next Obligation. by intros r h v h' [= _ <-]. Qed.
Next Obligation. split; [done|]. by repeat constructor. Qed.
Next Obligation. done. Qed.
Next Obligation. done. Qed.
Next Obligation. intros h t h' [= <- <-]. cbn [seen clock]. split_and!; try done; lia. Qed.
End SampleNic.

(** * A memory *)
Module SampleMem.

(** Pages are handed out from [next] on; the first four pages are page tables, each
    entry of one leading to the next, the last one empty. *)
Record Km := mkKm { next : Z; bytes : gmap Z Z; va : Z }.
Definition table_byte (q : Z) : Z :=
  if (0 <=? q) && (q <? 3 * 4096)
  then default 0 (le_bytes 8 ((q / 4096 + 1) * 4096 + 7) !! Z.to_nat (q mod 8)) else 0.

#[global] Instance phys : PhysMem Km := {
  translate p _ _ := Some p;
  alloc_phys _ _ k := (None, k);
  peek q k := default (table_byte q) (bytes k !! q);
  poke q b k := mkKm (next k) (<[q := b]> (bytes k)) (va k) }.
#[global] Instance mem : KernelMem Km := {
  page_new k := Ok (next k, mkKm (next k + 4096) (bytes k) (va k));
  page_drop _ k := Ok (tt, k) }.
#[global] Instance space : KernelSpace Km := {
  vaddr_4k size k := Ok (va k, mkKm (next k) (bytes k) (va k + size + 4096));
  kernel_table _ := Some 0 }.
#[global] Program Instance pages_laws : KernelPages Km := {
  pages k l := NoDup l ∧ Forall (λ a, a < next k) l; no_pages _ := False }.
Next Obligation. intros k l l' Hp [Hn Hf]. by rewrite <-Hp. Qed.
Next Obligation. by intros k l [? _]. Qed.
Next Obligation.
  intros k l [Hn Hf]. cbn [page_new mem next]. split.
  - constructor; [|done]. intros Hin. rewrite Forall_forall in Hf. specialize (Hf _ Hin). lia.
  - constructor; [lia|]. eapply Forall_impl; [exact Hf|]. cbv beta. intros; lia.
Qed.
Next Obligation.
  intros k l a [Hn Hf]. exists k. split; [done|].
  apply NoDup_cons in Hn as [_ Hn]. by apply Forall_cons_iff in Hf as [_ ?].
Qed.
End SampleMem.

(** * The driver on them *)
Module SampleDriver.
Import SampleNic SampleMem.

Definition frame : list Z := replicate 60 7.
Definition device : Pci.DeviceConfig := Reference.config_of Sample.registers (0, 3, 0).
Definition env0 : Env (H := Hw) (K := Km) :=
  mkEnv (mkHw (mkView [] 0 [] 0) [frame] 0 false) (mkKm 0x100000 ∅ 0xFFFF800000000000) ∅.
Definition fuel : nat := Z.to_nat 60001.
Definition bar : Z := Pci.BarBits_u64 (Pci.bar0 device) (Pci.bar1 device).
Definition mapped : Z * Km :=
  match map_mmio bar (IntelOps.mem env0) with Ok r => r | _ => (0, IntelOps.mem env0) end.
Definition is_ok {E A} (r : res E A) : bool := match r with Ok _ => true | _ => false end.

Lemma mapped_ok : map_mmio bar (IntelOps.mem env0) = Ok (mapped.1, mapped.2).
Proof.
  assert (is_ok (map_mmio bar (IntelOps.mem env0)) = true) as Hok by (vm_compute; reflexivity).
  unfold mapped. destruct (map_mmio bar (IntelOps.mem env0)) as [[v k]| | |]; done.
Qed.
Lemma new_is_ok : is_ok (new fuel device env0) = true.
Proof. vm_compute. reflexivity. Qed.

Lemma intel_new_correct_witness :
  ∃ n e', new fuel device env0 = Ok (n, e') ∧ mac n = [0x52; 0x54; 0x00; 0x12; 0x34; 0x56] ∧ wire (view (hw e')) = [].
Proof.
  pose proof (intel_new_correct fuel device env0 [] mapped.1 mapped.2 mapped_ok) as Hn.
  specialize (Hn ltac:(split; constructor) ltac:(unfold fuel; cbn [patience e1000]; lia) ltac:(unfold fuel; cbn [rate e1000]; lia)).
  pose proof new_is_ok as Hok. destruct (new fuel device env0) as [[n e']| | |]; [|discriminate Hok..].
  destruct Hn as (_ & Hm & Hw & _). exists n, e'. split; [reflexivity|]. split; [exact Hm|exact Hw].
Defined.

(** A client that allocated a packet and wrote five bytes into it. *)
Definition filled (p : Packet) : Packet := mkPacket ([1; 2; 3; 4; 5] ++ drop 5 (buffer p)) 5 (paddr p).
Lemma filled_ok p : buf_ok p → buf_ok (filled p).
Proof.
  intros [[Hl Hb] _]. split; [|cbn; lia]. split.
  - cbn [filled buffer]. rewrite length_app, length_drop, Hl. unfold Packet.BUF_LEN. simpl. lia.
  - cbn [filled buffer]. apply Forall_app. split; [by repeat constructor|by apply Forall_drop].
Qed.
Lemma client : ∃ s p, reach fuel s [filled p] [] [] ∧ frame_of (filled p) = [1; 2; 3; 4; 5] ++ replicate 59 0.
Proof.
  pose proof (new_ok fuel device env0 [] mapped.1 mapped.2 mapped_ok) as Hn.
  specialize (Hn ltac:(split; constructor) ltac:(unfold fuel; cbn [patience e1000]; lia) ltac:(unfold fuel; cbn [rate e1000]; lia)).
  pose proof new_is_ok as Hok. destruct (new fuel device env0) as [[n e']| | |]; try discriminate Hok.
  destruct Hn as (a & b & Hi & _). pose proof (reach_start fuel _ _ Hi) as Hr.
  pose proof (allocate_ok _ _ _ _ _ Hi) as Ha.
  destruct (allocate_packet (mkSt e' n)) as [[p s]| | |] eqn:E; [|done|by destruct Ha as [_ []]|done].
  destruct Ha as (Hf & _). pose proof (reach_allocate _ _ _ _ _ _ _ Hr E) as Hr1.
  exists s, p. split; [|reflexivity].
  apply (reach_fill fuel s p (filled p) [p] [] [] []); [done|done|done|]. by apply filled_ok, fresh_buf.
Qed.

Lemma intel_driver_correct_witness :
  ∃ s p, reach fuel s [filled p] [] [] ∧ (∃ s', send fuel (filled p) true s = Ok (tt, s')) ∧
    wire (the_view s) = [].
Proof.
  destruct client as (s & p & Hr & _). exists s, p.
  destruct (intel_driver_correct fuel s [filled p] [] [] Hr) as (Hw & _ & _ & Hsend & _);
    [unfold zlen; simpl; lia|unfold fuel; cbn [patience e1000]; lia|].
  split; [exact Hr|]. split; [exact (Hsend (filled p) [] true ltac:(reflexivity))|]. exact (prefix_nil_inv _ Hw).
Defined.

Lemma intel_send_delivers_witness :
  ∃ s p s', send fuel (filled p) true s = Ok (tt, s') ∧
    wire (the_view (polled 255 s')) = [[1; 2; 3; 4; 5] ++ replicate 59 0].
Proof.
  destruct client as (s & p & Hr & Hf).
  assert (zlen (@nil (list Z)) + 1 < 2 ^ 64) as Hmax by (unfold zlen; simpl; lia).
  assert (patience + 2 ≤ fuel)%nat as Hfuel by (unfold fuel; cbn [patience e1000]; lia).
  destruct (reach_inv _ _ _ _ _ Hr ltac:(lia) Hfuel) as (others & Hi & _).
  destruct (send_ok fuel (filled p) true s [] [] _ others Hi Hmax Hfuel) as (s' & E & _).
  pose proof (intel_send_delivers fuel s s' (filled p) [filled p] [] [] [] Hr ltac:(reflexivity) Hmax Hfuel E) as Hw.
  exists s, p, s'. split; [exact E|]. rewrite Hf in Hw. exact Hw.
Defined.
End SampleDriver.
