(* ===== verification/Acpi.v ===== *)
(** ACPI tables: kernel/src/acpi (acpi.rs, madt.rs, srat.rs) and
    bootloader/src/efi/acpi/acpi.rs.

    Tables are read through raw pointers: [rd] is the byte behind a pointer.  The
    kernel reads them through the window onto physical memory. *)
From Stdlib Require Import ZArith Lia.
From stdpp Require Import prelude list numbers gmap.
From S2P Require Import Prelude Packet Ranges KernelMm.
Import Layout.

Module Acpi.

Definition ENABLED : Z := Z.shiftl 1 0.
Definition ONLINE_CAPABLE : Z := Z.shiftl 1 1.

Inductive Table := MadtTable | SratTable | UnknownTable (signature : list Z).
Inductive Error :=
| Acpi20NotFound | SignatureMismatch (t : Table) | SizeMismatch (t : Table) | ChecksumMismatch (t : Table)
| UnhandledFlags | MemoryAffinityOverflow.

(** ["APIC"] and ["SRAT"] *)
Definition APIC_SIG : list Z := [65; 80; 73; 67].
Definition SRAT_SIG : list Z := [83; 82; 65; 84].
Definition from_sig (signature : list Z) : Table :=
  if decide (signature = APIC_SIG) then MadtTable
  else if decide (signature = SRAT_SIG) then SratTable
  else UnknownTable signature.

Section tables.
Context (rd : Z → Z).

(** [n] bytes at [p], and the little-endian integer they hold. *)
Definition bytes_at (p : Z) (n : nat) : list Z := (λ k, rd (p + Z.of_nat k)) <$> seq 0 n.
Definition read_le (p : Z) (n : nat) : Z := le_val (bytes_at p n).

(** ** The header of a table *)
Definition SDT_HEADER_SIZE : Z := 36.
Definition hdr_signature (hdr : Z) : list Z := bytes_at hdr 4.
Definition hdr_length (hdr : Z) : Z := read_le (hdr + 4) 4.
Definition checksum_valid (hdr : Z) : bool :=
  foldl (λ x b, wrapping_add 8 x b) 0 (bytes_at hdr (Z.to_nat (hdr_length hdr))) =? 0.

(** ** Entries *)
Record TableEntry := mkTableEntry { typ : Z; len : Z; ptr : Z }.
Definition read_entry (e : TableEntry) (offset : Z) (n : nat) : Z := read_le (ptr e + offset) n.

Fixpoint collect (fuel : nat) (p end_ : Z) (t : Table) : res Error (list TableEntry) :=
  match fuel with
  | O => Diverge
  | S fuel =>
      if p <? end_ then
        let ty := rd p in
        let l := rd (p + 1) in
        if l <? 2 then Err (SizeMismatch t)
        else es ← collect fuel (p + l) end_ t; Ok (mkTableEntry ty l p :: es)
      else Ok []
  end.
Definition parse_table_entries (hdr offset : Z) : res Error (list TableEntry) :=
  collect (S (Z.to_nat (hdr_length hdr))) (hdr + (SDT_HEADER_SIZE + offset)) (hdr + hdr_length hdr)
    (from_sig (hdr_signature hdr)).

(** ** MADT *)
Definition usable (flags : Z) : bool :=
  negb (Z.land flags ENABLED =? 0) || negb (Z.land flags ONLINE_CAPABLE =? 0).

Fixpoint madt_entries (apics : list Z) (entries : list TableEntry) : res Error (list Z) :=
  match entries with
  | [] => Ok apics
  | entry :: entries =>
      if typ entry =? 0 then
        if negb (len entry =? 8) then Err (SizeMismatch MadtTable)
        else
          let id := read_entry entry 3 1 in
          let flags := read_entry entry 4 4 in
          madt_entries (if usable flags then apics ++ [id] else apics) entries
      else if typ entry =? 9 then
        if negb (len entry =? 16) then Err (SizeMismatch MadtTable)
        else
          let id := read_entry entry 4 4 in
          let flags := read_entry entry 8 4 in
          madt_entries (if usable flags then apics ++ [id] else apics) entries
      else madt_entries apics entries
  end.
(** [Madt { apics }] *)
Definition madt_parse (hdr : Z) : res Error (list Z) :=
  entries ← parse_table_entries hdr (2 * 4); madt_entries [] entries.

(** ** SRAT *)
Record Srat := mkSrat { apic_to_domain : gmap Z Z; domain_to_ranges : gmap Z RangeSet }.

Definition add_affinity (id domain flags : Z) (srat : Srat) : Srat :=
  if negb (Z.land flags ENABLED =? 0)
  then mkSrat (<[id := domain]> (apic_to_domain srat)) (domain_to_ranges srat) else srat.

Definition add_memory (domain start length flags : Z) (srat : Srat) : res Error Srat :=
  if (0 <? length) && negb (Z.land flags ENABLED =? 0) then
    e ← ok_or (checked_sub length 1) MemoryAffinityOverflow;
    e ← ok_or (checked_add 64 start e) MemoryAffinityOverflow;
    range ← unwrap_res (Range.new start e);
    match RangeSet.insert range (default RangeSet.new (domain_to_ranges srat !! domain)) with
    | Ok (_, rs) => Ok (mkSrat (apic_to_domain srat) (<[domain := rs]> (domain_to_ranges srat)))
    | Err _ => Err MemoryAffinityOverflow
    | Panic => Panic
    | Diverge => Diverge
    end
  else Ok srat.

Definition srat_entry (entry : TableEntry) (srat : Srat) : res Error Srat :=
  if typ entry =? 0 then
    if negb (len entry =? 16) then Err (SizeMismatch SratTable)
    else
      let id := read_entry entry 3 1 in
      let flags := read_entry entry 4 4 in
      let domain := le_val [rd (ptr entry + 2); rd (ptr entry + 9); rd (ptr entry + 10); rd (ptr entry + 11)] in
      Ok (add_affinity id domain flags srat)
  else if typ entry =? 1 then
    if negb (len entry =? 40) then Err (SizeMismatch SratTable)
    else
      let domain := read_entry entry 2 4 in
      let start := read_entry entry 8 8 in
      let length := read_entry entry 16 8 in
      let flags := read_entry entry 28 4 in
      add_memory domain start length flags srat
  else if typ entry =? 2 then
    if negb (len entry =? 24) then Err (SizeMismatch SratTable)
    else
      let domain := read_entry entry 4 4 in
      let id := read_entry entry 8 4 in
      let flags := read_entry entry 12 4 in
      Ok (add_affinity id domain flags srat)
  else Panic.
Fixpoint srat_entries (srat : Srat) (entries : list TableEntry) : res Error Srat :=
  match entries with
  | [] => Ok srat
  | entry :: entries => srat ← srat_entry entry srat; srat_entries srat entries
  end.
Definition srat_parse (hdr : Z) : res Error Srat :=
  entries ← parse_table_entries hdr 12; srat_entries (mkSrat ∅ ∅) entries.

(** ** All tables *)
(** shared_data: [SdtTable] *)
Record SdtTable := mkSdtTable { n_entries : Z; base : Z }.

(** The [n] tables from [entry] on; [v] is the window's address of their list. *)
Fixpoint parse_tables (n : nat) (entry v : Z) (found : option (list Z) * option Srat)
    : res Error (option (list Z) * option Srat) :=
  match n with
  | O => Ok found
  | S n =>
      offset ← unwrap (checked_mul 64 entry 8);
      p ← unwrap (checked_add 64 v offset);
      table ← unwrap_res (phys_ptr (read_le p 8));
      found ← match from_sig (hdr_signature table) with
              | MadtTable => apics ← madt_parse table; Ok (Some apics, found.2)
              | SratTable => srat ← srat_parse table; Ok (found.1, Some srat)
              | UnknownTable _ => Ok found
              end;
      parse_tables n (entry + 1) v found
  end.
Definition max_apic_id (madt : option (list Z)) : Z :=
  match madt with Some apics => foldl Z.max 0 apics | None => 0 end.
(** What [init] hands on: the highest APIC id, the topology and the cores. *)
Definition init_tables (sdt : SdtTable) : res Error (Z * option Srat * option (list Z)) :=
  v ← unwrap_res (phys_ptr (base sdt));
  '(madt, srat) ← parse_tables (Z.to_nat (n_entries sdt)) 0 v (None, None);
  Ok (max_apic_id madt, srat, madt).

End tables.
End Acpi.

(** * The bootloader's part *)
Module EfiAcpi.
Import Acpi.

Record Guid := mkGuid { d1 : Z; d2 : Z; d3 : Z; d4 : list Z }.
#[global] Instance Guid_eq_dec : EqDecision Guid.
Proof. solve_decision. Defined.
Definition ACPI_20_TABLE_GUID : Guid :=
  mkGuid 0x8868e871 0xe4f1 0x11d3 [0xbc; 0x22; 0x00; 0x80; 0xc7; 0x3c; 0x88; 0x81].

Inductive Table := Rsdp | Xsdt | Unknown (signature : list Z).
#[global] Instance Table_eq_dec : EqDecision Table.
Proof. solve_decision. Defined.
Inductive Error :=
| Acpi20NotFound | SignatureMismatch (t : Table) | SizeMismatch (t : Table) | ChecksumMismatch (t : Table).
(** ["XSDT"] and ["RSD PTR "] *)
Definition XSDT_SIG : list Z := [88; 83; 68; 84].
Definition RSDP_SIG : list Z := [82; 83; 68; 32; 80; 84; 82; 32].
Definition from_sig (signature : list Z) : Table :=
  if decide (signature = XSDT_SIG) then Xsdt else Unknown signature.

Section tables.
Context (rd : Z → Z).
Definition RSDP_SIZE : Z := 33.
Definition byte_sum (p n : Z) : Z := foldl (λ x b, wrapping_add 8 x b) 0 (bytes_at rd p (Z.to_nat n)).

(** [tables]: the configuration tables of the firmware. *)
Definition from_system_table (tables : list (Guid * Z)) : res Error Z :=
  rsdp ← ok_or (snd <$> list_find (λ t, t.1 = ACPI_20_TABLE_GUID) tables) Acpi20NotFound;
  let rsdp := rsdp.2 in
  let length := read_le rd (rsdp + 20) 4 in
  if length <? RSDP_SIZE then Err (SizeMismatch Rsdp)
  else if decide (bytes_at rd rsdp 8 ≠ RSDP_SIG) then Err (SignatureMismatch Rsdp)
  else if negb (byte_sum rsdp length =? 0) then Err (ChecksumMismatch Rsdp)
  else Ok rsdp.

Definition get_sdt_table (tables : list (Guid * Z)) : res Error SdtTable :=
  rsdp ← from_system_table tables;
  let xsdt := read_le rd (rsdp + 24) 8 in
  if decide (from_sig (hdr_signature rd xsdt) ≠ Xsdt) then Err (SignatureMismatch Xsdt)
  else if negb (checksum_valid rd xsdt) then Err (ChecksumMismatch Xsdt)
  else
    base ← add 64 xsdt SDT_HEADER_SIZE;
    n ← unwrap (checked_sub (hdr_length rd xsdt) SDT_HEADER_SIZE);
    Ok (mkSdtTable (n / 8) base).
End tables.
End EfiAcpi.
