(* ===== verification/AcpiTables.v ===== *)
(** What the ACPI parsers make of tables as the specification lays them out. *)
From Stdlib Require Import ZArith Lia.
From stdpp Require Import prelude list numbers gmap.
From S2P Require Import Prelude Packet Ranges KernelMm Acpi.
Import Acpi.

(** * Bytes in memory *)
Section memory.
Context (rd : Z → Z).

Definition lies (p : Z) (l : list Z) : Prop := ∀ i b, l !! i = Some b → rd (p + Z.of_nat i) = b.

Lemma lies_app p l l' : lies p (l ++ l') ↔ lies p l ∧ lies (p + zlen l) l'.
Proof.
  unfold lies, zlen. split.
  - intros H. split.
    + intros i b Hb. apply H. by apply lookup_app_l_Some.
    + intros i b Hb. replace (p + Z.of_nat (length l) + Z.of_nat i) with (p + Z.of_nat (length l + i)) by lia.
      apply H. rewrite lookup_app_r by lia. by replace (length l + i - length l)%nat with i by lia.
  - intros [H1 H2] i b Hb. apply lookup_app_Some in Hb as [Hb|[Hge Hb]]; [by apply H1|].
    rewrite <-(H2 _ _ Hb). f_equal. lia.
Qed.
Lemma lies_cons p b l : lies p (b :: l) ↔ rd p = b ∧ lies (p + 1) l.
Proof.
  change (b :: l) with ([b] ++ l). rewrite lies_app. unfold zlen. cbn [length]. split.
  - intros [H1 H2]. split; [|done]. specialize (H1 0%nat b eq_refl). by rewrite Z.add_0_r in H1.
  - intros [H1 H2]. split; [|done]. intros [|i] c Hc; [|done]. injection Hc as <-. by rewrite Z.add_0_r.
Qed.
Lemma lies_bytes p l : lies p l → bytes_at rd p (length l) = l.
Proof.
  intros H. unfold bytes_at. apply list_eq. intros i. rewrite list_lookup_fmap.
  destruct (decide (i < length l)%nat) as [Hi|Hi].
  - rewrite lookup_seq_lt by done. cbn. destruct (lookup_lt_is_Some_2 l i Hi) as [b Hb]. by rewrite Hb, (H _ _ Hb).
  - rewrite lookup_seq_ge, lookup_ge_None_2 by lia. done.
Qed.
Lemma lies_le p n v : fits (8 * Z.of_nat n) v → lies p (le_bytes n v) → read_le rd p n = v.
Proof.
  intros Hv H. unfold read_le. pose proof (lies_bytes _ _ H) as Hb. rewrite length_le_bytes in Hb. rewrite Hb, le_val_bytes.
  by apply Z.mod_small.
Qed.
Lemma read_byte p : read_le rd p 1 = rd p.
Proof. unfold read_le, bytes_at. cbn [seq fmap list_fmap le_val]. rewrite Z.mul_0_r, Z.add_0_r. f_equal. lia. Qed.
Lemma lies_nil p : lies p [].
Proof. by intros i b Hb. Qed.

(** ** Entries, one behind the other *)
(** An entry as bytes: its type, its length, its body. *)
Definition entry_ok (e : list Z) : Prop := ∃ ty body, e = ty :: zlen e :: body.

Fixpoint entries_at (p : Z) (es : list (list Z)) : list TableEntry :=
  match es with
  | [] => []
  | e :: es => mkTableEntry (default 0 (e !! 0%nat)) (zlen e) p :: entries_at (p + zlen e) es
  end.

Lemma entry_len e : entry_ok e → 2 ≤ zlen e.
Proof. intros (ty & body & E). rewrite E. unfold zlen. simpl. lia. Qed.

Lemma collect_encoded t es : ∀ fuel p,
  Forall entry_ok es → lies p (concat es) → (length (concat es) < fuel)%nat →
  collect rd fuel p (p + zlen (concat es)) t = Ok (entries_at p es).
Proof.
  induction es as [|e es IH]; intros fuel p Hok Hl Hf; (destruct fuel as [|fuel]; [lia|]); cbn [collect concat] in *.
  { unfold zlen. simpl. rewrite Z.add_0_r, Z.ltb_irrefl. done. }
  apply Forall_cons_iff in Hok as [He Hok]. pose proof (entry_len e He) as H2. destruct He as (ty & body & E).
  apply lies_app in Hl as [Hle Hl]. rewrite E in Hle. apply lies_cons in Hle as [Ht Hle]. apply lies_cons in Hle as [Hlen _].
  assert (zlen (e ++ concat es) = zlen e + zlen (concat es)) as Hz by (unfold zlen; rewrite length_app; lia).
  rewrite Hz, length_app in *. assert (0 ≤ zlen (concat es)) by (unfold zlen; lia).
  rewrite (proj2 (Z.ltb_lt _ _)) by lia. rewrite Ht, Hlen. rewrite (proj2 (Z.ltb_ge _ _)) by lia.
  rewrite Z.add_assoc. rewrite (IH fuel); [|done|done|unfold zlen in H2; lia]. cbn [mbind res_bind entries_at].
  do 3 f_equal. by rewrite E.
Qed.
End memory.

(** * Tables *)
(** A header with a signature and the length of the table; the rest is not read. *)
Definition sdt_header (signature rest : list Z) (size : Z) : list Z := signature ++ le_bytes 4 size ++ rest.
(** A table with [skip] bytes between the header and the entries. *)
Definition sdt (signature rest skip : list Z) (es : list (list Z)) : list Z :=
  sdt_header signature rest (36 + zlen skip + zlen (concat es)) ++ skip ++ concat es.

Lemma parse_entries_sdt rd p signature rest skip es :
  lies rd p (sdt signature rest skip es) → length signature = 4%nat → length rest = 28%nat →
  Forall entry_ok es → 36 + zlen skip + zlen (concat es) < 2 ^ 32 →
  parse_table_entries rd p (zlen skip) = Ok (entries_at (p + 36 + zlen skip) es) ∧ hdr_signature rd p = signature.
Proof.
  intros Hl Hs Hr Hok Hmax. unfold sdt, sdt_header in Hl. rewrite !lies_app in Hl.
  destruct Hl as ((Hsig & Hlen & _) & _ & Hes).
  assert (hdr_signature rd p = signature) as Esig.
  { unfold hdr_signature. rewrite <-Hs. by apply lies_bytes. }
  split; [|done]. unfold parse_table_entries.
  assert (0 ≤ zlen skip ∧ 0 ≤ zlen (concat es)) as [? ?] by (unfold zlen; lia).
  assert (hdr_length rd p = 36 + zlen skip + zlen (concat es)) as ->.
  { unfold hdr_length. unfold zlen in Hlen at 1. rewrite Hs in Hlen. apply lies_le; [|exact Hlen].
    unfold fits. change (8 * Z.of_nat 4) with 32. lia. }
  unfold zlen in Hes at 1. rewrite !length_app, Hs, length_le_bytes, Hr in Hes. change (Z.of_nat (4 + (4 + 28))) with 36 in Hes.
  unfold SDT_HEADER_SIZE.
  replace (p + (36 + zlen skip + zlen (concat es))) with (p + 36 + zlen skip + zlen (concat es)) by lia.
  replace (p + (36 + zlen skip)) with (p + 36 + zlen skip) by lia.
  apply collect_encoded; [done|done|]. unfold zlen. lia.
Qed.

(** ** MADT *)
Inductive MadtRecord :=
| LocalApic (uid id flags : Z)
| LocalX2Apic (id flags uid : Z)
| OtherMadt (ty : Z) (body : list Z).
Definition madt_bytes (r : MadtRecord) : list Z :=
  match r with
  | LocalApic uid id flags => [0; 8; uid; id] ++ le_bytes 4 flags
  | LocalX2Apic id flags uid => [9; 16; 0; 0] ++ le_bytes 4 id ++ le_bytes 4 flags ++ le_bytes 4 uid
  | OtherMadt ty body => ty :: (2 + zlen body) :: body
  end.

Lemma enabled_bit flags : negb (Z.land flags ENABLED =? 0) = Z.testbit flags 0.
Proof.
  unfold ENABLED. rewrite Z.shiftl_1_l. change (2 ^ 0) with (2 ^ 1 - 1). rewrite land_mask by lia.
  change (2 ^ 1) with 2. rewrite Zmod_odd, Z.bit0_odd. by destruct (Z.odd flags).
Qed.




(** ** SRAT *)
Inductive SratRecord :=
| ProcAffinity (domain id flags eid clock : Z)
| MemAffinity (domain start length flags : Z)
| X2Affinity (domain id flags clock : Z)
| OtherAffinity (ty : Z) (body : list Z).
Definition srat_ok (r : SratRecord) : Prop :=
  match r with
  | ProcAffinity domain id flags _ _ => u32 domain ∧ u8 id ∧ u32 flags
  | MemAffinity domain start length flags => u32 domain ∧ u64 start ∧ u64 length ∧ u32 flags
  | X2Affinity domain id flags _ => u32 domain ∧ u32 id ∧ u32 flags
  | OtherAffinity ty body => ty ≠ 0 ∧ ty ≠ 1 ∧ ty ≠ 2
  end.
Definition srat_bytes (r : SratRecord) : list Z :=
  match r with
  | ProcAffinity domain id flags eid clock =>
      [0; 16] ++ take 1 (le_bytes 4 domain) ++ [id] ++ le_bytes 4 flags ++ [eid] ++ drop 1 (le_bytes 4 domain) ++ le_bytes 4 clock
  | MemAffinity domain start length flags =>
      [1; 40] ++ le_bytes 4 domain ++ [0; 0] ++ le_bytes 8 start ++ le_bytes 8 length ++ replicate 4 0 ++
      le_bytes 4 flags ++ replicate 8 0
  | X2Affinity domain id flags clock =>
      [2; 24; 0; 0] ++ le_bytes 4 domain ++ le_bytes 4 id ++ le_bytes 4 flags ++ le_bytes 4 clock ++ replicate 4 0
  | OtherAffinity ty body => ty :: (2 + zlen body) :: body
  end.
(** What a record adds to the topology; the kernel has no case for other records. *)
Definition srat_add (r : SratRecord) (srat : Srat) : res Error Srat :=
  match r with
  | ProcAffinity domain id flags _ _ | X2Affinity domain id flags _ => Ok (add_affinity id domain flags srat)
  | MemAffinity domain start length flags => add_memory domain start length flags srat
  | OtherAffinity _ _ => Panic
  end.

Lemma srat_entry_shape r : entry_ok (srat_bytes r).
Proof.
  destruct r as [| | |ty body]; [eexists _, _; reflexivity..|]. exists ty, body. cbn [srat_bytes]. f_equal. f_equal.
  unfold zlen. cbn [length]. lia.
Qed.

Lemma srat_entry_ok rd p r srat :
  srat_ok r → lies rd p (srat_bytes r) →
  srat_entry rd (mkTableEntry (default 0 (srat_bytes r !! 0%nat)) (zlen (srat_bytes r)) p) srat = srat_add r srat.
Proof.
  intros Hok Hl. unfold srat_entry, read_entry. cbn [typ len ptr].
  destruct r as [domain id flags eid clock|domain start length flags|domain id flags clock|ty body]; cbn [srat_ok srat_add] in *;
    cbn [srat_bytes] in Hl; rewrite ?lies_app in Hl.
  - change (default 0 _) with 0. change (zlen (srat_bytes _)) with 16. cbn [Z.eqb Pos.eqb negb].
    destruct Hl as (_ & Hd0 & Hid & Hfl & _ & Hd1 & _).
    change (zlen [0; 16]) with 2 in *. change (zlen (take 1 _)) with 1 in *. change (zlen (le_bytes 4 _)) with 4 in *.
    change (zlen [_]) with 1 in *.
    replace (p + 2 + 1) with (p + 3) in * by lia. replace (p + 3 + 1) with (p + 4) in * by lia.
    replace (p + 4 + 4 + 1) with (p + 9) in * by lia.
    rewrite (lies_le rd (p + 4) 4 flags); [|apply Hok|done]. rewrite read_byte.
    pose proof (Hid 0%nat id eq_refl) as Hid0. rewrite Z.add_0_r in Hid0. rewrite Hid0.
    f_equal. f_equal.
    pose proof (Hd0 0%nat _ eq_refl) as E0. pose proof (Hd1 0%nat _ eq_refl) as E1.
    pose proof (Hd1 1%nat _ eq_refl) as E2. pose proof (Hd1 2%nat _ eq_refl) as E3.
    replace (p + 9 + Z.of_nat 1) with (p + 10) in E2 by lia. replace (p + 9 + Z.of_nat 2) with (p + 11) in E3 by lia.
    rewrite Z.add_0_r in E0, E1. rewrite E0, E1, E2, E3.
    change [_; _; _; _] with (le_bytes 4 domain). rewrite le_val_bytes. apply Z.mod_small. apply Hok.
  - change (default 0 _) with 1. change (zlen (srat_bytes _)) with 40. cbn [Z.eqb Pos.eqb negb].
    destruct Hl as (_ & Hd & _ & Hst & Hln & _ & Hfl & _).
    change (zlen [_; _]) with 2 in *. change (zlen (le_bytes 4 _)) with 4 in *. change (zlen (le_bytes 8 _)) with 8 in *.
    change (zlen (replicate 4 0)) with 4 in *.
    replace (p + 2 + 4 + 2) with (p + 8) in * by lia. replace (p + 8 + 8) with (p + 16) in * by lia.
    replace (p + 16 + 8 + 4) with (p + 28) in * by lia.
    rewrite (lies_le rd (p + 2) 4 domain), (lies_le rd (p + 8) 8 start), (lies_le rd (p + 16) 8 length),
      (lies_le rd (p + 28) 4 flags); try done; apply Hok.
  - change (default 0 _) with 2. change (zlen (srat_bytes _)) with 24. cbn [Z.eqb Pos.eqb negb].
    destruct Hl as (_ & Hd & Hid & Hfl & _).
    change (zlen [_; _; _; _]) with 4 in *. change (zlen (le_bytes 4 _)) with 4 in *.
    replace (p + 4 + 4) with (p + 8) in * by lia. replace (p + 8 + 4) with (p + 12) in * by lia.
    rewrite (lies_le rd (p + 4) 4 domain), (lies_le rd (p + 8) 4 id), (lies_le rd (p + 12) 4 flags); try done; apply Hok.
  - change (default 0 _) with ty. destruct Hok as (H0 & H1 & H2). by rewrite !(proj2 (Z.eqb_neq ty _)) by done.
Qed.

Fixpoint srat_fold (srat : Srat) (rs : list SratRecord) : res Error Srat :=
  match rs with [] => Ok srat | r :: rs => srat ← srat_add r srat; srat_fold srat rs end.
Lemma srat_entries_ok rd rs : ∀ p srat, Forall srat_ok rs → lies rd p (concat (srat_bytes <$> rs)) →
  srat_entries rd srat (entries_at p (srat_bytes <$> rs)) = srat_fold srat rs.
Proof.
  induction rs as [|r rs IH]; intros p srat Hok Hl; [done|].
  apply Forall_cons_iff in Hok as [Hr Hok]. cbn [fmap list_fmap concat] in Hl. apply lies_app in Hl as [Hr1 Hl].
  cbn [fmap list_fmap entries_at srat_entries srat_fold]. rewrite srat_entry_ok by done.
  destruct (srat_add r srat); cbn [mbind res_bind]; try done. by apply IH.
Qed.

(** *** The topology the records describe *)
(** The domain of a processor: the last record that gives one. *)
Definition proc_domain (id : Z) (r : SratRecord) : option Z :=
  match r with
  | ProcAffinity d i flags _ _ | X2Affinity d i flags _ => if (i =? id) && Z.testbit flags 0 then Some d else None
  | _ => None
  end.
Definition domain_of (rs : list SratRecord) (id : Z) : option Z := last (omap (proc_domain id) rs).
(** The enabled memory of a domain: starts and lengths. *)
Definition mem_region (d : Z) (r : SratRecord) : option (Z * Z) :=
  match r with
  | MemAffinity d' start length flags =>
      if (d' =? d) && Z.testbit flags 0 && (0 <? length) then Some (start, length) else None
  | _ => None
  end.
Definition regions_of (rs : list SratRecord) (d : Z) : list (Z * Z) := omap (mem_region d) rs.
Definition in_region (x : Z) (b : Z * Z) : Prop := b.1 ≤ x < b.1 + b.2.

Record topology (rs : list SratRecord) (s : Srat) : Prop := {
  tp_apics id : apic_to_domain s !! id = domain_of rs id;
  tp_none d : domain_to_ranges s !! d = None ↔ regions_of rs d = [];
  tp_ranges d g : domain_to_ranges s !! d = Some g →
    wf g ∧ (in_use g ≤ length (regions_of rs d))%nat ∧ ∀ x, has g x ↔ Exists (in_region x) (regions_of rs d);
}.

Lemma entry_has g e : wf g → e ∈ RangeSet.entries g → has g (end_ e).
Proof.
  intros (_ & _ & Ho) He. unfold has, covers. apply Exists_exists. exists e.
  split; [by first [done|apply list_elem_of_In]|]. unfold addr_in.
  assert (∀ lo es, ordered_from lo es → e ∈ es → start e ≤ end_ e) as Hle.
  { intros lo es. revert lo. induction es as [|e' es IH]; intros lo Hes Hin; [by apply elem_of_nil in Hin|].
    destruct Hes as (? & ? & Hes). apply elem_of_cons in Hin as [->|Hin]; [lia|by eapply IH]. }
  specialize (Hle _ _ Ho He). lia.
Qed.

Lemma wf_new : wf RangeSet.new.
Proof. split_and!; [done|simpl; lia|done]. Qed.
Lemma has_new x : ¬ has RangeSet.new x.
Proof. unfold has, covers. intros H. by apply Exists_nil in H. Qed.

Lemma omap_snoc {A B} (f : A → option B) l a : omap f (l ++ [a]) = omap f l ++ option_list (f a).
Proof. rewrite omap_app. cbn [omap list_omap]. by destruct (f a). Qed.

Lemma topology_proc done id d flags r s :
  topology done s → (∀ i, proc_domain i r = if (id =? i) && Z.testbit flags 0 then Some d else None) →
  (∀ x, mem_region x r = None) → topology (done ++ [r]) (add_affinity id d flags s).
Proof.
  intros Ht Hp Hm. unfold add_affinity. rewrite enabled_bit.
  assert (∀ x, regions_of (done ++ [r]) x = regions_of done x) as Hreg.
  { intros x. unfold regions_of. rewrite omap_snoc, Hm. apply app_nil_r. }
  assert (domain_to_ranges (if Z.testbit flags 0 then mkSrat (<[id:=d]> (apic_to_domain s)) (domain_to_ranges s) else s)
    = domain_to_ranges s) as Er by (by destruct (Z.testbit flags 0)).
  split.
  - intros i. unfold domain_of. rewrite omap_snoc, Hp. destruct (Z.testbit flags 0).
    + cbn [apic_to_domain]. destruct (Z.eqb_spec id i) as [->|Hne]; cbn [andb option_list].
      * change (option_list (Some d)) with [d]. by rewrite lookup_insert_eq, last_snoc.
      * change (option_list (@None Z)) with (@nil Z). rewrite lookup_insert_ne, app_nil_r by done. apply Ht.
    + rewrite andb_false_r, app_nil_r. apply Ht.
  - intros x. rewrite Er, Hreg. apply Ht.
  - intros x g Hg. rewrite Er in Hg. rewrite Hreg. by apply Ht.
Qed.

(** A memory record: added, or refused for one of two reasons. *)
Definition overfull (rs : list SratRecord) : Prop :=
  ∃ d, (∃ b, b ∈ regions_of rs d ∧ 2 ^ 64 ≤ b.1 + b.2) ∨ (N_RANGES < length (regions_of rs d))%nat.

Lemma topology_mem done d start length flags s :
  topology done s → u64 start → 0 ≤ length →
  match add_memory d start length flags s with
  | Ok s' => topology (done ++ [MemAffinity d start length flags]) s'
  | Err e => e = MemoryAffinityOverflow ∧ overfull (done ++ [MemAffinity d start length flags])
  | _ => False
  end.
Proof.
  intros Ht Hs Hl. set (r := MemAffinity d start length flags). unfold add_memory. rewrite enabled_bit.
  assert (∀ i, domain_of (done ++ [r]) i = domain_of done i) as Hdom.
  { intros i. unfold domain_of. rewrite omap_snoc. cbn [proc_domain r option_list]. by rewrite app_nil_r. }
  assert (∀ x, regions_of (done ++ [r]) x = regions_of done x ++
    if (d =? x) && Z.testbit flags 0 && (0 <? length) then [(start, length)] else []) as Hreg.
  { intros x. unfold regions_of. rewrite omap_snoc. cbn [mem_region r]. by destruct (_ && _). }
  destruct ((0 <? length) && Z.testbit flags 0) eqn:Een.
  2:{ assert (∀ x, regions_of (done ++ [r]) x = regions_of done x) as Hsame.
      { intros x. rewrite Hreg. destruct (Z.testbit flags 0), (0 <? length); try done;
          rewrite ?andb_false_r; by rewrite app_nil_r. }
      split; [intros i; rewrite Hdom; apply Ht|intros x; rewrite Hsame; apply Ht|intros x g; rewrite Hsame; apply Ht]. }
  apply andb_true_iff in Een as [Hpos%Z.ltb_lt Hfl]. rewrite Hfl in Hreg. rewrite (proj2 (Z.ltb_lt _ _) Hpos) in Hreg.
  assert (regions_of (done ++ [r]) d = regions_of done d ++ [(start, length)]) as Hregd by (by rewrite Hreg, Z.eqb_refl).
  unfold checked_sub. rewrite (proj2 (Z.leb_le 1 length)) by lia. cbn [ok_or mbind res_bind].
  unfold checked_add. destruct (Z.ltb_spec (start + (length - 1)) (2 ^ 64)) as [Hov|Hov]; cbn [ok_or mbind res_bind].
  2:{ split; [done|]. exists d. left. exists (start, length). split; [|cbn; lia]. rewrite Hregd. set_solver. }
  unfold Range.new. rewrite (proj2 (Z.leb_le _ _)) by lia. cbn [unwrap_res mbind res_bind]. unfold Range.new_unchecked.
  set (g0 := default RangeSet.new (domain_to_ranges s !! d)).
  assert (wf g0 ∧ (in_use g0 ≤ List.length (regions_of done d))%nat ∧ ∀ x, has g0 x ↔ Exists (in_region x) (regions_of done d))
    as (Hwf & Huse & Hhas).
  { unfold g0. destruct (domain_to_ranges s !! d) as [g|] eqn:Eg; [by apply (tp_ranges _ _ Ht)|]. cbn [default from_option].
    apply (tp_none _ _ Ht) in Eg. rewrite Eg. split; [apply wf_new|]. split; [done|]. intros x.
    split; [by intros H%has_new|intros H; by apply Exists_nil in H]. }
  assert (valid (mkRange start (start + (length - 1)))) as Hvalid by (unfold valid, fits in *; cbn; lia).
  destruct (insert_returns g0 _ Hwf Hvalid) as [(g1 & E & Hu)|(g1 & E & Hwhy)]; rewrite E.
  - destruct (insert_Ok _ _ _ _ Hwf Hvalid E) as [Hwf1 Hhas1]. split.
    + intros i. rewrite Hdom. apply Ht.
    + intros x. cbn [domain_to_ranges]. rewrite Hreg. destruct (Z.eqb_spec d x) as [->|Hne]; cbn [andb].
      * rewrite lookup_insert_eq. split; [done|]. intros Hnil. by apply app_nil in Hnil as [_ ?].
      * rewrite lookup_insert_ne, app_nil_r by done. apply Ht.
    + intros x g. cbn [domain_to_ranges]. rewrite Hreg. destruct (Z.eqb_spec d x) as [->|Hne]; cbn [andb].
      * rewrite lookup_insert_eq. intros [= <-]. split; [done|]. split; [rewrite length_app; simpl; lia|].
        intros y. rewrite Hhas1, Hhas, Exists_app, Exists_cons, Exists_nil. unfold in_region at 3, addr_in. cbn [fst snd Ranges.start end_].
        split; [intros [?|?]; [by left|right; left; lia]|intros [?|[?|[]]]; [by left|right; lia]].
      * rewrite lookup_insert_ne, app_nil_r by done. apply Ht.
  - split; [done|]. exists d. rewrite Hregd. destruct Hwhy as [Hfull|(e & He & Hend)].
    + right. rewrite length_app. simpl. lia.
    + left. pose proof (entry_has _ _ Hwf He) as Hh. apply Hhas in Hh. rewrite Hend in Hh. apply Exists_exists in Hh as (b & Hb & Hin).
      exists b. split; [apply elem_of_app; left; by first [done|apply list_elem_of_In]|].
      unfold in_region, umax in Hin. lia.
Qed.

(** Records of other types, of which the kernel knows none *)
Definition foreign (rs : list SratRecord) : Prop := ∃ ty body, OtherAffinity ty body ∈ rs.
Lemma overfull_app rs rs' : overfull rs → overfull (rs ++ rs').
Proof.
  intros (d & [(b & Hb & Hov)|Hlen]); exists d; unfold regions_of in *; rewrite omap_app.
  - left. exists b. split; [apply elem_of_app; by left|done].
  - right. rewrite length_app. lia.
Qed.
Lemma srat_fold_ok rs : ∀ done s, Forall srat_ok rs → topology done s →
  match srat_fold s rs with
  | Ok s' => topology (done ++ rs) s'
  | Err e => e = MemoryAffinityOverflow ∧ overfull (done ++ rs)
  | Panic => foreign rs
  | Diverge => False
  end.
Proof.
  assert (∀ r rs, foreign rs → foreign (r :: rs)) as Hcons by (intros r l (ty & body & Hin); exists ty, body; by right).
  induction rs as [|r rs IH]; intros done s Hok Ht; [by rewrite app_nil_r|].
  apply Forall_cons_iff in Hok as [Hr Hok]. cbn [srat_fold].
  replace (done ++ r :: rs) with ((done ++ [r]) ++ rs) by (by rewrite <-app_assoc).
  destruct r as [d id flags eid clock|d start length flags|d id flags clock|ty body]; cbn [srat_add].
  - specialize (IH (done ++ [ProcAffinity d id flags eid clock]) (add_affinity id d flags s) Hok).
    cbn [mbind res_bind]. destruct (srat_fold _ rs); [apply IH|apply IH|apply Hcons, IH|apply IH]; by apply topology_proc.
  - destruct Hr as (_ & Hs & Hl & _). pose proof (topology_mem done d start length flags s Ht Hs (proj1 Hl)) as Hm.
    destruct (add_memory d start length flags s); cbn [mbind res_bind]; [|by destruct Hm as [-> Hm]; split; [done|by apply overfull_app]|done..].
    specialize (IH (done ++ [MemAffinity d start length flags]) a Hok Hm). destruct (srat_fold _ rs); try done. by apply Hcons.
  - specialize (IH (done ++ [X2Affinity d id flags clock]) (add_affinity id d flags s) Hok).
    cbn [mbind res_bind]. destruct (srat_fold _ rs); [apply IH|apply IH|apply Hcons, IH|apply IH]; by apply topology_proc.
  - exists ty, body. by left.
Qed.
Lemma topology_nil : topology [] (mkSrat ∅ ∅).
Proof. split; intros; by rewrite ?lookup_empty in *. Qed.

Lemma srat_table rd p rest skip rs :
  lies rd p (sdt SRAT_SIG rest skip (srat_bytes <$> rs)) → length rest = 28%nat → length skip = 12%nat →
  Forall srat_ok rs → 48 + zlen (concat (srat_bytes <$> rs)) < 2 ^ 32 →
  srat_parse rd p = srat_fold (mkSrat ∅ ∅) rs.
Proof.
  intros Hl Hr Hs Hok Hmax. assert (zlen skip = 12) as Hz by (unfold zlen; lia).
  destruct (parse_entries_sdt rd p SRAT_SIG rest skip (srat_bytes <$> rs) Hl eq_refl Hr) as [E _]; [|lia|].
  { apply Forall_fmap. apply Forall_true. intros r. apply srat_entry_shape. }
  unfold srat_parse. rewrite <-Hz at 1. rewrite E. cbn [mbind res_bind].
  apply srat_entries_ok; [done|]. unfold sdt in Hl. rewrite !lies_app in Hl. destruct Hl as (_ & _ & Hes).
  unfold sdt_header in Hes. unfold zlen in Hes at 1. rewrite !length_app, length_le_bytes, Hr in Hes. exact Hes.
Qed.

(** From an SRAT the parser builds the topology its records describe: each
    processor's domain is the last one given for it, and each domain's range set
    holds exactly the addresses of its enabled memory.  The only error is memory
    that reaches the end of the address space, or more regions in a domain than a
    range set holds; a record of another type is not implemented. *)
Theorem srat_correct rd p rest skip rs :
  lies rd p (sdt SRAT_SIG rest skip (srat_bytes <$> rs)) → length rest = 28%nat → length skip = 12%nat →
  Forall srat_ok rs → 48 + zlen (concat (srat_bytes <$> rs)) < 2 ^ 32 →
  match srat_parse rd p with
  | Ok s => topology rs s
  | Err e => e = MemoryAffinityOverflow ∧ overfull rs
  | Panic => foreign rs
  | Diverge => False
  end.
Proof.
  intros Hl Hr Hs Hok Hmax. rewrite (srat_table rd p rest skip rs) by done.
  exact (srat_fold_ok rs [] _ Hok topology_nil).
Qed.

(** * From the firmware to the kernel *)
(** A table the kernel finds: a MADT, an SRAT, or another one. *)
Inductive SysTable :=
| SysMadt (rest skip : list Z) (rs : list MadtRecord)
| SysSrat (rest skip : list Z) (rs : list SratRecord)
| SysOther (signature : list Z).
Definition table_bytes (t : SysTable) : list Z :=
  match t with
  | SysMadt rest skip rs => sdt APIC_SIG rest skip (madt_bytes <$> rs)
  | SysSrat rest skip rs => sdt SRAT_SIG rest skip (srat_bytes <$> rs)
  | SysOther signature => signature
  end.










(** * A machine *)
Module SampleTables.

Definition cores : list MadtRecord := [LocalApic 0 0 1; OtherMadt 1 [7; 7]; LocalX2Apic 300 2 1; LocalApic 2 5 0].
Definition nodes : list SratRecord :=
  [ProcAffinity 0 0 1 0 0; X2Affinity 1 300 1 0; MemAffinity 0 0 0x10000 1; MemAffinity 1 0x10000 0x8000 1;
   MemAffinity 1 0x18000 0x8000 1; MemAffinity 2 0x90000 0x1000 0].
Definition blank (n : nat) : list Z := replicate n 0.
Definition madt : SysTable := SysMadt (blank 28) (blank 8) cores.
Definition srat : SysTable := SysSrat (blank 28) (blank 12) nodes.
Definition other : SysTable := SysOther [72; 80; 69; 84].
(** The RSDP at 0, the XSDT at 36, the tables behind it. *)
Definition rsdp : list Z := EfiAcpi.RSDP_SIG ++ (153 :: blank 11) ++ le_bytes 4 36 ++ le_bytes 8 36 ++ blank 4.
Definition ptrs : list Z := [104; 108; 200].
Definition xsdt : list Z :=
  sdt_header EfiAcpi.XSDT_SIG (0 :: 229 :: blank 26) 60 ++ concat (le_bytes 8 <$> ptrs).
Definition memory : list Z :=
  rsdp ++ xsdt ++ blank 8 ++ table_bytes other ++ table_bytes madt ++ blank 12 ++ table_bytes srat.
Definition phys (p : Z) : Z := default 0 (memory !! Z.to_nat p).

Lemma bytes_lie rd p l : bytes_at rd p (length l) = l → lies rd p l.
Proof.
  intros H i b Hb. rewrite <-H in Hb. unfold bytes_at in Hb. rewrite list_lookup_fmap in Hb.
  destruct (decide (i < length l)%nat) as [Hi|Hi].
  - rewrite lookup_seq_lt in Hb by done. by injection Hb.
  - by rewrite lookup_seq_ge in Hb by lia.
Qed.

Lemma nodes_fine : Forall srat_ok nodes.
Proof.
  unfold nodes. rewrite !Forall_cons_iff. cbn [srat_ok]. unfold u8, u32, u64, fits. split_and!; try apply Forall_nil_2; lia.
Qed.


Lemma srat_correct_witness :
  match srat_parse phys 200 with
  | Ok s => topology nodes s
  | Err e => e = MemoryAffinityOverflow ∧ overfull nodes
  | Panic => foreign nodes
  | Diverge => False
  end ∧ domain_of nodes 300 = Some 1 ∧ regions_of nodes 1 = [(0x10000, 0x8000); (0x18000, 0x8000)].
Proof.
  split; [|done].
  apply (srat_correct phys 200 (blank 28) (blank 12) nodes); [|done|done|exact nodes_fine|vm_compute; reflexivity].
  apply bytes_lie. vm_compute. reflexivity.
Defined.


End SampleTables.
