(* ===== verification/Cores.v ===== *)
(** Bringing the cores up and down: kernel/src/apic/system.rs, main.rs, panic.rs and
    the NMI handler of interrupts/handler.rs.

    All cores run at once: a core's [step] is one access to what the cores share, or
    one interrupt it sends, with the local work around it; a schedule says whose
    turn it is.  What the hardware does with an inter-processor interrupt is the
    class [Ipis]. *)
From Stdlib Require Import ZArith Lia.
From stdpp Require Import prelude list numbers gmap.
From S2P Require Import Prelude Acpi.

Module Cores.

(** ** States of an APIC *)
Inductive ApicState := Online | Launched | Offline | None_ | Halted.
#[global] Instance ApicState_eq_dec : EqDecision ApicState.
Proof. solve_decision. Defined.
Definition as_u8 (s : ApicState) : Z :=
  match s with Online => 1 | Launched => 2 | Offline => 3 | None_ => 4 | Halted => 5 end.
Definition from_u8 (val : Z) : res unit ApicState :=
  if val =? 1 then Ok Online
  else if val =? 2 then Ok Launched
  else if val =? 3 then Ok Offline
  else if val =? 4 then Ok None_
  else if val =? 5 then Ok Halted
  else Panic.

(** ** Where a core is *)
Inductive pc :=
| Reset                         (* waiting for a start-up interrupt *)
| Boot (vector : Z)             (* in the code at [vector * 0x1000] *)
| Entry                         (* at the kernel's entry *)
| Kernel                        (* behind [core_locals::init] *)
(* init_system *)
| InitSystem | StoreOffline (k : nat) | StoreOnline | SetTotal | FillIn
| Launch (k : nat) | SendInit (k : nat) | SendSipi (k : nat) | SendSipi2 (k : nat) | AwaitOnline (k : nat)
(* check_in *)
| CheckIn | CountIn | ReadTotal | AwaitAll (num_cores : Z)
| Idle                          (* all checked in, halted until an interrupt *)
(* panic *)
| Panicking | PanicCheck (no_panic_pending : bool) | NotifyBsp
| DisableCores (reboot : bool) | DisableCore (id : Z) (reboot : bool) | PollHalted (id : Z) (reboot : bool)
| SendNmi (id : Z) (reboot : bool) | InitCore (id : Z) (reboot : bool)
| AwaitReboot | SoftReboot | Rebooted
| Stopped.                      (* halted forever *)
#[global] Instance pc_eq_dec : EqDecision pc.
Proof. solve_decision. Defined.

(** [core_id]: the id of the core locals, [None] before they exist. *)
Record Cpu := mkCpu { at_ : pc; core_id : option Z; nmi : bool }.
#[global] Instance Cpu_eq_dec : EqDecision Cpu.
Proof. solve_decision. Defined.

(** What the cores share; the cores by the ids of their APICs. *)
Record Sys := mkSys {
  states : option (list Z);     (* APIC_STATES *)
  total : option Z;             (* TOTAL_CORES *)
  max_id : option Z;            (* MAX_APIC_ID *)
  checked_in : Z;               (* CORES_CHECKED_IN *)
  next_core_id : Z;             (* NEXT_CORE_ID *)
  entry_code : option (list Z); (* the memory at ENTRY_ADDR *)
  bsp_in_panic : bool;
  panic_pending : option Z;     (* the core whose panic is pending *)
  rebooting : bool;
  cpus : gmap Z Cpu }.

Definition ENTRY_ADDR : Z := 0x8000.
Definition INIT : Z := 0x4500.
Definition SIPI : Z := 0x4600 + ENTRY_ADDR / 0x1000.
Definition NMI : Z := Z.lor (Z.shiftl 1 14) (Z.shiftl 4 8).

(** What a command in the interrupt command register does to the core it is sent
    to. *)
Class Ipis := deliver : Z → Cpu → Cpu.
Class IpiLaws {I : Ipis} : Prop := {
  deliver_init u : deliver INIT u = mkCpu Reset None false;
  deliver_sipi u : deliver SIPI u = if decide (at_ u = Reset) then mkCpu (Boot (ENTRY_ADDR / 0x1000)) (core_id u) (nmi u) else u;
  deliver_nmi u : at_ u ≠ Reset → deliver NMI u = mkCpu (at_ u) (core_id u) true;
}.
Arguments IpiLaws : clear implicits.

(** [OnceLock::get] and [set] *)
Definition once_get {A} (o : option A) : res unit A := unwrap o.
Definition once_set {A} (o : option A) (a : A) : res unit (option A) :=
  match o with None => Ok (Some a) | Some _ => Panic end.

Section machine.
Context {I : Ipis}.
(** The MADT's cores, the code all cores start in and the bootloader's state. *)
Context (madt : option (list Z)) (ENTRY_CODE bstate : list Z).
Abbreviation apics := (default [] madt).
Implicit Types (s : Sys) (u : Cpu).

Definition set_states l s := mkSys (Some l) (total s) (max_id s) (checked_in s) (next_core_id s) (entry_code s)
  (bsp_in_panic s) (panic_pending s) (rebooting s) (cpus s).
Definition set_cpu c u s := mkSys (states s) (total s) (max_id s) (checked_in s) (next_core_id s) (entry_code s)
  (bsp_in_panic s) (panic_pending s) (rebooting s) (<[c := u]> (cpus s)).
Definition goto c u p s := set_cpu c (mkCpu p (core_id u) (nmi u)) s.

(** [APIC_STATES.get()[id].store(...)] and [load(...).into()] *)
Definition set_core_state (id : Z) (state : ApicState) s : res unit Sys :=
  l ← once_get (states s);
  l ← store l (Z.to_nat id) (as_u8 state);
  Ok (set_states l s).
Definition core_state (id : Z) s : res unit ApicState :=
  l ← once_get (states s);
  val ← index l (Z.to_nat id);
  from_u8 val.

(** [LocalApic::ipi]: an id no core has goes nowhere. *)
Definition ipi (id cmd : Z) s : Sys :=
  match cpus s !! id with
  | Some u => set_cpu id (deliver cmd u) s
  | None => s
  end.

(** [compare_exchange(Launched, Online)] and the old state *)
Definition go_online (id : Z) s : res unit (Z * Sys) :=
  l ← once_get (states s);
  old ← index l (Z.to_nat id);
  if old =? as_u8 Launched
  then l ← store l (Z.to_nat id) (as_u8 Online); Ok (old, set_states l s)
  else Ok (old, s).

(** The entry code with the bootloader's state over its end *)
Definition fill_in : res unit (list Z) :=
  offset ← sub (zlen ENTRY_CODE) (zlen bstate);
  Ok (take (Z.to_nat offset) ENTRY_CODE ++ bstate).

Definition is_bsp u : bool := match core_id u with Some id => id =? 0 | None => false end.

(** [nmi]: the handler *)
Definition handle_nmi c u s : res unit Sys :=
  let u := mkCpu (at_ u) (core_id u) false in
  if is_bsp u && bsp_in_panic s then Ok (set_cpu c u s)
  else if is_bsp u then Ok (goto c u Panicking s)
  else s ← set_core_state c Halted s; Ok (goto c u Stopped s).

(** Behind [disable_cores]: wait for a request, or go on with the reboot. *)
Definition cores_disabled (reboot : bool) : pc := if reboot then Rebooted else AwaitReboot.

Definition run_bsp c u s : res unit Sys :=
  match at_ u with
  | InitSystem =>
      max ← once_get (max_id s);
      l ← once_set (states s) (replicate (Z.to_nat (max + 1)) (as_u8 None_));
      Ok (goto c u (StoreOffline 0) (set_states (default [] l) s))
  | StoreOffline k =>
      match apics !! k with
      | Some id => s ← set_core_state id Offline s; Ok (goto c u (StoreOffline (S k)) s)
      | None => Ok (goto c u StoreOnline s)
      end
  | StoreOnline => s ← set_core_state c Online s; Ok (goto c u SetTotal s)
  | SetTotal =>
      n ← once_set (total s) (cast 32 (zlen apics));
      Ok (goto c u FillIn (mkSys (states s) n (max_id s) (checked_in s) (next_core_id s) (entry_code s)
        (bsp_in_panic s) (panic_pending s) (rebooting s) (cpus s)))
  | FillIn =>
      code ← fill_in;
      Ok (goto c u (Launch 0) (mkSys (states s) (total s) (max_id s) (checked_in s) (next_core_id s) (Some code)
        (bsp_in_panic s) (panic_pending s) (rebooting s) (cpus s)))
  | Launch k =>
      match apics !! k with
      | Some id =>
          if id =? c then Ok (goto c u (Launch (S k)) s)
          else s ← set_core_state id Launched s; Ok (goto c u (SendInit k) s)
      | None => Ok (goto c u CheckIn s)
      end
  | SendInit k => id ← index apics k; Ok (goto c u (SendSipi k) (ipi id INIT s))
  | SendSipi k => id ← index apics k; Ok (goto c u (SendSipi2 k) (ipi id SIPI s))
  | SendSipi2 k => id ← index apics k; Ok (goto c u (AwaitOnline k) (ipi id SIPI s))
  | AwaitOnline k =>
      id ← index apics k;
      state ← core_state id s;
      if decide (state = Online) then Ok (goto c u (Launch (S k)) s) else Ok s
  | _ => Ok s
  end.

Definition run_check_in c u s : res unit Sys :=
  match at_ u with
  | CheckIn =>
      '(old, s) ← go_online c s;
      _ ← assert (old =? as_u8 (if is_bsp u then Online else Launched));
      Ok (goto c u CountIn s)
  | CountIn =>
      Ok (goto c u ReadTotal (mkSys (states s) (total s) (max_id s) (wrapping_add 32 (checked_in s) 1) (next_core_id s)
        (entry_code s) (bsp_in_panic s) (panic_pending s) (rebooting s) (cpus s)))
  | ReadTotal =>
      num_cores ← once_get (total s);
      _ ← assert (negb (num_cores =? 0));
      Ok (goto c u (AwaitAll num_cores) s)
  | AwaitAll num_cores => if checked_in s =? num_cores then Ok (goto c u Idle s) else Ok s
  | _ => Ok s
  end.

Definition run_panic c u s : res unit Sys :=
  match at_ u with
  | Panicking =>
      if is_bsp u then
        Ok (goto c u (DisableCores false) (mkSys (states s) (total s) (max_id s) (checked_in s) (next_core_id s)
          (entry_code s) true (panic_pending s) (rebooting s) (cpus s)))
      else
        let free := bool_decide (panic_pending s = None) in
        Ok (goto c u (PanicCheck free) (mkSys (states s) (total s) (max_id s) (checked_in s) (next_core_id s)
          (entry_code s) (bsp_in_panic s) (if free then Some c else panic_pending s) (rebooting s) (cpus s)))
  | PanicCheck no_panic_pending =>
      Ok (goto c u (if negb (bsp_in_panic s) && no_panic_pending then NotifyBsp else Stopped) s)
  | NotifyBsp => Ok (goto c u Stopped (ipi 0 NMI s))
  | DisableCores reboot =>
      Ok (goto c u (match max_id s with Some _ => DisableCore 0 reboot | None => cores_disabled reboot end) s)
  | DisableCore id reboot =>
      max ← once_get (max_id s);
      if max <=? id then Ok (goto c u (cores_disabled reboot) s)
      else if id =? c then Ok (goto c u (DisableCore (id + 1) reboot) s)
      else
        state ← core_state id s;
        Ok (goto c u (if decide (state = Online) then PollHalted id reboot else DisableCore (id + 1) reboot) s)
  | PollHalted id reboot =>
      state ← core_state id s;
      Ok (goto c u (if decide (state = Halted) then InitCore id reboot else SendNmi id reboot) s)
  | SendNmi id reboot => Ok (goto c u (PollHalted id reboot) (ipi id NMI s))
  | InitCore id reboot => Ok (goto c u (DisableCore (id + 1) reboot) (ipi id INIT s))
  | AwaitReboot => if rebooting s then Ok (goto c u SoftReboot s) else Ok s
  | SoftReboot =>
      Ok (goto c u (DisableCores true) (mkSys (states s) (total s) (max_id s) (checked_in s) (next_core_id s)
        (entry_code s) (bsp_in_panic s) (panic_pending s) true (cpus s)))
  | _ => Ok s
  end.

(** The kernel's [entry]: the core's own part of [main.rs]. *)
Definition run_entry c u s : res unit Sys :=
  match at_ u with
  | Boot vector =>
      match entry_code s with
      | Some _ => if vector * 0x1000 =? ENTRY_ADDR then Ok (goto c u Entry s) else Panic
      | None => Panic
      end
  | Entry =>
      let id := next_core_id s in
      Ok (set_cpu c (mkCpu Kernel (Some id) (nmi u)) (mkSys (states s) (total s) (max_id s) (checked_in s)
        (wrapping_add 32 id 1) (entry_code s) (bsp_in_panic s) (panic_pending s) (rebooting s) (cpus s)))
  | Kernel =>
      if is_bsp u then
        max ← once_set (max_id s) (Acpi.max_apic_id madt);
        Ok (goto c u (match madt with Some _ => InitSystem | None => CheckIn end)
          (mkSys (states s) (total s) max (checked_in s) (next_core_id s) (entry_code s) (bsp_in_panic s)
            (panic_pending s) (rebooting s) (cpus s)))
      else Ok (goto c u CheckIn s)
  | _ => Ok s
  end.

Definition step c s : res unit Sys :=
  match cpus s !! c with
  | None => Ok s
  | Some u =>
      if nmi u then match core_id u with Some _ => handle_nmi c u s | None => Panic end
      else
        match at_ u with
        | Boot _ | Entry | Kernel => run_entry c u s
        | CheckIn | CountIn | ReadTotal | AwaitAll _ => run_check_in c u s
        | Panicking | PanicCheck _ | NotifyBsp | DisableCores _ | DisableCore _ _ | PollHalted _ _ | SendNmi _ _
        | InitCore _ _ | AwaitReboot | SoftReboot => run_panic c u s
        | Reset | Idle | Rebooted | Stopped => Ok s
        | _ => run_bsp c u s
        end
  end.

(** A schedule: the cores that take steps, one after the other. *)
Fixpoint run (sched : list Z) s : res unit Sys :=
  match sched with [] => Ok s | c :: sched => s ← step c s; run sched s end.

(** A core panics: a failed assertion, an interrupt nobody handles, a request. *)
Definition fault c s : Sys :=
  match cpus s !! c with
  | Some u =>
      match core_id u, at_ u with
      | None, _ | _, Stopped | _, Rebooted => s
      | Some _, _ => goto c u Panicking s
      end
  | None => s
  end.
(** The user asks for a reboot. *)
Definition request_reboot s : Sys := mkSys (states s) (total s) (max_id s) (checked_in s) (next_core_id s) (entry_code s)
  (bsp_in_panic s) (panic_pending s) true (cpus s).

(** The machine when the first core, [bsp], reaches the kernel. *)
Definition start (cores : list Z) (bsp : Z) : Sys :=
  mkSys None None None 0 0 None false None false
    (list_to_map ((λ c, (c, mkCpu (if c =? bsp then Entry else Reset) None false)) <$> cores)).

End machine.
End Cores.
