(* ===== verification/CoresUp.v ===== *)
(** Bring-up: in every interleaving no core passes the barrier of [check_in] before all
    are online, no assertion fails, and every fair schedule gets all cores through. *)
From Stdlib Require Import ZArith Lia.
From stdpp Require Import prelude list numbers gmap.
From S2P Require Import Prelude Acpi Cores.
Import Cores.

(** * Sums over the cores *)
Section tally.
Context (apics : list Z) (f : option Cpu → nat).
Definition tally (m : gmap Z Cpu) : nat := sum_list_with (λ c, f (m !! c)) apics.

Lemma tally_notin c u (m : gmap Z Cpu) (l : list Z) : c ∉ l →
  sum_list_with (λ c', f (<[c := u]> m !! c')) l = sum_list_with (λ c', f (m !! c')) l.
Proof.
  induction l as [|a l IH]; intros Hc; [done|]. cbn [sum_list_with].
  rewrite IH, lookup_insert_ne by set_solver. done.
Qed.
Lemma tally_insert c u (m : gmap Z Cpu) : NoDup apics → c ∈ apics →
  (tally (<[c := u]> m) + f (m !! c) = tally m + f (Some u))%nat.
Proof.
  intros Hnd Hc. unfold tally. induction apics as [|a l IH]; [by apply elem_of_nil in Hc|].
  apply NoDup_cons in Hnd as [Ha Hnd]. cbn [sum_list_with].
  destruct (decide (c = a)) as [->|Hne].
  - rewrite tally_notin, lookup_insert_eq by done. lia.
  - rewrite lookup_insert_ne by done. assert (c ∈ l) by set_solver. specialize (IH Hnd ltac:(done)). lia.
Qed.
Lemma tally_outside c u (m : gmap Z Cpu) : c ∉ apics → tally (<[c := u]> m) = tally m.
Proof. intros Hc. by apply tally_notin. Qed.
Lemma tally_le (m : gmap Z Cpu) : (∀ u, f u ≤ 1)%nat → (tally m ≤ length apics)%nat.
Proof.
  intros H. unfold tally. induction apics as [|a l IH]; [done|]. cbn [sum_list_with length].
  specialize (H (m !! a)). lia.
Qed.
Lemma tally_full (m : gmap Z Cpu) : (∀ u, f u ≤ 1)%nat → tally m = length apics ↔ ∀ c, c ∈ apics → f (m !! c) = 1%nat.
Proof.
  intros H. unfold tally. induction apics as [|a l IH].
  { split; [intros _ c Hc; by apply elem_of_nil in Hc|done]. }
  cbn [sum_list_with length]. pose proof (H (m !! a)) as Ha.
  assert (sum_list_with (λ c, f (m !! c)) l ≤ length l)%nat as Hl.
  { clear -H. induction l as [|b l IH]; [done|]. cbn [sum_list_with length]. specialize (H (m !! b)). lia. }
  split.
  - intros E c [->|Hc]%elem_of_cons; [lia|]. apply IH; [lia|done].
  - intros Hc. rewrite (Hc a) by set_solver. rewrite (proj2 IH); [lia|]. intros c Hin. apply Hc. set_solver.
Qed.
End tally.

(** * Progress of a core *)
(** Of the core that starts the others *)
Definition brank (p : pc) : nat :=
  match p with
  | Entry => 0 | Kernel => 1 | InitSystem => 2 | StoreOffline _ => 3 | StoreOnline => 4 | SetTotal => 5 | FillIn => 6
  | Launch _ | SendInit _ | SendSipi _ | SendSipi2 _ | AwaitOnline _ => 7
  | CheckIn => 8 | CountIn => 9 | ReadTotal => 10 | AwaitAll _ => 11 | Idle => 12
  | _ => 13
  end.
(** Of the others *)
Definition arank (p : pc) : nat :=
  match p with
  | Reset => 0 | Boot _ => 1 | Entry => 2 | Kernel => 3 | CheckIn => 4 | CountIn => 5 | ReadTotal => 6 | AwaitAll _ => 7
  | Idle => 8
  | _ => 9
  end.

Definition counted (u : option Cpu) : nat :=
  match u with
  | Some u => match at_ u with ReadTotal | AwaitAll _ | Idle => 1 | _ => 0 end
  | None => 0
  end.
Definition has_id (u : option Cpu) : nat :=
  match u with Some (mkCpu _ (Some _) _) => 1 | _ => 0 end.

Lemma counted_le u : (counted u ≤ 1)%nat.
Proof. destruct u as [[[] ? ?]|]; cbn; lia. Qed.
Lemma has_id_le u : (has_id u ≤ 1)%nat.
Proof. destruct u as [[? [] ?]|]; cbn; lia. Qed.

(** A step of a core that is known *)
Ltac take_step Hu := unfold Cores.step; rewrite Hu; cbn [nmi at_ core_id].

Section bring_up.
Context {I : Ipis} {L : IpiLaws I}.
Context (cores apics : list Z) (bsp : Z) (ENTRY_CODE bstate : list Z).
Abbreviation n := (length apics).
Abbreviation step := (Cores.step (Some apics) ENTRY_CODE bstate).
Abbreviation run := (Cores.run (Some apics) ENTRY_CODE bstate).
Abbreviation max := (Acpi.max_apic_id (Some apics)).

(** A machine whose MADT lists each core once, the running one among them. *)
Record machine_ok : Prop := {
  mo_nodup : NoDup apics;
  mo_bsp : bsp ∈ apics;
  mo_cores : apics ⊆ cores;
  mo_distinct : NoDup cores;
  mo_ids : Forall (fits 32) apics;
  mo_len : zlen apics < 2 ^ 32;
  mo_code : (length bstate ≤ length ENTRY_CODE)%nat;
}.
Context (Hmo : machine_ok).

(** How many of the cores have been launched and are known to be online; whether the
    next one has been marked, and started. *)
Definition pos (p : pc) : nat :=
  match p with
  | Launch k | SendInit k | SendSipi k | SendSipi2 k | AwaitOnline k => k
  | CheckIn | CountIn | ReadTotal | AwaitAll _ | Idle => n
  | _ => 0
  end.
Definition marked (p : pc) : bool :=
  match p with SendInit _ | SendSipi _ | SendSipi2 _ | AwaitOnline _ => true | _ => false end.
Definition started (p : pc) : bool :=
  match p with SendSipi2 _ | AwaitOnline _ => true | _ => false end.

Definition pc_ok (p : pc) : Prop :=
  match p with AwaitAll m => m = zlen apics | Boot v => v = ENTRY_ADDR / 0x1000 | _ => True end.
Definition ap_ok (p0 : pc) (i : nat) (u : Cpu) : Prop :=
  nmi u = false ∧ pc_ok (at_ u) ∧ (arank (at_ u) ≤ 8)%nat ∧
  match core_id u with Some id => 1 ≤ id ∧ (3 ≤ arank (at_ u))%nat | None => (arank (at_ u) < 3)%nat end ∧
  ((i < pos p0)%nat → (5 ≤ arank (at_ u))%nat) ∧
  (i = pos p0 → if started p0 then (1 ≤ arank (at_ u))%nat else at_ u = Reset) ∧
  ((pos p0 < i)%nat → at_ u = Reset).

Definition ap_state (p0 : pc) (i : nat) (u : Cpu) : ApicState :=
  if (5 <=? arank (at_ u))%nat then Online
  else if (i <? pos p0)%nat || ((i =? pos p0)%nat && marked p0) then Launched else Offline.
(** The table of states: an entry per id, those without a core set apart. *)
Definition table (l : list Z) : Prop :=
  length l = Z.to_nat (max + 1) ∧
  ∀ x, (x < length l)%nat → (∀ c, c ∈ apics → Z.to_nat c ≠ x) → l !! x = Some (as_u8 None_).
Definition states_ok (p0 : pc) (s : Sys) : Prop :=
  if (brank p0 <=? 2)%nat then states s = None
  else ∃ l, states s = Some l ∧ table l ∧
    match p0 with
    | StoreOffline k => (k ≤ n)%nat ∧ Forall (λ v, v ≠ as_u8 Launched) l ∧ ∀ i c, apics !! i = Some c → (i < k)%nat → l !! Z.to_nat c = Some (as_u8 Offline)
    | _ =>
        l !! Z.to_nat bsp = Some (as_u8 (if (brank p0 <=? 4)%nat then Offline else Online)) ∧
        ∀ i c u, apics !! i = Some c → c ≠ bsp → cpus s !! c = Some u → l !! Z.to_nat c = Some (as_u8 (ap_state p0 i u))
    end.

Record inv_at (p0 : pc) (s : Sys) : Prop := {
  ia_bsp : cpus s !! bsp = Some (mkCpu p0 (if (brank p0 =? 0)%nat then None else Some 0) false);
  ia_pc : (brank p0 ≤ 12)%nat ∧ pc_ok p0 ∧ (pos p0 ≤ n)%nat;
  ia_marked : marked p0 = true → ∃ id, apics !! pos p0 = Some id ∧ id ≠ bsp;
  ia_aps i c : apics !! i = Some c → c ≠ bsp → ∃ u, cpus s !! c = Some u ∧ ap_ok p0 i u;
  ia_states : states_ok p0 s;
  ia_max : max_id s = if (brank p0 <=? 1)%nat then None else Some max;
  ia_total : total s = if (brank p0 <=? 5)%nat then None else Some (zlen apics);
  ia_code : (brank p0 <=? 6)%nat = false → entry_code s = Some (take (length ENTRY_CODE - length bstate) ENTRY_CODE ++ bstate);
  ia_count : checked_in s = Z.of_nat (tally apics counted (cpus s));
  ia_ids : next_core_id s = Z.of_nat (tally apics has_id (cpus s));
  ia_idle c u : c ∈ apics → cpus s !! c = Some u → at_ u = Idle → checked_in s = zlen apics;
  ia_rest c u : c ∉ apics → cpus s !! c = Some u → at_ u = Reset ∧ nmi u = false;
}.
Definition inv (s : Sys) : Prop := ∃ p0, inv_at p0 s.

(** Steps that remain *)
Definition bweight (p : pc) : nat :=
  match p with
  | Idle => 0 | AwaitAll _ => 1 | ReadTotal => 2 | CountIn => 3 | CheckIn => 4
  | Launch k => 5 * (n - k) + 5 | SendInit k => 5 * (n - k) + 4 | SendSipi k => 5 * (n - k) + 3
  | SendSipi2 k => 5 * (n - k) + 2 | AwaitOnline k => 5 * (n - k) + 1
  | FillIn => 5 * n + 6 | SetTotal => 5 * n + 7 | StoreOnline => 5 * n + 8 | StoreOffline k => 5 * n + 9 + (n - k)
  | InitSystem => 6 * n + 10 | Kernel => 6 * n + 11 | _ => 6 * n + 12
  end.
Definition aweight (u : option Cpu) : nat := match u with Some u => 8 - arank (at_ u) | None => 0 end.
Definition others : list Z := filter (λ c, c ≠ bsp) apics.
Definition weight (s : Sys) : nat :=
  match cpus s !! bsp with Some u => bweight (at_ u) | None => 0 end + tally others aweight (cpus s).

(** A core that cannot go on by itself *)
Definition blocked (c : Z) (s : Sys) : Prop :=
  ∃ u, cpus s !! c = Some u ∧
    match at_ u with
    | Reset | Idle => True
    | AwaitAll m => checked_in s ≠ m
    | AwaitOnline k => ∃ id st, apics !! k = Some id ∧ core_state id s = Ok st ∧ st ≠ Online
    | _ => False
    end.

(** ** Ids and states *)
Lemma id_range c : c ∈ apics → 0 ≤ c ≤ max.
Proof using Hmo.
  intros Hc. split; [pose proof (proj1 (Forall_forall _ _) (mo_ids Hmo) c) as H; unfold fits in H;
    first [specialize (H Hc)|specialize (H (proj1 (list_elem_of_In _ _) Hc))]; lia|].
  unfold Acpi.max_apic_id. clear -Hc.
  assert (∀ l a, a ≤ foldl Z.max a l) as Hge.
  { induction l as [|b l IH]; intros a; cbn; [lia|]. specialize (IH (Z.max a b)). lia. }
  assert (∀ l a, c ∈ l → c ≤ foldl Z.max a l) as H; [|by apply H].
  induction l as [|b l IH]; intros a Hin; [by apply elem_of_nil in Hin|].
  cbn. apply elem_of_cons in Hin as [->|Hin]; [|by apply IH]. specialize (Hge l (Z.max a b)). lia.
Qed.
Lemma id_inj c c' : c ∈ apics → c' ∈ apics → Z.to_nat c = Z.to_nat c' → c = c'.
Proof using Hmo. intros H1%id_range H2%id_range. lia. Qed.
Lemma nth_in i c : apics !! i = Some c → c ∈ apics.
Proof. apply list_elem_of_lookup_2. Qed.
Lemma nth_inj i j c : apics !! i = Some c → apics !! j = Some c → i = j.
Proof using Hmo. intros H1 H2. by eapply NoDup_lookup; [apply mo_nodup| |]. Qed.

Lemma table_insert c v l : c ∈ apics → table l → table (<[Z.to_nat c := v]> l).
Proof.
  intros Hc [H1 H2]. split; rewrite length_insert; [done|]. intros x Hx Hn. rewrite list_lookup_insert_ne by (by apply Hn).
  by apply H2.
Qed.
Lemma set_core_state_ok id st s l : states s = Some l → id ∈ apics → table l →
  set_core_state id st s = Ok (set_states (<[Z.to_nat id := as_u8 st]> l) s).
Proof using Hmo.
  intros Hs Hid%id_range [Hl _]. unfold set_core_state. rewrite Hs. cbn [once_get unwrap mbind res_bind]. unfold store.
  rewrite (proj2 (Nat.ltb_lt _ _)) by lia. done.
Qed.
Lemma core_state_ok id st s l : states s = Some l → l !! Z.to_nat id = Some (as_u8 st) → core_state id s = Ok st.
Proof.
  intros Hs Hl. unfold core_state. rewrite Hs. cbn [once_get unwrap mbind res_bind]. rewrite (index_lookup _ _ _ Hl).
  by destruct st.
Qed.

(** ** A step of one of the others *)
Lemma ap_frame p0 s s' i c u u' :
  inv_at p0 s → apics !! i = Some c → c ≠ bsp → cpus s !! c = Some u → ap_ok p0 i u' →
  cpus s' = <[c := u']> (cpus s) → states_ok p0 s' →
  max_id s' = max_id s → total s' = total s → entry_code s' = entry_code s →
  (counted (Some u) ≤ counted (Some u'))%nat →
  checked_in s' = checked_in s + Z.of_nat (counted (Some u') - counted (Some u)) →
  next_core_id s' = next_core_id s + Z.of_nat (has_id (Some u')) - Z.of_nat (has_id (Some u)) →
  (at_ u' = Idle → checked_in s' = zlen apics) → inv_at p0 s'.
Proof using Hmo.
  intros Hinv Hi Hne Hu Hok Hc Hst Hmax Htot Hcode Hle Hcnt Hid Hidle. pose proof (nth_in _ _ Hi) as Hin.
  pose proof (tally_insert apics counted c u' (cpus s) (mo_nodup Hmo) Hin) as Ht1.
  pose proof (tally_insert apics has_id c u' (cpus s) (mo_nodup Hmo) Hin) as Ht2. rewrite Hu in Ht1, Ht2.
  assert (checked_in s = zlen apics → checked_in s' = zlen apics) as Hkeep.
  { intros Hfull. rewrite (ia_count _ _ Hinv) in Hfull. unfold zlen in Hfull.
    assert (counted (cpus s !! c) = 1%nat) as H1.
    { apply (tally_full apics counted (cpus s) counted_le); [lia|done]. }
    rewrite Hu in H1. pose proof (counted_le (Some u')). rewrite Hcnt, (ia_count _ _ Hinv), Hfull. unfold zlen. lia. }
  destruct Hinv as [Hb Hpc Hm Haps _ Hmx Htt Hcd Hct Hii Hil Hrest]. split; try congruence; try done.
  - by rewrite Hc, lookup_insert_ne.
  - intros j d Hj Hd. rewrite Hc. destruct (decide (d = c)) as [->|Hdc].
    + exists u'. split; [apply lookup_insert_eq|]. by rewrite (nth_inj _ _ _ Hj Hi).
    + rewrite lookup_insert_ne by done. by apply Haps.
  - intros E. rewrite Hcode. by apply Hcd.
  - rewrite Hcnt, Hct, Hc. lia.
  - rewrite Hid, Hii, Hc. lia.
  - intros d v Hd Hv Hat. rewrite Hc in Hv. destruct (decide (d = c)) as [->|Hdc].
    + rewrite lookup_insert_eq in Hv. injection Hv as ->. by apply Hidle.
    + rewrite lookup_insert_ne in Hv by done. apply Hkeep. by eapply Hil.
  - intros d v Hd Hv. rewrite Hc, lookup_insert_ne in Hv by (intros ->; done). by apply (Hrest d).
Qed.

Definition settled (p0 : pc) (s : Sys) (l : list Z) : Prop :=
  states s = Some l ∧ table l ∧ l !! Z.to_nat bsp = Some (as_u8 Online) ∧
  ∀ i c u, apics !! i = Some c → c ≠ bsp → cpus s !! c = Some u → l !! Z.to_nat c = Some (as_u8 (ap_state p0 i u)).
Lemma states_settled p0 s : (5 ≤ brank p0)%nat → states_ok p0 s ↔ ∃ l, settled p0 s l.
Proof. intros H. unfold states_ok, settled. destruct p0; cbn [brank Nat.leb] in *; try lia; done. Qed.

Lemma ap_late p0 i u : ap_ok p0 i u → (1 ≤ arank (at_ u))%nat → (7 ≤ brank p0)%nat.
Proof.
  intros (_ & _ & _ & _ & _ & Heq & Hgt) Hr. destruct p0; cbn [brank pos started] in *; try lia;
    (destruct (decide (i = 0%nat)); [rewrite Heq in Hr by done|rewrite Hgt in Hr by lia]; cbn in Hr; lia).
Qed.
Lemma weight_ap s s' i c u u' : apics !! i = Some c → c ≠ bsp → cpus s !! c = Some u →
  cpus s' = <[c := u']> (cpus s) → (arank (at_ u) < arank (at_ u') ≤ 8)%nat → (weight s' < weight s)%nat.
Proof using Hmo.
  intros Hi Hne Hu Hc Hr. unfold weight. rewrite Hc, lookup_insert_ne by done.
  assert (c ∈ others) as Hin by (unfold others; apply list_elem_of_filter; split; [done|by eapply nth_in]).
  assert (NoDup others) as Hnd by (apply list.NoDup_filter, mo_nodup, Hmo).
  pose proof (tally_insert others aweight c u' (cpus s) Hnd Hin) as Ht. rewrite Hu in Ht. cbn [aweight] in Ht. lia.
Qed.

Lemma ap_states_same p0 s s' i c u u' :
  inv_at p0 s → apics !! i = Some c → c ≠ bsp → cpus s !! c = Some u → (7 ≤ brank p0)%nat →
  (5 <=? arank (at_ u))%nat = (5 <=? arank (at_ u'))%nat →
  cpus s' = <[c := u']> (cpus s) → states s' = states s → states_ok p0 s'.
Proof using Hmo.
  intros Hinv Hi Hne Hu Hb H5 Hc Hs. pose proof (ia_states _ _ Hinv) as Hst.
  apply states_settled in Hst as (l & H1 & H2 & H3 & H4); [|lia].
  apply states_settled; [lia|]. exists l. split_and!; [congruence|done|done|].
  intros j d v Hj Hd Hv. rewrite Hc in Hv. destruct (decide (d = c)) as [->|Hdc].
  - rewrite lookup_insert_eq in Hv. injection Hv as <-. rewrite (H4 _ _ u Hj Hd Hu). unfold ap_state. by rewrite H5.
  - rewrite lookup_insert_ne in Hv by done. by eapply H4.
Qed.

Lemma ap_advances p0 i u u' : ap_ok p0 i u → (1 ≤ arank (at_ u))%nat → (arank (at_ u) < arank (at_ u') ≤ 8)%nat →
  pc_ok (at_ u') → nmi u' = false →
  match core_id u' with Some id => 1 ≤ id ∧ (3 ≤ arank (at_ u'))%nat | None => (arank (at_ u') < 3)%nat end → ap_ok p0 i u'.
Proof.
  intros (_ & _ & _ & _ & Hlt & Heq & Hgt) H1 H2 Hpc Hn Hid. unfold ap_ok. split_and!; try done; try lia.
  - intros Hi. specialize (Heq Hi). destruct (started p0); [lia|]. rewrite Heq in H1. cbn in H1. lia.
  - intros Hi. rewrite (Hgt Hi) in H1. cbn in H1. lia.
Qed.

(** The next id is a core's first *)
Lemma ids_bound p0 s c u : inv_at p0 s → c ∈ apics → cpus s !! c = Some u → core_id u = None →
  0 ≤ next_core_id s < zlen apics.
Proof using Hmo.
  intros Hinv Hc Hu Hid. rewrite (ia_ids _ _ Hinv). unfold zlen. split; [lia|].
  pose proof (tally_le apics has_id (cpus s) has_id_le). assert (tally apics has_id (cpus s) ≠ n); [|lia].
  intros E. apply (tally_full apics has_id _ has_id_le) with (c := c) in E; [|done]. rewrite Hu in E.
  destruct u as [? [] ?]; done.
Qed.
Lemma ids_taken p0 s : inv_at p0 s → (1 ≤ brank p0)%nat → 1 ≤ next_core_id s.
Proof using Hmo.
  intros Hinv Hb. rewrite (ia_ids _ _ Hinv).
  pose proof (tally_insert apics has_id bsp (mkCpu Entry None false) (cpus s) (mo_nodup Hmo) (mo_bsp Hmo)) as Ht.
  rewrite (ia_bsp _ _ Hinv) in Ht. rewrite (proj2 (Nat.eqb_neq _ _)) in Ht by lia. cbn [has_id] in Ht. lia.
Qed.
Lemma count_bound p0 s c u : inv_at p0 s → c ∈ apics → cpus s !! c = Some u → counted (Some u) = 0%nat →
  0 ≤ checked_in s < zlen apics.
Proof using Hmo.
  intros Hinv Hc Hu H0. rewrite (ia_count _ _ Hinv). unfold zlen. split; [lia|].
  pose proof (tally_le apics counted (cpus s) counted_le). assert (tally apics counted (cpus s) ≠ n); [|lia].
  intros E. apply (tally_full apics counted _ counted_le) with (c := c) in E; [|done]. rewrite Hu in E. lia.
Qed.

Ltac by_move Hsame := try done; try (by eapply Hsame); try (cbn; lia).

Definition moves (c : Z) (s : Sys) : Prop :=
  ∃ s', step c s = Ok s' ∧ inv s' ∧ ((s' = s ∧ blocked c s) ∨ (weight s' < weight s)%nat).

Lemma ap_step p0 s i c : inv_at p0 s → apics !! i = Some c → c ≠ bsp → moves c s.
Proof using Hmo.
  intros Hinv Hi Hne. destruct (ia_aps _ _ Hinv _ _ Hi Hne) as (u & Hu & Hok).
  pose proof (nth_in _ _ Hi) as Hin. pose proof Hok as (Hn & Hpc & H8 & Hid & _).
  destruct u as [p id nm]. cbn [at_ core_id nmi] in *. subst nm.
  destruct (decide (p = Reset)) as [->|Hr].
  { exists s. split; [unfold Cores.step; by rewrite Hu|]. split; [by exists p0|]. left. split; [done|]. by eexists. }
  assert (1 ≤ arank p)%nat as H1 by (destruct p; cbn [arank] in *; done || lia).
  pose proof (ap_late _ _ _ Hok H1) as H7.
  assert (∀ s' u', step c s = Ok s' → cpus s' = <[c := u']> (cpus s) → (arank p < arank (at_ u') ≤ 8)%nat →
    pc_ok (at_ u') → nmi u' = false →
    match core_id u' with Some id => 1 ≤ id ∧ (3 ≤ arank (at_ u'))%nat | None => (arank (at_ u') < 3)%nat end →
    states_ok p0 s' → max_id s' = max_id s → total s' = total s → entry_code s' = entry_code s →
    (counted (Some (mkCpu p id false)) ≤ counted (Some u'))%nat →
    checked_in s' = checked_in s + Z.of_nat (counted (Some u') - counted (Some (mkCpu p id false))) →
    next_core_id s' = next_core_id s + Z.of_nat (has_id (Some u')) - Z.of_nat (has_id (Some (mkCpu p id false))) →
    (at_ u' = Idle → checked_in s' = zlen apics) → moves c s) as Hgo.
  { intros s' u' Hstep Hc Hrk Hpc' Hn' Hid' ????????. exists s'. split; [done|]. split.
    - exists p0. apply (ap_frame p0 s s' i c (mkCpu p id false) u'); try done. by eapply ap_advances.
    - right. by apply (weight_ap s s' i c (mkCpu p id false) u'). }
  assert (∀ s' u', cpus s' = <[c := u']> (cpus s) → states s' = states s →
    (5 <=? arank p)%nat = (5 <=? arank (at_ u'))%nat → states_ok p0 s') as Hsame.
  { intros s' u' Hc Hs H5. by eapply ap_states_same. }
  destruct p; cbn [arank] in *; try lia.
  - (* Boot *)
    cbn [pc_ok] in Hpc. subst vector. destruct id as [id|]; [lia|].
    eapply (Hgo _ (mkCpu Entry None false)).
    { take_step Hu. unfold run_entry. cbn [at_]. rewrite (ia_code _ _ Hinv) by (apply Nat.leb_gt; lia). reflexivity. }
    all: by_move Hsame.
  - (* Entry *)
    destruct id as [id|]; [lia|]. pose proof (ids_bound _ _ _ _ Hinv Hin Hu eq_refl). pose proof (mo_len Hmo).
    pose proof (ids_taken _ _ Hinv ltac:(lia)).
    eapply (Hgo _ (mkCpu Kernel (Some (next_core_id s)) false)); [take_step Hu; reflexivity|by_move Hsame..].
    cbn [next_core_id set_cpu has_id]. unfold wrapping_add. rewrite Z.mod_small by lia. lia.
  - (* Kernel *)
    destruct id as [id|]; [|lia].
    eapply (Hgo _ (mkCpu CheckIn (Some id) false)).
    { take_step Hu. unfold run_entry. cbn [at_ is_bsp core_id]. rewrite (proj2 (Z.eqb_neq _ _)) by lia. reflexivity. }
    all: by_move Hsame.
  - (* CheckIn *)
    destruct id as [id|]; [|lia]. pose proof (ia_states _ _ Hinv) as Hst.
    apply states_settled in Hst as (l & H2 & H3 & H4 & H5); [|lia]. pose proof (proj1 H3).
    pose proof (H5 _ _ _ Hi Hne Hu) as Hc. unfold ap_state in Hc. cbn [at_ arank Nat.leb] in Hc.
    assert ((i <? pos p0)%nat || (i =? pos p0)%nat && marked p0 = true) as Hl.
    { destruct Hok as (_ & _ & _ & _ & Hlt & Heq & Hgt). cbn [at_ arank] in *.
      destruct (Nat.ltb_spec i (pos p0)); [done|]. cbn [orb]. destruct (Nat.eqb_spec i (pos p0)) as [->|]; [|by specialize (Hgt ltac:(lia))].
      specialize (Heq eq_refl). destruct p0; cbn [started marked andb] in *; done. }
    rewrite Hl in Hc. pose proof (id_range c Hin) as Hr'.
    eapply (Hgo _ (mkCpu CountIn (Some id) false)).
    { take_step Hu. unfold run_check_in. cbn [at_]. unfold go_online. rewrite H2. cbn [once_get unwrap mbind res_bind].
      rewrite (index_lookup _ _ _ Hc). cbn [mbind res_bind]. rewrite Z.eqb_refl. unfold store.
      rewrite (proj2 (Nat.ltb_lt _ _)) by lia. cbn [mbind res_bind is_bsp core_id].
      rewrite (proj2 (Z.eqb_neq id 0)) by lia. reflexivity. }
    all: by_move Hsame.
    + apply states_settled; [lia|]. eexists. split; [reflexivity|]. split; [by apply table_insert|].
      split; [rewrite list_lookup_insert_ne; [done|]; intros E; by apply Hne, id_inj; [|apply mo_bsp|]|].
      intros j d v Hj Hd Hv. cbn [cpus goto set_cpu] in Hv. destruct (decide (d = c)) as [->|Hdc].
      * rewrite lookup_insert_eq in Hv. injection Hv as <-. rewrite list_lookup_insert_eq by lia. done.
      * rewrite lookup_insert_ne in Hv by done. rewrite list_lookup_insert_ne; [by eapply H5|].
        intros E. apply Hdc, id_inj; [by eapply nth_in|done|done].
  - (* CountIn *)
    pose proof (count_bound _ _ _ _ Hinv Hin Hu eq_refl). pose proof (mo_len Hmo). destruct id as [id|]; [|lia].
    eapply (Hgo _ (mkCpu ReadTotal (Some id) false)); [take_step Hu; reflexivity|by_move Hsame..].
    cbn [checked_in goto set_cpu counted at_]. unfold wrapping_add. rewrite Z.mod_small by lia. lia.
  - (* ReadTotal *)
    destruct id as [id|]; [|lia]. pose proof (ia_total _ _ Hinv) as Ht. rewrite (proj2 (Nat.leb_gt _ _)) in Ht by lia.
    eapply (Hgo _ (mkCpu (AwaitAll (zlen apics)) (Some id) false)).
    { take_step Hu. unfold run_check_in. cbn [at_]. rewrite Ht. cbn [once_get unwrap mbind res_bind].
      rewrite (proj2 (Z.eqb_neq _ _)); [reflexivity|]. unfold zlen. apply lookup_lt_Some in Hi. lia. }
    all: by_move Hsame.
  - (* AwaitAll *)
    destruct id as [id|]; [|lia]. cbn [pc_ok] in Hpc. subst num_cores.
    destruct (Z.eqb_spec (checked_in s) (zlen apics)) as [E|E].
    + eapply (Hgo _ (mkCpu Idle (Some id) false)).
      { take_step Hu. unfold run_check_in. cbn [at_]. rewrite (proj2 (Z.eqb_eq _ _) E). reflexivity. }
      all: by_move Hsame.
    + exists s. split; [|split; [by exists p0|left; split; [done|]; by eexists]].
      take_step Hu. unfold run_check_in. cbn [at_]. by rewrite (proj2 (Z.eqb_neq _ _) E).
  - (* Idle *)
    exists s. split; [take_step Hu; done|]. split; [by exists p0|left; split; [done|]; by eexists].
Qed.

(** ** A step of the first core *)
Definition bsp_cpu (p : pc) : Cpu := mkCpu p (if (brank p =? 0)%nat then None else Some 0) false.

Lemma bsp_frame p0 p1 s s' m :
  inv_at p0 s → cpus s' = <[bsp := bsp_cpu p1]> m → m !! bsp = cpus s !! bsp →
  tally apics counted m = tally apics counted (cpus s) → tally apics has_id m = tally apics has_id (cpus s) →
  (brank p1 ≤ 12)%nat ∧ pc_ok p1 ∧ (pos p1 ≤ n)%nat →
  (marked p1 = true → ∃ id, apics !! pos p1 = Some id ∧ id ≠ bsp) →
  (∀ i c, apics !! i = Some c → c ≠ bsp → ∃ u, m !! c = Some u ∧ ap_ok p1 i u) →
  states_ok p1 s' →
  (max_id s' = if (brank p1 <=? 1)%nat then None else Some max) →
  (total s' = if (brank p1 <=? 5)%nat then None else Some (zlen apics)) →
  ((brank p1 <=? 6)%nat = false → entry_code s' = Some (take (length ENTRY_CODE - length bstate) ENTRY_CODE ++ bstate)) →
  (counted (Some (bsp_cpu p0)) ≤ counted (Some (bsp_cpu p1)))%nat →
  checked_in s' = checked_in s + Z.of_nat (counted (Some (bsp_cpu p1)) - counted (Some (bsp_cpu p0))) →
  next_core_id s' = next_core_id s + Z.of_nat (has_id (Some (bsp_cpu p1))) - Z.of_nat (has_id (Some (bsp_cpu p0))) →
  (∀ c u, c ≠ bsp → m !! c = Some u → at_ u = Idle → cpus s !! c = Some u) →
  (∀ c, c ∉ apics → m !! c = cpus s !! c) →
  (p1 = Idle → checked_in s' = zlen apics) → inv_at p1 s'.
Proof using Hmo.
  intros Hinv Hc Hmb Ht1 Ht2 Hpc Hmk Haps Hst Hmx Htt Hcd Hle Hcnt Hid Hold Hrest Hidle.
  pose proof (ia_bsp _ _ Hinv) as Hb. fold (bsp_cpu p0) in Hb. rewrite Hb in Hmb.
  pose proof (tally_insert apics counted bsp (bsp_cpu p1) m (mo_nodup Hmo) (mo_bsp Hmo)) as Hi1.
  pose proof (tally_insert apics has_id bsp (bsp_cpu p1) m (mo_nodup Hmo) (mo_bsp Hmo)) as Hi2. rewrite Hmb in Hi1, Hi2.
  split; try done.
  - rewrite Hc. apply lookup_insert_eq.
  - intros i c Hi Hne. rewrite Hc, lookup_insert_ne by done. by apply Haps.
  - rewrite Hcnt, (ia_count _ _ Hinv), Hc. lia.
  - rewrite Hid, (ia_ids _ _ Hinv), Hc. lia.
  - intros c u Hin Hu Hat. rewrite Hc in Hu. destruct (decide (c = bsp)) as [->|Hne].
    + rewrite lookup_insert_eq in Hu. injection Hu as <-. by apply Hidle.
    + rewrite lookup_insert_ne in Hu by done. specialize (Hold _ _ Hne Hu Hat).
      pose proof (ia_idle _ _ Hinv _ _ Hin Hold Hat) as Hfull. rewrite (ia_count _ _ Hinv) in Hfull. unfold zlen in Hfull.
      assert (counted (cpus s !! bsp) = 1%nat) as H1.
      { apply (tally_full apics counted (cpus s) counted_le); [lia|apply mo_bsp, Hmo]. }
      rewrite Hb in H1. pose proof (counted_le (Some (bsp_cpu p1))). rewrite Hcnt, (ia_count _ _ Hinv), Hfull. unfold zlen. lia.
  - intros c u Hin Hu. rewrite Hc, lookup_insert_ne in Hu by (intros <-; apply Hin, mo_bsp, Hmo).
    rewrite Hrest in Hu by done. by apply (ia_rest _ _ Hinv c).
Qed.

Lemma bsp_weight p0 p1 s s' m :
  inv_at p0 s → cpus s' = <[bsp := bsp_cpu p1]> m → (bweight p1 < bweight p0)%nat →
  (tally others aweight m ≤ tally others aweight (cpus s))%nat → (weight s' < weight s)%nat.
Proof using Hmo.
  intros Hinv Hc Hw Ht. unfold weight. rewrite (ia_bsp _ _ Hinv), Hc, lookup_insert_eq. cbn [at_ bsp_cpu].
  rewrite tally_outside; [lia|]. unfold others. rewrite list_elem_of_filter. by intros [? _].
Qed.

Lemma ap_ok_same p0 p1 i u : pos p1 = pos p0 → started p1 = started p0 → ap_ok p0 i u → ap_ok p1 i u.
Proof. intros H1 H2. unfold ap_ok. by rewrite H1, H2. Qed.
(** The next core is another one, or is known to be online. *)
Lemma ap_ok_next p0 p1 k i u : pos p0 = k → pos p1 = S k → started p1 = false →
  (i = k → (5 ≤ arank (at_ u))%nat) → ap_ok p0 i u → ap_ok p1 i u.
Proof.
  intros H1 H2 H3 Hk (Hn & Hpc & H8 & Hid & Hlt & Heq & Hgt). unfold ap_ok. rewrite H1, H2, H3 in *. split_and!; try done.
  - intros Hi. destruct (decide (i = k)) as [->|]; [by apply Hk|]. apply Hlt. lia.
  - intros ->. apply Hgt. lia.
  - intros Hi. apply Hgt. lia.
Qed.

(** The common case: nothing happens to the others, and the shared words of the
    start-up stay. *)
Lemma bsp_move p0 p1 s s' :
  inv_at p0 s → step bsp s = Ok s' → cpus s' = <[bsp := bsp_cpu p1]> (cpus s) →
  (1 ≤ brank p0)%nat → (1 ≤ brank p1)%nat → (bweight p1 < bweight p0)%nat →
  (brank p1 ≤ 12)%nat ∧ pc_ok p1 ∧ (pos p1 ≤ n)%nat →
  (marked p1 = true → ∃ id, apics !! pos p1 = Some id ∧ id ≠ bsp) →
  (∀ i c u, apics !! i = Some c → c ≠ bsp → cpus s !! c = Some u → ap_ok p0 i u → ap_ok p1 i u) →
  states_ok p1 s' →
  (max_id s' = if (brank p1 <=? 1)%nat then None else Some max) →
  (total s' = if (brank p1 <=? 5)%nat then None else Some (zlen apics)) →
  ((brank p1 <=? 6)%nat = false → entry_code s' = Some (take (length ENTRY_CODE - length bstate) ENTRY_CODE ++ bstate)) →
  (counted (Some (bsp_cpu p0)) ≤ counted (Some (bsp_cpu p1)))%nat →
  checked_in s' = checked_in s + Z.of_nat (counted (Some (bsp_cpu p1)) - counted (Some (bsp_cpu p0))) →
  next_core_id s' = next_core_id s → (p1 = Idle → checked_in s' = zlen apics) → moves bsp s.
Proof using Hmo.
  intros Hinv Hstep Hc H0 H1 Hw Hpc Hmk Hap Hst Hmx Htt Hcd Hle Hcnt Hid Hidle. exists s'. split; [done|]. split.
  - exists p1. apply (bsp_frame p0 p1 s s' (cpus s)); try done.
    + intros i c Hi Hne. destruct (ia_aps _ _ Hinv _ _ Hi Hne) as (u & Hu & Hok). exists u. split; [done|]. by eapply Hap.
    + rewrite Hid. unfold bsp_cpu. rewrite !(proj2 (Nat.eqb_neq _ _)) by lia. cbn [has_id]. lia.
  - right. by eapply bsp_weight.
Qed.

Ltac by_bsp := try done; try (cbn; lia); try (intros; eapply ap_ok_same; [| |eassumption]; done).

Lemma bsp_step_entry p0 s : inv_at p0 s → (brank p0 ≤ 2)%nat → moves bsp s.
Proof using Hmo.
  intros Hinv Hb. pose proof (ia_bsp _ _ Hinv) as Hu. pose proof (mo_len Hmo). pose proof (mo_bsp Hmo) as Hbsp.
  pose proof (ia_states _ _ Hinv) as Hst. pose proof (ia_max _ _ Hinv) as Hmx. pose proof (ia_total _ _ Hinv) as Htt.
  destruct p0; cbn [brank Nat.eqb Nat.leb] in *; try lia; unfold states_ok in Hst; cbn [brank Nat.leb] in Hst.
  - (* Entry *)
    pose proof (ids_bound _ _ _ _ Hinv Hbsp Hu eq_refl) as Hid.
    assert (next_core_id s = 0) as H0.
    { rewrite (ia_ids _ _ Hinv). enough (tally apics has_id (cpus s) = 0%nat) by lia.
      unfold tally. assert (∀ c, c ∈ apics → has_id (cpus s !! c) = 0%nat) as Hno.
      { intros c Hc. destruct (decide (c = bsp)) as [->|Hne]; [by rewrite Hu|].
        apply list_elem_of_lookup in Hc as [i Hi]. destruct (ia_aps _ _ Hinv _ _ Hi Hne) as (u & -> & Hok).
        destruct Hok as (_ & _ & _ & Hid' & _ & Heq & Hgt). cbn [pos started] in *.
        assert (at_ u = Reset) as Hr by (destruct i; [by apply Heq|apply Hgt; lia]). rewrite Hr in Hid'. destruct u as [? [] ?]; [|done].
        cbn in Hid'. lia. }
      clear -Hno. induction apics as [|a l IH]; [done|]. cbn [sum_list_with]. rewrite Hno by set_solver.
      apply IH. intros c Hc. apply Hno. set_solver. }
    eexists. split; [take_step Hu; unfold run_entry; cbn [at_]; reflexivity|]. rewrite H0. split.
    + exists Kernel. apply (bsp_frame Entry Kernel s _ (cpus s)); try done.
      * split_and!; try done; cbn; lia.
      * intros i c Hi Hne. destruct (ia_aps _ _ Hinv _ _ Hi Hne) as (u & Hu' & Hok). exists u. split; [done|].
        by eapply ap_ok_same; [| |exact Hok].
      * cbn. lia.
      * cbn [next_core_id set_cpu]. rewrite H0. done.
    + right. eapply (bsp_weight Entry Kernel); try done. cbn [bweight]. lia.
  - (* Kernel *)
    eapply (bsp_move Kernel InitSystem s _ Hinv).
    { take_step Hu. unfold run_entry. cbn [at_ is_bsp core_id]. rewrite Z.eqb_refl, Hmx. reflexivity. }
    all: by_bsp.
  - (* InitSystem *)
    eapply (bsp_move InitSystem (StoreOffline 0) s _ Hinv).
    { take_step Hu. unfold run_bsp. cbn [at_]. rewrite Hmx, Hst. reflexivity. }
    all: by_bsp.
    unfold states_ok. cbn [brank Nat.leb]. exists (replicate (Z.to_nat (max + 1)) (as_u8 None_)).
    split; [reflexivity|].
    split_and!; [split; [apply length_replicate|intros x; rewrite length_replicate; intros Hx _; by apply lookup_replicate_2]|lia|by apply Forall_replicate|]. intros i c _ Hi. lia.
Qed.

Lemma aps_asleep p0 s i c u : inv_at p0 s → pos p0 = 0%nat → started p0 = false → apics !! i = Some c → c ≠ bsp →
  cpus s !! c = Some u → at_ u = Reset.
Proof.
  intros Hinv H0 H1 Hi Hne Hu. destruct (ia_aps _ _ Hinv _ _ Hi Hne) as (u' & Hu' & Hok).
  assert (u' = u) as -> by congruence. destruct Hok as (_ & _ & _ & _ & _ & Heq & Hgt). rewrite H0, H1 in *.
  destruct i; [by apply Heq|apply Hgt; lia].
Qed.

Lemma bsp_step_offline k s : inv_at (StoreOffline k) s → moves bsp s.
Proof using Hmo.
  intros Hinv. pose proof (ia_bsp _ _ Hinv) as Hu. pose proof (mo_bsp Hmo) as Hbsp.
  pose proof (ia_states _ _ Hinv) as Hst. pose proof (ia_max _ _ Hinv) as Hmx. pose proof (ia_total _ _ Hinv) as Htt.
  unfold states_ok in Hst. cbn [brank Nat.leb Nat.eqb] in *. destruct Hst as (l & Hl & Hlen & Hk & Hnl & Hst).
  pose proof (proj1 Hlen).
  destruct (apics !! k) as [id|] eqn:Ek.
  - pose proof (nth_in _ _ Ek) as Hid. pose proof (lookup_lt_Some _ _ _ Ek).
    eapply (bsp_move (StoreOffline k) (StoreOffline (S k)) s _ Hinv).
    { take_step Hu. unfold run_bsp. cbn [at_]. change (default [] (Some apics)) with apics.
      rewrite Ek, (set_core_state_ok _ _ _ _ Hl Hid Hlen). reflexivity. }
    all: by_bsp.
    unfold states_ok. cbn [brank Nat.leb]. eexists. split; [reflexivity|]. split_and!; [by apply table_insert|lia|by apply Forall_insert|].
    intros i c Hi Hik. pose proof (id_range _ Hid). destruct (decide (c = id)) as [->|Hne].
    + by rewrite list_lookup_insert_eq by lia.
    + rewrite list_lookup_insert_ne by (intros E; apply Hne; symmetry; apply id_inj; [done|by eapply nth_in|done]).
      apply (Hst i); [done|]. assert (i ≠ k) by congruence. lia.
  - assert (k = n) as -> by (apply lookup_ge_None in Ek; lia).
    eapply (bsp_move (StoreOffline n) StoreOnline s _ Hinv).
    { take_step Hu. unfold run_bsp. cbn [at_]. change (default [] (Some apics)) with apics. rewrite Ek. reflexivity. }
    all: by_bsp.
    unfold states_ok. cbn [brank Nat.leb]. exists l. split_and!; [done|done| |].
    + apply list_elem_of_lookup in Hbsp as [i Hi]. apply (Hst i); [done|]. by apply lookup_lt_Some in Hi.
    + intros i c u Hi Hne Hc. rewrite (Hst i c Hi) by (by apply lookup_lt_Some in Hi).
      cbn [cpus goto set_cpu] in Hc. rewrite lookup_insert_ne in Hc by done.
      unfold ap_state. rewrite (aps_asleep _ _ _ _ _ Hinv eq_refl eq_refl Hi Hne Hc). cbn [arank Nat.leb pos marked]. by destruct i.
Qed.

(** States that stay as they are *)
Lemma settled_same p0 p1 s s' l :
  settled p0 s l → states s' = Some l → (∀ c, c ≠ bsp → cpus s' !! c = cpus s !! c) →
  (∀ i c u, apics !! i = Some c → c ≠ bsp → cpus s !! c = Some u → ap_state p1 i u = ap_state p0 i u) → settled p1 s' l.
Proof.
  intros (_ & H1 & H2 & H3) Hs Hc Ha. split_and!; [done|done|done|]. intros i c u Hi Hne Hu. rewrite Hc in Hu by done.
  rewrite (Ha i c u Hi Hne Hu). by apply H3.
Qed.

Ltac keep_aps := intros ? ?; cbn [cpus goto set_cpu set_states]; by rewrite lookup_insert_ne.

Lemma bsp_step_states p0 s : inv_at p0 s → (4 ≤ brank p0 ≤ 6)%nat → moves bsp s.
Proof using Hmo.
  intros Hinv Hb. pose proof (ia_bsp _ _ Hinv) as Hu. pose proof (mo_len Hmo). pose proof (mo_bsp Hmo) as Hbsp.
  pose proof (ia_states _ _ Hinv) as Hst. pose proof (ia_max _ _ Hinv) as Hmx. pose proof (ia_total _ _ Hinv) as Htt.
  assert (zlen apics = cast 32 (zlen apics)) as Hcast by (unfold cast, zlen in *; rewrite Z.mod_small; lia).
  destruct p0; cbn [brank Nat.eqb Nat.leb] in *; try lia.
  - (* StoreOnline *)
    unfold states_ok in Hst. cbn [brank Nat.leb] in Hst. destruct Hst as (l & Hl & Hlen & Hst0 & Hst).
    pose proof (proj1 Hlen).
    pose proof (id_range _ Hbsp).
    eapply (bsp_move StoreOnline SetTotal s _ Hinv).
    { take_step Hu. unfold run_bsp. cbn [at_]. rewrite (set_core_state_ok _ _ _ _ Hl Hbsp Hlen). reflexivity. }
    all: by_bsp.
    apply states_settled; [cbn; lia|]. eexists. split; [reflexivity|]. split; [by apply table_insert|].
    rewrite list_lookup_insert_eq by lia. split; [done|]. intros i c u Hi Hne Hc. cbn [cpus goto set_cpu] in Hc.
    rewrite lookup_insert_ne in Hc by done.
    rewrite list_lookup_insert_ne by (intros E; apply Hne; symmetry; apply id_inj; [done|by eapply nth_in|done]).
    by apply (Hst i).
  - (* SetTotal *)
    apply states_settled in Hst as [l Hl]; [|cbn; lia].
    eapply (bsp_move SetTotal FillIn s _ Hinv).
    { take_step Hu. unfold run_bsp. cbn [at_]. change (default [] (Some apics)) with apics. rewrite Htt, <-Hcast. reflexivity. }
    all: by_bsp.
    apply states_settled; [cbn; lia|]. exists l. apply (settled_same SetTotal _ s); [done|apply Hl|keep_aps|done].
  - (* FillIn *)
    apply states_settled in Hst as [l Hl]; [|cbn; lia]. pose proof (mo_code Hmo) as Hcode.
    eapply (bsp_move FillIn (Launch 0) s _ Hinv).
    { take_step Hu. unfold run_bsp. cbn [at_]. unfold fill_in, zlen. rewrite sub_Ok by lia. cbn [mbind res_bind].
      replace (Z.to_nat (Z.of_nat (length ENTRY_CODE) - Z.of_nat (length bstate))) with (length ENTRY_CODE - length bstate)%nat by lia.
      reflexivity. }
    all: by_bsp.
    apply states_settled; [cbn; lia|]. exists l. apply (settled_same FillIn _ s); [done|apply Hl|keep_aps|done].
Qed.

Lemma ap_at_reset p0 i u : ap_ok p0 i u → at_ u = Reset → u = mkCpu Reset None false.
Proof. destruct u as [p [id|] nm]; intros (Hn & _ & _ & Hid & _); cbn in *; intros ->; cbn in *; [lia|by subst nm]. Qed.

Lemma ap_next p0 i u : ap_ok p0 i u → i = pos p0 → if started p0 then (1 ≤ arank (at_ u))%nat else at_ u = Reset.
Proof. intros (_ & _ & _ & _ & _ & Heq & _). exact Heq. Qed.

Lemma bsp_step_launch k s : inv_at (Launch k) s → moves bsp s.
Proof using Hmo.
  intros Hinv. pose proof (ia_bsp _ _ Hinv) as Hu. pose proof (ia_pc _ _ Hinv) as (_ & _ & Hk). cbn [pos] in Hk.
  pose proof (ia_states _ _ Hinv) as Hst. pose proof (ia_max _ _ Hinv) as Hmx. pose proof (ia_total _ _ Hinv) as Htt.
  pose proof (ia_code _ _ Hinv) as Hcode.
  apply states_settled in Hst as [l Hl]; [|cbn; lia]. pose proof Hl as (Hl1 & Hlen & Hl2 & Hl3). pose proof (proj1 Hlen).
  destruct (apics !! k) as [id|] eqn:Ek.
  - pose proof (nth_in _ _ Ek) as Hid. pose proof (lookup_lt_Some _ _ _ Ek).
    destruct (Z.eqb_spec id bsp) as [->|Hne].
    + eapply (bsp_move (Launch k) (Launch (S k)) s _ Hinv).
      { take_step Hu. unfold run_bsp. cbn [at_]. change (default [] (Some apics)) with apics. rewrite Ek, Z.eqb_refl. reflexivity. }
      all: by_bsp.
      * intros i c u Hi Hc _ Hok. apply (ap_ok_next (Launch k) _ k); try done. intros ->. congruence.
      * apply states_settled; [cbn; lia|]. exists l. apply (settled_same (Launch k) _ s); [done|done|keep_aps|].
        intros i c u Hi Hc _. unfold ap_state. cbn [pos marked]. rewrite !andb_false_r.
        assert (i ≠ k) by congruence. replace (i <? S k)%nat with (i <? k)%nat; [done|].
        destruct (Nat.ltb_spec i k), (Nat.ltb_spec i (S k)); done || lia.
    + pose proof (id_range _ Hid). eapply (bsp_move (Launch k) (SendInit k) s _ Hinv).
      { take_step Hu. unfold run_bsp. cbn [at_]. change (default [] (Some apics)) with apics.
        rewrite Ek, (proj2 (Z.eqb_neq _ _) Hne), (set_core_state_ok _ _ _ _ Hl1 Hid Hlen). reflexivity. }
      all: by_bsp.
      * intros _. cbn [pos]. eauto.
      * apply states_settled; [cbn; lia|]. eexists. split; [reflexivity|]. split; [by apply table_insert|].
        rewrite list_lookup_insert_ne by (intros E; apply Hne, id_inj; [done|apply mo_bsp, Hmo|done]). split; [done|].
        intros i c u Hi Hc Hcu. cbn [cpus goto set_cpu set_states] in Hcu. rewrite lookup_insert_ne in Hcu by done.
        destruct (decide (i = k)) as [->|Hik].
        -- assert (c = id) as -> by congruence. rewrite list_lookup_insert_eq by lia.
           destruct (ia_aps _ _ Hinv _ _ Hi Hc) as (u' & Hu' & _ & _ & _ & _ & _ & Heq & _).
           assert (u' = u) as -> by congruence. cbn [started pos] in Heq. unfold ap_state. rewrite Heq by done.
           cbn [arank Nat.leb pos marked]. by rewrite Nat.eqb_refl, andb_true_r, orb_true_r.
        -- rewrite list_lookup_insert_ne by (intros E; apply Hik; apply (nth_inj _ _ id); [|done]; rewrite Hi; f_equal;
             symmetry; apply id_inj; [done|by eapply nth_in|done]).
           rewrite (Hl3 _ _ _ Hi Hc Hcu). unfold ap_state. cbn [pos marked]. rewrite (proj2 (Nat.eqb_neq _ _) Hik). done.
  - assert (k = n) as -> by (apply lookup_ge_None in Ek; lia).
    eapply (bsp_move (Launch n) CheckIn s _ Hinv).
    { take_step Hu. unfold run_bsp. cbn [at_]. change (default [] (Some apics)) with apics. rewrite Ek. reflexivity. }
    all: by_bsp.
    apply states_settled; [cbn; lia|]. exists l. apply (settled_same (Launch n) _ s); [done|done|keep_aps|done].
Qed.

(** An interrupt that leaves the core as it is *)
Lemma ipi_same id cmd s u : cpus s !! id = Some u → deliver cmd u = u → ipi id cmd s = s.
Proof. intros Hu Hd. unfold ipi. rewrite Hu, Hd. unfold set_cpu. rewrite insert_id by done. by destruct s. Qed.

Lemma bsp_step_sipi k s id u :
  inv_at (SendSipi k) s → apics !! k = Some id → id ≠ bsp → cpus s !! id = Some u → ap_ok (SendSipi k) k u → moves bsp s.
Proof using Hmo L.
  intros Hinv Ek Hne Hid Hok. pose proof (ia_bsp _ _ Hinv) as Hu. pose proof (ia_pc _ _ Hinv) as (_ & _ & Hk).
  pose proof (ia_states _ _ Hinv) as Hst. pose proof (ia_max _ _ Hinv) as Hmx. pose proof (ia_total _ _ Hinv) as Htt.
  pose proof (ia_code _ _ Hinv) as Hcode. pose proof (nth_in _ _ Ek) as Hin. pose proof (lookup_lt_Some _ _ _ Ek) as Hlt.
  assert (u = mkCpu Reset None false) as -> by (apply (ap_at_reset _ _ _ Hok), (ap_next _ _ _ Hok eq_refl)).
  set (b := mkCpu (Boot (ENTRY_ADDR / 0x1000)) None false).
  assert (∀ f, f (Some b) = f (Some (mkCpu Reset None false)) → tally apics f (<[id := b]> (cpus s)) = tally apics f (cpus s)) as Ht.
  { intros f Hf. pose proof (tally_insert apics f id b (cpus s) (mo_nodup Hmo) Hin) as H. rewrite Hid, Hf in H. lia. }
  eexists. split; [|split].
  - take_step Hu. unfold run_bsp. cbn [at_]. change (default [] (Some apics)) with apics.
    rewrite (index_lookup _ _ _ Ek). cbn [mbind res_bind]. unfold ipi. rewrite Hid, deliver_sipi, decide_True by done.
    cbn [core_id nmi]. fold b. reflexivity.
  - exists (SendSipi2 k). apply (bsp_frame (SendSipi k) _ s _ (<[id := b]> (cpus s))); try done.
    + by rewrite lookup_insert_ne.
    + by apply Ht.
    + by apply Ht.
    + split_and!; [cbn; lia|done|done].
    + intros _. cbn [pos]. eauto.
    + intros i c Hi Hc. destruct (decide (c = id)) as [->|Hci].
      * exists b. rewrite lookup_insert_eq. split; [done|]. rewrite (nth_inj _ _ _ Hi Ek).
        unfold ap_ok. cbn. split_and!; try done; lia.
      * rewrite lookup_insert_ne by done. destruct (ia_aps _ _ Hinv _ _ Hi Hc) as (v & Hv & Hvk). exists v. split; [done|].
        assert (i ≠ k) by congruence. destruct Hvk as (? & ? & ? & ? & ? & ? & ?). by split_and!.
    + apply states_settled in Hst as [l (H1 & H2 & H3 & H4)]; [|cbn; lia]. apply states_settled; [cbn; lia|]. exists l.
      split_and!; [done|done|done|]. intros i c v Hi Hc Hv. cbn [cpus goto set_cpu] in Hv. rewrite lookup_insert_ne in Hv by done.
      destruct (decide (c = id)) as [->|Hci].
      * rewrite lookup_insert_eq in Hv. injection Hv as <-. by rewrite (H4 _ _ _ Hi Hc Hid).
      * rewrite lookup_insert_ne in Hv by done. by rewrite (H4 _ _ _ Hi Hc Hv).
    + cbn. lia.
    + cbn. lia.
    + intros c v Hc Hv Hat. destruct (decide (c = id)) as [->|Hci].
      * rewrite lookup_insert_eq in Hv. by injection Hv as <-.
      * by rewrite lookup_insert_ne in Hv by done.
    + intros c Hc. rewrite lookup_insert_ne; [done|]. by intros <-.
  - right. apply (bsp_weight (SendSipi k) (SendSipi2 k) s _ (<[id := b]> (cpus s))); [done|done|cbn [bweight]; lia|].
    assert (id ∈ others) as Hio by (unfold others; apply list_elem_of_filter; done).
    assert (NoDup others) as Hnd by (apply list.NoDup_filter, mo_nodup, Hmo).
    pose proof (tally_insert others aweight id b (cpus s) Hnd Hio) as Hw. rewrite Hid in Hw. cbn [aweight at_ arank b] in Hw.
    unfold b in *. cbn in Hw. lia.
Qed.

Lemma bsp_step_ipi p0 s k : inv_at p0 s → p0 = SendInit k ∨ p0 = SendSipi k ∨ p0 = SendSipi2 k → moves bsp s.
Proof using Hmo L.
  intros Hinv Hp. pose proof (ia_bsp _ _ Hinv) as Hu. pose proof (ia_pc _ _ Hinv) as (_ & _ & Hk).
  pose proof (ia_states _ _ Hinv) as Hst. pose proof (ia_max _ _ Hinv) as Hmx. pose proof (ia_total _ _ Hinv) as Htt.
  pose proof (ia_code _ _ Hinv) as Hcode. pose proof (ia_marked _ _ Hinv) as Hmk.
  assert (∃ id, apics !! k = Some id ∧ id ≠ bsp) as (id & Ek & Hne).
  { destruct Hp as [->|[->| ->]]; cbn [pos] in Hmk; by apply Hmk. }
  pose proof (lookup_lt_Some _ _ _ Ek) as Hlt.
  destruct (ia_aps _ _ Hinv _ _ Ek Hne) as (u & Hid & Hok).
  apply states_settled in Hst as [l Hl]; [|destruct Hp as [->|[->| ->]]; cbn; lia]. pose proof Hl as (Hl1 & _).
  destruct Hp as [->|[->| ->]]; cbn [pos] in Hk.
  - eapply (bsp_move (SendInit k) (SendSipi k) s _ Hinv).
    { take_step Hu. unfold run_bsp. cbn [at_]. change (default [] (Some apics)) with apics.
      rewrite (index_lookup _ _ _ Ek). cbn [mbind res_bind].
      rewrite (ipi_same id INIT s u); [reflexivity|done|]. rewrite deliver_init. symmetry. apply (ap_at_reset _ _ _ Hok), (ap_next _ _ _ Hok eq_refl). }
    all: by_bsp. apply states_settled; [cbn; lia|]. exists l. apply (settled_same (SendInit k) _ s); [done|done|keep_aps|done].
  - apply (bsp_step_sipi k s id u); done.
  - eapply (bsp_move (SendSipi2 k) (AwaitOnline k) s _ Hinv).
    { take_step Hu. unfold run_bsp. cbn [at_]. change (default [] (Some apics)) with apics.
      rewrite (index_lookup _ _ _ Ek). cbn [mbind res_bind].
      rewrite (ipi_same id SIPI s u); [reflexivity|done|]. rewrite deliver_sipi, decide_False; [done|].
      intros Hr. pose proof (ap_next _ _ _ Hok eq_refl) as H1. cbn [started] in H1. rewrite Hr in H1. cbn in H1. lia. }
    all: by_bsp. apply states_settled; [cbn; lia|]. exists l. apply (settled_same (SendSipi2 k) _ s); [done|done|keep_aps|done].
Qed.

Lemma bsp_step_await k s : inv_at (AwaitOnline k) s → moves bsp s.
Proof using Hmo.
  intros Hinv. pose proof (ia_bsp _ _ Hinv) as Hu. pose proof (ia_states _ _ Hinv) as Hst.
  pose proof (ia_max _ _ Hinv) as Hmx. pose proof (ia_total _ _ Hinv) as Htt. pose proof (ia_code _ _ Hinv) as Hcode.
  destruct (ia_marked _ _ Hinv eq_refl) as (id & Ek & Hne). cbn [pos] in Ek.
  pose proof (lookup_lt_Some _ _ _ Ek). destruct (ia_aps _ _ Hinv _ _ Ek Hne) as (u & Hid & Hok).
  apply states_settled in Hst as [l Hl]; [|cbn; lia]. pose proof Hl as (Hl1 & Hl2 & Hl3 & Hl4).
  pose proof (core_state_ok id _ s l Hl1 (Hl4 _ _ _ Ek Hne Hid)) as Hcs.
  assert (∀ r, step bsp s = r → r = (if decide (ap_state (AwaitOnline k) k u = Online) then
    Ok (goto bsp (bsp_cpu (AwaitOnline k)) (Launch (S k)) s) else Ok s)) as Hstep.
  { intros r <-. take_step Hu. unfold run_bsp. cbn [at_]. change (default [] (Some apics)) with apics.
    rewrite (index_lookup _ _ _ Ek). cbn [mbind res_bind]. rewrite Hcs. reflexivity. }
  specialize (Hstep _ eq_refl). unfold ap_state in *. cbn [pos marked] in *. rewrite Nat.eqb_refl, andb_true_r, orb_true_r in *.
  destruct (Nat.leb_spec 5 (arank (at_ u))) as [H5|H5].
  - rewrite decide_True in Hstep by done. eapply (bsp_move (AwaitOnline k) (Launch (S k)) s _ Hinv); [exact Hstep|by_bsp..].
    + intros i c v Hi Hc Hv Hvk. apply (ap_ok_next (AwaitOnline k) _ k); try done. intros ->. congruence.
    + apply states_settled; [cbn; lia|]. exists l. apply (settled_same (AwaitOnline k) _ s); [done|done|keep_aps|].
      intros i c v Hi Hc Hv. unfold ap_state. cbn [pos marked]. rewrite andb_false_r, andb_true_r, orb_false_r.
      destruct (Nat.leb_spec 5 (arank (at_ v))); [done|]. assert (i ≠ k) by (intros ->; congruence || (assert (v = u) by congruence; subst; lia)).
      rewrite (proj2 (Nat.eqb_neq i k)), orb_false_r by done.
      destruct (Nat.ltb_spec i k), (Nat.ltb_spec i (S k)); done || lia.
  - rewrite decide_False in Hstep by done. exists s. split; [done|]. split; [by exists (AwaitOnline k)|]. left. split; [done|].
    eexists. split; [done|]. cbn [at_]. exists id, Launched. done.
Qed.

Lemma bsp_step_check_in p0 s : inv_at p0 s → (8 ≤ brank p0)%nat → moves bsp s.
Proof using Hmo.
  intros Hinv Hb. pose proof (ia_bsp _ _ Hinv) as Hu. pose proof (ia_states _ _ Hinv) as Hst.
  pose proof (ia_max _ _ Hinv) as Hmx. pose proof (ia_total _ _ Hinv) as Htt. pose proof (ia_code _ _ Hinv) as Hcode.
  pose proof (ia_pc _ _ Hinv) as (H12 & Hpc & _). pose proof (mo_bsp Hmo) as Hbsp. pose proof (mo_len Hmo) as Hlen.
  apply states_settled in Hst as [l Hl]; [|lia]. pose proof Hl as (Hl1 & Hl2 & Hl3 & Hl4).
  assert (zlen apics ≠ 0) as Hn0 by (unfold zlen; destruct apics; [by apply elem_of_nil in Hbsp|cbn; lia]).
  assert (∀ p s', pos p = n → pos p0 = n → marked p = false → marked p0 = false → (5 ≤ brank p)%nat → states s' = states s →
    cpus s' = <[bsp := bsp_cpu p]> (cpus s) → states_ok p s') as Hsame.
  { intros p s' E1 E2 E3 E4 H5 Hs Hc. apply states_settled; [done|]. exists l. apply (settled_same p0 _ s); [done|congruence| |].
    - intros c Hne. by rewrite Hc, lookup_insert_ne.
    - intros i c u _ _ _. unfold ap_state. by rewrite E1, E2, E3, E4. }
  destruct p0; cbn [brank Nat.eqb Nat.leb] in *; try lia.
  - eapply (bsp_move CheckIn CountIn s _ Hinv).
    { take_step Hu. unfold run_check_in. cbn [at_]. unfold go_online. rewrite Hl1. cbn [once_get unwrap mbind res_bind].
      rewrite (index_lookup _ _ _ Hl3). cbn [mbind res_bind as_u8 Z.eqb Pos.eqb is_bsp core_id]. reflexivity. }
    all: by_bsp. apply Hsame; by_bsp.
  - pose proof (count_bound _ _ _ _ Hinv Hbsp Hu eq_refl). eapply (bsp_move CountIn ReadTotal s _ Hinv).
    { take_step Hu. reflexivity. }
    all: by_bsp.
    + apply Hsame; by_bsp.
    + cbn [checked_in goto set_cpu counted at_ bsp_cpu]. unfold wrapping_add. rewrite Z.mod_small by lia. lia.
  - eapply (bsp_move ReadTotal (AwaitAll (zlen apics)) s _ Hinv).
    { take_step Hu. unfold run_check_in. cbn [at_]. rewrite Htt. cbn [once_get unwrap mbind res_bind].
      rewrite (proj2 (Z.eqb_neq _ _) Hn0). reflexivity. }
    all: by_bsp. apply Hsame; by_bsp.
  - cbn [pc_ok] in Hpc. subst num_cores. destruct (Z.eqb_spec (checked_in s) (zlen apics)) as [E|E].
    + eapply (bsp_move (AwaitAll (zlen apics)) Idle s _ Hinv).
      { take_step Hu. unfold run_check_in. cbn [at_]. rewrite (proj2 (Z.eqb_eq _ _) E). reflexivity. }
      all: by_bsp. apply Hsame; by_bsp.
    + exists s. split; [|split; [by eexists|left; split; [done|]; by eexists]].
      take_step Hu. unfold run_check_in. cbn [at_]. by rewrite (proj2 (Z.eqb_neq _ _) E).
  - exists s. split; [take_step Hu; done|]. split; [by eexists|left; split; [done|]; by eexists].
Qed.

Lemma bsp_step p0 s : inv_at p0 s → moves bsp s.
Proof using Hmo L.
  intros Hinv. pose proof (ia_pc _ _ Hinv) as (H12 & _ & _). destruct p0; cbn [brank] in H12; try lia;
    first [ by eapply bsp_step_offline; exact Hinv | by eapply bsp_step_launch; exact Hinv | by eapply bsp_step_await; exact Hinv
          | by eapply bsp_step_ipi; [exact Hinv|eauto] | by eapply bsp_step_entry; [exact Hinv|cbn; lia]
          | by eapply bsp_step_states; [exact Hinv|cbn; lia] | by eapply bsp_step_check_in; [exact Hinv|cbn; lia] ].
Qed.

Lemma step_moves c s : inv s →
  ∃ s', step c s = Ok s' ∧ inv s' ∧ ((s' = s ∧ (c ∈ apics → blocked c s)) ∨ (weight s' < weight s)%nat).
Proof using Hmo L.
  intros [p0 Hinv]. destruct (decide (c ∈ apics)) as [Hc|Hc].
  - assert (moves c s) as (s' & H1 & H2 & H3); [|exists s'; naive_solver].
    destruct (decide (c = bsp)) as [->|Hne]; [by eapply bsp_step|].
    apply list_elem_of_lookup in Hc as [i Hi]. by eapply ap_step.
  - exists s. split; [|split; [by exists p0|by left]]. unfold Cores.step. destruct (cpus s !! c) as [u|] eqn:Hu; [|done].
    destruct (ia_rest _ _ Hinv _ _ Hc Hu) as [Hr Hn]. by rewrite Hn, Hr.
Qed.

(** ** The machine at the start *)
Lemma start_cpu c : c ∈ cores →
  cpus (start cores bsp) !! c = Some (mkCpu (if c =? bsp then Entry else Reset) None false).
Proof using Hmo.
  intros Hc. cbn [cpus start]. apply elem_of_list_to_map_1.
  - rewrite <-list_fmap_compose. cbn. rewrite list_fmap_id. apply mo_distinct, Hmo.
  - apply list_elem_of_fmap. by exists c.
Qed.
Lemma start_cpu_inv c u : cpus (start cores bsp) !! c = Some u → u = mkCpu (if c =? bsp then Entry else Reset) None false.
Proof.
  cbn [cpus start]. intros H. apply elem_of_list_to_map_2, list_elem_of_fmap in H as (c' & E & _). by injection E as -> ->.
Qed.
Lemma tally_zero f (m : gmap Z Cpu) l : (∀ c, c ∈ l → f (m !! c) = 0%nat) → tally l f m = 0%nat.
Proof.
  unfold tally. induction l as [|a l IH]; intros H; [done|]. cbn [sum_list_with]. rewrite H by set_solver.
  apply IH. set_solver.
Qed.

Lemma inv_start : inv (start cores bsp).
Proof using Hmo L.
  pose proof (mo_cores Hmo) as Hsub. pose proof (mo_bsp Hmo) as Hb.
  exists Entry. split; try done.
  - rewrite start_cpu by (by apply Hsub). by rewrite Z.eqb_refl.
  - split_and!; cbn; done || lia.
  - intros i c Hi Hne. exists (mkCpu Reset None false). rewrite start_cpu by (by apply Hsub, (nth_in i)).
    rewrite (proj2 (Z.eqb_neq _ _) Hne). split; [done|]. unfold ap_ok. cbn. split_and!; try done; lia.
  - rewrite tally_zero; [done|]. intros c Hc. rewrite start_cpu by (by apply Hsub). by destruct (c =? bsp).
  - rewrite tally_zero; [done|]. intros c Hc. rewrite start_cpu by (by apply Hsub). by destruct (c =? bsp).
  - intros c u Hc Hu Hi. apply start_cpu_inv in Hu as ->. cbn in Hi. by destruct (c =? bsp).
  - intros c u Hc Hu. apply start_cpu_inv in Hu as ->. cbn [at_ nmi]. split; [|done].
    destruct (Z.eqb_spec c bsp) as [->|]; done.
Qed.

Lemma weight_start : (weight (start cores bsp) ≤ 14 * n + 12)%nat.
Proof using Hmo.
  unfold weight. rewrite start_cpu by (apply (mo_cores Hmo), mo_bsp, Hmo). rewrite Z.eqb_refl. cbn [at_ bweight].
  assert (tally others aweight (cpus (start cores bsp)) ≤ 8 * length others)%nat as Ht.
  { unfold tally. induction others as [|a l IH]; [done|]. cbn [sum_list_with length].
    assert (aweight (cpus (start cores bsp) !! a) ≤ 8)%nat; [|lia]. unfold aweight. destruct (_ !! a); lia. }
  assert (length others ≤ n)%nat by (unfold others; apply length_filter). lia.
Qed.

(** ** All the cores *)
Definition all_idle (s : Sys) : Prop := ∀ c, c ∈ apics → ∃ u, cpus s !! c = Some u ∧ at_ u = Idle.

(** When no core can go on, all are through. *)
Lemma blocked_idle s : inv s → (∀ c, c ∈ apics → blocked c s) → all_idle s.
Proof using Hmo.
  intros [p0 Hinv] Hbl. pose proof (ia_bsp _ _ Hinv) as Hb. pose proof (mo_bsp Hmo) as Hbsp.
  destruct (Hbl _ Hbsp) as (u & Hu & Hbb). rewrite Hb in Hu. injection Hu as <-. cbn [at_] in Hbb.
  pose proof (ia_pc _ _ Hinv) as (H12 & Hpc & _). pose proof (ia_states _ _ Hinv) as Hst.
  assert (∀ i c, apics !! i = Some c → c ≠ bsp → pos p0 = n → ∃ u, cpus s !! c = Some u ∧
    (at_ u = Idle ∨ (at_ u = AwaitAll (zlen apics) ∧ checked_in s ≠ zlen apics))) as Hup.
  { intros i c Hi Hne Hp. destruct (ia_aps _ _ Hinv _ _ Hi Hne) as (v & Hv & Hok). exists v. split; [done|].
    destruct Hok as (_ & Hpcv & H8 & _ & Hlt & _ & _). specialize (Hlt ltac:(rewrite Hp; by apply lookup_lt_Some in Hi)).
    destruct (Hbl _ (nth_in _ _ Hi)) as (v' & Hv' & Hbv). assert (v' = v) as -> by congruence.
    destruct (at_ v); cbn [arank pc_ok] in *; try lia; try done; [right|by left]. by subst. }
  destruct p0; cbn [brank] in *; try lia; try done.
  - (* AwaitOnline *)
    destruct Hbb as (id & st & Ek & Hcs & Hns). destruct (ia_marked _ _ Hinv eq_refl) as (id' & Ek' & Hne). cbn [pos] in Ek'.
    assert (id' = id) as -> by congruence. destruct (ia_aps _ _ Hinv _ _ Ek Hne) as (v & Hv & Hok).
    apply states_settled in Hst as [l (Hl1 & _ & _ & Hl4)]; [|cbn; lia].
    pose proof (core_state_ok id _ s l Hl1 (Hl4 _ _ _ Ek Hne Hv)) as Hcs'. unfold ap_state in Hcs'.
    pose proof (ap_next _ _ _ Hok eq_refl) as H1. cbn [started] in H1.
    destruct (Hbl _ (nth_in _ _ Ek)) as (v' & Hv' & Hbv). assert (v' = v) as -> by congruence.
    destruct Hok as (_ & _ & H8 & _). destruct (at_ v); cbn [arank Nat.leb] in *; try lia; try done; congruence.
  - (* AwaitAll *)
    exfalso. cbn [pc_ok] in Hpc. subst num_cores. apply Hbb. rewrite (ia_count _ _ Hinv). unfold zlen. f_equal.
    apply (tally_full apics counted (cpus s) counted_le). intros c Hc. destruct (decide (c = bsp)) as [->|Hne]; [by rewrite Hb|].
    apply list_elem_of_lookup in Hc as [i Hi]. destruct (Hup i c Hi Hne eq_refl) as ([p ? ?] & -> & [E|[E _]]); cbn in *; by rewrite E.
  - (* Idle *)
    pose proof (ia_idle _ _ Hinv _ _ Hbsp Hb eq_refl) as Hfull. intros c Hc. destruct (decide (c = bsp)) as [->|Hne]; [by eexists|].
    apply list_elem_of_lookup in Hc as [i Hi]. destruct (Hup i c Hi Hne eq_refl) as (v & Hv & [E|[_ E]]); [by eexists|done].
Qed.

Lemma run_inv sched : ∀ s, inv s → ∃ s', run sched s = Ok s' ∧ inv s' ∧
  (((weight s' < weight s)%nat) ∨ (s' = s ∧ ∀ c, c ∈ sched → c ∈ apics → blocked c s)).
Proof using Hmo L.
  induction sched as [|c sched IH]; intros s Hinv; cbn [Cores.run].
  { exists s. split; [done|]. split; [done|]. right. split; [done|]. intros c Hc. by apply elem_of_nil in Hc. }
  destruct (step_moves c s Hinv) as (s1 & -> & Hinv1 & H1). cbn [mbind res_bind].
  destruct (IH s1 Hinv1) as (s2 & -> & Hinv2 & H2). exists s2. split; [done|]. split; [done|].
  destruct H1 as [[-> Hb]|Hlt].
  - destruct H2 as [?|[-> Hbs]]; [by left|]. right. split; [done|]. intros d [->|Hd]%elem_of_cons; auto.
  - left. destruct H2 as [?|[-> _]]; lia.
Qed.

(** States as [core_state] reads them *)
Lemma core_state_late p0 s i c : inv_at p0 s → apics !! i = Some c → (5 ≤ brank p0)%nat →
  ∃ u, cpus s !! c = Some u ∧ core_state c s = Ok (if decide (c = bsp) then Online else ap_state p0 i u).
Proof using Hmo.
  intros Hinv Hi Hb. pose proof (ia_states _ _ Hinv) as Hst. apply states_settled in Hst as [l (Hl1 & _ & Hl3 & Hl4)]; [|done].
  destruct (decide (c = bsp)) as [->|Hne].
  - eexists. split; [apply (ia_bsp _ _ Hinv)|]. by eapply core_state_ok.
  - destruct (ia_aps _ _ Hinv _ _ Hi Hne) as (u & Hu & _). exists u. split; [done|]. eapply core_state_ok; [done|]. by apply Hl4.
Qed.
Lemma all_counted p0 s : inv_at p0 s → checked_in s = zlen apics →
  ∀ c, c ∈ apics → core_state c s = Ok Online ∧ ∃ u, cpus s !! c = Some u ∧ counted (Some u) = 1%nat.
Proof using Hmo.
  intros Hinv Hfull. rewrite (ia_count _ _ Hinv) in Hfull. unfold zlen in Hfull.
  assert (∀ c, c ∈ apics → counted (cpus s !! c) = 1%nat) as Hall.
  { apply (tally_full apics counted (cpus s) counted_le). lia. }
  assert (10 ≤ brank p0)%nat as Hb.
  { specialize (Hall _ (mo_bsp Hmo)). rewrite (ia_bsp _ _ Hinv) in Hall. destruct p0; cbn in *; lia. }
  intros c Hc. specialize (Hall c Hc). apply list_elem_of_lookup in Hc as [i Hi].
  destruct (core_state_late p0 s i c Hinv Hi ltac:(lia)) as (u & Hu & ->). rewrite Hu in Hall. split; [|by exists u].
  destruct (decide (c = bsp)); [done|]. unfold ap_state. destruct u as [[] ? ?]; done.
Qed.

Lemma launched_next p0 s c : inv_at p0 s → c ∈ apics → core_state c s = Ok Launched → apics !! pos p0 = Some c.
Proof using Hmo.
  intros Hinv Hc Hcs. pose proof (ia_states _ _ Hinv) as Hst. pose proof (ia_bsp _ _ Hinv) as Hb. unfold states_ok in Hst.
  destruct (Nat.leb_spec (brank p0) 2) as [H2|H2].
  { unfold core_state in Hcs. by rewrite Hst in Hcs. }
  destruct Hst as (l & Hl & [Hlen _] & Hst). pose proof (id_range c Hc) as Hr.
  destruct (lookup_lt_is_Some_2 l (Z.to_nat c)) as [v Hv]; [lia|].
  assert (v = as_u8 Launched) as ->.
  { unfold core_state in Hcs. rewrite Hl in Hcs. cbn [once_get unwrap mbind res_bind] in Hcs.
    rewrite (index_lookup _ _ _ Hv) in Hcs. cbn [mbind res_bind] in Hcs. unfold from_u8 in Hcs. cbn [as_u8].
    repeat case_match; simplify_eq; by apply Z.eqb_eq. }
  assert ((∃ k, p0 = StoreOffline k) ∨
    (l !! Z.to_nat bsp = Some (as_u8 (if (brank p0 <=? 4)%nat then Offline else Online)) ∧
     ∀ i c u, apics !! i = Some c → c ≠ bsp → cpus s !! c = Some u → l !! Z.to_nat c = Some (as_u8 (ap_state p0 i u))))
    as [[k ->]|[Hb' Hap]] by (destruct p0; eauto).
  { destruct Hst as (_ & Hnl & _). rewrite Forall_lookup in Hnl. by apply Hnl in Hv. }
  destruct (decide (c = bsp)) as [->|Hne]; [rewrite Hv in Hb'; by destruct (brank p0 <=? 4)%nat|].
  apply list_elem_of_lookup in Hc as [i Hi]. destruct (ia_aps _ _ Hinv _ _ Hi Hne) as (u & Hu & Hok).
  pose proof (Hap _ _ _ Hi Hne Hu) as E. rewrite Hv in E. unfold ap_state in E.
  destruct Hok as (_ & _ & _ & _ & Hlt & _ & _).
  destruct (Nat.leb_spec 5 (arank (at_ u))); [done|]. destruct (Nat.ltb_spec i (pos p0)); [specialize (Hlt ltac:(done)); lia|].
  destruct (Nat.eqb_spec i (pos p0)) as [<-|]; [done|]. done.
Qed.

Lemma inv_nmi s c u : inv s → c ∈ apics → cpus s !! c = Some u → nmi u = false.
Proof using Hmo.
  intros [p0 Hinv] Hc Hu. destruct (decide (c = bsp)) as [->|Hne].
  { rewrite (ia_bsp _ _ Hinv) in Hu. by injection Hu as <-. }
  apply list_elem_of_lookup in Hc as [i Hi]. destruct (ia_aps _ _ Hinv _ _ Hi Hne) as (v & Hv & Hok & _). congruence.
Qed.

Lemma run_app r r' s : run (r ++ r') s = (s' ← run r s; run r' s').
Proof. revert s. induction r as [|c r IH]; intros s; [done|]. cbn [app Cores.run]. destruct (step c s); cbn [mbind res_bind]; auto. Qed.

Lemma idle_stays sched s : inv s → all_idle s → run sched s = Ok s.
Proof using Hmo.
  intros Hinv Hid. induction sched as [|c sched IH]; [done|]. cbn [Cores.run].
  enough (step c s = Ok s) as -> by exact IH. unfold Cores.step. destruct (decide (c ∈ apics)) as [Hc|Hc].
  - destruct (Hid c Hc) as (u & Hu & Hi). by rewrite Hu, (inv_nmi _ _ _ Hinv Hc Hu), Hi.
  - destruct Hinv as [p0 Hinv]. destruct (cpus s !! c) as [u|] eqn:Hu; [|done].
    destruct (ia_rest _ _ Hinv _ _ Hc Hu) as [Hr Hn]. by rewrite Hn, Hr.
Qed.

(** C13. In every interleaving of the cores' steps, from the kernel's first instruction on,
    nothing panics: no assertion of [check_in] fails, no state is read or written
    outside the table, no core starts before its code is in place.  A core gets past
    [check_in] only when all listed cores are online and have checked in; at most one
    core is being launched at a time, and only the first core acts as the bootstrap
    processor. *)
Theorem bring_up_safe sched : ∃ s, run sched (start cores bsp) = Ok s ∧
  0 ≤ checked_in s ≤ zlen apics ∧
  (∀ c u, c ∈ apics → cpus s !! c = Some u → at_ u = Idle → ∀ c', c' ∈ apics →
     core_state c' s = Ok Online ∧ ∃ u', cpus s !! c' = Some u' ∧ at_ u' ∈ [ReadTotal; AwaitAll (zlen apics); Idle]) ∧
  (∀ c c', c ∈ apics → c' ∈ apics → core_state c s = Ok Launched → core_state c' s = Ok Launched → c = c') ∧
  (∀ c u, c ∈ apics → cpus s !! c = Some u → is_bsp u = true → c = bsp) ∧
  (∀ c u v, c ∈ apics → cpus s !! c = Some u → at_ u = Boot v →
     v * 0x1000 = ENTRY_ADDR ∧ entry_code s = Some (take (length ENTRY_CODE - length bstate) ENTRY_CODE ++ bstate)).
Proof using Hmo L.
  destruct (run_inv sched _ inv_start) as (s & Hrun & [p0 Hinv] & _). exists s. split; [done|]. split_and!.
  - rewrite (ia_count _ _ Hinv). lia.
  - rewrite (ia_count _ _ Hinv). unfold zlen. pose proof (tally_le apics counted (cpus s) counted_le). lia.
  - intros c u Hc Hu Hi c' Hc'. pose proof (ia_idle _ _ Hinv _ _ Hc Hu Hi) as Hfull.
    destruct (all_counted _ _ Hinv Hfull _ Hc') as [H1 (u' & Hu' & Hcnt)]. split; [done|]. exists u'. split; [done|].
    assert (pc_ok (at_ u')) as Hpc.
    { destruct (decide (c' = bsp)) as [->|Hne]; [rewrite (ia_bsp _ _ Hinv) in Hu'; injection Hu' as <-; apply (ia_pc _ _ Hinv)|].
      apply list_elem_of_lookup in Hc' as [i Hi']. destruct (ia_aps _ _ Hinv _ _ Hi' Hne) as (v & Hv & _ & Hpc & _).
      by assert (v = u') as -> by congruence. }
    destruct u' as [[] ? ?]; cbn [counted at_ pc_ok] in *; try lia; subst; set_solver.
  - intros c c' Hc Hc' H1 H2. apply (launched_next _ _ _ Hinv Hc) in H1. apply (launched_next _ _ _ Hinv Hc') in H2. congruence.
  - intros c u Hc Hu Hb. destruct (decide (c = bsp)) as [->|Hne]; [done|]. exfalso.
    apply list_elem_of_lookup in Hc as [i Hi]. destruct (ia_aps _ _ Hinv _ _ Hi Hne) as (v & Hv & Hok).
    assert (v = u) as -> by congruence. destruct Hok as (_ & _ & _ & Hid & _). unfold is_bsp in Hb.
    destruct (core_id u); [|done]. apply Z.eqb_eq in Hb. lia.
  - intros c u v Hc Hu Hv. destruct (decide (c = bsp)) as [->|Hne].
    { rewrite (ia_bsp _ _ Hinv) in Hu. injection Hu as <-. cbn in Hv. subst p0. pose proof (ia_pc _ _ Hinv) as (H12 & _). cbn in H12. lia. }
    apply list_elem_of_lookup in Hc as [i Hi]. destruct (ia_aps _ _ Hinv _ _ Hi Hne) as (u' & Hu' & Hok).
    assert (u' = u) as -> by congruence. pose proof (ap_late _ _ _ Hok ltac:(rewrite Hv; cbn; lia)) as H7.
    rewrite (ia_code _ _ Hinv) by (apply Nat.leb_gt; lia). destruct Hok as (_ & Hpc & _). rewrite Hv in Hpc. cbn [pc_ok] in Hpc. by subst v.
Qed.

(** C14. Every fair schedule brings all cores up: once each core has had its turn a
    number of times that depends only on the number of cores, all of them are online
    and past [check_in]. *)
Theorem bring_up_completes rounds :
  Forall (λ r, apics ⊆ r) rounds → (14 * n + 12 < length rounds)%nat →
  ∃ s, run (concat rounds) (start cores bsp) = Ok s ∧ all_idle s ∧ ∀ c, c ∈ apics → core_state c s = Ok Online.
Proof using Hmo L.
  intros Hr Hlen. pose proof weight_start as Hw.
  assert (∀ s, inv s → (weight s < length rounds)%nat → ∃ s', run (concat rounds) s = Ok s' ∧ inv s' ∧ all_idle s') as Hgo.
  { clear Hw Hlen. induction Hr as [|r rounds Hsub Hr IH]; intros s Hinv Hlt; cbn [length concat] in *; [lia|].
    rewrite run_app. destruct (run_inv r s Hinv) as (s1 & -> & Hinv1 & [Hdec|[-> Hbl]]); cbn [mbind res_bind].
    - apply IH; [done|lia].
    - assert (all_idle s) as Hid by (apply blocked_idle; [done|]; intros c Hc; apply Hbl; set_solver).
      rewrite idle_stays by done. eauto. }
  destruct (Hgo _ inv_start ltac:(lia)) as (s & Hrun & [p0 Hinv] & Hid). exists s. split; [done|]. split; [done|].
  destruct (Hid _ (mo_bsp Hmo)) as (u & Hu & Hi). pose proof (ia_idle _ _ Hinv _ _ (mo_bsp Hmo) Hu Hi) as Hfull.
  intros c Hc. by apply (all_counted _ _ Hinv Hfull).
Qed.

End bring_up.
