(* ===== verification/CoresDown.v ===== *)
(** Bring-down: when the first core panics it stops the others and waits for, or
    performs, a soft reboot; the core with the highest id is left running. *)
From Stdlib Require Import ZArith Lia.
From stdpp Require Import prelude list numbers gmap.
From S2P Require Import Prelude Acpi Cores CoresUp.
Import Cores.

Section bring_down.
Context {I : Ipis} {L : IpiLaws I}.
Context (cores apics : list Z) (bsp : Z) (ENTRY_CODE bstate : list Z).
Context (Hmo : machine_ok cores apics bsp ENTRY_CODE bstate).
Abbreviation step := (Cores.step (Some apics) ENTRY_CODE bstate).
Abbreviation run := (Cores.run (Some apics) ENTRY_CODE bstate).
Abbreviation max := (Acpi.max_apic_id (Some apics)).
Abbreviation table := (CoresUp.table apics).

(** ** The others while the first core stops them *)
Definition gone (u : Cpu) : Prop := u = mkCpu Reset None false.
Definition idle (u : Cpu) : Prop := ∃ i, 1 ≤ i ∧ u = mkCpu Idle (Some i) false.
Definition stopped (u : Cpu) : Prop := ∃ i b, 1 ≤ i ∧ u = mkCpu Stopped (Some i) b.
Definition told (u : Cpu) : Prop := ∃ i b, 1 ≤ i ∧ u = mkCpu Idle (Some i) b.

Definition ap_down (p : pc) (c : Z) (u : Cpu) : Prop :=
  match p with
  | Panicking | DisableCores false => idle u
  | DisableCore id false => if c <? id then gone u else idle u
  | PollHalted id false | SendNmi id false =>
      if c <? id then gone u else if c =? id then told u ∨ stopped u else idle u
  | InitCore id false => if c <? id then gone u else if c =? id then stopped u else idle u
  | AwaitReboot | SoftReboot | DisableCores true | DisableCore _ true | Rebooted => if c <? max then gone u else idle u
  | _ => False
  end.
Definition phase_ok (p : pc) : Prop :=
  match p with
  | DisableCore id _ => 0 ≤ id ≤ max
  | PollHalted id false | SendNmi id false | InitCore id false => id ∈ apics ∧ id ≠ bsp ∧ 0 ≤ id < max
  | PollHalted _ true | SendNmi _ true | InitCore _ true => False
  | Panicking | DisableCores _ | AwaitReboot | SoftReboot | Rebooted => True
  | _ => False
  end.
Definition down_state (u : Cpu) : ApicState := match at_ u with Idle => Online | _ => Halted end.

Record down_at (p : pc) (s : Sys) : Prop := {
  d_bsp : cpus s !! bsp = Some (mkCpu p (Some 0) false);
  d_phase : phase_ok p;
  d_max : max_id s = Some max;
  d_table : ∃ l, states s = Some l ∧ table l ∧ l !! Z.to_nat bsp = Some (as_u8 Online) ∧
    ∀ c u, c ∈ apics → c ≠ bsp → cpus s !! c = Some u → l !! Z.to_nat c = Some (as_u8 (down_state u));
  d_aps c : c ∈ apics → c ≠ bsp → ∃ u, cpus s !! c = Some u ∧ ap_down p c u;
  d_rest c u : c ∉ apics → cpus s !! c = Some u → at_ u = Reset ∧ nmi u = false;
}.

(** What remains to be done *)
Definition todo (p : pc) (target : Z → option Cpu) : Z :=
  let B := max + 5 in
  match p with
  | Panicking => B + 7 * max + 2
  | DisableCores false => B + 7 * max + 1
  | DisableCore id false => B + 7 * (max - id)
  | PollHalted id _ =>
      B + 7 * (max - id) - match target id with
        | Some (mkCpu Idle _ false) => 1 | Some (mkCpu Idle _ true) => 3 | _ => 5 end
  | SendNmi id _ =>
      B + 7 * (max - id) - match target id with
        | Some (mkCpu Idle _ false) => 2 | Some (mkCpu Idle _ true) => 3 | _ => 4 end
  | InitCore id _ => B + 7 * (max - id) - 6
  | AwaitReboot => max + 4
  | SoftReboot => max + 3
  | DisableCores true => max + 2
  | DisableCore id true => max + 1 - id
  | _ => 0
  end.
Definition at_bsp (s : Sys) : pc := match cpus s !! bsp with Some u => at_ u | None => Reset end.
Definition todo_of (s : Sys) : Z := todo (at_bsp s) (λ c, cpus s !! c).

(** The core whose turn it is *)
Definition turn (s : Sys) : Z :=
  match at_bsp s with
  | PollHalted id _ | SendNmi id _ =>
      match cpus s !! id with Some (mkCpu Idle _ true) => id | _ => bsp end
  | _ => bsp
  end.
Definition finished (s : Sys) : Prop := at_bsp s = Rebooted ∨ (at_bsp s = AwaitReboot ∧ rebooting s = false).

Definition goes_down (c : Z) (s : Sys) : Prop :=
  ∃ s', step c s = Ok s' ∧ (∃ p, down_at p s') ∧
    ((todo_of s' < todo_of s ∧ ¬ finished s) ∨
     (todo_of s' = todo_of s ∧ turn s' = turn s ∧ (finished s → finished s') ∧ (c = turn s → finished s))).

(** ** Steps of the first core *)
Lemma down_bsp p p' s s' :
  down_at p s → cpus s' = <[bsp := mkCpu p' (Some 0) false]> (cpus s) → states s' = states s → max_id s' = max_id s →
  phase_ok p' → (∀ c u, c ∈ apics → c ≠ bsp → cpus s !! c = Some u → ap_down p c u → ap_down p' c u) → down_at p' s'.
Proof using Hmo.
  intros Hd Hc Hs Hm Hp Hap. pose proof (mo_bsp _ _ _ _ _ Hmo) as Hb. split.
  - rewrite Hc. apply lookup_insert_eq.
  - done.
  - rewrite Hm. apply Hd.
  - destruct (d_table _ _ Hd) as (l & H1 & H2 & H3 & H4). exists l. split_and!; [congruence|done|done|].
    intros c u Hin Hne Hu. rewrite Hc, lookup_insert_ne in Hu by done. by apply H4.
  - intros c Hin Hne. destruct (d_aps _ _ Hd _ Hin Hne) as (u & Hu & Hok). exists u. rewrite Hc, lookup_insert_ne by done.
    split; [done|]. by apply Hap.
  - intros c u Hin Hu. rewrite Hc, lookup_insert_ne in Hu by (by intros <-). by apply (d_rest _ _ Hd c).
Qed.

Lemma at_bsp_ok p s : down_at p s → at_bsp s = p.
Proof. intros Hd. unfold at_bsp. by rewrite (d_bsp _ _ Hd). Qed.

(** A step of the first core that brings it forward *)
Lemma bsp_forward p p' s s' :
  down_at p s → step bsp s = Ok s' → cpus s' = <[bsp := mkCpu p' (Some 0) false]> (cpus s) → states s' = states s →
  max_id s' = max_id s → phase_ok p' →
  (∀ c u, c ∈ apics → c ≠ bsp → cpus s !! c = Some u → ap_down p c u → ap_down p' c u) →
  (∀ f, (∀ c, c ≠ bsp → f c = cpus s !! c) → todo p' f < todo p (λ c, cpus s !! c)) →
  p ≠ Rebooted → (p = AwaitReboot → rebooting s = true) → goes_down bsp s.
Proof using Hmo.
  intros Hd Hstep Hc Hs Hm Hp Hap Hlt Hf1 Hf2. exists s'. pose proof (down_bsp _ _ _ _ Hd Hc Hs Hm Hp Hap) as Hd'.
  split; [done|]. split; [by exists p'|]. left.
  unfold todo_of, finished. rewrite (at_bsp_ok _ _ Hd), (at_bsp_ok _ _ Hd'). split.
  - apply Hlt. intros c Hne. by rewrite Hc, lookup_insert_ne.
  - intros [?|[E ?]]; [done|]. rewrite Hf2 in *; done.
Qed.

Lemma down_core_state p s id : down_at p s → 0 ≤ id ≤ max → id ≠ bsp →
  core_state id s = Ok (if decide (id ∈ apics) then match cpus s !! id with Some u => down_state u | None => None_ end else None_).
Proof using Hmo.
  intros Hd Hr Hne. destruct (d_table _ _ Hd) as (l & H1 & [H2 H5] & _ & H4). eapply core_state_ok; [done|].
  destruct (decide (id ∈ apics)) as [Hin|Hin].
  - destruct (d_aps _ _ Hd _ Hin Hne) as (u & Hu & _). rewrite Hu. by apply H4.
  - apply H5; [lia|]. intros c Hc E. apply Hin. pose proof (id_range _ _ _ _ _ Hmo c Hc). by replace id with c by lia.
Qed.

Lemma bsp_disable_core id reboot s : down_at (DisableCore id reboot) s → goes_down bsp s.
Proof using Hmo.
  intros Hd. pose proof (d_bsp _ _ Hd) as Hu. pose proof (d_phase _ _ Hd) as Hph. pose proof (d_max _ _ Hd) as Hmx.
  cbn [phase_ok] in Hph.
  destruct (Z.leb_spec max id) as [Hge|Hlt].
  { eapply (bsp_forward _ (cores_disabled reboot) s _ Hd).
    - take_step Hu. unfold run_panic. cbn [at_]. rewrite Hmx. cbn [once_get unwrap mbind res_bind].
      rewrite (proj2 (Z.leb_le _ _) Hge). reflexivity.
    - done.
    - done.
    - done.
    - by destruct reboot.
    - intros c u Hc Hne _. destruct reboot; [done|]. cbn [ap_down cores_disabled]. by replace id with max by lia.
    - intros f Hf. destruct reboot; cbn [todo cores_disabled]; lia.
    - done.
    - done. }
  assert (∀ s', step bsp s = Ok s' → cpus s' = <[bsp := mkCpu (DisableCore (id + 1) reboot) (Some 0) false]> (cpus s) →
    states s' = states s → max_id s' = max_id s →
    (reboot = false → id ∈ apics → id = bsp) → goes_down bsp s) as Hskip.
  { intros s' Hstep Hc Hs Hm Hid. apply (bsp_forward _ (DisableCore (id + 1) reboot) s s' Hd); try done.
    - cbn [phase_ok]. lia.
    - intros c u Hin Hne _. destruct reboot; [done|]. cbn [ap_down]. specialize (Hid eq_refl).
      destruct (Z.ltb_spec c id), (Z.ltb_spec c (id + 1)); try done; try lia. assert (c = id) as -> by lia. by exfalso; apply Hne, Hid.
    - intros f Hf. destruct reboot; cbn [todo]; lia. }
  destruct (Z.eqb_spec id bsp) as [->|Hne].
  { apply (Hskip (goto bsp (mkCpu (DisableCore bsp reboot) (Some 0) false) (DisableCore (bsp + 1) reboot) s)); try done. take_step Hu. unfold run_panic. cbn [at_]. rewrite Hmx. cbn [once_get unwrap mbind res_bind].
    rewrite (proj2 (Z.leb_gt _ _) Hlt), Z.eqb_refl. reflexivity. }
  pose proof (down_core_state _ _ id Hd ltac:(lia) Hne) as Hcs.
  assert (step bsp s = Ok (goto bsp (mkCpu (DisableCore id reboot) (Some 0) false)
    (if decide ((if decide (id ∈ apics) then match cpus s !! id with Some u => down_state u | None => None_ end else None_) = Online)
     then PollHalted id reboot else DisableCore (id + 1) reboot) s)) as Hstep.
  { take_step Hu. unfold run_panic. cbn [at_]. rewrite Hmx. cbn [once_get unwrap mbind res_bind].
    rewrite (proj2 (Z.leb_gt _ _) Hlt), (proj2 (Z.eqb_neq _ _) Hne), Hcs. reflexivity. }
  destruct (decide (id ∈ apics)) as [Hin|Hin].
  + destruct (d_aps _ _ Hd _ Hin Hne) as (u & Hid & Hok). rewrite Hid in *. destruct reboot; cbn [ap_down] in Hok.
    * rewrite (proj2 (Z.ltb_lt _ _) Hlt) in Hok. rewrite Hok in *. cbn [down_state at_] in Hstep. rewrite decide_False in Hstep by done.
      by eapply Hskip.
    * rewrite Z.ltb_irrefl in Hok. destruct Hok as (i & Hi & ->). cbn [down_state at_] in Hstep. rewrite decide_True in Hstep by done.
      eapply (bsp_forward _ (PollHalted id false) s _ Hd Hstep); try done.
      -- cbn [phase_ok]. split_and!; done || lia.
      -- intros c u Hc Hcb Hu'. cbn [ap_down]. destruct (Z.ltb_spec c id); [done|]. destruct (Z.eqb_spec c id) as [->|]; [|done].
         intros (j & Hj & ->). left. by exists j, false.
      -- intros f Hf. cbn [todo]. rewrite Hf, Hid by done. lia.
  + rewrite decide_False in Hstep by done. by eapply Hskip.
Qed.

Lemma bsp_down_1 p s : down_at p s →
  match p with Panicking | DisableCores _ | AwaitReboot | SoftReboot | Rebooted => True | _ => False end →
  goes_down bsp s.
Proof using Hmo.
  intros Hd Hp. pose proof (d_bsp _ _ Hd) as Hu. pose proof (d_phase _ _ Hd) as Hph. pose proof (d_max _ _ Hd) as Hmx.
  assert (0 ≤ max) as Hm0 by (pose proof (id_range _ _ _ _ _ Hmo bsp (mo_bsp _ _ _ _ _ Hmo)); lia).
  destruct p; try done; cbn [phase_ok] in Hph.
  - eapply (bsp_forward _ (DisableCores false) s _ Hd); [take_step Hu; reflexivity|try done..].
    intros f Hf. cbn [todo]. lia.
  - eapply (bsp_forward _ (DisableCore 0 reboot) s _ Hd); [take_step Hu; unfold run_panic; cbn [at_]; rewrite Hmx; reflexivity|try done..].
    + intros c u Hc Hne _. destruct reboot; [done|]. cbn [ap_down]. pose proof (id_range _ _ _ _ _ Hmo c Hc).
      by rewrite (proj2 (Z.ltb_ge _ _)) by lia.
    + intros f Hf. cbn [todo]. destruct reboot; lia.
  - (* AwaitReboot *)
    destruct (rebooting s) eqn:Er.
    + eapply (bsp_forward _ SoftReboot s _ Hd); [take_step Hu; unfold run_panic; cbn [at_]; rewrite Er; reflexivity|try done..].
      intros f Hf. cbn [todo]. lia.
    + exists s. split; [take_step Hu; unfold run_panic; cbn [at_]; by rewrite Er|]. split; [by eexists|]. right. split; [done|].
      split; [done|]. split; [done|]. intros _. right. split; [by apply at_bsp_ok|done].
  - eapply (bsp_forward _ (DisableCores true) s _ Hd); [take_step Hu; reflexivity|try done..].
    intros f Hf. cbn [todo]. lia.
  - exists s. split; [take_step Hu; done|]. split; [by eexists|]. right. split; [done|]. split; [done|]. split; [done|].
    intros _. left. by apply at_bsp_ok.
Qed.

(** A step of the first core that interrupts another *)
Lemma down_target p p' s s' id u u' :
  down_at p s → id ∈ apics → id ≠ bsp → cpus s !! id = Some u →
  cpus s' = <[bsp := mkCpu p' (Some 0) false]> (<[id := u']> (cpus s)) → states s' = states s → max_id s' = max_id s →
  phase_ok p' → down_state u' = down_state u → ap_down p' id u' →
  (∀ c v, c ∈ apics → c ≠ bsp → c ≠ id → ap_down p c v → ap_down p' c v) → down_at p' s'.
Proof using Hmo.
  intros Hd Hid Hib Hu Hc Hs Hm Hp Hst Hu' Hap. pose proof (mo_bsp _ _ _ _ _ Hmo) as Hb. split.
  - rewrite Hc. apply lookup_insert_eq.
  - done.
  - rewrite Hm. apply Hd.
  - destruct (d_table _ _ Hd) as (l & H1 & H2 & H3 & H4). exists l. split_and!; [congruence|done|done|].
    intros c v Hin Hne Hv. rewrite Hc, lookup_insert_ne in Hv by done. destruct (decide (c = id)) as [->|Hci].
    + rewrite lookup_insert_eq in Hv. injection Hv as <-. rewrite Hst. by apply H4.
    + rewrite lookup_insert_ne in Hv by done. by apply H4.
  - intros c Hin Hne. rewrite Hc, lookup_insert_ne by done. destruct (decide (c = id)) as [->|Hci].
    + exists u'. by rewrite lookup_insert_eq.
    + rewrite lookup_insert_ne by done. destruct (d_aps _ _ Hd _ Hin Hne) as (v & Hv & Hok). exists v. split; [done|]. by apply Hap.
  - intros c v Hin Hv. rewrite Hc, !lookup_insert_ne in Hv by (by intros <-). by apply (d_rest _ _ Hd c).
Qed.

Lemma down_spins p p' id i s s' :
  down_at p s → down_at p' s' → step bsp s = Ok s' → id ≠ bsp →
  (p = PollHalted id false ∨ p = SendNmi id false) → (p' = PollHalted id false ∨ p' = SendNmi id false) →
  cpus s !! id = Some (mkCpu Idle (Some i) true) → cpus s' !! id = cpus s !! id → goes_down bsp s.
Proof.
  intros Hd Hd' Hstep Hne Hp Hp' Hid Hsame. rewrite Hid in Hsame. exists s'. split; [done|]. split; [by eexists|]. right.
  unfold todo_of, turn, finished. rewrite (at_bsp_ok _ _ Hd), (at_bsp_ok _ _ Hd').
  destruct Hp as [->| ->], Hp' as [->| ->]; cbn [todo]; rewrite Hid, Hsame; (split; [lia|]; split; [done|]; split; [naive_solver|];
    intros E; by rewrite E in Hne).
Qed.

Lemma bsp_poll id s : down_at (PollHalted id false) s → goes_down bsp s.
Proof using Hmo.
  intros Hd. pose proof (d_bsp _ _ Hd) as Hu. pose proof (d_phase _ _ Hd) as Hph. pose proof Hph as (Hin & Hne & Hr).
  destruct (d_aps _ _ Hd _ Hin Hne) as (u & Hid & Hok). cbn [ap_down] in Hok. rewrite Z.ltb_irrefl, Z.eqb_refl in Hok.
  pose proof (down_core_state _ _ id Hd ltac:(lia) Hne) as Hcs. rewrite decide_True, Hid in Hcs by done.
  assert (step bsp s = Ok (goto bsp (mkCpu (PollHalted id false) (Some 0) false)
    (if decide (down_state u = Halted) then InitCore id false else SendNmi id false) s)) as Hstep.
  { take_step Hu. unfold run_panic. cbn [at_]. by rewrite Hcs. }
  destruct Hok as [(i & b & Hi & ->)|(i & b & Hi & ->)]; cbn [down_state at_] in Hstep.
  - rewrite decide_False in Hstep by done. destruct b.
    + eapply (down_spins _ (SendNmi id false) id i s _ Hd); [|exact Hstep|done|by left|by right|done|].
      * by eapply (down_bsp (PollHalted id false) _ s).
      * cbn [cpus goto set_cpu]. by rewrite lookup_insert_ne.
    + eapply (bsp_forward _ (SendNmi id false) s _ Hd Hstep); try done. intros f Hf. cbn [todo]. rewrite Hf, Hid by done. lia.
  - rewrite decide_True in Hstep by done. eapply (bsp_forward _ (InitCore id false) s _ Hd Hstep); try done.
    + intros c v Hc Hcb Hv. cbn [ap_down]. destruct (Z.ltb_spec c id); [done|]. destruct (Z.eqb_spec c id) as [->|]; [|done].
      intros _. exists i, b. split; [done|]. congruence.
    + intros f Hf. cbn [todo]. rewrite Hid. lia.
Qed.

Lemma bsp_nmi id s : down_at (SendNmi id false) s → goes_down bsp s.
Proof using Hmo L.
  intros Hd. pose proof (d_bsp _ _ Hd) as Hu. pose proof (d_phase _ _ Hd) as Hph. pose proof Hph as (Hin & Hne & Hr).
  destruct (d_aps _ _ Hd _ Hin Hne) as (u & Hid & Hok). cbn [ap_down] in Hok. rewrite Z.ltb_irrefl, Z.eqb_refl in Hok.
  assert (at_ u ≠ Reset) as Hnr by (by destruct Hok as [(i & b & _ & ->)|(i & b & _ & ->)]).
  set (u' := mkCpu (at_ u) (core_id u) true).
  set (s' := goto bsp (mkCpu (SendNmi id false) (Some 0) false) (PollHalted id false) (set_cpu id u' s)).
  assert (step bsp s = Ok s') as Hstep.
  { take_step Hu. unfold run_panic. cbn [at_]. unfold ipi. rewrite Hid, deliver_nmi by done. done. }
  assert (down_at (PollHalted id false) s') as Hd'.
  { apply (down_target (SendNmi id false) _ s s' id u u'); try done. cbn [ap_down]. rewrite Z.ltb_irrefl, Z.eqb_refl.
    destruct Hok as [(i & b & Hi & ->)|(i & b & Hi & ->)]; [left|right]; by exists i, true. }
  assert (cpus s' !! id = Some u') as Hid' by (cbn [cpus s' goto set_cpu]; by rewrite lookup_insert_ne, lookup_insert_eq).
  destruct Hok as [(i & b & Hi & ->)|(i & b & Hi & ->)]; cbn [u' at_ core_id] in *; [destruct b|].
  - apply (down_spins (SendNmi id false) (PollHalted id false) id i s s'); try done; [by right|by left|by rewrite Hid', Hid].
  - exists s'. split; [done|]. split; [by eexists|]. left.
    unfold todo_of, finished. rewrite (at_bsp_ok _ _ Hd), (at_bsp_ok _ _ Hd'). cbn [todo]. rewrite Hid, Hid'. cbn. split; [lia|naive_solver].
  - exists s'. split; [done|]. split; [by eexists|]. left.
    unfold todo_of, finished. rewrite (at_bsp_ok _ _ Hd), (at_bsp_ok _ _ Hd'). cbn [todo]. rewrite Hid, Hid'. cbn. split; [lia|naive_solver].
Qed.

Lemma bsp_init id s : down_at (InitCore id false) s → goes_down bsp s.
Proof using Hmo L.
  intros Hd. pose proof (d_bsp _ _ Hd) as Hu. pose proof (d_phase _ _ Hd) as Hph. pose proof Hph as (Hin & Hne & Hr).
  destruct (d_aps _ _ Hd _ Hin Hne) as (u & Hid & Hok). cbn [ap_down] in Hok. rewrite Z.ltb_irrefl, Z.eqb_refl in Hok.
  set (u' := mkCpu Reset None false).
  set (s' := goto bsp (mkCpu (InitCore id false) (Some 0) false) (DisableCore (id + 1) false) (set_cpu id u' s)).
  assert (step bsp s = Ok s') as Hstep.
  { take_step Hu. unfold run_panic. cbn [at_]. unfold ipi. rewrite Hid, deliver_init. done. }
  assert (down_at (DisableCore (id + 1) false) s') as Hd'.
  { apply (down_target (InitCore id false) _ s s' id u u'); try done.
    - cbn [phase_ok]. lia.
    - by destruct Hok as (i & b & _ & ->).
    - cbn [ap_down]. by rewrite (proj2 (Z.ltb_lt _ _)) by lia.
    - intros c v _ _ Hci. cbn [ap_down]. rewrite (proj2 (Z.eqb_neq c id)) by done.
      destruct (Z.ltb_spec c id), (Z.ltb_spec c (id + 1)); done || lia. }
  exists s'. split; [done|]. split; [by eexists|]. left. unfold todo_of, finished.
  rewrite (at_bsp_ok _ _ Hd), (at_bsp_ok _ _ Hd'). cbn [todo]. split; [lia|naive_solver].
Qed.

Lemma bsp_down p s : down_at p s → goes_down bsp s.
Proof using Hmo L.
  intros Hd. pose proof (d_phase _ _ Hd) as Hph. destruct p; try done;
    first [eapply bsp_down_1; [exact Hd|exact Logic.I]|eapply bsp_disable_core; exact Hd
          |destruct reboot; [done|]; first [eapply bsp_poll; exact Hd|eapply bsp_nmi; exact Hd|eapply bsp_init; exact Hd]].
Qed.

(** ** Steps of the others *)
Definition targeted (p : pc) (c : Z) : Prop := p = PollHalted c false ∨ p = SendNmi c false ∨ p = InitCore c false.

Lemma ap_stops p s c q i : down_at p s → c ∈ apics → c ≠ bsp → cpus s !! c = Some (mkCpu q (Some i) true) → 1 ≤ i → targeted p c →
  ∃ s', step c s = Ok s' ∧ down_at p s' ∧ cpus s' = <[c := mkCpu Stopped (Some i) false]> (cpus s).
Proof using Hmo.
  intros Hd Hin Hne Hu Hi Hp. destruct (d_table _ _ Hd) as (l & H1 & H2 & H3 & H4). pose proof (id_range _ _ _ _ _ Hmo c Hin).
  eexists. split; [|split].
  - unfold Cores.step. rewrite Hu. cbn [nmi core_id]. unfold handle_nmi, is_bsp. cbn [core_id at_].
    rewrite (proj2 (Z.eqb_neq i 0)) by lia. cbn [andb].
    rewrite (set_core_state_ok cores apics bsp ENTRY_CODE bstate Hmo c Halted s l H1 Hin H2). reflexivity.
  - split.
    + cbn [cpus goto set_cpu set_states]. rewrite lookup_insert_ne by done. apply Hd.
    + apply Hd.
    + apply Hd.
    + eexists. split; [reflexivity|]. split; [by apply table_insert|].
      split; [rewrite list_lookup_insert_ne; [done|]; intros E; apply Hne; eapply id_inj; [exact Hmo|done|apply (mo_bsp _ _ _ _ _ Hmo)|done]|].
      intros d v Hd' Hdb Hv. cbn [cpus goto set_cpu set_states] in Hv. destruct (decide (d = c)) as [->|Hdc].
      * rewrite lookup_insert_eq in Hv. injection Hv as <-. rewrite list_lookup_insert_eq; [done|]. rewrite (proj1 H2). lia.
      * rewrite lookup_insert_ne in Hv by done. rewrite list_lookup_insert_ne; [by apply H4|].
        intros E. apply Hdc. eapply id_inj; [exact Hmo|done|done|done].
    + intros d Hd' Hdb. cbn [cpus goto set_cpu set_states]. destruct (decide (d = c)) as [->|Hdc].
      * rewrite lookup_insert_eq. eexists. split; [done|]. assert (stopped (mkCpu Stopped (Some i) false)) as Hst by (by exists i, false).
        destruct Hp as [->|[->| ->]]; cbn [ap_down]; rewrite Z.ltb_irrefl, Z.eqb_refl; auto.
      * rewrite lookup_insert_ne by done. by apply (d_aps _ _ Hd).
    + intros d v Hd' Hv. cbn [cpus goto set_cpu set_states] in Hv. rewrite lookup_insert_ne in Hv by (by intros <-). by apply (d_rest _ _ Hd d).
  - done.
Qed.

Lemma quiet_ap p s c u : down_at p s → cpus s !! c = Some u → nmi u = false →
  (at_ u = Reset ∨ at_ u = Idle ∨ at_ u = Stopped) → c ≠ turn s → goes_down c s.
Proof.
  intros Hd Hu Hn Hat Ht. exists s. split; [|split; [by eexists|right; done]].
  unfold Cores.step. rewrite Hu, Hn. by destruct Hat as [->|[->| ->]].
Qed.

Lemma turn_not s c u : cpus s !! c = Some u → (at_ u ≠ Idle ∨ nmi u = false) → c ≠ bsp → c ≠ turn s.
Proof.
  intros Hu Hn Hne E. unfold turn in E.
  destruct (at_bsp s); try done; destruct (cpus s !! id) as [[[] ? []]|] eqn:Hi; try done; subst; rewrite Hi in Hu;
    injection Hu as <-; by destruct Hn.
Qed.

Lemma ap_goes_down p s c : down_at p s → c ∈ apics → c ≠ bsp → goes_down c s.
Proof using Hmo.
  intros Hd Hin Hne. destruct (d_aps _ _ Hd _ Hin Hne) as (u & Hu & Hok).
  assert (gone u ∨ idle u ∨ (targeted p c ∧ (stopped u ∨ (p ≠ InitCore c false ∧ told u)))) as Hcase.
  { unfold targeted. pose proof (d_phase _ _ Hd) as Hph. destruct p; cbn [ap_down phase_ok] in *; try done; try destruct reboot; try done;
      repeat case_match; try (by auto); assert (c = id) as -> by lia; naive_solver. }
  destruct Hcase as [->|[(i & Hi & ->)|(Hp & Hcase)]].
  - eapply quiet_ap; [done|done|done|by left|]. eapply turn_not; [done|by left|done].
  - eapply quiet_ap; [done|done|done|by right; left|]. eapply turn_not; [done|by right|done].
  - assert (∃ q i b, u = mkCpu q (Some i) b ∧ 1 ≤ i ∧ (q = Stopped ∨ (q = Idle ∧ p ≠ InitCore c false))) as (q & i & b & -> & Hi & Hq).
    { destruct Hcase as [(i & b & ? & ->)|(Hni & i & b & ? & ->)]; [exists Stopped, i, b|exists Idle, i, b]; auto. }
    destruct b.
    + destruct (ap_stops p s c q i Hd Hin Hne Hu Hi Hp) as (s' & Hstep & Hd' & Hc). exists s'. split; [done|]. split; [by eexists|].
      assert (cpus s' !! c = Some (mkCpu Stopped (Some i) false)) as Hc' by (by rewrite Hc, lookup_insert_eq).
      unfold todo_of, turn, finished. rewrite (at_bsp_ok _ _ Hd), (at_bsp_ok _ _ Hd').
      destruct Hq as [->|[-> Hni]], Hp as [->|[->| ->]]; cbn [todo]; rewrite ?Hu, ?Hc'; try done; try (left; split; [lia|naive_solver]);
        (right; split; [lia|]; split; [done|]; split; [naive_solver|]; intros E; by rewrite E in Hne).
    + eapply quiet_ap; [done|done|done|cbn; destruct Hq as [->|[-> _]]; auto|]. eapply turn_not; [done|by right|done].
Qed.

(** ** All steps *)
Definition down (s : Sys) : Prop := ∃ p, down_at p s.

Lemma down_step c s : down s → goes_down c s.
Proof using Hmo L.
  intros [p Hd]. destruct (decide (c = bsp)) as [->|Hne]; [by eapply bsp_down|].
  destruct (decide (c ∈ apics)) as [Hin|Hin]; [by eapply ap_goes_down|].
  destruct (cpus s !! c) as [u|] eqn:Hu.
  - destruct (d_rest _ _ Hd _ _ Hin Hu) as [Hr Hn]. eapply quiet_ap; [done|done|done|by left|].
    eapply turn_not; [done|by right|done].
  - exists s. split; [unfold Cores.step; by rewrite Hu|]. split; [by exists p|]. right. split_and!; try done. intros E. exfalso.
    unfold turn in E. destruct (at_bsp s); try done; destruct (cpus s !! id) as [[[] ? []]|] eqn:Hi; congruence.
Qed.

Lemma down_run r : ∀ s, down s → ∃ s', run r s = Ok s' ∧ down s' ∧
  ((todo_of s' < todo_of s ∧ ¬ finished s) ∨
   (todo_of s' = todo_of s ∧ turn s' = turn s ∧ (finished s → finished s') ∧ (turn s ∈ r → finished s'))).
Proof using Hmo L.
  induction r as [|c r IH]; intros s Hd; cbn [Cores.run].
  { exists s. split; [done|]. split; [done|]. right. split_and!; try done. intros H. by apply elem_of_nil in H. }
  destruct (down_step c s Hd) as (s1 & -> & Hd1 & H1). cbn [mbind res_bind].
  destruct (IH s1 Hd1) as (s2 & -> & Hd2 & H2). exists s2. split; [done|]. split; [done|].
  destruct H1 as [[H1 G1]|(E1 & T1 & F1 & N1)], H2 as [[H2 G2]|(E2 & T2 & F2 & N2)]; [left; split; [lia|auto]..|].
  right. split_and!; [lia|congruence|auto|]. intros [E|Hin]%elem_of_cons; [auto|]. apply N2. by rewrite T1.
Qed.

Lemma todo_bounds s : down s → 0 ≤ todo_of s ≤ 8 * max + 7.
Proof using Hmo.
  intros [p Hd]. unfold todo_of. rewrite (at_bsp_ok _ _ Hd). pose proof (d_phase _ _ Hd) as Hph.
  assert (0 ≤ max) as Hm0 by (pose proof (id_range _ _ _ _ _ Hmo bsp (mo_bsp _ _ _ _ _ Hmo)); lia).
  destruct p; cbn [todo phase_ok] in *; try done; try destruct reboot; try done; try lia;
    destruct Hph as (_ & _ & Hr); try (destruct (cpus s !! id) as [[[] ? []]|]); lia.
Qed.
Lemma turn_in s : down s → turn s ∈ apics.
Proof using Hmo.
  intros [p Hd]. pose proof (mo_bsp _ _ _ _ _ Hmo) as Hb. unfold turn. rewrite (at_bsp_ok _ _ Hd).
  pose proof (d_phase _ _ Hd) as Hph. destruct p; try done; cbn [phase_ok] in Hph; (destruct reboot; [done|]);
    destruct Hph as (Hin & _); by destruct (cpus s !! id) as [[[] ? []]|].
Qed.

Lemma down_rounds rounds : Forall (λ r, apics ⊆ r) rounds → ∀ s, down s → todo_of s < zlen rounds →
  ∃ s', run (concat rounds) s = Ok s' ∧ down s' ∧ finished s'.
Proof using Hmo L.
  assert (∀ s, down s → finished s → ∀ r, ∃ s', run r s = Ok s' ∧ down s' ∧ finished s') as Hstay.
  { intros s Hd Hf r. destruct (down_run r s Hd) as (s' & Hr & Hd' & [[_ Hn]|(_ & _ & F & _)]); [done|]. eauto. }
  unfold zlen. induction 1 as [|r rounds Hsub Hr IH]; intros s Hd Hlt; cbn [length concat] in *.
  { pose proof (todo_bounds s Hd). lia. }
  rewrite run_app. destruct (down_run r s Hd) as (s1 & -> & Hd1 & [[Hdec _]|(_ & _ & _ & Hf)]); cbn [mbind res_bind].
  - apply IH; [done|lia].
  - apply Hstay; [done|]. apply Hf, Hsub, turn_in, Hd.
Qed.

(** ** From the machine whose cores are all up *)
Lemma down_start sched s0 : run sched (start cores bsp) = Ok s0 → all_idle apics s0 → down_at Panicking (fault bsp s0).
Proof using Hmo L.
  intros Hrun Hid.
  destruct (run_inv cores apics bsp ENTRY_CODE bstate Hmo sched _ (inv_start _ _ _ _ _ Hmo)) as (s & Hs & [p0 Hinv] & _).
  assert (s = s0) as -> by congruence. destruct (Hid _ (mo_bsp _ _ _ _ _ Hmo)) as (u & Hu & Hi).
  pose proof (ia_bsp _ _ _ _ _ _ Hinv) as Hb. rewrite Hb in Hu. injection Hu as <-. cbn [at_] in Hi. subst p0. cbn [brank Nat.eqb] in Hb.
  assert (∀ c, c ∈ apics → c ≠ bsp → ∃ u, cpus s0 !! c = Some u ∧ idle u) as Hup.
  { intros c Hc Hne. destruct (Hid c Hc) as (u & Hu & Hi). apply list_elem_of_lookup in Hc as [i Hic].
    destruct (ia_aps _ _ _ _ _ _ Hinv _ _ Hic Hne) as (v & Hv & Hok). assert (v = u) as -> by congruence. exists u. split; [done|].
    destruct u as [p [id|] b], Hok as (Hn & _ & _ & Hid' & _); cbn in *; subst; [|cbn in Hid'; lia]. exists id. split; [lia|done]. }
  assert (fault bsp s0 = goto bsp (mkCpu Idle (Some 0) false) Panicking s0) as -> by (unfold fault; by rewrite Hb).
  split.
  - cbn [cpus goto set_cpu]. apply lookup_insert_eq.
  - done.
  - apply (ia_max _ _ _ _ _ _ Hinv).
  - pose proof (ia_states _ _ _ _ _ _ Hinv) as Hst. apply states_settled in Hst as [l (H1 & H2 & H3 & H4)]; [|cbn; lia].
    exists l. split_and!; [done|done|done|]. intros c u Hc Hne Hu. cbn [cpus goto set_cpu] in Hu. rewrite lookup_insert_ne in Hu by done.
    destruct (Hup c Hc Hne) as (v & Hv & (i & _ & ->)). assert (u = mkCpu Idle (Some i) false) as -> by congruence.
    apply list_elem_of_lookup in Hc as [j Hj]. exact (H4 j c _ Hj Hne Hu).
  - intros c Hc Hne. cbn [cpus goto set_cpu]. rewrite lookup_insert_ne by done. by apply Hup.
  - intros c u Hc Hu. cbn [cpus goto set_cpu] in Hu. rewrite lookup_insert_ne in Hu by (intros <-; by apply Hc, (mo_bsp _ _ _ _ _ Hmo)).
    by apply (ia_rest _ _ _ _ _ _ Hinv c).
Qed.

(** C16. When the first core panics while all cores are up, nothing else fails in any
    interleaving, and every fair schedule gets it to the point where it waits for a
    reboot or performs it.  By then every other core below the highest id has been
    halted and put back into reset; the core with the highest id has been left out
    and runs on. *)
Theorem panic_stops_cores sched s0 :
  run sched (start cores bsp) = Ok s0 → all_idle apics s0 →
  (∀ turns, ∃ s, run turns (fault bsp s0) = Ok s) ∧
  ∀ rounds, Forall (λ r, apics ⊆ r) rounds → 8 * max + 7 < zlen rounds →
  ∃ s, run (concat rounds) (fault bsp s0) = Ok s ∧ finished s ∧
    (∀ c, c ∈ apics → c ≠ bsp → c < max → cpus s !! c = Some (mkCpu Reset None false) ∧ core_state c s = Ok Halted) ∧
    (∀ c, c ∈ apics → c ≠ bsp → c = max →
       core_state c s = Ok Online ∧ ∃ id, cpus s !! c = Some (mkCpu Idle (Some id) false)).
Proof using Hmo L.
  intros Hrun Hid. pose proof (down_start _ _ Hrun Hid) as Hd. assert (down (fault bsp s0)) as Hdn by (by eexists). split.
  { intros turns. destruct (down_run turns _ Hdn) as (s & Hs & _). eauto. }
  intros rounds Hr Hlen. destruct (down_rounds rounds Hr _ Hdn) as (s & Hs & [p Hds] & Hf).
  { pose proof (todo_bounds _ Hdn). lia. }
  exists s. split; [done|]. split; [done|].
  assert (∀ c u, ap_down p c u → if c <? max then gone u else idle u) as Hend.
  { unfold finished in Hf. rewrite (at_bsp_ok _ _ Hds) in Hf. destruct Hf as [->|[-> _]]; done. }
  split; intros c Hc Hne Hcm; pose proof (id_range _ _ _ _ _ Hmo c Hc); destruct (d_aps _ _ Hds c Hc Hne) as (u & Hu & Hok%Hend);
    rewrite (down_core_state _ _ c Hds), decide_True, Hu by (done || lia).
  - rewrite (proj2 (Z.ltb_lt _ _)) in Hok by lia. by rewrite Hok.
  - rewrite (proj2 (Z.ltb_ge _ _)) in Hok by lia. destruct Hok as (i & _ & ->). eauto.
Qed.

End bring_down.

(** * A machine with three cores *)
Module SampleCores.

(** Delivery modes of the interrupt command register *)
#[export] Instance decode : Ipis := λ cmd u,
  let mode := Z.land (Z.shiftr cmd 8) 7 in
  if mode =? 5 then mkCpu Reset None false
  else if mode =? 6 then if decide (at_ u = Reset) then mkCpu (Boot (Z.land cmd 0xFF)) (core_id u) (nmi u) else u
  else if mode =? 4 then if decide (at_ u = Reset) then u else mkCpu (at_ u) (core_id u) true
  else u.
#[export] Instance decode_laws : IpiLaws decode.
Proof.
  split; intros u; [done|done|]. intros Hu. unfold deliver, decode. change (Z.land (Z.shiftr NMI 8) 7) with 4. cbn [Z.eqb Pos.eqb]. by rewrite decide_False.
Qed.

Definition apics : list Z := [0; 3; 1].
Definition cores : list Z := [0; 1; 2; 3].
Definition code : list Z := replicate 30 144.
Definition bstate : list Z := replicate 24 7.
Lemma machine : machine_ok cores apics 0 code bstate.
Proof.
  split; [apply (bool_decide_unpack _); vm_compute; exact Logic.I| | |apply (bool_decide_unpack _); vm_compute; exact Logic.I| | |].
  - set_solver.
  - unfold apics, cores. set_solver.
  - unfold apics. rewrite !Forall_cons_iff. unfold fits. split_and!; try lia. apply Forall_nil_2.
  - vm_compute. done.
  - vm_compute. lia.
Qed.

Lemma bring_up_safe_witness : ∃ s, run (Some apics) code bstate [0; 0; 0; 3; 0] (start cores 0) = Ok s ∧ 0 ≤ checked_in s ≤ 3.
Proof.
  destruct (bring_up_safe cores apics 0 code bstate machine [0; 0; 0; 3; 0]) as (s & H1 & H2 & _).
  exists s. split; [exact H1|exact H2].
Defined.

Definition rounds (n : nat) : list (list Z) := replicate n [1; 0; 3].
Lemma rounds_fair n : Forall (λ r, apics ⊆ r) (rounds n).
Proof. apply Forall_replicate. unfold apics. set_solver. Qed.

Lemma bring_up_completes_witness :
  ∃ s, run (Some apics) code bstate (concat (rounds 55)) (start cores 0) = Ok s ∧ all_idle apics s ∧
    ∀ c, c ∈ apics → core_state c s = Ok Online.
Proof. apply (bring_up_completes cores apics 0 code bstate machine (rounds 55) (rounds_fair 55)). vm_compute. lia. Defined.

Definition up : Sys := match run (Some apics) code bstate (concat (rounds 30)) (start cores 0) with Ok s => s | _ => start cores 0 end.
Lemma up_idle : all_idle apics up.
Proof.
  intros c Hc. unfold apics in Hc. rewrite !elem_of_cons, elem_of_nil in Hc.
  destruct Hc as [->|[->|[->|[]]]]; eexists; (split; [vm_compute; reflexivity|done]).
Qed.
Lemma one_in : 1 ∈ apics.
Proof. unfold apics. set_solver. Qed.
Lemma three_in : 3 ∈ apics.
Proof. unfold apics. set_solver. Qed.
Lemma panic_stops_cores_witness :
  (∀ turns, ∃ s, run (Some apics) code bstate turns (fault 0 up) = Ok s) ∧
  ∃ s, run (Some apics) code bstate (concat (rounds 32)) (fault 0 up) = Ok s ∧ finished 0 s ∧ core_state 1 s = Ok Halted ∧ core_state 3 s = Ok Online.
Proof.
  destruct (panic_stops_cores cores apics 0 code bstate machine (concat (rounds 30)) up) as [H1 H2];
    [vm_compute; reflexivity|exact up_idle|]. split; [exact H1|].
  destruct (H2 (rounds 32) (rounds_fair 32)) as (s & Hr & Hf & Ha & Hb); [vm_compute; reflexivity|].
  exists s. split; [exact Hr|]. split; [exact Hf|]. split.
  - exact (proj2 (Ha 1 one_in ltac:(lia) eq_refl)).
  - exact (proj1 (Hb 3 three_in ltac:(lia) eq_refl)).
Defined.

End SampleCores.
