(* ===== verification/Interrupts.v ===== *)
(** Interrupts: kernel/src/interrupts/interrupts.rs and gdt.rs.

    The tables the processor reads (GDT, TSS, IDT), the tables the kernel keeps (a
    handler per core and vector, and what all cores share about a vector), and the
    entry point of every interrupt.  What a handler does is a parameter. *)
From Stdlib Require Import ZArith Lia.
From stdpp Require Import prelude list numbers gmap.
From S2P Require Import Prelude Packet Sync.

Module Interrupts.

(** ** Vectors *)
Inductive InterruptId :=
| DivideBy0 | NonMaskableInterrupt | Breakpoint | Overflow | BoundsRangeExceeded | InvalidOpcode | DeviceNotAvailable
| DoubleFault | CoprocessorSegmentOverrun | InvalidTSS | SegmentNotPresent | StackSegmentFault | GeneralProtectionFault
| PageFault | X87FPUError | AlignmentCheck | MachineCheck | SIMDFloatingPointException | Reserved | LastReserved
| SoftRebootTimer.
Definition as_u8 (id : InterruptId) : Z :=
  match id with
  | DivideBy0 => 0x00 | NonMaskableInterrupt => 0x02 | Breakpoint => 0x03 | Overflow => 0x04 | BoundsRangeExceeded => 0x05
  | InvalidOpcode => 0x06 | DeviceNotAvailable => 0x07 | DoubleFault => 0x08 | CoprocessorSegmentOverrun => 0x09
  | InvalidTSS => 0x0A | SegmentNotPresent => 0x0B | StackSegmentFault => 0x0C | GeneralProtectionFault => 0x0D
  | PageFault => 0x0E | X87FPUError => 0x10 | AlignmentCheck => 0x11 | MachineCheck => 0x12
  | SIMDFloatingPointException => 0x13 | Reserved => 0x14 | LastReserved => 0x1F | SoftRebootTimer => 0x20
  end.
Definition from_u8 (val : Z) : InterruptId :=
  match val with
  | 0x00 => DivideBy0 | 0x02 => NonMaskableInterrupt | 0x03 => Breakpoint | 0x04 => Overflow | 0x05 => BoundsRangeExceeded
  | 0x06 => InvalidOpcode | 0x07 => DeviceNotAvailable | 0x08 => DoubleFault | 0x09 => CoprocessorSegmentOverrun
  | 0x0A => InvalidTSS | 0x0B => SegmentNotPresent | 0x0C => StackSegmentFault | 0x0D => GeneralProtectionFault
  | 0x0E => PageFault | 0x10 => X87FPUError | 0x11 => AlignmentCheck | 0x12 => MachineCheck
  | 0x13 => SIMDFloatingPointException
  | 0x20 => SoftRebootTimer
  | _ => Reserved
  end.

(** ** The processor's tables *)
Record IdtEntry := mkIdtEntry {
  offset_low : Z; selector : Z; ist : Z; type_attr : Z; offset_mid : Z; offset_high : Z; zero : Z }.
Definition IdtEntry_new (cs offset ist typ dpl : Z) : res unit IdtEntry :=
  _ ← assert (ist <? 8);
  _ ← assert (typ <? 32);
  _ ← assert (dpl <? 4);
  Ok (mkIdtEntry (Z.land offset 0xFFFF) cs (cast 8 ist)
    (Z.lor (Z.lor (cast 8 (Z.shiftl dpl 5)) (Z.shiftl 1 7)) (cast 8 typ))
    (Z.land (Z.shiftr offset 16) 0xFFFF) (Z.land (Z.shiftr offset 32) 0xFFFFFFFF) 0).
(** The entry as it lies in memory ([repr(C, packed)]) *)
Definition entry_bytes (e : IdtEntry) : list Z :=
  le_bytes 2 (offset_low e) ++ le_bytes 2 (selector e) ++ [ist e; type_attr e] ++ le_bytes 2 (offset_mid e) ++
  le_bytes 4 (offset_high e) ++ le_bytes 4 (zero e).

Record Tss := mkTss { rsp : list Z; tss_ist : list Z; iopb_offset : Z }.
Definition Tss_default : Tss := mkTss (replicate 3 0) (replicate 7 0) 0.
Definition TSS_SIZE : Z := 4 + 3 * 8 + 8 + 7 * 8 + 8 + 2 + 2.

Definition CODE64 : Z := 0x00209A0000000000.
Definition DATA64 : Z := 0x0000920000000000.
Definition CRIT_STACK : Z := 32 * 1024.

Definition get_selector_indices (cs ds : Z) : Z * Z := (Z.shiftr cs 3, Z.shiftr ds 3).

(** [tss_addr] and [stack]: where the allocator put the TSS and the critical stack. *)
Definition Gdt_new (cs ds tss_addr stack : Z) : res unit (list Z * Tss * Z) :=
  let '(cs_idx, ds_idx) := get_selector_indices cs ds in
  _ ← assert (negb (cs_idx =? ds_idx));
  _ ← assert (negb (cs_idx =? 0));
  let gdt := replicate (Z.to_nat (Z.max cs_idx ds_idx + 1)) 0 in
  gdt ← store gdt (Z.to_nat cs_idx) CODE64;
  gdt ← store gdt (Z.to_nat ds_idx) DATA64;
  top ← add 64 stack CRIT_STACK;
  tss_ist ← store (tss_ist Tss_default) 0 top;
  let tss_limit := TSS_SIZE - 1 in
  let tss_high := Z.shiftr tss_addr 32 in
  let tss_low := Z.lor (Z.lor (Z.lor 0x890000000000
    (cast 64 (Z.shiftl (Z.land (Z.shiftr tss_addr 24) 0xFF) 56)))
    (cast 64 (Z.shiftl (Z.land tss_addr 0xFFFFFF) 16))) tss_limit in
  let tss_entry := cast 16 (zlen gdt * 8) in
  Ok (gdt ++ [tss_low; tss_high], mkTss (rsp Tss_default) tss_ist (iopb_offset Tss_default), tss_entry).

Definition X64_INTERRUPT_GATE : Z := 0xE.
Definition ist_of (id : nat) : Z := if (id =? 2)%nat || (id =? 8)%nat || (id =? 18)%nat then 1 else 0.
(** One entry per handler of [INT_HANDLERS] *)
Fixpoint build_idt (cs : Z) (id : nat) (handlers : list Z) : res unit (list IdtEntry) :=
  match handlers with
  | [] => Ok []
  | handler :: handlers =>
      e ← IdtEntry_new cs handler (ist_of id) X64_INTERRUPT_GATE 0;
      es ← build_idt cs (S id) handlers;
      Ok (e :: es)
  end.

(** ** The kernel's tables *)
Section tables.
(** Handlers, and what running one does to the rest of the machine *)
Context {H W : Type} (call : H → Z → W → res unit (bool * W)) (eoi : W → W).

Record Ints := mkInts { dispatch : list (option H); tss : Tss; idt : list IdtEntry; gdt : list Z }.
Record Statics := mkStatics { eoi_required : list bool; draining_eois : bool; drain_precedence : list bool }.
Definition Statics_new : Statics := mkStatics (replicate 256 false) false (replicate 256 false).

Definition register (id : InterruptId) (handler : H) (e : bool) (s : Ints * Statics) : res unit (Ints * Statics) :=
  let '(self, st) := s in
  let idx := Z.to_nat (as_u8 id) in
  _ ← assert ((as_u8 id <? as_u8 Reserved) || (as_u8 LastReserved <? as_u8 id));
  old ← index (dispatch self) idx;
  _ ← assert (match old with None => true | Some _ => false end);
  d ← store (dispatch self) idx (Some handler);
  r ← store (eoi_required st) idx e;
  Ok (mkInts d (tss self) (idt self) (gdt self), mkStatics r (draining_eois st) (drain_precedence st)).
Definition register_precedent (id : InterruptId) (handler : H) (e : bool) (s : Ints * Statics) : res unit (Ints * Statics) :=
  '(self, st) ← register id handler e s;
  p ← store (drain_precedence st) (Z.to_nat (as_u8 id)) true;
  Ok (self, mkStatics (eoi_required st) (draining_eois st) p).
Definition unregister (id : InterruptId) (s : Ints * Statics) : res unit (Ints * Statics) :=
  let '(self, st) := s in
  let idx := Z.to_nat (as_u8 id) in
  d ← store (dispatch self) idx None;
  r ← store (eoi_required st) idx false;
  Ok (mkInts d (tss self) (idt self) (gdt self), mkStatics r (draining_eois st) (drain_precedence st)).

(** [bitmask[i / 128] |= eoi << (i % 128)] for every vector *)
Definition mask_bit (mask : Z * Z) (ie : nat * bool) : Z * Z :=
  let bit := cast 128 (Z.shiftl (if ie.2 then 1 else 0) (Z.of_nat (ie.1 mod 128))) in
  if (ie.1 / 128 =? 0)%nat then (Z.lor mask.1 bit, mask.2) else (mask.1, Z.lor mask.2 bit).
Definition eoi_bitmask (st : Statics) : Z * Z := foldl mask_bit (0, 0) (imap pair (eoi_required st)).

(** [init]: the tables of a core; [handlers]: the addresses of INT_HANDLERS. *)
Definition init (cs ds tss_addr stack : Z) (handlers : list Z) (nmi page_fault : H) (st : Statics)
    (interrupts : option Ints) : res unit (Ints * Statics) :=
  _ ← assert (match interrupts with None => true | Some _ => false end);
  '(gdt, tss, tss_entry) ← Gdt_new cs ds tss_addr stack;
  _ ← sub (cast 16 (zlen gdt * 8)) 1;
  let cs := cast 16 ((get_selector_indices cs ds).1 * 8) in
  idt ← build_idt cs 0 handlers;
  _ ← assert (zlen idt * 16 =? 4096);
  s ← register_precedent NonMaskableInterrupt nmi false (mkInts (replicate 256 None) tss idt gdt, st);
  register_precedent PageFault page_fault false s.

(** ** The entry point *)
(** The counters of a core, and the rest of the machine *)
Record Core := mkCore { interrupt_depth : Z; exception_depth : Z; world : W }.

Definition is_exception (id : Z) : bool := id <? 32.
Definition enter (id : Z) (c : Core) : res unit Core :=
  if is_exception id
  then d ← AutoRefCount.increment (exception_depth c); Ok (mkCore (interrupt_depth c) d (world c))
  else d ← AutoRefCount.increment (interrupt_depth c); Ok (mkCore d (exception_depth c) (world c)).
Definition leave (id : Z) (c : Core) : res unit Core :=
  if is_exception id
  then d ← AutoRefCount.decrement (exception_depth c); Ok (mkCore (interrupt_depth c) d (world c))
  else d ← AutoRefCount.decrement (interrupt_depth c); Ok (mkCore d (exception_depth c) (world c)).
Definition with_world (w : W) (c : Core) : Core := mkCore (interrupt_depth c) (exception_depth c) w.

Definition interrupt_entry (id : Z) (interrupts : option Ints) (st : Statics) (c : Core) : res unit Core :=
  let idx := Z.to_nat id in
  c ← enter id c;
  precedent ← index (drain_precedence st) idx;
  '(handled, c) ←
    (if negb (draining_eois st) || precedent then
       ints ← unwrap interrupts;
       h ← index (dispatch ints) idx;
       match h with
       | Some handler => '(handled, w) ← call handler id (world c); Ok (handled, with_world w c)
       | None => Ok (false, c)
       end
     else Ok (false, c));
  required ← index (eoi_required st) idx;
  let c := if required : bool then with_world (eoi (world c)) c else c in
  if required && draining_eois st then leave id c
  else if handled : bool then leave id c
  else Panic.

End tables.
Arguments Ints : clear implicits.
End Interrupts.
