(* ===== verification/InterruptTables.v ===== *)
(** What the processor and the kernel find in the tables of Interrupts. *)
From Stdlib Require Import ZArith Lia.
From stdpp Require Import prelude list numbers gmap.
From S2P Require Import Prelude Packet Sync Interrupts.
Import Interrupts.

Ltac dlia := Z.to_euclidean_division_equations; lia.

(** * As the processor reads them *)
(** An interrupt gate of the IDT *)
Record Gate := mkGate { g_offset : Z; g_selector : Z; g_ist : Z; g_type : Z; g_dpl : Z; g_present : bool }.
Definition field (b : list Z) (i n : nat) : Z := le_val (take n (drop i b)).
Definition decode_gate (b : list Z) : Gate :=
  mkGate (field b 0 2 + 2 ^ 16 * field b 6 2 + 2 ^ 32 * field b 8 4) (field b 2 2) (field b 4 1 mod 8)
    (field b 5 1 mod 16) ((field b 5 1 / 32) mod 4) (Z.testbit (field b 5 1) 7).
Definition gate_at (idt : list Z) (v : nat) : Gate := decode_gate (take 16 (drop (16 * v) idt)).

(** A system descriptor of the GDT: two words *)
Record TssDesc := mkTssDesc { t_base : Z; t_limit : Z; t_type : Z; t_present : bool }.
Definition decode_tss (low high : Z) : TssDesc :=
  mkTssDesc ((low / 2 ^ 16) mod 2 ^ 24 + 2 ^ 24 * ((low / 2 ^ 56) mod 2 ^ 8) + 2 ^ 32 * (high mod 2 ^ 32))
    (low mod 2 ^ 16 + 2 ^ 16 * ((low / 2 ^ 48) mod 16)) ((low / 2 ^ 40) mod 32) (Z.testbit low 47).

Lemma attr_value typ dpl : 0 ≤ typ < 32 → 0 ≤ dpl < 4 →
  Z.lor (Z.lor (cast 8 (Z.shiftl dpl 5)) (Z.shiftl 1 7)) (cast 8 typ) = 128 + 32 * dpl + typ.
Proof.
  intros Ht Hd. unfold cast. rewrite !Z.shiftl_mul_pow2 by lia. rewrite !Z.mod_small by lia.
  rewrite (Z.lor_comm (dpl * 2 ^ 5)), (lor_low 1 7) by lia.
  replace (1 * 2 ^ 7 + dpl * 2 ^ 5) with ((4 + dpl) * 2 ^ 5) by lia. rewrite lor_low by lia. lia.
Qed.

Lemma entry_gate cs offset ist typ dpl : fits 16 cs → fits 64 offset → 0 ≤ ist < 8 → 0 ≤ typ < 16 → 0 ≤ dpl < 4 →
  ∃ e, IdtEntry_new cs offset ist typ dpl = Ok e ∧ length (entry_bytes e) = 16%nat ∧
    decode_gate (entry_bytes e) = mkGate offset cs ist typ dpl true.
Proof.
  intros Hcs Ho Hi Ht Hd. unfold IdtEntry_new, assert. rewrite !(proj2 (Z.ltb_lt _ _)) by lia. cbn [mbind res_bind].
  eexists. split; [reflexivity|]. rewrite attr_value by lia. split.
  { unfold entry_bytes. rewrite !length_app, !length_le_bytes. done. }
  unfold fits in *. unfold decode_gate, field, entry_bytes. cbn [offset_low selector Interrupts.ist type_attr offset_mid offset_high zero].
  change 0xFFFF with (2 ^ 16 - 1). change 0xFFFFFFFF with (2 ^ 32 - 1). rewrite !land_mask, !Z.shiftr_div_pow2 by lia.
  set (a := offset mod 2 ^ 16). set (b := (offset / 2 ^ 16) mod 2 ^ 16). set (c := (offset / 2 ^ 32) mod 2 ^ 32).
  assert (a + 2 ^ 16 * b + 2 ^ 32 * c = offset) as Hsum by (subst a b c; dlia).
  pose proof (le_val_bytes 2 a) as Ea. pose proof (le_val_bytes 2 b) as Eb. pose proof (le_val_bytes 4 c) as Ec.
  pose proof (le_val_bytes 2 cs) as Ecs. change (8 * Z.of_nat 2) with 16 in *. change (8 * Z.of_nat 4) with 32 in *.
  rewrite Z.mod_small in Ea, Eb, Ec, Ecs by (subst a b c; dlia).
  cbn [le_bytes app take drop] in *. rewrite Ea, Eb, Ec, Ecs, Hsum. cbn [le_val]. unfold cast. rewrite (Z.mod_small ist) by lia.
  f_equal; try dlia. apply Z.testbit_true; dlia.
Qed.

Lemma build_idt_ok cs handlers : ∀ id, fits 16 cs → Forall (fits 64) handlers →
  ∃ es, build_idt cs id handlers = Ok es ∧ length es = length handlers ∧
    ∀ v h, handlers !! v = Some h →
      gate_at (concat (entry_bytes <$> es)) v = mkGate h cs (ist_of (id + v)) X64_INTERRUPT_GATE 0 true.
Proof.
  induction handlers as [|h hs IH]; intros id Hcs Hh; cbn [build_idt].
  { exists []. split; [done|]. split; [done|]. intros v h Hv. done. }
  apply Forall_cons in Hh as [Hh Hhs]. destruct (entry_gate cs h (ist_of id) X64_INTERRUPT_GATE 0) as (e & -> & Hl & Hg);
    [done|done| |unfold X64_INTERRUPT_GATE; lia|lia|].
  { unfold ist_of. destruct (_ || _); lia. }
  destruct (IH (S id) Hcs Hhs) as (es & -> & Hlen & Hes). cbn [mbind res_bind]. exists (e :: es). split; [done|].
  split; [cbn; lia|]. intros [|v] h' Hv; cbn [fmap list_fmap concat].
  - injection Hv as <-. unfold gate_at. rewrite Nat.mul_0_r. rewrite drop_0, take_app_length', Hg by done.
    by rewrite Nat.add_0_r.
  - specialize (Hes v h' Hv). unfold gate_at in *.
    replace (16 * S v)%nat with (length (entry_bytes e) + 16 * v)%nat by lia.
    rewrite <-drop_drop, drop_app_length. change (list_fmap _ _ entry_bytes es) with (entry_bytes <$> es). rewrite Hes.
    do 2 f_equal. lia.
Qed.

Lemma tss_desc base limit : fits 64 base → 0 ≤ limit < 2 ^ 16 →
  let low := Z.lor (Z.lor (Z.lor 0x890000000000 (cast 64 (Z.shiftl (Z.land (Z.shiftr base 24) 0xFF) 56)))
    (cast 64 (Z.shiftl (Z.land base 0xFFFFFF) 16))) limit in
  decode_tss low (Z.shiftr base 32) = mkTssDesc base limit 9 true.
Proof.
  intros Hb Hl low. unfold fits in Hb.
  assert (low = ((base / 2 ^ 24) mod 2 ^ 8) * 2 ^ 56 + 137 * 2 ^ 40 + (base mod 2 ^ 24) * 2 ^ 16 + limit) as ->.
  { subst low. change 0xFF with (2 ^ 8 - 1). change 0xFFFFFF with (2 ^ 24 - 1). rewrite !land_mask, Z.shiftr_div_pow2 by lia.
    rewrite !Z.shiftl_mul_pow2 by lia. unfold cast. set (h := (base / 2 ^ 24) mod 2 ^ 8). set (m := base mod 2 ^ 24).
    assert (0 ≤ h < 2 ^ 8) by (subst h; dlia). assert (0 ≤ m < 2 ^ 24) by (subst m; dlia). clearbody h m.
    rewrite !Z.mod_small by lia. rewrite (Z.lor_comm _ (h * 2 ^ 56)), lor_low by lia.
    replace (h * 2 ^ 56 + 0x890000000000) with ((h * 2 ^ 16 + 137) * 2 ^ 40) by lia. rewrite lor_low by lia.
    replace ((h * 2 ^ 16 + 137) * 2 ^ 40 + m * 2 ^ 16) with (((h * 2 ^ 16 + 137) * 2 ^ 24 + m) * 2 ^ 16) by lia.
    rewrite lor_low by lia. lia. }
  unfold decode_tss. rewrite Z.shiftr_div_pow2 by lia.
  set (h := (base / 2 ^ 24) mod 2 ^ 8). set (m := base mod 2 ^ 24). set (g := base / 2 ^ 32).
  assert (m + 2 ^ 24 * h + 2 ^ 32 * g = base) as Hsum by (subst h m g; dlia).
  assert (0 ≤ h < 2 ^ 8) by (subst h; dlia). assert (0 ≤ m < 2 ^ 24) by (subst m; dlia). assert (0 ≤ g < 2 ^ 32) by (subst g; dlia).
  clearbody h m g. f_equal; try dlia. apply Z.testbit_true; dlia.
Qed.

Lemma store_ok {A} (l : list A) i x : (i < length l)%nat → store (E := unit) l i x = Ok (<[i := x]> l).
Proof. intros Hi. unfold store. by rewrite (proj2 (Nat.ltb_lt _ _) Hi). Qed.

Lemma Gdt_new_ok cs ds tss_addr stack :
  fits 16 cs → fits 16 ds → Z.shiftr cs 3 ≠ Z.shiftr ds 3 → Z.shiftr cs 3 ≠ 0 → fits 64 tss_addr → 0 ≤ stack →
  stack + CRIT_STACK < 2 ^ 64 →
  ∃ gdt tss entry, Gdt_new cs ds tss_addr stack = Ok (gdt, tss, entry) ∧
    zlen gdt = Z.max (Z.shiftr cs 3) (Z.shiftr ds 3) + 3 ∧
    gdt !! Z.to_nat (Z.shiftr cs 3) = Some CODE64 ∧ gdt !! Z.to_nat (Z.shiftr ds 3) = Some DATA64 ∧
    tss_ist tss !! 0%nat = Some (stack + CRIT_STACK) ∧
    ∃ low high, gdt !! (length gdt - 2)%nat = Some low ∧ gdt !! (length gdt - 1)%nat = Some high ∧
      entry = cast 16 (8 * Z.of_nat (length gdt - 2)) ∧ decode_tss low high = mkTssDesc tss_addr (TSS_SIZE - 1) 9 true.
Proof.
  intros Hcs Hds Hne Hn0 Ht Hs0 Hs. unfold Gdt_new, get_selector_indices, assert.
  rewrite (proj2 (Z.eqb_neq _ _) Hne), (proj2 (Z.eqb_neq _ _) Hn0). cbn [negb mbind res_bind].
  rewrite (Z.shiftr_div_pow2 cs 3), (Z.shiftr_div_pow2 ds 3) in * by lia. set (c := cs / 2 ^ 3) in *. set (d := ds / 2 ^ 3) in *.
  assert (0 ≤ c < 2 ^ 13 ∧ 0 ≤ d < 2 ^ 13) as [Hc Hd] by (unfold fits in *; subst c d; dlia). clearbody c d.
  set (n := Z.to_nat (Z.max c d + 1)). assert (Z.to_nat c < n ∧ Z.to_nat d < n)%nat as [Hcn Hdn] by lia.
  assert (Z.of_nat n = Z.max c d + 1) as Hn by lia. clearbody n.
  rewrite store_ok by (rewrite length_replicate; lia). cbn [mbind res_bind].
  rewrite store_ok by (rewrite length_insert, length_replicate; lia). cbn [mbind res_bind].
  rewrite add_Ok by lia. cbn [mbind res_bind].
  rewrite store_ok by (cbn; lia). cbn [mbind res_bind].
  pose proof (tss_desc tss_addr (TSS_SIZE - 1) Ht ltac:(unfold TSS_SIZE; lia)) as Hdec. cbv zeta in Hdec.
  set (low := Z.lor _ (TSS_SIZE - 1)) in *. set (high := Z.shiftr tss_addr 32) in *. clearbody low high.
  set (g := <[Z.to_nat d := DATA64]> (<[Z.to_nat c := CODE64]> (replicate n 0))).
  assert (length g = n) as Hg by (subst g; by rewrite !length_insert, length_replicate).
  eexists _, _, _. split; [reflexivity|]. unfold zlen at 1. rewrite length_app, Hg. cbn [length]. split_and!; [lia|..].
  - rewrite lookup_app_l by lia. subst g. rewrite list_lookup_insert_ne by lia.
    by rewrite list_lookup_insert_eq by (rewrite length_replicate; lia).
  - rewrite lookup_app_l by lia. subst g. by rewrite list_lookup_insert_eq by (rewrite length_insert, length_replicate; lia).
  - done.
  - replace (n + 2 - 2)%nat with (length g + 0)%nat by lia. replace (n + 2 - 1)%nat with (length g + 1)%nat by lia.
    rewrite !lookup_app_r by lia. rewrite !Nat.add_sub_swap, !Nat.sub_diag by lia. cbn [Nat.add lookup list_lookup].
    eexists _, _. split; [reflexivity|]. split; [reflexivity|]. split; [unfold zlen; f_equal; lia|].
    exact Hdec.
Qed.

Lemma register_ok {H} (ints : Ints H) st id h e : length (dispatch ints) = 256%nat → length (eoi_required st) = 256%nat →
  register id h e (ints, st) =
    if bool_decide (20 ≤ as_u8 id ≤ 31 ∨ is_Some (default None (dispatch ints !! Z.to_nat (as_u8 id)))) then Panic
    else Ok (mkInts (<[Z.to_nat (as_u8 id) := Some h]> (dispatch ints)) (tss ints) (idt ints) (gdt ints),
      mkStatics (<[Z.to_nat (as_u8 id) := e]> (eoi_required st)) (draining_eois st) (drain_precedence st)).
Proof.
  intros Hd He. assert (0 ≤ as_u8 id < 256) as Hr by (destruct id; cbn; lia). unfold register, assert.
  destruct (lookup_lt_is_Some_2 (dispatch ints) (Z.to_nat (as_u8 id))) as [o Ho]; [lia|].
  rewrite Ho. cbn [default from_option]. change (as_u8 Reserved) with 20. change (as_u8 LastReserved) with 31.
  destruct (_ || _) eqn:E; cbn [mbind res_bind].
  - rewrite (index_lookup _ _ _ Ho). cbn [mbind res_bind]. destruct o as [h'|]; cbn [mbind res_bind].
    + rewrite bool_decide_true; [done|]. right. by eexists.
    + rewrite bool_decide_false by (apply orb_true_iff in E; rewrite !Z.ltb_lt in E; intros [?|[? ?]]; [lia|done]).
      rewrite !store_ok by lia. done.
  - apply orb_false_iff in E. rewrite !Z.ltb_ge in E. rewrite bool_decide_true; [done|]. left. lia.
Qed.

(** The tables [init] builds say to the processor what they should: every vector's
    gate leads to its own stub in the running code segment, present, for the kernel,
    with the critical stack for NMI, double fault and machine check only; the
    descriptors of the running segments stay in place, and the TSS descriptor names
    the TSS, whose first interrupt stack is the top of the critical stack.  The two
    handlers of the kernel are registered with precedence. *)
Theorem processor_tables_correct {H} cs ds tss_addr stack handlers (nmi page_fault : H) st :
  fits 16 cs → fits 16 ds → Z.shiftr cs 3 ≠ Z.shiftr ds 3 → Z.shiftr cs 3 ≠ 0 → fits 64 tss_addr → 0 ≤ stack →
  stack + CRIT_STACK < 2 ^ 64 → length handlers = 256%nat → Forall (fits 64) handlers →
  Z.max (Z.shiftr cs 3) (Z.shiftr ds 3) ≠ 8189 →
  length (eoi_required st) = 256%nat → length (drain_precedence st) = 256%nat →
  ∃ ints st', init cs ds tss_addr stack handlers nmi page_fault st None = Ok (ints, st') ∧
    (∀ v h, handlers !! v = Some h →
       gate_at (concat (entry_bytes <$> idt ints)) v =
         mkGate h (cs - cs mod 8) (if decide (v ∈ [2; 8; 18]%nat) then 1 else 0) 0xE 0 true) ∧
    gdt ints !! Z.to_nat (Z.shiftr cs 3) = Some CODE64 ∧ gdt ints !! Z.to_nat (Z.shiftr ds 3) = Some DATA64 ∧
    (∃ low high entry, gdt ints !! (length (gdt ints) - 2)%nat = Some low ∧ gdt ints !! (length (gdt ints) - 1)%nat = Some high ∧
       Gdt_new cs ds tss_addr stack = Ok (gdt ints, tss ints, entry) ∧
       entry = cast 16 (8 * Z.of_nat (length (gdt ints) - 2)) ∧ decode_tss low high = mkTssDesc tss_addr 103 9 true) ∧
    tss_ist (tss ints) !! 0%nat = Some (stack + CRIT_STACK) ∧
    dispatch ints = <[14%nat := Some page_fault]> (<[2%nat := Some nmi]> (replicate 256 None)) ∧
    drain_precedence st' = <[14%nat := true]> (<[2%nat := true]> (drain_precedence st)).
Proof.
  intros Hcs Hds Hne Hn0 Ht Hs0 Hs Hl Hh Hmax He Hp.
  destruct (Gdt_new_ok cs ds tss_addr stack) as (g & t & entry & Eg & Hlen & Hgc & Hgd & Hti & low & high & Hlo & Hhi & Hent & Hdec);
    [done..|].
  set (csel := cast 16 (Z.shiftr cs 3 * 8)).
  assert (csel = cs - cs mod 8) as Hcsel.
  { subst csel. unfold cast, fits in *. rewrite Z.shiftr_div_pow2 by lia. change (2 ^ 3) with 8. rewrite Z.mod_small; dlia. }
  destruct (build_idt_ok csel handlers 0) as (es & Ees & Hel & Hes); [unfold fits, csel, cast; dlia|done|].
  assert (∀ x, 1 ≤ x → x ≠ 8192 → x ≤ 8194 → 1 ≤ cast 16 (x * 8)) as Hlim by (intros x ???; unfold cast; dlia).
  assert (0 ≤ Z.shiftr cs 3 < 2 ^ 13 ∧ 0 ≤ Z.shiftr ds 3 < 2 ^ 13) as [? ?].
  { unfold fits in *. rewrite !Z.shiftr_div_pow2 by lia. dlia. }
  set (ints0 := mkInts (replicate 256 None) t es g : Ints H).
  assert (length (dispatch ints0) = 256%nat) as Hd0 by done.
  eexists _, _. split.
  { unfold init, assert. cbn [mbind res_bind]. rewrite Eg. cbn [mbind res_bind]. rewrite sub_Ok by (apply Hlim; lia).
    cbn [mbind res_bind get_selector_indices fst]. fold csel. rewrite Ees. cbn [mbind res_bind].
    unfold zlen. rewrite Hel, Hl. cbn [Z.eqb Pos.eqb Z.mul Z.of_nat Pos.of_succ_nat Pos.succ Pos.mul Pos.add mbind res_bind].
    fold ints0. unfold register_precedent. rewrite (register_ok ints0 st) by done.
    rewrite bool_decide_false by (intros [?|[? ?]]; [cbn in *; lia|done]). cbn [mbind res_bind drain_precedence].
    rewrite store_ok by (rewrite Hp; cbn; lia). cbn [mbind res_bind].
    rewrite register_ok by (cbn [dispatch eoi_required]; rewrite length_insert; done).
    rewrite bool_decide_false by (intros [?|[? ?]]; [cbn in *; lia|done]). cbn [mbind res_bind drain_precedence].
    rewrite store_ok by (rewrite length_insert, Hp; cbn; lia). reflexivity. }
  cbn [idt gdt tss dispatch drain_precedence ints0]. split_and!; try done.
  - intros v h Hv. rewrite (Hes v h Hv), Hcsel. unfold ist_of. cbn [Nat.add]. f_equal.
    destruct (decide _) as [Hin|Hin].
    + rewrite !elem_of_cons, elem_of_nil in Hin. destruct Hin as [->|[->|[->|[]]]]; done.
    + rewrite !(proj2 (Nat.eqb_neq _ _)) by (intros ->; set_solver). done.
  - exists low, high, entry. done.
Qed.

(** * As the kernel uses them *)
(** ** The mask of vectors that need an EOI *)
Lemma mask_word e n k : (n < 128)%nat → (k < 128)%nat →
  Z.testbit (cast 128 (Z.shiftl (if e : bool then 1 else 0) (Z.of_nat n))) (Z.of_nat k) = e && (n =? k)%nat.
Proof.
  intros Hn Hk. unfold cast. rewrite Z.mod_pow2_bits_low by lia. destruct e; [|by rewrite Z.shiftl_0_l, Z.bits_0].
  rewrite Z.shiftl_1_l. destruct (Nat.eqb_spec n k) as [->|Hne]; [by rewrite Z.pow2_bits_true by lia|].
  by rewrite Z.pow2_bits_false by lia.
Qed.
Definition mask_at (m : Z * Z) (v : nat) : bool := Z.testbit (if (v <? 128)%nat then m.1 else m.2) (Z.of_nat (v mod 128)).

Lemma mask_bits l : (length l ≤ 256)%nat → ∀ v, (v < 256)%nat →
  mask_at (foldl mask_bit (0, 0) (imap pair l)) v = default false (l !! v).
Proof.
  induction l as [|e l IH] using rev_ind; intros Hl v Hv.
  { unfold mask_at. cbn [imap foldl fst snd]. destruct (v <? 128)%nat; by rewrite Z.bits_0. }
  rewrite length_app in Hl. cbn [length] in Hl. specialize (IH ltac:(lia) v Hv).
  rewrite imap_app, foldl_app. cbn [imap foldl]. rewrite Nat.add_0_r.
  set (m := foldl mask_bit (0, 0) (imap pair l)) in *.
  assert (mask_at (mask_bit m (length l, e)) v = mask_at m v || (e && (length l =? v)%nat)) as ->.
  { unfold mask_at, mask_bit. cbn [fst snd]. set (n := length l) in *.
    assert (n mod 128 < 128 ∧ v mod 128 < 128)%nat as [? ?] by (split; apply Nat.mod_upper_bound; lia).
    destruct (Nat.eqb_spec (n / 128) 0) as [En|En]; destruct (Nat.ltb_spec v 128) as [Hv1|Hv1]; cbn [fst snd].
    - rewrite Z.lor_spec, mask_word by done. f_equal. f_equal. rewrite (Nat.mod_small v) by lia. apply Nat.div_small_iff in En; [|lia].
      by rewrite Nat.mod_small by lia.
    - apply Nat.div_small_iff in En; [|lia]. rewrite (proj2 (Nat.eqb_neq n v)) by lia. by rewrite andb_false_r, orb_false_r.
    - assert (128 ≤ n)%nat by (destruct (decide (n < 128)%nat) as [Hs|]; [by rewrite Nat.div_small in En|lia]).
      rewrite (proj2 (Nat.eqb_neq n v)) by lia. by rewrite andb_false_r, orb_false_r.
    - assert (128 ≤ n)%nat by (destruct (decide (n < 128)%nat) as [Hs|]; [by rewrite Nat.div_small in En|lia]).
      rewrite Z.lor_spec, mask_word by done. do 2 f_equal. 
      assert (n mod 128 = n - 128 ∧ v mod 128 = v - 128)%nat as [-> ->] by (split; symmetry; apply (Nat.mod_unique _ _ 1); lia).
      destruct (Nat.eqb_spec (n - 128) (v - 128)), (Nat.eqb_spec n v); done || lia. }
  rewrite IH. destruct (Nat.eqb_spec (length l) v) as [<-|Hne].
  - rewrite list_lookup_middle by done. rewrite lookup_ge_None_2 by lia. by destruct e.
  - rewrite andb_false_r, orb_false_r. destruct (decide (v < length l)%nat); [by rewrite lookup_app_l|].
    by rewrite !lookup_ge_None_2 by (rewrite ?length_app; cbn; lia).
Qed.

(** ** Registered handlers

    The handlers belong to a core, what is said about EOIs and precedence to all of
    them.  A history of the calls, the last one first, says what is registered. *)
Section handlers.
Context {H W : Type} (call : H → Z → W → res unit (bool * W)) (eoi : W → W).

Inductive Op :=
| Register (c : Z) (id : InterruptId) (h : H) (e : bool)
| RegisterPrecedent (c : Z) (id : InterruptId) (h : H) (e : bool)
| Unregister (c : Z) (id : InterruptId)
| Drain.

Definition Tables : Type := gmap Z (Ints H) * Statics.
Definition on_core (c : Z) (f : Ints H * Statics → res unit (Ints H * Statics)) (s : Tables) : res unit Tables :=
  ints ← unwrap (s.1 !! c);
  '(ints, st) ← f (ints, s.2);
  Ok (<[c := ints]> s.1, st).
Definition apply_op (op : Op) (s : Tables) : res unit Tables :=
  match op with
  | Register c id h e => on_core c (register id h e) s
  | RegisterPrecedent c id h e => on_core c (register_precedent id h e) s
  | Unregister c id => on_core c (unregister id) s
  | Drain => Ok (s.1, mkStatics (eoi_required s.2) true (drain_precedence s.2))
  end.

(** What a history says *)
Fixpoint handler_of (c v : Z) (hist : list Op) : option H :=
  match hist with
  | [] => None
  | Register c' id h _ :: hist | RegisterPrecedent c' id h _ :: hist =>
      if (c' =? c) && (as_u8 id =? v) then Some h else handler_of c v hist
  | Unregister c' id :: hist => if (c' =? c) && (as_u8 id =? v) then None else handler_of c v hist
  | Drain :: hist => handler_of c v hist
  end.
Fixpoint eoi_of (v : Z) (hist : list Op) : bool :=
  match hist with
  | [] => false
  | Register _ id _ e :: hist | RegisterPrecedent _ id _ e :: hist => if as_u8 id =? v then e else eoi_of v hist
  | Unregister _ id :: hist => if as_u8 id =? v then false else eoi_of v hist
  | Drain :: hist => eoi_of v hist
  end.
Definition precedence_of (v : Z) (hist : list Op) : bool :=
  existsb (λ op, match op with RegisterPrecedent _ id _ _ => as_u8 id =? v | _ => false end) hist.
Definition draining (hist : list Op) : bool := existsb (λ op, match op with Drain => true | _ => false end) hist.

(** Cores that have been set up, before anything is registered *)
Definition fresh (s : Tables) : Prop :=
  s.2 = Statics_new ∧ ∀ c ints, s.1 !! c = Some ints → dispatch ints = replicate 256 None.
Inductive reached : list Op → Tables → Prop :=
| reached_fresh s : fresh s → reached [] s
| reached_op hist s op s' : reached hist s → apply_op op s = Ok s' → reached (op :: hist) s'.

Record says (hist : list Op) (s : Tables) : Prop := {
  sy_core c ints : s.1 !! c = Some ints →
    length (dispatch ints) = 256%nat ∧ ∀ v, 0 ≤ v < 256 → dispatch ints !! Z.to_nat v = Some (handler_of c v hist);
  sy_eoi : length (eoi_required s.2) = 256%nat ∧ ∀ v, 0 ≤ v < 256 → eoi_required s.2 !! Z.to_nat v = Some (eoi_of v hist);
  sy_prec : length (drain_precedence s.2) = 256%nat ∧
    ∀ v, 0 ≤ v < 256 → drain_precedence s.2 !! Z.to_nat v = Some (precedence_of v hist);
  sy_drain : draining_eois s.2 = draining hist;
}.

Lemma vector_range id : 0 ≤ as_u8 id < 256.
Proof. destruct id; cbn; lia. Qed.
Lemma store_at {A} (l : list A) n (f : Z → A) x : length l = 256%nat → 0 ≤ n < 256 →
  (∀ v, 0 ≤ v < 256 → l !! Z.to_nat v = Some (f v)) →
  length (<[Z.to_nat n := x]> l) = 256%nat ∧
  ∀ v, 0 ≤ v < 256 → <[Z.to_nat n := x]> l !! Z.to_nat v = Some (if n =? v then x else f v).
Proof.
  intros Hl Hn Hf. split; [by rewrite length_insert|]. intros v Hv. destruct (Z.eqb_spec n v) as [->|Hne].
  - by rewrite list_lookup_insert_eq by lia.
  - rewrite list_lookup_insert_ne by lia. by apply Hf.
Qed.

Lemma fresh_says s : fresh s → says [] s.
Proof.
  intros [Hst Hc]. split.
  - intros c ints Hi. rewrite (Hc _ _ Hi). split; [done|]. intros v Hv. apply lookup_replicate_2. lia.
  - rewrite Hst. split; [done|]. intros v Hv. apply lookup_replicate_2. lia.
  - rewrite Hst. split; [done|]. intros v Hv. apply lookup_replicate_2. lia.
  - by rewrite Hst.
Qed.

(** A call on a core that has the tables it should have *)
Lemma core_says hist op s c ints d r p id oh e :
  says hist s → s.1 !! c = Some ints →
  d = <[Z.to_nat (as_u8 id) := oh]> (dispatch ints) → r = <[Z.to_nat (as_u8 id) := e]> (eoi_required s.2) →
  (length p = 256%nat ∧ ∀ v, 0 ≤ v < 256 → p !! Z.to_nat v = Some (precedence_of v (op :: hist))) →
  (∀ c' v, handler_of c' v (op :: hist) = if (c =? c') && (as_u8 id =? v) then oh else handler_of c' v hist) →
  (∀ v, eoi_of v (op :: hist) = if as_u8 id =? v then e else eoi_of v hist) → draining (op :: hist) = draining hist →
  says (op :: hist) (<[c := mkInts d (tss ints) (idt ints) (gdt ints)]> s.1, mkStatics r (draining_eois s.2) p).
Proof.
  intros Hs Hc -> -> Hp Hh He Hd. pose proof (vector_range id) as Hid. split; cbn [fst snd eoi_required drain_precedence draining_eois].
  - intros c' ints' Hc'. destruct (decide (c' = c)) as [->|Hne].
    + rewrite lookup_insert_eq in Hc'. injection Hc' as <-. cbn [dispatch]. destruct (sy_core _ _ Hs _ _ Hc) as [Hl Hv].
      destruct (store_at _ _ _ oh Hl Hid Hv) as [? Hst]. split; [done|]. intros v Hr. rewrite Hst, Hh by done. by rewrite Z.eqb_refl.
    + rewrite lookup_insert_ne in Hc' by done. destruct (sy_core _ _ Hs _ _ Hc') as [Hl Hv]. split; [done|].
      intros v Hr. rewrite Hh, (proj2 (Z.eqb_neq c c')) by done. by apply Hv.
  - destruct (sy_eoi _ _ Hs) as [Hl Hv]. destruct (store_at _ _ _ e Hl Hid Hv) as [? Hst]. split; [done|].
    intros v Hr. by rewrite Hst, He.
  - done.
  - rewrite Hd. apply (sy_drain _ _ Hs).
Qed.

Definition free (hist : list Op) (c : Z) (id : InterruptId) : Prop :=
  ¬ 20 ≤ as_u8 id ≤ 31 ∧ handler_of c (as_u8 id) hist = None.

Lemma register_says hist s c ints id h e : says hist s → s.1 !! c = Some ints →
  (register id h e (ints, s.2) = Panic ∧ ¬ free hist c id) ∨
  (free hist c id ∧ register id h e (ints, s.2) =
    Ok (mkInts (<[Z.to_nat (as_u8 id) := Some h]> (dispatch ints)) (tss ints) (idt ints) (gdt ints),
      mkStatics (<[Z.to_nat (as_u8 id) := e]> (eoi_required s.2)) (draining_eois s.2) (drain_precedence s.2))).
Proof.
  intros Hs Hc. pose proof (vector_range id) as Hid. destruct (sy_core _ _ Hs _ _ Hc) as [Hl Hv].
  rewrite register_ok by (done || apply (sy_eoi _ _ Hs)). rewrite (Hv _ Hid). cbn [default from_option Datatypes.id]. unfold free.
  case_bool_decide as Hb.
  - left. split; [done|]. intros [H1 H2]. destruct Hb as [?|[? Hb]]; [done|]. congruence.
  - right. split; [|done]. split; [tauto|]. destruct (handler_of _ _ _); [exfalso; apply Hb; right; by eexists|done].
Qed.

Lemma apply_says hist op s s' : says hist s → apply_op op s = Ok s' → says (op :: hist) s'.
Proof.
  intros Hs Ha. pose proof (sy_prec _ _ Hs) as Hp. destruct op as [c id h e|c id h e|c id|]; cbn [apply_op] in Ha.
  - unfold on_core in Ha. destruct (s.1 !! c) as [ints|] eqn:Hc; [|done]. cbn [unwrap mbind res_bind] in Ha.
    destruct (register_says hist s c ints id h e Hs Hc) as [[E _]|[_ E]]; rewrite E in Ha; [done|]. injection Ha as <-.
    by eapply (core_says hist _ s c ints).
  - unfold on_core in Ha. destruct (s.1 !! c) as [ints|] eqn:Hc; [|done]. cbn [unwrap mbind res_bind] in Ha.
    unfold register_precedent in Ha.
    destruct (register_says hist s c ints id h e Hs Hc) as [[E _]|[_ E]]; rewrite E in Ha; [done|].
    cbn [mbind res_bind drain_precedence] in Ha. pose proof (vector_range id) as Hid.
    rewrite store_ok in Ha by (destruct Hp; lia). cbn [mbind res_bind eoi_required draining_eois] in Ha. injection Ha as <-.
    eapply (core_says hist _ s c ints); try done. destruct Hp as [Hl Hv]. destruct (store_at _ _ _ true Hl Hid Hv) as [? Hst].
    split; [done|]. intros v Hr. rewrite Hst by done. cbn [precedence_of existsb]. by destruct (as_u8 id =? v).
  - unfold on_core in Ha. destruct (s.1 !! c) as [ints|] eqn:Hc; [|done]. cbn [unwrap mbind res_bind] in Ha.
    unfold unregister in Ha. pose proof (vector_range id) as Hid. destruct (sy_core _ _ Hs _ _ Hc) as [Hl _]. destruct (sy_eoi _ _ Hs) as [Hl' _].
    rewrite !store_ok in Ha by lia. cbn [mbind res_bind] in Ha.
    injection Ha as <-. by eapply (core_says hist _ s c ints).
  - injection Ha as <-. destruct Hs as [H1 H2 H3 H4]. by split.
Qed.

Lemma reached_says hist s : reached hist s → says hist s.
Proof. induction 1; [by apply fresh_says|by eapply apply_says]. Qed.

(** What an interrupt of a vector does, by the history *)
Definition served (hist : list Op) (c v : Z) : option H :=
  if negb (draining hist) || precedence_of v hist then handler_of c v hist else None.
Definition acked (hist : list Op) (v : Z) (w : W) : W := if eoi_of v hist then eoi w else w.
Definition entry_spec (hist : list Op) (c v : Z) (w : W) : res unit W :=
  '(handled, w) ← match served hist c v with Some h => call h v w | None => Ok (false, w) end;
  if (handled : bool) || (eoi_of v hist && draining hist) then Ok (acked hist v w) else Panic.

Lemma with_world_twice (w w' : W) k : with_world w (with_world w' k) = with_world w k.
Proof. done. Qed.
Lemma world_with (w : W) k : world (with_world w k) = w.
Proof. done. Qed.
Lemma enter_leave v (k : Core) : 0 ≤ interrupt_depth k < 2 ^ 64 - 1 → 0 ≤ exception_depth k < 2 ^ 64 - 1 →
  ∃ k', enter v k = Ok k' ∧ world k' = world k ∧ ∀ w : W, leave v (with_world w k') = Ok (with_world w k).
Proof.
  intros Hi He. unfold enter, leave, AutoRefCount.increment, AutoRefCount.decrement, fetch_add, fetch_sub, wrapping_add, wrapping_sub.
  destruct (is_exception v); cbn; unfold checked_add, checked_sub;
    (rewrite (proj2 (Z.ltb_lt _ _)) by lia); cbn [unwrap mbind res_bind]; eexists; (split; [reflexivity|]); (split; [done|]);
    intros w; cbn [exception_depth interrupt_depth with_world world]; rewrite (Z.mod_small (_ + 1)) by lia;
    (rewrite (proj2 (Z.leb_le _ _)) by lia); cbn [unwrap mbind res_bind]; unfold with_world; cbn; repeat f_equal;
    rewrite Z.mod_small by lia; lia.
Qed.

(** C26. The tables of handlers, whatever calls were made on whatever cores: a
    registration succeeds exactly for a vector that is neither reserved nor taken on
    that core; the mask holds exactly the vectors whose last registration wanted an
    EOI; an interrupt runs the handler last registered on its core, or none while
    EOIs are drained and the vector was never given precedence, acknowledges it
    exactly if wanted, counts itself in and out, and panics exactly if nobody
    handled it and no drained EOI was wanted. *)
Theorem interrupts_correct hist s : reached hist s →
  (∀ c ints id h e, s.1 !! c = Some ints → (∃ s', apply_op (Register c id h e) s = Ok s') ↔ free hist c id) ∧
  (∀ v, 0 ≤ v < 256 → mask_at (eoi_bitmask s.2) (Z.to_nat v) = eoi_of v hist) ∧
  (∀ c ints v k, s.1 !! c = Some ints → 0 ≤ v < 256 → 0 ≤ interrupt_depth k < 2 ^ 64 - 1 → 0 ≤ exception_depth k < 2 ^ 64 - 1 →
     interrupt_entry call eoi v (Some ints) s.2 k = (w ← entry_spec hist c v (world k); Ok (with_world w k))).
Proof.
  intros Hr%reached_says. split_and!.
  - intros c ints id h e Hc. cbn [apply_op]. unfold on_core. rewrite Hc. cbn [unwrap mbind res_bind].
    destruct (register_says hist s c ints id h e Hr Hc) as [[-> Hn]|[Hf ->]]; cbn [mbind res_bind].
    + split; [by intros [? ?]|done].
    + split; [done|]. intros _. by eexists.
  - intros v Hv. destruct (sy_eoi _ _ Hr) as [Hl He]. unfold eoi_bitmask. rewrite mask_bits by lia. by rewrite He.
  - intros c ints v k Hc Hv Hi He. unfold interrupt_entry. destruct (enter_leave v k Hi He) as (k' & -> & Hw & Hlv). cbn [mbind res_bind].
    destruct (sy_prec _ _ Hr) as [_ Hp]. destruct (sy_eoi _ _ Hr) as [_ Heoi]. destruct (sy_core _ _ Hr _ _ Hc) as [_ Hd].
    rewrite (index_lookup _ _ _ (Hp v Hv)). cbn [mbind res_bind]. rewrite (sy_drain _ _ Hr). unfold entry_spec, served.
    rewrite (index_lookup _ _ _ (Heoi v Hv)).
    assert (k' = with_world (world k) k') as Ek by (unfold with_world; rewrite <-Hw; by destruct k').
    destruct (negb (draining hist) || precedence_of v hist); cbn [unwrap mbind res_bind].
    + rewrite (index_lookup _ _ _ (Hd v Hv)). cbn [mbind res_bind]. destruct (handler_of c v hist) as [h|]; cbn [mbind res_bind].
      * rewrite Hw. destruct (call h v (world k)) as [[handled w]| | |]; cbn [mbind res_bind]; try done. unfold acked.
        destruct (eoi_of v hist), (draining hist), handled; cbn [andb orb mbind res_bind]; try done; rewrite ?with_world_twice, ?world_with; apply Hlv.
      * unfold acked. rewrite Ek.
        destruct (eoi_of v hist), (draining hist); cbn [andb orb mbind res_bind]; try done; rewrite ?with_world_twice, ?world_with; apply Hlv.
    + unfold acked. rewrite Ek.
      destruct (eoi_of v hist), (draining hist); cbn [andb orb mbind res_bind]; try done; rewrite ?with_world_twice, ?world_with; apply Hlv.
Qed.
End handlers.

(** * A core with a timer *)
Module SampleInterrupts.

Definition stubs : list Z := (λ i, 0x200000 + 16 * i) <$> seqZ 0 256.
Lemma stubs_fit : Forall (fits 64) stubs.
Proof.
  apply Forall_fmap, Forall_seqZ. intros i Hi. unfold fits, compose. lia.
Qed.

Lemma processor_tables_correct_witness :
  ∃ ints st', init 0x38 0x30 0x123456789000 0x80000 stubs 1%nat 2%nat Statics_new None = Ok (ints, st') ∧
    gate_at (concat (entry_bytes <$> idt ints)) 8 = mkGate 0x200080 0x38 1 0xE 0 true ∧
    dispatch ints !! 14%nat = Some (Some 2%nat).
Proof.
  destruct (processor_tables_correct 0x38 0x30 0x123456789000 0x80000 stubs 1%nat 2%nat Statics_new)
    as (ints & st' & Hi & Hg & _ & _ & _ & _ & Hd & _);
    [unfold fits; lia|unfold fits; lia|done|done|unfold fits; lia|lia|vm_compute; done|done|exact stubs_fit|done|done|done|].
  exists ints, st'. split; [exact Hi|]. split; [exact (Hg 8%nat 0x200080 eq_refl)|]. by rewrite Hd.
Defined.

(** Handlers are numbers, the world is the trace of what was done. *)
Definition call (h : nat) (v : Z) (w : list Z) : res unit (bool * list Z) := Ok (negb (h =? 0)%nat, w ++ [v]).
Definition eoi (w : list Z) : list Z := w ++ [-1].
Definition core0 : Ints nat := mkInts (replicate 256 None) Tss_default [] [].
Definition tables0 : Tables := ({[0 := core0]}, Statics_new).
Definition history : list (@Op nat) := [Drain; Register 0 SoftRebootTimer 7%nat true; RegisterPrecedent 0 PageFault 0%nat false].
Definition tables : Tables :=
  match (s ← apply_op (RegisterPrecedent 0 PageFault 0%nat false) tables0; s ← apply_op (Register 0 SoftRebootTimer 7%nat true) s;
         apply_op Drain s) with Ok s => s | _ => tables0 end.
Lemma tables_reached : reached history tables.
Proof.
  eapply reached_op; [eapply reached_op; [eapply reached_op; [apply (reached_fresh tables0)|reflexivity]|reflexivity]|reflexivity].
  split; [done|]. intros c ints. cbn [fst tables0]. rewrite lookup_singleton_Some. by intros [_ <-].
Qed.

Lemma interrupts_correct_witness :
  mask_at (eoi_bitmask tables.2) 32 = true ∧
  ∃ ints, tables.1 !! 0 = Some ints ∧
    interrupt_entry call eoi 32 (Some ints) tables.2 (mkCore 0 0 [5]) = Ok (mkCore 0 0 [5; -1]) ∧
    interrupt_entry call eoi 14 (Some ints) tables.2 (mkCore 0 0 [5]) = Panic.
Proof.
  destruct (interrupts_correct call eoi history tables tables_reached) as (_ & Hm & He).
  split; [exact (Hm 32 ltac:(lia))|]. eexists. split; [reflexivity|]. split.
  - rewrite (He 0 _ 32 (mkCore 0 0 [5])); [reflexivity|reflexivity|lia|cbn; lia|cbn; lia].
  - rewrite (He 0 _ 14 (mkCore 0 0 [5])); [reflexivity|reflexivity|lia|cbn; lia|cbn; lia].
Defined.

End SampleInterrupts.
