(* ===== verification/InterruptStubs.v ===== *)
(** The entry stubs of interrupts: kernel/src/interrupts/definitions.rs.

    The assembly is a list of instructions over registers and memory; a memory cell is
    the quadword at an address.  The Rust function the stubs call is a parameter that
    keeps the System V calling convention ([SysV]). *)
From Stdlib Require Import ZArith Lia.
From stdpp Require Import prelude list numbers.
From S2P Require Import Prelude.

Module Stubs.

Inductive reg := RAX | RBX | RCX | RDX | RSI | RDI | RBP | RSP | R8 | R9 | R10 | R11 | R12 | R13 | R14 | R15.
#[global] Instance reg_eq_dec : EqDecision reg.
Proof. solve_decision. Defined.

Definition upd {K} `{EqDecision K} (f : K → Z) (k : K) (v : Z) : K → Z := λ k', if decide (k' = k) then v else f k'.
(** What the frame of an interrupt holds besides the stack pointer *)
Record Ctl := mkCtl { rip : Z; cs : Z; rflags : Z; ss : Z }.
Record St := mkSt { g : reg → Z; x : nat → Z; m : Z → Z; ctl : Ctl }.
Definition set_g (r : reg) (v : Z) (s : St) : St := mkSt (upd (g s) r v) (x s) (m s) (ctl s).
Definition set_x (n : nat) (v : Z) (s : St) : St := mkSt (g s) (upd (x s) n v) (m s) (ctl s).
Definition wr (a v : Z) (s : St) : St := mkSt (g s) (x s) (upd (m s) a v) (ctl s).
Definition set_rip (a : Z) (s : St) : St := mkSt (g s) (x s) (m s) (mkCtl a (cs (ctl s)) (rflags (ctl s)) (ss (ctl s))).

Inductive instr :=
| PUSH (r : reg) | POP (r : reg)
| PUSHM (b : reg) (off : Z) | POPM (b : reg) (off : Z)        (* [push/pop qword ptr [b + off]] *)
| MOVDQU_ST (n : nat) | MOVDQU_LD (n : nat)                   (* [movdqu [rsp], xmm] and back *)
| MOV (r r' : reg) | MOVI (r : reg) (v : Z) | MOVM (r b : reg) (off : Z) | LEA (r b : reg) (off : Z)
| ADDI (r : reg) (v : Z) | SUBI (r : reg) (v : Z) | ANDI (r : reg) (v : Z)
| CALL (ret : Z)                                              (* [ret]: the address behind the call *)
| CALL_RUST (ret : Z)                                         (* [call interrupt_entry] *)
| RET | IRETQ.

Section machine.
Context (rust : St → St).

Definition push (v : Z) (s : St) : St :=
  let sp := wrapping_sub 64 (g s RSP) 8 in wr sp v (set_g RSP sp s).
Definition popped (s : St) : Z := m s (g s RSP).
Definition drop_top (s : St) : St := set_g RSP (wrapping_add 64 (g s RSP) 8) s.

Definition exec (i : instr) (s : St) : St :=
  match i with
  | PUSH r => push (g s r) s
  | POP r => set_g r (popped s) (drop_top s)
  | PUSHM b off => push (m s (wrapping_add 64 (g s b) off)) s
  | POPM b off => let s' := drop_top s in wr (wrapping_add 64 (g s' b) off) (popped s) s'
  | MOVDQU_ST n => wr (g s RSP) (x s n mod 2 ^ 64) (wr (wrapping_add 64 (g s RSP) 8) (x s n / 2 ^ 64) s)
  | MOVDQU_LD n => set_x n (m s (g s RSP) + 2 ^ 64 * m s (wrapping_add 64 (g s RSP) 8)) s
  | MOV r r' => set_g r (g s r') s
  | MOVI r v => set_g r v s
  | MOVM r b off => set_g r (m s (wrapping_add 64 (g s b) off)) s
  | LEA r b off => set_g r (wrapping_add 64 (g s b) off) s
  | ADDI r v => set_g r (wrapping_add 64 (g s r) v) s
  | SUBI r v => set_g r (wrapping_sub 64 (g s r) v) s
  | ANDI r v => set_g r (Z.land (g s r) v) s
  | CALL ret => push ret s
  | CALL_RUST ret => rust (push ret s)
  | RET => set_rip (popped s) (drop_top s)
  | IRETQ =>
      let q i := m s (wrapping_add 64 (g s RSP) (8 * i)) in
      set_g RSP (q 3) (mkSt (g s) (x s) (m s) (mkCtl (q 0) (q 1) (q 2) (q 4)))
  end.
Definition run (code : list instr) (s : St) : St := foldl (λ s i, exec i s) s code.

(** ** The code *)
Definition XMMPUSH (n : nat) : list instr := [SUBI RSP 16; MOVDQU_ST n].
Definition XMMPOP (n : nat) : list instr := [MOVDQU_LD n; ADDI RSP 16].
Definition xmms : list nat := seq 0 16.

Context (ret_rust ret_stub : Z).
(** [enter_rust] up to the arguments, the call, and the way back *)
Definition save_regs : list instr :=
  [PUSH RAX; PUSH RBX; PUSH RCX; PUSHM R15 0x00; PUSHM R15 0x08; PUSHM R15 0x10; PUSH RBP; PUSH R8; PUSH R9; PUSH R10;
   PUSH R11; PUSH R12; PUSH R13; PUSH R14; PUSHM R15 0x18] ++ concat (XMMPUSH <$> xmms).
Definition call_handler : list instr :=
  [MOV RCX RSP; MOV RBP RSP; SUBI RSP 0x20; ANDI RSP (unot 64 0xf)].
Definition restore_regs : list instr :=
  [MOV RSP RBP] ++ concat (XMMPOP <$> reverse xmms) ++
  [POPM R15 0x18; POP R14; POP R13; POP R12; POP R11; POP R10; POP R9; POP R8; POP RBP; POPM R15 0x10; POPM R15 0x08;
   POPM R15 0x00; POP RCX; POP RBX; POP RAX; RET].

(** [define_int_handler int_id, has_error_code], up to the call and behind it *)
Definition stub_before (int_id : Z) (has_error_code : bool) : list instr :=
  [PUSH R15; PUSH RDI; PUSH RSI; PUSH RDX; MOV R15 RSP; MOVI RDI int_id] ++
  (if has_error_code then [LEA RSI RSP 0x28; MOVM RDX RSP 0x20; SUBI RSP 8] else [LEA RSI RSP 0x20; MOVI RDX 0]) ++
  [CALL ret_stub].
Definition stub_after (has_error_code : bool) : list instr :=
  (if has_error_code then [ADDI RSP 8] else []) ++ [POP RDX; POP RSI; POP RDI; POP R15] ++
  (if has_error_code then [ADDI RSP 8] else []) ++ [IRETQ].
Definition vec_interrupt (int_id : Z) (has_error_code : bool) : list instr :=
  stub_before int_id has_error_code ++ save_regs ++ call_handler ++ [CALL_RUST ret_rust] ++ restore_regs ++
  stub_after has_error_code.

(** ** The processor enters a handler at [entry] through an interrupt gate with code selector [sel]: on the stack [ist] of the
    interrupt stack table, if the gate names one. *)
Definition entry_stack (ist : option Z) (s : St) : Z := Z.land (default (g s RSP) ist) (unot 64 0xf).
Definition deliver (ist : option Z) (entry sel : Z) (error : option Z) (s : St) : St :=
  let frame := [ss (ctl s); g s RSP; rflags (ctl s); cs (ctl s); rip (ctl s)] ++ option_list error in
  let s := foldl (λ s v, push v s) (set_g RSP (entry_stack ist s) s) frame in
  mkSt (g s) (x s) (m s) (mkCtl entry sel (Z.land (rflags (ctl s)) (unot 64 0x200)) (ss (ctl s))).

End machine.

(** Which vectors have an error code, in the order of the stubs *)
Definition has_error_code (v : nat) : bool := bool_decide (v ∈ [8; 10; 11; 12; 13; 14; 17]%nat).
(** The stubs by vector; [ret_stub v]: the address behind the call in the stub of [v] *)
Definition INT_HANDLERS (ret_rust : Z) (ret_stub : nat → Z) : list (list instr) :=
  (λ v, vec_interrupt ret_rust (ret_stub v) (Z.of_nat v) (has_error_code v)) <$> seq 0 256.

(** The snapshot the handler gets, as it lies in memory *)
Record AllRegs := mkAllRegs { xmm : list Z; r15 : Z; r14 : Z; r13 : Z; r12 : Z; r11 : Z; r10 : Z; r9 : Z; r8 : Z; rbp : Z;
  rdi : Z; rsi : Z; rdx : Z; rcx : Z; rbx : Z; rax : Z }.
Definition read_AllRegs (mem : Z → Z) (p : Z) : AllRegs :=
  let q i := mem (p + 256 + 8 * i) in
  mkAllRegs ((λ n, mem (p + 16 * (15 - Z.of_nat n)) + 2 ^ 64 * mem (p + 16 * (15 - Z.of_nat n) + 8)) <$> xmms)
    (q 0) (q 1) (q 2) (q 3) (q 4) (q 5) (q 6) (q 7) (q 8) (q 9) (q 10) (q 11) (q 12) (q 13) (q 14).

Definition snapshot (s : St) : AllRegs :=
  mkAllRegs (x s <$> xmms) (g s R15) (g s R14) (g s R13) (g s R12) (g s R11) (g s R10) (g s R9) (g s R8) (g s RBP)
    (g s RDI) (g s RSI) (g s RDX) (g s RCX) (g s RBX) (g s RAX).
(** [InterruptFrame]: rip, cs, rflags, rsp, ss *)
Definition read_frame (mem : Z → Z) (p : Z) : list Z := (λ i, mem (p + 8 * i)) <$> [0; 1; 2; 3; 4].
Definition frame_of (s : St) : list Z := [rip (ctl s); cs (ctl s); rflags (ctl s); g s RSP; ss (ctl s)].

(** The calling convention of [extern "sysv64"], for a function that gets its memory through shared references: it returns
    to its caller, keeps the callee-saved registers and the stack above its own, up to [limit]. *)
Class SysV (rust : St → St) (limit : Z) := {
  sysv_rip s : rip (ctl (rust s)) = m s (g s RSP);
  sysv_rsp s : g (rust s) RSP = wrapping_add 64 (g s RSP) 8;
  sysv_saved s r : r ∈ [RBX; RBP; R12; R13; R14; R15] → g (rust s) r = g s r;
  sysv_stack s a : g s RSP + 8 ≤ a < limit → m (rust s) a = m s a;
}.

(** ** The stack as a list *)
Section stack.
Context (rust : St → St) (base limit : Z) (above : Z → Z).

(** [s] has the values [l] on its stack, the oldest first, below [base], and holds [rg] and [xs] in its registers. *)
Record rep (s : St) (l : list Z) (rg : reg → Z) (xs : nat → Z) : Prop := {
  rep_sp : g s RSP = base - 8 * zlen l;
  rep_regs r : r ≠ RSP → g s r = rg r;
  rep_xmm n : x s n = xs n;
  rep_cells j v : l !! j = Some v → m s (base - 8 * (Z.of_nat j + 1)) = v;
  rep_above a : base ≤ a < limit → m s a = above a;
}.

Definition room (l : list Z) : Prop := 8 * zlen l ≤ base ∧ base < 2 ^ 64.

Lemma upd_eq {K} `{EqDecision K} (f : K → Z) k v : upd f k v k = v.
Proof. unfold upd. by rewrite decide_True. Qed.
Lemma upd_ne {K} `{EqDecision K} (f : K → Z) k k' v : k' ≠ k → upd f k v k' = f k'.
Proof. intros. unfold upd. by rewrite decide_False. Qed.

Lemma zlen_snoc (l : list Z) v : zlen (l ++ [v]) = zlen l + 1.
Proof. unfold zlen. rewrite length_app. simpl. lia. Qed.

Lemma lookup_below (l : list Z) j v : l !! j = Some v → (Z.of_nat j + 1 ≤ zlen l).
Proof. intros H%lookup_lt_Some. unfold zlen. lia. Qed.

Lemma rep_push s l rg xs v : rep s l rg xs → room (l ++ [v]) → rep (push v s) (l ++ [v]) rg xs.
Proof.
  intros [Hsp Hr Hx Hc Ha] [Hroom Hb]. rewrite zlen_snoc in Hroom. unfold push.
  assert (wrapping_sub 64 (g s RSP) 8 = base - 8 * zlen (l ++ [v])) as ->.
  { unfold wrapping_sub. rewrite Hsp, zlen_snoc. pose proof (Zle_0_nat (length l)) as ?. unfold zlen in *.
    rewrite Z.mod_small; lia. }
  split; cbn [g x m set_g wr].
  - apply upd_eq.
  - intros r Hne. by rewrite upd_ne, Hr.
  - done.
  - intros j w [[_ H]|[-> ->]]%lookup_snoc_Some; rewrite zlen_snoc.
    + pose proof (lookup_below _ _ _ H). rewrite upd_ne; [by apply Hc|lia].
    + apply upd_eq.
  - intros a Hlo. rewrite upd_ne; [by apply Ha|]. rewrite zlen_snoc. unfold zlen. lia.
Qed.

Lemma rep_drop s l v rg xs : rep s (l ++ [v]) rg xs → room (l ++ [v]) → rep (drop_top s) l rg xs ∧ popped s = v.
Proof.
  intros [Hsp Hr Hx Hc Ha] [Hroom Hb]. rewrite zlen_snoc in *. unfold drop_top, popped.
  assert (0 ≤ zlen l) as Hlen by (unfold zlen; lia). split.
  - assert (wrapping_add 64 (g s RSP) 8 = base - 8 * zlen l) as ->.
    { unfold wrapping_add. rewrite Hsp, Z.mod_small; lia. }
    split; cbn [g x m set_g].
    + apply upd_eq.
    + intros r Hne. by rewrite upd_ne, Hr.
    + done.
    + intros j w H. apply Hc. by apply lookup_app_l_Some.
    + done.
  - rewrite Hsp. apply (Hc (length l)). by rewrite lookup_app_r, Nat.sub_diag.
Qed.

Lemma rep_set_g s l rg xs r v : r ≠ RSP → rep s l rg xs → rep (set_g r v s) l (upd rg r v) xs.
Proof.
  intros Hne [Hsp Hr Hx Hc Ha]. split; cbn [g x m set_g]; [by rewrite upd_ne| |done..].
  intros r' Hne'. unfold upd. case_decide; [done|]. by apply Hr.
Qed.

(** A cell of the stack, by an address of it *)
Lemma rep_cell s l rg xs j v a : rep s l rg xs → l !! j = Some v → a = base - 8 * (Z.of_nat j + 1) → m s a = v.
Proof. intros H Hj ->. by apply H. Qed.

Lemma rep_wr s l rg xs j v a : rep s l rg xs → (j < length l)%nat → a = base - 8 * (Z.of_nat j + 1) → rep (wr a v s) (<[j:=v]> l) rg xs.
Proof.
  intros [Hsp Hr Hx Hc Ha] Hj ->. split; cbn [g x m wr]; [|done|done|..].
  - unfold zlen. by rewrite length_insert.
  - intros j' w H. destruct (decide (j' = j)) as [->|Hne].
    + rewrite list_lookup_insert_eq in H by done. simplify_eq. apply upd_eq.
    + rewrite list_lookup_insert_ne in H by done. rewrite upd_ne by lia. by apply Hc.
  - intros a Hlo. rewrite upd_ne by lia. by apply Ha.
Qed.

Lemma run_code_app a b s : run rust (a ++ b) s = run rust b (run rust a s).
Proof. apply foldl_app. Qed.

Lemma run_cons i code s : run rust (i :: code) s = run rust code (exec rust i s).
Proof. done. Qed.

(** ** Blocks of instructions *)
Lemma room_app l l' : room (l ++ l') → room l.
Proof. unfold room, zlen. rewrite length_app. lia. Qed.

Lemma rep_pushes rs : ∀ s l rg xs, rep s l rg xs → room (l ++ (rg <$> rs)) → Forall (λ r, r ≠ RSP) rs →
  rep (run rust (PUSH <$> rs) s) (l ++ (rg <$> rs)) rg xs.
Proof.
  induction rs as [|r rs IH]; intros s l rg xs H Hroom Hrs; cbn [fmap list_fmap].
  { by rewrite app_nil_r. }
  inversion Hrs as [|? ? Hne Hrs']; subst. cbn [fmap list_fmap] in Hroom. rewrite cons_middle, app_assoc in Hroom |- *.
  cbn [run foldl exec]. apply IH; [|done..].
  rewrite (rep_regs _ _ _ _ H) by done. apply rep_push; [done|]. by eapply room_app.
Qed.

(** Values popped into registers, from the top *)
Fixpoint pops (rs : list reg) (vs : list Z) (rg : reg → Z) : reg → Z :=
  match rs, vs with r :: rs, v :: vs => pops rs vs (upd rg r v) | _, _ => rg end.
Lemma rep_pops rs : ∀ vs s l rg xs, length vs = length rs → rep s (l ++ reverse vs) rg xs → room (l ++ reverse vs) →
  Forall (λ r, r ≠ RSP) rs → rep (run rust (POP <$> rs) s) l (pops rs vs rg) xs.
Proof.
  induction rs as [|r rs IH]; intros [|v vs] s l rg xs Hlen H Hroom Hrs; try discriminate Hlen; cbn [fmap list_fmap].
  { by rewrite reverse_nil, app_nil_r in H. }
  inversion Hrs as [|? ? Hne Hrs']; subst. rewrite reverse_cons, app_assoc in H, Hroom.
  destruct (rep_drop _ _ _ _ _ H Hroom) as [Hd Hp].
  cbn [run foldl exec pops]. apply IH; [by injection Hlen| |by eapply room_app|done].
  rewrite Hp. by apply rep_set_g.
Qed.

Lemma rep_pushM s l rg xs r off j v : rep s l rg xs → room (l ++ [v]) → r ≠ RSP → l !! j = Some v →
  wrapping_add 64 (rg r) off = base - 8 * (Z.of_nat j + 1) → rep (exec rust (PUSHM r off) s) (l ++ [v]) rg xs.
Proof.
  intros H Hroom Hr Hj Ha. cbn [exec]. rewrite (rep_regs _ _ _ _ H), Ha by done.
  rewrite (rep_cell _ _ _ _ _ _ _ H Hj eq_refl). by apply rep_push.
Qed.

Lemma rep_popM s l rg xs r off j v : rep s (l ++ [v]) rg xs → room (l ++ [v]) → r ≠ RSP → (j < length l)%nat →
  wrapping_add 64 (rg r) off = base - 8 * (Z.of_nat j + 1) → rep (exec rust (POPM r off) s) (<[j:=v]> l) rg xs.
Proof.
  intros H Hroom Hr Hj Ha. destruct (rep_drop _ _ _ _ _ H Hroom) as [Hd Hp].
  cbn [exec]. rewrite Hp, (rep_regs _ _ _ _ Hd), Ha by done. by apply rep_wr.
Qed.

(** The two cells of an xmm register, the upper half first *)
Definition xcells (xs : nat → Z) (ns : list nat) : list Z := concat ((λ n, [xs n / 2 ^ 64; xs n mod 2 ^ 64]) <$> ns).

Lemma rep_xpush s l rg xs n : rep s l rg xs → room (l ++ xcells xs [n]) →
  rep (run rust (XMMPUSH n) s) (l ++ xcells xs [n]) rg xs.
Proof.
  intros [Hsp Hr Hx Hc Ha] [Hroom Hb]. unfold xcells in *. cbn [fmap list_fmap concat] in *.
  assert (0 ≤ zlen l) as Hlen by (unfold zlen; lia).
  assert (∀ v w, zlen (l ++ [v; w]) = zlen l + 2) as Hz by (intros; unfold zlen; rewrite length_app; simpl; lia).
  rewrite app_nil_r, Hz in *.
  cbn [XMMPUSH run foldl exec]. set (s1 := set_g RSP _ s).
  assert (g s1 RSP = base - 8 * zlen l - 16) as Hs1.
  { subst s1. cbn [g set_g]. rewrite upd_eq. unfold wrapping_sub. rewrite Hsp, Z.mod_small; lia. }
  assert (wrapping_add 64 (g s1 RSP) 8 = base - 8 * zlen l - 8) as ->.
  { unfold wrapping_add. rewrite Hs1, Z.mod_small; lia. }
  split; cbn [g x m wr].
  - rewrite Hz. lia.
  - intros r Hne. subst s1. cbn [g set_g]. by rewrite upd_ne, Hr.
  - done.
  - rewrite Hs1. subst s1. cbn [x m set_g]. intros j w Hj. rewrite Hx in *.
    apply lookup_app_Some in Hj as [Hj|[Hge Hj]].
    + pose proof (lookup_below _ _ _ Hj). rewrite !upd_ne by lia. by apply Hc.
    + unfold zlen in *. destruct (j - length l)%nat as [|[|k]] eqn:E; simplify_list_eq.
      * rewrite upd_ne by lia. replace (base - 8 * (Z.of_nat j + 1)) with (base - 8 * Z.of_nat (length l) - 8) by lia.
        apply upd_eq.
      * replace (base - 8 * (Z.of_nat j + 1)) with (base - 8 * Z.of_nat (length l) - 16) by lia. apply upd_eq.
  - intros a Hlo. rewrite !upd_ne by lia. subst s1. by apply Ha.
Qed.

Lemma xcells_app xs ns ns' : xcells xs (ns ++ ns') = xcells xs ns ++ xcells xs ns'.
Proof. unfold xcells. by rewrite fmap_app, concat_app. Qed.

Lemma rep_xpushes ns : ∀ s l rg xs, rep s l rg xs → room (l ++ xcells xs ns) →
  rep (run rust (concat (XMMPUSH <$> ns)) s) (l ++ xcells xs ns) rg xs.
Proof.
  induction ns as [|n ns IH]; intros s l rg xs H Hroom.
  { unfold xcells. cbn [fmap list_fmap concat run foldl]. by rewrite app_nil_r. }
  change (n :: ns) with ([n] ++ ns) in *. rewrite xcells_app, app_assoc in Hroom |- *.
  rewrite fmap_app, concat_app, run_code_app. cbn [fmap list_fmap concat]. rewrite app_nil_r.
  apply IH; [|done]. apply rep_xpush; [done|]. by eapply room_app.
Qed.

Lemma rep_xpop s l rg xs xs0 n : rep s (l ++ xcells xs0 [n]) rg xs → room (l ++ xcells xs0 [n]) →
  rep (run rust (XMMPOP n) s) l rg (upd xs n (xs0 n)).
Proof.
  intros [Hsp Hr Hx Hc Ha] [Hroom Hb]. unfold xcells in *. cbn [fmap list_fmap concat] in *.
  assert (0 ≤ zlen l) as Hlen by (unfold zlen; lia).
  assert (∀ v w, zlen (l ++ [v; w]) = zlen l + 2) as Hz by (intros; unfold zlen; rewrite length_app; simpl; lia).
  rewrite app_nil_r, Hz in *.
  cbn [XMMPOP run foldl exec].
  assert (m s (g s RSP) + 2 ^ 64 * m s (wrapping_add 64 (g s RSP) 8) = xs0 n) as ->.
  { unfold wrapping_add. rewrite Hsp, Z.mod_small by lia.
    pose proof (Hc (length l) (xs0 n / 2 ^ 64)) as Hhi. pose proof (Hc (S (length l)) (xs0 n mod 2 ^ 64)) as Hlo.
    rewrite lookup_app_r in Hhi, Hlo by lia. rewrite Nat.sub_diag in Hhi.
    replace (S (length l) - length l)%nat with 1%nat in Hlo by lia.
    specialize (Hhi eq_refl). specialize (Hlo eq_refl). unfold zlen in *.
    replace (base - 8 * (Z.of_nat (length l) + 2) + 8) with (base - 8 * (Z.of_nat (length l) + 1)) by lia.
    replace (base - 8 * (Z.of_nat (length l) + 2)) with (base - 8 * (Z.of_nat (S (length l)) + 1)) by lia.
    rewrite Hhi, Hlo. pose proof (Z.div_mod (xs0 n) (2 ^ 64) ltac:(lia)). lia. }
  assert (wrapping_add 64 (g s RSP) 16 = base - 8 * zlen l) as Hw.
  { unfold wrapping_add. rewrite Hsp, Z.mod_small; lia. }
  split; cbn [g x m set_g set_x].
  - by rewrite upd_eq.
  - intros r Hne. by rewrite upd_ne, Hr.
  - intros n'. unfold upd. case_decide; [done|]. apply Hx.
  - intros j w H. apply Hc. by apply lookup_app_l_Some.
  - done.
Qed.

Lemma rep_xpops ns : ∀ s l rg xs xs0, rep s (l ++ xcells xs0 ns) rg xs → room (l ++ xcells xs0 ns) →
  ∃ xs', rep (run rust (concat (XMMPOP <$> reverse ns)) s) l rg xs' ∧
    ∀ n, xs' n = if decide (n ∈ ns) then xs0 n else xs n.
Proof.
  induction ns as [|n ns IH] using rev_ind; intros s l rg xs xs0 H Hroom.
  { unfold xcells in H. cbn [fmap list_fmap concat] in H. rewrite app_nil_r in H. exists xs. split; [done|].
    intros n. rewrite decide_False; [done|]. apply not_elem_of_nil. }
  rewrite xcells_app, app_assoc in H, Hroom. rewrite reverse_snoc.
  rewrite fmap_cons. cbn [concat]. rewrite run_code_app.
  destruct (IH _ _ _ _ _ (rep_xpop _ _ _ _ _ _ H Hroom) (room_app _ _ Hroom)) as (xs' & Hrep & Hxs').
  exists xs'. split; [done|]. intros k. rewrite Hxs'. unfold upd.
  repeat case_decide; subst; try done; set_solver.
Qed.

(** The [k]th quadword above the stack pointer *)
Lemma rep_top s l rg xs k : rep s l rg xs → (k < length l)%nat →
  m s (base - 8 * zlen l + 8 * Z.of_nat k) = nth k (reverse l) 0.
Proof.
  intros H Hk. destruct (lookup_lt_is_Some_2 l (length l - S k)) as [v Hv]; [lia|].
  rewrite (rep_cell _ _ _ _ _ _ _ H Hv) by (unfold zlen; lia).
  assert (reverse l !! k = Some v) as Hr by (rewrite reverse_lookup by done; exact Hv).
  by rewrite nth_lookup, Hr.
Qed.

Lemma length_xcells xs ns : length (xcells xs ns) = (2 * length ns)%nat.
Proof.
  unfold xcells. induction ns as [|n ns IH]; [done|]. rewrite fmap_cons. cbn [concat]. rewrite length_app, IH.
  cbn [length]. lia.
Qed.

(** [sub rsp, 8] leaves a cell of unknown contents on the stack. *)
Lemma rep_gap s l rg xs : rep s l rg xs → room (l ++ [0]) → ∃ v, rep (exec rust (SUBI RSP 8) s) (l ++ [v]) rg xs.
Proof.
  intros [Hsp Hr Hx Hc Ha] [Hroom Hb]. rewrite zlen_snoc in Hroom.
  assert (0 ≤ zlen l) as Hlen by (unfold zlen; lia). cbn [exec].
  assert (wrapping_sub 64 (g s RSP) 8 = base - 8 * (zlen l + 1)) as ->.
  { unfold wrapping_sub. rewrite Hsp, Z.mod_small; lia. }
  exists (m s (base - 8 * (zlen l + 1))). split; cbn [g x m set_g].
  - by rewrite upd_eq, zlen_snoc.
  - intros r Hne. by rewrite upd_ne, Hr.
  - done.
  - intros j w [[_ H]|[-> <-]]%lookup_snoc_Some; [by apply Hc|done].
  - done.
Qed.

(** ** [enter_rust] *)
Section enter.
Context (a b : list Z) (v15 vdi vsi vdx : Z) (rg : reg → Z) (xs : nat → Z).
Let l := a ++ [v15; vdi; vsi; vdx] ++ b.
Definition saved : list Z :=
  [rg RAX; rg RBX; rg RCX; vdx; vsi; vdi; rg RBP; rg R8; rg R9; rg R10; rg R11; rg R12; rg R13; rg R14; v15].
Context (Hroom : room (l ++ saved ++ xcells xs xmms)).

Lemma room_le l1 l2 : room l2 → (length l1 ≤ length l2)%nat → room l1.
Proof. unfold room, zlen. lia. Qed.

Ltac room := eapply room_le; [exact Hroom|unfold saved; rewrite ?length_app, ?length_reverse, ?length_xcells; cbn [length]; lia].

(** The address of the cell [j] behind [a], from the snapshot pointer *)
Lemma snapshot_cell sp off j : sp = base - 8 * (zlen a + 4) → (j < 4)%nat → off = 8 * (3 - Z.of_nat j) →
  wrapping_add 64 sp off = base - 8 * (Z.of_nat (length a + j) + 1).
Proof.
  intros -> Hj ->. unfold wrapping_add. pose proof Hroom as [H1 H2]. subst l. unfold zlen in *.
  rewrite !length_app, length_xcells in H1. cbn [length] in H1. rewrite Z.mod_small; lia.
Qed.

Lemma snapshot_lookup j v l' : [v15; vdi; vsi; vdx] !! j = Some v → (l ++ l') !! (length a + j)%nat = Some v.
Proof.
  intros Hj. subst l. rewrite <- !app_assoc, lookup_app_r by lia. replace (length a + j - length a)%nat with j by lia.
  by apply lookup_app_l_Some.
Qed.

(** Pushing one of the four values again, and popping it back into its place *)
Lemma rep_pushS s l' off j v : rep s (l ++ l') rg xs → (length l' < 15)%nat → rg R15 = base - 8 * (zlen a + 4) →
  [v15; vdi; vsi; vdx] !! j = Some v → off = 8 * (3 - Z.of_nat j) →
  rep (exec rust (PUSHM R15 off) s) (l ++ l' ++ [v]) rg xs.
Proof.
  intros H Hl' H15 Hj Hoff. rewrite app_assoc. pose proof (lookup_lt_Some _ _ _ Hj).
  eapply (rep_pushM _ _ _ _ _ _ (length a + j)); [exact H|room|done|by apply snapshot_lookup|by apply snapshot_cell].
Qed.

Lemma rep_popS s l' rg' xs' off j v : rep s (l ++ l' ++ [v]) rg' xs' → (length l' < 15)%nat → rg' R15 = base - 8 * (zlen a + 4) →
  [v15; vdi; vsi; vdx] !! j = Some v → off = 8 * (3 - Z.of_nat j) →
  rep (exec rust (POPM R15 off) s) (l ++ l') rg' xs'.
Proof.
  intros H Hl' H15 Hj Hoff. rewrite app_assoc in H. pose proof (lookup_lt_Some _ _ _ Hj) as Hlt.
  pose proof (snapshot_lookup _ _ l' Hj) as Hold.
  rewrite <- (list_insert_id (l ++ l') (length a + j) v Hold).
  eapply rep_popM; [exact H|room|done|by eapply lookup_lt_Some|by apply snapshot_cell].
Qed.

Lemma rep_save_regs s : rep s l rg xs → rg R15 = base - 8 * (zlen a + 4) →
  rep (run rust save_regs s) (l ++ saved ++ xcells xs xmms) rg xs.
Proof.
  intros H H15. unfold save_regs. rewrite run_code_app, app_assoc.
  apply rep_xpushes; [|rewrite <- app_assoc; exact Hroom].
  pose (s1 := exec rust (PUSHM R15 0x10) (exec rust (PUSHM R15 0x08) (exec rust (PUSHM R15 0x00)
    (run rust (PUSH <$> [RAX; RBX; RCX]) s)))).
  change (rep (exec rust (PUSHM R15 0x18) (run rust (PUSH <$> [RBP; R8; R9; R10; R11; R12; R13; R14]) s1))
    (l ++ ([rg RAX; rg RBX; rg RCX; vdx; vsi; vdi] ++ (rg <$> [RBP; R8; R9; R10; R11; R12; R13; R14])) ++ [v15]) rg xs).
  apply (rep_pushS _ _ _ 0); [|cbn; lia|done..].
  rewrite app_assoc. apply rep_pushes; [|cbn [fmap list_fmap]; room|repeat constructor; done].
  apply (rep_pushS _ [rg RAX; rg RBX; rg RCX; vdx; vsi] _ 1); [|cbn [length]; lia|done..].
  apply (rep_pushS _ [rg RAX; rg RBX; rg RCX; vdx] _ 2); [|cbn [length]; lia|done..].
  apply (rep_pushS _ [rg RAX; rg RBX; rg RCX] _ 3); [|cbn [length]; lia|done..].
  apply (rep_pushes [RAX; RBX; RCX]); [done|cbn [fmap list_fmap]; room|repeat constructor; done].
Qed.

(** The way back: every register is as it was, apart from the four the stub restores. *)
Lemma rep_restore_regs s rg' xs' : rep s (l ++ saved ++ xcells xs xmms) rg' xs' → rg' R15 = base - 8 * (zlen a + 4) →
  ∃ s' rg'' xs'', run rust (tail restore_regs) s = exec rust RET s' ∧ rep s' l rg'' xs'' ∧
    (∀ r, r ∉ [RSP; R15; RDI; RSI; RDX] → rg'' r = rg r) ∧ ∀ n, (n < 16)%nat → xs'' n = xs n.
Proof.
  intros H H15. rewrite app_assoc in H.
  destruct (rep_xpops xmms s _ _ _ _ H) as (xs'' & Hx & Hxs); [rewrite <- app_assoc; exact Hroom|].
  unfold restore_regs. cbn [tail app]. rewrite run_code_app. set (s0 := run rust (concat _) s) in *.
  pose (s1 := run rust (POP <$> [R14; R13; R12; R11; R10; R9; R8; RBP]) (exec rust (POPM R15 0x18) s0)).
  pose (s2 := exec rust (POPM R15 0x00) (exec rust (POPM R15 0x08) (exec rust (POPM R15 0x10) s1))).
  pose (rg1 := pops [R14; R13; R12; R11; R10; R9; R8; RBP]
    [rg R14; rg R13; rg R12; rg R11; rg R10; rg R9; rg R8; rg RBP] rg').
  exists (run rust (POP <$> [RCX; RBX; RAX]) s2), (pops [RCX; RBX; RAX] [rg RCX; rg RBX; rg RAX] rg1), xs''.
  split; [reflexivity|]. split; [|split].
  - assert (rep s1 (l ++ [rg RAX; rg RBX; rg RCX; vdx; vsi; vdi]) rg1 xs'') as H1.
    { apply rep_pops; [done| |rewrite <- app_assoc; room|repeat constructor; done]. rewrite <- app_assoc.
      eapply (rep_popS _ _ _ _ _ 0); [exact Hx|cbn; lia|done..]. }
    assert (rg1 R15 = base - 8 * (zlen a + 4)) as H15' by done.
    apply rep_pops; [done| |room|repeat constructor; done].
    apply (rep_popS _ [rg RAX; rg RBX; rg RCX] _ _ _ 3 vdx); [|cbn [length]; lia|done..].
    apply (rep_popS _ [rg RAX; rg RBX; rg RCX; vdx] _ _ _ 2 vsi); [|cbn [length]; lia|done..].
    apply (rep_popS _ [rg RAX; rg RBX; rg RCX; vdx; vsi] _ _ _ 1 vdi); [|cbn [length]; lia|done..].
    exact H1.
  - intros r Hr. destruct r; try reflexivity; exfalso; apply Hr; rewrite !elem_of_cons; tauto.
  - intros n Hn. rewrite Hxs, decide_True; [done|]. apply elem_of_seq. lia.
Qed.

End enter.

(** The call: the stack pointer is aligned for it, and taken from the frame pointer behind it. *)
Section call.
Context (s : St) (l : list Z) (rg : reg → Z) (xs : nat → Z) (ret_rust : Z).
Context (H : rep s l rg xs) (Hroom : 8 * (zlen l + 7) ≤ base < 2 ^ 64).

Lemma rep_call_args : let sc := run rust call_handler s in
  m sc = m s ∧ x sc = x s ∧ g sc RCX = base - 8 * zlen l ∧ g sc RBP = base - 8 * zlen l ∧
  (∀ r, r ∉ [RSP; RBP; RCX] → g sc r = rg r) ∧
  g sc RSP mod 16 = 0 ∧ 8 ≤ g sc RSP ≤ base - 8 * zlen l.
Proof.
  cbn [run foldl call_handler exec]. cbn zeta. do 2 (split; [done|]).
  assert (0 ≤ zlen l) as Hlen by (unfold zlen; lia). pose proof (rep_sp _ _ _ _ H) as Hsp.
  split; [exact Hsp|]. split; [exact Hsp|]. split.
  { intros r Hr. rewrite <- (rep_regs _ _ _ _ H) by (intros ->; apply Hr; rewrite !elem_of_cons; tauto).
    cbn [g set_g]. rewrite !upd_ne; [done|..]; intros ->; apply Hr; rewrite !elem_of_cons; tauto. }
  assert (∀ f : reg → Z, upd f RSP (Z.land (f RSP) (unot 64 15)) RSP = f RSP - f RSP mod 16 ∨ ¬ fits 64 (f RSP)) as Hal.
  { intros f. destruct (decide (0 ≤ f RSP < 2 ^ 64)) as [Hf|Hf]; [left|right; done].
    rewrite upd_eq. apply (land_unot_mask 64 _ 4); [done|lia]. }
  cbn [g set_g]. set (f := upd _ RSP (wrapping_sub 64 _ 32)).
  assert (f RSP = base - 8 * zlen l - 32) as Hf.
  { subst f. rewrite upd_eq. change (wrapping_sub 64 (g s RSP) 32 = base - 8 * zlen l - 32). unfold wrapping_sub.
    rewrite Hsp, Z.mod_small; lia. }
  destruct (Hal f) as [->|Hno]; [|exfalso; apply Hno; unfold fits; lia].
  rewrite Hf. Z.to_euclidean_division_equations. lia.
Qed.

Lemma rep_call `{!SysV rust limit} : base ≤ limit →
  ∃ rg' xs', rep (exec rust (MOV RSP RBP) (exec rust (CALL_RUST ret_rust) (run rust call_handler s))) l rg' xs' ∧
    rg' R15 = rg R15.
Proof.
  intros Hlim. destruct rep_call_args as (Hm & Hx & _ & Hbp & Hregs & Hal & Hsp). set (sc := run rust call_handler s) in *.
  assert (0 ≤ zlen l) as Hlen by (unfold zlen; lia).
  cbn [exec]. set (sd := push ret_rust sc).
  assert (g sd RSP = g sc RSP - 8) as Hsd.
  { subst sd. unfold push. cbn [g wr set_g]. rewrite upd_eq. unfold wrapping_sub. rewrite Z.mod_small; lia. }
  assert (∀ a, g sd RSP + 8 ≤ a < limit → m (rust sd) a = m s a) as Hmem.
  { intros a Ha. rewrite sysv_stack by done. subst sd. rewrite <- Hm. unfold push in *. cbn [m g wr set_g] in *.
    rewrite upd_ne; [done|]. rewrite upd_eq in Hsd, Ha. lia. }
  exists (g (rust sd)), (x (rust sd)). split.
  - split; cbn [g x m set_g].
    + rewrite upd_eq. rewrite sysv_saved by (rewrite !elem_of_cons; tauto). exact Hbp.
    + intros r Hr. by rewrite upd_ne.
    + done.
    + intros j v Hj. pose proof (lookup_below _ _ _ Hj). rewrite Hmem by lia. by apply H.
    + intros a Ha. rewrite Hmem by lia. by apply H.
  - rewrite sysv_saved by (rewrite !elem_of_cons; tauto). change (g sc R15 = rg R15).
    apply Hregs. rewrite !elem_of_cons, elem_of_nil. naive_solver.
Qed.
End call.

(** ** The stub *)
Section stub.
Context (fr : list Z) (error : option Z) (v : Z) (rg : reg → Z) (xs : nat → Z) (ret_stub : Z).
Context (Hfr : length fr = 5%nat) (Hroom : 8 * 12 ≤ base < 2 ^ 64).
Let l := fr ++ option_list error.
Let e := bool_decide (is_Some error).

Ltac room_fr := unfold room, zlen; try subst l; rewrite ?length_app, ?length_fmap, Hfr; destruct error;
  cbn; lia.

Lemma rep_stub_before s : rep s l rg xs → ∃ b rg1,
  rep (run rust (stub_before ret_stub v e) s) (l ++ [rg R15; rg RDI; rg RSI; rg RDX] ++ (b ++ [ret_stub])) rg1 xs ∧
  length b = length (option_list error) ∧
  rg1 R15 = base - 8 * (zlen l + 4) ∧ rg1 RDI = v ∧ rg1 RSI = base - 40 ∧ rg1 RDX = default 0 error ∧
  ∀ r, r ∉ [RSP; R15; RDI; RSI; RDX] → rg1 r = rg r.
Proof.
  intros H. unfold stub_before. rewrite !run_code_app.
  pose (four := [rg R15; rg RDI; rg RSI; rg RDX]).
  pose (rg0 := upd (upd rg R15 (base - 8 * (zlen l + 4))) RDI v).
  assert (rep (run rust [PUSH R15; PUSH RDI; PUSH RSI; PUSH RDX; MOV R15 RSP; MOVI RDI v] s) (l ++ four) rg0 xs) as H0.
  { change (rep (set_g RDI v (exec rust (MOV R15 RSP) (run rust (PUSH <$> [R15; RDI; RSI; RDX]) s))) (l ++ four) rg0 xs).
    assert (rep (run rust (PUSH <$> [R15; RDI; RSI; RDX]) s) (l ++ four) rg xs) as H1.
    { apply (rep_pushes [R15; RDI; RSI; RDX]); [done|room_fr|repeat constructor; done]. }
    cbn [exec]. rewrite (rep_sp _ _ _ _ H1). apply rep_set_g; [done|].
    replace (zlen (l ++ four)) with (zlen l + 4) by (unfold zlen; rewrite length_app; cbn; lia).
    by apply rep_set_g. }
  set (s0 := run rust _ s) in *. clearbody s0.
  assert (zlen (l ++ four) = 9 + zlen (option_list error)) as Hz.
  { subst l. unfold zlen. rewrite !length_app, Hfr. subst four. cbn [length]. lia. }
  assert (∀ off, 0 ≤ off ≤ 40 → wrapping_add 64 (g s0 RSP) off = base - 8 * (9 + zlen (option_list error)) + off) as Hoff.
  { intros off Hle. unfold wrapping_add. rewrite (rep_sp _ _ _ _ H0), Hz.
    assert (0 ≤ zlen (option_list error) ≤ 1) by (unfold zlen; destruct error; cbn; lia). rewrite Z.mod_small; lia. }
  destruct error as [err|] eqn:Eerr; subst e; cbn [option_list bool_decide length] in *.
  - pose (rg1 := upd (upd rg0 RSI (base - 40)) RDX err).
    assert (rep (run rust [LEA RSI RSP 0x28; MOVM RDX RSP 0x20] s0) (l ++ four) rg1 xs) as H1.
    { cbn [run foldl exec]. change (g (set_g RSI _ s0) RSP) with (g s0 RSP). change (m (set_g RSI _ s0)) with (m s0).
      rewrite !Hoff by lia.
      rewrite (rep_cell _ _ _ _ 5 err _ H0); [|subst l; by rewrite <- app_assoc, lookup_app_r, Hfr by lia|unfold zlen; cbn; lia].
      apply rep_set_g; [done|]. replace (base - 8 * (9 + zlen (option_list (Some err))) + 40) with (base - 40) by (unfold zlen; cbn; lia). by apply rep_set_g. }
    destruct (rep_gap _ _ _ _ H1) as [u H2]; [room_fr|].
    exists [u], rg1. split; [|split; [done|]].
    + change (run rust [CALL ret_stub] _) with (push ret_stub (exec rust (SUBI RSP 8) (run rust [LEA RSI RSP 0x28; MOVM RDX RSP 0x20] s0))).
      change (rep (push ret_stub (exec rust (SUBI RSP 8) (run rust [LEA RSI RSP 0x28; MOVM RDX RSP 0x20] s0)))
        (l ++ four ++ [u] ++ [ret_stub]) rg1 xs).
      rewrite !app_assoc. apply rep_push; [done|room_fr].
    + repeat split; try reflexivity. intros r Hr. destruct r; try reflexivity; exfalso; apply Hr; rewrite !elem_of_cons; tauto.
  - pose (rg1 := upd (upd rg0 RSI (base - 40)) RDX 0).
    assert (rep (run rust [LEA RSI RSP 0x20; MOVI RDX 0] s0) (l ++ four) rg1 xs) as H1.
    { cbn [run foldl exec]. rewrite !Hoff by lia. apply rep_set_g; [done|].
      replace (base - 8 * (9 + zlen (option_list (@None Z))) + 32) with (base - 40) by (unfold zlen; cbn; lia). by apply rep_set_g. }
    exists [], rg1. split; [|split; [done|]].
    + change (rep (push ret_stub (run rust [LEA RSI RSP 0x20; MOVI RDX 0] s0)) (l ++ four ++ [ret_stub]) rg1 xs).
      rewrite !app_assoc. apply rep_push; [done|room_fr].
    + repeat split; try reflexivity. intros r Hr. destruct r; try reflexivity; exfalso; apply Hr; rewrite !elem_of_cons; tauto.
Qed.

(** The way back, up to [iretq] *)
Lemma rep_stub_after s b rg' xs' : length b = length (option_list error) →
  rep s (l ++ [rg R15; rg RDI; rg RSI; rg RDX] ++ b) rg' xs' →
  ∃ s' rg2, run rust (stub_after e) s = exec rust IRETQ s' ∧ rep s' fr rg2 xs' ∧
    (∀ r, r ∈ [R15; RDI; RSI; RDX] → rg2 r = rg r) ∧ ∀ r, r ∉ [RSP; R15; RDI; RSI; RDX] → rg2 r = rg' r.
Proof.
  intros Hb H. pose (four := [rg R15; rg RDI; rg RSI; rg RDX]).
  assert (∃ s0, rep s0 (l ++ four) rg' xs' ∧ run rust (if e then [ADDI RSP 8] else []) s = s0) as (s0 & H0 & E0).
  { destruct error as [err|]; subst e; cbn in Hb.
    - destruct b as [|u [|]]; try discriminate Hb. exists (drop_top s). split; [|done].
      rewrite app_assoc in H. eapply (rep_drop _ _ u); [exact H|room_fr].
    - destruct b; [|discriminate Hb]. exists s. rewrite app_nil_r in H. done. }
  pose (s1 := run rust (POP <$> [RDX; RSI; RDI; R15]) s0).
  pose (rg2 := pops [RDX; RSI; RDI; R15] (reverse four) rg').
  assert (rep s1 l rg2 xs') as H1.
  { apply rep_pops; [done|by rewrite reverse_involutive|rewrite reverse_involutive; room_fr|repeat constructor; done]. }
  assert (∃ s2, rep s2 fr rg2 xs' ∧ run rust (if e then [ADDI RSP 8] else []) s1 = s2) as (s2 & H2 & E2).
  { destruct error as [err|]; subst e l.
    - exists (drop_top s1). split; [|done]. eapply (rep_drop _ _ err); [exact H1|room_fr].
    - exists s1. cbn [option_list] in H1. by rewrite app_nil_r in H1. }
  exists s2, rg2. split; [|split; [done|split]].
  - unfold stub_after. rewrite !run_code_app, E0. change (run rust [POP RDX; POP RSI; POP RDI; POP R15] s0) with s1.
    by rewrite E2.
  - intros r Hr. rewrite !elem_of_cons, elem_of_nil in Hr. destruct Hr as [->|[->|[->|[->|[]]]]]; reflexivity.
  - intros r Hr. destruct r; try reflexivity; exfalso; apply Hr; rewrite !elem_of_cons; tauto.
Qed.
End stub.

Lemma rep_set_rip s l rg xs a : rep s l rg xs → rep (set_rip a s) l rg xs.
Proof. intros []. by split. Qed.

(** Back in the interrupted program *)
Lemma rep_iretq s rg xs v0 v1 v2 v3 v4 : rep s [v0; v1; v2; v3; v4] rg xs → 40 ≤ base < 2 ^ 64 →
  let s' := exec rust IRETQ s in
  g s' RSP = v1 ∧ (∀ r, r ≠ RSP → g s' r = rg r) ∧ (∀ n, x s' n = xs n) ∧ ctl s' = mkCtl v4 v3 v2 v0 ∧
  ∀ a, base ≤ a < limit → m s' a = above a.
Proof.
  intros H Hb. cbn [exec]. cbn zeta.
  assert (∀ i j v, [v0; v1; v2; v3; v4] !! j = Some v → i = 4 - Z.of_nat j → m s (wrapping_add 64 (g s RSP) (8 * i)) = v) as Hq.
  { intros i j v Hj ->. pose proof (lookup_lt_Some _ _ _ Hj) as Hlt. cbn [length] in Hlt.
    apply (rep_cell _ _ _ _ j v _ H Hj). unfold wrapping_add. rewrite (rep_sp _ _ _ _ H).
    change (zlen [v0; v1; v2; v3; v4]) with 5. rewrite Z.mod_small; lia. }
  rewrite (Hq 0 4%nat v4), (Hq 1 3%nat v3), (Hq 2 2%nat v2), (Hq 3 1%nat v1), (Hq 4 0%nat v0) by done.
  cbn [g x m ctl set_g]. split; [by rewrite upd_eq|].
  split; [intros r Hr; rewrite upd_ne by done; by apply H|]. repeat split; apply H.
Qed.
End stack.

(** ** The whole interrupt *)
Lemma rep_pushed base limit above fr : ∀ s l rg xs, rep base limit above s l rg xs → room base (l ++ fr) →
  rep base limit above (foldl (λ s v, push v s) s fr) (l ++ fr) rg xs.
Proof.
  induction fr as [|v fr IH]; intros s l rg xs H Hroom; [by rewrite app_nil_r|].
  rewrite cons_middle, app_assoc in Hroom |- *. apply IH; [|done]. apply rep_push; [done|]. by eapply room_app.
Qed.

Lemma rep_deliver limit ist entry sel error s : 8 * 6 ≤ entry_stack ist s < 2 ^ 64 →
  rep (entry_stack ist s) limit (m s) (deliver ist entry sel error s)
    (reverse (frame_of s) ++ option_list error) (g s) (x s).
Proof.
  intros Hb. unfold deliver. cbn zeta. set (base := entry_stack ist s) in *.
  change (reverse (frame_of s)) with [ss (ctl s); g s RSP; rflags (ctl s); cs (ctl s); rip (ctl s)].
  set (fr := [_; _; _; _; _] ++ _).
  assert (rep base limit (m s) (foldl (λ s v, push v s) (set_g RSP base s) fr) ([] ++ fr) (g s) (x s)) as H.
  { apply rep_pushed.
    - split; cbn [g x m set_g]; try done; [rewrite upd_eq; unfold zlen; cbn; lia|]. intros r Hr. by rewrite upd_ne.
    - unfold room, zlen. subst fr. rewrite !length_app. destruct error; cbn; lia. }
  destruct H as [H1 H2 H3 H4 H5]. by split.
Qed.

(** The block on the stack is an [AllRegs]. *)
Lemma rep_read_AllRegs base limit above s l v15 vdi vsi vdx rg xs rg' xs' :
  let l' := l ++ saved v15 vdi vsi vdx rg ++ xcells xs xmms in
  rep base limit above s l' rg' xs' →
  read_AllRegs (m s) (base - 8 * zlen l') = mkAllRegs (xs <$> xmms) v15 (rg R14) (rg R13) (rg R12) (rg R11) (rg R10)
    (rg R9) (rg R8) (rg RBP) vdi vsi vdx (rg RCX) (rg RBX) (rg RAX).
Proof.
  intros l' H.
  assert (∀ k, (k < 47)%nat → m s (base - 8 * zlen l' + 8 * Z.of_nat k) =
    nth k (reverse (saved v15 vdi vsi vdx rg ++ xcells xs xmms)) 0) as Hk.
  { intros k Hk. rewrite (rep_top _ _ _ _ _ _ _ _ H).
    - subst l'. rewrite reverse_app, app_nth1; [done|]. rewrite length_reverse, length_app, length_xcells. cbn. lia.
    - subst l'. rewrite !length_app, length_xcells. cbn. lia. }
  set (p := base - 8 * zlen l') in *. clearbody p. clear H l'.
  assert (∀ i k v, i = 8 * Z.of_nat k → (k < 47)%nat →
    nth k (reverse (saved v15 vdi vsi vdx rg ++ xcells xs xmms)) 0 = v → m s (p + i) = v) as Hc.
  { intros i k v -> Hlt <-. by apply Hk. }
  clear Hk. unfold read_AllRegs.
  f_equal; [|rewrite <- Z.add_assoc; match goal with |- m s (p + (256 + 8 * ?c)) = _ =>
    let k := eval vm_compute in (Z.to_nat (32 + c)) in apply (Hc _ k); [done|lia|done] end..].
  - apply list_fmap_ext. intros i n [-> Hi]%lookup_seq. cbn [Nat.add].
    rewrite <- Z.add_assoc, (Hc _ (2 * (15 - i))%nat (xs i mod 2 ^ 64)), (Hc _ (2 * (15 - i) + 1)%nat (xs i / 2 ^ 64)); try lia.
    + pose proof (Z.div_mod (xs i) (2 ^ 64) ltac:(lia)). lia.
    + do 16 (destruct i as [|i]; [reflexivity|]). lia.
    + do 16 (destruct i as [|i]; [reflexivity|]). lia.
Qed.

Lemma rep_read_frame base limit above s fr l rg xs : rep base limit above s (reverse fr ++ l) rg xs → length fr = 5%nat →
  read_frame (m s) (base - 40) = fr.
Proof.
  intros H Hlen. do 6 (destruct fr as [|? fr]; try discriminate Hlen).
  unfold read_frame. cbn [fmap list_fmap].
  rewrite (rep_cell _ _ _ _ _ _ _ 4 z (base - 40 + 8 * 0) H), (rep_cell _ _ _ _ _ _ _ 3 z0 (base - 40 + 8 * 1) H),
    (rep_cell _ _ _ _ _ _ _ 2 z1 (base - 40 + 8 * 2) H), (rep_cell _ _ _ _ _ _ _ 1 z2 (base - 40 + 8 * 3) H),
    (rep_cell _ _ _ _ _ _ _ 0 z3 (base - 40 + 8 * 4) H); first [reflexivity|lia].
Qed.

(** [enter_rust], from the call of the stub to its return *)
Lemma enter_rust_correct rust base limit above `{!SysV rust limit} ret_rust ret_stub l b v15 vdi vsi vdx rg xs s :
  let l1 := l ++ [v15; vdi; vsi; vdx] ++ b in
  rep base limit above s (l1 ++ [ret_stub]) rg xs → rg R15 = base - 8 * (zlen l + 4) →
  8 * (zlen l1 + 55) ≤ base ≤ limit → base < 2 ^ 64 →
  let sb := run rust save_regs s in
  let sc := run rust call_handler sb in
  let l2 := (l1 ++ [ret_stub]) ++ saved v15 vdi vsi vdx rg ++ xcells xs xmms in
  (rep base limit above sb l2 rg xs ∧ m sc = m sb ∧ g sc RCX = base - 8 * zlen l2 ∧ g sc RSP mod 16 = 0 ∧
   ∀ r, r ∉ [RSP; RBP; RCX] → g sc r = rg r) ∧
  ∃ s' rg' xs', run rust restore_regs (exec rust (CALL_RUST ret_rust) sc) = exec rust RET s' ∧ popped s' = ret_stub ∧
    rep base limit above (exec rust RET s') l1 rg' xs' ∧
    (∀ r, r ∉ [RSP; R15; RDI; RSI; RDX] → rg' r = rg r) ∧ ∀ n, (n < 16)%nat → xs' n = xs n.
Proof.
  intros l1 H1 H15 Hb Hlt sb sc l2.
  assert (El : l1 ++ [ret_stub] = l ++ [v15; vdi; vsi; vdx] ++ (b ++ [ret_stub])) by (subst l1; by rewrite <- !app_assoc).
  assert (Hl2 : zlen l2 = zlen l1 + 48).
  { subst l2. unfold zlen. rewrite !length_app, length_xcells. cbn [length saved xmms seq]. lia. }
  assert (Hroom : room base l2) by (unfold room; rewrite Hl2; lia).
  assert (H2 : rep base limit above sb l2 rg xs).
  { subst l2. rewrite El in H1, Hroom |- *. by apply rep_save_regs. }
  clearbody sb. pose proof (rep_call_args rust base limit above sb l2 rg xs H2) as Hargs. cbn zeta in Hargs. fold sc in Hargs.
  pose proof (rep_call rust base limit above sb l2 rg xs ret_rust H2) as Hcall. fold sc in Hcall. clearbody sc.
  destruct Hargs as (Hm & Hx & Hcx & _ & Hregs & Hal & _); [lia|].
  split; [exact (conj H2 (conj Hm (conj Hcx (conj Hal Hregs))))|].
  destruct Hcall as (rg' & xs' & H3 & H15'); [lia|done|lia|].
  subst l2. rewrite El in H3, Hroom. rewrite H15 in H15'.
  destruct (rep_restore_regs rust base limit above _ _ _ _ _ _ _ _ Hroom _ _ _ H3 H15')
    as (s' & rg'' & xs'' & Eret & H4 & Hrg'' & Hxs'').
  exists s', rg'', xs''. split; [by rewrite <- Eret; apply (run_cons rust (MOV RSP RBP) (tail restore_regs))|].
  rewrite <- El in H4. destruct (rep_drop _ _ _ _ _ _ _ _ H4) as [H5 Hret].
  { unfold room in *. rewrite zlen_snoc. lia. }
  split; [done|]. split; [by apply rep_set_rip|done].
Qed.

(** The vectors with which the processor pushes an error code (Intel SDM 3A, table 7-1, and for 29 and 30 AMD APM 2, 8.2) *)
Definition pushes_error (v : nat) : bool := bool_decide (v ∈ [8; 10; 11; 12; 13; 14; 17; 21; 29; 30]%nat).

Lemma has_error_code_pushes u : has_error_code u = pushes_error u ↔ u ∉ [21; 29; 30]%nat.
Proof.
  split.
  - intros E Hu. rewrite !elem_of_cons, elem_of_nil in Hu. destruct Hu as [->|[->|[->|[]]]]; discriminate E.
  - intros Hu. unfold has_error_code, pushes_error. apply bool_decide_ext. rewrite !elem_of_cons, elem_of_nil in *. tauto.
Qed.

(** C27. The entry stubs.  Exactly those of the vectors 21, 29 and 30 are declared without the error code that the
    processor pushes for them.  For every other vector: when the processor delivers
    vector [v] to a program in state [s], with an error code where the manuals say so, the stub calls the Rust handler with the vector, the address of the frame that the processor pushed, the error code (0 if the vector has none) and the
    address of a snapshot of every register as the program had it, on a stack aligned for the call; when the handler
    returns, [enter_rust] returns into the stub, and behind [iretq] the program goes on with all its registers, its flags,
    its stack pointer and the memory above it as they were. *)
Theorem stub_correct rust limit `{!SysV rust limit} ret_rust ret_stub ist entry sel v code error s :
  INT_HANDLERS ret_rust ret_stub !! v = Some code →
  v ∉ [21; 29; 30]%nat → pushes_error v = bool_decide (is_Some error) →
  8 * 66 ≤ entry_stack ist s ≤ limit → limit < 2 ^ 64 →
  let e := bool_decide (is_Some error) in
  let id := Z.of_nat v in
  let s1 := deliver ist entry sel error s in
  let before := stub_before (ret_stub v) id e ++ save_regs ++ call_handler in
  let sc := run rust before s1 in
  let s2 := run rust code s1 in
  (∀ u, has_error_code u = pushes_error u ↔ u ∉ [21; 29; 30]%nat) ∧
  (g sc RDI = id ∧ read_frame (m sc) (g sc RSI) = frame_of s ∧ g sc RDX = default 0 error ∧
   read_AllRegs (m sc) (g sc RCX) = snapshot s ∧ g sc RSP mod 16 = 0) ∧
  rip (ctl (run rust (before ++ [CALL_RUST ret_rust] ++ restore_regs) s1)) = ret_stub v ∧
  (∀ r, g s2 r = g s r) ∧ (∀ n, (n < 16)%nat → x s2 n = x s n) ∧ ctl s2 = ctl s ∧
  ∀ a, entry_stack ist s ≤ a < limit → m s2 a = m s a.
Proof.
  unfold INT_HANDLERS. rewrite list_lookup_fmap. intros (? & [-> _]%lookup_seq & ->)%fmap_Some Hv He' Hbase Hlimit.
  assert (has_error_code v = bool_decide (is_Some error)) as He by (rewrite <-He'; by apply has_error_code_pushes).
  clear Hv He'. cbn zeta. split; [exact has_error_code_pushes|]. cbn [Nat.add]. rewrite He. set (id := Z.of_nat v). generalize (ret_stub v). clear ret_stub. intros ret_stub.
  clearbody id. clear He v.
  pose proof (rep_deliver limit ist entry sel error s ltac:(lia)) as H0.
  set (s1 := deliver _ _ _ _ _) in *. set (base := entry_stack ist s) in *. clearbody s1 base.
  destruct (rep_stub_before rust base limit (m s) (reverse (frame_of s)) error id _ _ ret_stub eq_refl ltac:(lia) _ H0)
    as (b & rg1 & H1 & Hb & H15 & Hdi & Hsi & Hdx & Hother).
  unfold vec_interrupt. rewrite !run_code_app. set (sa := run rust (stub_before _ _ _) s1) in *. clearbody sa.
  set (l := reverse (frame_of s) ++ option_list error) in *. rewrite !(app_assoc _ _ [ret_stub]) in H1.
  assert (length b = length (option_list error) → zlen (l ++ [g s R15; g s RDI; g s RSI; g s RDX] ++ b) ≤ 11) as Hlen.
  { intros Hb'. unfold zlen, l. rewrite !length_app, Hb'. destruct error; cbn; lia. }
  destruct (enter_rust_correct rust base limit (m s) ret_rust ret_stub _ _ _ _ _ _ _ _ _ H1 H15)
    as [(H2 & Hm & Hcx & Hal & Hargs) (s' & rg' & xs' & Eret & Hret & H4 & Hrg' & Hxs')]; [lia..|].
  destruct (rep_stub_after rust base limit (m s) (reverse (frame_of s)) error (g s) eq_refl ltac:(lia) _ b _ _ Hb H4)
    as (s3 & rg2 & E3 & H6 & Hrg2 & Hrg2').
  change (run rust [CALL_RUST ret_rust] ?t) with (exec rust (CALL_RUST ret_rust) t). rewrite Eret, E3.
  clear Eret E3. set (sb := run rust save_regs sa) in *. set (sc := run rust call_handler sb) in *. clearbody sc sb.
  destruct (rep_iretq rust _ _ _ _ _ _ _ _ _ _ _ H6) as (Hsp & Hg & Hxm & Hctl & Hab); [lia|].
  set (s4 := exec rust IRETQ s3) in *. clearbody s4.
  split; [|split; [exact Hret|]].
  - assert (∀ r, r ∈ [RDI; RSI; RDX] → g sc r = rg1 r) as Hargs'.
    { intros r Hr. apply Hargs. rewrite !elem_of_cons, elem_of_nil in *. naive_solver. }
    rewrite Hm, Hcx, !Hargs', Hdi, Hsi, Hdx by (rewrite !elem_of_cons; tauto).
    split; [done|]. split; [|split; [done|split; [|done]]].
    + unfold l in H2. rewrite <- !app_assoc in H2. by apply (rep_read_frame _ _ _ _ _ _ _ _ H2).
    + rewrite (rep_read_AllRegs _ _ _ _ _ _ _ _ _ _ _ _ _ H2).
      unfold snapshot. f_equal; apply Hother; rewrite !elem_of_cons, elem_of_nil; clear; naive_solver.
  - split; [|split; [|split; [|done]]].
    + intros r. destruct (decide (r = RSP)) as [->|Hne]; [exact Hsp|]. rewrite Hg by done.
      destruct (decide (r ∈ [R15; RDI; RSI; RDX])) as [Hin|Hnin]; [by apply Hrg2|].
      rewrite Hrg2', Hrg', Hother; [done|..]; rewrite elem_of_cons; tauto.
    + intros n Hn. rewrite Hxm. by apply Hxs'.
    + rewrite Hctl. by destruct (ctl s).
Qed.

(** A handler that clobbers all it may, and a page fault on the stack of the program *)
Module SampleStub.
Definition rust (s : St) : St :=
  mkSt (λ r, if decide (r = RSP) then wrapping_add 64 (g s RSP) 8
             else if decide (r ∈ [RBX; RBP; R12; R13; R14; R15]) then g s r else 0xBAD)
    (λ _, 7) (λ a, if a <? g s RSP then 0 else m s a)
    (mkCtl (m s (g s RSP)) (cs (ctl s)) (rflags (ctl s)) (ss (ctl s))).
#[global] Instance rust_sysv : SysV rust 0x9000.
Proof.
  split; intros s; [done|done|intros r Hr|intros a Ha].
  - cbn [rust g]. rewrite decide_False, decide_True; [done..|]. intros ->. rewrite !elem_of_cons, elem_of_nil in Hr. naive_solver.
  - cbn [rust m]. destruct (Z.ltb_spec a (g s RSP)); [lia|done].
Qed.
Definition program : St :=
  mkSt (λ r, if decide (r = RSP) then 0x8018 else 5) (λ n, 2 ^ 64 * Z.of_nat n) (λ a, a) (mkCtl 0x1000 8 0x202 0x10).

Lemma stub_correct_witness : let s1 := deliver None 0x2000 8 (Some 2) program in
  let s2 := run rust (vec_interrupt 0x2100 0x2200 14 true) s1 in
  (∀ r, g s2 r = g program r) ∧ (∀ n, (n < 16)%nat → x s2 n = x program n) ∧ ctl s2 = ctl program.
Proof.
  destruct (stub_correct rust 0x9000 0x2100 (λ _, 0x2200) None 0x2000 8 14 _ (Some 2) program eq_refl ltac:(rewrite !elem_of_cons, elem_of_nil; lia) eq_refl)
    as (_ & _ & _ & H1 & H2 & H3 & _); [split; vm_compute; discriminate|reflexivity|].
  intros s1 s2. split; [exact H1|]. split; [exact H2|exact H3].
Defined.
(** Control protection (21), with the error code 3: the handler gets 0 for it, and for the frame a place where the
    instruction pointer is the error code and the stack pointer is the flags; [iretq] goes to address 3. *)
Example control_protection_misread :
  let s1 := deliver None 0x2000 8 (Some 3) program in
  let sc := run rust (stub_before 0x2200 21 (has_error_code 21) ++ save_regs ++ call_handler) s1 in
  let s2 := run rust (vec_interrupt 0x2100 0x2200 21 (has_error_code 21)) s1 in
  pushes_error 21 = true ∧ g sc RDX = 0 ∧ m sc (g sc RSI) = 3 ∧ read_frame (m sc) (g sc RSI) ≠ frame_of program ∧ rip (ctl s2) = 3.
Proof. split; [done|]. split; [done|]. split; [done|]. split; [intros H; vm_compute in H; discriminate H|done]. Qed.
End SampleStub.
End Stubs.
