(* ===== verification/LocalApic.v ===== *)
(** The local APIC: kernel/src/apic/local.rs, and the processor's features:
    shared/cpu/src/features.rs.

    The processor, its APIC and the legacy PICs are a parameter ([ApicHw]), with the
    behaviour the manual gives them ([ApicLaws]).  Interrupts that the APIC delivers go
    through [interrupt_entry] (Interrupts.v). *)
From Stdlib Require Import ZArith Lia.
From stdpp Require Import prelude list numbers gmap sets fin_sets.
From S2P Require Import Prelude PageTable Pci Intel Interrupts.

(** Registers of the APIC are words of its page of MMIO, or MSRs.  [accept]: the processor
    takes a pending interrupt. *)
Class ApicHw (W : Type) := {
  cpuid : Z → Z → Z * Z * Z * Z;
  rdmsr : Z → W → Z;
  wrmsr : Z → Z → W → W;
  word_read : Z → W → Z;
  word_write : Z → Z → W → W;
  in8 : Z → W → Z;
  out8 : Z → Z → W → W;
  sti : W → W;
  cli : W → W;
  accept : W → option (Z * W);
}.

Module Cpu.
Record Features := mkFeatures {
  max_cpuid : Z; max_extended_cpuid : Z;
  fpu : bool; vme : bool; de : bool; pse : bool; tsc : bool; mmx : bool; fxsr : bool; sse : bool; sse2 : bool; htt : bool;
  sse3 : bool; ssse3 : bool; sse4_1 : bool; sse4_2 : bool; x2apic : bool; aesni : bool; xsave : bool; avx : bool; apic : bool;
  vmx : bool; lahf : bool; lzcnt : bool; prefetchw : bool;
  syscall : bool; xd : bool; gbyte_pages : bool; rdtscp : bool; bits64 : bool; avx512f : bool }.

(** [((reg >> n) & 1) == 1] *)
Definition bit (reg n : Z) : bool := Z.land (Z.shiftr reg n) 1 =? 1.

(** A leaf that the processor does not have leaves its features unset. *)
Definition get (cpuid : Z → Z → Z * Z * Z * Z) : Features :=
  let eax (r : Z * Z * Z * Z) := let '(a, _, _, _) := r in a in
  let ebx (r : Z * Z * Z * Z) := let '(_, b, _, _) := r in b in
  let ecx (r : Z * Z * Z * Z) := let '(_, _, c, _) := r in c in
  let edx (r : Z * Z * Z * Z) := let '(_, _, _, d) := r in d in
  let max := eax (cpuid 0 0) in
  let max_ext := eax (cpuid 0x80000000 0) in
  let c1 n := (1 <=? max) && bit (ecx (cpuid 1 0)) n in
  let d1 n := (1 <=? max) && bit (edx (cpuid 1 0)) n in
  let b7 n := (7 <=? max) && bit (ebx (cpuid 7 0)) n in
  let ce n := (0x80000001 <=? max_ext) && bit (ecx (cpuid 0x80000001 0)) n in
  let de n := (0x80000001 <=? max_ext) && bit (edx (cpuid 0x80000001 0)) n in
  {| max_cpuid := max; max_extended_cpuid := max_ext;
     fpu := d1 0; vme := d1 1; de := d1 2; pse := d1 3; tsc := d1 4; apic := d1 9; mmx := d1 23; fxsr := d1 24; sse := d1 25;
     sse2 := d1 26; htt := d1 28;
     sse3 := c1 0; vmx := c1 5; ssse3 := c1 9; sse4_1 := c1 19; sse4_2 := c1 20; x2apic := c1 21; aesni := c1 25;
     xsave := c1 26; avx := c1 28;
     avx512f := b7 16;
     lahf := ce 0; lzcnt := ce 5; prefetchw := ce 8;
     syscall := de 11; xd := de 20; gbyte_pages := de 26; rdtscp := de 27; bits64 := de 29 |}.
End Cpu.

Module LocalApic.
Import Interrupts.

Definition IA32_APIC_BASE_EXTD : Z := Z.shiftl 1 10.
Definition IA32_APIC_BASE_EN : Z := Z.shiftl 1 11.
Definition IA32_APIC_BASE : Z := 0x1B.
Definition APIC_BASE : Z := 0xFEE00000.

Inductive Register :=
| Id | EndOfInterrupt | SpuriousInterruptVector
| Isr0 | Isr1 | Isr2 | Isr3 | Isr4 | Isr5 | Isr6 | Isr7
| Irr0 | Irr1 | Irr2 | Irr3 | Irr4 | Irr5 | Irr6 | Irr7
| LvtTimer | InitialCount | DivideConfiguration.
Definition offset (r : Register) : Z :=
  match r with
  | Id => 0x20 | EndOfInterrupt => 0xb0 | SpuriousInterruptVector => 0xf0
  | Isr0 => 0x100 | Isr1 => 0x110 | Isr2 => 0x120 | Isr3 => 0x130 | Isr4 => 0x140 | Isr5 => 0x150 | Isr6 => 0x160 | Isr7 => 0x170
  | Irr0 => 0x200 | Irr1 => 0x210 | Irr2 => 0x220 | Irr3 => 0x230 | Irr4 => 0x240 | Irr5 => 0x250 | Irr6 => 0x260 | Irr7 => 0x270
  | LvtTimer => 0x320 | InitialCount => 0x380 | DivideConfiguration => 0x3E0
  end.

(** The mapping is the virtual address of 1024 words. *)
Inductive ApicMode := Apic (mapping : Z) | X2Apic.
Record TimerState := mkTimer { dcr : Z; icr : Z; lvt : Z }.
Record OrigState := mkOrig { ia32_apic_base : Z; svr : Z; pic_a1 : Z; pic_21 : Z; timer : TimerState }.
Record LocalApic := mkApic { mode : ApicMode; orig : OrigState }.

Section ops.
Context {W : Type} `{ApicHw W}.

(** ** Registers *)
Definition read (self : LocalApic) (register : Register) (w : W) : Z :=
  match mode self with
  | Apic _ => word_read (offset register / 4) w
  | X2Apic => cast 32 (rdmsr (0x800 + offset register / 16) w)
  end.
Definition write (self : LocalApic) (register : Register) (value : Z) (w : W) : W :=
  match mode self with
  | Apic _ => word_write (offset register / 4) value w
  | X2Apic => wrmsr (0x800 + offset register / 16) value w
  end.
Definition id (self : LocalApic) (w : W) : Z :=
  match mode self with
  | Apic _ => Z.shiftr (read self Id w) 24
  | X2Apic => read self Id w
  end.

Definition write_icr (self : LocalApic) (val : Z) (w : W) : W :=
  match mode self with
  | Apic _ => word_write (0x300 / 4) (cast 32 val) (word_write (0x310 / 4) (cast 32 (Z.shiftr val 32)) w)
  | X2Apic => wrmsr 0x830 val w
  end.
Definition ipi (self : LocalApic) (dest_id ipi : Z) (w : W) : W :=
  let dest_id := match mode self with Apic _ => cast 32 (Z.shiftl dest_id 24) | X2Apic => dest_id end in
  write_icr self (Z.lor (cast 64 (Z.shiftl dest_id 32)) ipi) w.

Definition eoi (cur : option LocalApic) (w : W) : W :=
  match cur with Some apic => write apic EndOfInterrupt 0 w | None => w end.

(** Eight registers into 32 bytes, at [4 * ii .. 4 * (ii + 1)] *)
Fixpoint load_regs (self : LocalApic) (ii : nat) (regs : list Register) (buf : list Z) (w : W) : res unit (list Z) :=
  match regs with
  | [] => Ok buf
  | reg :: regs =>
      buf ← copy_from_slice buf (ii * 4) ((ii + 1) * 4) (le_bytes 4 (read self reg w));
      load_regs self (S ii) regs buf w
  end.
Definition two_u128 (buf : list Z) : Z * Z := (le_val (take 16 buf), le_val (drop 16 buf)).
Definition isr (self : LocalApic) (w : W) : res unit (Z * Z) :=
  buf ← load_regs self 0 [Isr0; Isr1; Isr2; Isr3; Isr4; Isr5; Isr6; Isr7] (replicate 32 0) w;
  Ok (two_u128 buf).
Definition irr (self : LocalApic) (w : W) : res unit (Z * Z) :=
  buf ← load_regs self 0 [Irr0; Irr1; Irr2; Irr3; Irr4; Irr5; Irr6; Irr7] (replicate 32 0) w;
  Ok (two_u128 buf).

(** ** [reset] *)
Section reset.
Context {HD : Type} (call : HD → Z → W → res unit (bool * W)) (ints : option (Ints HD)).

Definition LVT_MASK : Z := Z.shiftl 1 16.

(** Nothing in service any more *)
Fixpoint end_service (fuel : nat) (self : LocalApic) (w : W) : res unit W :=
  match fuel with
  | O => Diverge
  | S fuel =>
      '(lo, hi) ← isr self w;
      if (lo =? 0) && (hi =? 0) then Ok w else end_service fuel self (eoi (Some self) w)
  end.

(** With interrupts on, the processor takes those that pend. *)
Fixpoint serve (fuel : nat) (self : LocalApic) (st : Statics) (c : Core (W := W)) : res unit (Core (W := W)) :=
  match fuel with
  | O => Diverge
  | S fuel =>
      match accept (world c) with
      | None => Ok c
      | Some (v, w) => c ← interrupt_entry call (eoi (Some self)) v ints st (with_world w c); serve fuel self st c
      end
  end.
Fixpoint drain (fuel : nat) (self : LocalApic) (st : Statics) (c : Core (W := W)) : res unit (Core (W := W)) :=
  match fuel with
  | O => Diverge
  | S fuel =>
      '(irr0, irr1) ← irr self (world c);
      let '(eoi0, eoi1) := eoi_bitmask st in
      if negb (Z.land irr0 eoi0 =? 0) || negb (Z.land irr1 eoi1 =? 0)
      then c ← serve fuel self st (with_world (sti (world c)) c); drain fuel self st c
      else Ok c
  end.

Definition start_draining (st : Statics) : Statics := mkStatics (eoi_required st) true (drain_precedence st).

Definition restore (self : LocalApic) (w : W) : W :=
  let o := orig self in
  let w := cli w in
  let w := write self DivideConfiguration (dcr (timer o)) w in
  let w := write self LvtTimer (lvt (timer o)) w in
  let w := write self InitialCount (icr (timer o)) w in
  let w := write self SpuriousInterruptVector (svr o) w in
  let apic_mode := match mode self with X2Apic => IA32_APIC_BASE_EXTD | Apic _ => 0 end in
  let w := wrmsr IA32_APIC_BASE (Z.lor (ia32_apic_base o) apic_mode) w in
  out8 0x21 (pic_21 o) (out8 0xA1 (pic_a1 o) w).
Definition reset (fuel : nat) (self : LocalApic) (st : Statics) (c : Core (W := W)) : res unit (Statics * Core (W := W)) :=
  let w := write self LvtTimer (Z.lor (read self LvtTimer (world c)) LVT_MASK) (world c) in
  w ← end_service fuel self w;
  let st := start_draining st in
  c ← drain fuel self st (with_world w c);
  Ok (st, with_world (restore self (world c)) c).
End reset.

(** ** The timer that polls the serial port *)
Definition PERIODIC_MODE : Z := Z.shiftl 1 17.
Definition enable_reboot_timer {HD} (self : LocalApic) (soft_reboot_timer : HD) (ints : option (Ints HD)) (st : Statics) (w : W)
    : res unit (option (Ints HD) * Statics * W) :=
  let w := write self InitialCount 0 w in
  i ← unwrap ints;
  '(i, st) ← register SoftRebootTimer soft_reboot_timer true (i, st);
  let w := write self DivideConfiguration 0 w in
  let w := write self LvtTimer (Z.lor PERIODIC_MODE (as_u8 SoftRebootTimer)) w in
  let w := write self InitialCount 100000 w in
  Ok (Some i, st, w).

(** ** [init] *)
Section init.
Context {K : Type} `{KernelSpace K} `{PhysMem K}.

(** The machine of a core: its APIC and its APIC id, once known *)
Record Env := mkEnv { hw : W; mem : K; cur_apic : option LocalApic; apic_id : option Z }.

Definition map_apic : M K unit Z :=
  vaddr ← vaddr_4k 4096;
  k ← get;
  table ← lift (unwrap (kernel_table k));
  _ ← unwrap_M (PageTable.map_raw table vaddr Page4K
        (Z.lor (Z.lor (Z.lor (Z.lor APIC_BASE PAGE_NXE) PAGE_WRITE) PAGE_CACHE_DISABLE) PAGE_PRESENT));
  mret vaddr.

Definition new_base (features : Cpu.Features) (base : Z) : Z :=
  let apic_base := Z.land base (unot 64 0x0000000FFFFFF000) in
  let apic_base := Z.lor (Z.lor apic_base APIC_BASE) IA32_APIC_BASE_EN in
  Z.lor apic_base (if Cpu.x2apic features then IA32_APIC_BASE_EXTD else 0).

Definition enable_base (features : Cpu.Features) (w : W) : res unit (Z * Z * Z * W) :=
  let base := rdmsr IA32_APIC_BASE w in
  _ ← assert (negb (Z.land base IA32_APIC_BASE_EN =? 0));
  let a1 := in8 0xA1 w in
  let p21 := in8 0x21 w in
  let w := out8 0x21 0xFF (out8 0xA1 0xFF w) in
  Ok (base, a1, p21, wrmsr IA32_APIC_BASE (new_base features base) w).

Definition set_hw (w : W) : M Env unit unit := λ e, Ok (tt, mkEnv w (mem e) (cur_apic e) (apic_id e)).
Definition set_apic (apic : LocalApic) (w : W) : M Env unit unit := λ e, Ok (tt, mkEnv w (mem e) (Some apic) (Some (id apic w))).
Definition on_mem {A} (m : M K unit A) : M Env unit A := λ e,
  match m (mem e) with
  | Ok (a, k) => Ok (a, mkEnv (hw e) k (cur_apic e) (apic_id e))
  | Err (x, k) => Err (x, mkEnv (hw e) k (cur_apic e) (apic_id e))
  | Panic => Panic
  | Diverge => Diverge
  end.

Definition save_state (mode : ApicMode) (base a1 p21 : Z) (w : W) : LocalApic :=
  let apic := mkApic mode (mkOrig base 0 a1 p21 (mkTimer 0 0 0)) in
  mkApic mode (mkOrig base (read apic SpuriousInterruptVector w) a1 p21
    (mkTimer (read apic DivideConfiguration w) (read apic InitialCount w) (read apic LvtTimer w))).

Definition init : M Env unit unit :=
  e ← get;
  _ ← lift (assert (match cur_apic e with None => true | Some _ => false end));
  let features := Cpu.get cpuid in
  _ ← lift (assert (Cpu.apic features));
  '(base, a1, p21, w) ← lift (enable_base features (hw e));
  _ ← set_hw w;
  mode ← (if Cpu.x2apic features then mret X2Apic else v ← on_mem map_apic; mret (Apic v));
  e ← get;
  let apic := save_state mode base a1 p21 (hw e) in
  let w := write apic SpuriousInterruptVector (Z.lor (Z.shiftl 1 8) 0xFF) (hw e) in
  _ ← lift (assert (match apic_id e with None => true | Some _ => false end));
  set_apic apic w.
End init.

End ops.
End LocalApic.
