(* ===== verification/ApicReset.v ===== *)
(** What [reset] leaves of the local APIC (LocalApic.v): the state that [init] found, with
    nothing in service and nothing pending.

    The machine is seen through a [View] of what the driver relies on; [ApicLaws] states
    how each access changes it. *)
From Stdlib Require Import ZArith Lia.
From stdpp Require Import prelude list numbers gmap sets fin_sets relations.
From S2P Require Import Prelude Packet PageTable Pci Intel Interrupts InterruptTables LocalApic.

Module ApicReset.
Import Interrupts LocalApic.

(** ** The machine as the driver sees it *)
Record View := mkView {
  v_base : Z; v_a1 : Z; v_21 : Z;                       (* IA32_APIC_BASE and the masks of the PICs *)
  v_svr : Z; v_lvt : Z; v_count : Z; v_div : Z;         (* the registers that [reset] restores *)
  v_on : bool; v_isr : gset Z; v_irr : gset Z }.        (* interrupts on; vectors in service, pending *)

Definition set_base a v := mkView a (v_a1 v) (v_21 v) (v_svr v) (v_lvt v) (v_count v) (v_div v) (v_on v) (v_isr v) (v_irr v).
Definition set_a1 a v := mkView (v_base v) a (v_21 v) (v_svr v) (v_lvt v) (v_count v) (v_div v) (v_on v) (v_isr v) (v_irr v).
Definition set_21 a v := mkView (v_base v) (v_a1 v) a (v_svr v) (v_lvt v) (v_count v) (v_div v) (v_on v) (v_isr v) (v_irr v).
(** Software-disabling the APIC masks its timer. *)
Definition set_svr a v := mkView (v_base v) (v_a1 v) (v_21 v) a (if Z.testbit a 8 then v_lvt v else Z.lor (v_lvt v) LVT_MASK)
  (v_count v) (v_div v) (v_on v) (v_isr v) (v_irr v).
Definition set_lvt a v := mkView (v_base v) (v_a1 v) (v_21 v) (v_svr v) a (v_count v) (v_div v) (v_on v) (v_isr v) (v_irr v).
Definition set_count a v := mkView (v_base v) (v_a1 v) (v_21 v) (v_svr v) (v_lvt v) a (v_div v) (v_on v) (v_isr v) (v_irr v).
Definition set_div a v := mkView (v_base v) (v_a1 v) (v_21 v) (v_svr v) (v_lvt v) (v_count v) a (v_on v) (v_isr v) (v_irr v).
Definition set_on a v := mkView (v_base v) (v_a1 v) (v_21 v) (v_svr v) (v_lvt v) (v_count v) (v_div v) a (v_isr v) (v_irr v).
Definition set_sets i r v := mkView (v_base v) (v_a1 v) (v_21 v) (v_svr v) (v_lvt v) (v_count v) (v_div v) (v_on v) i r.

Definition v_x2 (v : View) : bool := Z.testbit (v_base v) 10.
Definition v_enabled (v : View) : bool := Z.testbit (v_svr v) 8.
Definition highest (x : Z) (s : gset Z) : Prop := x ∈ s ∧ ∀ y, y ∈ s → y ≤ x.

(** [reg k]: the register at offset [16 * k], by either access.  [storable]: the register keeps the value. *)
Class ApicLaws (W : Type) `{ApicHw W} := {
  reg : Z → W → Z;
  set_reg : Z → Z → W → W;
  view : W → View;
  storable : Z → Z → Prop;
  sent : W → list (Z * Z);
  (* the two ways to a register *)
  x2_read w k : v_x2 (view w) = true → 0 ≤ k < 64 → k ≠ 0x30 → rdmsr (0x800 + k) w = reg k w;
  x2_write w k v : v_x2 (view w) = true → 0 ≤ k < 64 → k ≠ 0x30 → wrmsr (0x800 + k) v w = set_reg k v w;
  mm_read w k : v_x2 (view w) = false → 0 ≤ k < 64 → word_read (4 * k) w = reg k w;
  mm_write w k v : v_x2 (view w) = false → 0 ≤ k < 64 → word_write (4 * k) v w = set_reg k v w;
  (* reading *)
  reg_fits w k : fits 32 (reg k w);
  reg_svr w : reg 0x0F w = v_svr (view w);
  reg_lvt w : reg 0x32 w = v_lvt (view w);
  reg_count w : reg 0x38 w = v_count (view w);
  reg_div w : reg 0x3E w = v_div (view w);
  reg_isr w v : 0 ≤ v < 256 → Z.testbit (reg (0x10 + v / 32) w) (v mod 32) = bool_decide (v ∈ v_isr (view w));
  reg_irr w v : 0 ≤ v < 256 → Z.testbit (reg (0x20 + v / 32) w) (v mod 32) = bool_decide (v ∈ v_irr (view w));
  vectors w v : v ∈ v_isr (view w) ∪ v_irr (view w) → 0 ≤ v < 256;
  base_msr w : rdmsr IA32_APIC_BASE w = v_base (view w);
  base_fits w : fits 64 (v_base (view w));
  base_x2 w : Cpu.x2apic (Cpu.get cpuid) = false → v_x2 (view w) = false;
  pic_a1_in w : in8 0xA1 w = v_a1 (view w);
  pic_21_in w : in8 0x21 w = v_21 (view w);
  disabled_masked w : v_enabled (view w) = false → Z.testbit (v_lvt (view w)) 16 = true;
  (* what a register holds can be stored there again, as can what the driver writes *)
  storable_reg w k : storable k (reg k w);
  storable_svr : storable 0x0F 0x1FF;
  storable_masked v : storable 0x32 v → storable 0x32 (Z.lor v LVT_MASK);
  storable_periodic : storable 0x32 0x20020;
  storable_count v : fits 32 v → storable 0x38 v;
  storable_div : storable 0x3E 0;
  (* writing *)
  view_svr w v : storable 0x0F v → view (set_reg 0x0F v w) = set_svr v (view w);
  view_lvt w v : storable 0x32 v → v_enabled (view w) = true → view (set_reg 0x32 v w) = set_lvt v (view w);
  view_count w v : storable 0x38 v → view (set_reg 0x38 v w) = set_count v (view w);
  view_div w v : storable 0x3E v → view (set_reg 0x3E v w) = set_div v (view w);
  view_eoi w v : highest v (v_isr (view w)) → view (set_reg 0x0B 0 w) = set_sets (v_isr (view w) ∖ {[v]}) (v_irr (view w)) (view w);
  view_eoi_none w : v_isr (view w) = ∅ → view (set_reg 0x0B 0 w) = view w;
  view_base w v : fits 64 v → Z.testbit v 11 = true → (v_x2 (view w) = true → Z.testbit v 10 = true) →
    view (wrmsr IA32_APIC_BASE v w) = set_base v (view w);
  view_a1 w v : fits 8 v → view (out8 0xA1 v w) = set_a1 v (view w);
  view_21 w v : fits 8 v → view (out8 0x21 v w) = set_21 v (view w);
  pic_fits w : fits 8 (v_a1 (view w)) ∧ fits 8 (v_21 (view w));
  (* the processor *)
  view_sti w : view (sti w) = set_on true (view w);
  view_cli w : view (cli w) = set_on false (view w);
  view_accept w v w' : accept w = Some (v, w') → v ∈ v_irr (view w) ∧
    view w' = set_sets ({[v]} ∪ v_isr (view w)) (v_irr (view w) ∖ {[v]}) (view w);
  accept_none w : accept w = None → v_on (view w) = true → v_enabled (view w) = true → v_isr (view w) = ∅ → v_irr (view w) = ∅;
  (* interrupts to other processors: the destination is taken from the high word of the command *)
  x2_icr w v : v_x2 (view w) = true → fits 64 v →
    view (wrmsr 0x830 v w) = view w ∧ sent (wrmsr 0x830 v w) = sent w ++ [(v / 2 ^ 32, v mod 2 ^ 32)];
  icr_high w v : fits 32 v → view (set_reg 0x31 v w) = view w ∧ sent (set_reg 0x31 v w) = sent w ∧
    reg 0x31 (set_reg 0x31 v w) = Z.land v 0xFF000000;
  icr_low w v : fits 32 v → view (set_reg 0x30 v w) = view w ∧ sent (set_reg 0x30 v w) = sent w ++ [(reg 0x31 w / 2 ^ 24, v)];
}.

(** ** Words of bits *)
Fixpoint words (l : list Z) : Z := match l with [] => 0 | r :: l => r + 2 ^ 32 * words l end.

Lemma words_bits l : Forall (fits 32) l → ∀ n, 0 ≤ n < 32 * zlen l →
  Z.testbit (words l) n = Z.testbit (default 0 (l !! Z.to_nat (n / 32))) (n mod 32).
Proof.
  induction l as [|r l IH]; intros Hl n Hn; [unfold zlen in Hn; cbn in Hn; lia|].
  inversion Hl as [|? ? Hr Hl']; subst. cbn [words].
  assert (Z.testbit (r + 2 ^ 32 * words l) n = if n <? 32 then Z.testbit r n else Z.testbit (words l) (n - 32)) as ->.
  { destruct (Z.ltb_spec n 32).
    - rewrite <- (Z.mod_pow2_bits_low _ 32) by lia. rewrite (Z.mul_comm (2 ^ 32)), Z.mod_add by lia.
      unfold fits in Hr. by rewrite Z.mod_small.
    - replace n with (n - 32 + 32) at 1 by lia. rewrite <- Z.div_pow2_bits by lia.
      rewrite (Z.mul_comm (2 ^ 32)), Z.div_add by lia. unfold fits in Hr. by rewrite Z.div_small, Z.add_0_l. }
  destruct (Z.ltb_spec n 32).
  - rewrite Z.div_small, Z.mod_small by lia. done.
  - rewrite IH; [|done|unfold zlen in *; cbn [length] in Hn; lia].
    replace (n / 32) with ((n - 32) / 32 + 1) by (Z.to_euclidean_division_equations; lia).
    replace (n mod 32) with ((n - 32) mod 32) by (Z.to_euclidean_division_equations; lia).
    rewrite Z2Nat.inj_add by (Z.to_euclidean_division_equations; lia). by rewrite Nat.add_1_r.
Qed.

Lemma le_val_append a b : le_val (a ++ b) = le_val a + 2 ^ (8 * Z.of_nat (length a)) * le_val b.
Proof.
  induction a as [|x a IH]; cbn [app le_val length]; [cbn; lia|]. rewrite IH, Nat2Z.inj_succ.
  replace (8 * Z.succ (Z.of_nat (length a))) with (8 + 8 * Z.of_nat (length a)) by lia. rewrite Z.pow_add_r by lia. lia.
Qed.
Lemma words_bytes l : Forall (fits 32) l → le_val (concat (le_bytes 4 <$> l)) = words l.
Proof.
  induction 1 as [|r l Hr Hl IH]; [done|]. rewrite fmap_cons. cbn [concat words].
  rewrite le_val_append, IH, le_val_bytes, length_le_bytes. change (8 * Z.of_nat 4) with 32.
  unfold fits in Hr. rewrite Z.mod_small by done. done.
Qed.

(** The bits of the vectors in two words of 128 *)
Lemma two_words_mask l : Forall (fits 32) l → length l = 8%nat → ∀ v, 0 ≤ v < 256 →
  mask_at (two_u128 (concat (le_bytes 4 <$> l))) (Z.to_nat v) = Z.testbit (default 0 (l !! Z.to_nat (v / 32))) (v mod 32).
Proof.
  intros Hl Hlen v Hv. rewrite <- (take_drop 4 l) in Hl |- * at 1. apply Forall_app in Hl as [Hl1 Hl2].
  rewrite fmap_app, concat_app. unfold two_u128.
  assert (length (concat (le_bytes 4 <$> take 4 l)) = 16%nat) as H16.
  { do 8 (destruct l as [|? l]; [discriminate Hlen|]). cbn [take fmap list_fmap concat]. rewrite !length_app, !length_le_bytes. done. }
  rewrite take_app_length', drop_app_length' by done. rewrite !words_bytes by done.
  unfold mask_at. cbn [fst snd].
  assert (Z.of_nat (Z.to_nat v mod 128) = v mod 128) as -> by (rewrite Nat2Z.inj_mod, Z2Nat.id by lia; done).
  destruct (Nat.ltb_spec (Z.to_nat v) 128) as [Hlt|Hge].
  - rewrite words_bits; [|done|unfold zlen; rewrite length_take, Hlen; rewrite Z.mod_small; lia].
    rewrite (Z.mod_small v) by lia. rewrite lookup_take_lt; [done|]. Z.to_euclidean_division_equations; lia.
  - assert (v mod 128 = v - 128) as -> by (Z.to_euclidean_division_equations; lia).
    rewrite words_bits; [|done|unfold zlen; rewrite length_drop, Hlen; lia].
    rewrite lookup_drop. f_equal; [f_equal; f_equal|]; Z.to_euclidean_division_equations; lia.
Qed.

Lemma mask_zero m : (∀ v, 0 ≤ v < 256 → mask_at m (Z.to_nat v) = false) → fits 128 m.1 → fits 128 m.2 → m = (0, 0).
Proof.
  assert (∀ z, fits 128 z → (∀ n, 0 ≤ n < 128 → Z.testbit z n = false) → z = 0) as Hz.
  { intros z Hf Hn. apply Z.bits_inj_0. intros n. destruct (Z.ltb_spec n 0); [by rewrite Z.testbit_neg_r|].
    destruct (Z.ltb_spec n 128); [by apply Hn|]. unfold fits in Hf.
    rewrite <- (Z.mod_small z (2 ^ 128)) by done. by apply Z.mod_pow2_bits_high. }
  intros H H1 H2. destruct m as [a b]. f_equal; (apply Hz; [done|]; intros n Hn).
  - specialize (H n ltac:(lia)). unfold mask_at in H. rewrite (proj2 (Nat.ltb_lt _ _)) in H by lia.
    rewrite Nat.mod_small in H by lia. by rewrite Z2Nat.id in H by lia.
  - specialize (H (n + 128) ltac:(lia)). unfold mask_at in H. rewrite (proj2 (Nat.ltb_ge _ _)) in H by lia.
    replace (Z.of_nat (Z.to_nat (n + 128) mod 128)) with n in H; [done|].
    rewrite Nat2Z.inj_mod, Z2Nat.id by lia. Z.to_euclidean_division_equations; lia.
Qed.

Section driver.
Context {W : Type} `{ApicLaws W}.

(** Reading a block of eight registers *)
Lemma load_regs_ok self w regs : ∀ ii pre, length pre = (4 * ii)%nat →
  load_regs self ii regs (pre ++ replicate (4 * length regs) 0) w =
  Ok (pre ++ concat (le_bytes 4 <$> ((λ r, read self r w) <$> regs))).
Proof.
  induction regs as [|r regs IH]; intros ii pre Hpre; [done|]. cbn [load_regs length].
  replace (4 * S (length regs))%nat with (4 + 4 * length regs)%nat by lia. rewrite replicate_add.
  replace (ii * 4)%nat with (length pre) by lia.
  replace ((ii + 1) * 4)%nat with (length pre + length (replicate 4 0))%nat by (rewrite length_replicate; lia).
  rewrite (copy_from_slice_middle pre (replicate 4 0) (le_bytes 4 (read self r w)))
    by (by rewrite length_le_bytes).
  cbn [mbind res_bind]. rewrite app_assoc, IH by (rewrite length_app, length_le_bytes; lia).
  rewrite !fmap_cons. cbn [concat]. by rewrite <- app_assoc.
Qed.

(** The driver uses the way to the registers that the mode of the APIC asks for. *)
Definition is_x2 (self : LocalApic) : bool := match mode self with X2Apic => true | Apic _ => false end.
Definition matches (self : LocalApic) (v : View) : Prop := v_x2 v = is_x2 self.
Definition number (r : Register) : Z := offset r / 16.

Lemma number_range r : 0 ≤ number r < 64 ∧ number r ≠ 0x30 ∧ offset r / 4 = 4 * number r.
Proof. by destruct r. Qed.

Lemma read_reg self w r : matches self (view w) → read self r w = reg (number r) w.
Proof.
  intros Hm. destruct (number_range r) as (Hr & Hn & Ho). unfold read, matches, is_x2 in *.
  destruct (mode self); [rewrite Ho; by apply mm_read|].
  rewrite x2_read by done. unfold cast. apply Z.mod_small. apply reg_fits.
Qed.
Lemma write_reg self w r v : matches self (view w) → write self r v w = set_reg (number r) v w.
Proof.
  intros Hm. destruct (number_range r) as (Hr & Hn & Ho). unfold write, matches, is_x2 in *.
  destruct (mode self); [rewrite Ho; by apply mm_write|by apply x2_write].
Qed.

(** ** Blocks of vectors *)
Definition shows (m : Z * Z) (s : gset Z) : Prop := ∀ v, 0 ≤ v < 256 → mask_at m (Z.to_nat v) = bool_decide (v ∈ s).

Lemma vector_block self w regs base s : matches self (view w) → length regs = 8%nat →
  (∀ i r, regs !! i = Some r → number r = base + Z.of_nat i) →
  (∀ v, 0 ≤ v < 256 → Z.testbit (reg (base + v / 32) w) (v mod 32) = bool_decide (v ∈ s)) →
  ∃ m, load_regs self 0 regs (replicate 32 0) w = Ok m ∧ shows (two_u128 m) s ∧
    fits 128 (two_u128 m).1 ∧ fits 128 (two_u128 m).2.
Proof.
  intros Hm Hlen Hnum Hbits. pose proof (load_regs_ok self w regs 0 [] eq_refl) as Hload.
  rewrite Hlen in Hload. cbn [app] in Hload. change (4 * 8)%nat with 32%nat in Hload.
  set (vals := (λ r, read self r w) <$> regs) in *.
  assert (vals = (λ r, reg (number r) w) <$> regs) as Hvals.
  { apply list_fmap_ext. intros i r _. by apply read_reg. }
  assert (Forall (fits 32) vals) as Hfits.
  { rewrite Hvals. apply Forall_fmap, Forall_true. intros r. apply reg_fits. }
  eexists. split; [exact Hload|]. split; [|].
  - intros v Hv. rewrite two_words_mask; [|done|subst vals; by rewrite length_fmap|done].
    rewrite <- Hbits by done. f_equal. rewrite Hvals, list_lookup_fmap.
    destruct (lookup_lt_is_Some_2 regs (Z.to_nat (v / 32))) as [r Hr]; [rewrite Hlen; Z.to_euclidean_division_equations; lia|].
    rewrite Hr. cbn [fmap option_fmap option_map default from_option]. rewrite (Hnum _ _ Hr).
    by rewrite Z2Nat.id by (Z.to_euclidean_division_equations; lia).
  - assert (bytes_ok (concat (le_bytes 4 <$> vals))) as Hok.
    { apply Forall_concat, Forall_fmap, Forall_true. intros r. apply le_bytes_ok. }
    assert (length (concat (le_bytes 4 <$> vals)) = 32%nat) as H32.
    { assert (length vals = 8%nat) as Hl8 by (subst vals; by rewrite length_fmap). clear -Hl8.
      do 8 (destruct vals as [|? vals]; [discriminate Hl8|]). destruct vals; [|discriminate Hl8]. reflexivity. }
    unfold two_u128. cbn [fst snd]. split.
    + assert (zlen (take 16 (concat (le_bytes 4 <$> vals))) = 16) as Hz by (unfold zlen; by rewrite length_take, H32).
      change 128 with (8 * 16). rewrite <- Hz. apply le_val_bound. by apply Forall_take.
    + assert (zlen (drop 16 (concat (le_bytes 4 <$> vals))) = 16) as Hz by (unfold zlen; by rewrite length_drop, H32).
      change 128 with (8 * 16). rewrite <- Hz. apply le_val_bound. by apply Forall_drop.
Qed.

Lemma isr_shows self w : matches self (view w) →
  ∃ m, isr self w = Ok m ∧ shows m (v_isr (view w)) ∧ fits 128 m.1 ∧ fits 128 m.2.
Proof.
  intros Hm. destruct (vector_block self w [Isr0; Isr1; Isr2; Isr3; Isr4; Isr5; Isr6; Isr7] 0x10 (v_isr (view w)) Hm eq_refl)
    as (m & Hl & Hs & Hf).
  - intros i r Hi. do 8 (destruct i as [|i]; [by simplify_eq/=|]). done.
  - intros v Hv. by apply reg_isr.
  - eexists. unfold isr. rewrite Hl. by split.
Qed.
Lemma irr_shows self w : matches self (view w) →
  ∃ m, irr self w = Ok m ∧ shows m (v_irr (view w)) ∧ fits 128 m.1 ∧ fits 128 m.2.
Proof.
  intros Hm. destruct (vector_block self w [Irr0; Irr1; Irr2; Irr3; Irr4; Irr5; Irr6; Irr7] 0x20 (v_irr (view w)) Hm eq_refl)
    as (m & Hl & Hs & Hf).
  - intros i r Hi. do 8 (destruct i as [|i]; [by simplify_eq/=|]). done.
  - intros v Hv. by apply reg_irr.
  - eexists. unfold irr. rewrite Hl. by split.
Qed.

Lemma shows_empty m s : shows m s → fits 128 m.1 → fits 128 m.2 → (∀ v, v ∈ s → 0 ≤ v < 256) →
  (m.1 =? 0) && (m.2 =? 0) = bool_decide (s = ∅).
Proof.
  intros Hs H1 H2 Hr. case_bool_decide as He.
  - assert (m = (0, 0)) as ->; [|done]. apply mask_zero; [|done..]. intros v Hv. rewrite Hs by done. subst s.
    apply bool_decide_false. set_solver.
  - apply not_true_iff_false. rewrite andb_true_iff, !Z.eqb_eq. intros [E1 E2]. apply He.
    apply set_eq. intros v. split; [|set_solver]. intros Hv. exfalso. specialize (Hs v (Hr v Hv)).
    rewrite bool_decide_true in Hs by done. unfold mask_at in Hs. rewrite E1, E2 in Hs.
    destruct (Z.to_nat v <? 128)%nat; by rewrite Z.bits_0 in Hs.
Qed.

(** ** Ending what is in service *)
Lemma highest_exists (s : gset Z) : s ≠ ∅ → ∃ x, highest x s.
Proof.
  intros Hs. destruct (minimal_exists_elem_of_L (flip Z.le) s Hs) as (x & Hx & Hmin).
  exists x. split; [done|]. intros y Hy. specialize (Hmin y Hy). unfold flip in Hmin. lia.
Qed.

Lemma eoi_view self w v : matches self (view w) → highest v (v_isr (view w)) →
  view (eoi (Some self) w) = set_sets (v_isr (view w) ∖ {[v]}) (v_irr (view w)) (view w).
Proof. intros Hm Hv. cbn [eoi]. rewrite write_reg by done. by apply view_eoi. Qed.

Lemma set_sets_twice i r i' r' v : set_sets i r (set_sets i' r' v) = set_sets i r v.
Proof. done. Qed.
Lemma set_sets_id v : set_sets (v_isr v) (v_irr v) v = v.
Proof. by destruct v. Qed.

Lemma end_service_ok fuel : ∀ self w, matches self (view w) → (base.size (v_isr (view w)) < fuel)%nat →
  ∃ w', end_service fuel self w = Ok w' ∧ view w' = set_sets ∅ (v_irr (view w)) (view w).
Proof.
  induction fuel as [|fuel IH]; intros self w Hm Hf; [lia|]. cbn [end_service].
  destruct (isr_shows self w Hm) as ([lo hi] & -> & Hs & H1 & H2). cbn [mbind res_bind].
  pose proof (shows_empty (lo, hi) _ Hs H1 H2) as He. cbn [fst snd] in He.
  rewrite He by (intros v Hv; apply (vectors w); set_solver). case_bool_decide as Hempty.
  - exists w. split; [done|]. by rewrite <- Hempty, set_sets_id.
  - destruct (highest_exists _ Hempty) as [v Hv]. pose proof (eoi_view self w v Hm Hv) as Hview.
    destruct (IH self (eoi (Some self) w)) as (w' & -> & Hw').
    + by rewrite Hview.
    + rewrite Hview. cbn [v_isr set_sets]. destruct Hv as [Hin _]. rewrite size_difference by set_solver.
      rewrite size_singleton.
      assert (base.size (v_isr (view w)) ≠ 0%nat) by (apply size_non_empty_iff; set_solver). lia.
    + exists w'. split; [done|]. by rewrite Hw', Hview.
Qed.

(** ** Draining what is pending *)
Section drain.
Context {HD : Type} (call : HD → Z → W → res unit (bool * W)) (ints : option (Ints HD)).
Context (st : Statics) (Hdrain : draining_eois st = true).

(** Vectors that need an EOI, and whose handlers do not run while EOIs are drained *)
Definition acknowledged (v : Z) : Prop :=
  eoi_required st !! Z.to_nat v = Some true ∧ drain_precedence st !! Z.to_nat v = Some false.
Definition shallow (c : Core (W := W)) : Prop := 0 ≤ interrupt_depth c < 2 ^ 64 - 1 ∧ 0 ≤ exception_depth c < 2 ^ 64 - 1.

Lemma entry_drained ack v (c : Core (W := W)) : acknowledged v → shallow c →
  interrupt_entry call ack v ints st c = Ok (with_world (ack (world c)) c).
Proof.
  intros [He Hp] [Hi Hx]. unfold interrupt_entry. destruct (enter_leave v c Hi Hx) as (k' & -> & Hw & Hlv).
  cbn [mbind res_bind]. rewrite (index_lookup _ _ _ Hp). cbn [mbind res_bind]. rewrite Hdrain. cbn [negb orb mbind res_bind].
  rewrite (index_lookup _ _ _ He). cbn [mbind res_bind andb]. by rewrite Hlv, Hw.
Qed.

Lemma serve_ok fuel : ∀ self c, matches self (view (world c)) → shallow c →
  v_on (view (world c)) = true → v_enabled (view (world c)) = true → v_isr (view (world c)) = ∅ →
  (∀ v, v ∈ v_irr (view (world c)) → acknowledged v) → (base.size (v_irr (view (world c))) < fuel)%nat →
  ∃ w', serve call ints fuel self st c = Ok (with_world w' c) ∧ view w' = set_sets ∅ ∅ (view (world c)).
Proof.
  induction fuel as [|fuel IH]; intros self c Hm Hsh Hon Hen Hisr Hirr Hf; [lia|]. cbn [serve].
  destruct (accept (world c)) as [[v w]|] eqn:Ea.
  - destruct (view_accept _ _ _ Ea) as [Hv Hview]. rewrite Hisr, union_empty_r_L in Hview.
    rewrite entry_drained by (first [by apply Hirr|done]). cbn [mbind res_bind]. rewrite world_with, with_world_twice.
    assert (view (eoi (Some self) w) = set_sets ∅ (v_irr (view (world c)) ∖ {[v]}) (view (world c))) as Hview'.
    { rewrite (eoi_view self w v); rewrite Hview; [|done|split; cbn; set_solver].
      cbn [v_isr v_irr set_sets]. rewrite set_sets_twice. f_equal. set_solver. }
    destruct (IH self (with_world (eoi (Some self) w) c)) as (w' & Hs & Hw'); rewrite ?world_with, ?Hview'; cbn [v_irr v_isr set_sets]; try done.
    + intros u Hu. apply Hirr. set_solver.
    + rewrite size_difference by set_solver. rewrite size_singleton.
      assert (base.size (v_irr (view (world c))) ≠ 0%nat) by (apply size_non_empty_iff; set_solver). lia.
    + exists w'. split; [by rewrite Hs|]. by rewrite Hw', world_with, Hview'.
  - exists (world c). split; [by destruct c|]. pose proof (accept_none _ Ea Hon Hen Hisr) as Hnone.
    rewrite <- Hisr at 1. rewrite <- Hnone. by rewrite set_sets_id.
Qed.

(** Something pends that needs an EOI *)
Lemma pending_test m s : shows m s → fits 128 m.1 → fits 128 m.2 → (∀ v, v ∈ s → 0 ≤ v < 256) →
  (∀ v, v ∈ s → acknowledged v) → (length (eoi_required st) ≤ 256)%nat →
  negb (Z.land m.1 (eoi_bitmask st).1 =? 0) || negb (Z.land m.2 (eoi_bitmask st).2 =? 0) = bool_decide (s ≠ ∅).
Proof.
  intros Hs H1 H2 Hr Hack Hlen. case_bool_decide as He.
  - apply set_choose_L in He as [v Hv]. pose proof (Hr v Hv) as Hrange. destruct (Hack v Hv) as [Hreq _].
    pose proof (Hs v Hrange) as Hm. rewrite bool_decide_true in Hm by done.
    pose proof (mask_bits (eoi_required st) Hlen (Z.to_nat v) ltac:(lia)) as He. rewrite Hreq in He.
    fold (eoi_bitmask st) in He. cbn [default from_option Datatypes.id] in He.
    unfold mask_at in Hm, He. rewrite <- negb_andb. apply negb_true_iff, not_true_iff_false.
    rewrite andb_true_iff, !Z.eqb_eq. intros [E1 E2]. destruct (Z.to_nat v <? 128)%nat.
    + assert (Z.testbit (Z.land m.1 (eoi_bitmask st).1) (Z.of_nat (Z.to_nat v mod 128)) = true) as Hb by (by rewrite Z.land_spec, Hm, He).
      by rewrite E1, Z.bits_0 in Hb.
    + assert (Z.testbit (Z.land m.2 (eoi_bitmask st).2) (Z.of_nat (Z.to_nat v mod 128)) = true) as Hb by (by rewrite Z.land_spec, Hm, He).
      by rewrite E2, Z.bits_0 in Hb.
  - subst s. assert (m = (0, 0)) as ->; [|done]. apply mask_zero; [|done..]. intros v Hv.
    rewrite Hs by done. apply bool_decide_false. set_solver.
Qed.

Lemma drain_ok fuel self c : matches self (view (world c)) → shallow c →
  v_enabled (view (world c)) = true → v_isr (view (world c)) = ∅ → (length (eoi_required st) ≤ 256)%nat →
  (∀ v, v ∈ v_irr (view (world c)) → acknowledged v) → (base.size (v_irr (view (world c))) + 1 < fuel)%nat →
  ∃ w' b, drain call ints fuel self st c = Ok (with_world w' c) ∧ view w' = set_on b (set_sets ∅ ∅ (view (world c))).
Proof.
  intros Hm Hsh Hen Hisr Hlen Hirr Hf.
  assert (∀ f c, matches self (view (world c)) → v_irr (view (world c)) = ∅ → drain call ints (S f) self st c = Ok c) as Hdone.
  { intros f c' Hm' Hnone. cbn [drain]. destruct (irr_shows self (world c') Hm') as ([i0 i1] & -> & Hs & H1 & H2).
    cbn [mbind res_bind]. rewrite Hnone in Hs. pose proof (pending_test _ _ Hs H1 H2) as Ht.
    destruct (eoi_bitmask st) as [e0 e1]. cbn [fst snd] in Ht. rewrite Ht by (done || set_solver).
    by rewrite bool_decide_false by (intros Hn; by apply Hn). }
  destruct fuel as [|fuel]; [lia|]. cbn [drain].
  destruct (irr_shows self (world c) Hm) as ([i0 i1] & -> & Hs & H1 & H2). cbn [mbind res_bind].
  pose proof (pending_test _ _ Hs H1 H2) as Ht. destruct (eoi_bitmask st) as [e0 e1]. cbn [fst snd] in Ht.
  rewrite Ht by (try done; intros v Hv; apply (vectors (world c)); set_solver). case_bool_decide as He.
  - destruct (serve_ok fuel self (with_world (sti (world c)) c)) as (w' & -> & Hw'); rewrite ?world_with, ?view_sti; try done.
    { cbn [v_irr set_on]. lia. }
    rewrite world_with, view_sti in Hw'. cbn [mbind res_bind]. rewrite with_world_twice.
    destruct fuel as [|fuel]; [lia|]. rewrite Hdone by (by rewrite world_with, Hw').
    exists w', true. by split.
  - exists (world c), (v_on (view (world c))). split; [by destruct c|].
    destruct (view (world c)); cbn in *; by subst.
Qed.
End drain.

(** ** Restoring *)
Definition saved (self : LocalApic) (w : W) : Prop :=
  orig self = mkOrig (v_base (view w)) (v_svr (view w)) (v_a1 (view w)) (v_21 (view w))
    (mkTimer (v_div (view w)) (v_count (view w)) (v_lvt (view w))).

Lemma masked_again a : Z.testbit a 16 = true → Z.lor a LVT_MASK = a.
Proof.
  intros Ha. apply Z.bits_inj'. intros n Hn. rewrite Z.lor_spec. unfold LVT_MASK. rewrite Z.shiftl_1_l.
  destruct (Z.eq_dec n 16) as [->|Hne]; [by rewrite Ha|]. by rewrite Z.pow2_bits_false, orb_false_r by lia.
Qed.

Lemma testbit_lor_l a b n : Z.testbit a n = true → Z.testbit (Z.lor a b) n = true.
Proof. intros H'. by rewrite Z.lor_spec, H'. Qed.

Lemma fits_lor w a b : 0 ≤ w → fits w a → fits w b → fits w (Z.lor a b).
Proof.
  unfold fits. intros Hw Ha Hb. assert (0 ≤ Z.lor a b) by (apply Z.lor_nonneg; lia). split; [done|].
  destruct (Z.eq_dec (Z.lor a b) 0) as [->|Hne]; [lia|]. apply Z.log2_lt_pow2; [lia|]. rewrite Z.log2_lor by lia.
  assert (∀ z, 0 ≤ z < 2 ^ w → z = 0 ∨ Z.log2 z < w) as Hlog.
  { intros z Hz. destruct (Z.eq_dec z 0); [by left|right]. apply Z.log2_lt_pow2; lia. }
  assert (0 < w) by (destruct (Z.eq_dec w 0); [subst; cbn in *; assert (a = 0) by lia; assert (b = 0) by lia; by subst|lia]).
  destruct (Hlog _ Ha) as [->|], (Hlog _ Hb) as [->|]; cbn [Z.log2]; lia.
Qed.

Lemma fits_land w a b : fits w a → 0 ≤ b → fits w (Z.land a b).
Proof.
  unfold fits. intros Ha Hb. split; [apply Z.land_nonneg; lia|].
  pose proof (N.land_le_l (Z.to_N a) (Z.to_N b)) as Hle. apply N2Z.inj_le in Hle.
  rewrite N2Z.inj_land, !Z2N.id in Hle by lia. lia.
Qed.

(** The base that [reset] restores *)
Definition old_base (self : LocalApic) (base : Z) : Z := Z.lor base (if is_x2 self then IA32_APIC_BASE_EXTD else 0).

Lemma restore_view self w0 w : saved self w0 → Z.testbit (v_base (view w0)) 11 = true → matches self (view w) →
  v_enabled (view w) = true →
  view (restore self w) = set_sets (v_isr (view w)) (v_irr (view w)) (set_on false (set_base (old_base self (v_base (view w0))) (view w0))).
Proof.
  intros Hs Hen Hm Hon. unfold restore. rewrite Hs. cbn [ia32_apic_base svr pic_a1 pic_21 timer dcr lvt icr]. cbv zeta.
  set (w1 := cli w). assert (Hw1 : view w1 = set_on false (view w)) by apply view_cli.
  rewrite (write_reg self w1) by (by rewrite Hw1).
  set (w2 := set_reg _ _ w1). assert (Hw2 : view w2 = set_div (v_div (view w0)) (view w1)).
  { apply view_div. rewrite <- reg_div. apply storable_reg. }
  rewrite (write_reg self w2) by (by rewrite Hw2, Hw1).
  set (w3 := set_reg _ _ w2). assert (Hw3 : view w3 = set_lvt (v_lvt (view w0)) (view w2)).
  { apply view_lvt; [rewrite <- reg_lvt; apply storable_reg|by rewrite Hw2, Hw1]. }
  rewrite (write_reg self w3) by (by rewrite Hw3, Hw2, Hw1).
  set (w4 := set_reg _ _ w3). assert (Hw4 : view w4 = set_count (v_count (view w0)) (view w3)).
  { apply view_count. rewrite <- reg_count. apply storable_reg. }
  rewrite (write_reg self w4) by (by rewrite Hw4, Hw3, Hw2, Hw1).
  set (w5 := set_reg _ _ w4). assert (Hw5 : view w5 = set_svr (v_svr (view w0)) (view w4)).
  { apply view_svr. rewrite <- reg_svr. apply storable_reg. }
  assert (Z.lor (v_base (view w0)) match mode self with Apic _ => 0 | X2Apic => IA32_APIC_BASE_EXTD end
    = old_base self (v_base (view w0))) as -> by (unfold old_base, is_x2; by destruct (mode self)).
  set (w6 := wrmsr _ _ w5). assert (Hw6 : view w6 = set_base (old_base self (v_base (view w0))) (view w5)).
  { apply view_base.
    - apply fits_lor; [lia|apply base_fits|]. by destruct (is_x2 self).
    - by apply testbit_lor_l.
    - rewrite Hw5, Hw4, Hw3, Hw2, Hw1. change (v_x2 (view w) = true → Z.testbit (old_base self (v_base (view w0))) 10 = true).
      rewrite Hm. intros Hx. unfold old_base. rewrite Hx, Z.lor_spec. change (Z.testbit IA32_APIC_BASE_EXTD 10) with true. apply orb_true_r. }
  rewrite view_21 by apply (pic_fits w0). rewrite view_a1 by apply (pic_fits w0). rewrite Hw6, Hw5, Hw4, Hw3, Hw2, Hw1.
  pose proof (disabled_masked w0) as Hmask. unfold v_enabled in Hmask.
  destruct (view w0) as [base0 a10 p210 svr0 lvt0 count0 div0 on0 isr0 irr0] eqn:E0. clear -Hmask.
  cbn [v_svr v_lvt] in Hmask. generalize (view w). intros v. destruct v.
  cbv [set_21 set_a1 set_base set_svr set_count set_lvt set_div set_on set_sets
    v_base v_a1 v_21 v_svr v_lvt v_count v_div v_on v_isr v_irr]. f_equal.
  destruct (Z.testbit svr0 8); [done|]. by apply masked_again, Hmask.
Qed.

(** ** [init] *)
Section init.
Context {K : Type} `{KernelSpace K} `{PhysMem K}.

Lemma base_enabled a : Z.testbit a 11 = true → negb (Z.land a IA32_APIC_BASE_EN =? 0) = true.
Proof.
  intros Ha. apply negb_true_iff, Z.eqb_neq. intros E.
  assert (Z.testbit (Z.land a IA32_APIC_BASE_EN) 11 = true) as Hb by (by rewrite Z.land_spec, Ha). by rewrite E, Z.bits_0 in Hb.
Qed.

Lemma new_base_bits f a : fits 64 a → fits 64 (new_base f a) ∧ Z.testbit (new_base f a) 11 = true ∧
  (Z.testbit (new_base f a) 10 = Z.testbit a 10 || Cpu.x2apic f).
Proof.
  intros Ha. unfold new_base. split; [|split].
  - assert (fits 64 (Z.land a (unot 64 0x0000000FFFFFF000))).
    { by apply fits_land. }
    repeat (apply fits_lor; [lia| |]); try done. by destruct (Cpu.x2apic f).
  - rewrite !Z.lor_spec. change (Z.testbit IA32_APIC_BASE_EN 11) with true. by rewrite orb_true_r.
  - rewrite !Z.lor_spec, Z.land_spec. change (Z.testbit (unot 64 0x0000000FFFFFF000) 10) with true.
    change (Z.testbit APIC_BASE 10) with false. change (Z.testbit IA32_APIC_BASE_EN 10) with false.
    rewrite andb_true_r, !orb_false_r. by destruct (Cpu.x2apic f).
Qed.

(** What [init] leaves: the registers as they were saved, the PICs masked, the APIC on *)
Definition ready (self : LocalApic) (w : W) : Prop := matches self (view w) ∧ v_enabled (view w) = true.

Lemma init_ok (e : Env (W := W) (K := K)) : cur_apic e = None → apic_id e = None → Cpu.apic (Cpu.get cpuid) = true →
  Z.testbit (v_base (view (hw e))) 11 = true →
  (Cpu.x2apic (Cpu.get cpuid) = false → ∃ v k, map_apic (mem e) = Ok (v, k)) →
  ∃ e' self, init e = Ok (tt, e') ∧ cur_apic e' = Some self ∧ apic_id e' = Some (id self (hw e')) ∧
    saved self (hw e) ∧ ready self (hw e') ∧ v_a1 (view (hw e')) = 0xFF ∧ v_21 (view (hw e')) = 0xFF ∧
    is_x2 self = Cpu.x2apic (Cpu.get cpuid).
Proof.
  intros Hcur Hid Hap Hen Hmap. set (f := Cpu.get cpuid) in *.
  set (w1 := wrmsr IA32_APIC_BASE (new_base f (v_base (view (hw e)))) (out8 0x21 0xFF (out8 0xA1 0xFF (hw e)))).
  destruct (new_base_bits f _ (base_fits (hw e))) as (Hf & H11 & H10).
  assert (Hw1 : view w1 = set_base (new_base f (v_base (view (hw e)))) (set_21 0xFF (set_a1 0xFF (view (hw e))))).
  { unfold w1. rewrite view_base; [by rewrite view_21, view_a1|done|done|]. rewrite view_21, view_a1 by done. rewrite H10.
    unfold v_x2. cbn [v_base set_21 set_a1]. by intros ->. }
  assert (Hx1 : v_x2 (view w1) = Cpu.x2apic f).
  { rewrite Hw1. unfold v_x2. cbn [v_base set_base]. rewrite H10. destruct (Cpu.x2apic f) eqn:Ef; [apply orb_true_r|].
    rewrite orb_false_r. by apply (base_x2 (hw e)). }
  assert (∀ mode (k : K), is_x2 (mkApic mode (mkOrig 0 0 0 0 (mkTimer 0 0 0))) = Cpu.x2apic f →
    let self := save_state mode (v_base (view (hw e))) (v_a1 (view (hw e))) (v_21 (view (hw e))) w1 in
    let w2 := write self SpuriousInterruptVector (Z.lor (Z.shiftl 1 8) 0xFF) w1 in
    let e' := mkEnv w2 k (Some self) (Some (id self w2)) in
    saved self (hw e) ∧ ready self (hw e') ∧ v_a1 (view (hw e')) = 0xFF ∧ v_21 (view (hw e')) = 0xFF ∧ is_x2 self = Cpu.x2apic f) as Hsave.
  { intros mode k Hmode self w2 e'. assert (Hm : ∀ o, matches (mkApic mode o) (view w1)) by (intros o; red; by rewrite Hx1, <- Hmode).
    assert (Hw2 : view w2 = set_svr 0x1FF (view w1)).
    { unfold w2. rewrite write_reg by apply Hm. apply view_svr, storable_svr. }
    split; [|split; [split|]].
    - unfold saved, self, save_state. cbn [orig]. rewrite !read_reg by apply Hm.
      change (number SpuriousInterruptVector) with 0x0F. change (number DivideConfiguration) with 0x3E.
      change (number InitialCount) with 0x38. change (number LvtTimer) with 0x32.
      by rewrite reg_svr, reg_div, reg_count, reg_lvt, Hw1.
    - unfold matches. cbn [hw e']. rewrite Hw2. change (v_x2 (view w1) = is_x2 self). by rewrite Hx1, <- Hmode.
    - cbn [hw e']. by rewrite Hw2.
    - cbn [hw e']. rewrite Hw2, Hw1. by rewrite <- Hmode. }
  unfold init. rewrite (M_bind_Ok _ _ _ e e) by done. rewrite Hcur.
  rewrite (M_bind_Ok _ _ _ tt e) by done. cbv zeta. fold f. rewrite Hap. rewrite (M_bind_Ok _ _ _ tt e) by done.
  rewrite (M_bind_Ok _ _ _ (v_base (view (hw e)), v_a1 (view (hw e)), v_21 (view (hw e)), w1) e).
  2:{ unfold lift, enable_base. rewrite base_msr, base_enabled, pic_a1_in, pic_21_in by done. done. }
  rewrite (M_bind_Ok _ _ _ tt (mkEnv w1 (mem e) (cur_apic e) (apic_id e))) by done.
  destruct (Cpu.x2apic f) eqn:Ef.
  - rewrite (M_bind_Ok _ _ _ X2Apic (mkEnv w1 (mem e) (cur_apic e) (apic_id e))) by done.
    rewrite (M_bind_Ok _ _ _ _ (mkEnv w1 (mem e) (cur_apic e) (apic_id e))) by done. cbn [hw apic_id]. rewrite Hid.
    eexists _, _. split; [reflexivity|]. split; [reflexivity|]. split; [reflexivity|]. by apply Hsave.
  - destruct (Hmap eq_refl) as (v & k & Hk).
    rewrite (M_bind_Ok _ _ _ (Apic v) (mkEnv w1 k (cur_apic e) (apic_id e))).
    2:{ rewrite (M_bind_Ok _ _ _ v (mkEnv w1 k (cur_apic e) (apic_id e))); [done|]. unfold on_mem. cbn [mem]. by rewrite Hk. }
    rewrite (M_bind_Ok _ _ _ _ (mkEnv w1 k (cur_apic e) (apic_id e))) by done. cbn [hw apic_id]. rewrite Hid.
    eexists _, _. split; [reflexivity|]. split; [reflexivity|]. split; [reflexivity|]. by apply Hsave.
Qed.
End init.

(** ** Between [init] and [reset] *)
Lemma ipi_view self dest cmd w : matches self (view w) → fits 32 dest → fits 32 cmd → (is_x2 self = false → dest < 256) →
  view (ipi self dest cmd w) = view w ∧ sent (ipi self dest cmd w) = sent w ++ [(dest, cmd)].
Proof.
  intros Hm Hd Hc Hx. unfold ipi, write_icr, matches, is_x2, fits in *.
  assert (∀ d, 0 ≤ d < 2 ^ 32 → Z.lor (cast 64 (Z.shiftl d 32)) cmd = d * 2 ^ 32 + cmd) as Hval.
  { intros d Hd'. unfold cast. rewrite Z.shiftl_mul_pow2, Z.mod_small by lia. by apply lor_low. }
  destruct (mode self) as [mapping|].
  - specialize (Hx eq_refl). assert (cast 32 (Z.shiftl dest 24) = dest * 2 ^ 24) as ->.
    { unfold cast. rewrite Z.shiftl_mul_pow2, Z.mod_small by lia. done. }
    rewrite Hval by lia. change (0x310 / 4) with (4 * 0x31). change (0x300 / 4) with (4 * 0x30). unfold cast.
    rewrite Z.shiftr_div_pow2 by lia.
    assert ((dest * 2 ^ 24 * 2 ^ 32 + cmd) mod 2 ^ 32 = cmd) as -> by (rewrite Z.add_comm, Z.mod_add, Z.mod_small; lia).
    assert ((dest * 2 ^ 24 * 2 ^ 32 + cmd) / 2 ^ 32 mod 2 ^ 32 = dest * 2 ^ 24) as ->.
    { rewrite Z.add_comm, Z.div_add by lia. rewrite (Z.div_small cmd) by lia. rewrite Z.mod_small; lia. }
    rewrite (mm_write w) by (done || lia).
    destruct (icr_high w (dest * 2 ^ 24)) as (Hv & Hs & Hr); [unfold fits; lia|].
    rewrite mm_write by (rewrite ?Hv; done || lia).
    destruct (icr_low (set_reg 0x31 (dest * 2 ^ 24) w) cmd) as (Hv' & Hs'); [done|].
    rewrite Hv', Hs', Hv, Hs, Hr. split; [done|]. do 3 f_equal.
    change 0xFF000000 with (Z.shiftl (Z.ones 8) 24). rewrite <- Z.shiftl_mul_pow2 by lia.
    rewrite <- Z.shiftl_land, Z.land_ones, Z.shiftl_mul_pow2, Z.div_mul by lia. rewrite Z.mod_small; lia.
  - rewrite Hval by lia. destruct (x2_icr w (dest * 2 ^ 32 + cmd)) as [Hv Hs]; [done|unfold fits; lia|].
    rewrite Hv, Hs. split; [done|]. do 3 f_equal.
    + rewrite Z.add_comm, Z.div_add by lia. rewrite Z.div_small; lia.
    + rewrite Z.add_comm, Z.mod_add, Z.mod_small; lia.
Qed.

(** What devices, the kernel and the processor do to the APIC while the kernel runs; an interrupt that arrives is pending. *)
Inductive kstep (self : LocalApic) : W → W → Prop :=
| k_arrive w v w' : 0 ≤ v < 256 → view w' = set_sets (v_isr (view w)) ({[v]} ∪ v_irr (view w)) (view w) → kstep self w w'
| k_sti w : kstep self w (sti w)
| k_cli w : kstep self w (cli w)
| k_accept w v w' : accept w = Some (v, w') → kstep self w w'
| k_eoi w : kstep self w (eoi (Some self) w)
| k_ipi w dest cmd : fits 32 dest → fits 32 cmd → (is_x2 self = false → dest < 256) → kstep self w (ipi self dest cmd w)
| k_timer {HD} w w' (h : HD) i st i' st' : enable_reboot_timer self h i st w = Ok (i', st', w') → kstep self w w'.

Lemma timer_view {HD} self (h : HD) i st w i' st' w' : ready self w →
  enable_reboot_timer self h i st w = Ok (i', st', w') →
  view w' = set_count 100000 (set_lvt 0x20020 (set_div 0 (view w))).
Proof.
  intros [Hm He] Ht. unfold enable_reboot_timer in Ht. apply res_bind_Ok in Ht as (j & _ & Ht).
  apply res_bind_Ok in Ht as ([j' st''] & _ & Ht). injection Ht as _ _ <-.
  rewrite (write_reg self w) by done. set (w1 := set_reg _ _ w).
  assert (Hw1 : view w1 = set_count 0 (view w)) by (apply view_count, storable_count; done).
  rewrite (write_reg self w1) by (by rewrite Hw1). set (w2 := set_reg _ _ w1).
  assert (Hw2 : view w2 = set_div 0 (view w1)) by (apply view_div, storable_div).
  rewrite (write_reg self w2) by (by rewrite Hw2, Hw1). set (w3 := set_reg _ _ w2).
  assert (Hw3 : view w3 = set_lvt 0x20020 (view w2)).
  { apply view_lvt; [apply storable_periodic|by rewrite Hw2, Hw1]. }
  rewrite (write_reg self w3) by (by rewrite Hw3, Hw2, Hw1).
  etransitivity; [apply view_count, storable_count; done|]. by rewrite Hw3, Hw2, Hw1.
Qed.

Lemma kstep_ready self w w' : kstep self w w' → ready self w → ready self w'.
Proof.
  intros Hk [Hm He]. assert (Hr : ready self w) by done. unfold ready, matches in *. destruct Hk as [w v w' _ Hv|w|w|w v w' Ha|w|w dest cmd Hd Hc Hx|HD w w' h i st i' st' Ht].
  - by rewrite Hv.
  - by rewrite view_sti.
  - by rewrite view_cli.
  - destruct (view_accept _ _ _ Ha) as [_ ->]. done.
  - destruct (decide (v_isr (view w) = ∅)) as [Hn|Hn].
    + cbn [eoi]. rewrite write_reg by done. change (number EndOfInterrupt) with 0x0B.
      by rewrite (view_eoi_none w Hn).
    + destruct (highest_exists _ Hn) as [v Hv]. rewrite (eoi_view self w v) by done. done.
  - destruct (ipi_view self dest cmd w) as [-> _]; done.
  - rewrite (timer_view _ _ _ _ _ _ _ _ Hr Ht). done.
Qed.

Lemma vectors_size (s : gset Z) : (∀ v, v ∈ s → 0 ≤ v < 256) → (base.size s ≤ 256)%nat.
Proof.
  intros Hs. transitivity (base.size (list_to_set (seqZ 0 256) : gset Z)).
  - apply subseteq_size. intros v Hv. apply elem_of_list_to_set, elem_of_seqZ. specialize (Hs v Hv). lia.
  - rewrite size_list_to_set by apply NoDup_seqZ. rewrite length_seqZ. lia.
Qed.

Lemma apic_reset_ok {HD} (call : HD → Z → W → res unit (bool * W)) ints fuel self st c w0 :
  saved self w0 → Z.testbit (v_base (view w0)) 11 = true → ready self (world c) → shallow c →
  (length (eoi_required st) ≤ 256)%nat → (∀ v, v ∈ v_irr (view (world c)) → acknowledged st v) → (258 ≤ fuel)%nat →
  ∃ w', reset call ints fuel self st c = Ok (start_draining st, with_world w' c) ∧
    view w' = set_sets ∅ ∅ (set_on false (set_base (old_base self (v_base (view w0))) (view w0))).
Proof.
  intros Hs H11 [Hm He] Hsh Hlen Hack Hf. unfold reset. cbv zeta.
  rewrite read_reg, write_reg by done. set (w1 := set_reg _ _ _).
  assert (Hw1 : view w1 = set_lvt (Z.lor (reg 0x32 (world c)) LVT_MASK) (view (world c))).
  { apply view_lvt; [apply storable_masked, storable_reg|done]. }
  destruct (end_service_ok fuel self w1) as (w2 & -> & Hw2); [by rewrite Hw1| |].
  { pose proof (vectors_size (v_isr (view w1)) (λ v Hv, vectors w1 v ltac:(set_solver))). lia. }
  cbn [mbind res_bind]. rewrite Hw1 in Hw2.
  destruct (drain_ok call ints (start_draining st) eq_refl fuel self (with_world w2 c)) as (w3 & b & -> & Hw3);
    rewrite ?world_with, ?Hw2; try done.
  { pose proof (vectors_size (v_irr (view (world c))) (λ v Hv, vectors (world c) v ltac:(set_solver))). cbn. lia. }
  cbn [mbind res_bind]. rewrite with_world_twice, world_with. rewrite with_world_twice. rewrite world_with, Hw2 in Hw3.
  eexists. split; [reflexivity|]. by rewrite (restore_view self w0 w3) by (done || by rewrite Hw3); rewrite Hw3.
Qed.

(** C28. The local APIC is given back as it was found.  On a processor with an enabled APIC [init] succeeds (without x2APIC: if its page
    can be mapped), masks the PICs and leaves the APIC ready.  From then on an interrupt to another core reaches the APIC id it
    is meant for, with its command, in both modes (without x2APIC: ids of 8 bits).  After any run of interrupts that arrive, are
    taken and end, of interrupts to other cores and of the reboot timer, with any vectors in service, and any pending whose
    handlers need an EOI and do not insist on running (those of [register] with [eoi], not of [register_precedent]): if nothing more arrives,
    [reset] ends within its fuel, with all of them acknowledged, nothing in service, nothing pending, interrupts off, and
    spurious vector, timer, PIC masks and base as before [init], the base still in x2APIC mode if the driver used it. *)
Theorem apic_reset_restores {K} `{KernelSpace K} `{PhysMem K} (e : Env (W := W) (K := K)) :
  cur_apic e = None → apic_id e = None → Cpu.apic (Cpu.get cpuid) = true → Z.testbit (v_base (view (hw e))) 11 = true →
  (Cpu.x2apic (Cpu.get cpuid) = false → ∃ v k, map_apic (mem e) = Ok (v, k)) →
  ∃ e' self, init e = Ok (tt, e') ∧ cur_apic e' = Some self ∧ apic_id e' = Some (id self (hw e')) ∧
    v_a1 (view (hw e')) = 0xFF ∧ v_21 (view (hw e')) = 0xFF ∧
    (∀ w dest cmd, rtc (kstep self) (hw e') w → fits 32 dest → fits 32 cmd → (Cpu.x2apic (Cpu.get cpuid) = false → dest < 256) →
      sent (ipi self dest cmd w) = sent w ++ [(dest, cmd)]) ∧
    ∀ HD (call : HD → Z → W → res unit (bool * W)) ints fuel st c,
      rtc (kstep self) (hw e') (world c) → shallow c → (length (eoi_required st) ≤ 256)%nat →
      (∀ v, v ∈ v_irr (view (world c)) → acknowledged st v) → (258 ≤ fuel)%nat →
      ∃ w', reset call ints fuel self st c = Ok (start_draining st, with_world w' c) ∧
        view w' = mkView (Z.lor (v_base (view (hw e))) (if Cpu.x2apic (Cpu.get cpuid) then IA32_APIC_BASE_EXTD else 0))
          (v_a1 (view (hw e))) (v_21 (view (hw e))) (v_svr (view (hw e))) (v_lvt (view (hw e)))
          (v_count (view (hw e))) (v_div (view (hw e))) false ∅ ∅.
Proof.
  intros Hcur Hid Hap H11 Hmap.
  destruct (init_ok e Hcur Hid Hap H11 Hmap) as (e' & self & Hi & Hc & Ha & Hs & Hr & Ha1 & H21 & Hx).
  assert (∀ w, rtc (kstep self) (hw e') w → ready self w) as Hready.
  { intros w Hk. clear -Hk Hr. induction Hk as [|? ? ? Hstep _ IH]; [done|]. apply IH. by eapply kstep_ready. }
  exists e', self. do 5 (split; [done|]). split.
  { intros w dest cmd Hk Hd Hcmd Hx2. destruct (Hready w Hk) as [Hm _]. rewrite <- Hx in Hx2.
    by destruct (ipi_view self dest cmd w Hm Hd Hcmd Hx2). }
  intros HD call ints fuel st c Hk Hsh Hlen Hack Hf.
  destruct (apic_reset_ok call ints fuel self st c (hw e) Hs H11 (Hready _ Hk) Hsh Hlen Hack Hf) as (w' & Hres & Hv).
  exists w'. split; [done|]. rewrite Hv. unfold old_base. by rewrite Hx.
Qed.

End driver.

(** * A machine with an x2APIC *)
Module SampleApic.
Definition in_range (s : gset Z) : gset Z := filter (λ v, 0 ≤ v < 256) s.
Definition norm (v : View) : View :=
  mkView (cast 64 (v_base v)) (cast 8 (v_a1 v)) (cast 8 (v_21 v)) (cast 32 (v_svr v))
    (if Z.testbit (cast 32 (v_svr v)) 8 then cast 32 (v_lvt v) else Z.lor (cast 32 (v_lvt v)) LVT_MASK)
    (cast 32 (v_count v)) (cast 32 (v_div v)) (v_on v) (in_range (v_isr v)) (in_range (v_irr v)).
Record Machine := mkMachine { raw : View; high : Z; msgs : list (Z * Z) }.
Definition sview (w : Machine) : View := norm (raw w).
Definition on_view (f : View → View) (w : Machine) : Machine := mkMachine (f (sview w)) (high w) (msgs w).

(** The word of 32 vectors from [32 * i] *)
Definition word (s : gset Z) (i : Z) : Z :=
  foldr (λ j acc, Z.lor (if bool_decide (32 * i + j ∈ s) then 2 ^ j else 0) acc) 0 (seqZ 0 32).
Definition top (s : gset Z) : Z := foldr Z.max (-1) (elements s).

Definition sreg (k : Z) (w : Machine) : Z :=
  let v := sview w in
  if k =? 0x0F then v_svr v else if k =? 0x32 then v_lvt v else if k =? 0x38 then v_count v else if k =? 0x3E then v_div v
  else if k =? 0x31 then Z.land (cast 32 (high w)) 0xFF000000
  else if (0x10 <=? k) && (k <? 0x18) then word (v_isr v) (k - 0x10)
  else if (0x20 <=? k) && (k <? 0x28) then word (v_irr v) (k - 0x20) else 0.
Definition sset_reg (k v : Z) (w : Machine) : Machine :=
  if k =? 0x0F then on_view (set_svr v) w else if k =? 0x32 then on_view (set_lvt v) w
  else if k =? 0x38 then on_view (set_count v) w else if k =? 0x3E then on_view (set_div v) w
  else if k =? 0x0B then on_view (λ u, set_sets (v_isr u ∖ {[top (v_isr u)]}) (v_irr u) u) w
  else if k =? 0x31 then mkMachine (raw w) v (msgs w)
  else if k =? 0x30 then mkMachine (raw w) (high w) (msgs w ++ [(sreg 0x31 w / 2 ^ 24, v)]) else w.
#[global] Instance sample_hw : ApicHw Machine := {
  cpuid eax _ := if eax =? 0 then (1, 0, 0, 0) else (0, 0, Z.shiftl 1 21, Z.shiftl 1 9);
  rdmsr n w := if n =? IA32_APIC_BASE then v_base (sview w) else sreg (n - 0x800) w;
  wrmsr n v w := if n =? IA32_APIC_BASE then on_view (set_base v) w
    else if n =? 0x830 then mkMachine (raw w) (high w) (msgs w ++ [(v / 2 ^ 32, v mod 2 ^ 32)]) else sset_reg (n - 0x800) v w;
  word_read i w := sreg (i / 4) w;
  word_write i v w := sset_reg (i / 4) v w;
  in8 p w := if p =? 0xA1 then v_a1 (sview w) else v_21 (sview w);
  out8 p v w := on_view (if p =? 0xA1 then set_a1 v else set_21 v) w;
  sti := on_view (set_on true);
  cli := on_view (set_on false);
  accept w := let v := sview w in
    if v_on v && v_enabled v && bool_decide (v_isr v = ∅)
    then match elements (v_irr v) with
         | x :: _ => Some (x, on_view (λ u, set_sets ({[x]} ∪ v_isr u) (v_irr u ∖ {[x]}) u) w)
         | [] => None
         end
    else None }.

Lemma cast_fits w a : 0 ≤ w → fits w (cast w a).
Proof. intros Hw. apply Z.mod_pos_bound. lia. Qed.
Lemma cast_small w a : fits w a → cast w a = a.
Proof. apply Z.mod_small. Qed.
Lemma mask_fits a : fits 32 a → fits 32 (Z.lor a LVT_MASK).
Proof. intros Ha. by apply fits_lor. Qed.

(** A view the machine can have *)
Record legal (v : View) : Prop := {
  l_base : fits 64 (v_base v); l_a1 : fits 8 (v_a1 v); l_21 : fits 8 (v_21 v); l_svr : fits 32 (v_svr v);
  l_lvt : fits 32 (v_lvt v); l_count : fits 32 (v_count v); l_div : fits 32 (v_div v);
  l_mask : v_enabled v = false → Z.testbit (v_lvt v) 16 = true;
  l_isr x : x ∈ v_isr v → 0 ≤ x < 256; l_irr x : x ∈ v_irr v → 0 ≤ x < 256 }.

Ltac vcbn := cbn [norm v_base v_a1 v_21 v_svr v_lvt v_count v_div v_on v_isr v_irr
  set_base set_a1 set_21 set_svr set_lvt set_count set_div set_on set_sets] in *.
Lemma norm_legal v : legal (norm v).
Proof.
  split; vcbn; try (by apply cast_fits).
  - destruct (Z.testbit _ 8); [by apply cast_fits|]. by apply mask_fits, cast_fits.
  - unfold v_enabled. vcbn. intros ->. rewrite Z.lor_spec. change (Z.testbit LVT_MASK 16) with true. apply orb_true_r.
  - intros x. unfold in_range. rewrite elem_of_filter. tauto.
  - intros x. unfold in_range. rewrite elem_of_filter. tauto.
Qed.
Lemma norm_id v : legal v → norm v = v.
Proof.
  intros []. destruct v as [ba a1 p21 sv lv co di on inserv pend]. unfold norm, v_enabled in *. vcbn. rewrite !cast_small by done.
  assert (∀ s, (∀ x, x ∈ s → 0 ≤ x < 256) → in_range s = s) as Hs.
  { intros s Hs. unfold in_range. apply set_eq. intros x. rewrite elem_of_filter. naive_solver. }
  rewrite !Hs by done. f_equal. destruct (Z.testbit sv 8); [done|]. by apply masked_again; auto.
Qed.
Lemma on_view_ok f w : legal (f (sview w)) → sview (on_view f w) = f (sview w).
Proof. intros Hl. unfold sview, on_view. cbn [raw]. by apply norm_id. Qed.

Lemma word_bits (l : list Z) (f : Z → bool) n : Forall (λ j, 0 ≤ j) l →
  Z.testbit (foldr (λ j acc, Z.lor (if f j then 2 ^ j else 0) acc) 0 l) n = bool_decide (n ∈ l) && f n.
Proof.
  induction 1 as [|j l Hj Hl IH]; cbn [foldr]; [by rewrite Z.bits_0|]. rewrite Z.lor_spec, IH.
  destruct (Z.eq_dec n j) as [->|Hne].
  - rewrite (bool_decide_true (j ∈ j :: l)) by left. destruct (f j); [by rewrite Z.pow2_bits_true|by rewrite Z.bits_0, andb_false_r].
  - assert (Z.testbit (if f j then 2 ^ j else 0) n = false) as ->.
    { destruct (f j); [apply Z.pow2_bits_false; lia|by rewrite Z.bits_0]. }
    cbn [orb]. f_equal. apply bool_decide_ext. rewrite elem_of_cons. naive_solver.
Qed.
Lemma word_at s v : 0 ≤ v → Z.testbit (word s (v / 32)) (v mod 32) = bool_decide (v ∈ s).
Proof.
  intros Hv. unfold word. rewrite (word_bits _ (λ j, bool_decide (32 * (v / 32) + j ∈ s))).
  - rewrite bool_decide_true by (apply elem_of_seqZ; Z.to_euclidean_division_equations; lia).
    cbn [andb]. by rewrite <- Z.div_mod by lia.
  - apply Forall_seqZ. lia.
Qed.
Lemma word_fits s i : fits 32 (word s i).
Proof.
  unfold word. assert (Forall (λ j, 0 ≤ j < 32) (seqZ 0 32)) as Hl by (apply Forall_seqZ; lia).
  induction Hl as [|j l Hj Hl IH]; cbn [foldr]; [done|]. apply fits_lor; [lia| |done]. unfold fits.
  destruct (bool_decide _); [|done]. split; [lia|]. apply Z.pow_lt_mono_r; lia.
Qed.
Lemma top_highest v s : highest v s → 0 ≤ v → top s = v.
Proof.
  intros [Hin Hmax] Hv. unfold top. apply Z.le_antisymm.
  - assert (∀ l, (∀ x, x ∈ l → x ≤ v) → foldr Z.max (-1) l ≤ v) as Hl.
    { induction l as [|x l IH]; intros Hx; cbn [foldr]; [lia|].
      pose proof (Hx x ltac:(left)). specialize (IH (λ y Hy, Hx y ltac:(by right))). lia. }
    apply Hl. intros x Hx. by apply Hmax, elem_of_elements.
  - assert (∀ l, v ∈ l → v ≤ foldr Z.max (-1) l) as Hl.
    { induction l as [|x l IH]; intros Hx; [by apply elem_of_nil in Hx|]. cbn [foldr]. apply elem_of_cons in Hx as [->|Hx]; [lia|].
      specialize (IH Hx). lia. }
    by apply Hl, elem_of_elements.
Qed.

Ltac legal_step w := apply on_view_ok; pose proof (norm_legal (raw w)) as []; by split.
Ltac skip_reg := rewrite (proj2 (Z.eqb_neq _ _)) by (Z.to_euclidean_division_equations; lia).

#[global] Program Instance sample_laws : ApicLaws Machine := {
  reg := sreg; set_reg := sset_reg; view := sview; storable k v := fits 32 v; sent := msgs }.
Next Obligation. intros w k _ Hk _. cbn [rdmsr sample_hw]. rewrite (proj2 (Z.eqb_neq _ _)) by (unfold IA32_APIC_BASE; lia). f_equal. lia. Qed.
Next Obligation.
  intros w k v _ Hk Hn. cbn [wrmsr sample_hw]. rewrite (proj2 (Z.eqb_neq _ _)) by (unfold IA32_APIC_BASE; lia).
  rewrite (proj2 (Z.eqb_neq _ _)) by lia. f_equal. lia.
Qed.
Next Obligation. intros w k _ Hk. cbn [word_read sample_hw]. f_equal. rewrite Z.mul_comm. by apply Z.div_mul. Qed.
Next Obligation. intros w k v _ Hk. cbn [word_write sample_hw]. f_equal. rewrite Z.mul_comm. by apply Z.div_mul. Qed.
Next Obligation.
  intros w k. unfold sreg. pose proof (norm_legal (raw w)) as []. repeat case_match; try done; try apply word_fits.
  apply fits_land; [by apply cast_fits|done].
Qed.
Next Obligation. done. Qed.
Next Obligation. done. Qed.
Next Obligation. done. Qed.
Next Obligation. done. Qed.
Next Obligation.
  intros w v Hv. rewrite <- word_at by lia. unfold sreg. do 5 skip_reg.
  rewrite (proj2 (Z.leb_le _ _)) by (Z.to_euclidean_division_equations; lia).
  rewrite (proj2 (Z.ltb_lt _ _)) by (Z.to_euclidean_division_equations; lia). cbn [andb]. do 2 f_equal. lia.
Qed.
Next Obligation.
  intros w v Hv. rewrite <- word_at by lia. unfold sreg. do 5 skip_reg.
  rewrite (proj2 (Z.ltb_ge (_ + _) 0x18)) by (Z.to_euclidean_division_equations; lia). rewrite andb_false_r.
  rewrite (proj2 (Z.leb_le 0x20 _)) by (Z.to_euclidean_division_equations; lia).
  rewrite (proj2 (Z.ltb_lt (_ + _) 0x28)) by (Z.to_euclidean_division_equations; lia). cbn [andb]. do 2 f_equal. lia.
Qed.
Next Obligation. intros w v Hv. pose proof (norm_legal (raw w)) as []. apply elem_of_union in Hv as [Hv|Hv]; [by apply l_isr0|by apply l_irr0]. Qed.
Next Obligation. done. Qed.
Next Obligation. intros w. apply (norm_legal (raw w)). Qed.
Next Obligation. done. Qed.
Next Obligation. done. Qed.
Next Obligation. done. Qed.
Next Obligation. intros w. apply (norm_legal (raw w)). Qed.
Next Obligation. intros w k. apply sample_laws_obligation_5. Qed.
Next Obligation. done. Qed.
Next Obligation. intros v. apply mask_fits. Qed.
Next Obligation. done. Qed.
Next Obligation. done. Qed.
Next Obligation. done. Qed.
Next Obligation.
  intros w v Hv. unfold sset_reg. cbn [Z.eqb Pos.eqb]. apply on_view_ok. pose proof (norm_legal (raw w)) as []. split; vcbn; try done.
  - destruct (Z.testbit v 8); [done|by apply mask_fits].
  - unfold v_enabled. vcbn. intros ->. rewrite Z.lor_spec. change (Z.testbit LVT_MASK 16) with true. apply orb_true_r.
Qed.
Next Obligation.
  intros w v Hv He. unfold sset_reg. cbn [Z.eqb Pos.eqb]. apply on_view_ok. pose proof (norm_legal (raw w)) as []. split; vcbn; try done.
  intros Hd. unfold v_enabled in *. vcbn. congruence.
Qed.
Next Obligation. intros w v Hv. unfold sset_reg. cbn [Z.eqb Pos.eqb]. legal_step w. Qed.
Next Obligation. intros w v Hv. unfold sset_reg. cbn [Z.eqb Pos.eqb]. legal_step w. Qed.
Next Obligation.
  intros w v Hv. unfold sset_reg. cbn [Z.eqb Pos.eqb]. pose proof (norm_legal (raw w)) as Hl.
  assert (top (v_isr (sview w)) = v) as Ht by (apply top_highest; [done|]; apply (l_isr _ Hl), Hv).
  rewrite on_view_ok; rewrite Ht; [done|]. destruct Hl. split; try done. intros x Hx. vcbn. apply l_isr0. set_solver.
Qed.
Next Obligation.
  intros w Hn. unfold sset_reg. cbn [Z.eqb Pos.eqb]. pose proof (norm_legal (raw w)) as Hl.
  assert (E : set_sets (v_isr (sview w) ∖ {[top (v_isr (sview w))]}) (v_irr (sview w)) (sview w) = sview w).
  { rewrite Hn. assert (∅ ∖ {[top ∅]} = (∅ : gset Z)) as -> by set_solver. rewrite <- Hn at 1. apply set_sets_id. }
  rewrite on_view_ok by (by rewrite E). exact E.
Qed.
Next Obligation. intros w v Hv _ _. legal_step w. Qed.
Next Obligation. intros w v Hv. legal_step w. Qed.
Next Obligation. intros w v Hv. legal_step w. Qed.
Next Obligation. intros w. split; apply (norm_legal (raw w)). Qed.
Next Obligation. intros w. legal_step w. Qed.
Next Obligation. intros w. legal_step w. Qed.
Next Obligation.
  intros w v w' Ha. cbn [accept sample_hw] in Ha. destruct (_ && _ && _); [|done]. destruct (elements _) as [|x l] eqn:El; [done|]. injection Ha as -> <-.
  pose proof (norm_legal (raw w)) as []. assert (v ∈ v_irr (sview w)) as Hv by (apply elem_of_elements; rewrite El; left).
  split; [done|]. apply (on_view_ok (λ u, set_sets ({[v]} ∪ v_isr u) (v_irr u ∖ {[v]}) u)). split; vcbn; try done.
  - intros y. rewrite elem_of_union, elem_of_singleton. intros [->|Hy]; [by apply l_irr0|by apply l_isr0].
  - intros y Hy. apply l_irr0. set_solver.
Qed.
Next Obligation.
  intros w Ha Hon Hen His. cbn [accept sample_hw] in Ha. rewrite Hon, Hen, bool_decide_true in Ha by done. cbn [andb] in Ha.
  destruct (elements _) as [|x l] eqn:El; [|done]. by apply leibniz_equiv, elements_empty_inv.
Qed.
Next Obligation. done. Qed.
Next Obligation. intros w v Hv. split; [done|]. split; [done|]. change (Z.land (cast 32 v) 0xFF000000 = Z.land v 0xFF000000). by rewrite (cast_small _ _ Hv). Qed.
Next Obligation. done. Qed.

(** No page table is needed in x2APIC mode. *)
#[global] Instance no_space : KernelSpace unit := { vaddr_4k _ := λ _, Panic; kernel_table _ := None }.
#[global] Instance no_memory : PhysMem unit := { translate _ _ _ := None; alloc_phys _ _ s := (None, s); peek _ _ := 0; poke _ _ s := s }.

(** Firmware left the APIC disabled, a one-shot timer masked and the PICs open. *)
Definition found : View := mkView 0xFEE00900 0x12 0x34 0xFF 0x10005 77 3 false ∅ ∅.
Definition env0 : Env (W := Machine) (K := unit) := mkEnv (mkMachine found 0 []) tt None None.

(** The vectors 0x31 and 0x41 have handlers that need an EOI. *)
Definition registered : Statics :=
  mkStatics (<[0x31%nat := true]> (<[0x41%nat := true]> (replicate 256 false))) false (replicate 256 false).
Definition arrive (v : Z) (w : Machine) : Machine := on_view (λ u, set_sets (v_isr u) ({[v]} ∪ v_irr u) u) w.
Lemma arrive_step self v w : 0 ≤ v < 256 → kstep self w (arrive v w).
Proof.
  intros Hv. apply (k_arrive _ _ v); [done|]. apply (on_view_ok (λ u, set_sets (v_isr u) ({[v]} ∪ v_irr u) u)).
  pose proof (norm_legal (raw w)) as []. split; vcbn; try done.
  intros y. rewrite elem_of_union, elem_of_singleton. intros [->|Hy]; [done|by apply l_irr0].
Qed.
(** 0x31 arrived and was taken; 0x31 and 0x41 arrived after it. *)
Definition taken (w : Machine) : Machine := default w (snd <$> accept (sti (arrive 0x31 w))).
Definition busy (w : Machine) : Machine := arrive 0x41 (arrive 0x31 (taken w)).

Lemma apic_reset_restores_witness : ∃ e' self, init env0 = Ok (tt, e') ∧ cur_apic e' = Some self ∧
  sent (ipi self 300 0x4500 (hw e')) = [(300, 0x4500)] ∧
  v_isr (sview (busy (hw e'))) = {[0x31]} ∧ v_irr (sview (busy (hw e'))) = {[0x31; 0x41]} ∧
  ∃ w', reset (HD := unit) (λ _ _ w, Ok (true, w)) None 258 self registered (mkCore 0 0 (busy (hw e'))) =
    Ok (start_draining registered, mkCore 0 0 w') ∧
  sview w' = mkView 0xFEE00D00 0x12 0x34 0xFF 0x10005 77 3 false ∅ ∅.
Proof.
  destruct (apic_reset_restores env0) as (e' & self & Hi & Hc & _ & _ & _ & Hipi & Hreset);
    [reflexivity|reflexivity|vm_compute; reflexivity|vm_compute; reflexivity|intros Hx; vm_compute in Hx; discriminate|].
  set (w0 := hw (default env0 (match init env0 with Ok (_, e) => Some e | _ => None end))).
  assert (He : hw e' = w0) by (unfold w0; by rewrite Hi).
  assert (v_isr (sview (busy w0)) = {[0x31]} ∧ v_irr (sview (busy w0)) = {[0x31; 0x41]}) as [H1 H2] by (split; vm_compute; reflexivity).
  assert (accept (sti (arrive 0x31 w0)) = Some (0x31, taken w0)) as Ht by (vm_compute; reflexivity).
  exists e', self. split; [exact Hi|]. split; [exact Hc|]. split.
  { rewrite (Hipi (hw e') 300 0x4500); [|apply rtc_refl|split; lia|split; lia|intros Hx; vm_compute in Hx; discriminate].
    rewrite He. vm_compute. reflexivity. }
  rewrite He in Hreset |- *. split; [exact H1|]. split; [exact H2|].
  destruct (Hreset unit (λ _ _ w, Ok (true, w)) None 258%nat registered (mkCore 0 0 (busy w0))) as (w' & Hr & Hv).
  - eapply rtc_l; [by apply (arrive_step self 0x31)|]. eapply rtc_l; [apply k_sti|].
    eapply rtc_l; [exact (k_accept _ _ _ _ Ht)|]. eapply rtc_l; [by apply (arrive_step self 0x31)|].
    apply rtc_once. by apply (arrive_step self 0x41).
  - split; cbn; lia.
  - vm_compute. lia.
  - cbn [world]. change (view (busy w0)) with (sview (busy w0)). rewrite H2. intros v.
    rewrite elem_of_union, !elem_of_singleton. intros [->| ->]; split; reflexivity.
  - lia.
  - exists w'. split; [exact Hr|]. etransitivity; [exact Hv|]. vm_compute. reflexivity.
Defined.
End SampleApic.
End ApicReset.
