(* ===== verification/CoreReqs.v ===== *)
(** The memory functions the compiler calls: shared/core_reqs/src/lib.rs.

    Memory is a function from addresses to bytes; pointers are addresses.  The loops of
    the source are recursive functions on the bytes that remain. *)
From Stdlib Require Import ZArith Lia.
From stdpp Require Import prelude list numbers.
From S2P Require Import Prelude.

Module CoreReqs.
Abbreviation mem := (Z → Z).
Definition put (a v : Z) (m : mem) : mem := λ b, if decide (b = a) then v else m b.

(** [i] counts down to 0. *)
Fixpoint copy_down (dest src : Z) (i : nat) (m : mem) : mem :=
  match i with
  | O => m
  | S i => copy_down dest src i (put (dest + Z.of_nat i) (m (src + Z.of_nat i)) m)
  end.
(** [rest]: how far [i] is from [n] *)
Fixpoint copy_up (dest src i : Z) (rest : nat) (m : mem) : mem :=
  match rest with
  | O => m
  | S rest => copy_up dest src (i + 1) rest (put (dest + i) (m (src + i)) m)
  end.
Definition memmove (dest src : Z) (n : nat) (m : mem) : Z * mem :=
  (dest, if src <? dest then copy_down dest src n m else copy_up dest src 0 n m).
Definition memcpy (dest src : Z) (n : nat) (m : mem) : Z * mem := memmove dest src n m.

Fixpoint compare_from (s1 s2 i : Z) (rest : nat) (m : mem) : Z :=
  match rest with
  | O => 0
  | S rest =>
      let a := m (s1 + i) in
      let b := m (s2 + i) in
      if negb (a =? b) then a - b else compare_from s1 s2 (i + 1) rest m
  end.
Definition memcmp (s1 s2 : Z) (n : nat) (m : mem) : Z := compare_from s1 s2 0 n m.

(** [rep stosb]: rcx bytes of al to rdi upwards *)
Fixpoint rep_stosb (rdi al : Z) (rcx : nat) (m : mem) : mem :=
  match rcx with O => m | S rcx => rep_stosb (rdi + 1) al rcx (put rdi al m) end.
Definition memset (s c : Z) (n : nat) (m : mem) : Z * mem :=
  if (n =? 0)%nat then (s, m) else (s, rep_stosb s (cast 8 c) n m).

Fixpoint strlen_from (fuel : nat) (s i : Z) (m : mem) : res unit Z :=
  match fuel with
  | O => Diverge
  | S fuel => if negb (m (s + i) =? 0) then i ← add 64 i 1; strlen_from fuel s i m else Ok i
  end.
Definition strlen (fuel : nat) (s : Z) (m : mem) : res unit Z := strlen_from fuel s 0 m.

(** ** What they do *)
(** [n] bytes at [s] *)
Definition bytes_at (m : mem) (s : Z) (n : nat) : list Z := (λ i, m (s + i)) <$> seqZ 0 (Z.of_nat n).

Lemma copy_down_at dest src n : src < dest → ∀ m a,
  copy_down dest src n m a = if decide (dest ≤ a < dest + Z.of_nat n) then m (src + (a - dest)) else m a.
Proof.
  intros Hlt. induction n as [|n IH]; intros m a; cbn [copy_down]; [by rewrite decide_False by lia|].
  rewrite IH. unfold put. repeat case_decide; try lia; try done. subst a. f_equal. lia.
Qed.

Lemma copy_up_at dest src rest : dest ≤ src → ∀ i m a, 0 ≤ i →
  copy_up dest src i rest m a =
  if decide (dest + i ≤ a < dest + i + Z.of_nat rest) then m (src + (a - dest)) else m a.
Proof.
  intros Hle. induction rest as [|rest IH]; intros i m a Hi; cbn [copy_up]; [by rewrite decide_False by lia|].
  rewrite IH by lia. unfold put. repeat case_decide; try lia; try done. subst a. f_equal. lia.
Qed.

Lemma memmove_at dest src n m a :
  (memmove dest src n m).2 a = if decide (dest ≤ a < dest + Z.of_nat n) then m (src + (a - dest)) else m a.
Proof.
  unfold memmove. cbn [snd]. destruct (Z.ltb_spec src dest); [by apply copy_down_at|].
  rewrite copy_up_at by lia. by rewrite !Z.add_0_r.
Qed.

Lemma rep_stosb_at al n : ∀ s m a,
  rep_stosb s al n m a = if decide (s ≤ a < s + Z.of_nat n) then al else m a.
Proof.
  induction n as [|n IH]; intros s m a; cbn [rep_stosb]; [by rewrite decide_False by lia|].
  rewrite IH. unfold put. repeat case_decide; try lia; try done.
Qed.
Lemma memset_at s c n m a : (memset s c n m).2 a = if decide (s ≤ a < s + Z.of_nat n) then cast 8 c else m a.
Proof.
  unfold memset. destruct (Nat.eqb_spec n 0) as [->|Hn]; cbn [snd]; [by rewrite decide_False by lia|]. apply rep_stosb_at.
Qed.

(** The first difference of two strings of bytes, as the C library orders them *)
Fixpoint lex (l l' : list Z) : Z :=
  match l, l' with
  | a :: l, b :: l' => if decide (a = b) then lex l l' else a - b
  | _, _ => 0
  end.
Lemma compare_from_lex s1 s2 rest m : ∀ i,
  compare_from s1 s2 i rest m = lex ((λ j, m (s1 + j)) <$> seqZ i (Z.of_nat rest)) ((λ j, m (s2 + j)) <$> seqZ i (Z.of_nat rest)).
Proof.
  induction rest as [|rest IH]; intros i; [done|]. cbn [compare_from].
  rewrite (seqZ_cons i) by lia. replace (Z.pred (Z.of_nat (S rest))) with (Z.of_nat rest) by lia. rewrite !fmap_cons. cbn [lex].
  destruct (Z.eqb_spec (m (s1 + i)) (m (s2 + i))); cbn [negb]; [rewrite decide_True by done|by rewrite decide_False].
  rewrite IH. by rewrite Z.add_1_r.
Qed.

Lemma strlen_from_ok s m k : ∀ fuel i, 0 ≤ i → i + Z.of_nat k < 2 ^ 64 → (k < fuel)%nat →
  m (s + i + Z.of_nat k) = 0 → (∀ j, i ≤ j < i + Z.of_nat k → m (s + j) ≠ 0) → strlen_from fuel s i m = Ok (i + Z.of_nat k).
Proof.
  induction k as [|k IH]; intros [|fuel] i Hi Hlt Hf Hz Hnz; try lia; cbn [strlen_from].
  - rewrite Z.add_0_r in Hz. by rewrite Hz, Z.add_0_r.
  - rewrite (proj2 (Z.eqb_neq _ _)) by (apply Hnz; lia). cbn [negb]. unfold add, checked_add.
    rewrite (proj2 (Z.ltb_lt _ _)) by lia. cbn [unwrap mbind res_bind]. rewrite IH; try lia.
    + f_equal. lia.
    + rewrite <- Hz. f_equal. lia.
    + intros j Hj. apply Hnz. lia.
Qed.

(** C30. The memory functions.  [memmove] and [memcpy] copy the bytes as they were before the call, however the two ranges
    overlap, and touch nothing else; [memset] fills exactly its range with the low byte of [c]; [memcmp] gives the difference of the first
    bytes that differ, 0 exactly for equal ranges; [strlen] ends at the first zero byte and returns how many come before it. *)
Theorem memory_functions_correct m :
  (∀ dest src n, bytes_at (memmove dest src n m).2 dest n = bytes_at m src n ∧ memcpy dest src n m = memmove dest src n m ∧
     (memmove dest src n m).1 = dest ∧ ∀ a, ¬ (dest ≤ a < dest + Z.of_nat n) → (memmove dest src n m).2 a = m a) ∧
  (∀ s c n, bytes_at (memset s c n m).2 s n = replicate n (cast 8 c) ∧ (memset s c n m).1 = s ∧
     ∀ a, ¬ (s ≤ a < s + Z.of_nat n) → (memset s c n m).2 a = m a) ∧
  (∀ s1 s2 n, memcmp s1 s2 n m = lex (bytes_at m s1 n) (bytes_at m s2 n) ∧
     (memcmp s1 s2 n m = 0 ↔ bytes_at m s1 n = bytes_at m s2 n)) ∧
  (∀ s k fuel, Z.of_nat k < 2 ^ 64 → m (s + Z.of_nat k) = 0 → (∀ b, b ∈ bytes_at m s k → b ≠ 0) → (k < fuel)%nat →
     strlen fuel s m = Ok (Z.of_nat k)).
Proof.
  assert (∀ m' s n, length (bytes_at m' s n) = n) as Hlen by (intros; unfold bytes_at; rewrite length_fmap, length_seqZ; lia).
  split; [|split; [|split]].
  - intros dest src n. split; [|split; [done|split; [done|]]].
    + apply list_fmap_ext. intros i j [-> Hi]%lookup_seqZ. rewrite memmove_at, decide_True by lia. f_equal. lia.
    + intros a Ha. by rewrite memmove_at, decide_False.
  - intros s c n. split; [|split; [unfold memset; by destruct (n =? 0)%nat|]].
    + apply list_eq_same_length with n; [by rewrite length_replicate|done|]. intros i x y Hi Hx Hy.
      apply lookup_replicate in Hy as [-> _]. unfold bytes_at in Hx. apply list_lookup_fmap_Some in Hx as (j & -> & [-> Hj]%lookup_seqZ).
      by rewrite memset_at, decide_True by lia.
    + intros a Ha. by rewrite memset_at, decide_False.
  - intros s1 s2 n. assert (memcmp s1 s2 n m = lex (bytes_at m s1 n) (bytes_at m s2 n)) as -> by apply compare_from_lex.
    split; [done|]. assert (length (bytes_at m s1 n) = length (bytes_at m s2 n)) as E by (by rewrite !Hlen).
    revert E. generalize (bytes_at m s1 n) (bytes_at m s2 n). clear.
    induction l as [|a l IH]; intros [|b l'] E; try discriminate E; [done|]. injection E as E. cbn [lex].
    case_decide as Hab; [subst; rewrite IH by done; naive_solver|]. split; [lia|naive_solver].
  - intros s k fuel Hk Hz Hnz Hf. unfold strlen. rewrite (strlen_from_ok s m k); try done; try lia.
    + by rewrite Z.add_0_r.
    + intros j Hj. apply Hnz. unfold bytes_at. apply list_elem_of_fmap. exists j. split; [done|]. apply elem_of_seqZ. lia.
Qed.

Lemma memory_functions_correct_witness :
  strlen 5 0 (λ a, 3 - a) = Ok 3 ∧ bytes_at (memmove 2 0 4 (λ a, a)).2 2 4 = [0; 1; 2; 3].
Proof.
  split.
  - destruct (memory_functions_correct (λ a, 3 - a)) as (_ & _ & _ & Hstrlen).
    apply (Hstrlen 0 3%nat 5%nat); [reflexivity|reflexivity| |lia].
    intros b Hb. rewrite (eq_refl : bytes_at (λ a, 3 - a) 0 3 = [3; 2; 1]) in Hb. rewrite !elem_of_cons, elem_of_nil in Hb. lia.
  - destruct (memory_functions_correct (λ a, a)) as (Hmove & _). apply (Hmove 2 0 4%nat).
Defined.
End CoreReqs.
