(* ===== verification/Serial.v ===== *)
(** The serial ports: shared/serial/src/lib.rs, what print.rs and the reboot timer of
    interrupts/handler.rs do with them.

    The I/O ports are a parameter ([Ports]); [UartLaws] gives them the behaviour of four
    8250 chips, any of which may be missing. *)
From Stdlib Require Import ZArith Lia.
From stdpp Require Import prelude list numbers.
From S2P Require Import Prelude.

Class Ports (W : Type) := {
  port_in : Z → W → Z * W;
  port_out : Z → Z → W → W;
}.

Module Serial.
Definition PORT_ADDRESSES : list Z := [0x2F8; 0x3F8; 0x2E8; 0x3E8].
Record SerialDriver := mkDriver { ports : list (option Z) }.

Section ops.
Context {W : Type} `{Ports W}.

Definition in8 (addr : Z) : M W unit Z := λ w, Ok (port_in addr w).
Definition out8 (addr byte : Z) : M W unit unit := λ w, Ok (tt, port_out addr byte w).

(** One port: program it, and keep it if it echoes *)
Definition init_port (port : Z) : M W unit (option Z) :=
  _ ← out8 (port + 1) 0x00;
  _ ← out8 (port + 3) 0x80;
  _ ← out8 port 0x04;
  _ ← out8 (port + 1) 0x00;
  _ ← out8 (port + 3) 0x03;
  _ ← out8 (port + 4) 0x03;
  _ ← out8 (port + 4) 0x1E;
  _ ← out8 port 0xAE;
  echo ← in8 port;
  if echo =? 0xAE then _ ← out8 (port + 4) 0x0F; mret (Some port) else mret None.
Fixpoint init_ports (addrs : list Z) : M W unit (list (option Z)) :=
  match addrs with
  | [] => mret []
  | port :: addrs => o ← init_port port; os ← init_ports addrs; mret (o :: os)
  end.

(** [self.ports.iter().flatten()] *)
Definition valid (self : SerialDriver) : list Z := omap (λ o, o) (ports self).

Fixpoint read_first (ps : list Z) : M W unit (option Z) :=
  match ps with
  | [] => mret None
  | port :: ps =>
      status ← in8 (port + 5);
      if negb (Z.land status 1 =? 0) then b ← in8 port; mret (Some b) else read_first ps
  end.
Definition read_byte (self : SerialDriver) : M W unit (option Z) := read_first (valid self).

Fixpoint drain (fuel : nat) (self : SerialDriver) : M W unit unit :=
  match fuel with
  | O => diverge
  | S fuel => b ← read_byte self; match b with Some _ => drain fuel self | None => mret tt end
  end.
Definition init (fuel : nat) : M W unit SerialDriver :=
  ps ← init_ports PORT_ADDRESSES;
  let driver := mkDriver ps in
  _ ← drain fuel driver;
  mret driver.

Fixpoint await_ready (fuel : nat) (port : Z) : M W unit unit :=
  match fuel with
  | O => diverge
  | S fuel => status ← in8 (port + 5); if Z.land status 0x20 =? 0 then await_ready fuel port else mret tt
  end.
Fixpoint send_all (fuel : nat) (ps : list Z) (byte : Z) : M W unit unit :=
  match ps with
  | [] => mret tt
  | port :: ps => _ ← await_ready fuel port; _ ← out8 port byte; send_all fuel ps byte
  end.
Definition write_byte (fuel : nat) (self : SerialDriver) (byte : Z) : M W unit unit :=
  _ ← (if byte =? 0x0A then send_all fuel (valid self) 0x0D else mret tt);
  send_all fuel (valid self) byte.
Fixpoint write (fuel : nat) (self : SerialDriver) (bytes : list Z) : M W unit unit :=
  match bytes with
  | [] => mret tt
  | b :: bytes => _ ← write_byte fuel self b; write fuel self bytes
  end.

(** [Serial::write_str] under the lock of the driver, [SerialShatter::write_str] without it *)
Definition write_str (fuel : nat) (serial : option SerialDriver) (string : list Z) : M W unit unit :=
  match serial with Some s => write fuel s string | None => mret tt end.

(** The interrupt of the reboot timer; the second component: [rebooting] *)
Definition soft_reboot_timer (is_bsp : bool) (serial : option SerialDriver) (rebooting : bool) : W → res unit (bool * W) * bool := λ w,
  if negb is_bsp then (Ok (true, w), rebooting)
  else
    match (s ← lift (unwrap serial); read_byte s) w with
    | Ok (byte, w) =>
        if decide (byte = Some 0x48) then (Panic, rebooting)
        else if decide (byte = Some 0x53) then (Panic, true)
        else (Ok (true, w), rebooting)
    | _ => (Panic, rebooting)
    end.
End ops.

(** ** Chips *)
(** [busy]: how often the status has to be read until the transmitter is ready *)
Record Uart := mkUart { present : bool; ier : Z; lcr : Z; mcr : Z; divisor : Z * Z; rx : list Z; tx : list Z; busy : nat }.
Definition dlab (u : Uart) : bool := Z.testbit (lcr u) 7.
Definition loopback (u : Uart) : bool := Z.testbit (mcr u) 4.

(** Writing [v] to register [off]; [delay]: how long the transmitter takes *)
Definition uart_out (delay : nat) (off v : Z) (u : Uart) : Uart :=
  if off =? 0 then
    if dlab u then mkUart (present u) (ier u) (lcr u) (mcr u) (v, (divisor u).2) (rx u) (tx u) (busy u)
    else if loopback u then mkUart (present u) (ier u) (lcr u) (mcr u) (divisor u) [v] (tx u) (busy u)
    else mkUart (present u) (ier u) (lcr u) (mcr u) (divisor u) (rx u) (tx u ++ [v]) delay
  else if off =? 1 then
    if dlab u then mkUart (present u) (ier u) (lcr u) (mcr u) ((divisor u).1, v) (rx u) (tx u) (busy u)
    else mkUart (present u) v (lcr u) (mcr u) (divisor u) (rx u) (tx u) (busy u)
  else if off =? 3 then mkUart (present u) (ier u) v (mcr u) (divisor u) (rx u) (tx u) (busy u)
  else if off =? 4 then mkUart (present u) (ier u) (lcr u) v (divisor u) (rx u) (tx u) (busy u)
  else u.
(** Reading the receive buffer, and the status *)
Definition uart_data (u : Uart) : Z * Uart :=
  (default 0 (head (rx u)), mkUart (present u) (ier u) (lcr u) (mcr u) (divisor u) (tail (rx u)) (tx u) (busy u)).
Definition uart_status (u : Uart) : Z * Uart :=
  (Z.lor (if decide (rx u = []) then 0 else 1) (if (busy u =? 0)%nat then 0x20 else 0),
   mkUart (present u) (ier u) (lcr u) (mcr u) (divisor u) (rx u) (tx u) (Nat.pred (busy u))).

(** [patience] bounds how long a transmitter takes. *)
Class UartLaws (W : Type) `{Ports W} (patience : nat) := {
  uart : W → Z → Uart;
  busy_bound w p : (busy (uart w p) ≤ patience)%nat;
  out_present w p off v : p ∈ PORT_ADDRESSES → off ∈ [0; 1; 3; 4] → present (uart w p) = true →
    ∃ delay, (delay ≤ patience)%nat ∧ uart (port_out (p + off) v w) p = uart_out delay off v (uart w p);
  out_other w p q off v : p ∈ PORT_ADDRESSES → off ∈ [0; 1; 3; 4] → q ∈ PORT_ADDRESSES → q ≠ p ∨ present (uart w p) = false →
    uart (port_out (p + off) v w) q = uart w q;
  in_data w p : p ∈ PORT_ADDRESSES → present (uart w p) = true → dlab (uart w p) = false →
    (port_in p w).1 = (uart_data (uart w p)).1 ∧ uart (port_in p w).2 p = (uart_data (uart w p)).2;
  in_status w p : p ∈ PORT_ADDRESSES → present (uart w p) = true →
    (port_in (p + 5) w).1 = (uart_status (uart w p)).1 ∧ uart (port_in (p + 5) w).2 p = (uart_status (uart w p)).2;
  in_absent w p off : p ∈ PORT_ADDRESSES → off ∈ [0; 5] → present (uart w p) = false → (port_in (p + off) w).1 = 0xFF;
  in_other w p q off : p ∈ PORT_ADDRESSES → off ∈ [0; 5] → q ∈ PORT_ADDRESSES → q ≠ p ∨ present (uart w p) = false →
    uart (port_in (p + off) w).2 q = uart w q;
}.
Section driver.
Context {W : Type} {P : Ports W} {patience : nat} {L : UartLaws W patience}.

(** Only the chip at [p] changes. *)
Definition only (p : Z) (w w' : W) : Prop := ∀ q, q ∈ PORT_ADDRESSES → q ≠ p → uart w' q = uart w q.
Lemma only_trans p w w' w'' : only p w w' → only p w' w'' → only p w w''.
Proof. intros H1 H2 q Hq Hne. by rewrite H2, H1. Qed.

Lemma out_step w p off v : p ∈ PORT_ADDRESSES → off ∈ [0; 1; 3; 4] → present (uart w p) = true →
  ∃ delay, (delay ≤ patience)%nat ∧ uart (port_out (p + off) v w) p = uart_out delay off v (uart w p) ∧ only p w (port_out (p + off) v w).
Proof.
  intros Hp Ho Hpr. destruct (out_present w p off v Hp Ho Hpr) as (d & Hd & Hu). exists d. do 2 (split; [done|]).
  intros q Hq Hne. apply out_other; try done. by left.
Qed.

(** ** Initialisation *)
Definition programmed (u : Uart) : Uart :=
  mkUart (present u) (if dlab u then ier u else 0) 0x03 0x0F (4, 0) [] (tx u) (busy u).

Lemma present_out d off v u : present (uart_out d off v u) = present u.
Proof. unfold uart_out. repeat case_match; done. Qed.

(** The chip at [p] is [u], and the others are as in [w0]. *)
Definition at_chip (p : Z) (u : Uart) (w0 w : W) : Prop := uart w p = u ∧ only p w0 w.

(** Nothing is sent: the delay of the transmitter does not matter. *)
Definition silent (off : Z) (u : Uart) : Prop := off ≠ 0 ∨ dlab u = true ∨ loopback u = true.

Lemma out_at p u w0 w off v : p ∈ PORT_ADDRESSES → off ∈ [0; 1; 3; 4] → present u = true → silent off u → at_chip p u w0 w →
  at_chip p (uart_out 0 off v u) w0 (port_out (p + off) v w).
Proof.
  intros Hp Ho Hpr Hs [Hu Honly]. rewrite <- Hu in Hpr. destruct (out_step w p off v Hp Ho Hpr) as (d & _ & Hu' & Ho').
  split; [|by eapply only_trans]. rewrite Hu', Hu. unfold uart_out, silent in *.
  destruct (Z.eqb_spec off 0); [|done]. destruct (dlab u), (loopback u); try done. naive_solver.
Qed.

Lemma init_port_present w p : p ∈ PORT_ADDRESSES → present (uart w p) = true →
  ∃ w', init_port p w = Ok (Some p, w') ∧ at_chip p (programmed (uart w p)) w w'.
Proof.
  intros Hp Hpr. set (u := uart w p) in *.
  assert (Hgo : ∀ u' w' off v, at_chip p u' w w' → present u' = true → off ∈ [0; 1; 3; 4] → silent off u' →
    at_chip p (uart_out 0 off v u') w (port_out (p + off) v w')) by (intros; by apply out_at).
  assert (Hin : ∀ off : Z, off = 0 ∨ off = 1 ∨ off = 3 ∨ off = 4 → off ∈ [0; 1; 3; 4]) by (intros; rewrite !elem_of_cons; tauto).
  assert (H0 : at_chip p u w w) by (split; [done|intros q _ _; done]).
  pose proof (Hgo _ _ 1 0x00 H0 Hpr ltac:(apply Hin; lia) ltac:(by left)) as H1.
  pose proof (Hgo _ _ 3 0x80 H1 ltac:(by rewrite !present_out) ltac:(apply Hin; lia) ltac:(by left)) as H2.
  pose proof (Hgo _ _ 0 0x04 H2 ltac:(by rewrite !present_out) ltac:(apply Hin; lia) ltac:(by right; left)) as H3.
  pose proof (Hgo _ _ 1 0x00 H3 ltac:(by rewrite !present_out) ltac:(apply Hin; lia) ltac:(by left)) as H4.
  pose proof (Hgo _ _ 3 0x03 H4 ltac:(by rewrite !present_out) ltac:(apply Hin; lia) ltac:(by left)) as H5.
  pose proof (Hgo _ _ 4 0x03 H5 ltac:(by rewrite !present_out) ltac:(apply Hin; lia) ltac:(by left)) as H6.
  pose proof (Hgo _ _ 4 0x1E H6 ltac:(by rewrite !present_out) ltac:(apply Hin; lia) ltac:(by left)) as H7.
  pose proof (Hgo _ _ 0 0xAE H7 ltac:(by rewrite !present_out) ltac:(apply Hin; lia) ltac:(by right; right)) as H8.
  rewrite !Z.add_0_r in *. set (w8 := port_out p 0xAE _) in *.
  assert (E8 : uart w8 p = mkUart true (if dlab u then ier u else 0) 0x03 0x1E (4, 0) [0xAE] (tx u) (busy u)).
  { destruct H8 as [-> _]. clear -Hpr. destruct u as [pr i l mc dv r t b]. cbn [present] in Hpr. subst pr.
    unfold dlab. cbn [lcr ier tx busy]. destruct (Z.testbit l 7) eqn:El; cbv -[Z.testbit]; rewrite El; reflexivity. }
  destruct (in_data w8 p Hp) as [Hd Hd']; [by rewrite E8|by rewrite E8|]. rewrite E8 in Hd, Hd'. cbn in Hd, Hd'.
  assert (H9 : at_chip p (mkUart true (if dlab u then ier u else 0) 0x03 0x1E (4, 0) [] (tx u) (busy u)) w (port_in p w8).2).
  { split; [done|]. eapply only_trans; [apply H8|]. intros q Hq Hne. rewrite <- (Z.add_0_r p).
    apply in_other; [done|rewrite !elem_of_cons; tauto|done|by left]. }
  pose proof (Hgo _ _ 4 0x0F H9 eq_refl ltac:(apply Hin; lia) ltac:(by left)) as H10.
  exists (port_out (p + 4) 0x0F (port_in p w8).2). split.
  - unfold init_port. do 8 (rewrite (M_bind_Ok (out8 _ _) _ _ tt _ eq_refl)). fold w8.
    rewrite (M_bind_Ok (in8 p) _ w8 0xAE (port_in p w8).2) by (unfold in8; rewrite <- Hd; by destruct (port_in p w8)). done.
  - unfold programmed. rewrite Hpr. exact H10.
Qed.

(** A missing chip does not echo. *)
Lemma init_port_absent w p : p ∈ PORT_ADDRESSES → present (uart w p) = false →
  ∃ w', init_port p w = Ok (None, w') ∧ ∀ q, q ∈ PORT_ADDRESSES → uart w' q = uart w q.
Proof.
  intros Hp Hpr. unfold init_port.
  assert (Hgo : ∀ off v w', (∀ q, q ∈ PORT_ADDRESSES → uart w' q = uart w q) → off ∈ [0; 1; 3; 4] →
    ∀ q, q ∈ PORT_ADDRESSES → uart (port_out (p + off) v w') q = uart w q).
  { intros off v w' Hw Ho q Hq. rewrite out_other; [by apply Hw|done..|right; by rewrite Hw]. }
  assert (H8 : ∀ q, q ∈ PORT_ADDRESSES → uart (port_out (p + 0) 0xAE (port_out (p + 4) 0x1E (port_out (p + 4) 0x03 (port_out (p + 3) 0x03
    (port_out (p + 1) 0 (port_out (p + 0) 4 (port_out (p + 3) 0x80 (port_out (p + 1) 0 w)))))))) q = uart w q).
  { do 8 (apply Hgo; [|rewrite !elem_of_cons; lia]). done. }
  rewrite !Z.add_0_r in H8. do 8 (rewrite (M_bind_Ok (out8 _ _) _ _ tt _ eq_refl)). set (w8 := port_out p 0xAE _) in *.
  assert (Hff : (port_in p w8).1 = 0xFF).
  { rewrite <- (Z.add_0_r p). apply in_absent; [done|rewrite !elem_of_cons; tauto|by rewrite H8]. }
  exists (port_in p w8).2. split.
  - rewrite (M_bind_Ok (in8 p) _ w8 0xFF (port_in p w8).2) by (unfold in8; rewrite <- Hff; by destruct (port_in p w8)). done.
  - intros q Hq. rewrite <- (Z.add_0_r p). rewrite in_other; [by apply H8|done|rewrite !elem_of_cons; tauto|done|right; by rewrite H8].
Qed.

Lemma init_ports_ok f ps : NoDup ps → (∀ p, p ∈ ps → p ∈ PORT_ADDRESSES) → ∀ w, (∀ p, p ∈ ps → present (uart w p) = f p) →
  ∃ os w', init_ports ps w = Ok (os, w') ∧ omap (λ o, o) os = filter (λ p, f p = true) ps ∧
    ∀ q, q ∈ PORT_ADDRESSES → uart w' q = if decide (q ∈ ps ∧ f q = true) then programmed (uart w q) else uart w q.
Proof.
  induction 1 as [|p ps Hnin Hnd IH]; intros Hin w Hf.
  { exists [], w. split; [done|]. split; [done|]. intros q _. rewrite decide_False; [done|]. rewrite elem_of_nil. tauto. }
  cbn [init_ports]. assert (p ∈ PORT_ADDRESSES) as Hp by (apply Hin; left).
  assert (∃ w1, init_port p w = Ok (if f p then Some p else None, w1) ∧
    (∀ q, q ∈ PORT_ADDRESSES → uart w1 q = if decide (q = p ∧ f q = true) then programmed (uart w q) else uart w q)) as (w1 & E & Hw1).
  { pose proof (Hf p ltac:(left)) as Hpr. destruct (f p) eqn:Ef.
    - destruct (init_port_present w p Hp Hpr) as (w1 & E & Hu & Honly). exists w1. split; [done|]. intros q Hq.
      destruct (decide (q = p)) as [->|Hne]; [by rewrite decide_True|]. rewrite decide_False by tauto. by apply Honly.
    - destruct (init_port_absent w p Hp Hpr) as (w1 & E & Hu). exists w1. split; [done|]. intros q Hq.
      rewrite decide_False by (intros [-> Hfq]; congruence). by apply Hu. }
  destruct (IH (λ q Hq, Hin q ltac:(by right)) w1) as (os & w' & E' & Hos & Hw').
  { intros q Hq. rewrite Hw1 by (apply Hin; by right). rewrite decide_False by (intros [-> _]; done). apply Hf. by right. }
  exists ((if f p then Some p else None) :: os), w'. rewrite (M_bind_Ok _ _ _ _ _ E), (M_bind_Ok _ _ _ _ _ E'). split; [done|]. split.
  - rewrite filter_cons, <- Hos. destruct (f p) eqn:Ef; [by rewrite decide_True|by rewrite decide_False].
  - intros q Hq. rewrite Hw', Hw1 by done. pose proof (elem_of_cons ps q p : q ∈ p :: ps ↔ q = p ∨ q ∈ ps) as Hc.
    destruct (decide (q = p)) as [->|Hne].
    + rewrite (decide_False (P := p ∈ ps ∧ f p = true)) by tauto. destruct (f p) eqn:Ef.
      * rewrite !decide_True by (split; [first [done|by left]|done]). done.
      * by rewrite !decide_False by (intros [_ ?]; done).
    + rewrite (decide_False (P := q = p ∧ f q = true)) by tauto.
      destruct (decide (q ∈ ps ∧ f q = true)), (decide (q ∈ p :: ps ∧ f q = true)); tauto.
Qed.

(** ** Reading *)
(** A chip as it was, apart from the delay of its transmitter *)
Definition rested (u u' : Uart) : Prop :=
  u' = mkUart (present u) (ier u) (lcr u) (mcr u) (divisor u) (rx u) (tx u) (busy u').
Lemma rested_refl u : rested u u.
Proof. by destruct u. Qed.
Lemma rested_trans u u' u'' : rested u u' → rested u' u'' → rested u u''.
Proof. unfold rested. intros -> ->. done. Qed.

Lemma status_step w p : p ∈ PORT_ADDRESSES → present (uart w p) = true →
  ∃ w', in8 (p + 5) w = Ok ((uart_status (uart w p)).1, w') ∧ uart w' p = (uart_status (uart w p)).2 ∧ only p w w'.
Proof.
  intros Hp Hpr. destruct (in_status w p Hp Hpr) as [H1 H2]. exists (port_in (p + 5) w).2. split.
  - unfold in8. rewrite <- H1. by destruct (port_in (p + 5) w).
  - split; [done|]. intros q Hq Hne. apply in_other; [done|rewrite !elem_of_cons; tauto|done|by left].
Qed.

Lemma status_rx u : negb (Z.land (uart_status u).1 1 =? 0) = negb (bool_decide (rx u = [])).
Proof. unfold uart_status. cbn [fst]. destruct (rx u), (busy u); reflexivity. Qed.
Lemma status_tx u : (Z.land (uart_status u).1 0x20 =? 0) = negb (busy u =? 0)%nat.
Proof. unfold uart_status. cbn [fst]. destruct (rx u), (busy u); reflexivity. Qed.

(** Chips the driver uses *)
Definition usable (w : W) (p : Z) : Prop :=
  p ∈ PORT_ADDRESSES ∧ present (uart w p) = true ∧ dlab (uart w p) = false ∧ loopback (uart w p) = false.

(** The first byte that has arrived at one of the ports, and the port *)
Fixpoint first_byte (w : W) (ps : list Z) : option (Z * Z) :=
  match ps with [] => None | p :: ps => match rx (uart w p) with b :: _ => Some (p, b) | [] => first_byte w ps end end.

Lemma read_first_ok ps : NoDup ps → ∀ w, (∀ p, p ∈ ps → usable w p) →
  ∃ w', read_first ps w = Ok (snd <$> first_byte w ps, w') ∧
    ∀ q, q ∈ PORT_ADDRESSES → if decide (fst <$> first_byte w ps = Some q)
      then rested (uart_data (uart w q)).2 (uart w' q) else rested (uart w q) (uart w' q).
Proof.
  induction 1 as [|p ps Hnin Hnd IH]; intros w Hu; cbn [read_first first_byte].
  { exists w. split; [done|]. intros q _. rewrite decide_False by done. apply rested_refl. }
  destruct (Hu p ltac:(left)) as (Hp & Hpr & Hdl & Hlb). destruct (status_step w p Hp Hpr) as (w1 & E1 & Hw1 & O1).
  rewrite (M_bind_Ok _ _ _ _ _ E1), status_rx.
  assert (Hrest : rested (uart w p) (uart w1 p)) by (rewrite Hw1; done).
  destruct (rx (uart w p)) as [|b r] eqn:Er; cbn [bool_decide negb].
  - rewrite bool_decide_true by done. cbn [negb]. destruct (IH w1) as (w' & E & Hw').
    { intros q Hq. destruct (Hu q ltac:(by right)) as (Hq' & ?). unfold usable. rewrite O1; [done|done|]. intros ->. done. }
    assert (first_byte w1 ps = first_byte w ps) as Hsame.
    { assert (∀ q, q ∈ ps → q ∈ PORT_ADDRESSES ∧ q ≠ p) as Hps by (intros q Hq; split; [apply Hu; by right|intros ->; done]).
      clear -O1 Hps. induction ps as [|q ps IH]; [done|]. cbn [first_byte]. destruct (Hps q ltac:(left)) as [Hq Hne].
      rewrite O1 by done. destruct (rx (uart w q)); [|done]. apply IH. intros q' Hq'. apply Hps. by right. }
    rewrite Hsame in E, Hw'. exists w'. split; [done|]. intros q Hq. specialize (Hw' q Hq).
    destruct (decide (q = p)) as [->|Hne].
    + assert (fst <$> first_byte w ps ≠ Some p) as Hno.
      { intros Hs. apply Hnin. clear -Hs. induction ps as [|x ps IH]; [done|]. cbn [first_byte] in Hs.
        destruct (rx (uart w x)); [right; by apply IH|]. simplify_eq/=. left. }
      rewrite decide_False in Hw' |- * by done. by eapply rested_trans.
    + by rewrite O1 in Hw' by done.
  - rewrite bool_decide_false by done. cbn [negb].
    destruct (in_data w1 p Hp) as [Hd Hd']; [by rewrite Hrest|by rewrite Hrest|].
    exists (port_in p w1).2. split.
    + rewrite (M_bind_Ok (in8 p) _ w1 b (port_in p w1).2); [done|]. unfold in8.
      assert ((port_in p w1).1 = b) as <- by (rewrite Hd, Hrest; unfold uart_data; cbn [fst rx]; by rewrite Er).
      by destruct (port_in p w1).
    + intros q Hq. cbn [fmap option_fmap option_map fst]. destruct (decide (q = p)) as [->|Hne].
      * rewrite decide_True by done. rewrite Hd', Hrest. done.
      * rewrite decide_False by (intros [=]; done). rewrite <- (Z.add_0_r p), in_other; [|done|rewrite !elem_of_cons; tauto|done|by left].
        rewrite O1 by done. apply rested_refl.
Qed.

(** ** Writing *)
(** [l] went out; the rest as it was *)
Definition sent (l : list Z) (u u' : Uart) : Prop :=
  u' = mkUart (present u) (ier u) (lcr u) (mcr u) (divisor u) (rx u) (tx u ++ l) (busy u').
Lemma sent_nil u u' : rested u u' → sent [] u u'.
Proof. unfold rested, sent. by rewrite app_nil_r. Qed.
Lemma sent_trans l l' u u' u'' : sent l u u' → sent l' u' u'' → sent (l ++ l') u u''.
Proof. unfold sent. intros -> ->. cbn [present ier lcr mcr divisor rx tx]. by rewrite app_assoc. Qed.
Lemma sent_usable w w' l p : sent l (uart w p) (uart w' p) → usable w p → usable w' p.
Proof. intros Hs (H1 & H2 & H3 & H4). unfold usable, dlab, loopback in *. rewrite Hs. done. Qed.

Lemma await_ready_ok fuel : ∀ w p, usable w p → (busy (uart w p) < fuel)%nat →
  ∃ w', await_ready fuel p w = Ok (tt, w') ∧ rested (uart w p) (uart w' p) ∧ only p w w'.
Proof.
  induction fuel as [|fuel IH]; intros w p Hu Hf; [lia|]. cbn [await_ready]. destruct Hu as (Hp & Hpr & Hdl & Hlb).
  destruct (status_step w p Hp Hpr) as (w1 & E1 & Hw1 & O1). rewrite (M_bind_Ok _ _ _ _ _ E1), status_tx.
  assert (Hrest : rested (uart w p) (uart w1 p)) by (rewrite Hw1; done).
  destruct (Nat.eqb_spec (busy (uart w p)) 0) as [Hz|Hnz]; cbn [negb].
  - exists w1. by split.
  - destruct (IH w1 p) as (w' & E' & Hr' & O').
    + unfold usable, dlab, loopback in *. rewrite Hw1. done.
    + rewrite Hw1. cbn [uart_status busy snd]. lia.
    + exists w'. split; [done|]. split; [by eapply rested_trans|by eapply only_trans].
Qed.

Lemma send_all_ok fuel byte ps : (patience < fuel)%nat → NoDup ps → ∀ w, (∀ p, p ∈ ps → usable w p) →
  ∃ w', send_all fuel ps byte w = Ok (tt, w') ∧
    ∀ q, q ∈ PORT_ADDRESSES → sent (if decide (q ∈ ps) then [byte] else []) (uart w q) (uart w' q).
Proof.
  intros Hf. induction 1 as [|p ps Hnin Hnd IH]; intros w Hu; cbn [send_all].
  { exists w. split; [done|]. intros q _. rewrite decide_False by apply not_elem_of_nil. apply sent_nil, rested_refl. }
  pose proof (Hu p ltac:(left)) as Hup. pose proof (busy_bound w p) as Hb.
  destruct (await_ready_ok fuel w p Hup) as (w1 & E1 & Hr1 & O1); [lia|].
  assert (Hup1 : usable w1 p) by (eapply sent_usable; [by apply sent_nil|done]).
  destruct Hup1 as (Hp & Hpr1 & Hdl1 & Hlb1).
  destruct (out_step w1 p 0 byte Hp ltac:(left) Hpr1) as (d & _ & Hw2 & O2). rewrite Z.add_0_r in *.
  set (w2 := port_out p byte w1) in *.
  assert (Hs2 : sent [byte] (uart w p) (uart w2 p)).
  { change [byte] with ([] ++ [byte]). eapply sent_trans; [by apply sent_nil|]. rewrite Hw2. unfold uart_out. rewrite Hdl1, Hlb1. done. }
  assert (O : only p w w2) by (by eapply only_trans).
  destruct (IH w2) as (w' & E' & Hw').
  { intros q Hq. destruct (Hu q ltac:(by right)) as (Hq' & Hrest). unfold usable. rewrite O; [done|done|]. intros ->. done. }
  exists w'. split.
  - rewrite (M_bind_Ok _ _ _ _ _ E1). rewrite (M_bind_Ok (out8 p byte) _ _ tt w2 eq_refl). exact E'.
  - intros q Hq. specialize (Hw' q Hq). destruct (decide (q = p)) as [->|Hne].
    + rewrite decide_True by left. rewrite decide_False in Hw' by done.
      rewrite <- (app_nil_r [byte]). by eapply sent_trans.
    + rewrite O in Hw' by done. pose proof (elem_of_cons ps q p : q ∈ p :: ps ↔ q = p ∨ q ∈ ps) as Hc.
      destruct (decide (q ∈ ps)), (decide (q ∈ p :: ps)); done || tauto.
Qed.

(** A line feed goes out as carriage return and line feed. *)
Definition crlf (b : Z) : list Z := if b =? 0x0A then [0x0D; 0x0A] else [b].

Lemma write_byte_ok fuel self byte w : (patience < fuel)%nat → NoDup (valid self) → (∀ p, p ∈ valid self → usable w p) →
  ∃ w', write_byte fuel self byte w = Ok (tt, w') ∧
    ∀ q, q ∈ PORT_ADDRESSES → sent (if decide (q ∈ valid self) then crlf byte else []) (uart w q) (uart w' q).
Proof.
  intros Hf Hnd Hu. unfold write_byte, crlf. destruct (byte =? 0x0A) eqn:Eb.
  - destruct (send_all_ok fuel 0x0D _ Hf Hnd w Hu) as (w1 & E1 & H1).
    destruct (send_all_ok fuel byte _ Hf Hnd w1) as (w2 & E2 & H2).
    { intros p Hp. eapply sent_usable; [apply H1, Hu, Hp|by apply Hu]. }
    exists w2. split; [by rewrite (M_bind_Ok _ _ _ _ _ E1)|]. intros q Hq. apply Z.eqb_eq in Eb. subst byte.
    pose proof (sent_trans _ _ _ _ _ (H1 q Hq) (H2 q Hq)) as Hs. by destruct (decide (q ∈ valid self)).
  - rewrite (M_bind_Ok _ _ _ tt w) by done. by apply send_all_ok.
Qed.

Lemma write_ok fuel self bytes : (patience < fuel)%nat → NoDup (valid self) → ∀ w, (∀ p, p ∈ valid self → usable w p) →
  ∃ w', write fuel self bytes w = Ok (tt, w') ∧
    ∀ q, q ∈ PORT_ADDRESSES → sent (if decide (q ∈ valid self) then concat (crlf <$> bytes) else []) (uart w q) (uart w' q).
Proof.
  intros Hf Hnd. induction bytes as [|b bytes IH]; intros w Hu; cbn [write].
  { exists w. split; [done|]. intros q _. destruct (decide _); apply sent_nil, rested_refl. }
  destruct (write_byte_ok fuel self b w Hf Hnd Hu) as (w1 & E1 & H1). destruct (IH w1) as (w2 & E2 & H2).
  { intros p Hp. eapply sent_usable; [apply H1, Hu, Hp|by apply Hu]. }
  exists w2. split; [by rewrite (M_bind_Ok _ _ _ _ _ E1)|]. intros q Hq.
  pose proof (sent_trans _ _ _ _ _ (H1 q Hq) (H2 q Hq)) as Hs. by destruct (decide (q ∈ valid self)).
Qed.

Lemma soft_reboot_timer_ok (driver : SerialDriver) b (w w' : W) is_bsp rebooting : read_byte driver w = Ok (b, w') →
  soft_reboot_timer is_bsp (Some driver) rebooting w =
  if negb is_bsp then (Ok (true, w), rebooting)
  else match b with
       | Some 0x48 => (Panic, rebooting)
       | Some 0x53 => (Panic, true)
       | _ => (Ok (true, w'), rebooting)
       end.
Proof.
  intros E. unfold soft_reboot_timer. destruct (negb is_bsp); [done|].
  rewrite (M_bind_Ok (lift (unwrap (Some driver))) _ w driver w eq_refl), E.
  repeat case_decide; subst; try done. destruct b as [z|]; [|done]. repeat (case_match; try done); congruence.
Qed.

Lemma ports_nodup : NoDup PORT_ADDRESSES.
Proof. apply (bool_decide_unpack _). vm_compute. done. Qed.

(** The driver that [init] returns can be used at once. *)
Lemma serial_init_ok fuel w : (0 < fuel)%nat →
  ∃ driver w1, init fuel w = Ok (driver, w1) ∧ valid driver = filter (λ p, present (uart w p) = true) PORT_ADDRESSES ∧
    NoDup (valid driver) ∧ (∀ p, p ∈ valid driver → usable w1 p) ∧
    (∀ p, p ∈ PORT_ADDRESSES → rested (if present (uart w p) then programmed (uart w p) else uart w p) (uart w1 p)).
Proof.
  intros Hf. destruct (init_ports_ok (λ p, present (uart w p)) PORT_ADDRESSES ports_nodup (λ p Hp, Hp) w (λ p _, eq_refl))
    as (os & w1 & E1 & Hos & Hw1).
  assert (NoDup (valid (mkDriver os))) as Hnd by (unfold valid; cbn [ports]; rewrite Hos; apply list.NoDup_filter, ports_nodup).
  assert (Hprog : ∀ p, p ∈ PORT_ADDRESSES → uart w1 p = if present (uart w p) then programmed (uart w p) else uart w p).
  { intros p Hp. rewrite Hw1 by done. destruct (present (uart w p)) eqn:Epr; [by rewrite decide_True|].
    rewrite decide_False; [done|]. by intros [_ ?]. }
  assert (Hval : ∀ p, p ∈ valid (mkDriver os) → p ∈ PORT_ADDRESSES ∧ present (uart w p) = true).
  { unfold valid. cbn [ports]. rewrite Hos. intros p Hp. apply list_elem_of_filter in Hp. tauto. }
  assert (Hus : ∀ p, p ∈ valid (mkDriver os) → usable w1 p).
  { intros p Hp. destruct (Hval p Hp) as [Hp' Hpr]. unfold usable, dlab, loopback. rewrite Hprog, Hpr by done. cbn. by rewrite Hpr. }
  destruct (read_first_ok _ Hnd w1 Hus) as (w1' & Er & Hw1').
  assert (Hnone : first_byte w1 (valid (mkDriver os)) = None).
  { clear -Hus Hprog Hval. induction (valid (mkDriver os)) as [|p ps IH]; [done|]. cbn [first_byte].
    destruct (Hval p ltac:(left)) as [Hp Hpr]. rewrite Hprog, Hpr by done. cbn [programmed rx].
    apply IH; intros q Hq; [apply Hval|apply Hus]; by right. }
  rewrite Hnone in Er, Hw1'. exists (mkDriver os), w1'. split; [|split; [exact Hos|split; [exact Hnd|split]]].
  - unfold init. rewrite (M_bind_Ok _ _ _ _ _ E1). cbv zeta. rewrite (M_bind_Ok _ _ _ tt w1'); [done|].
    destruct fuel; [lia|]. cbn [drain]. unfold read_byte. by rewrite (M_bind_Ok _ _ _ _ _ Er).
  - intros p Hp. destruct (Hus p Hp) as (Hp' & H2 & H3 & H4). specialize (Hw1' p Hp'). rewrite decide_False in Hw1' by done.
    eapply sent_usable; [by apply sent_nil|]. by apply Hus.
  - intros p Hp. specialize (Hw1' p Hp). rewrite decide_False in Hw1' by done. by rewrite Hprog in Hw1'.
Qed.

(** C29. The serial driver.  [init] keeps exactly the ports with a chip behind them, programs each to 28800 baud, 8 bits and
    normal mode with nothing received, and sends nothing; from then on a string goes out once on every port, in order, each line feed behind a carriage return,
    without touching what was received, within a wait bounded by the chips; and a read takes the first byte of
    the first port that has one.  The reboot timer acts on such a byte on the first core only: [H] panics, [S] panics with
    the reboot flag set, anything else is dropped. *)
Theorem serial_correct fuel w : (patience < fuel)%nat →
  ∃ driver w1, init fuel w = Ok (driver, w1) ∧ valid driver = filter (λ p, present (uart w p) = true) PORT_ADDRESSES ∧
    (∀ p, p ∈ PORT_ADDRESSES → rested (if present (uart w p) then programmed (uart w p) else uart w p) (uart w1 p)) ∧
    ∀ w2, (∀ p, p ∈ valid driver → usable w2 p) →
      (∀ string, ∃ w3, write_str fuel (Some driver) string w2 = Ok (tt, w3) ∧
         ∀ p, p ∈ PORT_ADDRESSES → sent (if decide (p ∈ valid driver) then concat (crlf <$> string) else []) (uart w2 p) (uart w3 p)) ∧
      (∃ w3, read_byte driver w2 = Ok (snd <$> first_byte w2 (valid driver), w3) ∧
         (∀ p, p ∈ PORT_ADDRESSES → if decide (fst <$> first_byte w2 (valid driver) = Some p)
           then rested (uart_data (uart w2 p)).2 (uart w3 p) else rested (uart w2 p) (uart w3 p)) ∧
         ∀ is_bsp rebooting, soft_reboot_timer is_bsp (Some driver) rebooting w2 =
           if negb is_bsp then (Ok (true, w2), rebooting)
           else match snd <$> first_byte w2 (valid driver) with
                | Some 0x48 => (Panic, rebooting)
                | Some 0x53 => (Panic, true)
                | _ => (Ok (true, w3), rebooting)
                end).
Proof.
  intros Hf. destruct (serial_init_ok fuel w) as (driver & w1 & E & Hv & Hnd & _ & Hprog); [lia|].
  exists driver, w1. split; [done|]. split; [done|]. split; [done|]. intros w2 Hu.
  split; [intros string; by apply write_ok|].
  destruct (read_first_ok _ Hnd w2 Hu) as (w3 & E3 & Hw3). exists w3. split; [exact E3|]. split; [exact Hw3|].
  intros is_bsp rebooting. by apply soft_reboot_timer_ok.
Qed.
End driver.

(** * Two chips that send at once *)
Module SampleSerial.
Definition base_of (addr : Z) : option Z := list_find (λ p, p ≤ addr < p + 8) PORT_ADDRESSES ≫= λ '(_, p), Some p.
Definition Chips : Type := Z → Uart.
Definition calm (u : Uart) : Uart := mkUart (present u) (ier u) (lcr u) (mcr u) (divisor u) (rx u) (tx u) 0.
Definition set_chip (p : Z) (u : Uart) (w : Chips) : Chips := λ q, if decide (q = p) then u else w q.

#[global] Instance sample_ports : Ports Chips := {
  port_in addr w :=
    match base_of addr with
    | Some p =>
        if present (w p) then
          let '(v, u) := if addr - p =? 0 then uart_data (calm (w p)) else uart_status (calm (w p)) in (v, set_chip p u w)
        else (0xFF, w)
    | None => (0xFF, w)
    end;
  port_out addr v w :=
    match base_of addr with
    | Some p => if present (w p) then set_chip p (uart_out 0 (addr - p) v (calm (w p))) w else w
    | None => w
    end }.

Lemma base_of_port p off : p ∈ PORT_ADDRESSES → 0 ≤ off < 8 → base_of (p + off) = Some p.
Proof.
  intros Hp Ho. unfold PORT_ADDRESSES in Hp. rewrite !elem_of_cons, elem_of_nil in Hp. unfold base_of, PORT_ADDRESSES. cbn [list_find].
  destruct Hp as [->|[->|[->|[->|[]]]]]; repeat (case_decide; [try lia|try lia]); try lia; try done.
Qed.
Lemma set_chip_eq p u w : set_chip p u w p = u.
Proof. unfold set_chip. by rewrite decide_True. Qed.
Lemma set_chip_ne p q u w : q ≠ p → set_chip p u w q = w q.
Proof. intros. unfold set_chip. by rewrite decide_False. Qed.
Lemma calm_out off v u : calm (uart_out 0 off v (calm u)) = uart_out 0 off v (calm u).
Proof. unfold uart_out. repeat case_match; reflexivity. Qed.
Lemma small_off (off : Z) : off ∈ [0; 1; 3; 4] ∨ off ∈ [0; 5] → 0 ≤ off < 8.
Proof. rewrite !elem_of_cons, !elem_of_nil. lia. Qed.

Lemma out_eq p off v w : p ∈ PORT_ADDRESSES → 0 ≤ off < 8 →
  port_out (p + off) v w = if present (w p) then set_chip p (uart_out 0 off v (calm (w p))) w else w.
Proof. intros Hp Ho. unfold port_out, sample_ports. by rewrite base_of_port, Z.add_simpl_l. Qed.
Lemma in_eq p off w : p ∈ PORT_ADDRESSES → 0 ≤ off < 8 →
  port_in (p + off) w = if present (w p) then
    let '(v, u) := if off =? 0 then uart_data (calm (w p)) else uart_status (calm (w p)) in (v, set_chip p u w) else (0xFF, w).
Proof. intros Hp Ho. unfold port_in, sample_ports. by rewrite base_of_port, Z.add_simpl_l. Qed.

#[global] Program Instance sample_uarts : UartLaws Chips 0 := { uart w p := calm (w p) }.
Next Obligation. done. Qed.
Next Obligation.
  intros w p off v Hp Ho Hpr. exists 0%nat. split; [done|]. rewrite out_eq by (done || apply small_off; by left).
  change (present (w p) = true) in Hpr. rewrite Hpr, set_chip_eq. apply calm_out.
Qed.
Next Obligation.
  intros w p q off v Hp Ho Hq Hne. rewrite out_eq by (done || apply small_off; by left).
  change (q ≠ p ∨ present (w p) = false) in Hne.
  destruct (present (w p)); [|done]. destruct Hne; [by rewrite set_chip_ne|done].
Qed.
Next Obligation.
  intros w p Hp Hpr Hd. change (present (w p) = true) in Hpr.
  assert (E : port_in p w = ((uart_data (calm (w p))).1, set_chip p (uart_data (calm (w p))).2 w)).
  { rewrite <- (Z.add_0_r p) at 1. rewrite in_eq, Hpr by (done || lia). done. }
  rewrite E. cbn [fst snd]. by rewrite set_chip_eq.
Qed.
Next Obligation.
  intros w p Hp Hpr. change (present (w p) = true) in Hpr. rewrite in_eq, Hpr by (done || lia). cbn [Z.eqb fst snd uart_status].
  by rewrite set_chip_eq.
Qed.
Next Obligation.
  intros w p off Hp Ho Hpr. change (present (w p) = false) in Hpr.
  rewrite in_eq by (done || apply small_off; by right). by rewrite Hpr.
Qed.
Next Obligation.
  intros w p q off Hp Ho Hq Hne. change (q ≠ p ∨ present (w p) = false) in Hne.
  rewrite in_eq by (done || apply small_off; by right).
  destruct (present (w p)); [|done]. destruct Hne as [Hne|]; [|done]. destruct (_ =? 0); cbn [fst snd uart_data uart_status]; by rewrite set_chip_ne.
Qed.

(** COM1 and COM2 are there, with a byte left over in one of them. *)
Definition chips : Chips := λ p, mkUart (bool_decide (p = 0x3F8 ∨ p = 0x2F8)) 1 0 0 (12, 0) (if p =? 0x3F8 then [7] else []) [] 0.
Lemma serial_correct_witness : ∃ driver w1, init 1 chips = Ok (driver, w1) ∧ valid driver = [0x2F8; 0x3F8] ∧
  ∃ w3, write_str 1 (Some driver) [0x48; 0x0A] w1 = Ok (tt, w3) ∧ tx (uart w3 0x3F8) = [0x48; 0x0D; 0x0A].
Proof.
  destruct (serial_correct (patience := 0) 1 chips ltac:(lia)) as (driver & w1 & Hi & Hv & Hp & Hw).
  assert (valid driver = [0x2F8; 0x3F8]) as Hv' by (rewrite Hv; vm_compute; reflexivity). clear Hv.
  exists driver, w1. split; [exact Hi|]. split; [exact Hv'|].
  pose proof (Hp 0x3F8 ltac:(vm_compute; right; left)) as H3. pose proof (Hp 0x2F8 ltac:(left)) as H2.
  destruct (Hw w1) as [Hstr _].
  { rewrite Hv'. intros p Hin.
    rewrite !elem_of_cons, elem_of_nil in Hin. unfold usable, dlab, loopback. destruct Hin as [->|[->|[]]].
    - rewrite H2. split; [left|]. repeat split; vm_compute; reflexivity.
    - rewrite H3. split; [right; left|]. repeat split; vm_compute; reflexivity. }
  destruct (Hstr [0x48; 0x0A]) as (w3 & Hs & Ht). exists w3. split; [exact Hs|].
  pose proof (Ht 0x3F8 ltac:(right; left)) as Htx. rewrite decide_True in Htx by (rewrite Hv'; right; left).
  rewrite Htx. cbn [tx]. rewrite H3. vm_compute. reflexivity.
Defined.
End SampleSerial.
End Serial.
