(* ===== verification/Time.v ===== *)
(** Calibration of the time-stamp counter: kernel/src/time.rs.

    The rate is computed in IEEE double precision, modelled by the standard library's
    specification of floating point at precision 53.  The counter and the interval timer are
    a parameter ([PitHw], its behaviour [PitLaws]).  The rounding lemmas bound every operation
    by its relative error, 2^-52, in integers scaled by 2^1100; [rounded_rate_near] chains
    them and [TimeFacts.calibrate_correct] adds the polling loop. *)
From Stdlib Require Import ZArith Lia SpecFloat.
From stdpp Require Import prelude list numbers.
From S2P Require Import Prelude.

Class PitHw (W : Type) := {
  tsc : W → Z * W;
  pit_in : Z → W → Z * W;
  pit_out : Z → Z → W → W;
}.

(** * Doubles *)
Module F64.
Definition prec : Z := 53.
Definition emax : Z := 1024.
Definition div : spec_float → spec_float → spec_float := SFdiv prec emax.
Definition add : spec_float → spec_float → spec_float := SFadd prec emax.

(** [x as f64] of an integer *)
Definition of_u64 (x : Z) : spec_float := binary_normalize prec emax x 0 false.
(** [x as u64]: towards zero, and to the nearest bound outside of the type *)
Definition to_u64 (x : spec_float) : Z :=
  match x with
  | S754_finite false m e => Z.min (umax 64) (Z.shiftl (Zpos m) e)
  | S754_infinity false => umax 64
  | _ => 0
  end.
(** The literal [0.5] *)
Definition half : spec_float := div (of_u64 1) (of_u64 2).
End F64.

(** * [calibrate] *)
Module Time.
Section ops.
Context {W : Type} `{PitHw W}.

(** The statics *)
Record Clock := mkClock { hw : W; RDTSC_MHZ : Z; RDTSC_START : Z }.

Definition rdtsc : M Clock unit Z := λ c,
  let '(t, w) := tsc (hw c) in Ok (t, mkClock w (RDTSC_MHZ c) (RDTSC_START c)).
Definition out8 (addr val : Z) : M Clock unit unit := λ c,
  Ok (tt, mkClock (pit_out addr val (hw c)) (RDTSC_MHZ c) (RDTSC_START c)).
Definition in8 (addr : Z) : M Clock unit Z := λ c,
  let '(b, w) := pit_in addr (hw c) in Ok (b, mkClock w (RDTSC_MHZ c) (RDTSC_START c)).
Definition store_start (t : Z) : M Clock unit unit := λ c, Ok (tt, mkClock (hw c) (RDTSC_MHZ c) t).
Definition store_mhz (r : Z) : M Clock unit unit := λ c, Ok (tt, mkClock (hw c) r (RDTSC_START c)).

Fixpoint await_countdown (fuel : nat) : M Clock unit unit :=
  match fuel with
  | O => diverge
  | S fuel =>
      _ ← out8 0x43 0xe2;
      b ← in8 0x40;
      if negb (Z.land b 0x80 =? 0) then mret tt else await_countdown fuel
  end.

Definition elapsed : spec_float := F64.div (F64.of_u64 65535) (F64.of_u64 1193182).
Definition computed_rate (ticks : Z) : spec_float :=
  F64.div (F64.div (F64.of_u64 ticks) elapsed) (F64.of_u64 1000000).
Definition rounded_rate (ticks : Z) : res unit Z :=
  mul 64 (F64.to_u64 (F64.add (F64.div (computed_rate ticks) (F64.of_u64 100)) F64.half)) 100.

Definition calibrate (fuel : nat) : M Clock unit unit :=
  start ← rdtsc;
  _ ← store_start start;
  start ← rdtsc;
  _ ← out8 0x43 0x30;
  _ ← out8 0x40 0xff;
  _ ← out8 0x40 0xff;
  _ ← await_countdown fuel;
  end_ ← rdtsc;
  ticks ← lift (sub end_ start);
  rate ← lift (rounded_rate ticks);
  store_mhz rate.
End ops.
End Time.

(** The counts of a 2 GHz and of a 3.6 GHz processor *)
Example rates : Time.rounded_rate 109849126 = Ok 2000 ∧ Time.rounded_rate 197728427 = Ok 3600 ∧ Time.rounded_rate 0 = Ok 0.
Proof. vm_compute. done. Qed.

(** * Rounding *)
Section rounding.
Implicit Types (m e n : Z) (l : location).

Lemma digits2_spec (p : positive) : 2 ^ (Zpos (digits2_pos p) - 1) ≤ Zpos p < 2 ^ Zpos (digits2_pos p).
Proof.
  induction p as [p IH|p IH|]; cbn [digits2_pos]; [| |done];
    rewrite Pos2Z.inj_succ; set (d := Zpos (digits2_pos p)) in *;
    replace (Z.succ d - 1) with (Z.succ (d - 1)) by lia; rewrite !Z.pow_succ_r by lia; lia.
Qed.
(** The number of digits is what it is between two powers. *)
Lemma digits_eq m n : 0 ≤ n → 2 ^ n ≤ m < 2 ^ (n + 1) → Zdigits2 m = n + 1.
Proof.
  intros Hn [H1 H2]. assert (0 < 2 ^ n) by lia. destruct m as [|p|p]; [lia| |lia]. cbn [Zdigits2].
  pose proof (digits2_spec p) as [H3 H4]. set (d := Zpos (digits2_pos p)) in *.
  assert (d - 1 < n + 1) by (apply (Z.pow_lt_mono_r_iff 2); lia).
  assert (n < d) by (apply (Z.pow_lt_mono_r_iff 2); lia). lia.
Qed.
Lemma digits_bound m : 0 < m → 1 ≤ Zdigits2 m ∧ 2 ^ (Zdigits2 m - 1) ≤ m < 2 ^ Zdigits2 m.
Proof. intros Hm. destruct m as [|p|p]; [lia| |lia]. cbn [Zdigits2]. split; [lia|apply digits2_spec]. Qed.

Lemma shr_1_half r : 0 ≤ shr_m r → shr_m (shr_1 r) = shr_m r / 2.
Proof.
  destruct r as [[|[p|p|]|p] a b]; cbn [shr_m shr_1]; intros Hr; try done; try lia.
  - apply (Z.div_unique _ _ _ 1); lia.
  - apply (Z.div_unique _ _ _ 0); lia.
Qed.
Lemma shr_iter (p : positive) : ∀ r, 0 ≤ shr_m r → shr_m (SpecFloat.iter_pos shr_1 p r) = shr_m r / 2 ^ Zpos p.
Proof.
  induction p as [p IH|p IH|]; intros r Hr; cbn [SpecFloat.iter_pos].
  - assert (0 ≤ shr_m (shr_1 r)) by (rewrite shr_1_half by done; apply Z.div_pos; lia).
    assert (0 ≤ shr_m (SpecFloat.iter_pos shr_1 p (shr_1 r))) by (rewrite IH by done; apply Z.div_pos; lia).
    rewrite !IH, shr_1_half by done. rewrite !Z.div_div by lia. f_equal.
    replace (Zpos p~1) with (1 + Zpos p + Zpos p) by lia. rewrite !Z.pow_add_r by lia. lia.
  - assert (0 ≤ shr_m (SpecFloat.iter_pos shr_1 p r)) by (rewrite IH by done; apply Z.div_pos; lia).
    rewrite !IH by done. rewrite Z.div_div by lia. f_equal.
    replace (Zpos p~0) with (Zpos p + Zpos p) by lia. by rewrite Z.pow_add_r by lia.
  - rewrite shr_1_half by done. done.
Qed.
Lemma shr_spec r e n : 0 ≤ shr_m r → 0 ≤ n →
  shr_m (fst (shr r e n)) = shr_m r / 2 ^ n ∧ snd (shr r e n) = e + n.
Proof.
  intros Hr Hn. destruct n as [|p|p]; [|split; [by apply shr_iter|done]|lia].
  cbn [shr fst snd]. by rewrite Z.div_1_r, Z.add_0_r.
Qed.
Lemma shr_of_loc m l : shr_m (shr_record_of_loc m l) = m.
Proof. by destruct l as [|[]]. Qed.
Lemma nearest_cases m l : round_nearest_even m l = m ∨ round_nearest_even m l = m + 1.
Proof. unfold round_nearest_even. destruct l as [|[]]; [by left| |by left|by right]. destruct (Z.even m); [by left|by right]. Qed.

(** A mantissa of at least 53 digits, far from the ends of the exponent's range, is rounded
    to 53 of them: the result lies within a unit of the last place of all that lies between
    the mantissa and its successor. *)
Lemma round_aux_spec m e l : 2 ^ 52 ≤ m < 2 ^ 200 → -1000 ≤ e ≤ 500 →
  ∃ (m' : positive) e' n, binary_round_aux F64.prec F64.emax false m e l = S754_finite false m' e' ∧
    2 ^ 52 ≤ Zpos m' < 2 ^ 53 ∧ e ≤ e' ≤ e + n + 1 ∧ 0 ≤ n ∧ 2 ^ (52 + n) ≤ m ∧
    m / 2 ^ n * 2 ^ n ≤ Zpos m' * 2 ^ (e' - e) ≤ (m / 2 ^ n + 1) * 2 ^ n.
Proof.
  intros Hm He. destruct (digits_bound m ltac:(lia)) as (Hd1 & Hd2 & Hd3).
  set (d := Zdigits2 m) in *. assert (52 < d) by (apply (Z.pow_lt_mono_r_iff 2); lia).
  assert (d - 1 < 200) by (apply (Z.pow_lt_mono_r_iff 2); lia).
  set (n := d - 53). assert (m / 2 ^ n * 2 ^ n ≤ m < (m / 2 ^ n + 1) * 2 ^ n) as Hq.
  { assert (0 < 2 ^ n) by (apply Z.pow_pos_nonneg; lia). pose proof (Z.div_mod m (2 ^ n) ltac:(lia)).
    pose proof (Z.mod_pos_bound m (2 ^ n) ltac:(lia)). lia. }
  assert (2 ^ 52 ≤ m / 2 ^ n < 2 ^ 53) as Hr.
  { split; [apply Z.div_le_lower_bound; [lia|]|apply Z.div_lt_upper_bound; [lia|]]; rewrite <-Z.pow_add_r by (unfold n; lia);
      (eapply Z.le_trans || eapply Z.lt_le_trans); [|exact Hd2| |]; try exact Hd3; apply Z.pow_le_mono_r; unfold n; lia. }
  unfold binary_round_aux, shr_fexp. fold d.
  assert (fexp F64.prec F64.emax (d + e) - e = n) as ->
    by (unfold fexp, emin, F64.prec, F64.emax, n; lia).
  destruct (shr_spec (shr_record_of_loc m l) e n) as [S1 S2]; [rewrite shr_of_loc; lia|lia|]. rewrite shr_of_loc in S1.
  destruct (shr (shr_record_of_loc m l) e n) as [mrs e1]. cbn [fst snd] in S1, S2. rewrite S1. subst e1.
  set (q := m / 2 ^ n) in *. set (r := round_nearest_even q _).
  assert (q ≤ r ≤ q + 1) as Hrr by (destruct (nearest_cases q (loc_of_shr_record mrs)) as [E|E]; unfold r; rewrite E; lia).
  clearbody r. assert (2 ^ (52 + n) ≤ m) as Hlow by (replace (52 + n) with (d - 1) by (unfold n; lia); done).
  assert (0 ≤ n) as Hn0 by (unfold n; lia). assert (n ≤ 147) as Hn1 by (unfold n; lia). clearbody n. clear Hd1 Hd2 Hd3.
  destruct (Z.eq_dec r (2 ^ 53)) as [Er|Hne].
  - assert (Zdigits2 r = 54) as -> by (apply (digits_eq r 53); lia).
    assert (fexp F64.prec F64.emax (54 + (e + n)) - (e + n) = 1) as -> by (unfold fexp, emin, F64.prec, F64.emax; lia).
    rewrite Er. cbn [shr_record_of_loc]. change (shr {| shr_m := 2 ^ 53; shr_r := false; shr_s := false |} (e + n) 1)
      with ({| shr_m := 2 ^ 52; shr_r := false; shr_s := false |}, e + n + 1). cbn [shr_m].
    change (2 ^ 52) with (Zpos (2 ^ 52)%positive). rewrite (proj2 (Z.leb_le _ _)) by (unfold F64.emax, F64.prec; lia).
    exists (2 ^ 52)%positive, (e + n + 1), n. split; [done|]. split; [lia|]. split; [lia|]. split; [done|]. split; [done|].
    replace (e + n + 1 - e) with (n + 1) by lia. rewrite Z.pow_add_r by lia. change (Zpos (2 ^ 52)) with (2 ^ 52). nia.
  - assert (Zdigits2 r = 53) as -> by (apply (digits_eq r 52); lia).
    assert (fexp F64.prec F64.emax (53 + (e + n)) - (e + n) = 0) as -> by (unfold fexp, emin, F64.prec, F64.emax; lia).
    cbn [shr shr_record_of_loc shr_m]. destruct r as [|p|p]; [lia| |lia].
    rewrite (proj2 (Z.leb_le _ _)) by (unfold F64.emax, F64.prec; lia).
    exists p, (e + n), n. split; [done|]. split; [lia|]. split; [lia|]. split; [done|]. split; [done|].
    replace (e + n - e) with n by lia. nia.
Qed.

(** The value of a double, in units of 2^-1100 *)
Definition val m e : Z := m * 2 ^ (e + 1100).
Lemma val_shift m e e' : -1100 ≤ e ≤ e' → val m e' = m * 2 ^ (e' - e) * 2 ^ (e + 1100).
Proof. intros. unfold val. rewrite <-Z.mul_assoc, <-Z.pow_add_r by lia. do 2 f_equal. lia. Qed.

(** A quotient [num / den], given by its integer part [m], is rounded to a double that
    differs by at most 2^-52 of it. *)
Lemma round_relative m e l num den : 2 ^ 52 ≤ m < 2 ^ 200 → -1000 ≤ e ≤ 500 →
  0 < den → den * m ≤ num < den * (m + 1) →
  ∃ (m' : positive) e', binary_round_aux F64.prec F64.emax false m e l = S754_finite false m' e' ∧
    2 ^ 52 ≤ Zpos m' < 2 ^ 53 ∧ e ≤ e' ∧ 2 ^ (51 + (e' - e)) ≤ m ∧
    2 ^ 52 * Z.abs (val (Zpos m') e' * den - num * 2 ^ (e + 1100)) ≤ num * 2 ^ (e + 1100).
Proof.
  intros Hm He Hd Hnum. destruct (round_aux_spec m e l Hm He) as (m' & e' & n & -> & Hm' & He' & Hn & Hlow & HR).
  exists m', e'. split; [done|]. split; [done|]. split; [lia|]. split.
  { etrans; [|exact Hlow]. apply Z.pow_le_mono_r; lia. }
  rewrite (val_shift _ e e') by lia. set (R := Zpos m' * 2 ^ (e' - e)) in *.
  assert (0 < 2 ^ (e + 1100)) as HS by (apply Z.pow_pos_nonneg; lia). set (S := 2 ^ (e + 1100)) in *.
  replace (R * S * den - num * S) with ((R * den - num) * S) by lia. rewrite Z.abs_mul, (Z.abs_eq S), Z.mul_assoc by lia.
  apply Z.mul_le_mono_nonneg_r; [lia|]. rewrite Z.pow_add_r in Hlow by lia.
  assert (0 < 2 ^ n) as Hw by (apply Z.pow_pos_nonneg; lia).
  pose proof (Z.div_mod m (2 ^ n) ltac:(lia)) as Hq. pose proof (Z.mod_pos_bound m (2 ^ n) ltac:(lia)) as Hmod.
  set (w := 2 ^ n) in *. set (u := m / w) in *. clearbody w u R S. clear He' Hn.
  assert (2 ^ 52 * w * den ≤ num) by nia. assert (m + 1 ≤ (u + 1) * w) by lia. assert (u * w ≤ m) by lia.
  assert (u * w * den ≤ num) by nia. assert (num ≤ (u + 1) * w * den) by nia.
  assert (u * w * den ≤ R * den) by nia. assert (R * den ≤ (u + 1) * w * den) by nia.
  assert (Z.abs (R * den - num) ≤ w * den) by lia. lia.
Qed.

Lemma iter_xO (p n : positive) : Zpos (Pos.iter xO p n) = Zpos p * 2 ^ Zpos n.
Proof.
  induction n as [|n IH] using Pos.peano_ind; [cbn; lia|].
  rewrite Pos.iter_succ, Pos2Z.inj_xO, IH, Pos2Z.inj_succ, Z.pow_succ_r by lia. lia.
Qed.
Lemma shl_align_spec (p : positive) e e' : e' ≤ e →
  Zpos (fst (shl_align p e e')) = Zpos p * 2 ^ (e - e') ∧ snd (shl_align p e e') = e'.
Proof.
  intros He. unfold shl_align. destruct (e' - e) as [|d|d] eqn:E; [|lia|]; cbn [fst snd].
  - replace (e - e') with 0 by lia. lia.
  - rewrite iter_xO. replace (e - e') with (Zpos d) by lia. done.
Qed.

(** A double of full precision *)
Definition normal (x : spec_float) m e : Prop :=
  2 ^ 52 ≤ m < 2 ^ 53 ∧ ∃ p : positive, m = Zpos p ∧ x = S754_finite false p e.

Lemma of_u64_near d : 1 ≤ d ≤ 2 ^ 40 →
  ∃ m e, normal (F64.of_u64 d) m e ∧ -52 ≤ e ≤ -11 ∧ 2 ^ 52 * Z.abs (val m e - val d 0) ≤ val d 0.
Proof.
  intros Hd. destruct d as [|p|p]; [lia| |lia]. unfold F64.of_u64. cbn [binary_normalize]. unfold binary_round.
  pose proof (digits2_spec p) as [H1 H2]. set (k := Zpos (digits2_pos p)) in *.
  assert (k - 1 < 41) by (apply (Z.pow_lt_mono_r_iff 2); lia). assert (1 ≤ k) by lia.
  assert (fexp F64.prec F64.emax (k + 0) = k - 53) as -> by (unfold fexp, emin, F64.prec, F64.emax; lia).
  destruct (shl_align_spec p 0 (k - 53) ltac:(lia)) as [E1 E2]. destruct (shl_align p 0 (k - 53)) as [q e]. cbn [fst snd] in E1, E2.
  subst e. replace (0 - (k - 53)) with (53 - k) in E1 by lia.
  assert (2 ^ 52 ≤ Zpos q < 2 ^ 53) as Hq.
  { rewrite E1. replace (2 ^ 52) with (2 ^ (k - 1) * 2 ^ (53 - k)) by (rewrite <-Z.pow_add_r by lia; f_equal; lia).
    replace (2 ^ 53) with (2 ^ k * 2 ^ (53 - k)) by (rewrite <-Z.pow_add_r by lia; f_equal; lia).
    assert (0 < 2 ^ (53 - k)) by (apply Z.pow_pos_nonneg; lia). nia. }
  destruct (round_relative (Zpos q) (k - 53) loc_Exact (Zpos q) 1) as (m' & e' & -> & Hm & He & Hlow & Herr); [lia..|].
  assert (51 + (e' - (k - 53)) < 53) by (apply (Z.pow_lt_mono_r_iff 2); lia).
  exists (Zpos m'), e'. split; [split; [done|by exists m']|]. split; [lia|]. rewrite Z.mul_1_r in Herr.
  replace (val (Zpos p) 0) with (Zpos q * 2 ^ (k - 53 + 1100)); [done|].
  rewrite (val_shift _ (k - 53) 0), E1 by lia. do 3 f_equal. lia.
Qed.

Lemma div_near x m1 e1 y m2 e2 : normal x m1 e1 → normal y m2 e2 → -100 ≤ e1 ≤ 100 → -60 ≤ e2 ≤ 0 →
  ∃ m e, normal (F64.div x y) m e ∧ e1 - e2 - 53 ≤ e ≤ e1 - e2 - 51 ∧
    2 ^ 52 * Z.abs (val m e * m2 - val m1 e1 * 2 ^ (- e2)) ≤ val m1 e1 * 2 ^ (- e2).
Proof.
  intros (H1 & p1 & -> & ->) (H2 & p2 & -> & ->) He1 He2. unfold F64.div, SFdiv, SFdiv_core_binary. cbn [xorb].
  rewrite (digits_eq (Zpos p1) 52), (digits_eq (Zpos p2) 52) by lia.
  replace (Z.min _ _) with (e1 - e2 - 53) by (unfold fexp, emin, F64.prec, F64.emax; lia).
  replace (e1 - e2 - (e1 - e2 - 53)) with 53 by lia. rewrite Z.shiftl_mul_pow2 by lia.
  pose proof (Z_div_mod (Zpos p1 * 2 ^ 53) (Zpos p2) ltac:(lia)) as Hdiv.
  destruct (Z.div_eucl (Zpos p1 * 2 ^ 53) (Zpos p2)) as [q r]. destruct Hdiv as [Hq Hr].
  assert (2 ^ 52 ≤ q < 2 ^ 54) as Hqb by nia.
  destruct (round_relative q (e1 - e2 - 53) (new_location (Zpos p2) r) (Zpos p1 * 2 ^ 53) (Zpos p2))
    as (m' & e' & -> & Hm & He & Hlow & Herr); [lia..|].
  assert (51 + (e' - (e1 - e2 - 53)) < 54) by (apply (Z.pow_lt_mono_r_iff 2); lia).
  exists (Zpos m'), e'. split; [split; [done|by exists m']|]. split; [lia|].
  replace (val (Zpos p1) e1 * 2 ^ (- e2)) with (Zpos p1 * 2 ^ 53 * 2 ^ (e1 - e2 - 53 + 1100)); [done|].
  unfold val. rewrite <-!Z.mul_assoc, <-!Z.pow_add_r by lia. do 2 f_equal. lia.
Qed.

Lemma round_no_shift (p : positive) e : 2 ^ 52 ≤ Zpos p < 2 ^ 200 → -1000 ≤ e ≤ 500 →
  binary_normalize F64.prec F64.emax (Zpos p) e false = binary_round_aux F64.prec F64.emax false (Zpos p) e loc_Exact.
Proof.
  intros Hp He. cbn [binary_normalize]. unfold binary_round, shl_align. pose proof (digits2_spec p) as [H1 H2].
  assert (52 < Zpos (digits2_pos p)) by (apply (Z.pow_lt_mono_r_iff 2); lia).
  destruct (fexp F64.prec F64.emax (Zpos (digits2_pos p) + e) - e) as [|k|k] eqn:E; [done..|].
  exfalso. unfold fexp, emin, F64.prec, F64.emax in E. lia.
Qed.
Lemma add_near x m1 e1 y m2 e2 : normal x m1 e1 → normal y m2 e2 → -100 ≤ e1 ≤ 0 → -100 ≤ e2 ≤ 0 →
  ∃ m e, normal (F64.add x y) m e ∧ -100 ≤ e ≤ 200 ∧
    2 ^ 52 * Z.abs (val m e - (val m1 e1 + val m2 e2)) ≤ val m1 e1 + val m2 e2.
Proof.
  intros (H1 & p1 & -> & ->) (H2 & p2 & -> & ->) He1 He2. unfold F64.add, SFadd. cbn [cond_Zopp].
  set (ez := Z.min e1 e2). rewrite (proj1 (shl_align_spec p1 e1 ez ltac:(lia))), (proj1 (shl_align_spec p2 e2 ez ltac:(lia))).
  rewrite (val_shift (Zpos p1) ez e1), (val_shift (Zpos p2) ez e2), <-Z.mul_add_distr_r by lia.
  assert (1 ≤ 2 ^ (e1 - ez) ≤ 2 ^ 100) by (split; [change 1 with (2 ^ 0)|]; apply Z.pow_le_mono_r; lia).
  assert (1 ≤ 2 ^ (e2 - ez) ≤ 2 ^ 100) by (split; [change 1 with (2 ^ 0)|]; apply Z.pow_le_mono_r; lia).
  assert (2 ^ 52 ≤ Zpos p1 * 2 ^ (e1 - ez) + Zpos p2 * 2 ^ (e2 - ez) < 2 ^ 154) as Hs by nia.
  set (s := Zpos p1 * 2 ^ (e1 - ez) + Zpos p2 * 2 ^ (e2 - ez)) in *. clearbody s. destruct s as [|s|s]; [lia| |lia].
  rewrite round_no_shift by lia.
  destruct (round_relative (Zpos s) ez loc_Exact (Zpos s) 1) as (m' & e' & -> & Hm & He & Hlow & Herr); [lia..|].
  assert (51 + (e' - ez) < 154) by (apply (Z.pow_lt_mono_r_iff 2); lia).
  exists (Zpos m'), e'. split; [split; [done|by exists m']|]. split; [lia|]. by rewrite Z.mul_1_r in Herr.
Qed.

(** The cast to an integer rounds down. *)
Lemma to_u64_floor x m e : normal x m e → -1100 ≤ e → val m e < val (2 ^ 64) 0 →
  val (F64.to_u64 x) 0 ≤ val m e < val (F64.to_u64 x + 1) 0 ∧ 0 ≤ F64.to_u64 x < 2 ^ 64.
Proof.
  intros (H1 & p & -> & ->) He Hv. cbn [F64.to_u64]. set (k := Z.shiftl (Zpos p) e).
  assert (val k 0 ≤ val (Zpos p) e < val (k + 1) 0 ∧ 0 ≤ k) as [Hk Hk0].
  { unfold k. destruct (Z.le_gt_cases 0 e).
    - rewrite Z.shiftl_mul_pow2 by lia. rewrite (val_shift _ 0 e), Z.sub_0_r by lia. unfold val.
      assert (0 < 2 ^ e) by (apply Z.pow_pos_nonneg; lia). assert (0 < 2 ^ (0 + 1100)) by (apply Z.pow_pos_nonneg; lia). nia.
    - rewrite Z.shiftl_div_pow2 by lia. assert (0 < 2 ^ (- e)) as Hw by (apply Z.pow_pos_nonneg; lia).
      pose proof (Z.div_mod (Zpos p) (2 ^ (- e)) ltac:(lia)). pose proof (Z.mod_pos_bound (Zpos p) (2 ^ (- e)) Hw).
      set (q := Zpos p / 2 ^ (- e)) in *. rewrite (val_shift q e 0), (val_shift (q + 1) e 0), Z.sub_0_l by lia. unfold val. assert (0 < 2 ^ (e + 1100)) by (apply Z.pow_pos_nonneg; lia).
      assert (0 ≤ q) by (apply Z.div_pos; lia). clearbody q. set (w := 2 ^ (- e)) in *. clearbody w. nia. }
  clearbody k. assert (k < 2 ^ 64) by (unfold val in Hk, Hv; assert (0 < 2 ^ (0 + 1100)) by (apply Z.pow_pos_nonneg; lia); nia).
  rewrite Z.min_r by (unfold umax; lia). done.
Qed.
End rounding.

(** * The rate *)
Lemma elapsed_normal : normal Time.elapsed 7915463735248449 (-57).
Proof. split; [lia|]. exists 7915463735248449%positive. split; [done|vm_compute; reflexivity]. Qed.
Lemma million_normal : normal (F64.of_u64 1000000) (1000000 * 2 ^ 33) (-33).
Proof. split; [lia|]. exists (1000000 * 2 ^ 33)%positive. split; [done|vm_compute; reflexivity]. Qed.
Lemma hundred_normal : normal (F64.of_u64 100) (100 * 2 ^ 46) (-46).
Proof. split; [lia|]. exists (100 * 2 ^ 46)%positive. split; [done|vm_compute; reflexivity]. Qed.
Lemma half_normal : normal F64.half (2 ^ 52) (-53).
Proof. split; [lia|]. exists (2 ^ 52)%positive. split; [done|vm_compute; reflexivity]. Qed.

(** Six roundings later the rate is still the multiple of 100 MHz next to the exact one. *)
Lemma rounded_rate_near d : 0 ≤ d ≤ 2 ^ 40 →
  ∃ k, Time.rounded_rate d = Ok (100 * k) ∧ 0 ≤ k < 2 ^ 40 ∧
    100000 * Z.abs (65535 * 100000000 * k - 1193182 * d) ≤ 50001 * (65535 * 100000000).
Proof.
  intros Hd. destruct (Z.eq_dec d 0) as [->|Hd0]; [exists 0; split; [vm_compute; reflexivity|lia]|].
  destruct (of_u64_near d ltac:(lia)) as (m0 & e0 & N0 & E0 & B0).
  destruct (div_near _ _ _ _ _ _ N0 elapsed_normal ltac:(lia) ltac:(lia)) as (m1 & e1 & N1 & E1 & B1).
  destruct (div_near _ _ _ _ _ _ N1 million_normal ltac:(lia) ltac:(lia)) as (m2 & e2 & N2 & E2 & B2).
  destruct (div_near _ _ _ _ _ _ N2 hundred_normal ltac:(lia) ltac:(lia)) as (m3 & e3 & N3 & E3 & B3).
  destruct (add_near _ _ _ _ _ _ N3 half_normal ltac:(lia) ltac:(lia)) as (m4 & e4 & N4 & E4 & B4).
  pose proof (to_u64_floor _ m4 e4 N4 ltac:(lia)) as HF. unfold Time.rounded_rate, Time.computed_rate.
  set (k := F64.to_u64 _) in *. clearbody k. clear N0 N1 N2 N3 N4.
  replace (val (2 ^ 52) (-53)) with (2 ^ 1099) in B4
    by (unfold val; rewrite <-Z.pow_add_r by lia; f_equal; lia).
  change (val d 0) with (d * 2 ^ 1100) in B0. change (val (2 ^ 64) 0) with (2 ^ 64 * 2 ^ 1100) in HF.
  change (val k 0) with (k * 2 ^ 1100) in HF. change (val (k + 1) 0) with ((k + 1) * 2 ^ 1100) in HF.
  assert (2 ^ 1100 = 2 * 2 ^ 1099) as HK by done. rewrite HK in *.
  assert (0 < 2 ^ 1099) as HH by done. set (H := 2 ^ 1099) in *. clearbody H.
  set (z0 := val m0 e0) in *. set (z1 := val m1 e1) in *. set (z2 := val m2 e2) in *. set (z3 := val m3 e3) in *.
  set (z4 := val m4 e4) in *. clearbody z0 z1 z2 z3 z4. clear E0 E1 E2 E3 E4.
  set (dH := d * (2 * H)) in *. assert (0 < dH ≤ 2 ^ 41 * H) by (unfold dH; nia).
  assert (10 ^ 12 * Z.abs (65535 * 100000000 * z3 - 1193182 * dH) ≤ 1193182 * dH) as HZ by lia.
  assert (0 ≤ z3) by lia. assert (10 ^ 12 * Z.abs (65535 * 100000000 * (z4 - H) - 1193182 * dH) ≤ 2 * (1193182 * dH) + 65535 * 100000000 * H) as HW by lia.
  clear B0 B1 B2 B3 B4 HZ. destruct HF as [HF HR]; [lia|].
  assert (0 ≤ k < 2 ^ 40) by nia.
  exists k. split; [|split; [done|]].
  { unfold mul, checked_mul. by rewrite (proj2 (Z.ltb_lt _ _)), Z.mul_comm by lia. }
  apply (Z.mul_le_mono_pos_r _ _ (2 * H)); [lia|].
  replace (100000 * Z.abs (65535 * 100000000 * k - 1193182 * d) * (2 * H)) with (100000 * Z.abs (65535 * 100000000 * (k * (2 * H)) - 1193182 * dH)).
  2:{ unfold dH. replace (_ * (k * _) - _) with ((65535 * 100000000 * k - 1193182 * d) * (2 * H)) by lia. rewrite Z.abs_mul. lia. }
  set (kH := k * (2 * H)) in *. replace ((k + 1) * (2 * H)) with (kH + 2 * H) in HF by lia. clearbody kH dH. lia.
Qed.

(** * The interval timer *)

(** What the kernel relies on: reading the counter and accessing a port take at most [lag]
    ticks of the counter; the control word 0x30 and the count 0xffff start a countdown that
    lasts [span] ticks; a read-back command latches the state of the output, which is high
    once the countdown is over, and the next read of the channel returns it in bit 7. *)
Class PitLaws (W : Type) `{PitHw W} := {
  now : W → Z;
  until : W → option Z;
  span : Z;
  lag : Z;
  span_pos : 0 < span;
  tsc_law : ∀ w t w', tsc w = (t, w') → t = now w' ∧ now w ≤ now w' ≤ now w + lag ∧ until w' = until w;
  start_law : ∀ w w', w' = pit_out 0x40 0xff (pit_out 0x40 0xff (pit_out 0x43 0x30 w)) →
    now w ≤ now w' ≤ now w + 3 * lag ∧ until w' = Some (now w' + span);
  latch_law : ∀ w u w1 b w2, until w = Some u → w1 = pit_out 0x43 0xe2 w → pit_in 0x40 w1 = (b, w2) →
    now w < now w1 ≤ now w + lag ∧ now w1 ≤ now w2 ≤ now w1 + lag ∧ until w2 = Some u ∧
    Z.testbit b 7 = (u <=? now w1);
}.

Module TimeFacts.
Section facts.
Context {W : Type} `{PitLaws W}.
Implicit Types c : Time.Clock (W := W).

Lemma bit7 b : negb (Z.land b 0x80 =? 0) = Z.testbit b 7.
Proof.
  change 0x80 with (2 ^ 7). destruct (Z.testbit b 7) eqn:E.
  - apply negb_true_iff, Z.eqb_neq. intros Hz. assert (Z.testbit (Z.land b (2 ^ 7)) 7 = false) as Hz1 by (rewrite Hz; apply Z.bits_0).
    rewrite Z.land_spec, E, Z.pow2_bits_true in Hz1 by lia. done.
  - apply negb_false_iff, Z.eqb_eq, Z.bits_inj'. intros i Hi. rewrite Z.land_spec, Z.bits_0.
    destruct (decide (i = 7)) as [->|]; [by rewrite E|]. by rewrite Z.pow2_bits_false, andb_false_r by lia.
Qed.

(** The polling loop ends with the countdown, and at most four accesses after it. *)
Lemma await_ok n c u fuel : until (Time.hw c) = Some u → u ≤ now (Time.hw c) + Z.of_nat n → (n < fuel)%nat →
  now (Time.hw c) < u + lag →
  ∃ c', Time.await_countdown fuel c = Ok (tt, c') ∧ u ≤ now (Time.hw c') < u + 3 * lag ∧
    now (Time.hw c) ≤ now (Time.hw c') ∧
    until (Time.hw c') = Some u ∧ Time.RDTSC_START c' = Time.RDTSC_START c.
Proof.
  revert c fuel. induction n as [|n IH]; intros c [|fuel] Hu Hn Hf Hlt; try lia; cbn [Time.await_countdown];
    rewrite (M_bind_Ok _ _ _ tt (Time.mkClock (pit_out 0x43 0xe2 (Time.hw c)) (Time.RDTSC_MHZ c) (Time.RDTSC_START c))) by done.
  all: destruct (pit_in 0x40 (pit_out 0x43 0xe2 (Time.hw c))) as [b w2] eqn:E.
  all: destruct (latch_law _ _ _ _ _ Hu eq_refl E) as (A1 & A2 & A3 & A4).
  all: rewrite (M_bind_Ok _ _ _ b (Time.mkClock w2 (Time.RDTSC_MHZ c) (Time.RDTSC_START c)))
    by (unfold Time.in8; cbn [Time.hw]; by rewrite E).
  all: rewrite bit7, A4; destruct (Z.leb_spec u (now (pit_out 0x43 0xe2 (Time.hw c)))); [eexists; split; [done|]; cbn [Time.hw Time.RDTSC_START]; split; [lia|]; split; [lia|]; done|]; try lia.
  destruct (IH (Time.mkClock w2 (Time.RDTSC_MHZ c) (Time.RDTSC_START c)) fuel) as (c' & E' & B1 & B2 & B3 & B4); cbn [Time.hw] in *; [done|lia..|].
  exists c'. split; [done|]. split; [done|]. split; [lia|]. done.
Qed.

(** C33. Calibration ends, however the counter and the timer interleave with it, and stores
    the counter at its start and a multiple of 100 MHz: the one nearest to the rate at which
    the counter ran during the countdown (65535 periods of the timer's 1193182 Hz), up to half
    a step, a hundred-thousandth of a step for all the roundings of the double arithmetic, and
    the delay of seven accesses.  A processor that runs at a multiple of 100 MHz is given exactly its rate
    when an access takes no more than 300000 ticks. *)
Theorem calibrate_correct c (fuel : nat) : span + 7 * lag ≤ 2 ^ 40 → span < Z.of_nat fuel →
  ∃ k c', Time.calibrate fuel c = Ok (tt, c') ∧
    now (Time.hw c) ≤ Time.RDTSC_START c' ≤ now (Time.hw c) + lag ∧
    Time.RDTSC_MHZ c' = 100 * k ∧
    100000 * Z.abs (65535 * 100000000 * k - 1193182 * span) ≤ 50001 * (65535 * 100000000) + 700000 * 1193182 * lag ∧
    (∀ f, Z.abs (65535 * 100000000 * f - 1193182 * span) ≤ 1193182 → lag ≤ 300000 → k = f).
Proof.
  intros Hs Hf. pose proof span_pos. unfold Time.calibrate.
  destruct (tsc (Time.hw c)) as [t0 w0] eqn:E0. destruct (tsc_law _ _ _ E0) as (-> & T0 & _).
  rewrite (M_bind_Ok _ _ _ (now w0) (Time.mkClock w0 (Time.RDTSC_MHZ c) (Time.RDTSC_START c))) by (unfold Time.rdtsc; by rewrite E0).
  rewrite (M_bind_Ok _ _ _ tt (Time.mkClock w0 (Time.RDTSC_MHZ c) (now w0))) by done.
  destruct (tsc w0) as [t1 w1] eqn:E1. destruct (tsc_law _ _ _ E1) as (-> & T1 & _).
  rewrite (M_bind_Ok _ _ _ (now w1) (Time.mkClock w1 (Time.RDTSC_MHZ c) (now w0))) by (unfold Time.rdtsc; cbn [Time.hw]; by rewrite E1).
  do 3 (rewrite (M_bind_Ok _ _ _ tt (Time.mkClock _ (Time.RDTSC_MHZ c) (now w0))) by reflexivity). cbn [Time.hw].
  set (w2 := pit_out 0x40 0xff _). destruct (start_law w1 w2 eq_refl) as (T2 & U2). clearbody w2.
  destruct (await_ok (Z.to_nat span) (Time.mkClock w2 (Time.RDTSC_MHZ c) (now w0)) (now w2 + span) fuel)
    as (c3 & E3 & T3 & _ & U3 & S3); cbn [Time.hw]; [done|lia..|].
  rewrite (M_bind_Ok _ _ _ tt c3) by done.
  destruct (tsc (Time.hw c3)) as [t4 w4] eqn:E4. destruct (tsc_law _ _ _ E4) as (-> & T4 & _).
  rewrite (M_bind_Ok _ _ _ (now w4) (Time.mkClock w4 (Time.RDTSC_MHZ c3) (Time.RDTSC_START c3))) by (unfold Time.rdtsc; by rewrite E4).
  cbn [Time.RDTSC_START] in S3. rewrite S3.
  rewrite (M_bind_Ok _ _ _ (now w4 - now w1) (Time.mkClock w4 (Time.RDTSC_MHZ c3) (now w0)))
    by (unfold lift, sub, checked_sub; by rewrite (proj2 (Z.leb_le _ _)) by lia).
  assert (0 ≤ now w4 - now w1 ≤ 2 ^ 40) as Hd by lia. destruct (rounded_rate_near _ Hd) as (k & Ek & Hk & Hb).
  rewrite (M_bind_Ok _ _ _ (100 * k) (Time.mkClock w4 (Time.RDTSC_MHZ c3) (now w0))) by (unfold lift; by rewrite Ek).
  exists k. eexists. split; [reflexivity|]. cbn [Time.RDTSC_START Time.RDTSC_MHZ]. split; [lia|]. split; [done|]. split; [lia|].
  intros f Hfr Hl. lia.
Qed.
End facts.
End TimeFacts.

(** * A 2 GHz processor *)
Module TimeSample.
(** The counter advances by one with every access; [ends] is the end of the countdown, which a
    write of the count starts anew, and [latch] the latched output. *)
Record Pit := mkPit { ticks : Z; ends : option Z; latch : bool }.
Definition ticks_55ms : Z := 109849126.
#[export] Instance pit_hw : PitHw Pit := {
  tsc p := (ticks p + 1, mkPit (ticks p + 1) (ends p) (latch p));
  pit_in port p := (if latch p then 0xb0 else 0x30, mkPit (ticks p + 1) (ends p) (latch p));
  pit_out port v p :=
    let t := ticks p + 1 in
    if port =? 0x40 then mkPit t (Some (t + ticks_55ms)) false
    else if v =? 0xe2 then mkPit t (ends p) (match ends p with Some u => u <=? t | None => false end)
    else mkPit t None false;
}.
#[export] Program Instance pit_laws : PitLaws Pit := {
  now := ticks; until := ends; span := ticks_55ms; lag := 1;
}.
Next Obligation. unfold ticks_55ms. lia. Qed.
Next Obligation. intros w t w' [= <- <-]. cbn. split; [done|]. split; [lia|done]. Qed.
Next Obligation. intros w w' ->. cbn -[ticks_55ms]. split; [lia|done]. Qed.
Next Obligation.
  intros w u w1 b w2 Hu -> [= <- <-]. cbn -[ticks_55ms]. rewrite Hu. split; [lia|]. split; [lia|]. split; [done|].
  by destruct (u <=? ticks w + 1).
Qed.

Lemma calibrate_correct_witness : ∃ c',
  Time.calibrate (Z.to_nat 109849127) (Time.mkClock (mkPit 500 None false) 3000 0) = Ok (tt, c') ∧ Time.RDTSC_MHZ c' = 2000.
Proof.
  destruct (TimeFacts.calibrate_correct (Time.mkClock (mkPit 500 None false) 3000 0) (Z.to_nat 109849127))
    as (k & c' & E & _ & Hm & _ & Hk); [cbn; unfold ticks_55ms; lia|cbn; unfold ticks_55ms; lia|].
  exists c'. split; [exact E|]. rewrite Hm, (Hk 20); [done|cbn; unfold ticks_55ms; lia|cbn; lia].
Defined.
End TimeSample.
