(* ===== verification/BootInit.v ===== *)
(** The very first boot: [init_setup] and the whole of [efi_main] in
    bootloader/src/main.rs, with the data of shared/shared_data/src/lib.rs.

    The firmware is a record of what it passes and answers; the serial ports are those
    of Serial.v.  What [println!] writes after the initialisation is not modelled, nor
    is the write protection [map_once] lifts for a moment. *)
From Stdlib Require Import ZArith Lia String Ascii.
From stdpp Require Import prelude list numbers gmap.
From S2P Require Import Prelude Packet Ranges PageTable PageMem PageAlloc PageMap PageSpace PageRam.
From S2P Require Import KernelMm KernelAlloc Elf BootMm Boot BootLoad Acpi Serial Sync.
Import Layout.

Module BootInit.
Abbreviation Once := (@OnceLock.OnceLock).

(** * What is shared with the kernel *)
Record BootloaderState := mkBootloaderState { page_table : Z; entry : Z; stack : Z }.
(** The memory stands for its range set ([free_memory]); locks are taken and released
    within the operations. *)
Record Shared := mkShared {
  rebooting : bool; serial : option Serial.SerialDriver; free_memory : option Pmem;
  kernel_image : option Elf.Elf; kernel_pt : option Z; next_stack : Z;
  acpi_sdt : Once Acpi.SdtTable; bootloader : Once BootloaderState }.
Definition Shared_new : Shared :=
  mkShared true None None None None KERNEL_STACK_BASE OnceLock.new OnceLock.new.

(** The statics of the bootloader *)
Record Loader := mkLoader {
  SHARED : Shared; RAW_PT_ENTRY : Z; MEMORY_SNAPSHOT : Once Pmem; INITIALIZED : bool }.
Definition Loader_new : Loader := mkLoader Shared_new 0 OnceLock.new false.

(** What the firmware answers: the memory map, the exit of the boot services, the
    configuration tables, the memory behind a map of its free part; and the registers
    and addresses at the entry. *)
Record Firmware := mkFirmware {
  map_ret : Z; map_size : Z; descriptors : list Memory.MemoryDescriptor; exit_ret : Z;
  config_tables : list (EfiAcpi.Guid * Z); behind : RangeSet → Pmem;
  cr3 : Z; rsp : Z; entry_point : Z }.

(** ** The parts the loading of the kernel works on *)
Definition boot_of (self : Loader) : res unit (Boot Pmem) :=
  memory ← unwrap (free_memory (SHARED self));
  Ok (mkBoot (kernel_image (SHARED self)) (kernel_pt (SHARED self)) (next_stack (SHARED self)) memory (RAW_PT_ENTRY self)).
Definition with_boot (self : Loader) (reb : bool) (b : Boot Pmem) : Loader :=
  mkLoader (mkShared reb (serial (SHARED self)) (Some (Boot.pmem b)) (Boot.kernel_image b) (Boot.kernel_pt b)
              (Boot.next_stack b) (acpi_sdt (SHARED self)) (bootloader (SHARED self)))
    (Boot.RAW_PT_ENTRY b) (MEMORY_SNAPSHOT self) (INITIALIZED self).

(** * Initialisation *)
Definition utf8 (s : string) : list Z := (λ c, Z.of_N (N_of_ascii c)) <$> list_ascii_of_string s.
Definition BANNER : list (list Z) :=
  [utf8 "─────────────────────────────┐" ++ [0x0A]; utf8 "Initializing the bootloader! │" ++ [0x0A; 0x0A]].

(** [mm::init] and [trampoline::map_once] on [SHARED] *)
Definition mm_init (fw : Firmware) (map : RangeSet) (self : Shared) : Shared :=
  mkShared (rebooting self) (serial self)
    (match free_memory self with Some memory => Some memory | None => Some (behind fw map) end)
    (kernel_image self) (kernel_pt self) (next_stack self) (acpi_sdt self) (bootloader self).
Definition map_once (table : Z) (trampoline : list Z) (self : Loader) : res unit Loader :=
  if negb (RAW_PT_ENTRY self =? 0) then Ok self else
  b ← boot_of self;
  b ← Boot.map_once table trampoline b;
  Ok (with_boot self (rebooting (SHARED self)) b).
Definition set_serial (driver : Serial.SerialDriver) (self : Shared) : Shared :=
  mkShared (rebooting self) (Some driver) (free_memory self) (kernel_image self) (kernel_pt self)
    (next_stack self) (acpi_sdt self) (bootloader self).
Definition set_once (acpi : Once Acpi.SdtTable) (state : Once BootloaderState) (self : Shared) : Shared :=
  mkShared (rebooting self) (serial self) (free_memory self) (kernel_image self) (kernel_pt self)
    (next_stack self) acpi state.

Section init.
Context {W : Type} `{Ports W}.

Definition init_setup (fuel : nat) (fw : Firmware) (trampoline : list Z) (self : Loader) : M W unit Loader :=
  driver ← Serial.init fuel;
  _ ← Serial.write fuel driver (nth 0 BANNER []);
  _ ← Serial.write fuel driver (nth 1 BANNER []);
  map ← lift (unwrap_res (Memory.memory_map_exit (map_ret fw) (map_size fw) (descriptors fw) (exit_ret fw)));
  let shared := mm_init fw map (set_serial driver (SHARED self)) in
  self ← lift (map_once (cr3 fw) trampoline (mkLoader shared (RAW_PT_ENTRY self) (MEMORY_SNAPSHOT self) (INITIALIZED self)));
  memory ← lift (unwrap (free_memory (SHARED self)));
  sdt ← lift (unwrap_res (EfiAcpi.get_sdt_table (λ p, peek p memory) (config_tables fw)));
  acpi ← lift (OnceLock.set (acpi_sdt (SHARED self)) sdt);
  state ← lift (OnceLock.set (bootloader (SHARED self)) (mkBootloaderState (cr3 fw) (entry_point fw) (rsp fw)));
  snapshot ← lift (OnceLock.set (MEMORY_SNAPSHOT self) memory);
  mret (mkLoader (set_once acpi state (SHARED self)) (RAW_PT_ENTRY self) snapshot true).

(** * The entry point, for the firmware and for every core *)
(** The snapshot is looked at by a reboot only. *)
Definition machine_of (self : Loader) : res unit Machine :=
  b ← boot_of self;
  snapshot ← (if rebooting (SHARED self) then o ← OnceLock.get (MEMORY_SNAPSHOT self); unwrap o else Ok (Boot.pmem b));
  Ok (mkMachine b (rebooting (SHARED self)) snapshot).
Definition efi_main (fuel : nat) (fw : Firmware) (trampoline image : list Z) (gbyte_pages pse : bool) (self : Loader)
    : M W unit (Z * Z * Z * Loader) :=
  self ← (if INITIALIZED self then mret self else init_setup fuel fw trampoline self);
  m ← lift (machine_of self);
  r ← lift (Boot.efi_main image gbyte_pages pse m);
  mret (r.1, with_boot self (Boot.rebooting r.2) (Boot.boot r.2)).

(** The cores of the machine, one after the other *)
Fixpoint boot_cores (n fuel : nat) (fw : Firmware) (trampoline image : list Z) (gbyte_pages pse : bool) (self : Loader)
    : M W unit (list (Z * Z * Z) * Loader) :=
  match n with
  | O => mret ([], self)
  | S n =>
      r ← efi_main fuel fw trampoline image gbyte_pages pse self;
      l ← boot_cores n fuel fw trampoline image gbyte_pages pse r.2;
      mret (r.1 :: l.1, l.2)
  end.

(** ** The cores after the first see what the first left *)
Lemma with_boot_of self b : boot_of self = Ok b → with_boot self (rebooting (SHARED self)) b = self.
Proof. destruct self as [[r se [m|] ki kt ns ac bl] raw sn i]; [|done]. by intros [= <-]. Qed.
Lemma boot_of_with self r b : boot_of (with_boot self r b) = Ok b.
Proof. by destruct b. Qed.
Lemma with_boot_twice self r b r' b' : with_boot (with_boot self r b) r' b' = with_boot self r' b'.
Proof. done. Qed.

Lemma efi_main_run fuel fw trampoline image gbyte_pages pse self m jump m' (w : W) :
  INITIALIZED self = true → machine_of self = Ok m → Boot.efi_main image gbyte_pages pse m = Ok (jump, m') →
  efi_main fuel fw trampoline image gbyte_pages pse self w
    = Ok ((jump, with_boot self (Boot.rebooting m') (Boot.boot m')), w).
Proof.
  intros Hi Hm E. unfold efi_main. rewrite Hi, (M_bind_Ok (mret self) _ w self w eq_refl).
  rewrite Hm, (M_bind_Ok (lift (Ok m)) _ w m w eq_refl). by rewrite E.
Qed.

Lemma later_cores n fuel fw trampoline image gbyte_pages pse snapshot l m' (w : W) : ∀ self b,
  INITIALIZED self = true → rebooting (SHARED self) = false → boot_of self = Ok b →
  Boot.boot_cores n image gbyte_pages pse (mkMachine b false snapshot) = Ok (l, m') →
  boot_cores n fuel fw trampoline image gbyte_pages pse self w
    = Ok ((l, with_boot self (Boot.rebooting m') (Boot.boot m')), w).
Proof.
  revert l m'. induction n as [|n IH]; intros l m' self b Hi Hr Hb E.
  { injection E as <- <-. cbn [Boot.rebooting Boot.boot]. by rewrite <-Hr, with_boot_of. }
  cbn [boot_cores Boot.boot_cores] in *.
  assert (machine_of self = Ok (mkMachine b false (Boot.pmem b))) as Hm by (unfold machine_of; by rewrite Hb, Hr).
  unfold Boot.efi_main in E. cbn [Boot.rebooting Boot.boot Boot.MEMORY_SNAPSHOT mbind res_bind] in E.
  destruct (map_kernel_stack b) as [[top b1]| | |] eqn:Ek; try done. cbn [mbind res_bind fst snd] in E.
  destruct (jump_to_kernel top b1) as [jump| | |] eqn:Ej; try done. cbn [mbind res_bind fst snd] in E.
  destruct (Boot.boot_cores n _ _ _ _) as [[l' m1]| | |] eqn:E1; try done. cbn [mbind res_bind fst snd] in E. injection E as <- <-.
  rewrite (M_bind_Ok _ _ _ _ _ (efi_main_run fuel fw trampoline image gbyte_pages pse self _ jump
    (mkMachine b1 false (Boot.pmem b)) w Hi Hm ltac:(unfold Boot.efi_main; cbn; by rewrite Ek; cbn; rewrite Ej))).
  cbn [fst snd]. by rewrite (M_bind_Ok _ _ _ _ _ (IH l' m1 (with_boot self false b1) b1 Hi eq_refl (boot_of_with _ _ _) E1)).
Qed.

Lemma cores_run n fuel fw trampoline image gbyte_pages pse snapshot l m' (w : W) self b :
  INITIALIZED self = true → rebooting (SHARED self) = true → boot_of self = Ok b →
  MEMORY_SNAPSHOT self = OnceLock.mkOnceLock true (Some snapshot) →
  Boot.boot_cores (S n) image gbyte_pages pse (mkMachine b true snapshot) = Ok (l, m') →
  boot_cores (S n) fuel fw trampoline image gbyte_pages pse self w
    = Ok ((l, with_boot self (Boot.rebooting m') (Boot.boot m')), w).
Proof.
  intros Hi Hr Hb Hs E. cbn [boot_cores Boot.boot_cores] in *.
  assert (machine_of self = Ok (mkMachine b true snapshot)) as Hm by (unfold machine_of; by rewrite Hb, Hr, Hs).
  destruct (Boot.efi_main image gbyte_pages pse (mkMachine b true snapshot)) as [[jump m1]| | |] eqn:Em; try done.
  assert (m1 = mkMachine (Boot.boot m1) false snapshot) as Hm1.
  { unfold Boot.efi_main in Em. cbn [Boot.rebooting Boot.boot Boot.MEMORY_SNAPSHOT] in Em.
    destruct (load_kernel _ _ _ _) as [b0| | |]; try done. cbn [mbind res_bind] in Em.
    destruct (map_kernel_stack b0) as [[top b1]| | |]; try done. cbn [mbind res_bind fst snd] in Em.
    destruct (jump_to_kernel top b1); try done. cbn [mbind res_bind] in Em. by simplify_eq. }
  rewrite (M_bind_Ok _ _ _ _ _ (efi_main_run fuel fw trampoline image gbyte_pages pse self _ jump m1 w Hi Hm Em)).
  cbn [mbind res_bind fst snd] in E |- *. rewrite Hm1 in E |- *. set (b1 := Boot.boot m1) in *. cbn [Boot.rebooting Boot.boot].
  destruct (Boot.boot_cores n _ _ _ _) as [[l' m2]| | |] eqn:E1; try done. cbn [mbind res_bind fst snd] in E. injection E as <- <-.
  by rewrite (M_bind_Ok _ _ _ _ _ (later_cores n fuel fw trampoline image gbyte_pages pse snapshot l' m2 w
    (with_boot self false b1) b1 Hi eq_refl (boot_of_with _ _ _) E1)).
Qed.

Lemma init_then_run n fuel fw trampoline image gbyte_pages pse self self1 (w w1 : W) :
  INITIALIZED self = false → init_setup fuel fw trampoline self w = Ok (self1, w1) → INITIALIZED self1 = true →
  boot_cores (S n) fuel fw trampoline image gbyte_pages pse self w
    = boot_cores (S n) fuel fw trampoline image gbyte_pages pse self1 w1.
Proof.
  intros Hi E Hi1. cbn [boot_cores]. unfold mbind at 1 3, M_bind at 1 3. f_equal.
  unfold efi_main. rewrite Hi, Hi1. by rewrite (M_bind_Ok _ _ _ _ _ E).
Qed.
End init.

(** * The trampoline in the firmware's page table *)
Section trampoline.
Context {S : Type} `{Hm : PhysMem S} {Hl : PhysMemLaws S}.
Implicit Types (s : S) (root v p : Z) (trampoline : list Z).

Definition tramp_pages trampoline : Z := (zlen trampoline + 4096 - 1) / 4096.
Definition tramp_perms : Permissions := Permissions.new false true false.
Definition tramp_request trampoline : MapRequest :=
  mkMapRequest Page4K TRAMPOLINE_ADDR (zlen trampoline) tramp_perms.
Definition tramp_cost trampoline : nat := 4 * Z.to_nat (tramp_pages trampoline).

(** The entry of its first page, and what it maps *)
Lemma tramp_entry trampoline p v :
  (4096 | p) → 0 ≤ p → p + 4096 ≤ 2 ^ 52 →
  let raw := request_entry (tramp_request trampoline) p in
  u64 raw ∧ valid_leaf Page4K raw = true ∧ leaf_page Page4K raw v = (p, v mod 4096, raw) ∧
  raw = Z.lor (Z.lor p PAGE_PRESENT) (Permissions.bits tramp_perms).
Proof.
  intros Hd H0 Hmax raw.
  destruct (request_entry_ok (tramp_request trampoline) p v Hd H0 Hmax) as (H1 & H2 & H3).
  split; [done|]. split; [done|]. split; [done|]. unfold raw, request_entry. by rewrite Z.lor_0_r.
Qed.

Lemma map_trampoline_ok s root trampoline :
  address_space s root → bytes_ok trampoline → 0 < zlen trampoline → TRAMPOLINE_ADDR + zlen trampoline ≤ 2 ^ 64 →
  (∀ v, TRAMPOLINE_ADDR ≤ v < TRAMPOLINE_ADDR + tramp_pages trampoline * 4096 → page_at s root v = None) →
  match map_trampoline root trampoline s with
  | Ok (raw, s') => ∃ ps p, Z.of_nat (length ps) = tramp_pages trampoline ∧ ps !! 0%nat = Some p ∧ raw = request_entry (tramp_request trampoline) p ∧
      pages_mapped s s' root (tramp_request trampoline) (Some (trampoline_init trampoline)) TRAMPOLINE_ADDR ps ∧
      within 4096 (tramp_cost trampoline) s s'
  | Panic => short 4096 (tramp_cost trampoline) s
  | _ => False
  end.
Proof.
  intros Ha Hok Hz Hmax Hfree. destruct tramp_place as (Hd & HT1 & HT2 & _).
  unfold map_trampoline. rewrite map_request_ok by (done || unfold fits; lia).
  fold tramp_perms. fold (tramp_request trampoline).
  rewrite (M_bind_Ok (lift (unwrap_res (Ok _))) _ _ (tramp_request trampoline) s eq_refl).
  unfold mbind at 1, M_bind at 1, unwrap_M at 1.
  assert (canonical_range TRAMPOLINE_ADDR (zlen trampoline)) as Hcr by (right; lia).
  rewrite map_init_pages by done. cbn [page_type tramp_request size vaddr PageType.size]. fold (tramp_pages trampoline).
  assert (tramp_pages trampoline = (zlen trampoline - 1) / 4096 + 1) as Hn by (apply pages_round; lia).
  pose proof (Z.div_pos (zlen trampoline - 1) 4096 ltac:(lia) ltac:(lia)).
  assert (bytes_init (Some (trampoline_init trampoline))) as Hbi.
  { intros f x [= <-]. unfold trampoline_init. destruct (trampoline !! Z.to_nat x) eqn:E; [|simpl; unfold fits; lia].
    by eapply Forall_lookup_1 in E. }
  pose proof (map_pages_ok (Z.to_nat (tramp_pages trampoline)) root (tramp_request trampoline)
    (Some (trampoline_init trampoline)) TRAMPOLINE_ADDR s Ha Hd) as H1.
  cbn [page_type tramp_request PageType.size] in H1. rewrite Z2Nat.id in H1 by lia.
  specialize (H1 ltac:(rewrite Hn; by apply (range_pages Page4K)) Hbi).
  pose proof (bounded_map_pages root (tramp_request trampoline) (Some (trampoline_init trampoline))
    (Z.to_nat (tramp_pages trampoline)) TRAMPOLINE_ADDR s) as Hw. fold (tramp_cost trampoline) in Hw, H1.
  destruct (PageTable.map_pages _ _ _ _ _ _) as [[u s']|[u s']| |]; cbn [unwrap_res]; [| |done..].
  - destruct H1 as (ps & Hlen & H1). destruct (lookup_lt_is_Some_2 ps 0) as [p Hp]; [lia|].
    pose proof (pm_page _ _ _ _ _ _ _ H1 0%nat p 0 Hp ltac:(cbn; lia)) as Hpg.
    rewrite Z.mul_0_l, !Z.add_0_r in Hpg.
    unfold page_at in Hpg. unfold mbind, M_bind, unwrap_M.
    destruct (pm_space _ _ _ _ _ _ _ H1) as [T Ht].
    destruct (components_ok s' root T TRAMPOLINE_ADDR Ht) as (m & Em & _); [apply canonical_iff; lia|].
    rewrite Em in Hpg |- *. cbn [unwrap_res]. unfold lift. rewrite Hpg. cbn [unwrap].
    exists ps, p. split; [lia|done].
  - destruct H1 as (ps & Hlen & _ & [Hst|[Hst|Hst]]); [|destruct Hst; apply Hfree|by apply table_below_4k in Hst].
    + eapply short_weaken; [|exact Hst]. unfold tramp_cost. lia.
    + cbn [page_type tramp_request PageType.size]. lia.
Qed.

(** The first page of the trampoline, byte for byte *)
Lemma tramp_bytes s s' root trampoline ps p k :
  pages_mapped s s' root (tramp_request trampoline) (Some (trampoline_init trampoline)) TRAMPOLINE_ADDR ps →
  ps !! 0%nat = Some p → 0 ≤ k < 4096 → peek (p + k + offset) s' = trampoline_init trampoline k.
Proof.
  intros H Hp Hk. rewrite (pm_init _ _ _ _ _ _ _ H 0%nat p _ k Hp eq_refl Hk). f_equal.
Qed.
End trampoline.

(** * The tables of the firmware *)
Section tables.
Implicit Types (rd : Z → Z) (tables : list (EfiAcpi.Guid * Z)).

Lemma bytes_agree rd rd' p n :
  (∀ q, p ≤ q < p + Z.of_nat n → rd' q = rd q) → Acpi.bytes_at rd' p n = Acpi.bytes_at rd p n.
Proof.
  intros Hq. apply list_fmap_ext. intros i k Hi. apply lookup_seq in Hi as [-> Hi]. apply Hq. lia.
Qed.
Lemma read_agree rd rd' p n :
  (∀ q, p ≤ q < p + Z.of_nat n → rd' q = rd q) → Acpi.read_le rd' p n = Acpi.read_le rd p n.
Proof. intros Hq. unfold Acpi.read_le. by rewrite (bytes_agree rd rd'). Qed.

(** Where [get_sdt_table] reads: the RSDP with its checksum, the XSDT with its *)
Record reads rd tables (keep : Z → Z → Prop) : Prop := {
  rd_rsdp i t : list_find (λ t, t.1 = EfiAcpi.ACPI_20_TABLE_GUID) tables = Some (i, t) →
    keep t.2 (Z.max 32 (Acpi.read_le rd (t.2 + 20) 4)) ∧
    let xsdt := Acpi.read_le rd (t.2 + 24) 8 in keep xsdt (Z.max 8 (Acpi.hdr_length rd xsdt));
}.
Definition agrees rd rd' (p n : Z) : Prop := ∀ q, p ≤ q < p + n → rd' q = rd q.

Lemma sum_agree rd rd' p n m : agrees rd rd' p n → m ≤ n → EfiAcpi.byte_sum rd' p m = EfiAcpi.byte_sum rd p m.
Proof. intros Ha Hm. unfold EfiAcpi.byte_sum. f_equal. apply bytes_agree. intros q Hq. apply Ha. lia. Qed.

Lemma get_sdt_agree rd rd' tables :
  reads rd tables (agrees rd rd') → EfiAcpi.get_sdt_table rd' tables = EfiAcpi.get_sdt_table rd tables.
Proof.
  intros [Hr]. unfold EfiAcpi.get_sdt_table, EfiAcpi.from_system_table.
  destruct (list_find _ tables) as [[i [g rsdp]]|]; [|done]. cbn [fmap option_fmap option_map ok_or mbind res_bind snd].
  destruct (Hr i (g, rsdp) eq_refl) as [H1 H2]. cbn [snd] in H1, H2. cbv zeta in H2.
  rewrite (read_agree rd rd' (rsdp + 20)) by (intros q Hq; apply H1; lia).
  set (len := Acpi.read_le rd (rsdp + 20) 4) in *.
  rewrite (bytes_agree rd rd' rsdp) by (intros q Hq; apply H1; lia).
  rewrite (sum_agree rd rd' rsdp _ len H1) by lia. unfold EfiAcpi.RSDP_SIZE.
  destruct (_ <? _); [done|]. destruct (decide _); [done|]. destruct (negb _); [done|]. cbn [mbind res_bind].
  rewrite (read_agree rd rd' (rsdp + 24)) by (intros q Hq; apply H1; lia).
  set (xsdt := Acpi.read_le rd (rsdp + 24) 8) in *.
  assert (Acpi.hdr_length rd' xsdt = Acpi.hdr_length rd xsdt) as Hl by (apply read_agree; intros q Hq; apply H2; lia).
  assert (Acpi.hdr_signature rd' xsdt = Acpi.hdr_signature rd xsdt) as -> by (apply bytes_agree; intros q Hq; apply H2; lia).
  unfold Acpi.checksum_valid. rewrite Hl. set (hl := Acpi.hdr_length rd xsdt) in *.
  rewrite (bytes_agree rd rd' xsdt) by (intros q Hq; apply H2; lia). done.
Qed.
(** What ACPI demands (6.5, 5.2.5.3 and 5.2.8): the firmware lists the RSDP under the GUID of
    ACPI 2.0; it has its signature, its length at 20 and a sum of bytes that vanishes, and at 24
    the address of the XSDT, which has its signature, its length at 4 and such a sum too.  [sdt]
    are the entries of 8 bytes behind its header of 36. *)
Definition acpi_sound rd tables (sdt : Acpi.SdtTable) : Prop := ∃ i rsdp,
  let vanishes p n := foldr Z.add 0 (Acpi.bytes_at rd p (Z.to_nat n)) mod 256 = 0 in
  let guid := EfiAcpi.mkGuid 0x8868e871 0xe4f1 0x11d3 [0xbc; 0x22; 0x00; 0x80; 0xc7; 0x3c; 0x88; 0x81] in
  let length := Acpi.read_le rd (rsdp + 20) 4 in
  let xsdt := Acpi.read_le rd (rsdp + 24) 8 in
  let size := Acpi.read_le rd (xsdt + 4) 4 in
  tables !! i = Some (guid, rsdp) ∧ (∀ j t, tables !! j = Some t → (j < i)%nat → t.1 ≠ guid) ∧
  Acpi.bytes_at rd rsdp 8 = [82; 83; 68; 32; 80; 84; 82; 32] ∧ 33 ≤ length ∧ vanishes rsdp length ∧
  Acpi.bytes_at rd xsdt 4 = [88; 83; 68; 84] ∧ vanishes xsdt size ∧ 36 ≤ size ∧ xsdt + 36 < 2 ^ 64 ∧
  sdt = Acpi.mkSdtTable ((size - 36) / 8) (xsdt + 36).

Lemma wrapping_sum l x : foldl (λ x b, wrapping_add 8 x b) (x mod 256) l = (x + foldr Z.add 0 l) mod 256.
Proof.
  revert x. induction l as [|b l IH]; intros x; cbn [foldl foldr]; [by rewrite Z.add_0_r|].
  unfold wrapping_add at 2. change (2 ^ 8) with 256. rewrite Z.add_mod_idemp_l, IH by lia. f_equal. lia.
Qed.
Lemma get_sdt_sound rd tables sdt : acpi_sound rd tables sdt → EfiAcpi.get_sdt_table rd tables = Ok sdt.
Proof.
  intros (i & rsdp & H). cbv zeta in H. destruct H as (H1 & H2 & H3 & H4 & H5 & H6 & H7 & H8 & H9 & ->).
  unfold EfiAcpi.get_sdt_table, EfiAcpi.from_system_table.
  assert (list_find (λ t, t.1 = EfiAcpi.ACPI_20_TABLE_GUID) tables = Some (i, (EfiAcpi.ACPI_20_TABLE_GUID, rsdp))) as ->.
  { apply list_find_Some. split; [done|]. split; [done|]. intros j t Hj Hlt. by apply (H2 j t). }
  cbn [fmap option_fmap option_map ok_or mbind res_bind snd]. unfold EfiAcpi.RSDP_SIZE.
  rewrite (proj2 (Z.ltb_ge _ _)) by lia. rewrite decide_False by (unfold EfiAcpi.RSDP_SIG; tauto).
  unfold EfiAcpi.byte_sum. change 0 with (0 mod 256) at 1. rewrite wrapping_sum, Z.add_0_l, H5. cbn [Z.eqb negb mbind res_bind].
  unfold Acpi.hdr_signature. rewrite H6. rewrite decide_False by (intros Hx; by apply Hx).
  unfold Acpi.checksum_valid, Acpi.hdr_length. change 0 with (0 mod 256) at 1. rewrite wrapping_sum, Z.add_0_l, H7. cbn [Z.eqb negb].
  unfold Acpi.SDT_HEADER_SIZE. rewrite add_Ok by lia. cbn [mbind res_bind]. unfold checked_sub.
  by rewrite (proj2 (Z.leb_le _ _)) by lia.
Qed.
End tables.

(** * The first boot *)
Section first.
Context {W : Type} {P : Ports W} {patience : nat} {L : Serial.UartLaws W patience}.
Implicit Types (fw : Firmware) (trampoline : list Z) (map : RangeSet) (sdt : Acpi.SdtTable).

(** Memory that is in use: an allocated block that holds no page table *)
Definition in_use (s : Pmem) (root p n : Z) : Prop :=
  ∃ b : block, b ∈ owned s ∧ ¬ is_table s root b.1 ∧ ∀ q, p ≤ q < p + n → in_block q b.

(** A firmware that keeps its promises: its calls succeed; the processor runs on page
    tables in memory the map does not offer, with the trampoline's addresses free;
    its ACPI tables are sound and in such memory too. *)
Record sound fw trampoline map sdt : Prop := {
  so_map : Memory.memory_map_exit (map_ret fw) (map_size fw) (descriptors fw) (exit_ret fw) = Ok map;
  so_free : pmem_free (behind fw map) = map;
  so_tables : address_space (behind fw map) (cr3 fw);
  so_clear v : TRAMPOLINE_ADDR ≤ v < TRAMPOLINE_ADDR + tramp_pages trampoline * 4096 →
    page_at (behind fw map) (cr3 fw) v = None;
  so_acpi : reads (λ p, peek p (behind fw map)) (config_tables fw) (in_use (behind fw map) (cr3 fw));
  so_sdt : acpi_sound (λ p, peek p (behind fw map)) (config_tables fw) sdt;
}.

(** The trampoline the build embeds *)
Definition embedded trampoline : Prop := bytes_ok trampoline ∧ 0 < zlen trampoline ≤ MAX_TRAMPOLINE_SIZE.

(** The text on the ports with a chip *)
Definition greeted (w w' : W) : Prop := ∀ p, p ∈ Serial.PORT_ADDRESSES →
  Serial.tx (Serial.uart w' p) = Serial.tx (Serial.uart w p) ++
    (if Serial.present (Serial.uart w p) then concat (Serial.crlf <$> concat BANNER) else []).

Lemma greet_ok fuel (w : W) : (patience < fuel)%nat →
  ∃ driver w1 w2 w3, Serial.init fuel w = Ok (driver, w1) ∧
    Serial.write fuel driver (nth 0 BANNER []) w1 = Ok (tt, w2) ∧ Serial.write fuel driver (nth 1 BANNER []) w2 = Ok (tt, w3) ∧
    Serial.valid driver = filter (λ p, Serial.present (Serial.uart w p) = true) Serial.PORT_ADDRESSES ∧ greeted w w3.
Proof.
  intros Hf. destruct (Serial.serial_init_ok fuel w) as (driver & w1 & E1 & Hv & Hnd & Hus & Hpr); [lia|].
  destruct (Serial.write_ok fuel driver (nth 0 BANNER []) Hf Hnd w1 Hus) as (w2 & E2 & H2).
  destruct (Serial.write_ok fuel driver (nth 1 BANNER []) Hf Hnd w2) as (w3 & E3 & H3).
  { intros p Hp. eapply Serial.sent_usable; [apply H2, Hus, Hp|by apply Hus]. }
  exists driver, w1, w2, w3. split; [done|]. split; [done|]. split; [done|]. split; [done|]. intros p Hp.
  rewrite (H3 p Hp), (H2 p Hp). cbn [Serial.tx]. rewrite (Hpr p Hp). cbn [Serial.tx].
  assert (p ∈ Serial.valid driver ↔ Serial.present (Serial.uart w p) = true) as Hin
    by (rewrite Hv, list_elem_of_filter; tauto).
  destruct (Serial.present (Serial.uart w p)) eqn:Epr.
  - rewrite !decide_True by tauto. cbn [Serial.programmed Serial.tx]. 
    change (concat BANNER) with (nth 0 BANNER [] ++ nth 1 BANNER [] ++ []).
    by rewrite app_nil_r, fmap_app, concat_app, app_assoc.
  - rewrite !decide_False by (rewrite Hin; done). by rewrite !app_nil_r.
Qed.

(** Initialisation, up to the snapshot *)
Lemma init_setup_ok fuel fw trampoline map sdt (w : W) :
  (patience < fuel)%nat → embedded trampoline → sound fw trampoline map sdt →
  Z.of_nat (tramp_cost trampoline) ≤ pmem_pages (behind fw map) →
  ∃ driver ps p s1 w1, let raw := request_entry (tramp_request trampoline) p in
    init_setup fuel fw trampoline Loader_new w =
      Ok (mkLoader (mkShared true (Some driver) (Some s1) None None KERNEL_STACK_BASE
           (OnceLock.mkOnceLock true (Some sdt))
           (OnceLock.mkOnceLock true (Some (mkBootloaderState (cr3 fw) (entry_point fw) (rsp fw)))))
         raw (OnceLock.mkOnceLock true (Some s1)) true, w1) ∧
    Serial.valid driver = filter (λ p, Serial.present (Serial.uart w p) = true) Serial.PORT_ADDRESSES ∧ greeted w w1 ∧
    Z.of_nat (length ps) = tramp_pages trampoline ∧ ps !! 0%nat = Some p ∧
    pages_mapped (behind fw map) s1 (cr3 fw) (tramp_request trampoline) (Some (trampoline_init trampoline)) TRAMPOLINE_ADDR ps ∧
    pmem_pages (behind fw map) - Z.of_nat (tramp_cost trampoline) ≤ pmem_pages s1.
Proof.
  intros Hf [Hok Hlen] Hs Hmem. destruct (greet_ok fuel w Hf) as (driver & w1 & w2 & w3 & E1 & E2 & E3 & Hv & Hg).
  set (mem := behind fw map) in *.
  pose proof (map_trampoline_ok mem (cr3 fw) trampoline (so_tables _ _ _ _ Hs) Hok (proj1 Hlen)) as Ht.
  assert (TRAMPOLINE_ADDR + MAX_TRAMPOLINE_SIZE ≤ 2 ^ 64) as Hmax by (apply Z.leb_le; vm_compute; reflexivity).
  specialize (Ht ltac:(lia) (so_clear _ _ _ _ Hs)).
  destruct (map_trampoline (cr3 fw) trampoline mem) as [[raw s1]| | |] eqn:Em; [|done| |done].
  2:{ destruct (pmem_enough (tramp_cost trampoline) mem); [exact Hmem|exact Ht]. }
  destruct Ht as (ps & p & Hps & Hp & -> & Hpm & Hw). exists driver, ps, p, s1, w3. cbv zeta.
  split; [|split; [exact Hv|split; [exact Hg|split; [exact Hps|split; [exact Hp|split; [exact Hpm|by apply within_pages in Hw]]]]]].
  unfold init_setup. rewrite (M_bind_Ok _ _ _ _ _ E1), (M_bind_Ok _ _ _ _ _ E2), (M_bind_Ok _ _ _ _ _ E3).
  rewrite (so_map _ _ _ _ Hs). rewrite (M_bind_Ok (lift (unwrap_res (Ok map))) _ w3 map w3 eq_refl). cbv zeta.
  unfold map_once. cbn [RAW_PT_ENTRY Loader_new Z.eqb negb boot_of SHARED Shared_new set_serial mm_init free_memory unwrap mbind res_bind].
  unfold Boot.map_once. cbn [Boot.RAW_PT_ENTRY Z.eqb negb Boot.pmem]. fold mem. rewrite Em. cbn [mbind res_bind].
  assert (EfiAcpi.get_sdt_table (λ q, peek q s1) (config_tables fw) = Ok sdt) as Esdt.
  { rewrite <-(get_sdt_sound _ _ _ (so_sdt _ _ _ _ Hs)). apply get_sdt_agree. destruct (so_acpi _ _ _ _ Hs) as [Hr].
    assert (∀ q n, in_use mem (cr3 fw) q n → agrees (λ q, peek q mem) (λ q, peek q s1) q n) as Hkeep.
    { intros q n (b & Hb & Hnt & Hq) x Hx.
      destruct (pm_data _ _ _ _ _ _ _ Hpm b Hb) as (_ & _ & Hk); [by eapply inv_size; [apply pmem_ok|]|done|].
      specialize (Hk x (Hq x Hx)). change (x + offset) with (x + 0) in Hk. by rewrite Z.add_0_r in Hk. }
    split. intros i t Hft. destruct (Hr i t Hft) as [H1 H2]. split; by apply Hkeep. }
  unfold mbind, M_bind, lift. cbn [with_boot SHARED free_memory unwrap Boot.pmem]. rewrite Esdt. reflexivity.
Qed.

(** An address space in spared memory is as it was. *)
Lemma spared_space (s s' : Pmem) root root' :
  address_space s root' → spared s s' root →
  address_space s' root' ∧ ∀ v, canonical v → page_at s' root' v = page_at s root' v.
Proof.
  intros [T Ht] Hsp.
  assert (agree s s' T) as Hag.
  { intros π a i Ha [Hi1 Hi2]. left. destruct (tb_page _ _ _ Ht _ _ Ha) as (_ & Hin & _).
    apply (word_kept _ _ _ (a, 4096)); simpl; [|lia..]. by apply (Hsp (a, 4096) Hin). }
  assert (tables s' root' T) as Ht'.
  { apply (tables_agree s); try done. intros b Hb. apply Hsp; [done|]. by eapply inv_size; [apply pmem_ok|]. }
  split; [by exists T|]. intros v Hc. by eapply page_at_agree.
Qed.

Lemma mod_place v : tramp_range v → v mod 4096 = v - TRAMPOLINE_ADDR.
Proof.
  destruct tramp_place as ([k Hk] & _). unfold tramp_range. rewrite Hk. intros Hv.
  symmetry. apply (Z.mod_unique_pos _ _ k); lia.
Qed.

(** What the two address spaces have of the trampoline, after a boot from [s1] *)
Lemma trampoline_shared (mem s1 : Pmem) table trampoline ps p b kernel root segs t low :
  let raw := request_entry (tramp_request trampoline) p in
  pages_mapped mem s1 table (tramp_request trampoline) (Some (trampoline_init trampoline)) TRAMPOLINE_ADDR ps →
  ps !! 0%nat = Some p → booted s1 b kernel root segs raw t low → linked segs → Z.of_nat (length ps) ≤ 16 →
  (∀ v, tramp_range v → page_at (Boot.pmem b) root v = page_at (Boot.pmem b) table v ∧
     holds_byte (Boot.pmem b) root tramp_perms v (trampoline_init trampoline (v - TRAMPOLINE_ADDR))) ∧
  (∀ v, TRAMPOLINE_ADDR + 4096 ≤ v < TRAMPOLINE_ADDR + Z.of_nat (length ps) * 4096 →
     page_at (Boot.pmem b) root v = None ∧ is_Some (page_at (Boot.pmem b) table v)) ∧
  (∀ v, canonical v → ¬ TRAMPOLINE_ADDR ≤ v < TRAMPOLINE_ADDR + Z.of_nat (length ps) * 4096 →
     page_at (Boot.pmem b) table v = page_at mem table v).
Proof.
  intros raw Hpm Hp Hb Hlk Hlen. destruct tramp_place as (_ & HT1 & HT2 & _).
  destruct (pm_place _ _ _ _ _ _ _ Hpm 0%nat p Hp) as (Hd & H0 & Hmax). cbn [page_type tramp_request PageType.size] in Hd, Hmax.
  destruct (spared_space s1 (Boot.pmem b) root table (pm_space _ _ _ _ _ _ _ Hpm) (bt_spared _ _ _ _ _ _ _ _ Hb)) as [_ Hsame].
  split; [|split]; intros v Hv.
  - assert (canonical v) as Hc by (apply canonical_iff; unfold tramp_range in Hv; lia).
    destruct (tramp_entry trampoline p v Hd H0 Hmax) as (_ & _ & Hleaf & Eraw). fold raw in Hleaf, Eraw.
    assert (page_at (Boot.pmem b) root v = Some (p, v - TRAMPOLINE_ADDR, raw)) as Hpk.
    { rewrite (ks_tramp _ _ _ _ _ _ (bt_space _ _ _ _ _ _ _ _ Hb) v Hv), Hleaf. by rewrite (mod_place v Hv). }
    assert (0 ≤ v - TRAMPOLINE_ADDR < 4096) as Hoff by (unfold tramp_range in Hv; lia).
    pose proof (pm_page _ _ _ _ _ _ _ Hpm 0%nat p _ Hp Hoff) as Hpb.
    rewrite Z.mul_0_l, Z.add_0_r, Zplus_minus in Hpb. split; [by rewrite Hpk, Hsame by done|].
    destruct (pm_frame _ _ _ _ _ _ _ Hpm 0%nat p Hp) as (Hin & _).
    destruct (bt_spared _ _ _ _ _ _ _ _ Hb _ Hin) as (Hin' & Hnt & Hk); [cbn; lia|].
    exists p, (v - TRAMPOLINE_ADDR). rewrite <-Eraw. split; [exact Hpk|]. split; [exact Hoff|]. split; [exact Hin'|].
    split; [exact Hnt|]. rewrite Hk by (unfold in_block; cbn [fst snd page_type tramp_request PageType.size]; lia).
    by apply (tramp_bytes mem s1 table trampoline ps).
  - assert (TRAMPOLINE_ADDR + 16 * 4096 ≤ KERNEL_CODE_BASE ∧ KERNEL_CODE_BASE ≤ 2 ^ 64 ∧ KERNEL_STACK_BASE ≤ TRAMPOLINE_ADDR ∧
      KERNEL_PHYS_WINDOW_BASE + KERNEL_PHYS_WINDOW_SIZE ≤ TRAMPOLINE_ADDR) as (P1 & P2 & P3 & P4)
      by (split_and!; apply Z.leb_le; vm_compute; reflexivity).
    assert (canonical v) as Hc by (apply canonical_iff; lia). split.
    + apply (ks_else _ _ _ _ _ _ (bt_space _ _ _ _ _ _ _ _ Hb)); [done| | | |lia].
      * intros Hin%(lk_above _ Hlk). lia.
      * unfold tramp_range. lia.
      * unfold window_range. lia.
    + rewrite Hsame by done. set (k := (v - TRAMPOLINE_ADDR) / 4096).
      assert (0 ≤ k < Z.of_nat (length ps)) as Hk by (unfold k; Z.div_mod_to_equations; lia).
      destruct (lookup_lt_is_Some_2 ps (Z.to_nat k)) as [pk Hpk]; [lia|].
      pose proof (pm_page _ _ _ _ _ _ _ Hpm (Z.to_nat k) pk ((v - TRAMPOLINE_ADDR) mod 4096) Hpk) as Hpv.
      cbn [page_type tramp_request PageType.size] in Hpv. rewrite Z2Nat.id in Hpv by lia.
      replace (TRAMPOLINE_ADDR + k * 4096 + (v - TRAMPOLINE_ADDR) mod 4096) with v in Hpv by (unfold k; Z.div_mod_to_equations; lia).
      rewrite Hpv by (apply Z.mod_pos_bound; lia). by eexists.
  - intros Hout. rewrite Hsame by done. apply (pm_else _ _ _ _ _ _ _ Hpm v Hv).
    cbn [page_type tramp_request PageType.size]. lia.
Qed.

(** C12. The first boot, from the firmware's call to the jumps into the kernel, on a firmware whose
    ACPI tables have the signatures, lengths and checksums of the standard: the greeting goes
    out on every serial port, the entries of the XSDT are recorded, the trampoline is mapped and
    the snapshot taken; then every core gets to the entry point of the kernel with a stack of
    its own, in the address space that holds the image, the window and the stacks.  The first
    page of the trampoline, all of it up to 4096 bytes, is at the same address with the same bytes in
    the bootloader's address space and in the kernel's; of a longer one, the pages behind the first are
    mapped in the bootloader's but not in the kernel's.  Otherwise the bootloader's is the firmware's. *)
Theorem first_boot_correct fuel fw trampoline map sdt image gbyte_pages pse kernel segs n (w : W) :
  let t := window_type gbyte_pages pse in
  let low := KERNEL_STACK_BASE - Z.of_nat (S n) * KERNEL_STACK_SIZE_PADDED in
  (patience < fuel)%nat → embedded trampoline → sound fw trampoline map sdt →
  Elf.parse image = Ok kernel → Elf.items (Elf.segments kernel) = Ok (inr <$> segs) → linked segs →
  2 ^ 64 - 2 ^ 47 ≤ low →
  Z.of_nat (tramp_cost trampoline) + Z.of_nat (load_cost segs t) + Z.of_nat (S n) * (4 * 136)
    ≤ RangePages.capacity (RangeSet.entries map) →
  ∃ root raw s self w',
    boot_cores (S n) fuel fw trampoline image gbyte_pages pse Loader_new w
      = Ok (((λ i : nat, (Elf.entry kernel, KERNEL_STACK_BASE - Z.of_nat i * KERNEL_STACK_SIZE_PADDED, root)) <$> seq 0 (S n),
             self), w') ∧
    greeted w w' ∧
    INITIALIZED self = true ∧ rebooting (SHARED self) = false ∧ kernel_pt (SHARED self) = Some root ∧
    OnceLock.get (acpi_sdt (SHARED self)) = Ok (Some sdt) ∧
    OnceLock.get (bootloader (SHARED self)) = Ok (Some (mkBootloaderState (cr3 fw) (entry_point fw) (rsp fw))) ∧
    free_memory (SHARED self) = Some s ∧ kernel_space s root segs raw t low ∧
    (∀ v, tramp_range v → page_at s root v = page_at s (cr3 fw) v ∧
       holds_byte s root tramp_perms v (trampoline_init trampoline (v - TRAMPOLINE_ADDR))) ∧
    (∀ v, TRAMPOLINE_ADDR + 4096 ≤ v < TRAMPOLINE_ADDR + tramp_pages trampoline * 4096 →
       page_at s root v = None ∧ is_Some (page_at s (cr3 fw) v)) ∧
    (∀ v, canonical v → ¬ TRAMPOLINE_ADDR ≤ v < TRAMPOLINE_ADDR + tramp_pages trampoline * 4096 →
       page_at s (cr3 fw) v = page_at (behind fw map) (cr3 fw) v).
Proof.
  intros t low Hf Htr Hs Hparse Hit Hlk Hlow Hmem.
  assert (pmem_pages (behind fw map) = RangePages.capacity (RangeSet.entries map)) as Hcap
    by (unfold pmem_pages; by rewrite (so_free _ _ _ _ Hs)).
  destruct (init_setup_ok fuel fw trampoline map sdt w Hf Htr Hs ltac:(lia))
    as (driver & ps & p & s1 & w1 & Ei & Hv & Hg & Hps & Hp & Hpm & Hpg). cbv zeta in Ei.
  set (raw := request_entry (tramp_request trampoline) p) in *.
  destruct (pm_place _ _ _ _ _ _ _ Hpm 0%nat p Hp) as (Hd & H0 & Hmax).
  destruct (tramp_entry trampoline p 0 Hd H0 Hmax) as (Hraw & Hvl & _). fold raw in Hraw, Hvl.
  set (b0 := mkBoot None None KERNEL_STACK_BASE s1 raw).
  destruct (boot_run (mkMachine b0 true s1) image gbyte_pages pse kernel segs n eq_refl
    (or_intror (conj eq_refl Hparse)) Hit Hlk Hraw Hvl Hlow) as (root & b & E & Hb).
  { fold t. cbn [Boot.MEMORY_SNAPSHOT]. lia. }
  cbn [Boot.boot Boot.MEMORY_SNAPSHOT Boot.RAW_PT_ENTRY b0 Boot.pmem] in Hb.
  assert (restore_physical_memory s1 s1 = s1) as Er by (by destruct s1). rewrite Er in Hb. fold t low in Hb.
  match type of Ei with _ = Ok (?x, _) => set (self1 := x) in Ei end.
  rewrite (init_then_run n fuel fw trampoline image gbyte_pages pse Loader_new self1 w w1 eq_refl Ei eq_refl).
  rewrite (cores_run n fuel fw trampoline image gbyte_pages pse s1 _ _ w1 self1 b0 eq_refl eq_refl eq_refl eq_refl E).
  exists root, raw, (Boot.pmem b). eexists _, w1. split; [reflexivity|]. split; [exact Hg|].
  split; [done|]. split; [done|]. split; [apply Hb|]. split; [done|]. split; [done|]. split; [done|].
  split; [apply Hb|]. rewrite <-Hps.
  apply (trampoline_shared (behind fw map) s1 (cr3 fw) trampoline ps p b kernel root segs t low Hpm Hp Hb Hlk).
  rewrite Hps. destruct Htr as [_ Htr]. change MAX_TRAMPOLINE_SIZE with 65536 in Htr. unfold tramp_pages. Z.div_mod_to_equations. lia.
Qed.
End first.

(** * A machine *)
Module SampleFirmware.
Definition blank (n : nat) : list Z := replicate n 0.
(** The page table at [0x2000] (empty), the RSDP at [0x3000], an XSDT without tables behind it *)
Definition rsdp : list Z := EfiAcpi.RSDP_SIG ++ (93 :: blank 11) ++ le_bytes 4 36 ++ le_bytes 8 0x3030 ++ blank 4.
Definition xsdt : list Z := EfiAcpi.XSDT_SIG ++ le_bytes 4 36 ++ (0 :: 153 :: blank 26).
Definition bytes_from (p : Z) (l : list Z) : list (Z * Z) := zip ((λ k, p + Z.of_nat k) <$> seq 0 (length l)) l.
Definition fw_bytes : gmap Z Z := list_to_map (bytes_from 0x3000 rsdp ++ bytes_from 0x3030 xsdt).
Definition fw_blocks : list block := [(0x2000, 4096); (0x3000, 4096)].

Lemma fw_inv : pmem_inv sample_free fw_blocks.
Proof.
  destruct sample_free_inv as [Hwf Htop _ _ _].
  assert (∀ b, b ∈ fw_blocks → b = (0x2000, 4096) ∨ b = (0x3000, 4096)) as Hb
    by (intros b; unfold fw_blocks; rewrite !elem_of_cons, elem_of_nil; tauto).
  split; [exact Hwf|exact Htop|..].
  - intros b [->| ->]%Hb; simpl; lia.
  - intros b a H1%Hb Ha. unfold has. rewrite sample_free_entries, covers_cons, covers_nil. unfold addr_in.
    unfold in_block in Ha. destruct H1 as [->| ->]; simpl in *; lia.
  - intros b b' H1%Hb H2%Hb. unfold apart. destruct H1 as [->| ->], H2 as [->| ->]; simpl; (by left) || (right; lia).
Qed.
Definition memory : Pmem := mkPmem sample_free fw_bytes fw_blocks fw_inv.
Definition firmware : Firmware :=
  mkFirmware 0 48 [Memory.mkMemoryDescriptor Memory.ConventionalMemory 0x100000 0 0xFF00 0] 0
    [(EfiAcpi.ACPI_20_TABLE_GUID, 0x3000)] (λ _, memory) 0x2000 0x9000 0x400000.
Definition code : list Z := [0xFA; 0x0F; 0x22; 0xD8; 0xFF; 0xE7].
Definition table : Acpi.SdtTable := Acpi.mkSdtTable 0 0x3054.

Lemma table_zero i : 0 ≤ i < 512 → word memory (0x2000 + 8 * i) = 0.
Proof.
  intros Hi.
  assert (forallb (λ k : nat, word memory (0x2000 + 8 * Z.of_nat k) =? 0) (seq 0 512) = true) as H by (vm_compute; reflexivity).
  rewrite forallb_forall in H. specialize (H (Z.to_nat i)). rewrite in_seq, Z2Nat.id in H by lia.
  apply Z.eqb_eq, H. lia.
Qed.
Lemma firmware_space : tables memory 0x2000 {[ [] := 0x2000 ]} ∧ ∀ v, canonical v → page_at memory 0x2000 v = None.
Proof.
  apply zero_tables; [left|by exists 2|lia|lia|reflexivity|exact table_zero].
Qed.

Lemma acpi_page p n : 0x3000 ≤ p → p + n ≤ 0x4000 → in_use memory 0x2000 p n.
Proof.
  intros H1 H2. exists (0x3000, 4096). split; [right; left|]. split.
  - intros (T & π & Ht & Ha). rewrite (tables_unique _ _ _ _ (proj1 firmware_space) Ht) in Ha.
    by apply lookup_singleton_Some in Ha as [_ ?].
  - intros q Hq. unfold in_block. simpl. lia.
Qed.

Lemma firmware_sound : sound firmware code sample_free table.
Proof.
  split.
  - vm_compute. reflexivity.
  - reflexivity.
  - exact (ex_intro _ _ (proj1 firmware_space)).
  - intros v Hv. apply firmware_space. destruct tramp_place as (_ & HT1 & HT2 & _). apply canonical_iff.
    change (tramp_pages code) with 1 in Hv. lia.
  - split. intros i t Hft.
    assert (t = (EfiAcpi.ACPI_20_TABLE_GUID, 0x3000)) as -> by (injection Hft as _ <-; reflexivity). cbv zeta. split.
    + apply acpi_page; apply Z.leb_le; vm_compute; reflexivity.
    + apply acpi_page; apply Z.leb_le; vm_compute; reflexivity.
  - exists 0%nat, 0x3000. cbv zeta. split; [reflexivity|]. split; [intros j t _ Hj; lia|].
    split_and!; (reflexivity || (apply Z.leb_le; vm_compute; reflexivity) || (apply Z.ltb_lt; vm_compute; reflexivity) || (vm_compute; reflexivity)).
Qed.

Lemma first_boot_correct_witness : ∃ root raw s self w',
  boot_cores 2 1 firmware code sample_kernel true true Loader_new Serial.SampleSerial.chips
    = Ok (([(0xFFFFFFFFCAFE0010, KERNEL_STACK_BASE, root);
            (0xFFFFFFFFCAFE0010, KERNEL_STACK_BASE - KERNEL_STACK_SIZE_PADDED, root)], self), w') ∧
  OnceLock.get (acpi_sdt (SHARED self)) = Ok (Some table) ∧ free_memory (SHARED self) = Some s ∧
  kernel_space s root sample_segs raw Page1G (KERNEL_STACK_BASE - 2 * KERNEL_STACK_SIZE_PADDED) ∧
  holds_byte s root tramp_perms TRAMPOLINE_ADDR 0xFA.
Proof.
  destruct (first_boot_correct (patience := 0) 1 firmware code sample_free table sample_kernel true true sample_image
    sample_segs 1 Serial.SampleSerial.chips) as (root & raw & s & self & w' & E & _ & _ & _ & _ & Hacpi & _ & Hm & Hks & Ht & _).
  - lia.
  - split; [apply Forall_bool_bytes; reflexivity|]. vm_compute. split; [reflexivity|discriminate].
  - exact firmware_sound.
  - exact sample_parse.
  - exact sample_items.
  - exact sample_linked.
  - apply Z.leb_le. vm_compute. reflexivity.
  - apply Z.leb_le. vm_compute. reflexivity.
  - exists root, raw, s, self, w'. split; [exact E|]. split; [exact Hacpi|]. split; [exact Hm|]. split; [exact Hks|].
    refine (proj2 (Ht TRAMPOLINE_ADDR _)). unfold tramp_range. lia.
Defined.
End SampleFirmware.
End BootInit.
