(* ===== verification/CoreInit.v ===== *)
(** Core locals: [init] and [get_core_locals] of kernel/src/core_locals.rs, the first thing
    a core does in the kernel.

    Every access to what the cores share (the counter of ids, the free memory under its
    lock) is a step, and the cores' steps interleave in any order.  The size and the
    alignment of the structure are the compiler's, and arguments here. *)
From Stdlib Require Import ZArith Lia.
From stdpp Require Import prelude list numbers gmap.
From S2P Require Import Prelude Packet Ranges RangeAlloc PageTable PageMem KernelMm BootMm Sync.
Import Layout.

Module CoreInit.
Section model.
Context {Apic Ints : Type}.

Record CoreLocals := mkLocals {
  address : Z; id : Z; shared : Z; apic : option Apic; apic_id : @OnceLock.OnceLock Z;
  interrupt_disable_requests : Z; interrupt_depth : Z; exception_depth : Z; interrupts : option Ints;
  free_lists : list FreeList }.

Definition is_bsp (self : CoreLocals) : bool := id self =? 0.

(** [generate_freelists!] *)
Definition FREE_LIST_SIZES : list Z := [
  0x0000000000000008; 0x0000000000000010; 0x0000000000000020; 0x0000000000000040; 0x0000000000000080; 0x0000000000000100;
  0x0000000000000200; 0x0000000000000400; 0x0000000000000800; 0x0000000000001000; 0x0000000000002000; 0x0000000000004000;
  0x0000000000008000; 0x0000000000010000; 0x0000000000020000; 0x0000000000040000; 0x0000000000080000; 0x0000000000100000;
  0x0000000000200000; 0x0000000000400000; 0x0000000000800000; 0x0000000001000000; 0x0000000002000000; 0x0000000004000000;
  0x0000000008000000; 0x0000000010000000; 0x0000000020000000; 0x0000000040000000; 0x0000000080000000; 0x0000000100000000;
  0x0000000200000000; 0x0000000400000000; 0x0000000800000000; 0x0000001000000000; 0x0000002000000000; 0x0000004000000000;
  0x0000008000000000; 0x0000010000000000; 0x0000020000000000; 0x0000040000000000; 0x0000080000000000; 0x0000100000000000;
  0x0000200000000000; 0x0000400000000000; 0x0000800000000000; 0x0001000000000000; 0x0002000000000000; 0x0004000000000000;
  0x0008000000000000; 0x0010000000000000; 0x0020000000000000; 0x0040000000000000; 0x0080000000000000; 0x0100000000000000;
  0x0200000000000000; 0x0400000000000000; 0x0800000000000000; 0x1000000000000000; 0x2000000000000000; 0x4000000000000000;
  0x8000000000000000].
Fixpoint generate_freelists (sizes : list Z) : res unit (list FreeList) :=
  match sizes with
  | [] => Ok []
  | size :: sizes => l ← FreeList_new size; ls ← generate_freelists sizes; Ok (l :: ls)
  end.

(** How far a core is, with what it holds in its registers; at the end its gs register *)
Inductive Phase := Entered | Numbered (core_id : Z) | Placed (core_id core_locals_ptr : Z) | Running (core_id gs : Z).

(** [NEXT_CORE_ID], the free memory, the structures by their addresses, the cores *)
Record Machine := mkMachine {
  NEXT_CORE_ID : Z; free_memory : option RangeSet; structs : gmap Z CoreLocals; cores : list Phase }.
Definition start (n : nat) (free : RangeSet) : Machine := mkMachine 0 (Some free) ∅ (replicate n Entered).

Section init.
Context (size_of align_of : Z).

(** The steps of [init] on core [i] *)
Definition take_id (i : nat) (m : Machine) : res unit Machine :=
  let core_id := NEXT_CORE_ID m in
  Ok (mkMachine (cast 32 (core_id + 1)) (free_memory m) (structs m) (<[i := Numbered core_id]> (cores m))).
Definition place (shared : Z) (i : nat) (core_id : Z) (m : Machine) : res unit Machine :=
  _ ← phys_ptr shared;
  free ← unwrap (free_memory m);
  match RangeSet.allocate size_of align_of free with
  | Ok (o, free) =>
      p ← unwrap o;
      core_locals_ptr ← add 64 p KERNEL_PHYS_WINDOW_BASE;
      Ok (mkMachine (NEXT_CORE_ID m) (Some free) (structs m) (<[i := Placed core_id core_locals_ptr]> (cores m)))
  | Err _ | Panic => Panic
  | Diverge => Diverge
  end.
Definition fill (shared : Z) (i : nat) (core_id core_locals_ptr : Z) (m : Machine) : res unit Machine :=
  shared ← phys_ptr shared;
  free_lists ← generate_freelists FREE_LIST_SIZES;
  let locals := mkLocals core_locals_ptr core_id shared None OnceLock.new 0 0 0 None free_lists in
  Ok (mkMachine (NEXT_CORE_ID m) (free_memory m) (<[core_locals_ptr := locals]> (structs m))
        (<[i := Running core_id core_locals_ptr]> (cores m))).
Definition step (shared : Z) (i : nat) (m : Machine) : res unit Machine :=
  match cores m !! i with
  | Some Entered => take_id i m
  | Some (Numbered core_id) => place shared i core_id m
  | Some (Placed core_id ptr) => fill shared i core_id ptr m
  | _ => Ok m
  end.
Fixpoint run (shared : Z) (schedule : list nat) (m : Machine) : res unit Machine :=
  match schedule with
  | [] => Ok m
  | i :: schedule => m ← step shared i m; run shared schedule m
  end.
End init.

(** [core!()]: the first word of the structure at [gs], as a pointer *)
Definition get_core_locals (m : Machine) (gs : Z) : option CoreLocals :=
  self ← structs m !! gs;
  structs m !! address self.
End model.
Arguments CoreLocals : clear implicits.
Arguments Machine : clear implicits.

(** ** The free lists *)
Lemma free_lists_generated : generate_freelists FREE_LIST_SIZES = Ok free_lists_new.
Proof. vm_compute. reflexivity. Qed.

(** ** What holds whatever the order *)
Section invariant.
Context {Apic Ints : Type} (size_of align_of : Z).
Abbreviation Machine := (Machine Apic Ints).
Implicit Types (m : Machine) (x : Phase) (free : RangeSet).

Definition id_of x : option Z :=
  match x with Entered => None | Numbered i | Placed i _ | Running i _ => Some i end.
Definition ptr_of x : option Z := match x with Placed _ p | Running _ p => Some p | _ => None end.
Definition numbered x : Prop := is_Some (id_of x).
#[global] Instance numbered_dec x : Decision (numbered x).
Proof. unfold numbered. apply _. Defined.

(** The structure [init] writes *)
Definition fresh (shared core_id ptr : Z) : CoreLocals Apic Ints :=
  mkLocals ptr core_id (shared + KERNEL_PHYS_WINDOW_BASE) None OnceLock.new 0 0 0 None free_lists_new.

(** The ids are those below the counter, one for each core that has one. *)
Record numbering (n : nat) m : Prop := {
  n_len : length (cores m) = n;
  n_next : NEXT_CORE_ID m = Z.of_nat (length (filter numbered (cores m)));
  n_id i k : cores m !! i ≫= id_of = Some k → 0 ≤ k < NEXT_CORE_ID m;
  n_inj i j k : cores m !! i ≫= id_of = Some k → cores m !! j ≫= id_of = Some k → i = j;
  n_onto k : 0 ≤ k < NEXT_CORE_ID m → ∃ i, cores m !! i ≫= id_of = Some k;
}.
(** The structures lie apart in memory that was free and is not, and hold what [init] wrote. *)
Record placing (shared : Z) (free0 : RangeSet) m : Prop := {
  p_free : ∃ free, free_memory m = Some free ∧ wf free ∧ (∀ a, has free a → has free0 a) ∧
    ∀ i p a, cores m !! i ≫= ptr_of = Some p → p ≤ a < p + size_of →
      has free0 (a - KERNEL_PHYS_WINDOW_BASE) ∧ ¬ has free (a - KERNEL_PHYS_WINDOW_BASE);
  p_apart i j p q : i ≠ j → cores m !! i ≫= ptr_of = Some p → cores m !! j ≫= ptr_of = Some q →
    apart (p, size_of) (q, size_of);
  p_align i p : cores m !! i ≫= ptr_of = Some p → (align_of | p - KERNEL_PHYS_WINDOW_BASE);
  p_struct i k p : cores m !! i = Some (Running k p) → structs m !! p = Some (fresh shared k p);
}.

Lemma count_numbered (l : list Phase) i x y : l !! i = Some x → numbered y →
  length (filter numbered (<[i := y]> l))
    = (length (filter numbered l) + if decide (numbered x) then 0 else 1)%nat.
Proof.
  intros Hi Hy. rewrite insert_take_drop by (by eapply lookup_lt_Some).
  rewrite <-(take_drop_middle l i x Hi) at 3. rewrite !filter_app, !length_app, !filter_cons.
  rewrite (decide_True (P := numbered y)) by done. destruct (decide (numbered x)); simpl; lia.
Qed.

(** An update of one core, seen through [f] *)
Lemma insert_bind {B} (f : Phase → option B) (l : list Phase) i j x y : l !! i = Some x →
  <[i := y]> l !! j ≫= f = if decide (j = i) then f y else l !! j ≫= f.
Proof.
  intros Hi. destruct (decide (j = i)) as [->|Hne].
  - by rewrite list_lookup_insert_eq by (by eapply lookup_lt_Some).
  - by rewrite list_lookup_insert_ne by done.
Qed.

Lemma start_bind {B} (f : Phase → option B) n i b : f Entered = None → replicate n Entered !! i ≫= f = Some b → False.
Proof. intros Hf. destruct (_ !! i) eqn:E; [|done]. apply lookup_replicate in E as [-> _]. simpl. congruence. Qed.

Lemma numbering_start n free : numbering n (start n free).
Proof.
  split; cbn [start cores NEXT_CORE_ID].
  - apply length_replicate.
  - assert (filter numbered (replicate n Entered) = []) as ->; [|done].
    clear. induction n as [|n IH]; [done|]. cbn [replicate]. rewrite filter_cons_False; [done|]. by intros [? ?].
  - intros i k H. by apply start_bind in H.
  - intros i j k H. by apply start_bind in H.
  - lia.
Qed.
Lemma placing_start shared free n : wf free → placing shared free (start n free).
Proof.
  intros Hwf. split; cbn [start cores free_memory structs].
  - exists free. split; [done|]. split; [done|]. split; [done|]. intros i p a H. by apply start_bind in H.
  - intros i j p q _ H. by apply start_bind in H.
  - intros i p H. by apply start_bind in H.
  - intros i k p [? _]%lookup_replicate. done.
Qed.

(** A core that has its id keeps it. *)
Lemma numbering_keep n m m' i x y :
  numbering n m → cores m !! i = Some x → numbered x → id_of y = id_of x →
  cores m' = <[i := y]> (cores m) → NEXT_CORE_ID m' = NEXT_CORE_ID m → numbering n m'.
Proof.
  intros Hg Hi Hx Hy Hc Hn. assert (numbered y) as Hny by (unfold numbered; by rewrite Hy).
  assert (∀ j, cores m' !! j ≫= id_of = cores m !! j ≫= id_of) as Hid.
  { intros j. rewrite Hc, (insert_bind _ _ i j x) by done. destruct (decide (j = i)) as [->|]; [by rewrite Hi|done]. }
  split; rewrite ?Hn.
  - rewrite Hc, length_insert. apply Hg.
  - rewrite Hc, (count_numbered _ i x), decide_True, Nat.add_0_r by done. apply Hg.
  - intros j k. rewrite Hid. apply Hg.
  - intros j j' k. rewrite !Hid. apply Hg.
  - intros k Hk. destruct (n_onto _ _ Hg k Hk) as [j Hj]. exists j. by rewrite Hid.
Qed.

Lemma numbering_take n m i : numbering n m → Z.of_nat n < 2 ^ 32 → cores m !! i = Some Entered →
  ∃ m', take_id i m = Ok m' ∧ numbering n m'.
Proof.
  intros Hg Hn Hi. eexists. split; [done|]. set (k0 := NEXT_CORE_ID m).
  assert (numbered (Numbered k0)) as Hk0 by (by eexists).
  pose proof (count_numbered _ i Entered _ Hi Hk0) as Hc. rewrite decide_False in Hc by (by intros [? ?]).
  pose proof (length_filter numbered (<[i := Numbered k0]> (cores m))) as Hle.
  rewrite length_insert, (n_len _ _ Hg), Hc in Hle. pose proof (n_next _ _ Hg) as Hnext. fold k0 in Hnext.
  assert (cast 32 (k0 + 1) = k0 + 1) as Hcast by (apply Z.mod_small; lia).
  assert (∀ j k, cores m !! j ≫= id_of = Some k → 0 ≤ k < k0) as Hlt by apply Hg.
  split; cbn [cores NEXT_CORE_ID]; fold k0; rewrite ?Hcast.
  - rewrite length_insert. apply Hg.
  - rewrite Hc. lia.
  - intros j k. rewrite (insert_bind _ _ i j Entered) by done. destruct (decide (j = i)) as [->|].
    + intros [= <-]. lia.
    + intros H%Hlt. lia.
  - intros j j' k. rewrite !(insert_bind _ _ i _ Entered) by done.
    destruct (decide (j = i)) as [->|], (decide (j' = i)) as [->|]; [done| | |apply Hg].
    + intros [= <-] H%Hlt. lia.
    + intros H%Hlt [= <-]. lia.
  - intros k Hk. destruct (Z.eq_dec k k0) as [->|Hne].
    + exists i. rewrite (insert_bind _ _ i i Entered) by done. by rewrite decide_True.
    + destruct (n_onto _ _ Hg k) as [j Hj]; [fold k0; lia|]. exists j. rewrite (insert_bind _ _ i j Entered) by done.
      destruct (decide (j = i)) as [->|]; [|done]. by rewrite Hi in Hj.
Qed.

(** A step that places nothing *)
Lemma placing_keep shared free0 m m' i x y :
  placing shared free0 m → cores m !! i = Some x → ptr_of y = ptr_of x →
  cores m' = <[i := y]> (cores m) → free_memory m' = free_memory m →
  (∀ j k p, cores m' !! j = Some (Running k p) → structs m' !! p = Some (fresh shared k p)) → placing shared free0 m'.
Proof.
  intros Hg Hi Hy Hc Hf Hst.
  assert (∀ j, cores m' !! j ≫= ptr_of = cores m !! j ≫= ptr_of) as Hp.
  { intros j. rewrite Hc, (insert_bind _ _ i j x) by done. destruct (decide (j = i)) as [->|]; [by rewrite Hi|done]. }
  split; [| | |exact Hst].
  - destruct (p_free _ _ _ Hg) as (free & H1 & H2 & H3 & H4). exists free. rewrite Hf. do 3 (split; [done|]).
    intros j p a. rewrite Hp. apply H4.
  - intros j j' p q Hne. rewrite !Hp. by apply (p_apart _ _ _ Hg).
  - intros j p. rewrite Hp. apply (p_align _ _ _ Hg).
Qed.

(** ** The steps *)
Context (k : Z) (Hsize : 0 < size_of < 2 ^ 62) (Hk : 0 ≤ k ≤ 12) (Halign : align_of = 2 ^ k).

(** In this state core [i] is about to get its structure, and no free entry holds a block for it. *)
Definition exhausted (i : nat) m : Prop :=
  ∃ c free, cores m !! i = Some (Numbered c) ∧ free_memory m = Some free ∧ wf free ∧
    ∀ e p, e ∈ RangeSet.entries free → (align_of | p) → Ranges.start e ≤ p → ¬ p + size_of - 1 ≤ end_ e.

Lemma phys_ptr_ok shared : 0 ≤ shared → shared + KERNEL_PHYS_WINDOW_BASE < 2 ^ 64 →
  phys_ptr shared = Ok (shared + KERNEL_PHYS_WINDOW_BASE).
Proof. intros H0 H. unfold phys_ptr, checked_add. by rewrite (proj2 (Z.ltb_lt _ _)). Qed.

Lemma allocate_locals free :
  wf free → (∀ a, has free a → a < KERNEL_PHYS_WINDOW_SIZE) →
  (RangeSet.allocate size_of align_of free = Ok (None, free) ∧
   ∀ e p, e ∈ RangeSet.entries free → (align_of | p) → Ranges.start e ≤ p → ¬ p + size_of - 1 ≤ end_ e) ∨
  ∃ p free', RangeSet.allocate size_of align_of free = Ok (Some p, free') ∧ block_taken free free' size_of align_of p ∧
    0 ≤ p ∧ p + size_of ≤ KERNEL_PHYS_WINDOW_SIZE.
Proof.
  intros Hwf Hwin. destruct (allocate_none_prefer free size_of align_of k Hwf) as [E|(p & free' & E & Hb)]; [lia|lia|done|left|right].
  - split; [done|]. apply (allocate_none free size_of align_of k free Hwf); [lia|lia|done| |done].
    assert (2 ^ k ≤ 2 ^ 12) by (apply Z.pow_le_mono_r; lia). intros e He.
    destruct (ordered_from_In 0 e _ (proj2 (proj2 Hwf)) He) as [? ?].
    assert (Ranges.start e < KERNEL_PHYS_WINDOW_SIZE); [|unfold KERNEL_PHYS_WINDOW_SIZE in *; lia].
    apply Hwin, Exists_exists. exists e. split; [done|]. unfold addr_in. lia.
  - exists p, free'. split; [done|]. split; [done|].
    destruct (block_bounds _ _ _ _ _ Hwf (proj1 Hsize) Hb) as [Hp _]. split; [done|].
    destruct Hb as (_ & _ & Hb & _). specialize (Hwin (p + size_of - 1) (proj1 (Hb (p + size_of - 1) ltac:(lia)))). lia.
Qed.

Context (shared : Z) (Hshared : 0 ≤ shared ∧ shared + KERNEL_PHYS_WINDOW_BASE < 2 ^ 64).
Context (free0 : RangeSet) (Hwindow : ∀ a, has free0 a → a < KERNEL_PHYS_WINDOW_SIZE).

Lemma place_ok n m i core_id : numbering n m → placing shared free0 m → cores m !! i = Some (Numbered core_id) →
  match place size_of align_of shared i core_id m with
  | Ok m' => numbering n m' ∧ placing shared free0 m'
  | Panic => exhausted i m
  | _ => False
  end.
Proof.
  intros Hn Hg Hi. unfold place. rewrite phys_ptr_ok by lia. cbn [mbind res_bind].
  destruct (p_free _ _ _ Hg) as (free & Ef & Hwf & Hsub & Hout). rewrite Ef. cbn [unwrap mbind res_bind].
  destruct (allocate_locals free Hwf ltac:(auto)) as [[E Hno]|(p & free' & E & Hb & Hp & Hpw)]; rewrite E; cbn [unwrap mbind res_bind].
  { by exists core_id, free. }
  destruct Hb as (Hwf' & Hal & Hin & Hsub' & _). unfold KERNEL_PHYS_WINDOW_SIZE in Hpw.
  assert (KERNEL_PHYS_WINDOW_BASE + 0x10000000000 < 2 ^ 64) as HW by (apply Z.ltb_lt; vm_compute; reflexivity).
  set (B := KERNEL_PHYS_WINDOW_BASE) in *.
  rewrite add_Ok by lia. cbn [mbind res_bind]. split.
  { apply (numbering_keep n m _ i (Numbered core_id) (Placed core_id (p + B))); try done. by eexists. }
  assert (∀ j q, j ≠ i → cores m !! j ≫= ptr_of = Some q → apart (p + B, size_of) (q, size_of)) as Hap.
  { intros j q Hne Hq. unfold apart. cbn [fst snd]. destruct (Z.le_gt_cases (p + B + size_of) q); [by left|].
    destruct (Z.le_gt_cases (q + size_of) (p + B)); [by right|]. exfalso.
    destruct (Hout j q (Z.max (p + B) q) Hq ltac:(lia)) as [_ Hnf]. apply Hnf, Hin. lia. }
  split; cbn [cores free_memory structs].
  - exists free'. split; [done|]. split; [done|]. split; [by eauto|]. intros j q a.
    rewrite (insert_bind _ _ i j (Numbered core_id)) by done. destruct (decide (j = i)) as [->|].
    + intros [= <-] Ha. destruct (Hin (a - B)); [lia|]. split; [by apply Hsub|done].
    + intros Hq Ha. destruct (Hout j q a Hq Ha). split; [done|]. by intros ?%Hsub'.
  - intros j j' q q' Hne. rewrite !(insert_bind _ _ i _ (Numbered core_id)) by done.
    destruct (decide (j = i)) as [->|], (decide (j' = i)) as [->|]; [done| | |by apply (p_apart _ _ _ Hg)].
    + intros [= <-] Hq. by apply (Hap j').
    + intros Hq [= <-]. specialize (Hap j q ltac:(done) Hq). unfold apart in *. cbn [fst snd] in *. lia.
  - intros j q. rewrite (insert_bind _ _ i j (Numbered core_id)) by done. destruct (decide (j = i)) as [->|].
    + intros [= <-]. by rewrite Z.add_simpl_r.
    + apply (p_align _ _ _ Hg).
  - intros j c q H. destruct (decide (j = i)) as [->|].
    + by rewrite list_lookup_insert_eq in H by (by eapply lookup_lt_Some).
    + rewrite list_lookup_insert_ne in H by done. by apply (p_struct _ _ _ Hg j).
Qed.

Lemma fill_ok n m i core_id ptr : numbering n m → placing shared free0 m → cores m !! i = Some (Placed core_id ptr) →
  ∃ m', fill shared i core_id ptr m = Ok m' ∧ numbering n m' ∧ placing shared free0 m'.
Proof.
  intros Hn Hg Hi. unfold fill. rewrite phys_ptr_ok by lia. cbn [mbind res_bind]. rewrite free_lists_generated.
  cbn [mbind res_bind]. eexists. split; [done|]. fold (fresh shared core_id ptr).
  split.
  { apply (numbering_keep n m _ i (Placed core_id ptr) (Running core_id ptr)); try done. by eexists. }
  apply (placing_keep shared free0 m _ i (Placed core_id ptr) (Running core_id ptr)); try done. cbn [cores structs].
  intros j c q H. destruct (decide (j = i)) as [->|Hne].
  - rewrite list_lookup_insert_eq in H by (by eapply lookup_lt_Some). injection H as <- <-. apply lookup_insert_eq.
  - rewrite list_lookup_insert_ne in H by done. rewrite lookup_insert_ne; [by apply (p_struct _ _ _ Hg j)|]. intros <-.
    assert (apart (ptr, size_of) (ptr, size_of)) as Hap.
    { apply (p_apart _ _ _ Hg i j); [done|by rewrite Hi|by rewrite H]. }
    unfold apart in Hap. cbn [fst snd] in Hap. lia.
Qed.

Lemma step_ok n m i : Z.of_nat n < 2 ^ 32 → numbering n m → placing shared free0 m →
  match step size_of align_of shared i m with
  | Ok m' => numbering n m' ∧ placing shared free0 m'
  | Panic => exhausted i m
  | _ => False
  end.
Proof.
  intros Hmax Hn Hg. unfold step. destruct (cores m !! i) as [[|c|c p|c p]|] eqn:Hi; [|by apply place_ok| |done..].
  - destruct (numbering_take n m i Hn Hmax Hi) as (m' & E & Hn'). rewrite E. split; [done|]. injection E as <-.
    apply (placing_keep shared free0 m _ i Entered (Numbered (NEXT_CORE_ID m))); try done. cbn [cores structs]. intros j c q H.
    destruct (decide (j = i)) as [->|]; [by rewrite list_lookup_insert_eq in H by (by eapply lookup_lt_Some)|].
    rewrite list_lookup_insert_ne in H by done. by apply (p_struct _ _ _ Hg j).
  - destruct (fill_ok n m i c p Hn Hg Hi) as (m' & -> & H). done.
Qed.

Lemma run_ok n schedule : Z.of_nat n < 2 ^ 32 → ∀ m, numbering n m → placing shared free0 m →
  match run size_of align_of shared schedule m with
  | Ok m' => numbering n m' ∧ placing shared free0 m'
  | Panic => ∃ before i after m', schedule = before ++ i :: after ∧
      run size_of align_of shared before m = Ok m' ∧ exhausted i m'
  | _ => False
  end.
Proof.
  intros Hmax. induction schedule as [|i schedule IH]; intros m Hn Hg; [done|]. cbn [run].
  pose proof (step_ok n m i Hmax Hn Hg) as Hs.
  destruct (step size_of align_of shared i m) as [m1| | |] eqn:E; [|done|by exists [], i, schedule, m|done]. cbn [mbind res_bind].
  destruct Hs as [Hn1 Hg1]. specialize (IH m1 Hn1 Hg1). destruct (run _ _ _ schedule m1) as [m2| | |]; [done|done| |done].
  destruct IH as (before & i' & after & m' & -> & Hr & He). exists (i :: before), i', after, m'. split; [done|].
  split; [|done]. cbn [run]. by rewrite E.
Qed.

(** C25. The start of any number of cores in the kernel, in any order of their steps: each
    core that is through finds by its gs register the structure it wrote, with its own id,
    address and empty free lists, aligned, in memory that was free and is no longer, and
    apart from every other core's; no two ids are the same, and exactly one core is the
    first as soon as any has an id.  The run panics only where a core asks for its structure
    in a state the run reached whose free memory has no entry that can hold it. *)
Theorem core_init_correct schedule n : wf free0 → Z.of_nat n < 2 ^ 32 →
  match run size_of align_of shared schedule (start n free0 : Machine) with
  | Ok m =>
      (∀ i c gs, cores m !! i = Some (Running c gs) →
         get_core_locals m gs = Some (fresh shared c gs) ∧ (align_of | gs) ∧
         (∀ a, gs ≤ a < gs + size_of → has free0 (a - KERNEL_PHYS_WINDOW_BASE) ∧
            ∃ free, free_memory m = Some free ∧ ¬ has free (a - KERNEL_PHYS_WINDOW_BASE)) ∧
         (∀ j c' gs', j ≠ i → cores m !! j = Some (Running c' gs') → c' ≠ c ∧ apart (gs, size_of) (gs', size_of))) ∧
      (∀ i c, cores m !! i ≫= id_of = Some c →
         ∃ j, cores m !! j ≫= id_of = Some 0 ∧ ∀ j', cores m !! j' ≫= id_of = Some 0 → j' = j)
  | Panic => ∃ before i after m, schedule = before ++ i :: after ∧
      run size_of align_of shared before (start n free0 : Machine) = Ok m ∧ exhausted i m
  | _ => False
  end.
Proof.
  intros Hwf Hn. pose proof (run_ok n schedule Hn _ (numbering_start n free0) (placing_start shared free0 n Hwf)) as H.
  destruct (run _ _ _ _ _) as [m| | |]; [|done..]. destruct H as [Hnum Hg]. split.
  - intros i c gs Hi. assert (cores m !! i ≫= ptr_of = Some gs) as Hp by (by rewrite Hi).
    split; [unfold get_core_locals; rewrite (p_struct _ _ _ Hg i c gs Hi); apply (p_struct _ _ _ Hg i c gs Hi)|]. split.
    { replace gs with (gs - KERNEL_PHYS_WINDOW_BASE + KERNEL_PHYS_WINDOW_BASE) by lia.
      apply Z.divide_add_r; [by apply (p_align _ _ _ Hg i)|]. transitivity (2 ^ 12).
      - exists (2 ^ (12 - k)). rewrite Halign, <-Z.pow_add_r by lia. f_equal. lia.
      - apply Z.mod_divide; [lia|]. vm_compute. reflexivity. }
    split.
    + intros a Ha. destruct (p_free _ _ _ Hg) as (free & Ef & _ & _ & Hout). destruct (Hout i gs a Hp Ha). split; [done|by exists free].
    + intros j c' gs' Hne Hj. split; [|apply (p_apart _ _ _ Hg i j); [done|done|by rewrite Hj]].
      intros ->. apply Hne. apply (n_inj _ _ Hnum j i c); [by rewrite Hj|by rewrite Hi].
  - intros i c Hi. pose proof (n_id _ _ Hnum i c Hi). destruct (n_onto _ _ Hnum 0) as [j Hj]; [lia|].
    exists j. split; [done|]. intros j' Hj'. by apply (n_inj _ _ Hnum j' j 0).
Qed.
End invariant.

(** * Two cores, interleaved *)
Lemma sample_window a : has Ranges.sample a → a < KERNEL_PHYS_WINDOW_SIZE.
Proof.
  unfold has. change (RangeSet.entries Ranges.sample) with [mkRange 0x1000 0x1FFF; mkRange 0x8000 0xFFFF].
  rewrite !covers_cons, covers_nil. unfold addr_in, KERNEL_PHYS_WINDOW_SIZE. simpl. lia.
Qed.
Lemma core_init_correct_witness : ∃ m : Machine unit unit,
  run 0xA00 8 0x500000 [0; 1; 1; 0; 0; 1]%nat (start 2 Ranges.sample) = Ok m ∧
  ∃ g0 g1, cores m = [Running 0 g0; Running 1 g1] ∧ get_core_locals m g1 = Some (fresh 0x500000 1 g1) ∧
    apart (g1, 0xA00) (g0, 0xA00).
Proof.
  pose proof (core_init_correct (Apic := unit) (Ints := unit) 0xA00 8 3 ltac:(lia) ltac:(lia) eq_refl 0x500000
    ltac:(split; [lia|apply Z.ltb_lt; vm_compute; reflexivity]) Ranges.sample sample_window [0; 1; 1; 0; 0; 1]%nat 2
    sample_wf ltac:(lia)) as H.
  destruct (run 0xA00 8 0x500000 [0; 1; 1; 0; 0; 1]%nat (start 2 Ranges.sample)) as [m| | |] eqn:E;
    [|vm_compute in E; discriminate E..].
  exists m. split; [reflexivity|]. destruct H as [H _].
  assert (∃ g0 g1, cores m = [Running 0 g0; Running 1 g1]) as (g0 & g1 & Hc).
  { apply (f_equal (λ r : res unit (Machine unit unit), match r with Ok m => cores m | _ => [] end)) in E.
    vm_compute in E. eexists _, _. symmetry. exact E. }
  exists g0, g1. split; [exact Hc|]. rewrite Hc in H.
  destruct (H 1%nat 1 g1 eq_refl) as (H1 & _ & _ & H2). split; [exact H1|].
  apply (H2 0%nat 0 g0); [discriminate|reflexivity].
Defined.
End CoreInit.
